(* ===== verification/_CoqProject ===== *)
-Q . S2P
Prelude.v
PyString.v
Errors.v
OrderedDict.v
PyValue.v
Sha256.v
Utf8.v
CircuitBreaker.v
RedisCircuitBreaker.v
Retry.v
LruCache.v
TaggedCache.v
RateLimit.v
Bulkhead.v
Lifecycle.v
Saga.v
EventSourcing.v
Inbox.v
Workflow.v
Security.v
Pipeline.v
ValueObjects.v
Pagination.v
DomainKernel.v
Webhooks.v
Flags.v
I18n.v
Credentials.v
Observability.v
Privacy.v
Maintenance.v
Asgi.v
FastApi.v
RedisAdapters.v
Outbox.v
EventRows.v
Mongo.v
Sql.v
SqlQuery.v
Jwt.v
Grpc.v
Dynamo.v
Masking.v
LogTools.v
Graphql.v
WebSocket.v
HttpClients.v
Keycloak.v
Search.v
Export.v
ObjectStores.v
Settings.v
Secrets.v
Brokers.v
SearchIndex.v
Cassandra.v
Mail.v
Metrics.v
Tracing.v
TestFakes.v
TestAsserts.v
Encryption.v
ConfigSources.v
EventBus.v
Timers.v
Lifetimes.v
Service.v
Schedulers.v
Wrappers.v
TestTools.v
Generators.v
