(* ===== verification/Prelude.v ===== *)
(** * Verification of mp-commons

    mp-commons is a Python library of building blocks for services: a kernel of
    domain types and ports ([src/src/mp_commons/kernel]), application services
    ([application]), resilience policies ([resilience]), configuration, security
    and observability helpers, and adapters that bind the ports to third-party
    clients.  This development models the parts that carry logic of their own and
    proves what makes each correct.  Paths below are relative to
    [src/src/mp_commons]; a method [m] of a class [C] is the definition [C_m], or
    [m] where that is unambiguous.

    ** Parts, and how they interact

    - Errors raised anywhere are instances of [kernel/errors]; handlers match on
      the class, so an exception carries its MRO ([Errors], on [pyexn] below).
    - Resilience policies wrap an awaited call: circuit breakers admit or reject
      it ([CircuitBreaker], [RedisCircuitBreaker]), the retry policy repeats it
      ([Retry]), limiters bound how many run ([Bulkhead]), the token bucket and
      the window limiter bound how often ([RateLimit]), fallbacks, deadlines and
      hedging bound how it ends ([Lifecycle]).
    - Caches: [LruCache] and [TaggedCache], both over the ordered dictionary of
      [OrderedDict]; cache-aside and the [@cached] decorator load through them.
    - Commands and queries go through the middlewares of [Pipeline], which use the
      idempotency store, the policy engine and the audit store of [Security].
    - [EventSourcing], [Saga], [Workflow] and [Inbox] keep their state in a store
      that is a port with an in-memory implementation in the repository.
    - Value objects, pages and domain building blocks ([ValueObjects],
      [Pagination], [DomainKernel]) are pure.
    - Around these: webhooks, feature flags, locales, credentials, service levels and
      health, data subject requests, jobs, secret rotation and configuration
      ([Webhooks], [Flags], [I18n], [Credentials], [Observability], [Privacy],
      [Maintenance], [Jwt], [Masking], [LogTools]), each a service of its own over
      ports that callers supply.
    - Adapters implement the ports on a database, a broker or a web framework.  The
      request side ([Asgi], [FastApi], [Grpc], [Graphql], [WebSocket]) composes with
      the limiters, signatures, tokens and correlation context above; the storage side
      ([RedisAdapters], [Mongo], [Sql], [Dynamo]) gives instances of the store classes,
      so that the theorems of [EventSourcing], [Pipeline] and [Outbox] apply to them.
    - Clients of other services: HTTP ([HttpClients] composes the retry policy and the
      circuit breaker), Keycloak ([Keycloak]), object stores ([ObjectStores]), search
      engines ([SearchIndex]), Cassandra ([Cassandra]), brokers ([Brokers]), mail and
      notifications ([Mail]), secret stores ([Secrets]).  Settings and configuration come
      from the environment, files and Consul ([Settings], [ConfigSources]).
    - What is observed of a running service: metrics, health probes and spans ([Metrics],
      [Tracing]).  Schedulers, profilers and retries of other packages are bound by
      [Schedulers] and [Wrappers].
    - [Service] is the example of the repository: the bus of [Pipeline] behind the routes
      and the correlation middleware of [Asgi].
    - What the library offers to tests: clocks, doubles of the ports, generators, assertions
      and tools ([TestFakes], [TestAsserts], [Generators], [TestTools]).  A double and the implementation it stands for are
      compared where both are modelled ([ObjectStores], [Sql]).

    ** How code becomes definitions

    - A coroutine or method that may raise and has effects is a [PyM S A]: a
      function from the state [S] to an outcome ([Return] or [Raise]) and the state
      left behind, also when it raises.  [try_except] and [try_finally] are
      definitions of this file, and [triple] is the program logic used on them.
    - Under [asyncio] a task runs without interruption between two awaits.  What a
      method does between awaits, or under a lock it never awaits inside, is one
      atomic step; where several calls can be in flight ([CircuitBreaker],
      [Bulkhead], cache-aside in [TaggedCache], the triggers of [Workflow] cut at
      their hooks, the idempotency middleware of [Pipeline] cut at its awaits) an
      inductive step relation interleaves these steps in any order and invariants are
      proved by induction on it.
    - Objects shared by reference and mutated in place are modelled as shared: the
      inbox has a heap of records that its store and its caller both point into;
      the workflow engine mutates the entry of its store before it saves it.
    - Python floats are exact rationals [Q]: rounding is not modelled, and the
      theorems on delays and token counts are about the formulas.  [int] is [Z],
      unbounded as in Python.  [Decimal] is a coefficient and an exponent with the
      default context's 28 digits.  A [datetime] is a number of microseconds.
      Strings are ASCII [string]s, and bytes from outside are decoded as UTF-8 where the code
      decodes them ([Utf8]); hexadecimal digests, base64 and HMAC signatures are
      computed, not assumed.
    - The clock, random numbers, [sleep], UUIDs, Redis, the handlers, guards,
      actions and serialisers that callers supply are not code of the repository:
      they are arguments of the definitions.  What is relied on of Redis, of an
      event store, of an idempotency store or of the retry environment is a class
      of laws next to the class of operations ([RedisSpec], [EventStoreSpec],
      [IdempotencyStoreSpec]); client theorems are proved against the class, and
      an instance shows that the laws can hold.
    - A database or broker client is a class of operations with a class of documented
      laws on an abstract view (the rows of a table, the entries of a key space), and an
      executable instance.  An ASGI application is a function of its [receive] and [send]
      that works over any state they may have; [Asgi.Parametric] is what this gives.
    - Log output, [__repr__] and abstract methods have no counterpart, except where log
      output is the component's purpose ([LogTools]).

    ** Fuel and bounds

    Recursion is structural nearly everywhere: loops run over a list or down from
    the number of attempts or steps that remain.  [Pagination.walk_pages] follows
    [has_next] with fuel and gives [None] when it has not come to a last page; the theorem about
    it gives the fuel that is enough (one more than the number of items) and concludes that the
    walk ends and returns every item.  The
    number of pages is computed as the code does, by a float division rounded to 53
    bits, and the bound of 2{^43} items is where its ceiling is still that of the exact
    quotient.
    [Asgi.read_body] reads request messages with fuel; the number of pieces the body
    arrives in is enough.  [Masking.glob_parse] uses the length of the pattern, since
    each round consumes a character.  [Graphql.crawl] gives [None] when its rounds are used up;
    one more than there are items is enough.  Loops that are stopped by a clock or never stop ([TestAsserts.count_ops],
    [TestAsserts.user_loop], [ConfigSources.FileConfigSource_watch]) take a number of rounds: their
    theorems hold for any number, and [TestAsserts.throughput_terminates] gives one that is
    enough.  [EventBus.publish_terminates] bounds every run of the event bus.
    [Wrappers.attempts_loop] takes the number of rounds of its [async for]; one more than
    [max_attempts] is enough for the result.
    The in-memory stores, semaphores and caches are unbounded unless the code
    bounds them.

    ** Files, sources and theorems

    - [Prelude]: exceptions, outcomes, the [PyM] monad and its [triple]s, time,
      generic lemmas.  [PyString]: the [str] and [list] operations used.
    - [Errors]: [kernel/errors].
    - [OrderedDict]: [collections.OrderedDict].
    - [CircuitBreaker]: [resilience/circuit_breaker/breaker.py].  In every
      interleaving the breaker is well formed; a call is rejected exactly when the
      breaker is open and its timeout has not passed; a run of failures opens it and
      the stated run of successes closes it.
    - [RedisCircuitBreaker]: [redis_breaker.py] and its two Lua scripts.  The
      threshold opens it, an open breaker and a lost probe lock reject; how many
      successes close it.
    - [Retry]: [resilience/retry].  The exact number of calls and sleeps and the
      result of [execute] for any script of outcomes; bounds of every delay.
    - [LruCache], [TaggedCache]: [application/cache], [resilience/cache].  The
      invariant of every reachable cache, refinement of eviction to recency order,
      expiry, tag invalidation, one load of a key at a time for concurrent readers and how
      often a key is loaded.
    - [RateLimit]: [application/rate_limit], [resilience/throttle],
      [kernel/ddd/policies.py].  Requests allowed per window, tokens granted over
      any interval, exactness of the advised waiting time, composition of policies.
    - [Bulkhead]: [resilience/bulkhead], [resilience/backpressure.py].  How many
      tasks run and wait in any interleaving with cancellation.
    - [Lifecycle]: [resilience/fallback], [deadline], [timeouts], [hedge],
      [graceful_shutdown.py], [dead_letter_scheduler.py].
    - [Saga]: [application/saga].  A run executes a prefix of the steps and, on a
      failure, compensates exactly the completed ones in reverse; the record saved
      tells where it ended.
    - [EventSourcing]: [application/event_sourcing], [kernel/ddd/aggregate.py].
      Streams stay gapless, a stale writer conflicts, what is saved is loaded back.
    - [Inbox]: [application/inbox].  What a redelivery does.
    - [Workflow]: [application/workflow].  Histories are made of declared transitions, and
      are walks when the triggers of an instance do not overlap; which transition a
      trigger takes.
    - [Security]: [kernel/security].  Authorisation decides by granted permissions;
      audit queries are exact.
    - [Pipeline]: [application/pipeline], [application/cqrs],
      [kernel/messaging/idempotency.py], [testing/fakes/idempotency.py].  Order of
      middlewares, replay of idempotent commands that do not overlap, deduplication, audit records.
    - [ValueObjects]: [kernel/types], [kernel/contracts].  Arithmetic of money,
      slugs as the words of a text, round trip of versions.
    - [Pagination]: [application/pagination].  Pages partition the items.
    - [DomainKernel]: [kernel/types/option.py], [result.py], [kernel/ddd].
    - [PyValue]: values of configuration and JSON documents.  [Sha256]: SHA-256 and
      HMAC, computed and checked against the published test vectors.  [Utf8]: decoding of
      bytes, operations on code points, [hmac.compare_digest].
    - [Webhooks]: [application/webhooks].  The exact requests made for an
      event, their signatures and retries, one record per subscriber.
    - [Flags]: [config/flags], [application/feature_flags].  Roll-outs are monotone,
      targeting decides first, the client always answers.
    - [I18n]: [application/i18n].  Locale tags print back, negotiation picks the best
      supported locale, the middleware scopes the locale to the request.
    - [Credentials]: [kernel/security/pkce.py], [security/apikeys].  PKCE pairs verify,
      the life of an API key, safety of the migration from bcrypt to argon2.
    - [Observability]: [observability/slo], [health], [correlation].  The views of an
      error budget agree, alerts are exact, health reports are complete.
    - [Privacy]: [application/gdpr].  Erasure reaches every scope; consent.
    - [Maintenance]: [application/scheduler], [security/rotation], [config/dynamic].
      Failures of jobs and secrets are isolated; configuration is cached for its time
      to live.

    - [Asgi]: [adapters/fastapi/middleware.py].  Every response carries the correlation
      id and the security headers; signatures, tokens and quotas decide whether the
      application runs; requests are counted exactly.
    - [FastApi]: [exception_mapper.py], [deps.py], [routers.py] of [adapters/fastapi].
      Which answer an error gets, what is documented of it, when a service is ready.
    - [RedisAdapters]: [adapters/redis].  Mutual exclusion of the lock under crashes and
      expiry, the course of the rate limiter, the life of an idempotency record.
    - [Outbox]: [kernel/messaging/outbox.py], [testing/fakes/outbox.py],
      [adapters/redis/streams.py], the dispatchers of [adapters/kafka] and
      [adapters/pulsar].  A run publishes each pending record once and files its fate.
    - [EventRows], [Mongo], [Sql]: [adapters/mongodb], [adapters/sqlalchemy].  The stores
      implement the event store and outbox contracts, race conditions end in a refused
      write, the audit table answers like the store in memory.
    - [SqlQuery]: [specification.py], [tenant_filter.py], [mixins.py], [migrations.py] of
      [adapters/sqlalchemy].  A specification and its SQL expression accept the same rows;
      what the tenant filter does.
    - [Jwt], [Grpc]: [security/jwt], [adapters/grpc].  Tokens decode to what was issued;
      what the composed interceptors do with a call.
    - [Dynamo]: [adapters/dynamodb].  One of many writers of a key succeeds; pages.
    - [Masking]: [application/masking], [kernel/security/pii.py],
      [observability/logging/filters.py].  What is masked is
      what the patterns, described on their own, match; masked values do not influence the result.
    - [LogTools]: [observability/logging], [observability/events].  Records are delivered
      in order, sampling is exact, events survive a round trip.
    - [Graphql], [WebSocket]: [adapters/graphql], [adapters/websocket].  Cursors decode
      and pages reach every item; broadcasts reach every connection.

    - [HttpClients]: [adapters/http].  Errors are translated, the composed clients retry
      and stop calling a server that is down.
    - [Keycloak]: [adapters/keycloak].  Which tokens are accepted; keys are fetched again
      when a token names an unknown one.
    - [Search], [Export]: [application/search], [application/export], [application/files].  Searches are exact and
      sorted; exported files read back in every quoting mode that can write them.
    - [ObjectStores]: [adapters/s3], [gcs], [azure_blob].  The S3 store and its double
      agree on every sequence of calls.
    - [Settings], [Secrets]: [config/settings], [config/secrets], [config/validation], the secret
      stores of [adapters].  Settings survive a round trip through the environment; what a
      secret store answers.
    - [Brokers]: [adapters/nats], [rabbitmq], [gcp_pubsub], [azure_servicebus], [pulsar],
      [sqs], [celery].  Batches, acknowledgements and closing of connections.
    - [SearchIndex], [Cassandra]: [adapters/elasticsearch], [opensearch], [cassandra].
      Queries select what they say; over a session that does what the text of a CQL statement
      says, the Cassandra repository refines a partial function.
    - [Mail]: [application/email], [application/notifications].  Every recipient and attachment is
      carried; how often a message is tried.
    - [Metrics], [Tracing]: [observability/metrics], [observability/health/adapters.py],
      [adapters/opentelemetry], [adapters/prometheus], [observability/tracing].  What is counted and exported; spans
      nest as statements do when they start, and what is left of that when they do not.
    - [TestFakes], [TestAsserts]: [kernel/time], [testing].  What the doubles promise; what the
      assertions accept.
    - [Encryption]: [security/encryption], [security/tls].  Ciphertexts decrypt, the rotation
      of a column keeps every plaintext or changes nothing, which certificates pass.
    - [ConfigSources]: [config/dynamic/source.py].  What a file or Consul source delivers
      and which versions a watch reports.
    - [EventBus]: [application/cqrs/events.py].  What publishing does under every
      interleaving of the handlers; which handler a decorated command reaches.
    - [Timers]: [resilience/timeouts], [deadline_aware], the tasks of [resilience/hedge], the loop of
      [dead_letter_scheduler.py], signals of [graceful_shutdown.py].  Nothing lasts longer than its limit; the
      fastest run wins; the loop survives failed cycles.
    - [Lifetimes]: how the clients of [azure_servicebus], [azure_blob], [gcp_pubsub], [gcs] and
      [pulsar] are opened and closed, and what they leave open.
    - [Service]: [src/examples/simple_service/app.py], the health router of
      [adapters/fastapi/routers.py].  The command bus, the handler, the routes and the correlation middleware composed: a
      started service implements a collection of orders to which orders are only added.
    - [Schedulers]: [application/scheduler/apscheduler.py], [security/rotation].  Which jobs the
      package runs and when an edit reaches it; what a rotation of a password leaves.
    - [Wrappers]: the decorator of [resilience/cache/aside.py], [resilience/retry/tenacity_adapter.py],
      [observability/logging/factory.py], [observability/profiling].  The retry policy over tenacity makes the same
      calls as [Retry]; what redaction reaches.
    - [TestTools], [Generators]: [testing/chaos/toxiproxy.py], [testing/fixtures/database.py],
      [testing/load/locust_helpers.py], [testing/approval/plugin.py], [testing/generators],
      [src/docs/examples/locustfile.py].  Toxics live as long as their block, fixtures clean up, generated values
      are valid.

    ** What is not modelled

    Code that only hands its arguments to a third-party package or a framework and has no
    branch of its own: image resizing, filling of spreadsheets, the creation of tables and the Alembic runner, routers and
    fixtures that only register handlers, lazy imports with their installation hints, presigned URLs, the no-op
    implementations and the ports without a body.  A model of it would be the call itself.
    Serialisation hooks of validation libraries produce output only.  The second client of a service that repeats an
    operation modelled elsewhere (OpenSearch beside Elasticsearch) is modelled where it differs. *)
From stdpp Require Export base tactics list option strings pretty gmap.
From Stdlib Require Export QArith Lqa ZArith Lia.

Set Default Goal Selector "!".
#[local] Set Warnings "-register-all".

(** ** Python exceptions

    An exception instance carries the names of the classes of its MRO (its own
    class first), its message, and the exceptions it holds as attributes or
    causes.  [isinstance e c] is then membership of [c] in the MRO. *)
Inductive pyexn : Type := PyExn {
  exn_mro : list string;
  exn_msg : string;
  exn_attrs : list (string * string);
  exn_causes : list pyexn;
}.

(** [isinstance(e, c)] for a class [c] given by its name. *)
Definition isinstance (e : pyexn) (c : string) : bool :=
  bool_decide (c ∈ exn_mro e).

(** [isinstance(e, (c1, ..., cn))]. *)
Definition isinstance_any (e : pyexn) (cs : list string) : bool :=
  existsb (isinstance e) cs.

(** What [except Exception] catches. *)
Definition is_Exception (e : pyexn) : bool := isinstance e "Exception".

(** Instance of a builtin or user class that derives directly from [base]. *)
Definition exn_of (mro : list string) (msg : string) : pyexn :=
  PyExn (mro ++ ["Exception"; "BaseException"]) msg [] [].

Definition ValueError (msg : string) : pyexn := exn_of ["ValueError"] msg.
Definition KeyError (msg : string) : pyexn := exn_of ["KeyError"; "LookupError"] msg.
Definition IndexError (msg : string) : pyexn := exn_of ["IndexError"; "LookupError"] msg.
Definition TypeError (msg : string) : pyexn := exn_of ["TypeError"] msg.

(** Builtin [TimeoutError], an [OSError]. *)
Definition BuiltinTimeoutError : pyexn := exn_of ["TimeoutError"; "OSError"] "".

(** [asyncio.CancelledError] is a [BaseException] but not an [Exception]. *)
Definition CancelledError : pyexn :=
  PyExn ["CancelledError"; "BaseException"] "" [] [].

(** ** Outcomes and the state-and-exception monad

    A computation returns or raises; either way the state it has changed stays
    changed, as in Python. *)
Inductive outcome (A : Type) : Type :=
| Return (a : A)
| Raise (e : pyexn).
Arguments Return {A} a.
Arguments Raise {A} e.

Definition PyM (S A : Type) : Type := S → outcome A * S.

#[export] Instance PyM_ret (S : Type) : MRet (PyM S) := λ A a s, (Return a, s).

#[export] Instance PyM_bind (S : Type) : MBind (PyM S) := λ A B k m s,
  match m s with
  | (Return a, s') => k a s'
  | (Raise e, s') => (Raise e, s')
  end.

Definition raise {S A : Type} (e : pyexn) : PyM S A := λ s, (Raise e, s).

(** Lift a pure outcome. *)
Definition from_outcome {S A : Type} (o : outcome A) : PyM S A := λ s, (o, s).

(** Read a component of the state. *)
Definition reads {S A : Type} (f : S → A) : PyM S A := λ s, (Return (f s), s).

(** Assign to the state. *)
Definition updates {S : Type} (f : S → S) : PyM S unit := λ s, (Return tt, f s).

(** [try: m  except BaseException as exc: h(exc)]. *)
Definition try_base {S A : Type} (m : PyM S A) (h : pyexn → PyM S A) : PyM S A := λ s,
  match m s with
  | (Return a, s') => (Return a, s')
  | (Raise e, s') => h e s'
  end.

(** [try: m  except Exception as exc: h(exc)]; other base exceptions escape. *)
Definition try_except {S A : Type} (m : PyM S A) (h : pyexn → PyM S A) : PyM S A :=
  try_base m (λ e, if is_Exception e then h e else raise e).

(** [try: m  finally: fin]; an exception of [fin] replaces the outcome of [m]. *)
Definition try_finally {S A : Type} (m : PyM S A) (fin : PyM S unit) : PyM S A := λ s,
  match m s with
  | (o, s') =>
      match fin s' with
      | (Return _, s'') => (o, s'')
      | (Raise e, s'') => (Raise e, s'')
      end
  end.

(** [for x in l: f(x)]. *)
Fixpoint for_each {S A : Type} (l : list A) (f : A → PyM S unit) : PyM S unit :=
  match l with
  | [] => mret tt
  | x :: l' => f x ;; for_each l' f
  end.

(** Run a computation that touches only the second half of the state. *)
Definition on_snd {X S A : Type} (m : PyM S A) : PyM (X * S) A := λ s,
  let '(o, s2) := m (snd s) in (o, (fst s, s2)).

(** Run a computation that touches only the first half of the state. *)
Definition on_fst {X S A : Type} (m : PyM S A) : PyM (S * X) A := λ s,
  let '(o, s1) := m (fst s) in (o, (s1, snd s)).

Lemma bind_assoc {S A B C : Type} (m : PyM S A) (f : A → PyM S B) (g : B → PyM S C) s :
  ((m ≫= f) ≫= g) s = (m ≫= λ a, f a ≫= g) s.
Proof. unfold mbind, PyM_bind. by destruct (m s) as [[a|e] s']. Qed.

Lemma bind_ext {S A B : Type} (m : PyM S A) (f g : A → PyM S B) s :
  (∀ a s', f a s' = g a s') → (m ≫= f) s = (m ≫= g) s.
Proof. intros H. unfold mbind, PyM_bind. by destruct (m s) as [[a|e] s']. Qed.

Lemma for_each_app {S A : Type} (l1 l2 : list A) (f : A → PyM S unit) s :
  for_each (l1 ++ l2) f s = (for_each l1 f ;; for_each l2 f) s.
Proof.
  revert s. induction l1 as [|x l1 IH]; intros s; [done|]. simpl.
  rewrite bind_assoc. apply bind_ext. intros _ s'. apply IH.
Qed.

(** *** Program logic

    [triple P m Q E]: from a state satisfying [P], [m] ends in [Q] with its result
    if it returns and in [E] with its exception if it raises. *)
Definition triple {S A : Type} (P : S → Prop) (m : PyM S A) (Q : A → S → Prop)
    (E : pyexn → S → Prop) : Prop :=
  ∀ s, P s → match m s with (Return a, s') => Q a s' | (Raise e, s') => E e s' end.

Section Triples.
Context {S : Type}.
Implicit Types (P : S → Prop) (E : pyexn → S → Prop).

Lemma triple_ret {A} P (a : A) Q E : (∀ s, P s → Q a s) → triple P (mret a) Q E.
Proof. intros H s Hs. by apply H. Qed.

Lemma triple_raise {A} P e (Q : A → S → Prop) E : (∀ s, P s → E e s) → triple P (raise e) Q E.
Proof. intros H s Hs. by apply H. Qed.

Lemma triple_bind {A B} P (m : PyM S A) (k : A → PyM S B) Q R E :
  triple P m Q E → (∀ a, triple (Q a) (k a) R E) → triple P (m ≫= k) R E.
Proof.
  intros Hm Hk s Hs. specialize (Hm s Hs). unfold mbind, PyM_bind.
  destruct (m s) as [[a|e] s']; [by apply Hk | done].
Qed.

Lemma triple_reads {A} P (f : S → A) Q E : (∀ s, P s → Q (f s) s) → triple P (reads f) Q E.
Proof. intros H s Hs. by apply H. Qed.

Lemma triple_updates P (f : S → S) (Q : unit → S → Prop) E :
  (∀ s, P s → Q tt (f s)) → triple P (updates f) Q E.
Proof. intros H s Hs. by apply H. Qed.

Lemma triple_outcome {A} P (o : outcome A) Q E :
  (∀ s, P s → match o with Return a => Q a s | Raise e => E e s end) →
  triple P (from_outcome o) Q E.
Proof. intros H s Hs. unfold from_outcome. by specialize (H s Hs); destruct o. Qed.

Lemma triple_weaken {A} P P' (m : PyM S A) Q Q' E E' :
  triple P' m Q' E' → (∀ s, P s → P' s) → (∀ a s, Q' a s → Q a s) → (∀ e s, E' e s → E e s) →
  triple P m Q E.
Proof.
  intros Hm HP HQ HE s Hs. specialize (Hm s (HP s Hs)). destruct (m s) as [[a|e] s']; auto.
Qed.

Lemma triple_try_base {A} P (m : PyM S A) h Q E E' :
  triple P m Q E' → (∀ e, triple (E' e) (h e) Q E) → triple P (try_base m h) Q E.
Proof.
  intros Hm Hh s Hs. specialize (Hm s Hs). unfold try_base.
  destruct (m s) as [[a|e] s']; [done | by apply Hh].
Qed.

Lemma triple_try_except {A} P (m : PyM S A) h Q E E' :
  triple P m Q E' → (∀ e, triple (E' e) (h e) Q E) →
  (∀ e s, is_Exception e = false → E' e s → E e s) →
  triple P (try_except m h) Q E.
Proof.
  intros Hm Hh HE. apply (triple_try_base _ _ _ _ _ E' Hm). intros e.
  destruct (is_Exception e) eqn:He; [apply Hh | apply triple_raise; auto].
Qed.

End Triples.

(** A computation of the rest of the world leaves the component as it is. *)
Lemma triple_on_snd {S X A : Type} (P : S → Prop) (m : PyM X A) :
  triple (λ s, P (fst s)) (on_snd m) (λ _ s, P (fst s)) (λ _ s, P (fst s)).
Proof. intros [s x] Hs. unfold on_snd. simpl. by destruct (m x) as [[a|e] x']. Qed.

Lemma triple_on_fst {S X A : Type} (P : S → Prop) (m : PyM S A) Q E :
  triple P m Q E →
  triple (λ s : S * X, P (fst s)) (on_fst m) (λ a s, Q a (fst s)) (λ e s, E e (fst s)).
Proof.
  intros Hm [s x] Hs. specialize (Hm s Hs). unfold on_fst. simpl.
  by destruct (m s) as [[a|e] s'].
Qed.

(** *** Sequences of calls *)

(** What a sequence of calls answers, an exception of one call not ending the sequence. *)
Fixpoint run_each {S C A : Type} (call : C → PyM S A) (cs : list C) (s : S) : list (outcome A) * S :=
  match cs with
  | [] => ([], s)
  | c :: cs' => let '(a, s1) := call c s in let '(rest, s2) := run_each call cs' s1 in (a :: rest, s2)
  end.

Lemma run_each_app {S C A : Type} (call : C → PyM S A) cs1 cs2 s :
  run_each call (cs1 ++ cs2) s =
    let '(a1, s1) := run_each call cs1 s in let '(a2, s2) := run_each call cs2 s1 in (a1 ++ a2, s2).
Proof.
  revert s. induction cs1 as [|c cs1 IH]; intros s; simpl; [by destruct (run_each call cs2 s)|].
  destruct (call c s) as [a s1]. rewrite IH. destruct (run_each call cs1 s1) as [a1 s2]. by destruct (run_each call cs2 s2).
Qed.

Lemma run_each_invariant {S C A : Type} (call : C → PyM S A) (P : S → Prop) cs s :
  (∀ c, triple P (call c) (λ _, P) (λ _, P)) → P s → P (snd (run_each call cs s)).
Proof.
  intros Hc. revert s. induction cs as [|c cs IH]; intros s Hs; [done|]. simpl. specialize (Hc c s Hs).
  destruct (call c s) as [[a|e] s1]; specialize (IH s1 Hc); by destruct (run_each call cs s1).
Qed.

(** ** Strings *)

(** [s in l] for a list, tuple or frozenset of strings. *)
Definition str_in (s : string) (l : list string) : bool := existsb (String.eqb s) l.

(** [str(n)] of an [int]. *)
Definition str_of_int (n : Z) : string := pretty n.

(** ** Rationals standing for Python floats *)

Definition Qltb (a b : Q) : bool := negb (Qle_bool b a).

(** Python's [min(a, b)] and [max(a, b)] on two arguments: the first one wins a tie. *)
Definition py_min (a b : Q) : Q := if Qltb b a then b else a.
Definition py_max (a b : Q) : Q := if Qltb a b then b else a.

Lemma Qltb_lt (a b : Q) : Qltb a b = true ↔ (a < b)%Q.
Proof.
  unfold Qltb. rewrite negb_true_iff. split.
  - intros H. apply Qnot_le_lt. intros Hle. apply Qle_bool_iff in Hle. congruence.
  - intros H. apply not_true_iff_false. rewrite Qle_bool_iff. lra.
Qed.

Lemma Qltb_ge (a b : Q) : Qltb a b = false ↔ (b <= a)%Q.
Proof. unfold Qltb. rewrite negb_false_iff. apply Qle_bool_iff. Qed.

Lemma Qle_bool_false (a b : Q) : Qle_bool a b = false ↔ (b < a)%Q.
Proof.
  rewrite <- not_true_iff_false, Qle_bool_iff. split; [apply Qnot_le_lt | lra].
Qed.

Lemma py_min_spec (a b : Q) :
  (py_min a b == a ∧ (a <= b)%Q) ∨ (py_min a b == b ∧ (b < a)%Q).
Proof.
  unfold py_min. destruct (Qltb b a) eqn:E.
  - right. apply Qltb_lt in E. split; [reflexivity | lra].
  - left. apply Qltb_ge in E. split; [reflexivity | lra].
Qed.

Lemma py_min_mono (a b c : Q) :
  (0 <= a <= b)%Q → (0 <= c)%Q →
  (0 <= py_min a c)%Q ∧ (py_min a c <= py_min b c)%Q ∧ (py_min b c <= c)%Q.
Proof.
  intros Hab Hc.
  destruct (py_min_spec a c) as [[E1 ?]|[E1 ?]], (py_min_spec b c) as [[E2 ?]|[E2 ?]];
    split_and!; lra.
Qed.

Lemma py_max_spec (a b : Q) :
  (py_max a b == a ∧ (b <= a)%Q) ∨ (py_max a b == b ∧ (a < b)%Q).
Proof.
  unfold py_max. destruct (Qltb a b) eqn:E.
  - right. apply Qltb_lt in E. split; [reflexivity | lra].
  - left. apply Qltb_ge in E. split; [reflexivity | lra].
Qed.

(** ** Lists *)

Lemma length_keys {A B : Type} (d : list (A * B)) : length d = length d.*1.
Proof. by rewrite length_fmap. Qed.

Lemma default_last_cons {A : Type} (d x : A) (l : list A) :
  default d (last (x :: l)) = default x (last l).
Proof. rewrite last_cons. by destruct (last l). Qed.

Lemma NoDup_tail {A : Type} (l : list A) : NoDup l → NoDup (tail l).
Proof. destruct l; [done|]. rewrite NoDup_cons. tauto. Qed.

Section FilterNe.
Context {K : Type} `{EqDecision K}.

Lemma filter_ne_notin (k : K) (l : list K) : k ∉ l → filter (λ x, x ≠ k) l = l.
Proof.
  induction l as [|x l IH]; intros Hk; [done|]. rewrite not_elem_of_cons in Hk.
  rewrite filter_cons, decide_True by (intros ->; tauto). f_equal. tauto.
Qed.

Lemma NoDup_filter_ne_app (k : K) (l : list K) :
  NoDup l → NoDup (filter (λ x, x ≠ k) l ++ [k]).
Proof.
  intros Hl. apply NoDup_app. split_and!.
  - by apply NoDup_filter.
  - intros x Hx ->%list_elem_of_singleton. apply list_elem_of_filter in Hx. tauto.
  - apply NoDup_singleton.
Qed.

Lemma length_filter_ne (k : K) (l : list K) :
  NoDup l → k ∈ l → S (length (filter (λ x, x ≠ k) l)) = length l.
Proof.
  induction l as [|x l IH]; intros Hl Hk; [by apply not_elem_of_nil in Hk|].
  apply NoDup_cons in Hl as [Hx Hl]. rewrite filter_cons.
  apply elem_of_cons in Hk as [-> | Hk].
  - rewrite decide_False by tauto. simpl. by rewrite filter_ne_notin.
  - rewrite decide_True by (intros ->; done). simpl. by rewrite <- IH.
Qed.

End FilterNe.

(** ** Automation *)

Create HintDb mpc.
Create Rewrite HintDb mpc.
#[export] Hint Rewrite Qltb_lt Qltb_ge Qle_bool_iff Qle_bool_false
  Z.leb_le Z.leb_gt Z.ltb_lt Z.ltb_ge Z.eqb_eq Z.eqb_neq : mpc.
#[export] Hint Rewrite Z.geb_le Z.geb_leb Z.gtb_ltb
  Nat.eqb_eq Nat.eqb_neq Nat.leb_le Nat.leb_gt Nat.ltb_lt Nat.ltb_ge : mpc.

(** Turn the boolean tests of the code into propositions. *)
Ltac reflect_tests := autorewrite with mpc in *.

(** Split the first [if] or [match] of the goal, reflecting its test. *)
Ltac split_test :=
  match goal with
  | |- context [if ?b then _ else _] =>
      let E := fresh "Htest" in destruct b eqn:E; reflect_tests
  | |- context [match ?x with _ => _ end] =>
      let E := fresh "Hcase" in destruct x eqn:E
  end.
