(* ===== verification/PyString.v ===== *)
(** * Python strings and lists

    The operations of [str] and [list] the sources use, on ASCII strings:
    [startswith], [endswith], [in], slices, [repr], [lower], [strip], [split],
    the JSON encoding of a string, and the stable [sorted]. *)
From S2P Require Import Prelude.
From Stdlib Require Export Ascii Sorting.Sorted.

Definition dquote : string := String "034"%char "".
Definition squote : string := String "039"%char "".

Definition startswith (p s : string) : bool := String.prefix p s.

Definition endswith (p s : string) : bool :=
  let n := String.length s in
  let m := String.length p in
  Nat.leb m n && String.eqb (String.substring (n - m) m s) p.

(** [s[:-1]]. *)
Definition drop_last (s : string) : string := String.substring 0 (String.length s - 1) s.

(** [p in s]. *)
Fixpoint contains (p s : string) : bool :=
  startswith p s || match s with "" => false | String _ s' => contains p s' end.

(** Character classes (ASCII). *)
Definition code (c : ascii) : nat := nat_of_ascii c.
Definition in_range (lo hi : nat) (c : ascii) : bool := Nat.leb lo (code c) && Nat.leb (code c) hi.
Definition is_digit : ascii → bool := in_range 48 57.
Definition is_upper : ascii → bool := in_range 65 90.
Definition is_lower : ascii → bool := in_range 97 122.
Definition is_alpha (c : ascii) : bool := is_upper c || is_lower c.
Definition is_alnum (c : ascii) : bool := is_alpha c || is_digit c.
(** [str.isspace], and the characters [strip()] removes. *)
Definition is_space (c : ascii) : bool := in_range 9 13 c || in_range 28 32 c.

Fixpoint str_map (f : ascii → ascii) (s : string) : string :=
  match s with "" => "" | String c s' => String (f c) (str_map f s') end.

Fixpoint str_all (p : ascii → bool) (s : string) : bool :=
  match s with "" => true | String c s' => p c && str_all p s' end.

(** Texts of ASCII characters only. *)
Definition is_ascii : string → bool := str_all (λ c, Nat.ltb (code c) 128).

Fixpoint str_filter (p : ascii → bool) (s : string) : string :=
  match s with
  | "" => ""
  | String c s' => if p c then String c (str_filter p s') else str_filter p s'
  end.

Definition lower_char (c : ascii) : ascii :=
  if is_upper c then ascii_of_nat (code c + 32) else c.
Definition upper_char (c : ascii) : ascii :=
  if is_lower c then ascii_of_nat (code c - 32) else c.
Definition lower : string → string := str_map lower_char.
Definition upper : string → string := str_map upper_char.

Fixpoint lstrip_by (p : ascii → bool) (s : string) : string :=
  match s with
  | "" => ""
  | String c s' => if p c then lstrip_by p s' else s
  end.

Fixpoint rstrip_by (p : ascii → bool) (s : string) : string :=
  match s with
  | "" => ""
  | String c s' =>
      match rstrip_by p s' with
      | "" => if p c then "" else String c ""
      | r => String c r
      end
  end.

Definition strip_by (p : ascii → bool) (s : string) : string := rstrip_by p (lstrip_by p s).
Definition strip : string → string := strip_by is_space.

(** [s.split(c)] for a one-character separator. *)
Fixpoint split_on (c : ascii) (s : string) : list string :=
  match s with
  | "" => [""]
  | String c' s' =>
      if Ascii.eqb c' c then "" :: split_on c s'
      else match split_on c s' with
           | w :: ws => String c' w :: ws
           | [] => [String c' ""]
           end
  end.

(** [sep.join(l)]. *)
Fixpoint join (sep : string) (l : list string) : string :=
  match l with
  | [] => ""
  | [s] => s
  | s :: l' => s +:+ sep +:+ join sep l'
  end.

(** Two lower-case hexadecimal digits. *)
Definition hex_digit (n : nat) : ascii := ascii_of_nat (if Nat.ltb n 10 then 48 + n else 87 + n).
Definition hex2 (c : ascii) : string :=
  String (hex_digit (Nat.div (code c) 16)) (String (hex_digit (Nat.modulo (code c) 16)) "").

(** [repr(s)]: double quotes when the string has a single quote and no double one. *)
Definition repr_char (q c : ascii) : string :=
  if Ascii.eqb c q then String "092"%char (String c "")
  else if Ascii.eqb c "092"%char then String "092"%char (String "092"%char "")
  else if Ascii.eqb c "010"%char then String "092"%char "n"
  else if Ascii.eqb c "013"%char then String "092"%char "r"
  else if Ascii.eqb c "009"%char then String "092"%char "t"
  else if in_range 32 126 c then String c ""
  else String "092"%char ("x" +:+ hex2 c).

Fixpoint str_flat_map (f : ascii → string) (s : string) : string :=
  match s with "" => "" | String c s' => f c +:+ str_flat_map f s' end.

Definition py_repr (s : string) : string :=
  let q := if contains squote s && negb (contains dquote s) then "034"%char else "039"%char in
  String q (str_flat_map (repr_char q) s +:+ String q "").

(** [json.dumps(s)] of a string. *)
Definition json_char (c : ascii) : string :=
  let esc (k : string) := String "092"%char k in
  if Ascii.eqb c "034"%char then esc dquote
  else if Ascii.eqb c "092"%char then esc (String "092"%char "")
  else if Ascii.eqb c "010"%char then esc "n"
  else if Ascii.eqb c "013"%char then esc "r"
  else if Ascii.eqb c "009"%char then esc "t"
  else if Ascii.eqb c "012"%char then esc "f"
  else if Ascii.eqb c "008"%char then esc "b"
  else if in_range 32 127 c then String c ""
  else esc ("u00" +:+ hex2 c).

Definition json_string (s : string) : string := dquote +:+ str_flat_map json_char s +:+ dquote.

(** [l[:n]] for an [int] bound. *)
Definition slice_to {A : Type} (n : Z) (l : list A) : list A :=
  if (n <? 0)%Z then take (length l - Z.to_nat (- n)) l else take (Z.to_nat n) l.

(** [sorted(l, key=key)]: stable, by insertion from the right. *)
Fixpoint insert_by {A : Type} (key : A → Z) (x : A) (l : list A) : list A :=
  match l with
  | [] => [x]
  | y :: l' => if (key x <=? key y)%Z then x :: l else y :: insert_by key x l'
  end.

Definition sorted_by {A : Type} (key : A → Z) (l : list A) : list A :=
  foldr (insert_by key) [] l.

(** Strings compare by the codes of their characters. *)
Fixpoint str_leb (s t : string) : bool :=
  match s, t with
  | "", _ => true
  | _, "" => false
  | String c s', String d t' => Nat.ltb (code c) (code d) || (Nat.eqb (code c) (code d) && str_leb s' t')
  end.

(** [sorted(l)] of strings. *)
Fixpoint insert_string (x : string) (l : list string) : list string :=
  match l with
  | [] => [x]
  | y :: l' => if str_leb x y then x :: l else y :: insert_string x l'
  end.
Definition sorted_strings (l : list string) : list string := foldr insert_string [] l.

(** ** Lemmas *)

#[local] Arguments String.append !_ _ / : simpl nomatch.

Lemma app_assoc_str (a b c : string) : (a +:+ b) +:+ c = a +:+ (b +:+ c).
Proof. induction a as [|x a IH]; [done|]. simpl. by rewrite IH. Qed.

Lemma app_nil_r_str (a : string) : a +:+ "" = a.
Proof. induction a as [|x a IH]; [done|]. simpl. by rewrite IH. Qed.

Lemma length_app_str (a b : string) :
  String.length (a +:+ b) = (String.length a + String.length b)%nat.
Proof. induction a as [|x a IH]; [done|]. simpl. by rewrite IH. Qed.

Lemma startswith_spec (p s : string) : startswith p s = true ↔ ∃ r, s = p +:+ r.
Proof.
  unfold startswith. revert s. induction p as [|c p IH]; intros s.
  - split; [by exists s | by destruct s].
  - destruct s as [|c' s]; simpl; [split; [done | by intros [r [=]]]|].
    destruct (ascii_dec c c') as [->|Hne].
    + rewrite IH. split; intros [r Hr]; exists r; [by rewrite Hr | by injection Hr].
    + split; [done|]. intros [r Hr]. simpl in Hr. congruence.
Qed.

Lemma substring_drop (a b : string) :
  String.substring (String.length a) (String.length b) (a +:+ b) = b.
Proof.
  induction a as [|c a IH]; simpl; [|done].
  induction b as [|c b IH]; [done|]. simpl. by rewrite IH.
Qed.

(** What follows a prefix. *)
Lemma substring_after (prefix k : string) :
  String.substring (String.length prefix) (String.length (prefix +:+ k) - String.length prefix) (prefix +:+ k) = k.
Proof. rewrite length_app_str. replace (_ + _ - _)%nat with (String.length k) by lia. apply substring_drop. Qed.

Lemma substring_take (a b : string) : String.substring 0 (String.length a) (a +:+ b) = a.
Proof. induction a as [|c a IH]; [by destruct b|]. simpl. by rewrite IH. Qed.

Lemma substring_0_full (s : string) : String.substring 0 (String.length s) s = s.
Proof. induction s as [|c s IH]; [done|]. simpl. by rewrite IH. Qed.

Lemma substring_split (n : nat) (s : string) :
  (n <= String.length s)%nat →
  s = String.substring 0 n s +:+ String.substring n (String.length s - n) s.
Proof.
  revert n. induction s as [|c s IH]; intros [|n] Hn; simpl in *; try (done || lia).
  - by rewrite substring_0_full.
  - f_equal. apply IH. lia.
Qed.

Lemma endswith_spec (p s : string) : endswith p s = true ↔ ∃ r, s = r +:+ p.
Proof.
  unfold endswith. rewrite andb_true_iff, Nat.leb_le, String.eqb_eq. split.
  - intros [Hlen Heq]. exists (String.substring 0 (String.length s - String.length p) s).
    rewrite (substring_split (String.length s - String.length p) s) at 1 by lia. f_equal.
    by replace (_ - (_ - _))%nat with (String.length p) by lia.
  - intros [r ->]. rewrite length_app_str. split; [lia|].
    replace (_ - _)%nat with (String.length r) by lia. apply substring_drop.
Qed.

Lemma drop_last_snoc (s : string) (c : ascii) : drop_last (s +:+ String c "") = s.
Proof.
  unfold drop_last. rewrite length_app_str. simpl.
  replace (_ - _)%nat with (String.length s) by lia. apply substring_take.
Qed.

Lemma app_inj_l_str (a b c : string) : a +:+ b = a +:+ c → b = c.
Proof. induction a as [|x a IH]; [done|]. intros Heq. apply IH. by injection Heq. Qed.

Lemma app_inj_r_str (a b c : string) : a +:+ c = b +:+ c → a = b.
Proof.
  intros H. assert (String.length a = String.length b) as Hlen.
  { apply (f_equal String.length) in H. rewrite !length_app_str in H. lia. }
  rewrite <- (substring_take a c), H, Hlen. apply substring_take.
Qed.

(** Texts that end alike in length are equal piece by piece. *)
Lemma app_split_str a b c d : String.length c = String.length d → a +:+ c = b +:+ d → a = b ∧ c = d.
Proof.
  revert b. induction a as [|x a IH]; intros [|y b] Hl Heq; simpl in *.
  - done.
  - apply (f_equal String.length) in Heq. simpl in Heq. rewrite ?length_app_str in Heq. simpl in Heq. lia.
  - apply (f_equal String.length) in Heq. simpl in Heq. rewrite ?length_app_str in Heq. simpl in Heq. lia.
  - injection Heq as -> Heq. destruct (IH b Hl Heq) as [-> ->]. done.
Qed.

Lemma app_pieces_str a b c d : String.length a = String.length b → a +:+ c = b +:+ d → a = b ∧ c = d.
Proof.
  revert b. induction a as [|x a IH]; intros [|y b] Hl Heq; simpl in *; [done..|].
  injection Heq as -> Heq. destruct (IH b ltac:(lia) Heq) as [-> ->]. done.
Qed.

(** *** Character classes and stripping *)

Lemma str_all_impl (p q : ascii → bool) s :
  (∀ c, p c = true → q c = true) → str_all p s = true → str_all q s = true.
Proof.
  intros Hpq. induction s as [|c s IH]; [done|]. simpl. rewrite !andb_true_iff.
  intros [? ?]. auto.
Qed.

Lemma str_all_app (p : ascii → bool) s t : str_all p (s +:+ t) = str_all p s && str_all p t.
Proof. induction s as [|c s IH]; [done|]. simpl. by rewrite IH, andb_assoc. Qed.

Lemma lstrip_none p s : str_all (λ c, negb (p c)) s = true → lstrip_by p s = s.
Proof. destruct s as [|c s]; [done|]. simpl. by destruct (p c). Qed.

Lemma rstrip_none p s : str_all (λ c, negb (p c)) s = true → rstrip_by p s = s.
Proof.
  induction s as [|c s IH]; [done|]. simpl. destruct (p c) eqn:Hc; [done|]. simpl. intros Hs.
  rewrite IH by done. by destruct s; rewrite ?Hc.
Qed.

Lemma strip_none p s : str_all (λ c, negb (p c)) s = true → strip_by p s = s.
Proof. intros Hs. unfold strip_by. by rewrite lstrip_none, rstrip_none. Qed.

(** *** Sorting *)

Section Sorting.
Context {A : Type} (key : A → Z).
Let le_key (x y : A) : Prop := (key x <= key y)%Z.

Lemma insert_by_perm x l : insert_by key x l ≡ₚ x :: l.
Proof.
  induction l as [|y l IH]; simpl; [done|]. destruct (_ <=? _)%Z; [done|].
  rewrite IH. apply Permutation_swap.
Qed.

Lemma sorted_by_perm l : sorted_by key l ≡ₚ l.
Proof. induction l as [|x l IH]; simpl; [done|]. by rewrite insert_by_perm, IH. Qed.

Lemma insert_by_sorted x l : Sorted le_key l → Sorted le_key (insert_by key x l).
Proof.
  intros Hl. induction Hl as [|y l Hl IH Hhd]; simpl; [by repeat constructor|].
  destruct (Z.leb_spec (key x) (key y)) as [Hle|Hlt]; [by repeat constructor|].
  constructor; [done|].
  destruct l as [|z l]; simpl; [constructor; unfold le_key; lia|].
  inversion Hhd. destruct (_ <=? _)%Z; constructor; [unfold le_key; lia | done].
Qed.

Lemma sorted_by_id l : Sorted le_key l → sorted_by key l = l.
Proof.
  induction 1 as [|x l Hl IH Hx]; [done|]. unfold sorted_by in *. simpl. rewrite IH.
  destruct Hx as [|y l Hxy]; [done|]. simpl. by rewrite (proj2 (Z.leb_le _ _)).
Qed.

Lemma sorted_by_sorted l : Sorted le_key (sorted_by key l).
Proof. induction l as [|x l IH]; simpl; [constructor | by apply insert_by_sorted]. Qed.

(** A sorted list of elements with distinct keys is the only one of its elements. *)
Lemma sorted_unique l1 l2 :
  NoDup (key <$> l1) → Sorted le_key l1 → Sorted le_key l2 → l1 ≡ₚ l2 → l1 = l2.
Proof.
  assert (Transitive le_key) as Htr by (intros a b c; unfold le_key; lia).
  intros Hnd H1 H2 Hp. apply Sorted_StronglySorted in H1; [|done]. apply Sorted_StronglySorted in H2; [|done].
  revert l2 H2 Hp. induction H1 as [|x l1 H1 IH Hx]; intros l2 H2 Hp.
  { symmetry. by apply Permutation_nil. }
  destruct H2 as [|y l2 H2 Hy]; [by apply Permutation_nil_r in Hp|].
  apply NoDup_cons in Hnd as [Hxk Hnd]. rewrite Forall_forall in Hx, Hy.
  assert (x = y) as <-.
  { assert (x ∈ y :: l2) as Hin by (rewrite <- Hp; apply list_elem_of_here).
    assert (y ∈ x :: l1) as Hin' by (rewrite Hp; apply list_elem_of_here).
    apply elem_of_cons in Hin as [|Hin]; [done|]. apply elem_of_cons in Hin' as [|Hin']; [done|].
    specialize (Hx y Hin'). specialize (Hy x Hin). unfold le_key in *. exfalso. apply Hxk.
    apply list_elem_of_fmap. exists y. split; [lia | done]. }
  f_equal. apply IH; [done..|]. by apply Permutation_cons_inv in Hp.
Qed.

End Sorting.

Lemma str_leb_total s t : str_leb s t = true ∨ str_leb t s = true.
Proof.
  revert t. induction s as [|c s IH]; intros [|d t]; simpl; auto.
  destruct (Nat.ltb_spec (code c) (code d)); [by left|]. destruct (Nat.ltb_spec (code d) (code c)); [by right|].
  assert (code c = code d) as -> by lia. rewrite Nat.eqb_refl. apply IH.
Qed.

Lemma str_leb_trans s t u : str_leb s t = true → str_leb t u = true → str_leb s u = true.
Proof.
  revert t u. induction s as [|c s IH]; intros [|d t] [|e u]; simpl; try done.
  rewrite !orb_true_iff, !andb_true_iff, !Nat.ltb_lt, !Nat.eqb_eq.
  intros [H1|[H1 H1']] [H2|[H2 H2']]; [left; lia..|]. right. split; [lia|]. by apply (IH t).
Qed.

Lemma str_leb_antisym s t : str_leb s t = true → str_leb t s = true → s = t.
Proof.
  revert t. induction s as [|c s IH]; intros [|d t]; simpl; [done..|].
  rewrite !orb_true_iff, !andb_true_iff, !Nat.ltb_lt, !Nat.eqb_eq. intros [?|[Hc Hs]] [?|[Hc2 Ht]]; try lia.
  rewrite (IH t Hs Ht). f_equal. rewrite <- (Ascii.ascii_nat_embedding c), <- (Ascii.ascii_nat_embedding d). f_equal. exact Hc.
Qed.

Lemma insert_string_comm a b l : insert_string a (insert_string b l) = insert_string b (insert_string a l).
Proof.
  assert (∀ x y, str_leb x y = false → str_leb y x = true) as Htot by (intros x y Hxy; destruct (str_leb_total x y); congruence).
  induction l as [|y l IH]; simpl.
  - destruct (str_leb a b) eqn:Eab, (str_leb b a) eqn:Eba; try done; [|by apply Htot in Eab; congruence].
    by rewrite (str_leb_antisym a b).
  - destruct (str_leb b y) eqn:Eby, (str_leb a y) eqn:Eay; simpl; rewrite ?Eby, ?Eay.
    + destruct (str_leb a b) eqn:Eab, (str_leb b a) eqn:Eba; rewrite ?Eby, ?Eay; try done; [|by apply Htot in Eab; congruence].
      by rewrite (str_leb_antisym a b).
    + destruct (str_leb a b) eqn:Eab; [|done]. by rewrite (str_leb_trans a b y) in Eay.
    + destruct (str_leb b a) eqn:Eba; [|done]. by rewrite (str_leb_trans b a y) in Eby.
    + by rewrite IH.
Qed.

(** The order of the input does not matter. *)
Lemma sorted_strings_perm l l' : l ≡ₚ l' → sorted_strings l = sorted_strings l'.
Proof.
  unfold sorted_strings. induction 1 as [|x l l' _ IH|x y l|l1 l2 l3 _ IH1 _ IH2]; simpl; [done|by rewrite IH|apply insert_string_comm|congruence].
Qed.

Lemma sorted_strings_elems l : sorted_strings l ≡ₚ l.
Proof.
  assert (∀ x l, insert_string x l ≡ₚ x :: l) as Hi.
  { intros x l0. induction l0 as [|y l0 IH]; simpl; [done|]. destruct (str_leb x y); [done|]. rewrite IH. apply Permutation_swap. }
  induction l as [|x l IH]; [done|]. unfold sorted_strings in *. simpl. by rewrite Hi, IH.
Qed.

