(* ===== verification/Errors.v ===== *)
(** * The error hierarchy ([kernel/errors/])

    Each class of the hierarchy is a constructor of [pyexn] values with the
    class's MRO; the machine-readable [code] is the attribute ["code"], set from
    the class's [default_code] unless the caller overrides it. *)
From S2P Require Import Prelude.

(** [BaseError.__init__]: [self.code = code or self.default_code]; the optional
    [cause] becomes the exception's cause. *)
Definition BaseError_init (mro : list string) (default_code msg : string)
    (code : option string) (cause : option pyexn) : pyexn :=
  PyExn (mro ++ ["BaseError"; "Exception"; "BaseException"]) msg
    [("code", match code with
              | None | Some "" => default_code
              | Some c => c
              end)]
    (match cause with None => [] | Some c => [c] end).

Definition ApplicationError_of (cls default_code msg : string) : pyexn :=
  BaseError_init [cls; "ApplicationError"] default_code msg None None.

Definition UnauthorizedError (msg : string) : pyexn :=
  ApplicationError_of "UnauthorizedError" "unauthorized" msg.

Definition ForbiddenError (msg : string) : pyexn :=
  ApplicationError_of "ForbiddenError" "forbidden" msg.

(** [kernel.errors.TimeoutError] (imported as [AppTimeoutError]). *)
Definition AppTimeoutError (msg : string) : pyexn :=
  ApplicationError_of "TimeoutError" "timeout" msg.

Definition InfrastructureError_of (cls default_code msg : string) : pyexn :=
  BaseError_init [cls; "InfrastructureError"] default_code msg None None.

Definition DomainError_of (cls default_code msg : string) : pyexn :=
  BaseError_init [cls; "DomainError"] default_code msg None None.

Definition InvariantViolationError (msg : string) : pyexn :=
  DomainError_of "InvariantViolationError" "invariant_violation" msg.

Definition ValidationError (msg : string) : pyexn :=
  DomainError_of "ValidationError" "validation_error" msg.

Definition ConflictError (msg : string) : pyexn :=
  DomainError_of "ConflictError" "conflict" msg.

(** [NotFoundError(resource, identifier)]; the identifier is given as its [str]. *)
Definition NotFoundError (resource : string) (identifier : option string) : pyexn :=
  DomainError_of "NotFoundError" "not_found"
    (match identifier with
     | None => resource +:+ " not found"
     | Some i => resource +:+ " '" +:+ i +:+ "' not found"
     end).

Definition RateLimitError (msg : string) : pyexn :=
  ApplicationError_of "RateLimitError" "rate_limit_exceeded" msg.

(** [message or default]. *)
Definition message_or (msg : option string) (d : string) : string :=
  match msg with None | Some "" => d | Some m => m end.

(** [kernel.errors.ConnectionError]. *)
Definition InfraConnectionError (resource : string) (msg : option string) : pyexn :=
  InfrastructureError_of "ConnectionError" "connection_error"
    (message_or msg ("Could not connect to '" +:+ resource +:+ "'")).

(** [kernel.errors.InfrastructureTimeoutError]: a second class named [TimeoutError]. *)
Definition InfrastructureTimeoutError (msg : string) : pyexn :=
  InfrastructureError_of "TimeoutError" "infrastructure_timeout" msg.

Definition SerializationError (msg : string) : pyexn :=
  InfrastructureError_of "SerializationError" "serialization_error" msg.

Definition ExternalServiceError (service : string) (msg : option string) : pyexn :=
  InfrastructureError_of "ExternalServiceError" "external_service_error"
    (message_or msg ("External service '" +:+ service +:+ "' error")).

(** [BulkheadFullError] ([resilience/bulkhead/errors.py]). *)
Definition BulkheadFullError (msg : string) : pyexn :=
  ApplicationError_of "BulkheadFullError" "bulkhead_full" msg.

(** [CircuitOpenError] ([resilience/circuit_breaker/errors.py]); the breaker's
    name is kept as the attribute ["circuit_name"]. *)
Definition CircuitOpenError (circuit_name : string) : pyexn :=
  let e := InfrastructureError_of "CircuitOpenError" "infrastructure_error"
             ("Circuit breaker '" +:+ circuit_name +:+ "' is OPEN") in
  PyExn (exn_mro e) (exn_msg e) (exn_attrs e ++ [("circuit_name", circuit_name)])
    (exn_causes e).
