(* ===== verification/OrderedDict.v ===== *)
(** * Insertion-ordered dictionaries

    Python's [dict] and [collections.OrderedDict] as association lists in
    iteration order: assigning to a present key keeps its position, a new key
    goes to the end. *)
From S2P Require Import Prelude.

Section Dict.
Context {K V : Type} `{EqDecision K}.
Implicit Types (d : list (K * V)).

(** [d.get(k)]. *)
Fixpoint od_get (k : K) d : option V :=
  match d with
  | [] => None
  | (k', v) :: d' => if decide (k = k') then Some v else od_get k d'
  end.

(** [k in d]. *)
Definition od_mem (k : K) d : bool := bool_decide (k ∈ d.*1).

(** [d.pop(k, None)] and [del d[k]] on a present key. *)
Definition od_del (k : K) d : list (K * V) := filter (λ e, e.1 ≠ k) d.

(** [d[k] = v]. *)
Fixpoint od_set (k : K) (v : V) d : list (K * V) :=
  match d with
  | [] => [(k, v)]
  | (k', v') :: d' => if decide (k = k') then (k, v) :: d' else (k', v') :: od_set k v d'
  end.

(** [d.move_to_end(k)] on a present key. *)
Definition od_move_to_end (k : K) d : list (K * V) :=
  match od_get k d with
  | None => d
  | Some v => od_del k d ++ [(k, v)]
  end.

Lemma od_get_elem k v d : od_get k d = Some v → (k, v) ∈ d.
Proof.
  induction d as [|[k' v'] d IH]; simpl; [done|]. case_decide as Hk; [|].
  - intros [= <-]. subst. apply list_elem_of_here.
  - intros ?. apply list_elem_of_further. by apply IH.
Qed.

Lemma od_get_None k d : od_get k d = None ↔ k ∉ d.*1.
Proof.
  induction d as [|[k' v'] d IH]; simpl; [split; [intros _ H; inversion H | done]|].
  rewrite not_elem_of_cons. case_decide as Hk; [split; [done | tauto] | tauto].
Qed.

Lemma od_get_is_Some k d : is_Some (od_get k d) ↔ k ∈ d.*1.
Proof.
  rewrite <- not_eq_None_Some, od_get_None.
  split; [|by intros ??]. intros ?. destruct (decide (k ∈ d.*1)); tauto.
Qed.

Lemma od_get_set_eq k v d : od_get k (od_set k v d) = Some v.
Proof.
  induction d as [|[k' v'] d IH]; simpl; [by rewrite decide_True|].
  case_decide as Hk; simpl; [by rewrite decide_True|]. by rewrite decide_False.
Qed.

Lemma od_get_set_ne k k' v d : k ≠ k' → od_get k' (od_set k v d) = od_get k' d.
Proof.
  intros Hne. induction d as [|[k0 v0] d IH]; simpl; [by rewrite decide_False|].
  case_decide as Hk; simpl; [|by rewrite IH].
  subst. by rewrite !decide_False by congruence.
Qed.

Lemma od_del_keys k d : (od_del k d).*1 = filter (λ x, x ≠ k) d.*1.
Proof.
  induction d as [|[k' v'] d IH]; [done|]. unfold od_del in *. rewrite fmap_cons.
  rewrite !filter_cons. simpl. destruct (decide (k' = k)) as [->|Hk].
  - rewrite !decide_False by tauto. done.
  - rewrite !decide_True by done. simpl. f_equal. exact IH.
Qed.

Lemma od_get_del_eq k d : od_get k (od_del k d) = None.
Proof. apply od_get_None. rewrite od_del_keys, list_elem_of_filter. tauto. Qed.

Lemma od_get_del_ne k k' d : k ≠ k' → od_get k' (od_del k d) = od_get k' d.
Proof.
  intros Hne. induction d as [|[k0 v0] d IH]; [done|]. unfold od_del in *.
  rewrite filter_cons. simpl. destruct (decide (k0 = k)) as [->|Hk].
  - rewrite decide_False by tauto. rewrite (decide_False (P := k' = k)) by congruence. done.
  - rewrite decide_True by done. simpl. by case_decide.
Qed.

Lemma od_set_keys_new k v d : k ∉ d.*1 → od_set k v d = d ++ [(k, v)].
Proof.
  induction d as [|[k' v'] d IH]; simpl; [done|]. rewrite not_elem_of_cons.
  intros [Hne Hd]. rewrite decide_False by done. by rewrite IH.
Qed.

Lemma od_set_keys_old k v d : k ∈ d.*1 → (od_set k v d).*1 = d.*1.
Proof.
  induction d as [|[k' v'] d IH]; simpl; [intros H; inversion H|].
  case_decide as Hk; simpl; [by subst|]. rewrite elem_of_cons.
  intros [?|?]; [done|]. f_equal. by apply IH.
Qed.

Lemma od_get_NoDup k v d : NoDup d.*1 → (k, v) ∈ d → od_get k d = Some v.
Proof.
  induction d as [|[k' v'] d IH]; intros Hnd Hin; [by apply not_elem_of_nil in Hin|].
  apply NoDup_cons in Hnd as [Hk Hnd]. simpl. apply elem_of_cons in Hin as [[= -> ->]|Hin].
  - by rewrite decide_True.
  - rewrite decide_False; [by apply IH|]. intros ->. apply Hk.
    apply list_elem_of_fmap. by exists (k', v).
Qed.

Lemma od_set_elem k v d k' v' : (k', v') ∈ od_set k v d → (k' = k ∧ v' = v) ∨ (k', v') ∈ d.
Proof.
  induction d as [|[k0 v0] d IH]; simpl.
  - rewrite list_elem_of_singleton. intros [= -> ->]. by left.
  - case_decide; subst; rewrite !elem_of_cons; [|intros [[= -> ->]|Hin]; [tauto|]; apply IH in Hin; tauto].
    intros [[= -> ->]|Hin]; tauto.
Qed.

Lemma od_set_NoDup k v d : NoDup d.*1 → NoDup (od_set k v d).*1.
Proof.
  intros Hd. destruct (decide (k ∈ d.*1)) as [Hk|Hk]; [by rewrite od_set_keys_old|].
  rewrite od_set_keys_new by done. rewrite fmap_app. apply NoDup_app. split_and!; [done| |apply NoDup_singleton].
  intros x Hx ->%list_elem_of_singleton. done.
Qed.

Lemma od_get_app k d d' :
  od_get k (d ++ d') = match od_get k d with Some v => Some v | None => od_get k d' end.
Proof. induction d as [|[k0 v0] d IH]; simpl; [done|]. by case_decide. Qed.

Lemma od_move_keys k d :
  k ∈ d.*1 → (od_move_to_end k d).*1 = filter (λ x, x ≠ k) d.*1 ++ [k].
Proof.
  intros Hk. unfold od_move_to_end. apply od_get_is_Some in Hk as [v ->].
  by rewrite fmap_app, od_del_keys.
Qed.

Lemma od_get_move k k' d : od_get k' (od_move_to_end k d) = od_get k' d.
Proof.
  unfold od_move_to_end. destruct (od_get k d) as [v|] eqn:E; [|done].
  rewrite od_get_app; simpl. destruct (decide (k = k')) as [->|Hne].
  - by rewrite od_get_del_eq, decide_True.
  - rewrite od_get_del_ne, decide_False by done. by destruct (od_get k' d).
Qed.

(** Setting a key that has just been moved to the end rewrites the last entry. *)
Lemma od_set_move k v d :
  k ∈ d.*1 → od_set k v (od_move_to_end k d) = od_del k d ++ [(k, v)].
Proof.
  intros Hk. unfold od_move_to_end. apply od_get_is_Some in Hk as [v' ->].
  assert (k ∉ (od_del k d).*1) as Hn.
  { rewrite od_del_keys, list_elem_of_filter. tauto. }
  revert Hn. generalize (od_del k d) as d0. induction d0 as [|[k0 v0] d0 IH]; simpl.
  - by rewrite decide_True.
  - rewrite not_elem_of_cons. intros [? ?]. rewrite decide_False by done. by rewrite IH.
Qed.

(** [{**d, **extra}], or [d.update(extra)]: later entries win. *)
Definition od_update d (extra : list (K * V)) : list (K * V) :=
  fold_left (λ d e, od_set (fst e) (snd e) d) extra d.

Lemma od_get_update k d extra :
  NoDup extra.*1 →
  od_get k (od_update d extra) = match od_get k extra with Some v => Some v | None => od_get k d end.
Proof.
  unfold od_update. revert d. induction extra as [|[k0 v0] extra IH]; intros d Hnd; [done|].
  simpl in *. apply NoDup_cons in Hnd as [Hk0 Hnd]. rewrite IH by done.
  case_decide as E; [subst k0 | by rewrite od_get_set_ne].
  apply od_get_None in Hk0. by rewrite Hk0, od_get_set_eq.
Qed.

End Dict.

#[export] Hint Rewrite @od_get_set_eq @od_get_del_eq @od_get_move : mpc.
