(* ===== verification/PyValue.v ===== *)
(** * Dynamically typed values

    What a configuration file or a JSON document holds: [None], booleans, numbers,
    strings, lists and dictionaries with string keys; truth, equality, [.get], [iter]
    and [float] on them.  Spellings of infinities and of NaN, which no rational
    stands for, are not numbers here. *)
From Stdlib Require Import Qpower.
From Stdlib Require String.
From S2P Require Import Prelude PyString OrderedDict.

#[local] Set Warnings "-register-all".

#[export] Instance outcome_ret : MRet outcome := λ A a, Return a.
#[export] Instance outcome_bind : MBind outcome := λ A B k o,
  match o with Return a => k a | Raise e => Raise e end.

Definition AttributeError (msg : string) : pyexn := exn_of ["AttributeError"] msg.

Inductive pyval : Type :=
| VNone
| VBool (b : bool)
| VInt (z : Z)
| VFloat (q : Q)
| VStr (s : string)
| VList (l : list pyval)
| VDict (d : list (string * pyval)).

(** [type(v).__name__]. *)
Definition type_name (v : pyval) : string :=
  match v with
  | VNone => "NoneType" | VBool _ => "bool" | VInt _ => "int" | VFloat _ => "float"
  | VStr _ => "str" | VList _ => "list" | VDict _ => "dict"
  end.

(** [bool(v)]. *)
Definition truthy (v : pyval) : bool :=
  match v with
  | VNone => false
  | VBool b => b
  | VInt z => negb (z =? 0)%Z
  | VFloat q => negb (Qeq_bool q 0)
  | VStr s => negb (String.eqb s "")
  | VList l => negb (Nat.eqb (length l) 0)
  | VDict d => negb (Nat.eqb (length d) 0)
  end.

(** The number a value is in arithmetic and comparisons; [bool] is an [int]. *)
Definition number_of (v : pyval) : option Q :=
  match v with
  | VBool b => Some (if b then 1 else 0)%Q
  | VInt z => Some (inject_Z z)
  | VFloat q => Some q
  | _ => None
  end.

(** [a == b]; dictionaries compare without regard to order. *)
Fixpoint py_eq (a b : pyval) {struct a} : bool :=
  match a, b with
  | VNone, VNone => true
  | VStr s, VStr t => String.eqb s t
  | VList l, VList m =>
      (fix go l m := match l, m with
                     | [], [] => true
                     | x :: l', y :: m' => py_eq x y && go l' m'
                     | _, _ => false
                     end) l m
  | VDict d, VDict e =>
      Nat.eqb (length d) (length e) &&
      (fix go d := match d with
                   | [] => true
                   | (k, v) :: d' =>
                       match od_get k e with Some w => py_eq v w | None => false end && go d'
                   end) d
  | _, _ =>
      match number_of a, number_of b with
      | Some x, Some y => Qeq_bool x y
      | _, _ => false
      end
  end.

(** [v.get(key)]: [None] is an absent key. *)
Definition py_get (key : string) (v : pyval) : outcome (option pyval) :=
  match v with
  | VDict d => Return (od_get key d)
  | _ => Raise (AttributeError ("'" +:+ type_name v +:+ "' object has no attribute 'get'"))
  end.

(** [iter(v)]. *)
Definition py_iter (v : pyval) : outcome (list pyval) :=
  match v with
  | VList l => Return l
  | VDict d => Return (map VStr (map fst d))
  | VStr s => Return (map (λ c, VStr (String c "")) (String.list_ascii_of_string s))
  | _ => Raise (TypeError ("'" +:+ type_name v +:+ "' object is not iterable"))
  end.

(** ** [float(s)] of a string *)

Definition digit_value (c : ascii) : Z := Z.of_nat (code c - 48).

(** Digits, with single underscores between them: their value (after [acc]), how many
    there are, and the rest. *)
Fixpoint take_digits (acc : Z) (n : nat) (s : string) : Z * nat * string :=
  match s with
  | "" => (acc, n, "")
  | String c s' =>
      if is_digit c then take_digits (acc * 10 + digit_value c) (S n) s'
      else if Ascii.eqb c "_" && Nat.ltb 0 n then
        match s' with
        | String c' s'' =>
            if is_digit c' then take_digits (acc * 10 + digit_value c') (S n) s'' else (acc, n, s)
        | "" => (acc, n, s)
        end
      else (acc, n, s)
  end.

Definition take_sign (s : string) : Z * string :=
  match s with
  | String c s' =>
      if Ascii.eqb c "-" then ((-1)%Z, s') else if Ascii.eqb c "+" then (1%Z, s') else (1%Z, s)
  | "" => (1%Z, s)
  end.

(** The exponent after [e], to the end of the string. *)
Definition parse_exponent (s : string) : option Z :=
  match s with
  | "" => Some 0%Z
  | String c s' =>
      if Ascii.eqb c "e" || Ascii.eqb c "E" then
        let '(sg, r) := take_sign s' in
        let '(x, n, r') := take_digits 0 0 r in
        if Nat.ltb 0 n && String.eqb r' "" then Some (sg * x)%Z else None
      else None
  end.

Definition parse_float (s : string) : option Q :=
  let '(sg, r) := take_sign (strip s) in
  let '(i, n, r1) := take_digits 0 0 r in
  let '(f, m, r2) := match r1 with
                     | String "." r1' => take_digits i 0 r1'
                     | _ => (i, O, r1)
                     end in
  if Nat.eqb (n + m) 0 then None
  else match parse_exponent r2 with
       | Some x => Some (inject_Z (sg * f) * (10 # 1) ^ (x - Z.of_nat m))%Q
       | None => None
       end.

(** [float(v)]. *)
Definition py_float (v : pyval) : outcome Q :=
  match v with
  | VStr s => match parse_float s with
              | Some q => Return q
              | None => Raise (ValueError ("could not convert string to float: " +:+ py_repr s))
              end
  | _ => match number_of v with
         | Some q => Return q
         | None => Raise (TypeError ("float() argument must be a string or a real number, not '"
                                     +:+ type_name v +:+ "'"))
         end
  end.

Example parse_float_ex :
  (λ s, Qred <$> parse_float s) <$> ["0.9"; " -1_0.5e1 "; ".5"; "1."; "."; "1__0"; "1e"; "x"] =
  [Some (9 # 10); Some (-105 # 1); Some (1 # 2); Some (1 # 1); None; None; None; None].
Proof. reflexivity. Qed.
