(* ===== verification/Sha256.v ===== *)
(** * SHA-256 and HMAC ([hashlib.sha256], [hmac.new] of Python's library)

    The digest that the flag provider and the webhook signer compute (FIPS 180-4,
    RFC 2104), on lists of bytes.  Words are 32 bits wide, kept in [Z] and reduced
    after each addition. *)
From S2P Require Import Prelude PyString.
#[local] Open Scope Z_scope.

(** ** 32-bit words *)

Definition w32 (x : Z) : Z := Z.land x 4294967295.
Definition add32 (x y : Z) : Z := w32 (x + y).
Definition rotr (n x : Z) : Z := Z.lor (Z.shiftr x n) (w32 (Z.shiftl x (32 - n))).
Definition not32 (x : Z) : Z := Z.lxor x 4294967295.

Definition ch (x y z : Z) : Z := Z.lxor (Z.land x y) (Z.land (not32 x) z).
Definition maj (x y z : Z) : Z := Z.lxor (Z.lxor (Z.land x y) (Z.land x z)) (Z.land y z).
Definition big_sigma0 (x : Z) : Z := Z.lxor (Z.lxor (rotr 2 x) (rotr 13 x)) (rotr 22 x).
Definition big_sigma1 (x : Z) : Z := Z.lxor (Z.lxor (rotr 6 x) (rotr 11 x)) (rotr 25 x).
Definition small_sigma0 (x : Z) : Z := Z.lxor (Z.lxor (rotr 7 x) (rotr 18 x)) (Z.shiftr x 3).
Definition small_sigma1 (x : Z) : Z := Z.lxor (Z.lxor (rotr 17 x) (rotr 19 x)) (Z.shiftr x 10).

Definition round_constants : list Z :=
  [1116352408; 1899447441; 3049323471; 3921009573; 961987163; 1508970993; 2453635748; 2870763221;
   3624381080; 310598401; 607225278; 1426881987; 1925078388; 2162078206; 2614888103; 3248222580;
   3835390401; 4022224774; 264347078; 604807628; 770255983; 1249150122; 1555081692; 1996064986;
   2554220882; 2821834349; 2952996808; 3210313671; 3336571891; 3584528711; 113926993; 338241895;
   666307205; 773529912; 1294757372; 1396182291; 1695183700; 1986661051; 2177026350; 2456956037;
   2730485921; 2820302411; 3259730800; 3345764771; 3516065817; 3600352804; 4094571909; 275423344;
   430227734; 506948616; 659060556; 883997877; 958139571; 1322822218; 1537002063; 1747873779;
   1955562222; 2024104815; 2227730452; 2361852424; 2428436474; 2756734187; 3204031479; 3329325298].

Definition initial_hash : list Z :=
  [1779033703; 3144134277; 1013904242; 2773480762; 1359893119; 2600822924; 528734635; 1541459225].

(** ** One block *)

(** The message schedule: [ws] holds the words so far, the last one first. *)
Fixpoint schedule (n : nat) (ws : list Z) : list Z :=
  match n with
  | O => rev ws
  | S n' =>
      let w i := nth i ws 0 in
      schedule n' (add32 (add32 (small_sigma1 (w 1%nat)) (w 6%nat))
                         (add32 (small_sigma0 (w 14%nat)) (w 15%nat)) :: ws)
  end.

Definition sha_round (st : list Z) (kw : Z * Z) : list Z :=
  match st with
  | [a; b; c; d; e; f; g; h] =>
      let t1 := add32 (add32 (add32 h (big_sigma1 e)) (add32 (ch e f g) (fst kw))) (snd kw) in
      let t2 := add32 (big_sigma0 a) (maj a b c) in
      [add32 t1 t2; a; b; c; add32 d t1; e; f; g]
  | _ => st
  end.

(** The sixteen words of a block of 64 bytes. *)
Fixpoint words_of (bs : list Z) : list Z :=
  match bs with
  | b0 :: b1 :: b2 :: b3 :: bs' => (((b0 * 256 + b1) * 256 + b2) * 256 + b3) :: words_of bs'
  | _ => []
  end.

Definition compress (st : list Z) (block : list Z) : list Z :=
  let ws := schedule 48 (rev (words_of block)) in
  zip_with add32 st (fold_left sha_round (zip round_constants ws) st).

(** ** The digest *)

Definition be_bytes (n : nat) (x : Z) : list Z :=
  map (λ i, Z.land (Z.shiftr x (8 * Z.of_nat i)) 255) (rev (seq 0 n)).

(** A one bit, zeros up to 56 modulo 64, and the length in bits. *)
Definition pad (m : list Z) : list Z :=
  let n := length m in
  m ++ [128] ++ repeat 0 ((119 - n mod 64) mod 64)%nat ++ be_bytes 8 (8 * Z.of_nat n).

(** The blocks of 64 bytes; [n] bounds their number. *)
Fixpoint blocks (n : nat) (bs : list Z) : list (list Z) :=
  match n, bs with
  | S n', _ :: _ => take 64 bs :: blocks n' (drop 64 bs)
  | _, _ => []
  end.

Definition sha256 (m : list Z) : list Z :=
  let p := pad m in
  flat_map (be_bytes 4) (fold_left compress (blocks (length p / 64) p) initial_hash).

(** [s.encode()] of an ASCII string. *)
Fixpoint encode (s : string) : list Z :=
  match s with "" => [] | String c s' => Z.of_nat (code c) :: encode s' end.

(** [bytes.hex()]. *)
Definition hex_byte (b : Z) : string := hex2 (ascii_of_nat (Z.to_nat b)).
Definition hexdigest (bs : list Z) : string := join "" (map hex_byte bs).

(** [int(s, 16)] of hexadecimal digits in lower case. *)
Definition hex_value (c : ascii) : Z :=
  if is_digit c then Z.of_nat (code c) - 48 else Z.of_nat (code c) - 87.
Fixpoint int16 (s : string) (acc : Z) : Z :=
  match s with "" => acc | String c s' => int16 s' (acc * 16 + hex_value c) end.

(** ** HMAC *)

Definition hmac_key (key : list Z) : list Z :=
  let k := if (64 <? Z.of_nat (length key))%Z then sha256 key else key in
  k ++ repeat 0 (64 - length k).

Definition hmac_sha256 (key msg : list Z) : list Z :=
  let k := hmac_key key in
  sha256 (map (Z.lxor 92) k ++ sha256 (map (Z.lxor 54) k ++ msg)).

Lemma encode_inj s t : encode s = encode t → s = t.
Proof.
  revert t. induction s as [|c s IH]; intros [|c' t] H; try done. injection H as Hc Ht.
  f_equal; [|by apply IH]. apply Nat2Z.inj in Hc.
  by rewrite <- (ascii_nat_embedding c), <- (ascii_nat_embedding c'); f_equal.
Qed.

(** ** Published test vectors *)

(** FIPS 180-4, one block. *)
Example sha256_abc :
  hexdigest (sha256 (encode "abc")) =
  "ba7816bf8f01cfea414140de5dae2223b00361a396177a9cb410ff61f20015ad".
Proof. vm_compute. reflexivity. Qed.

(** FIPS 180-4, a padding that needs a second block. *)
Example sha256_two_blocks :
  hexdigest (sha256 (encode "abcdbcdecdefdefgefghfghighijhijkijkljklmklmnlmnomnopnopq")) =
  "248d6a61d20638b8e5c026930c3e6039a33ce45964ff2167f6ecedd419db06c1".
Proof. vm_compute. reflexivity. Qed.

(** RFC 4231, test case 2. *)
Example hmac_sha256_rfc4231 :
  hexdigest (hmac_sha256 (encode "Jefe") (encode "what do ya want for nothing?")) =
  "5bdcc146bf60754e6a042426089575c75a003f089d2739839dec58b964ec3843".
Proof. vm_compute. reflexivity. Qed.
