(* ===== verification/Utf8.v ===== *)
(** * Decoding UTF-8 ([bytes.decode()])

    Bytes that come from outside need not be text: decoding them gives the code points of the text or raises
    [UnicodeDecodeError].  A text with other than ASCII characters is kept as the list of its code points; an
    ASCII one has the codes of its characters. *)
From S2P Require Import Prelude PyString Sha256.

Definition between (lo hi b : Z) : bool := (lo <=? b)%Z && (b <=? hi)%Z.

(** A byte that continues a character. *)
Definition continues : Z → bool := between 128 191.

(** The code points; [None] for bytes that are not UTF-8.  The second byte of the longer forms is limited so
    that overlong forms, surrogates and code points above 0x10FFFF are not accepted. *)
Fixpoint utf8_points (bs : list Z) : option (list Z) :=
  match bs with
  | [] => Some []
  | b0 :: t =>
      if (b0 <? 128)%Z then cons b0 <$> utf8_points t
      else
        match t with
        | b1 :: t1 =>
            if between 194 223 b0 && continues b1 then cons ((b0 - 192) * 64 + (b1 - 128))%Z <$> utf8_points t1
            else
              match t1 with
              | b2 :: t2 =>
                  if between 224 239 b0 && between (if (b0 =? 224)%Z then 160 else 128) (if (b0 =? 237)%Z then 159 else 191) b1 && continues b2
                  then cons ((b0 - 224) * 4096 + (b1 - 128) * 64 + (b2 - 128))%Z <$> utf8_points t2
                  else
                    match t2 with
                    | b3 :: t3 =>
                        if between 240 244 b0 && between (if (b0 =? 240)%Z then 144 else 128) (if (b0 =? 244)%Z then 143 else 191) b1
                           && continues b2 && continues b3
                        then cons ((b0 - 240) * 262144 + (b1 - 128) * 4096 + (b2 - 128) * 64 + (b3 - 128))%Z <$> utf8_points t3
                        else None
                    | [] => None
                    end
              | [] => None
              end
        | [] => None
        end
  end.

Definition UnicodeDecodeError : pyexn :=
  exn_of ["UnicodeDecodeError"; "UnicodeError"; "ValueError"] "'utf-8' codec can't decode bytes".

(** [bytes.decode()]. *)
Definition bytes_decode (bs : list Z) : outcome (list Z) :=
  match utf8_points bs with Some ps => Return ps | None => Raise UnicodeDecodeError end.

(** [str.isascii()]. *)
Definition points_ascii (ps : list Z) : bool := forallb (λ p, (p <? 128)%Z) ps.

(** The text with the given ASCII characters. *)
Fixpoint points_text (ps : list Z) : string :=
  match ps with [] => "" | p :: ps' => String (ascii_of_nat (Z.to_nat p)) (points_text ps') end.

(** [str.isspace()] of a character. *)
Definition point_space (p : Z) : bool :=
  between 9 13 p || between 28 32 p || bool_decide (p ∈ [133; 160; 5760; 8232; 8233; 8239; 8287; 12288]%Z) || between 8192 8202 p.

Fixpoint lstrip_points (ps : list Z) : list Z :=
  match ps with
  | [] => []
  | p :: ps' => if point_space p then lstrip_points ps' else ps
  end.

(** [str.strip()]. *)
Definition strip_points (ps : list Z) : list Z := rev (lstrip_points (rev (lstrip_points ps))).

Fixpoint startswith_points (prefix ps : list Z) : bool :=
  match prefix, ps with
  | [], _ => true
  | p :: prefix', q :: ps' => (p =? q)%Z && startswith_points prefix' ps'
  | _, [] => false
  end.

Definition TypeError_ascii : pyexn :=
  exn_of ["TypeError"] "comparing strings with non-ASCII characters is not supported".

(** [hmac.compare_digest(a, b)] of texts. *)
Definition compare_digest (a b : list Z) : outcome bool :=
  if points_ascii a && points_ascii b then Return (bool_decide (a = b)) else Raise TypeError_ascii.

(** ** Lemmas *)

Lemma utf8_points_ascii ps : points_ascii ps = true → utf8_points ps = Some ps.
Proof.
  induction ps as [|p ps IH]; [done|]. simpl. intros [Hp Hps]%andb_true_iff. by rewrite Hp, IH.
Qed.

Lemma encode_points_ascii s : is_ascii s = true → points_ascii (encode s) = true.
Proof.
  induction s as [|c s IH]; [done|]. unfold is_ascii in *. simpl. intros [Hc Hs]%andb_true_iff.
  rewrite IH by done. apply Nat.ltb_lt in Hc. rewrite (proj2 (Z.ltb_lt _ _)) by lia. done.
Qed.

Lemma points_text_encode s : points_text (encode s) = s.
Proof.
  induction s as [|c s IH]; [done|]. simpl. rewrite Nat2Z.id. f_equal; [apply ascii_nat_embedding | exact IH].
Qed.

Lemma bytes_decode_ascii s : is_ascii s = true → bytes_decode (encode s) = Return (encode s).
Proof. intros Hs. unfold bytes_decode. by rewrite utf8_points_ascii by by apply encode_points_ascii. Qed.

Lemma startswith_points_app prefix ps : startswith_points prefix (prefix ++ ps) = true.
Proof. induction prefix as [|p prefix IH]; [done|]. simpl. by rewrite Z.eqb_refl. Qed.

Lemma encode_app s t : encode (s +:+ t) = encode s ++ encode t.
Proof. induction s as [|c s IH]; [done|]. simpl. by rewrite IH. Qed.

Lemma is_ascii_app s t : is_ascii (s +:+ t) = is_ascii s && is_ascii t.
Proof. unfold is_ascii. induction s as [|c s IH]; [done|]. simpl. by rewrite IH, andb_assoc. Qed.

Lemma hexdigest_ascii bs : is_ascii (hexdigest bs) = true.
Proof.
  assert (Hb : ∀ b, is_ascii (hex_byte b) = true) by (intros b; unfold hex_byte; by destruct (ascii_of_nat (Z.to_nat b)) as [[] [] [] [] [] [] [] []]).
  unfold hexdigest. induction bs as [|b [|b' bs] IH]; [done | apply Hb |].
  change (join "" (map hex_byte (b :: b' :: bs))) with (hex_byte b +:+ "" +:+ join "" (map hex_byte (b' :: bs))).
  rewrite !is_ascii_app, Hb. exact IH.
Qed.

(** A few decodings: an accented letter, the euro sign, a character outside the basic plane, an overlong
    form, a surrogate and a cut-off character. *)
Example utf8_examples :
  map utf8_points [[99; 195; 169]; [226; 130; 172]; [240; 159; 152; 128]; [192; 175]; [237; 160; 128]; [226; 130]]%Z
  = [Some [99; 233]; Some [8364]; Some [128512]; None; None; None]%Z.
Proof. reflexivity. Qed.
