(* ===== verification/CircuitBreaker.v ===== *)
(** * The in-process circuit breaker ([resilience/circuit_breaker/])

    [CircuitBreaker.call] runs three critical sections under an [asyncio.Lock]:
    admission, recording a success, recording a failure.  None of them awaits
    anything while it holds the lock, so each is one atomic transformer of the
    breaker.  [CircuitBreaker_call] composes them around the awaited function;
    [step] interleaves the sections of any number of concurrent calls. *)
From S2P Require Import Prelude Errors.

Inductive CircuitBreakerState := CLOSED | OPEN | HALF_OPEN.

#[export] Instance CircuitBreakerState_eq_dec : EqDecision CircuitBreakerState.
Proof. solve_decision. Defined.

Record CircuitBreakerPolicy := mkPolicy {
  failure_threshold : Z;
  success_threshold : Z;
  timeout_seconds : Q;
  window_seconds : Q;
  excluded_exceptions : list string;
}.

Record CircuitBreaker := mkBreaker {
  cb_name : string;
  cb_policy : CircuitBreakerPolicy;
  cb_state : CircuitBreakerState;
  cb_failure_count : Z;
  cb_success_count : Z;
  cb_opened_at : option Q;
}.

(** [CircuitBreakerPolicy()], the default policy. *)
Definition default_policy : CircuitBreakerPolicy := mkPolicy 5 2 30 60 [].

Definition CircuitBreaker_init (name : string) (policy : option CircuitBreakerPolicy)
    : CircuitBreaker :=
  mkBreaker name (default default_policy policy) CLOSED 0 0 None.

(** [_maybe_transition_half_open]; [now] is [time.monotonic()]. *)
Definition maybe_transition_half_open (now : Q) (b : CircuitBreaker) : CircuitBreaker :=
  match cb_state b, cb_opened_at b with
  | OPEN, Some opened_at =>
      if Qle_bool (timeout_seconds (cb_policy b)) (now - opened_at) then
        mkBreaker (cb_name b) (cb_policy b) HALF_OPEN (cb_failure_count b) 0 (cb_opened_at b)
      else b
  | _, _ => b
  end.

(** [_on_success]. *)
Definition on_success (b : CircuitBreaker) : CircuitBreaker :=
  match cb_state b with
  | HALF_OPEN =>
      let sc := (cb_success_count b + 1)%Z in
      if (success_threshold (cb_policy b) <=? sc)%Z then
        mkBreaker (cb_name b) (cb_policy b) CLOSED 0 sc (cb_opened_at b)
      else
        mkBreaker (cb_name b) (cb_policy b) HALF_OPEN (cb_failure_count b) sc (cb_opened_at b)
  | CLOSED =>
      mkBreaker (cb_name b) (cb_policy b) CLOSED 0 (cb_success_count b) (cb_opened_at b)
  | OPEN => b
  end.

(** [_on_failure]; [now] is [time.monotonic()]. *)
Definition on_failure (now : Q) (b : CircuitBreaker) : CircuitBreaker :=
  let fc := (cb_failure_count b + 1)%Z in
  if (failure_threshold (cb_policy b) <=? fc)%Z then
    mkBreaker (cb_name b) (cb_policy b) OPEN 0 (cb_success_count b) (Some now)
  else
    mkBreaker (cb_name b) (cb_policy b) (cb_state b) fc (cb_success_count b) (cb_opened_at b).

(** The admission section of [call]: the lazy OPEN to HALF_OPEN transition, then
    the rejection of calls while OPEN. *)
Definition admit_call (now : Q) (b : CircuitBreaker) : outcome unit * CircuitBreaker :=
  let b' := maybe_transition_half_open now b in
  if bool_decide (cb_state b' = OPEN)
  then (Raise (CircuitOpenError (cb_name b')), b')
  else (Return tt, b').

(** What [call] does to the breaker when the awaited function has ended: record a
    success; leave excluded exceptions and non-[Exception]s alone; otherwise
    record a failure. *)
Definition settle_call {A : Type} (now : Q) (o : outcome A) (b : CircuitBreaker)
    : CircuitBreaker :=
  match o with
  | Return _ => on_success b
  | Raise e =>
      if negb (is_Exception e) then b
      else if isinstance_any e (excluded_exceptions (cb_policy b)) then b
      else on_failure now b
  end.

Section Call.
Context {W A : Type} (monotonic : W → Q).

(** [CircuitBreaker.call(func)].  The state is the breaker and the rest of the
    world; [func] acts on both, since other tasks may use the breaker while
    [func] is awaited. *)
Definition CircuitBreaker_call (func : PyM (CircuitBreaker * W) A)
    : PyM (CircuitBreaker * W) A := λ '(b, w),
  match admit_call (monotonic w) b with
  | (Raise e, b') => (Raise e, (b', w))
  | (Return _, b') =>
      let '(o, (b'', w')) := func (b', w) in
      (o, (settle_call (monotonic w') o b'', w'))
  end.

End Call.

(** ** Concurrent use

    A configuration is the breaker, the clock and the number of calls that have
    been admitted and not yet settled. *)
Record config := mkConfig { cf_breaker : CircuitBreaker; cf_now : Q; cf_in_flight : nat }.

Inductive step : config → config → Prop :=
| step_tick b now now' n :
    (now <= now')%Q →
    step (mkConfig b now n) (mkConfig b now' n)
| step_admit b b' now n :
    admit_call now b = (Return tt, b') →
    step (mkConfig b now n) (mkConfig b' now (S n))
| step_reject b b' e now n :
    admit_call now b = (Raise e, b') →
    step (mkConfig b now n) (mkConfig b' now n)
| step_settle b now n (o : outcome unit) :
    step (mkConfig b now (S n)) (mkConfig (settle_call now o b) now n).

Definition initial_config (name : string) (p : CircuitBreakerPolicy) (now : Q) : config :=
  mkConfig (CircuitBreaker_init name (Some p)) now 0.

(** A history of a breaker is replayed from its events. *)
Inductive cb_event := EvAdmit | EvSettle (o : outcome unit).

Definition run_event (b : CircuitBreaker) (te : Q * cb_event) : CircuitBreaker :=
  match te with
  | (now, EvAdmit) => snd (admit_call now b)
  | (now, EvSettle o) => settle_call now o b
  end.

Definition run_events : CircuitBreaker → list (Q * cb_event) → CircuitBreaker :=
  foldl run_event.

(** ** Invariant *)

(** The failure counter stays below its threshold, an open or half-open breaker
    knows when it was opened, and a half-open one has not yet counted enough
    successes to close. *)
Definition breaker_wf (now : Q) (b : CircuitBreaker) : Prop :=
  (0 <= cb_failure_count b < failure_threshold (cb_policy b))%Z ∧
  (cb_state b ≠ CLOSED → ∃ t, cb_opened_at b = Some t ∧ (t <= now)%Q) ∧
  (cb_state b = HALF_OPEN →
     (0 <= cb_success_count b)%Z ∧
     (cb_success_count b = 0 ∨ cb_success_count b < success_threshold (cb_policy b))%Z).

Lemma breaker_wf_later now now' b :
  (now <= now')%Q → breaker_wf now b → breaker_wf now' b.
Proof.
  intros Hle (Hf & Ho & Hs). split_and!; try lia; try done.
  intros Hc. destruct (Ho Hc) as (t & Ht & Hlt). exists t. split; [done | lra].
Qed.

Lemma half_open_wf now b :
  breaker_wf now b → breaker_wf now (maybe_transition_half_open now b).
Proof.
  intros Hwf. unfold maybe_transition_half_open.
  destruct (cb_state b) eqn:Hst, (cb_opened_at b) eqn:Hop; try done.
  split_test; [|done]. destruct Hwf as (Hf & Ho & Hs). split_and!; simpl; try lia.
  intros _. rewrite <- Hop. apply Ho. congruence.
Qed.

Lemma on_success_wf now b : breaker_wf now b → breaker_wf now (on_success b).
Proof.
  intros Hwf. pose proof Hwf as (Hf & Ho & Hs). unfold on_success.
  destruct (cb_state b) eqn:Hst; [| done |].
  - split_and!; simpl; try lia; done.
  - specialize (Hs eq_refl). specialize (Ho ltac:(done)).
    split_test; split_and!; simpl; intros; try done; lia.
Qed.

Lemma on_failure_wf now b : breaker_wf now b → breaker_wf now (on_failure now b).
Proof.
  intros (Hf & Ho & Hs). unfold on_failure. split_test; split_and!; simpl; try lia; try done.
  intros _. exists now. split; [done | lra].
Qed.

Lemma admit_call_wf now b : breaker_wf now b → breaker_wf now (snd (admit_call now b)).
Proof. intros Hwf. unfold admit_call. case_bool_decide; by apply half_open_wf. Qed.

Lemma settle_call_wf {A} now (o : outcome A) b :
  breaker_wf now b → breaker_wf now (settle_call now o b).
Proof.
  intros Hwf. destruct o; simpl; [by apply on_success_wf|].
  repeat split_test; [done..| by apply on_failure_wf].
Qed.

#[export] Hint Resolve breaker_wf_later half_open_wf on_success_wf on_failure_wf
  admit_call_wf settle_call_wf : mpc.

Lemma step_wf c c' :
  step c c' → breaker_wf (cf_now c) (cf_breaker c) → breaker_wf (cf_now c') (cf_breaker c').
Proof.
  intros [b now now' n Hle | b b' now n Ha | b b' e now n Ha | b now n o] Hwf; simpl in *;
    eauto with mpc; apply admit_call_wf in Hwf; by rewrite Ha in Hwf.
Qed.

Lemma initial_config_wf name p now :
  (1 <= failure_threshold p)%Z → breaker_wf now (cf_breaker (initial_config name p now)).
Proof. intros. split_and!; simpl; try lia; done. Qed.

Lemma settle_call_policy {A} now (o : outcome A) b :
  cb_policy (settle_call now o b) = cb_policy b.
Proof.
  destruct o; simpl; unfold on_success, on_failure; repeat split_test; done.
Qed.

(** ** Histories *)

(** An admitted call that ended with [o], both sections at time [t]. *)
Definition call_events (o : outcome unit) (t : Q) : list (Q * cb_event) :=
  [(t, EvAdmit); (t, EvSettle o)].

Definition run_calls (o : outcome unit) (ts : list Q) (b : CircuitBreaker) : CircuitBreaker :=
  run_events b (ts ≫= call_events o).

Lemma run_calls_app o ts ts' b : run_calls o (ts ++ ts') b = run_calls o ts' (run_calls o ts b).
Proof. unfold run_calls, run_events. by rewrite bind_app, foldl_app. Qed.

Lemma run_calls_one o t b : run_calls o [t] b = settle_call t o (snd (admit_call t b)).
Proof. done. Qed.

Lemma admit_call_not_open now b :
  cb_state b ≠ OPEN → admit_call now b = (Return tt, b).
Proof.
  intros Hst. unfold admit_call, maybe_transition_half_open.
  destruct (cb_state b) eqn:E; try done; simpl; by rewrite E.
Qed.

Lemma admit_call_early now b t :
  cb_state b = OPEN → cb_opened_at b = Some t →
  (now - t < timeout_seconds (cb_policy b))%Q →
  admit_call now b = (Raise (CircuitOpenError (cb_name b)), b).
Proof.
  intros Hst Hop Hlt. unfold admit_call, maybe_transition_half_open. rewrite Hst, Hop.
  destruct (Qle_bool _ _) eqn:E; reflect_tests; [lra|].
  by rewrite Hst, bool_decide_eq_true_2.
Qed.

Lemma admit_call_late now b t :
  cb_state b = OPEN → cb_opened_at b = Some t →
  (timeout_seconds (cb_policy b) <= now - t)%Q →
  admit_call now b =
    (Return tt, mkBreaker (cb_name b) (cb_policy b) HALF_OPEN (cb_failure_count b) 0 (Some t)).
Proof.
  intros Hst Hop Hle. unfold admit_call, maybe_transition_half_open. rewrite Hst, Hop.
  destruct (Qle_bool _ _) eqn:E; reflect_tests; [done | lra].
Qed.

(** A failure the policy counts. *)
Definition counted (p : CircuitBreakerPolicy) (e : pyexn) : bool :=
  is_Exception e && negb (isinstance_any e (excluded_exceptions p)).

Lemma settle_call_counted {A} now e b :
  counted (cb_policy b) e = true →
  settle_call now (Raise e : outcome A) b = on_failure now b.
Proof.
  unfold counted, settle_call. intros [-> ->%negb_true_iff]%andb_true_iff. done.
Qed.

Lemma closed_failures p e ts name fc sc op :
  counted p e = true →
  (fc + Z.of_nat (length ts) < failure_threshold p)%Z →
  run_calls (Raise e) ts (mkBreaker name p CLOSED fc sc op) =
    mkBreaker name p CLOSED (fc + Z.of_nat (length ts)) sc op.
Proof.
  intros He. induction ts as [|t ts IH] using rev_ind; intros Hlt.
  - simpl. by rewrite Z.add_0_r.
  - rewrite length_app in *; simpl in *. rewrite run_calls_app, IH by lia.
    rewrite run_calls_one, admit_call_not_open by done.
    rewrite settle_call_counted by done. unfold on_failure; simpl.
    split_test; [lia|]. f_equal. lia.
Qed.

(** A call that starts at one time, ends at another and returns a value. *)
Definition timed_call {A} (c : Q * Q * A) : PyM (CircuitBreaker * Q) A := λ s,
  CircuitBreaker_call id (λ s', (Return (snd c), (fst s', snd (fst c)))) (fst s, fst (fst c)).

Lemma half_open_calls {A} p (cs : list (Q * Q * A)) name fc sc op now :
  (sc + Z.of_nat (length cs) < success_threshold p)%Z →
  ∃ now', run_each timed_call cs (mkBreaker name p HALF_OPEN fc sc op, now) =
    (map (λ c, Return (snd c)) cs, (mkBreaker name p HALF_OPEN fc (sc + Z.of_nat (length cs)) op, now')).
Proof.
  revert sc now. induction cs as [|c cs IH]; intros sc now Hlt; [exists now; simpl; by rewrite Z.add_0_r|].
  simpl in Hlt. destruct (IH (sc + 1)%Z (snd (fst c))) as [now' Hrun]; [lia|]. exists now'.
  cbn [run_each map length]. unfold timed_call at 1, CircuitBreaker_call. cbn [fst snd].
  rewrite admit_call_not_open by done. cbn [fst snd settle_call on_success cb_state cb_success_count cb_policy].
  split_test; [lia|]. cbn [cb_name cb_failure_count cb_opened_at]. rewrite Hrun. do 3 f_equal. lia.
Qed.

(** ** Properties *)

(** C1: in every configuration reachable by interleaving any number of concurrent
    calls, clock advances and outcomes, the breaker is well formed: its failure
    count is below the threshold, OPEN and HALF_OPEN carry a past opening time,
    and HALF_OPEN has not reached the success threshold. *)
Theorem breaker_reachable_wf name p now0 c :
  (1 <= failure_threshold p)%Z →
  rtc step (initial_config name p now0) c →
  breaker_wf (cf_now c) (cf_breaker c).
Proof.
  intros Hp Hr. remember (initial_config name p now0) as c0 eqn:Hc0.
  assert (breaker_wf (cf_now c0) (cf_breaker c0)) as Hwf
    by (subst; by apply initial_config_wf).
  clear Hc0. induction Hr; eauto using step_wf.
Qed.

Lemma breaker_reachable_wf_witness :
  rtc step (initial_config "db" (mkPolicy 1 2 30 60 []) 0)
    (mkConfig (mkBreaker "db" (mkPolicy 1 2 30 60 []) OPEN 0 0 (Some 0)) 0 0) ∧
  breaker_wf 0 (mkBreaker "db" (mkPolicy 1 2 30 60 []) OPEN 0 0 (Some 0)).
Proof.
  set (c := mkConfig (mkBreaker "db" (mkPolicy 1 2 30 60 []) OPEN 0 0 (Some 0)) 0 0).
  assert (rtc step (initial_config "db" (mkPolicy 1 2 30 60 []) 0) c) as Hr.
  { set (b0 := CircuitBreaker_init "db" (Some (mkPolicy 1 2 30 60 []))).
    apply (rtc_l _ _ (mkConfig b0 0 1)); [exact (step_admit b0 b0 0 0 eq_refl)|].
    apply rtc_once. exact (step_settle b0 0 0 (Raise (ValueError "boom"))). }
  split; [exact Hr|]. apply (breaker_reachable_wf _ _ 0 c) in Hr; [exact Hr | simpl; lia].
Defined.

(** C2: [call] rejects exactly when the breaker is OPEN and its recovery timeout
    has not elapsed: it then raises [CircuitOpenError] without running the
    function or changing anything.  Otherwise the function runs once, on a
    breaker that is not OPEN, its outcome is the outcome of [call], and the
    breaker is settled with it. *)
Theorem call_rejects_iff_open {W A} (monotonic : W → Q)
    (func : PyM (CircuitBreaker * W) A) (b : CircuitBreaker) (w : W) :
  let too_early := ∀ t, cb_opened_at b = Some t →
    (monotonic w - t < timeout_seconds (cb_policy b))%Q in
  (cb_state b = OPEN ∧ too_early →
     CircuitBreaker_call monotonic func (b, w) =
       (Raise (CircuitOpenError (cb_name b)), (b, w))) ∧
  (¬ (cb_state b = OPEN ∧ too_early) →
     ∃ b', cb_state b' ≠ OPEN ∧ b' = maybe_transition_half_open (monotonic w) b ∧
       CircuitBreaker_call monotonic func (b, w) =
         let '(o, (b'', w')) := func (b', w) in
         (o, (settle_call (monotonic w') o b'', w'))).
Proof.
  intros too_early. unfold CircuitBreaker_call. split.
  - intros [Hst He]. destruct (cb_opened_at b) as [t|] eqn:Hop.
    + by rewrite (admit_call_early _ _ t) by eauto.
    + unfold admit_call, maybe_transition_half_open. rewrite Hst, Hop.
      by rewrite bool_decide_eq_true_2.
  - intros Hn. destruct (decide (cb_state b = OPEN)) as [Hst|Hst].
    + destruct (cb_opened_at b) as [t|] eqn:Hop; [|exfalso; apply Hn; split; [done|]; by intros ??].
      destruct (Qlt_le_dec (monotonic w - t) (timeout_seconds (cb_policy b))) as [Hlt|Hge].
      { exfalso. apply Hn. split; [done|]. intros t' [= <-]. done. }
      rewrite (admit_call_late _ _ t) by done. eexists. split; [|split; [|reflexivity]].
      { done. }
      unfold maybe_transition_half_open. rewrite Hst, Hop. split_test; [done | lra].
    + rewrite admit_call_not_open by done. exists b. split_and!; [done | | done].
      unfold maybe_transition_half_open. destruct (cb_state b); done.
Qed.

(** from a closed breaker with no failure recorded, fewer counted failures in
    a row than the threshold leave it CLOSED with exactly that count; the failure
    that reaches the threshold opens it at that instant, and from then on every
    call inside the recovery timeout is rejected with the breaker unchanged. *)
Theorem consecutive_failures_open p name e ts t :
  counted p e = true →
  (Z.of_nat (length ts) + 1 = failure_threshold p)%Z →
  let b0 := CircuitBreaker_init name (Some p) in
  (∀ ts', (length ts' <= length ts)%nat →
     run_calls (Raise e) ts' b0 = mkBreaker name p CLOSED (Z.of_nat (length ts')) 0 None) ∧
  let b := run_calls (Raise e) (ts ++ [t]) b0 in
  b = mkBreaker name p OPEN 0 0 (Some t) ∧
  ∀ now, (now - t < timeout_seconds p)%Q →
    admit_call now b = (Raise (CircuitOpenError name), b).
Proof.
  intros He Hlen b0. unfold b0, CircuitBreaker_init; simpl.
  assert (run_calls (Raise e) (ts ++ [t]) (mkBreaker name p CLOSED 0 0 None) =
            mkBreaker name p OPEN 0 0 (Some t)) as ->.
  { rewrite run_calls_app, closed_failures by (done || lia).
    rewrite run_calls_one, admit_call_not_open by done.
    rewrite settle_call_counted by done. unfold on_failure; simpl.
    split_test; [done | lia]. }
  split_and!; [| done |].
  - intros ts' Hle. by rewrite closed_failures by (done || lia).
  - intros now Hlt. by apply (admit_call_early now (mkBreaker name p OPEN 0 0 (Some t)) t).
Qed.

Lemma consecutive_failures_open_witness :
  run_calls (Raise (ValueError "x")) [1; 2; 3; 4; 5]
    (CircuitBreaker_init "db" (Some default_policy)) =
    mkBreaker "db" default_policy OPEN 0 0 (Some 5).
Proof.
  apply (consecutive_failures_open default_policy "db" (ValueError "x") [1; 2; 3; 4] 5);
    reflexivity.
Defined.

(** C3: once the recovery timeout has elapsed, an open breaker lets every call through
    while the calls succeed: each runs its function and returns its value.  The breaker
    is HALF_OPEN after each of them until as many have succeeded as the success
    threshold asks for, at least one, and the call that reaches this number closes it and
    clears the failure count. *)
Theorem recovery_closes {A} p name fc sc t0 (c : Q * Q * A) (cs : list (Q * Q * A)) now :
  (timeout_seconds p <= fst (fst c) - t0)%Q →
  Z.of_nat (length (c :: cs)) = Z.max 1 (success_threshold p) →
  let b0 := mkBreaker name p OPEN fc sc (Some t0) in
  (∀ cs1 cs2, cs = cs1 ++ cs2 → cs2 ≠ [] →
     ∃ now', run_each timed_call (c :: cs1) (b0, now) =
       (map (λ c, Return (snd c)) (c :: cs1),
        (mkBreaker name p HALF_OPEN fc (Z.of_nat (length (c :: cs1))) (Some t0), now'))) ∧
  ∃ now', run_each timed_call (c :: cs) (b0, now) =
    (map (λ c, Return (snd c)) (c :: cs),
     (mkBreaker name p CLOSED 0 (Z.of_nat (length (c :: cs))) (Some t0), now')).
Proof.
  intros Hto Hlen b0. simpl in Hlen.
  assert (Hfirst : timed_call c (b0, now) =
    (Return (snd c), (on_success (mkBreaker name p HALF_OPEN fc 0 (Some t0)), snd (fst c)))).
  { unfold timed_call, CircuitBreaker_call. cbn [fst snd]. by rewrite (admit_call_late _ _ t0). }
  assert (Hprefix : ∀ cs1 cs2, cs = cs1 ++ cs2 → cs2 ≠ [] →
     ∃ now', run_each timed_call (c :: cs1) (b0, now) =
       (map (λ c, Return (snd c)) (c :: cs1),
        (mkBreaker name p HALF_OPEN fc (Z.of_nat (length (c :: cs1))) (Some t0), now'))).
  { intros cs1 cs2 -> Hne. rewrite length_app in Hlen. assert (0 < length cs2)%nat by (destruct cs2; [done | simpl; lia]).
    destruct (half_open_calls p cs1 name fc 1 (Some t0) (snd (fst c))) as [now' Hrun]; [lia|]. exists now'.
    cbn [run_each]. rewrite Hfirst. unfold on_success; cbn [cb_state cb_success_count cb_policy].
    split_test; [lia|]. cbn [cb_name cb_failure_count cb_opened_at]. rewrite Z.add_0_l, Hrun. cbn [map length]. do 3 f_equal. lia. }
  split; [exact Hprefix|]. destruct cs as [|c' cs _] using rev_ind.
  - exists (snd (fst c)). cbn [run_each]. rewrite Hfirst. unfold on_success; cbn [cb_state cb_success_count cb_policy].
    split_test; [done | simpl in *; lia].
  - destruct (Hprefix cs [c'] eq_refl ltac:(done)) as [now1 Hrun]. exists (snd (fst c')).
    rewrite app_comm_cons, run_each_app, Hrun, map_app, length_app in *. cbn [run_each map].
    unfold timed_call, CircuitBreaker_call. cbn [fst snd]. rewrite admit_call_not_open by done.
    cbn [fst snd settle_call on_success cb_state cb_success_count cb_policy]. simpl in *.
    split_test; [|lia]. cbn [cb_name cb_opened_at]. do 3 f_equal. lia.
Qed.

Lemma recovery_closes_witness :
  ∃ now', run_each timed_call [(31, 32, "a"); (33, 34, "b")] (mkBreaker "db" default_policy OPEN 0 0 (Some 1), 2) =
    ([Return "a"; Return "b"], (mkBreaker "db" default_policy CLOSED 0 2 (Some 1), now')).
Proof.
  apply (recovery_closes default_policy "db" 0 0 1 (31, 32, "a") [(33, 34, "b")] 2); [|reflexivity].
  apply Qle_bool_iff. reflexivity.
Defined.
