(* ===== verification/RedisCircuitBreaker.v ===== *)
(** * The Redis-backed circuit breaker
      ([resilience/circuit_breaker/redis_breaker.py])

    The Redis server is not part of the repository: it is a type [R] with the
    commands the breaker sends ([RedisServer]) and the documented behaviour the
    breaker relies on ([RedisSpec]); [SimRedis] is an implementation that meets
    it.  The two Lua scripts are part of the repository and are modelled command
    by command; Redis runs a script atomically, so each is one transformer of the
    server.  Values are kept decoded: a string, an integer counter, a timestamp. *)
From S2P Require Import Prelude Errors CircuitBreaker.

(** ** The server, as an interface *)

Inductive redis_val := RStr (s : string) | RInt (n : Z) | RFloat (q : Q).

Definition ResponseError : pyexn :=
  exn_of ["ResponseError"; "RedisError"] "value is not an integer or out of range".

Class RedisServer (R : Type) := {
  redis_get : string → R → option redis_val;
  redis_set : string → redis_val → R → R;
  redis_set_xx : string → redis_val → R → bool * R;
  redis_set_nx_px : string → redis_val → Z → R → bool * R;
  redis_del : list string → R → R;
  redis_incr : string → R → outcome Z * R;
  redis_wait : Q → R → R;
}.

Class RedisSpec (R : Type) `{RedisServer R} := {
  redis_get_set k v r : redis_get k (redis_set k v r) = Some v;
  redis_get_set_ne k k' v r : k ≠ k' → redis_get k' (redis_set k v r) = redis_get k' r;
  redis_get_del k ks r :
    redis_get k (redis_del ks r) = if bool_decide (k ∈ ks) then None else redis_get k r;
  redis_set_xx_spec k v r :
    redis_set_xx k v r =
      match redis_get k r with
      | Some _ => (true, redis_set k v r)
      | None => (false, r)
      end;
  redis_set_nx_taken k v ttl v' r :
    redis_get k r = Some v' → redis_set_nx_px k v ttl r = (false, r);
  redis_set_nx_free k v ttl r :
    redis_get k r = None → (0 < ttl)%Z →
    ∃ r', redis_set_nx_px k v ttl r = (true, r') ∧
      (∀ k', k' ≠ k → redis_get k' r' = redis_get k' r) ∧
      (∀ d, (0 <= d)%Q →
        redis_get k (redis_wait d r') =
          if Qltb d (inject_Z ttl / 1000) then Some v else None);
  redis_wait_0 k r : redis_get k (redis_wait 0 r) = redis_get k r;
  redis_incr_absent k r :
    redis_get k r = None → redis_incr k r = (Return 1%Z, redis_set k (RInt 1) r);
  redis_incr_int k n r :
    redis_get k r = Some (RInt n) →
    redis_incr k r = (Return (n + 1)%Z, redis_set k (RInt (n + 1)) r);
}.

(** ** The breaker *)

Record RedisCircuitBreaker := mkRedisBreaker {
  rb_name : string;
  rb_policy : CircuitBreakerPolicy;
  rb_half_open_probe_ttl_ms : Z;
  rb_key_state : string;
  rb_key_failures : string;
  rb_key_opened_at : string;
  rb_key_probe_lock : string;
}.

Definition RedisCircuitBreaker_init (name : string) (policy : option CircuitBreakerPolicy)
    (key_prefix : string) (half_open_probe_ttl_ms : Z) : RedisCircuitBreaker :=
  let prefix := key_prefix +:+ ":" +:+ name in
  mkRedisBreaker name (default default_policy policy) half_open_probe_ttl_ms
    (prefix +:+ ":state") (prefix +:+ ":failures")
    (prefix +:+ ":opened_at") (prefix +:+ ":probe_lock").

Definition state_value (s : CircuitBreakerState) : string :=
  match s with CLOSED => "CLOSED" | OPEN => "OPEN" | HALF_OPEN => "HALF_OPEN" end.

(** [CircuitBreakerState(raw)]: the enum member with that value. *)
Definition state_of_value (v : redis_val) : outcome CircuitBreakerState :=
  match v with
  | RStr s =>
      if String.eqb s "CLOSED" then Return CLOSED
      else if String.eqb s "OPEN" then Return OPEN
      else if String.eqb s "HALF_OPEN" then Return HALF_OPEN
      else Raise (ValueError "not a valid CircuitBreakerState")
  | _ => Raise (ValueError "not a valid CircuitBreakerState")
  end.

(** [float(raw)]. *)
Definition float_of_value (v : redis_val) : outcome Q :=
  match v with
  | RFloat q => Return q
  | RInt n => Return (inject_Z n)
  | RStr _ => Raise (ValueError "could not convert string to float")
  end.

Section Breaker.
Context {R W : Type} `{RedisServer R} (wall : W → Q) (rb : RedisCircuitBreaker).

(** [_LUA_RECORD_FAILURE] with KEYS = failures, state, opened_at and
    ARGV = threshold, timestamp.  The result tells whether the script opened the
    circuit. *)
Definition lua_record_failure (threshold : Z) (now : Q) : PyM R bool := λ r,
  match redis_incr (rb_key_failures rb) r with
  | (Raise e, r1) => (Raise e, r1)
  | (Return failures, r1) =>
      if (threshold <=? failures)%Z then
        (Return true,
          redis_set (rb_key_opened_at rb) (RFloat now)
            (redis_set (rb_key_state rb) (RStr "OPEN") r1))
      else (Return false, r1)
  end.

(** [_LUA_RECORD_SUCCESS] with KEYS = failures, state, opened_at and
    ARGV = success threshold.  The result is the state string it returns. *)
Definition lua_record_success (threshold : Z) : PyM R redis_val := λ r,
  let state := default (RStr "CLOSED") (redis_get (rb_key_state rb) r) in
  match state with
  | RStr "HALF_OPEN" =>
      match redis_incr (rb_key_failures rb) r with
      | (Raise e, r1) => (Raise e, r1)
      | (Return succ, r1) =>
          if (threshold <=? succ)%Z then
            (Return (RStr "CLOSED"),
              redis_del [rb_key_opened_at rb]
                (redis_set (rb_key_failures rb) (RInt 0)
                  (redis_set (rb_key_state rb) (RStr "CLOSED") r1)))
          else (Return (RStr "HALF_OPEN"), r1)
      end
  | RStr "CLOSED" => (Return (RStr "CLOSED"), redis_set (rb_key_failures rb) (RInt 0) r)
  | _ => (Return state, r)
  end.

(** [RedisCircuitBreaker.state]. *)
Definition RedisCircuitBreaker_state : PyM R CircuitBreakerState := λ r,
  match redis_get (rb_key_state rb) r with
  | None => (Return CLOSED, r)
  | Some raw => (state_of_value raw, r)
  end.

(** [_maybe_transition_half_open]; [now] is [time.time()]. *)
Definition rb_maybe_transition_half_open (now : Q) (current_state : CircuitBreakerState)
    : PyM R CircuitBreakerState := λ r,
  if negb (bool_decide (current_state = OPEN)) then (Return current_state, r)
  else
    match redis_get (rb_key_opened_at rb) r with
    | None => (Return current_state, r)
    | Some raw =>
        match float_of_value raw with
        | Raise e => (Raise e, r)
        | Return opened_at =>
            if Qle_bool (timeout_seconds (rb_policy rb)) (now - opened_at) then
              (Return HALF_OPEN,
                snd (redis_set_xx (rb_key_state rb) (RStr (state_value HALF_OPEN)) r))
            else (Return current_state, r)
        end
    end.

(** [_on_failure]. *)
Definition rb_on_failure (now : Q) : PyM R unit :=
  lua_record_failure (failure_threshold (rb_policy rb)) now ;; mret tt.

(** [_on_success]: the script, then the deletion of the probe lock. *)
Definition rb_on_success : PyM R unit :=
  lua_record_success (success_threshold (rb_policy rb)) ;;
  updates (redis_del [rb_key_probe_lock rb]).

(** [SET probe_lock 1 NX PX ttl], the admission of a HALF_OPEN call. *)
Definition rb_acquire_probe : PyM R unit := λ r,
  match redis_set_nx_px (rb_key_probe_lock rb) (RStr "1") (rb_half_open_probe_ttl_ms rb) r with
  | (true, r') => (Return tt, r')
  | (false, r') => (Raise (CircuitOpenError (rb_name rb)), r')
  end.

(** The part of [call] before [func]: returns when the call may proceed. *)
Definition rb_admit (now : Q) : PyM R unit :=
  st0 ← RedisCircuitBreaker_state;
  st ← rb_maybe_transition_half_open now st0;
  match st with
  | OPEN => raise (CircuitOpenError (rb_name rb))
  | HALF_OPEN => rb_acquire_probe
  | CLOSED => mret tt
  end.

(** [RedisCircuitBreaker.call(func)]; an exception of the success script is
    handled by the same [except] clause as one of [func]. *)
Definition RedisCircuitBreaker_call {A} (func : PyM (R * W) A) : PyM (R * W) A :=
  now ← reads (wall ∘ snd);
  on_fst (rb_admit now) ;;
  try_except
    (result ← func;
     on_fst rb_on_success ;;
     mret result)
    (λ exc,
      if isinstance_any exc (excluded_exceptions (rb_policy rb)) then raise exc
      else
        now' ← reads (wall ∘ snd);
        on_fst (rb_on_failure now') ;;
        raise exc).

(** [reset]. *)
Definition RedisCircuitBreaker_reset : R → R :=
  redis_del [rb_key_state rb; rb_key_failures rb; rb_key_opened_at rb; rb_key_probe_lock rb].

End Breaker.

(** ** A server that meets the interface

    A store of values with optional expiry instants, and the server's clock. *)
Record SimRedis := mkSim { sim_now : Q; sim_store : gmap string (redis_val * option Q) }.

Definition sim_live (now : Q) (e : redis_val * option Q) : option redis_val :=
  match snd e with
  | None => Some (fst e)
  | Some t => if Qltb now t then Some (fst e) else None
  end.

Definition sim_get (k : string) (r : SimRedis) : option redis_val :=
  sim_store r !! k ≫= sim_live (sim_now r).

Definition sim_put (k : string) (v : redis_val) (exp : option Q) (r : SimRedis) : SimRedis :=
  mkSim (sim_now r) (<[k := (v, exp)]> (sim_store r)).

#[export] Instance SimRedis_server : RedisServer SimRedis := {
  redis_get := sim_get;
  redis_set k v r := sim_put k v None r;
  redis_set_xx k v r :=
    match sim_get k r with Some _ => (true, sim_put k v None r) | None => (false, r) end;
  redis_set_nx_px k v ttl r :=
    match sim_get k r with
    | Some _ => (false, r)
    | None => (true, sim_put k v (Some (sim_now r + inject_Z ttl / 1000))%Q r)
    end;
  redis_del ks r := mkSim (sim_now r) (foldr delete (sim_store r) ks);
  redis_incr k r :=
    match sim_get k r with
    | None => (Return 1%Z, sim_put k (RInt 1) None r)
    | Some (RInt n) => (Return (n + 1)%Z, sim_put k (RInt (n + 1)) None r)
    | Some _ => (Raise ResponseError, r)
    end;
  redis_wait d r := mkSim (sim_now r + d)%Q (sim_store r);
}.

Lemma lookup_foldr_delete {V} (m : gmap string V) ks k :
  foldr delete m ks !! k = if bool_decide (k ∈ ks) then None else m !! k.
Proof.
  induction ks as [|k' ks IH]; [done|]; simpl.
  destruct (decide (k = k')) as [->|Hne].
  - by rewrite lookup_delete_eq, bool_decide_eq_true_2 by set_solver.
  - rewrite lookup_delete_ne, IH by done.
    by rewrite (bool_decide_ext (k ∈ k' :: ks) (k ∈ ks)) by set_solver.
Qed.

#[export] Instance SimRedis_spec : RedisSpec SimRedis.
Proof.
  split; unfold redis_get, redis_set, redis_del, redis_set_xx, redis_set_nx_px, redis_incr,
    redis_wait, SimRedis_server, sim_get, sim_put; simpl.
  - intros k v r. by rewrite lookup_insert_eq.
  - intros k k' v r Hne. by rewrite lookup_insert_ne.
  - intros k ks r. rewrite lookup_foldr_delete. by case_bool_decide.
  - done.
  - intros k v ttl v' r ->. done.
  - intros k v ttl r -> Httl. eexists. split; [done|]. split.
    + intros k' Hne. simpl. by rewrite lookup_insert_ne.
    + intros d Hd. simpl. rewrite lookup_insert_eq. simpl. unfold sim_live; simpl.
      destruct (Qltb d _) eqn:E1, (Qltb (_ + d) _) eqn:E2; try done; reflect_tests; lra.
  - intros k r. destruct (sim_store r !! k) as [[v [t|]]|]; try done. simpl.
    unfold sim_live; simpl.
    destruct (Qltb _ _) eqn:E1, (Qltb (sim_now r) _) eqn:E2; try done; reflect_tests; lra.
  - intros k r ->. done.
  - intros k n r ->. done.
Qed.

(** ** Lemmas *)

Lemma init_keys_distinct name p prefix ttl :
  let rb := RedisCircuitBreaker_init name p prefix ttl in
  NoDup [rb_key_state rb; rb_key_failures rb; rb_key_opened_at rb; rb_key_probe_lock rb].
Proof.
  simpl. set (pre := prefix +:+ ":" +:+ name).
  repeat (apply NoDup_cons; split); try apply NoDup_nil_2; rewrite ?list_elem_of_In; simpl;
    intros Heq; repeat destruct Heq as [Heq|Heq]; try done; by apply (inj _) in Heq.
Qed.

(** The four keys of a breaker are distinct. *)
Definition keys_ok (rb : RedisCircuitBreaker) : Prop :=
  NoDup [rb_key_state rb; rb_key_failures rb; rb_key_opened_at rb; rb_key_probe_lock rb].

Ltac keys_ne :=
  match goal with
  | H : keys_ok _ |- _ =>
      let H' := fresh in
      pose proof H as H'; unfold keys_ok in H';
      rewrite !NoDup_cons in H'; rewrite ?list_elem_of_In in H'; simpl in H'; intuition congruence
  end.

Lemma get_del_eq {R} `{RedisSpec R} k (r : R) : redis_get k (redis_del [k] r) = None.
Proof. rewrite redis_get_del, bool_decide_eq_true_2; [done|]. by apply list_elem_of_here. Qed.

Lemma get_del_other {R} `{RedisSpec R} k k' (r : R) :
  k' ≠ k → redis_get k' (redis_del [k] r) = redis_get k' r.
Proof.
  intros Hne. rewrite redis_get_del, bool_decide_eq_false_2; [done|].
  by intros ->%list_elem_of_singleton.
Qed.

Ltac redis_simpl :=
  repeat first
    [ rewrite redis_get_set
    | rewrite get_del_eq
    | rewrite redis_get_set_ne by keys_ne
    | rewrite get_del_other by keys_ne ].

Section Lemmas.
Context {R W : Type} `{RedisSpec R} (wall : W → Q) (rb : RedisCircuitBreaker).
Context (Hkeys : keys_ok rb).

(** The failure counter, absent counting as 0. *)
Definition failures (r : R) : option Z :=
  match redis_get (rb_key_failures rb) r with
  | None => Some 0%Z
  | Some (RInt n) => Some n
  | Some _ => None
  end.

Lemma incr_failures n (r : R) :
  failures r = Some n →
  redis_incr (rb_key_failures rb) r =
    (Return (n + 1)%Z, redis_set (rb_key_failures rb) (RInt (n + 1)) r).
Proof.
  unfold failures. destruct (redis_get _ r) as [[| m |]|] eqn:E; intros [= <-].
  - by apply redis_incr_int.
  - by rewrite redis_incr_absent by done.
Qed.

(** The failure script run once per timestamp. *)
Definition record_failures (ts : list Q) (r : R) : R :=
  foldl (λ r now, snd (rb_on_failure rb now r)) r ts.

Lemma on_failure_spec now n (r : R) :
  failures r = Some n →
  let r' := snd (rb_on_failure rb now r) in
  let opens := (failure_threshold (rb_policy rb) <=? n + 1)%Z in
  failures r' = Some (n + 1)%Z ∧
  redis_get (rb_key_state rb) r' =
    (if opens then Some (RStr "OPEN") else redis_get (rb_key_state rb) r) ∧
  redis_get (rb_key_opened_at rb) r' =
    (if opens then Some (RFloat now) else redis_get (rb_key_opened_at rb) r) ∧
  redis_get (rb_key_probe_lock rb) r' = redis_get (rb_key_probe_lock rb) r.
Proof.
  intros Hf r' opens.
  unfold r', rb_on_failure, lua_record_failure, mbind, PyM_bind.
  rewrite (incr_failures n) by done. unfold opens.
  destruct (_ <=? _)%Z; simpl; unfold failures; redis_simpl; done.
Qed.

(** A successful probe of a half-open circuit whose counter stands at [n]. *)
Lemma on_success_half_open n (r : R) :
  failures r = Some n → redis_get (rb_key_state rb) r = Some (RStr "HALF_OPEN") →
  let '(o, r') := rb_on_success rb r in
  let closes := (success_threshold (rb_policy rb) <=? n + 1)%Z in
  o = Return tt ∧
  redis_get (rb_key_state rb) r' = Some (RStr (if closes then "CLOSED" else "HALF_OPEN")) ∧
  failures r' = Some (if closes then 0 else n + 1)%Z ∧
  redis_get (rb_key_opened_at rb) r' =
    (if closes then None else redis_get (rb_key_opened_at rb) r) ∧
  redis_get (rb_key_probe_lock rb) r' = None.
Proof.
  intros Hf Hst. unfold rb_on_success, lua_record_success, mbind, PyM_bind, updates.
  rewrite Hst; simpl. rewrite (incr_failures n) by done.
  destruct (_ <=? _)%Z; simpl; unfold failures; redis_simpl; done.
Qed.

(** When the call is turned away: OPEN before the timeout, or the circuit is (or
    becomes) HALF_OPEN and the probe lock is held. *)
Definition rejects (now : Q) (r : R) : Prop :=
  (redis_get (rb_key_state rb) r = Some (RStr "OPEN") ∧
     ∃ t, redis_get (rb_key_opened_at rb) r = Some (RFloat t) ∧
       ((now - t < timeout_seconds (rb_policy rb))%Q ∨
        is_Some (redis_get (rb_key_probe_lock rb) r))) ∨
  (redis_get (rb_key_state rb) r = Some (RStr "HALF_OPEN") ∧
     is_Some (redis_get (rb_key_probe_lock rb) r)).

Lemma acquire_probe_taken (r : R) :
  is_Some (redis_get (rb_key_probe_lock rb) r) →
  rb_acquire_probe rb r = (Raise (CircuitOpenError (rb_name rb)), r).
Proof. intros [v Hv]. unfold rb_acquire_probe. by rewrite (redis_set_nx_taken _ _ _ v) by done. Qed.

Lemma admit_rejects now (r : R) :
  rejects now r →
  ∃ r', rb_admit rb now r = (Raise (CircuitOpenError (rb_name rb)), r') ∧
    ∀ k, k ≠ rb_key_state rb → redis_get k r' = redis_get k r.
Proof.
  intros [(Hst & t & Hop & Hor) | (Hst & Hlk)];
    unfold rb_admit, RedisCircuitBreaker_state, mbind, PyM_bind; rewrite Hst; simpl.
  - unfold rb_maybe_transition_half_open; simpl. rewrite Hop; simpl.
    destruct (Qle_bool _ _) eqn:E; reflect_tests; [|by eauto].
    destruct Hor as [Hlt|Hlk]; [lra|]. rewrite redis_set_xx_spec, Hst; simpl.
    rewrite acquire_probe_taken by (redis_simpl; done). eexists. split; [done|].
    intros k Hk. by rewrite redis_get_set_ne.
  - rewrite acquire_probe_taken by done. by eauto.
Qed.

Lemma admit_half_open now (r : R) t :
  (0 < rb_half_open_probe_ttl_ms rb)%Z →
  redis_get (rb_key_state rb) r = Some (RStr "OPEN") →
  redis_get (rb_key_opened_at rb) r = Some (RFloat t) →
  (timeout_seconds (rb_policy rb) <= now - t)%Q →
  redis_get (rb_key_probe_lock rb) r = None →
  ∃ r', rb_admit rb now r = (Return tt, r') ∧
    redis_get (rb_key_state rb) r' = Some (RStr "HALF_OPEN") ∧
    redis_get (rb_key_probe_lock rb) r' = Some (RStr "1") ∧
    failures r' = failures r.
Proof.
  intros Httl Hst Hop Hle Hlk. unfold rb_admit, RedisCircuitBreaker_state, mbind, PyM_bind.
  rewrite Hst; simpl. unfold rb_maybe_transition_half_open; simpl. rewrite Hop; simpl.
  destruct (Qle_bool _ _) eqn:E; reflect_tests; [|lra].
  rewrite redis_set_xx_spec, Hst; simpl. unfold rb_acquire_probe.
  edestruct (redis_set_nx_free (rb_key_probe_lock rb) (RStr "1")
    (rb_half_open_probe_ttl_ms rb) (redis_set (rb_key_state rb) (RStr "HALF_OPEN") r))
    as (r' & -> & Hother & Hwait); [redis_simpl; done | done |].
  exists r'. split_and!; [done | | |].
  - rewrite Hother by keys_ne. by redis_simpl.
  - rewrite <- redis_wait_0, Hwait by lra.
    destruct (Qltb _ _) eqn:E'; [done|]. reflect_tests.
    exfalso. assert (0 < inject_Z (rb_half_open_probe_ttl_ms rb))%Q by
      (change 0%Q with (inject_Z 0); by rewrite <- Zlt_Qlt). unfold Qdiv in *. change (/ 1000)%Q with (1 # 1000)%Q in *. lra.
  - unfold failures. rewrite Hother by keys_ne. by redis_simpl.
Qed.

End Lemmas.

(** ** Properties *)

(** C4: the failure script counts every failure, whatever the order in which the
    instances' scripts run: after the [i]-th of them the counter is exactly [i]
    more, the circuit keeps its state while the counter is below the threshold,
    and is OPEN with the last failure's timestamp as soon as it is reached. *)
Theorem failures_open_at_threshold {R} `{RedisSpec R} rb n0 ts t (r : R) :
  keys_ok rb →
  failures rb r = Some n0 →
  (n0 + Z.of_nat (length ts) < failure_threshold (rb_policy rb))%Z →
  let r1 := record_failures rb ts r in
  let r2 := record_failures rb (ts ++ [t]) r in
  failures rb r1 = Some (n0 + Z.of_nat (length ts))%Z ∧
  redis_get (rb_key_state rb) r1 = redis_get (rb_key_state rb) r ∧
  (n0 + Z.of_nat (length ts) + 1 = failure_threshold (rb_policy rb) →
     redis_get (rb_key_state rb) r2 = Some (RStr "OPEN") ∧
     redis_get (rb_key_opened_at rb) r2 = Some (RFloat t))%Z.
Proof.
  intros Hk Hf Hlt. unfold record_failures. rewrite foldl_app; simpl.
  assert (failures rb (record_failures rb ts r) = Some (n0 + Z.of_nat (length ts))%Z ∧
          redis_get (rb_key_state rb) (record_failures rb ts r) =
            redis_get (rb_key_state rb) r) as [Hf1 Hs1].
  { induction ts as [|t' ts IH] using rev_ind; [simpl; by rewrite Z.add_0_r|].
    rewrite length_app in *; simpl in *. destruct IH as [IHf IHs]; [lia|].
    unfold record_failures. rewrite foldl_app; simpl.
    destruct (on_failure_spec rb Hk t' _ _ IHf) as (H1 & H2 & _ & _).
    unfold record_failures in *. rewrite H1, H2, IHs.
    destruct (_ <=? _)%Z eqn:E; reflect_tests; [lia|]. split; [f_equal; lia | done]. }
  split_and!; [done | done |]. intros Heq.
  destruct (on_failure_spec rb Hk t _ _ Hf1) as (_ & H2 & H3 & _).
  unfold record_failures in *. rewrite H2, H3, Heq, Z.leb_refl. done.
Qed.

Definition sim0 : SimRedis := mkSim 0 ∅.
Definition rb0 : RedisCircuitBreaker := RedisCircuitBreaker_init "pay" None "circuit_breaker" 5000.

Lemma failures_open_at_threshold_witness :
  redis_get (rb_key_state rb0) (record_failures rb0 [1; 2; 3; 4; 5] sim0) = Some (RStr "OPEN").
Proof.
  refine (proj1 (proj2 (proj2
    (failures_open_at_threshold rb0 0 [1; 2; 3; 4] 5 sim0 _ _ _)) _)).
  - apply init_keys_distinct.
  - vm_compute. reflexivity.
  - vm_compute. reflexivity.
  - vm_compute. reflexivity.
Defined.

(** C5: a call is turned away with [CircuitOpenError], and its function does not
    run, whenever the circuit is OPEN and its timeout has not elapsed, and whenever
    it is HALF_OPEN (or due to become so) while another instance holds the probe
    lock; the rest of the world and every key but the state are untouched. *)
Theorem redis_call_rejects {R W A} `{RedisSpec R} (wall : W → Q) rb
    (func : PyM (R * W) A) (r : R) (w : W) :
  keys_ok rb →
  rejects rb (wall w) r →
  ∃ r', RedisCircuitBreaker_call wall rb func (r, w) =
      (Raise (CircuitOpenError (rb_name rb)), (r', w)) ∧
    ∀ k, k ≠ rb_key_state rb → redis_get k r' = redis_get k r.
Proof.
  intros Hk Hr. destruct (admit_rejects rb Hk _ _ Hr) as (r' & Ha & Hother).
  exists r'. split; [|done].
  unfold RedisCircuitBreaker_call, mbind, PyM_bind, reads, on_fst; simpl. by rewrite Ha.
Qed.

Definition sim_half_open_locked : SimRedis :=
  mkSim 0 {[ rb_key_state rb0 := (RStr "HALF_OPEN", None);
             rb_key_probe_lock rb0 := (RStr "1", Some 5%Q) ]}.

Lemma redis_call_rejects_witness :
  ∃ r', RedisCircuitBreaker_call (W := Q) id rb0 (λ s, (Return 1%Z, s))
          (sim_half_open_locked, 0%Q) = (Raise (CircuitOpenError "pay"), (r', 0%Q)).
Proof.
  destruct (redis_call_rejects (W := Q) id rb0 (λ s, (Return 1%Z, s))
    sim_half_open_locked 0%Q) as (r' & Hr & _).
  - apply init_keys_distinct.
  - right. split; [vm_compute; reflexivity | vm_compute; eauto].
  - exists r'. exact Hr.
Defined.

(** the success counter of a half-open circuit is the failure counter it was
    opened with: one successful probe of a circuit whose counter stands at [n]
    closes it as soon as [n + 1] reaches the success threshold, so a circuit
    opened by its failure threshold closes on the first success although more
    than one was configured. *)
Theorem one_success_closes {R W A} `{RedisSpec R} (wall : W → Q) rb n t a
    (func : PyM (R * W) A) (r : R) (w w' : W) :
  keys_ok rb →
  (0 < rb_half_open_probe_ttl_ms rb)%Z →
  failures rb r = Some n →
  (success_threshold (rb_policy rb) <= n + 1)%Z →
  redis_get (rb_key_state rb) r = Some (RStr "OPEN") →
  redis_get (rb_key_opened_at rb) r = Some (RFloat t) →
  redis_get (rb_key_probe_lock rb) r = None →
  (timeout_seconds (rb_policy rb) <= wall w - t)%Q →
  (∀ r1, func (r1, w) = (Return a, (r1, w'))) →
  ∃ r', RedisCircuitBreaker_call wall rb func (r, w) = (Return a, (r', w')) ∧
    redis_get (rb_key_state rb) r' = Some (RStr "CLOSED") ∧
    failures rb r' = Some 0%Z ∧
    redis_get (rb_key_probe_lock rb) r' = None.
Proof.
  intros Hk Httl Hf Hn Hst Hop Hlk Hle Hfunc.
  destruct (admit_half_open rb Hk (wall w) r t) as (r1 & Ha & Hst1 & _ & Hf1); try done.
  unfold RedisCircuitBreaker_call, try_except, try_base, mbind, PyM_bind, reads, on_fst; simpl.
  rewrite Ha, Hfunc; simpl. rewrite Hf in Hf1.
  pose proof (on_success_half_open rb Hk n r1 Hf1 Hst1) as Hs.
  destruct (rb_on_success rb r1) as [o r2]. destruct Hs as (-> & H1 & H2 & _ & H4).
  apply Z.leb_le in Hn. rewrite Hn in *. exists r2. by split_and!.
Qed.

Definition sim_open : SimRedis :=
  mkSim 100 {[ rb_key_state rb0 := (RStr "OPEN", None);
               rb_key_failures rb0 := (RInt 5, None);
               rb_key_opened_at rb0 := (RFloat 10, None) ]}.

Lemma one_success_closes_witness :
  success_threshold (rb_policy rb0) = 2%Z ∧
  ∃ r', RedisCircuitBreaker_call (W := Q) id rb0 (λ s, (Return 1%Z, s)) (sim_open, 100%Q) =
      (Return 1%Z, (r', 100%Q)) ∧
    redis_get (rb_key_state rb0) r' = Some (RStr "CLOSED").
Proof.
  split; [reflexivity|].
  destruct (one_success_closes (W := Q) id rb0 5 10 1%Z (λ s, (Return 1%Z, s))
    sim_open 100 100) as (r' & H1 & H2 & _);
    [apply init_keys_distinct
    | first [reflexivity | vm_compute; congruence].. |
     exists r'; by split].
Defined.
