(* ===== verification/Retry.v ===== *)
(** * Retries ([resilience/retry/])

    Backoff and jitter strategies, and the retry loop of [RetryPolicy].  Sleeping
    and drawing a random number act on the environment ([RetryEnv]); [ScriptWorld]
    is an environment that records every call and every sleep, in which the
    behaviour of the loop is stated. *)
From Stdlib Require Import Qpower.
From S2P Require Import Prelude Errors.

(** What the loop needs of its environment: [random.random()], [time.sleep]
    and [asyncio.sleep]. *)
Class RetryEnv (W : Type) := {
  env_random : PyM W Q;
  env_sleep : Q → PyM W unit;
}.

Definition OverflowError : pyexn :=
  exn_of ["OverflowError"; "ArithmeticError"] "int too large to convert to float".

(** ** Backoff strategies *)

(** A [BackoffStrategy] is its [compute] method. *)
Record BackoffStrategy := mkBackoff { compute : Z → outcome Q }.

Definition ConstantBackoff (delay : Q) : BackoffStrategy := mkBackoff (λ _, Return delay).

Definition LinearBackoff (base_delay max_delay : Q) : BackoffStrategy :=
  mkBackoff (λ attempt, Return (py_min (base_delay * inject_Z attempt) max_delay)).

(** [2 ** attempt] is an integer; multiplying a float by an integer of 1024 bits
    or more raises [OverflowError]. *)
Definition ExponentialBackoff (base_delay max_delay : Q) : BackoffStrategy :=
  mkBackoff (λ attempt,
    if (1024 <=? attempt)%Z then Raise OverflowError
    else Return (py_min (base_delay * (2 # 1) ^ attempt) max_delay)).

(** ** Jitter strategies *)

(** [random.uniform(a, b)]. *)
Definition uniform {W} `{RetryEnv W} (a b : Q) : PyM W Q :=
  u ← env_random;
  mret (a + (b - a) * u)%Q.

(** A [JitterStrategy] is its [apply] method. *)
Record JitterStrategy (W : Type) := mkJitter { apply : Q → PyM W Q }.
Arguments mkJitter {W} _.
Arguments apply {W} _.

Definition NoJitter {W} : JitterStrategy W := mkJitter (λ delay, mret delay).

Definition FullJitter {W} `{RetryEnv W} : JitterStrategy W :=
  mkJitter (λ delay, uniform 0 delay).

Definition EqualJitter {W} `{RetryEnv W} : JitterStrategy W :=
  mkJitter (λ delay,
    let half := (delay / 2)%Q in
    u ← uniform 0 half;
    mret (half + u)%Q).

(** ** The policy *)

Record RetryPolicy (W : Type) := mkRetryPolicy {
  max_attempts : Z;
  backoff : BackoffStrategy;
  jitter : JitterStrategy W;
  retryable_exceptions : list string;
}.
Arguments mkRetryPolicy {W} _ _ _ _.
Arguments max_attempts {W} _.
Arguments backoff {W} _.
Arguments jitter {W} _.
Arguments retryable_exceptions {W} _.

(** The constructor's defaults. *)
Definition RetryPolicy_init {W} `{RetryEnv W} (max_attempts : Z)
    (backoff : option BackoffStrategy) (jitter : option (JitterStrategy W))
    (retryable_exceptions : list string) : RetryPolicy W :=
  mkRetryPolicy max_attempts (default (ExponentialBackoff (1 # 10) 30) backoff)
    (default FullJitter jitter) retryable_exceptions.

(** [raise last_exc], where [last_exc] may still be [None]. *)
Definition raise_last {W A} (last_exc : option pyexn) : PyM W A :=
  match last_exc with
  | Some e => raise e
  | None => raise (TypeError "exceptions must derive from BaseException")
  end.

Section Policy.
Context {W A : Type} `{RetryEnv W} (p : RetryPolicy W).

Definition should_retry (exc : pyexn) : bool :=
  isinstance_any exc (retryable_exceptions p).

(** The [for attempt in range(1, max_attempts + 1)] loop; [n] attempts are left
    and the next one is number [attempt].  [sleep] is [time.sleep] or
    [asyncio.sleep]. *)
Fixpoint retry_loop (sleep : Q → PyM W unit) (func : PyM W A) (n : nat) (attempt : Z)
    (last_exc : option pyexn) : PyM W A :=
  match n with
  | O => raise_last last_exc
  | S n' =>
      try_except func (λ exc,
        if negb (should_retry exc) || (attempt =? max_attempts p)%Z then raise exc
        else
          base ← from_outcome (compute (backoff p) attempt);
          delay ← apply (jitter p) base;
          sleep delay ;;
          retry_loop sleep func n' (attempt + 1) (Some exc))
  end.

(** [time.sleep] refuses negative delays. *)
Definition time_sleep (delay : Q) : PyM W unit :=
  if Qltb delay 0 then raise (ValueError "sleep length must be non-negative")
  else env_sleep delay.

(** [asyncio.sleep] accepts any delay; one that is not positive only yields. *)
Definition asyncio_sleep (delay : Q) : PyM W unit :=
  if Qle_bool delay 0 then mret tt else env_sleep delay.

(** [RetryPolicy.execute]. *)
Definition RetryPolicy_execute (func : PyM W A) : PyM W A :=
  retry_loop time_sleep func (Z.to_nat (max_attempts p)) 1 None.

(** [RetryPolicy.execute_async]. *)
Definition RetryPolicy_execute_async (func : PyM W A) : PyM W A :=
  retry_loop asyncio_sleep func (Z.to_nat (max_attempts p)) 1 None.

(** [RetryExecutor.__call__]: the wrapped function, on any argument. *)
Definition RetryExecutor_call {X : Type} (func : X → PyM W A) : X → PyM W A :=
  λ args, RetryPolicy_execute_async (func args).

End Policy.

(** ** A recording environment

    The [i]-th call of the function (from 1) ends with [script i]; [sw_random] are
    the random numbers still to be drawn. *)
Record ScriptWorld := mkScript {
  sw_calls : nat;
  sw_random : nat → Q;
  sw_sleeps : list Q;
}.

#[export] Instance ScriptEnv : RetryEnv ScriptWorld := {
  env_random := λ w,
    (Return (sw_random w 0),
      mkScript (sw_calls w) (λ i, sw_random w (S i)) (sw_sleeps w));
  env_sleep := λ d w, (Return tt, mkScript (sw_calls w) (sw_random w) (sw_sleeps w ++ [d]));
}.

Definition scripted {A : Type} (script : nat → outcome A) : PyM ScriptWorld A := λ w,
  (script (S (sw_calls w)), mkScript (S (sw_calls w)) (sw_random w) (sw_sleeps w)).

(** Random numbers are in [0, 1). *)
Definition draws_ok (w : ScriptWorld) : Prop := ∀ i, (0 <= sw_random w i < 1)%Q.

(** The jitter returns a delay between [lo d] and [d] and touches only the random
    numbers. *)
Definition jitter_within (lo : Q → Q) (j : JitterStrategy ScriptWorld) : Prop :=
  ∀ d w, (0 <= d)%Q → draws_ok w →
    ∃ x w', apply j d w = (Return x, w') ∧ (lo d <= x <= d)%Q ∧ draws_ok w' ∧
      sw_calls w' = sw_calls w ∧ sw_sleeps w' = sw_sleeps w.

(** The outcome that ends the retries. *)
Definition final_outcome {A} (p : RetryPolicy ScriptWorld) (o : outcome A) : bool :=
  match o with
  | Return _ => true
  | Raise e => negb (is_Exception e && should_retry p e)
  end.

(** ** Lemmas *)

Lemma jitter_none_within : jitter_within id NoJitter.
Proof. intros d w Hd Hw. exists d, w. split_and!; try done; unfold id; lra. Qed.

Lemma jitter_full_within : jitter_within (λ _, 0%Q) FullJitter.
Proof.
  intros d w Hd Hw. pose proof (Hw 0%nat) as Hu.
  eexists _, _. split; [reflexivity|]. split_and!; try done; [nra | nra |].
  intros i. apply Hw.
Qed.

Lemma jitter_equal_within : jitter_within (λ d, (d / 2)%Q) EqualJitter.
Proof.
  intros d w Hd Hw. pose proof (Hw 0%nat) as Hu.
  eexists _, _. split; [cbv [EqualJitter uniform apply mbind mret PyM_bind PyM_ret
    env_random ScriptEnv]; reflexivity|]. assert (d / 2 == (1 # 2) * d)%Q as Hh by field.
  simpl. rewrite Hh. split_and!; try done; [nra | nra |].
  intros i. apply Hw.
Qed.

(** A sleep that records at most one entry, the given delay. *)
Definition sleep_ok (sleep : Q → PyM ScriptWorld unit) : Prop :=
  ∀ d w, (0 <= d)%Q →
    ∃ l, sleep d w = (Return tt, mkScript (sw_calls w) (sw_random w) (sw_sleeps w ++ l)) ∧
      (l = [] ∨ l = [d]).

Lemma time_sleep_ok : sleep_ok time_sleep.
Proof.
  intros d w Hd. exists [d]. split; [|by right]. unfold time_sleep.
  destruct (Qltb d 0) eqn:E; reflect_tests; [lra | done].
Qed.

Lemma asyncio_sleep_ok : sleep_ok asyncio_sleep.
Proof.
  intros d w Hd. unfold asyncio_sleep. destruct (Qle_bool d 0) eqn:E.
  - exists []. split; [|by left]. rewrite app_nil_r. by destruct w.
  - exists [d]. split; [done | by right].
Qed.

Section LoopSpec.
Context {A : Type} (p : RetryPolicy ScriptWorld) (script : nat → outcome A).
Context (lo : Q → Q) (D : Q).
Context (Hjitter : jitter_within lo (jitter p)) (Hlo : ∀ d, (0 <= d)%Q → (0 <= lo d)%Q).
Context (Hbackoff : ∀ i, (1 <= i < max_attempts p)%Z →
  ∃ d, compute (backoff p) i = Return d ∧ (0 <= d <= D)%Q).
Context (sleep : Q → PyM ScriptWorld unit) (Hsleep : sleep_ok sleep).

Lemma retry_loop_spec n c (w : ScriptWorld) last :
  draws_ok w → sw_calls w = c →
  (Z.of_nat c + Z.of_nat (S n) = max_attempts p)%Z →
  ∃ k w' l,
    retry_loop p sleep (scripted script) (S n) (Z.of_nat c + 1) last w = (script k, w') ∧
    (c < k <= c + S n)%nat ∧
    (∀ i, (c < i < k)%nat → final_outcome p (script i) = false) ∧
    (final_outcome p (script k) = true ∨ k = (c + S n)%nat) ∧
    sw_calls w' = k ∧ sw_sleeps w' = sw_sleeps w ++ l ∧
    (length l <= k - S c)%nat ∧ Forall (λ d, (0 <= d <= D)%Q) l.
Proof.
  revert c w last. induction n as [|n IH]; intros c w last Hw Hc Hmax.
  - exists (S c), (mkScript (S c) (sw_random w) (sw_sleeps w)), [].
    simpl retry_loop. unfold try_except, try_base, scripted. rewrite Hc.
    split_and!; try (simpl; intros; lia); try done; try (by rewrite app_nil_r); [].
    destruct (script (S c)) as [a|e]; [done|]. destruct (is_Exception e); [|done].
    replace (Z.of_nat c + 1 =? max_attempts p)%Z with true by (symmetry; apply Z.eqb_eq; lia).
    by rewrite orb_true_r.
  - remember (S n) as n1 eqn:Hn1. simpl retry_loop. subst n1.
    unfold try_except, try_base, scripted at 1. rewrite Hc.
    destruct (final_outcome p (script (S c))) eqn:Hfin.
    { exists (S c), (mkScript (S c) (sw_random w) (sw_sleeps w)), [].
      split_and!; try (simpl; intros; lia); try done; try (by rewrite app_nil_r); try (by left); [].
      unfold final_outcome in Hfin. destruct (script (S c)) as [a|e]; [done|].
      destruct (is_Exception e); [|done]. simpl in Hfin. by rewrite Hfin. }
    unfold final_outcome in Hfin. destruct (script (S c)) as [a|e] eqn:Hs; [done|].
    apply negb_false_iff, andb_true_iff in Hfin as [He Hr]. rewrite He, Hr; simpl negb.
    replace (Z.of_nat c + 1 =? max_attempts p)%Z with false by (symmetry; apply Z.eqb_neq; lia).
    destruct (Hbackoff (Z.of_nat c + 1)) as (d & Hd & Hd01); [lia|].
    set (w1 := mkScript (S c) (sw_random w) (sw_sleeps w)).
    destruct (Hjitter d w1) as (x & w2 & Hx & Hxd & Hw2 & Hc2 & Hsl2); [lra | done |].
    destruct (Hsleep x w2) as (l2 & Hsleep2 & Hl2); [specialize (Hlo d); lra|].
    change (negb true || false) with false. unfold mbind, PyM_bind, from_outcome. rewrite Hd.
    cbv iota beta. fold w1. rewrite Hx. cbv iota beta. rewrite Hsleep2. cbv iota beta.
    replace (Z.of_nat c + 1 + 1)%Z with (Z.of_nat (S c) + 1)%Z by lia.
    edestruct (IH (S c) (mkScript (sw_calls w2) (sw_random w2) (sw_sleeps w2 ++ l2)) (Some e))
      as (k & w' & l & Hrun & Hk & Hbefore & Hstop & Hcalls & Hsl & Hlen & Hall);
      [done | simpl; by rewrite Hc2 | lia |].
    exists k, w', (l2 ++ l). split; [exact Hrun|]. split_and!; try lia; try done.
    + intros i Hi. destruct (decide (i = S c)) as [->|]; [|apply Hbefore; lia].
      rewrite Hs. simpl. by rewrite He, Hr.
    + destruct Hstop; [by left | right; lia].
    + rewrite Hsl; simpl. by rewrite Hsl2, app_assoc.
    + rewrite length_app. destruct Hl2 as [-> | ->]; simpl; lia.
    + apply Forall_app; split; [|done]. specialize (Hlo d).
      destruct Hl2 as [-> | ->]; repeat constructor; lra.
Qed.

End LoopSpec.

(** ** Properties *)

(** C6: the retry loop is correct and bounded.  For a policy with at least one
    attempt, a jitter that stays below its argument and a backoff between 0 and
    [D], both [execute] and [execute_async] call the function exactly [k] times,
    where [k] is the first attempt that returns, raises a non-[Exception] or raises
    an exception that is not retryable, or [max_attempts] if there is none; the
    outcome is that of the [k]-th call, and there are at most [k - 1] sleeps, each
    between 0 and [D]. *)
Theorem execute_retries {A} (p : RetryPolicy ScriptWorld) (script : nat → outcome A) lo D w :
  jitter_within lo (jitter p) →
  (∀ d, (0 <= d)%Q → (0 <= lo d)%Q) →
  (∀ i, (1 <= i < max_attempts p)%Z →
     ∃ d, compute (backoff p) i = Return d ∧ (0 <= d <= D)%Q) →
  (1 <= max_attempts p)%Z →
  draws_ok w → sw_calls w = 0%nat →
  Forall (λ exec : PyM ScriptWorld A → PyM ScriptWorld A,
    ∃ k w' l,
      exec (scripted script) w = (script k, w') ∧
      (1 <= Z.of_nat k <= max_attempts p)%Z ∧
      (∀ i, (0 < i < k)%nat → final_outcome p (script i) = false) ∧
      (final_outcome p (script k) = true ∨ Z.of_nat k = max_attempts p) ∧
      sw_calls w' = k ∧ sw_sleeps w' = sw_sleeps w ++ l ∧
      (length l <= k - 1)%nat ∧ Forall (λ d, (0 <= d <= D)%Q) l)
    [RetryPolicy_execute p; RetryPolicy_execute_async p].
Proof.
  intros Hj Hlo Hb Hmax Hw Hc.
  assert (∃ n, Z.to_nat (max_attempts p) = S n) as [n Hn] by
    (exists (pred (Z.to_nat (max_attempts p))); lia).
  repeat constructor; unfold RetryPolicy_execute, RetryPolicy_execute_async; rewrite Hn.
  - destruct (retry_loop_spec p script lo D Hj Hlo Hb time_sleep time_sleep_ok n 0 w None)
      as (k & w' & l & Hrun & Hk & Hbefore & Hstop & Hrest); [done | done | lia |].
    exists k, w', l. split_and!; try apply Hrest; try done; try lia.
    destruct Hstop; [by left | right; lia].
  - destruct (retry_loop_spec p script lo D Hj Hlo Hb asyncio_sleep asyncio_sleep_ok n 0 w None)
      as (k & w' & l & Hrun & Hk & Hbefore & Hstop & Hrest); [done | done | lia |].
    exists k, w', l. split_and!; try apply Hrest; try done; try lia.
    destruct Hstop; [by left | right; lia].
Qed.

Definition retry_policy0 : RetryPolicy ScriptWorld :=
  RetryPolicy_init 3 (Some (ConstantBackoff 1)) None ["Exception"].
Definition retry_script0 (i : nat) : outcome Z :=
  if (i <? 3)%nat then Raise (ValueError "x") else Return 7%Z.
Definition retry_world0 : ScriptWorld := mkScript 0 (λ _, 1 # 2) [].

Lemma execute_retries_witness :
  ∃ k w', RetryPolicy_execute retry_policy0 (scripted retry_script0) retry_world0 =
      (retry_script0 k, w') ∧ (1 <= Z.of_nat k <= 3)%Z ∧ sw_calls w' = k.
Proof.
  unshelve epose proof (execute_retries retry_policy0 retry_script0 (λ _, 0%Q) 1
    retry_world0 _ _ _ _ _ _) as Hall.
  - apply jitter_full_within.
  - intros d _. apply Qle_refl.
  - intros i _. exists 1. split; [reflexivity | lra].
  - simpl; lia.
  - intros i. simpl. split; [discriminate | reflexivity].
  - reflexivity.
  - apply Forall_cons in Hall as [(k & w' & l & Hrun & Hk & _ & _ & Hc & _) _].
    exists k, w'. split_and!; [exact Hrun | apply Hk | apply Hk | exact Hc].
Defined.

(** the delays a policy can sleep for.  The exponential and linear backoffs
    never exceed their cap and grow with the attempt number, and the three jitters
    keep a delay [d] inside [d, d], [0, d] and [d/2, d]. *)
Theorem delays_bounded base cap i j :
  (0 <= base)%Q → (0 <= cap)%Q → (0 <= i <= j)%Z → (j < 1024)%Z →
  (∃ di dj, compute (ExponentialBackoff base cap) i = Return di ∧
     compute (ExponentialBackoff base cap) j = Return dj ∧ (0 <= di <= dj)%Q ∧ (dj <= cap)%Q) ∧
  (∃ di dj, compute (LinearBackoff base cap) i = Return di ∧
     compute (LinearBackoff base cap) j = Return dj ∧ (0 <= di <= dj)%Q ∧ (dj <= cap)%Q) ∧
  jitter_within id NoJitter ∧ jitter_within (λ _, 0%Q) FullJitter ∧
  jitter_within (λ d, (d / 2)%Q) EqualJitter.
Proof.
  intros Hb Hc Hij Hj.
  assert (0 <= (2 # 1) ^ i <= (2 # 1) ^ j)%Q as Hpow.
  { split; [by apply Qpower_0_le|]. apply Qpower_le_compat_l; [lia | done]. }
  assert (0 <= inject_Z i <= inject_Z j)%Q as Hinj.
  { change 0%Q with (inject_Z 0). rewrite <- !Zle_Qle. lia. }
  split_and!; [| | apply jitter_none_within | apply jitter_full_within
              | apply jitter_equal_within].
  - simpl. destruct (1024 <=? i)%Z eqn:E1, (1024 <=? j)%Z eqn:E2; reflect_tests; try lia.
    destruct (py_min_mono (base * (2 # 1) ^ i) (base * (2 # 1) ^ j) cap) as (? & ? & ?);
      [split; nra | done | eauto 10].
  - destruct (py_min_mono (base * inject_Z i) (base * inject_Z j) cap) as (? & ? & ?);
      [split; nra | done | simpl; eauto 10].
Qed.

Lemma delays_bounded_witness :
  ∃ di dj, compute (ExponentialBackoff (1 # 10) 30) 2 = Return di ∧
    compute (ExponentialBackoff (1 # 10) 30) 20 = Return dj ∧ (0 <= di <= dj)%Q ∧ (dj <= 30)%Q.
Proof.
  apply (delays_bounded (1 # 10) 30 2 20); [discriminate | discriminate | lia | lia].
Defined.
