(* ===== verification/LruCache.v ===== *)
(** * The LRU cache with TTL ([application/cache/lru.py])

    Every operation of [AsyncLRUCache] runs under its lock without awaiting, so it
    is one transformer of the cache.  The backing [OrderedDict] goes from least to
    most recently used.  Python values are [option V]: [None] is Python's [None],
    which [get] cannot tell from a miss. *)
From S2P Require Import Prelude OrderedDict.

Record AsyncLRUCache (K V : Type) := mkLru {
  lru_maxsize : Z;
  lru_ttl : option Q;
  lru_store : list (K * (option V * option Q));
  lru_hits : Z;
  lru_misses : Z;
}.
Arguments mkLru {K V} _ _ _ _ _.
Arguments lru_maxsize {K V} _.
Arguments lru_ttl {K V} _.
Arguments lru_store {K V} _.
Arguments lru_hits {K V} _.
Arguments lru_misses {K V} _.

Section Lru.
Context {K V : Type} `{EqDecision K}.
Implicit Types (c : AsyncLRUCache K V).

Definition AsyncLRUCache_init (maxsize : Z) (ttl : option Q) : outcome (AsyncLRUCache K V) :=
  if (maxsize <? 1)%Z then Raise (ValueError "maxsize must be >= 1")
  else Return (mkLru maxsize ttl [] 0 0).

Definition with_store c (st : list (K * (option V * option Q))) : AsyncLRUCache K V :=
  mkLru (lru_maxsize c) (lru_ttl c) st (lru_hits c) (lru_misses c).

(** [get]; [now] is [time.monotonic()]. *)
Definition AsyncLRUCache_get (now : Q) (key : K) c : option V * AsyncLRUCache K V :=
  match od_get key (lru_store c) with
  | None =>
      (None, mkLru (lru_maxsize c) (lru_ttl c) (lru_store c) (lru_hits c) (lru_misses c + 1))
  | Some (value, expires_at) =>
      if match expires_at with Some t => Qltb t now | None => false end then
        (None, mkLru (lru_maxsize c) (lru_ttl c) (od_del key (lru_store c))
                 (lru_hits c) (lru_misses c + 1))
      else
        (value, mkLru (lru_maxsize c) (lru_ttl c) (od_move_to_end key (lru_store c))
                  (lru_hits c + 1) (lru_misses c))
  end.

(** [set]; [now] is [time.monotonic()]. *)
Definition AsyncLRUCache_set (now : Q) (key : K) (value : option V) (ttl : option Q) c
    : AsyncLRUCache K V :=
  let effective_ttl := match ttl with Some t => Some t | None => lru_ttl c end in
  let expires_at := match effective_ttl with Some t => Some (now + t)%Q | None => None end in
  let st1 := if od_mem key (lru_store c) then od_move_to_end key (lru_store c)
             else lru_store c in
  let st2 := od_set key (value, expires_at) st1 in
  let st3 := if (lru_maxsize c <? Z.of_nat (length st2))%Z then tail st2 else st2 in
  with_store c st3.

Definition AsyncLRUCache_delete (key : K) c : bool * AsyncLRUCache K V :=
  if od_mem key (lru_store c) then (true, with_store c (od_del key (lru_store c)))
  else (false, c).

Definition AsyncLRUCache_clear c : AsyncLRUCache K V := with_store c [].

Definition AsyncLRUCache_size c : Z := Z.of_nat (length (lru_store c)).

Definition AsyncLRUCache_hit_rate c : Q :=
  let total := (lru_hits c + lru_misses c)%Z in
  if (0 <? total)%Z then (inject_Z (lru_hits c) / inject_Z total)%Q else 0.

(** [get_or_load]: the loader runs outside the lock and may act on the cache
    through other tasks; [monotonic] reads the clock. *)
Definition AsyncLRUCache_get_or_load {W : Type} (monotonic : W → Q) (key : K)
    (loader : PyM (AsyncLRUCache K V * W) (option V)) (ttl : option Q)
    : PyM (AsyncLRUCache K V * W) (option V) := λ '(c, w),
  let '(cached, c1) := AsyncLRUCache_get (monotonic w) key c in
  match cached with
  | Some v => (Return (Some v), (c1, w))
  | None =>
      match loader (c1, w) with
      | (Raise e, s) => (Raise e, s)
      | (Return result, (c2, w2)) =>
          (Return result, (AsyncLRUCache_set (monotonic w2) key result ttl c2, w2))
      end
  end.

(** ** Operations as data *)

Inductive lru_op :=
| OpGet (now : Q) (k : K)
| OpSet (now : Q) (k : K) (v : option V) (ttl : option Q)
| OpDelete (k : K)
| OpClear.

Definition lru_step c (op : lru_op) : AsyncLRUCache K V :=
  match op with
  | OpGet now k => snd (AsyncLRUCache_get now k c)
  | OpSet now k v ttl => AsyncLRUCache_set now k v ttl c
  | OpDelete k => snd (AsyncLRUCache_delete k c)
  | OpClear => AsyncLRUCache_clear c
  end.

Definition is_get (op : lru_op) : bool := match op with OpGet _ _ => true | _ => false end.

(** ** Invariant *)

Definition lru_wf c : Prop :=
  (1 <= lru_maxsize c)%Z ∧ NoDup (lru_store c).*1 ∧
  (Z.of_nat (length (lru_store c)) <= lru_maxsize c)%Z.

(** The keys after the insertion part of [set], before eviction. *)
Lemma lru_insert_keys (st : list (K * (option V * option Q))) k e :
  (od_set k e (if od_mem k st then od_move_to_end k st else st)).*1 =
    filter (λ x, x ≠ k) st.*1 ++ [k].
Proof.
  unfold od_mem. case_bool_decide as Hk.
  - rewrite od_set_move by done. by rewrite fmap_app, od_del_keys.
  - rewrite od_set_keys_new, fmap_app by done. by rewrite filter_ne_notin.
Qed.

(** The keys after [set]. *)
Lemma lru_set_keys now k v ttl c :
  (lru_store (AsyncLRUCache_set now k v ttl c)).*1 =
    let l := filter (λ x, x ≠ k) (lru_store c).*1 ++ [k] in
    if (lru_maxsize c <? Z.of_nat (length l))%Z then tail l else l.
Proof.
  unfold AsyncLRUCache_set; simpl.
  rewrite (length_keys (od_set _ _ _)), lru_insert_keys.
  destruct (_ <? _)%Z; [rewrite fmap_tail|]; by rewrite lru_insert_keys.
Qed.

Lemma lru_set_wf now k v ttl c : lru_wf c → lru_wf (AsyncLRUCache_set now k v ttl c).
Proof.
  intros (Hm & Hnd & Hlen). pose proof (lru_set_keys now k v ttl c) as Hk. cbv zeta in Hk.
  assert (lru_maxsize (AsyncLRUCache_set now k v ttl c) = lru_maxsize c) as Hmax by done.
  unfold lru_wf. rewrite Hmax, (length_keys (lru_store _)), Hk.
  pose proof (NoDup_filter_ne_app k _ Hnd) as Hnd'.
  pose proof (length_filter (λ x, x ≠ k) (lru_store c).*1) as Hle.
  rewrite length_fmap in Hle.
  set (l := filter (λ x, x ≠ k) (lru_store c).*1 ++ [k]) in *.
  assert (length l <= S (length (lru_store c)))%nat by
    (unfold l; rewrite length_app; simpl; lia).
  destruct (_ <? _)%Z eqn:E; reflect_tests; split_and!; try done; try lia.
  - by apply NoDup_tail.
  - destruct l; simpl in *; lia.
Qed.

Lemma lru_get_wf now k c : lru_wf c → lru_wf (snd (AsyncLRUCache_get now k c)).
Proof.
  intros (Hm & Hnd & Hlen). unfold AsyncLRUCache_get.
  destruct (od_get k (lru_store c)) as [[v ex]|] eqn:Hget; [|done].
  assert (k ∈ (lru_store c).*1) as Hk by (apply od_get_is_Some; by rewrite Hget).
  split_test; unfold lru_wf; simpl; rewrite (length_keys (_ k _)).
  - rewrite od_del_keys. split_and!; [done | by apply NoDup_filter |].
    pose proof (length_filter (λ x, x ≠ k) (lru_store c).*1). rewrite length_fmap in *. lia.
  - rewrite od_move_keys by done. split_and!; [done | by apply NoDup_filter_ne_app |].
    pose proof (length_filter_ne k _ Hnd Hk). rewrite length_app, length_fmap in *.
    simpl. lia.
Qed.

Lemma lru_delete_wf k c : lru_wf c → lru_wf (snd (AsyncLRUCache_delete k c)).
Proof.
  intros Hwf. unfold AsyncLRUCache_delete. destruct (od_mem _ _); [|done].
  destruct Hwf as (Hm & Hnd & Hlen). unfold lru_wf; simpl.
  rewrite (length_keys (od_del _ _)), od_del_keys. split_and!; [done | by apply NoDup_filter |].
  pose proof (length_filter (λ x, x ≠ k) (lru_store c).*1). rewrite length_fmap in *. lia.
Qed.

Lemma lru_step_wf c op : lru_wf c → lru_wf (lru_step c op).
Proof.
  destruct op; simpl; [apply lru_get_wf | apply lru_set_wf | apply lru_delete_wf |].
  intros (Hm & _ & _). split_and!; simpl; [done | apply NoDup_nil_2 | lia].
Qed.

Lemma lru_init_wf maxsize ttl c : AsyncLRUCache_init maxsize ttl = Return c → lru_wf c.
Proof.
  unfold AsyncLRUCache_init. split_test; [done|]. intros [= <-].
  split_and!; simpl; [lia | apply NoDup_nil_2 | lia].
Qed.

Lemma lru_run_wf c ops : lru_wf c → lru_wf (foldl lru_step c ops).
Proof. revert c. induction ops as [|op ops IH]; intros c Hc; [done|]. by apply IH, lru_step_wf. Qed.

Lemma lru_run_maxsize c ops : lru_maxsize (foldl lru_step c ops) = lru_maxsize c.
Proof.
  revert c. induction ops as [|op ops IH]; intros c; [done|]. simpl. rewrite IH.
  destruct op; simpl; try done.
  - unfold AsyncLRUCache_get. destruct (od_get k (lru_store c)) as [[v ex]|]; [|done].
    by destruct (match ex with Some t => Qltb t now | None => false end).
  - unfold AsyncLRUCache_delete. by destruct (od_mem _ _).
Qed.

(** Hits and misses count the lookups. *)
Lemma lru_run_counts c ops :
  let c' := foldl lru_step c ops in
  (lru_hits c' + lru_misses c' =
   lru_hits c + lru_misses c + Z.of_nat (length (filter is_get ops)))%Z.
Proof.
  revert c. induction ops as [|op ops IH]; intros c; simpl; [lia|].
  rewrite filter_cons. simpl in IH. rewrite IH. destruct op; simpl.
  - unfold AsyncLRUCache_get.
    destruct (od_get k (lru_store c)) as [[v ex]|]; [|simpl; lia].
    destruct (match ex with Some t => Qltb t now | None => false end); simpl; lia.
  - done.
  - unfold AsyncLRUCache_delete.
    destruct (od_mem _ _); done.
  - done.
Qed.

End Lru.
Arguments lru_op : clear implicits.

(** ** Abstract specification

    The specification remembers every key ever touched, least recent first and
    without bound; the cache must hold exactly the last [n] of them. *)
Section Recency.
Context {K V : Type} `{EqDecision K}.
Implicit Types (c : AsyncLRUCache K V) (R : list K).

Definition touch (k : K) R : list K := filter (λ x, x ≠ k) R ++ [k].

(** The last [n] elements. *)
Definition lastn (n : nat) R : list K := drop (length R - n) R.

Definition recency_step (n : nat) R (op : lru_op K V) : list K :=
  match op with
  | OpSet _ k _ _ => touch k R
  | OpGet _ k => if decide (k ∈ lastn n R) then touch k R else R
  | OpDelete _ | OpClear => R
  end.

(** Lookups and stores without a TTL. *)
Definition no_ttl_op (op : lru_op K V) : bool :=
  match op with
  | OpGet _ _ => true
  | OpSet _ _ _ ttl => match ttl with None => true | Some _ => false end
  | OpDelete _ | OpClear => false
  end.

(** The cache holds a suffix of the recency list, and all of it unless it is full. *)
Definition simulates (n : nat) R c : Prop :=
  lru_maxsize c = Z.of_nat n ∧ lru_ttl c = None ∧
  Forall (λ e, snd (snd e) = None) (lru_store c) ∧
  ∃ P, R = P ++ (lru_store c).*1 ∧ NoDup R ∧
    (P = [] ∨ length (lru_store c) = n) ∧ (length (lru_store c) <= n)%nat.

Lemma simulates_lastn n R c : simulates n R c → lastn n R = (lru_store c).*1.
Proof.
  intros (_ & _ & _ & P & -> & _ & HP & Hle). unfold lastn.
  rewrite length_app, <- (length_keys (lru_store c)). destruct HP as [-> | HP].
  - by replace (_ - n)%nat with 0%nat by (simpl; lia).
  - replace (_ - n)%nat with (length P) by lia. by rewrite drop_app_length.
Qed.

Lemma touch_in k P R :
  NoDup (P ++ R) → k ∈ R → touch k (P ++ R) = P ++ touch k R.
Proof.
  intros Hnd Hk. unfold touch. rewrite filter_app, app_assoc. f_equal. f_equal.
  apply filter_ne_notin. apply NoDup_app in Hnd as (_ & Hd & _). intros HP. by apply (Hd k).
Qed.

Lemma no_expiry_del k (d : list (K * (option V * option Q))) :
  Forall (λ e, snd (snd e) = None) d → Forall (λ e, snd (snd e) = None) (od_del k d).
Proof.
  intros Hd. apply Forall_forall. intros e [_ He]%list_elem_of_filter.
  rewrite Forall_forall in Hd. by apply Hd.
Qed.

Lemma simulates_set n R c now k v :
  (1 <= n)%nat → simulates n R c → simulates n (touch k R) (AsyncLRUCache_set now k v None c).
Proof.
  intros Hn (Hm & Ht & Hall & P & HR & Hnd & HP & Hle).
  pose proof (lru_set_keys now k v None c) as Hkeys. cbv zeta in Hkeys.
  assert (Forall (λ e, snd (snd e) = None)
            (lru_store (AsyncLRUCache_set now k v None c))) as Hall'.
  { clear Hkeys. unfold AsyncLRUCache_set. rewrite Ht; simpl. unfold od_mem.
    assert (Forall (λ e : K * (option V * option Q), snd (snd e) = None)
      (od_set k (v, None) (if bool_decide (k ∈ (lru_store c).*1)
         then od_move_to_end k (lru_store c) else lru_store c))) as Hst.
    { case_bool_decide as Hk.
      - rewrite od_set_move by done. apply Forall_app; split; [by apply no_expiry_del | by constructor].
      - rewrite od_set_keys_new by done. apply Forall_app; split; [done | by constructor]. }
    destruct (_ <? _)%Z; [apply Forall_tail|]; exact Hst. }
  split_and!; [done | done | done |]. rewrite (length_keys (lru_store (AsyncLRUCache_set _ _ _ _ _))).
  rewrite Hkeys, Hm. clear Hkeys. rewrite (length_keys (lru_store c)) in HP, Hle.
  set (C := (lru_store c).*1) in *. subst R.
  assert (NoDup (touch k (P ++ C))) as Hnd' by by apply NoDup_filter_ne_app.
  destruct (decide (k ∈ C)) as [Hk|Hk].
  - pose proof (touch_in k P C Hnd Hk) as Ht'. rewrite Ht' in *. unfold touch in *.
    apply NoDup_app in Hnd as (_ & _ & HndC). pose proof (length_filter_ne k C HndC Hk) as Hl.
    exists P. assert (length (filter (λ x, x ≠ k) C ++ [k]) = length C) as Hlen
      by (rewrite length_app; simpl; lia).
    destruct (_ <? _)%Z eqn:E; reflect_tests; [lia|]. rewrite Hlen.
    split_and!; [done | done | | lia]. destruct HP as [-> | HP]; [by left | right; lia].
  - rewrite (filter_ne_notin k C) by done. unfold touch in *. rewrite filter_app in *.
    rewrite (filter_ne_notin k C) in * by done.
    assert (length (C ++ [k]) = S (length C)) as Hlen by (rewrite length_app; simpl; lia).
    destruct (_ <? _)%Z eqn:E; reflect_tests.
    + destruct C as [|x C]; [simpl in *; lia|]. exists (filter (λ y, y ≠ k) P ++ [x]).
      simpl in *. rewrite length_app; simpl.
      split_and!; [by rewrite <- !app_assoc | done | right; lia | lia].
    + destruct HP as [-> | HP]; [|lia]. exists []. rewrite Hlen.
      split_and!; [done | done | by left | lia].
Qed.

Lemma no_expiry_move k (d : list (K * (option V * option Q))) :
  Forall (λ e, snd (snd e) = None) d → Forall (λ e, snd (snd e) = None) (od_move_to_end k d).
Proof.
  intros Hd. unfold od_move_to_end. destruct (od_get k d) as [v|] eqn:E; [|done].
  apply Forall_app; split; [by apply no_expiry_del|]. constructor; [|done].
  apply od_get_elem in E. rewrite Forall_forall in Hd. by apply (Hd (k, v)).
Qed.

Lemma simulates_get n R c now k :
  simulates n R c →
  simulates n (if decide (k ∈ lastn n R) then touch k R else R)
    (snd (AsyncLRUCache_get now k c)).
Proof.
  intros Hsim. rewrite (simulates_lastn n R c) by done.
  destruct Hsim as (Hm & Ht & Hall & P & HR & Hnd & HP & Hle). unfold AsyncLRUCache_get.
  case_decide as Hk.
  - destruct (proj2 (od_get_is_Some k _) Hk) as [[v ex] Hget]. rewrite Hget.
    assert (ex = None) as ->.
    { apply od_get_elem in Hget. rewrite Forall_forall in Hall. by apply (Hall _ Hget). }
    split_and!; simpl; [done | done | by apply no_expiry_move |].
    rewrite (length_keys (od_move_to_end _ _)), od_move_keys by done. subst R.
    rewrite touch_in by done. exists P. split_and!; [done | | |].
    + rewrite <- touch_in by done. by apply NoDup_filter_ne_app.
    + apply NoDup_app in Hnd as (_ & _ & HndC). pose proof (length_filter_ne k _ HndC Hk) as Hl.
      rewrite length_app. rewrite length_fmap in Hl. simpl. destruct HP; [by left | right; lia].
    + apply NoDup_app in Hnd as (_ & _ & HndC). pose proof (length_filter_ne k _ HndC Hk) as Hl.
      rewrite length_app. rewrite length_fmap in Hl. simpl. lia.
  - rewrite (proj2 (od_get_None k _) Hk). split_and!; simpl; [done | done | done |]. by exists P.
Qed.

Lemma simulates_run n ops R c :
  (1 <= n)%nat → Forall no_ttl_op ops → simulates n R c →
  simulates n (foldl (recency_step n) R ops) (foldl lru_step c ops).
Proof.
  intros Hn Hops. revert R c. induction Hops as [|op ops Hop _ IH]; intros R c Hsim; [done|].
  simpl. apply IH. destruct op as [now k|now k v [t|]|k|]; simpl in *; try done.
  - by apply simulates_get.
  - by apply simulates_set.
Qed.

End Recency.

(** ** Expiry *)
Section Expiry.
Context {K V : Type} `{EqDecision K}.
Implicit Types (c : AsyncLRUCache K V).

(** Lookups at the given times. *)
Definition lookups (gs : list (Q * K)) c : AsyncLRUCache K V :=
  foldl (λ c g, snd (AsyncLRUCache_get (fst g) (snd g) c)) c gs.

Lemma lru_set_lookup now k v ttl c :
  lru_wf c →
  let T := match ttl with Some t => Some t | None => lru_ttl c end in
  od_get k (lru_store (AsyncLRUCache_set now k v ttl c)) =
    Some (v, match T with Some t => Some (now + t)%Q | None => None end).
Proof.
  intros (Hm & Hnd & Hlen) T.
  assert (∀ e, od_set k e (if od_mem k (lru_store c) then od_move_to_end k (lru_store c)
      else lru_store c) = od_del k (lru_store c) ++ [(k, e)]) as Hset.
  { intros e. unfold od_mem. case_bool_decide as Hk; [by apply od_set_move|].
    rewrite od_set_keys_new by done. f_equal. unfold od_del. symmetry.
    induction (lru_store c) as [|[k0 v0] d IH]; [done|]. rewrite filter_cons.
    simpl in *. rewrite not_elem_of_cons in Hk. apply NoDup_cons in Hnd as [_ Hnd].
    rewrite decide_True by naive_solver. f_equal. apply IH; [done | lia | tauto]. }
  unfold AsyncLRUCache_set; simpl. rewrite Hset. fold T.
  assert (length (od_del k (lru_store c)) <= length (lru_store c))%nat as Hdel
    by apply length_filter.
  destruct (_ <? _)%Z eqn:E; reflect_tests.
  - destruct (od_del k (lru_store c)) as [|e d] eqn:Hd; [simpl in *; lia|].
    simpl. assert (od_get k d = None) as Hn.
    { pose proof (od_get_del_eq k (lru_store c)) as Hg. rewrite Hd in Hg.
      simpl in Hg. destruct e as [k0 v0]. by case_decide. }
    rewrite od_get_app, Hn. simpl. by rewrite decide_True.
  - rewrite od_get_app, od_get_del_eq; simpl. by rewrite decide_True.
Qed.

Lemma lru_get_other_lookup now k k' c :
  k ≠ k' → od_get k (lru_store (snd (AsyncLRUCache_get now k' c))) = od_get k (lru_store c).
Proof.
  intros Hne. unfold AsyncLRUCache_get.
  destruct (od_get k' (lru_store c)) as [[v ex]|]; [|done].
  split_test; simpl; [by rewrite od_get_del_ne | by rewrite od_get_move].
Qed.

(** A lookup leaves an entry as it is or, once it has expired, removes it. *)
Lemma lookups_entry gs k v ex c :
  od_get k (lru_store c) = Some (v, Some ex) →
  od_get k (lru_store (lookups gs c)) =
    if forallb (λ g, negb (bool_decide (snd g = k) && Qltb ex (fst g))) gs
    then Some (v, Some ex) else None.
Proof.
  intros Hget. unfold lookups.
  assert (∀ gs' c', od_get k (lru_store c') = None →
    od_get k (lru_store (foldl (λ c g, snd (AsyncLRUCache_get (fst g) (snd g) c)) c' gs')) = None)
    as Hnone.
  { induction gs' as [|[t k'] gs' IH]; intros c' Hc'; simpl; [done|]. apply IH.
    destruct (decide (k = k')) as [<-|]; [|by rewrite lru_get_other_lookup].
    unfold AsyncLRUCache_get. by rewrite Hc'. }
  revert c Hget. induction gs as [|[t k'] gs IH]; intros c Hget; [done|]. simpl.
  case_bool_decide as Hk; simpl.
  - subst k'. destruct (Qltb ex t) eqn:E; simpl.
    + apply Hnone. unfold AsyncLRUCache_get. rewrite Hget, E; simpl. apply od_get_del_eq.
    + apply IH. unfold AsyncLRUCache_get. rewrite Hget, E; simpl. by rewrite od_get_move.
  - apply IH. by rewrite lru_get_other_lookup.
Qed.

End Expiry.

(** ** Properties *)

(** C7: every cache reachable from [AsyncLRUCache(maxsize, ttl)] by any sequence of
    operations holds at most [maxsize] entries under distinct keys, and its hit and
    miss counters add up to the number of lookups. *)
Theorem lru_reachable_wf {K V} `{EqDecision K} maxsize ttl (c : AsyncLRUCache K V) ops :
  AsyncLRUCache_init maxsize ttl = Return c →
  let c' := foldl lru_step c ops in
  lru_wf c' ∧ (AsyncLRUCache_size c' <= maxsize)%Z ∧
  (lru_hits c' + lru_misses c' = Z.of_nat (length (filter is_get ops)))%Z.
Proof.
  intros Hinit c'. pose proof (lru_run_wf _ ops (lru_init_wf _ _ _ Hinit)) as Hwf.
  pose proof (lru_run_counts c ops) as Hcnt.
  unfold AsyncLRUCache_init in Hinit. revert Hinit. split_test; [done|]. intros [= <-].
  pose proof (lru_run_maxsize (mkLru maxsize ttl [] 0 0) ops) as Hm.
  split_and!; [exact Hwf | | exact Hcnt].
  simpl in Hm. unfold AsyncLRUCache_size. rewrite <- Hm. apply Hwf.
Qed.

Lemma lru_reachable_wf_witness :
  let c := mkLru 2 None [] 0 0 : AsyncLRUCache nat nat in
  lru_wf (foldl lru_step c
    [OpSet 0 1 (Some 10) None; OpSet 0 2 (Some 20) None; OpGet 0 1; OpSet 0 3 (Some 30) None])%nat.
Proof. intros c. by apply (lru_reachable_wf 2 None c). Defined.

(** C8: the cache is an LRU cache.  After any sequence of lookups and stores
    without TTL, its keys, least recently used first, are exactly the last
    [maxsize] keys of the unbounded recency list of the specification. *)
Theorem lru_keeps_most_recent {K V} `{EqDecision K} (n : nat) (c : AsyncLRUCache K V) ops :
  AsyncLRUCache_init (Z.of_nat n) None = Return c →
  Forall no_ttl_op ops →
  (lru_store (foldl lru_step c ops)).*1 = lastn n (foldl (recency_step n) [] ops).
Proof.
  unfold AsyncLRUCache_init. split_test; [done|]. intros [= <-] Hops. symmetry.
  apply simulates_lastn. apply simulates_run; [lia | done |].
  split_and!; [done | done | done |]. exists []. split_and!; simpl; try done; [|by left|lia].
  apply NoDup_nil_2.
Qed.

Lemma lru_keeps_most_recent_witness :
  let c := mkLru 2 None [] 0 0 : AsyncLRUCache nat nat in
  (lru_store (foldl lru_step c
    [OpSet 0 1 (Some 10) None; OpSet 0 2 (Some 20) None; OpGet 0 1; OpSet 0 3 (Some 30) None])%nat).*1
  = [1; 3]%nat.
Proof.
  intros c. rewrite (lru_keeps_most_recent 2 c); [reflexivity | reflexivity |].
  repeat constructor.
Defined.

(** an entry lives for its TTL after it was stored, however often it is read:
    a value stored at time [t0] is returned by a lookup at any [now] up to
    [t0 + ttl], whatever lookups came before, and is a miss after that; a read
    does not extend its life. *)
Theorem lru_ttl_from_store {K V} `{EqDecision K} (c : AsyncLRUCache K V) t0 k v T gs now :
  lru_wf c →
  Forall (λ g, (fst g <= now)%Q) gs →
  let c1 := lookups gs (AsyncLRUCache_set t0 k v (Some T) c) in
  fst (AsyncLRUCache_get now k c1) = if Qle_bool now (t0 + T) then v else None.
Proof.
  intros Hwf Hgs c1. unfold AsyncLRUCache_get, c1.
  rewrite (lookups_entry _ _ v (t0 + T)) by by apply lru_set_lookup.
  destruct (Qle_bool now (t0 + T)) eqn:E; reflect_tests.
  - rewrite (proj2 (forallb_forall _ gs)).
    + destruct (Qltb (t0 + T) now) eqn:E'; reflect_tests; [lra | done].
    + intros [t k'] Hin. apply negb_true_iff, andb_false_iff. right.
      apply Qltb_ge. rewrite Forall_forall in Hgs.
      specialize (Hgs (t, k') (proj2 (list_elem_of_In _ _) Hin)). simpl in *. lra.
  - destruct (forallb _ gs); [|done].
    destruct (Qltb (t0 + T) now) eqn:E'; reflect_tests; [done | lra].
Qed.

Lemma lru_ttl_from_store_witness :
  let c := mkLru 2 None [] 0 0 : AsyncLRUCache nat nat in
  fst (AsyncLRUCache_get 12 1%nat
    (lookups [(4, 1%nat); (9, 1%nat)] (AsyncLRUCache_set 0 1%nat (Some 10%nat) (Some 10) c))) = None.
Proof.
  intros c. apply (lru_ttl_from_store c 0 1%nat (Some 10%nat) 10 [(4, 1%nat); (9, 1%nat)] 12).
  - split_and!; simpl; [lia | constructor | lia].
  - repeat constructor; discriminate.
Defined.
