(* ===== verification/TaggedCache.v ===== *)
(** * Caches over a store ([application/cache/tags.py], [invalidation.py], [keys.py],
      [resilience/cache/aside.py])

    The in-memory tagged store with its two indexes, and the clients that load
    through it: the [@cached] decorator, the warm-up service and the cache-aside
    policy with its per-key locks.  [None] stored as a value reads as a miss. *)
From S2P Require Import Prelude PyString.

(** ** The tagged store *)
Section Store.
Context {V : Type}.

Record TaggedCache := mkTagged {
  tc_data : gmap string (option V);
  tc_tags : gmap string (gset string);
  tc_key_tags : gmap string (gset string);
}.

Definition TaggedCache_init : TaggedCache := mkTagged ∅ ∅ ∅.

Implicit Types (c : TaggedCache).

(** [d.setdefault(k, set()).add(x)]. *)
Definition set_add (k x : string) (d : gmap string (gset string)) : gmap string (gset string) :=
  <[k := default ∅ (d !! k) ∪ {[x]}]> d.

(** [d.get(k, set()).discard(x)]. *)
Definition set_discard (k x : string) (d : gmap string (gset string)) : gmap string (gset string) :=
  match d !! k with None => d | Some s => <[k := s ∖ {[x]}]> d end.

Definition TaggedCache_set (key : string) (value : option V) (tags : option (list string))
    : PyM TaggedCache unit :=
  updates (λ c,
    fold_left (λ c tag, mkTagged (tc_data c) (set_add tag key (tc_tags c))
                          (set_add key tag (tc_key_tags c)))
      (default [] tags)
      (mkTagged (<[key := value]> (tc_data c)) (tc_tags c) (tc_key_tags c))).

Definition TaggedCache_get (key : string) : PyM TaggedCache (option V) :=
  reads (λ c, mjoin (tc_data c !! key)).

Definition TaggedCache_delete (key : string) : PyM TaggedCache unit :=
  updates (λ c,
    mkTagged (delete key (tc_data c))
      (foldr (λ tag d, set_discard tag key d) (tc_tags c)
         (elements (default ∅ (tc_key_tags c !! key))))
      (delete key (tc_key_tags c))).

Definition TaggedCache_invalidate_tag (tag : string) : PyM TaggedCache nat := λ c,
  let keys := elements (default ∅ (tc_tags c !! tag)) in
  (Return (length keys),
    mkTagged (foldr delete (tc_data c) keys) (delete tag (tc_tags c))
      (foldr (λ key d, set_discard key tag d) (tc_key_tags c) keys)).

End Store.
Arguments TaggedCache : clear implicits.

(** ** Clients *)

(** [CacheKey.for_resource]. *)
Definition CacheKey_for_resource (resource_type resource_id : string) : string :=
  resource_type +:+ ":" +:+ resource_id.

Section Clients.
Context {V W : Type}.

(** The wrapper of the [@cached] decorator, on the key of its arguments. *)
Definition cached (tags : option (list string)) (key : string) (fn : PyM W (option V))
    : PyM (TaggedCache V * W) (option V) :=
  cached_val ← on_fst (TaggedCache_get key);
  match cached_val with
  | Some v => mret (Some v)
  | None =>
      result ← on_snd fn;
      on_fst (TaggedCache_set key result tags) ;;
      mret result
  end.

(** [CacheWarmupService]: a registry of loaders. *)
Definition CacheWarmupService_register (key : string) (loader : PyM W (option V))
    (loaders : gmap string (PyM W (option V))) : gmap string (PyM W (option V)) :=
  <[key := loader]> loaders.

Definition CacheWarmupService_warm (loaders : gmap string (PyM W (option V))) (key : string)
    : PyM (TaggedCache V * W) (option V) :=
  match loaders !! key with
  | None => raise (KeyError ("No loader registered for key: " +:+ py_repr key))
  | Some loader =>
      value ← on_snd loader;
      on_fst (TaggedCache_set key value None) ;;
      mret value
  end.

End Clients.

(** ** Cache-aside with stampede protection

    [get_or_load] suspends at the lock of its key and in the loader, so it is cut
    into the sections that run without interruption.  A task is in one of the
    phases below; the lock of a key is held by at most one task. *)
Section Aside.
Context {V : Type}.

Inductive aside_phase :=
| ALook                            (* about to look the key up *)
| AWait                            (* waiting for the key's lock *)
| ALoad                            (* holding the lock, in the loader *)
| ADone (o : outcome (option V)).  (* ended; [None] is Python's [None] *)

(** What has happened: loads begun and ended, and values lost by the cache (expired or removed). *)
Inductive aside_event :=
| EBegin (k : string)
| EEnd (k : string) (o : outcome (option V))
| ELost (k : string).

(** A loader may return [None], which is stored but not told from a missing entry. *)
Record AsideState := mkAside {
  as_cache : gmap string (option V);
  as_lock : gmap string nat;              (* key to the task holding its lock *)
  as_task : gmap nat (string * aside_phase);
  as_log : list aside_event;
}.

(** [cache.get]. *)
Definition as_get (k : string) (s : AsideState) : option V := mjoin (as_cache s !! k).

Definition set_phase (t : nat) (k : string) (p : aside_phase) (s : AsideState) : AsideState :=
  mkAside (as_cache s) (as_lock s) (<[t := (k, p)]> (as_task s)) (as_log s).

(** The first lookup of [get_or_load]. *)
Definition aside_look (t : nat) (s : AsideState) : option AsideState :=
  match as_task s !! t with
  | Some (k, ALook) =>
      Some (match as_get k s with
            | Some v => set_phase t k (ADone (Return (Some v))) s
            | None => set_phase t k AWait s
            end)
  | _ => None
  end.

(** The lock is free: take it and look again; on a miss call the loader. *)
Definition aside_enter (t : nat) (s : AsideState) : option AsideState :=
  match as_task s !! t with
  | Some (k, AWait) =>
      match as_lock s !! k with
      | Some _ => None
      | None =>
          Some (match as_get k s with
                | Some v => set_phase t k (ADone (Return (Some v))) s
                | None =>
                    mkAside (as_cache s) (<[k := t]> (as_lock s)) (<[t := (k, ALoad)]> (as_task s))
                      (as_log s ++ [EBegin k])
                end)
      end
  | _ => None
  end.

(** The loader ends: what it returns is stored and returned, an exception (a cancellation too)
    is passed on; the lock is released either way. *)
Definition aside_finish (t : nat) (o : outcome (option V)) (s : AsideState) : option AsideState :=
  match as_task s !! t with
  | Some (k, ALoad) =>
      Some (mkAside (match o with Return r => <[k := r]> (as_cache s) | Raise _ => as_cache s end)
              (delete k (as_lock s)) (<[t := (k, ADone o)]> (as_task s)) (as_log s ++ [EEnd k o]))
  | _ => None
  end.

(** A call [get_or_load(k)] by a new task. *)
Definition aside_call (t : nat) (k : string) (s : AsideState) : option AsideState :=
  match as_task s !! t with
  | Some _ => None
  | None => Some (set_phase t k ALook s)
  end.

(** A task is cancelled while it waits for the lock. *)
Definition aside_cancel (t : nat) (e : pyexn) (s : AsideState) : option AsideState :=
  match as_task s !! t with
  | Some (k, AWait) => Some (set_phase t k (ADone (Raise e)) s)
  | _ => None
  end.

(** The cache loses the value of a key. *)
Definition aside_lose (k : string) (s : AsideState) : option AsideState :=
  match as_get k s with
  | Some _ => Some (mkAside (delete k (as_cache s)) (as_lock s) (as_task s) (as_log s ++ [ELost k]))
  | None => None
  end.

(** Any interleaving. *)
Inductive aside_step : AsideState → AsideState → Prop :=
| as_call t k s s' : aside_call t k s = Some s' → aside_step s s'
| as_look t s s' : aside_look t s = Some s' → aside_step s s'
| as_enter t s s' : aside_enter t s = Some s' → aside_step s s'
| as_finish t o s s' : aside_finish t o s = Some s' → aside_step s s'
| as_cancel t e s s' : aside_cancel t e s = Some s' → aside_step s s'
| as_lose k s s' : aside_lose k s = Some s' → aside_step s s'.

Definition aside_init : AsideState := mkAside ∅ ∅ ∅ [].

(** How many events of a key are as [P] says. *)
Definition begun (k : string) (ev : aside_event) : bool := match ev with EBegin k' => bool_decide (k' = k) | _ => false end.
Definition empty_load (k : string) (ev : aside_event) : bool :=
  match ev with EEnd k' (Return (Some _)) => false | EEnd k' _ => bool_decide (k' = k) | _ => false end.
Definition value_load (k : string) (ev : aside_event) : bool :=
  match ev with EEnd k' (Return (Some _)) => bool_decide (k' = k) | _ => false end.
Definition lost (k : string) (ev : aside_event) : bool := match ev with ELost k' => bool_decide (k' = k) | _ => false end.

Definition count_events (P : aside_event → bool) (l : list aside_event) : nat := length (List.filter P l).

End Aside.
Arguments AsideState : clear implicits.

(** ** Lemmas: the tag indexes *)
Section TagLemmas.
Context {V : Type}.
Implicit Types (c : TaggedCache V) (d : gmap string (gset string)).

(** The set filed under [k]. *)
Definition set_at (k : string) d : gset string := default ∅ (d !! k).

Lemma set_at_add k x d k' : set_at k' (set_add k x d) = if decide (k' = k) then set_at k d ∪ {[x]} else set_at k' d.
Proof.
  unfold set_at, set_add. case_decide as Hk; [subst; by rewrite lookup_insert_eq|].
  by rewrite lookup_insert_ne.
Qed.

Lemma set_at_discard k x d k' :
  set_at k' (set_discard k x d) = if decide (k' = k) then set_at k d ∖ {[x]} else set_at k' d.
Proof.
  unfold set_at, set_discard. case_decide as Hk.
  - subst. destruct (d !! k) as [s|] eqn:E; [by rewrite lookup_insert_eq|]. rewrite E. simpl. set_solver.
  - destruct (d !! k); [by rewrite lookup_insert_ne | done].
Qed.

Lemma set_at_delete k d k' : set_at k' (delete k d) = if decide (k' = k) then ∅ else set_at k' d.
Proof.
  unfold set_at. case_decide as Hk; [subst; by rewrite lookup_delete_eq | by rewrite lookup_delete_ne].
Qed.

(** Discarding [x] from the sets of every key of [l]. *)
Lemma set_at_discards (l : list string) x d k' :
  set_at k' (foldr (λ k d, set_discard k x d) d l) =
    if decide (k' ∈ l) then set_at k' d ∖ {[x]} else set_at k' d.
Proof.
  induction l as [|k l IH]; [by rewrite decide_False by apply not_elem_of_nil|].
  cbn [foldr]. rewrite set_at_discard. destruct (decide (k' = k)) as [->|Hne].
  - rewrite (decide_True (P := k ∈ k :: l)) by left. rewrite IH. case_decide; set_solver.
  - rewrite IH. case_decide as H1; case_decide as H2; set_solver.
Qed.

(** The two indexes describe the same relation. *)
Definition tags_consistent c : Prop :=
  ∀ tag key, key ∈ set_at tag (tc_tags c) ↔ tag ∈ set_at key (tc_key_tags c).

(** What [set] does to the indexes. *)
Lemma set_spec key value tags c :
  let c' := snd (TaggedCache_set key value tags c) in
  tc_data c' = <[key := value]> (tc_data c) ∧
  (∀ tag k, k ∈ set_at tag (tc_tags c') ↔
     k ∈ set_at tag (tc_tags c) ∨ k = key ∧ tag ∈ default [] tags) ∧
  (∀ k tag, tag ∈ set_at k (tc_key_tags c') ↔
     tag ∈ set_at k (tc_key_tags c) ∨ k = key ∧ tag ∈ default [] tags).
Proof.
  unfold TaggedCache_set, updates. simpl.
  set (c0 := mkTagged (<[key := value]> (tc_data c)) (tc_tags c) (tc_key_tags c)).
  change (tc_tags c) with (tc_tags c0). change (tc_key_tags c) with (tc_key_tags c0).
  change (<[key := value]> (tc_data c)) with (tc_data c0).
  clearbody c0. clear c. generalize (default [] tags) as l. intros l. revert c0.
  induction l as [|x l IH]; intros c0; simpl.
  { split; [done|]. split; intros; rewrite elem_of_nil; tauto. }
  destruct (IH (mkTagged (tc_data c0) (set_add x key (tc_tags c0)) (set_add key x (tc_key_tags c0))))
    as (-> & H1 & H2). simpl in *. split; [done|]. split; intros ? ?.
  - rewrite H1, set_at_add, elem_of_cons. case_decide; set_solver.
  - rewrite H2, set_at_add, elem_of_cons. case_decide; set_solver.
Qed.

Lemma set_consistent key value tags c :
  tags_consistent c → tags_consistent (snd (TaggedCache_set key value tags c)).
Proof.
  intros Hc tag k. destruct (set_spec key value tags c) as (_ & H1 & H2).
  rewrite H1, H2, (Hc tag k). done.
Qed.

Lemma delete_consistent key c :
  tags_consistent c → tags_consistent (snd (TaggedCache_delete key c)).
Proof.
  intros Hc tag k. unfold TaggedCache_delete, updates. simpl.
  rewrite set_at_delete, set_at_discards.
  specialize (Hc tag). pose proof (Hc k) as Hk. pose proof (Hc key) as Hkey. unfold set_at in *.
  destruct (decide (k = key)) as [->|Hne]; case_decide as Hel; rewrite elem_of_elements in Hel;
    set_solver.
Qed.

Lemma invalidate_consistent tag0 c :
  tags_consistent c → tags_consistent (snd (TaggedCache_invalidate_tag tag0 c)).
Proof.
  intros Hc tag k. unfold TaggedCache_invalidate_tag. simpl.
  rewrite set_at_delete, set_at_discards.
  pose proof (Hc tag k) as Hk. pose proof (Hc tag0 k) as Hk0. unfold set_at in *.
  destruct (decide (tag = tag0)) as [->|Hne]; case_decide as Hel; rewrite elem_of_elements in Hel;
    set_solver.
Qed.

Lemma lookup_deletes (l : list string) (m : gmap string (option V)) k :
  foldr delete m l !! k = if decide (k ∈ l) then None else m !! k.
Proof.
  induction l as [|x l IH]; [by rewrite decide_False by apply not_elem_of_nil|].
  cbn [foldr]. destruct (decide (k = x)) as [->|Hne].
  - rewrite lookup_delete_eq, decide_True by left. done.
  - rewrite lookup_delete_ne, IH by done. case_decide as H1; case_decide as H2; set_solver.
Qed.

(** The operations of a client. *)
Inductive cache_op :=
| CSet (key : string) (value : option V) (tags : option (list string))
| CGet (key : string)
| CDelete (key : string)
| CInvalidate (tag : string).

Definition cache_step c (op : cache_op) : TaggedCache V :=
  match op with
  | CSet key value tags => snd (TaggedCache_set key value tags c)
  | CGet key => snd (TaggedCache_get key c)
  | CDelete key => snd (TaggedCache_delete key c)
  | CInvalidate tag => snd (TaggedCache_invalidate_tag tag c)
  end.

Lemma cache_step_consistent c op : tags_consistent c → tags_consistent (cache_step c op).
Proof.
  destruct op; simpl;
    [apply set_consistent | done | apply delete_consistent | apply invalidate_consistent].
Qed.

Lemma cache_run_consistent ops c : tags_consistent c → tags_consistent (fold_left cache_step ops c).
Proof.
  revert c. induction ops as [|op ops IH]; intros c Hc; simpl; [done|].
  by apply IH, cache_step_consistent.
Qed.

(** A key keeps a tag until it is deleted or the tag is invalidated. *)
Lemma tag_kept key tag op c :
  key ∈ set_at tag (tc_tags c) → op ≠ CDelete key → op ≠ CInvalidate tag →
  key ∈ set_at tag (tc_tags (cache_step c op)).
Proof.
  intros Hin Hd Hi. destruct op as [k v ts|k|k|tg]; simpl.
  - apply (proj1 (proj2 (set_spec k v ts c))). by left.
  - done.
  - rewrite set_at_discards. assert (k ≠ key) by congruence. case_decide; set_solver.
  - rewrite set_at_delete. by rewrite decide_False by congruence.
Qed.

(** ** Properties *)

(** In every reachable cache the two tag indexes agree, and invalidating a tag
    removes every key that was stored with it, whatever happened in between short
    of deleting the key or invalidating the tag (re-storing the key without the
    tag does not detach it): its next lookup is a miss.  The number returned is
    the number of keys removed, and keys outside the tag keep their values. *)
Theorem invalidate_removes_tagged c0 key value tags tag ops :
  tags_consistent c0 → tag ∈ tags → CDelete key ∉ ops → CInvalidate tag ∉ ops →
  let c := fold_left cache_step ops (cache_step c0 (CSet key value (Some tags))) in
  let '(n, c') := TaggedCache_invalidate_tag tag c in
  tags_consistent c' ∧
  fst (TaggedCache_get key c') = Return None ∧
  n = Return (size (set_at tag (tc_tags c))) ∧
  ∀ k, k ∉ set_at tag (tc_tags c) → tc_data c' !! k = tc_data c !! k.
Proof.
  intros Hc Htag Hd Hi. cbv zeta.
  assert (key ∈ set_at tag (tc_tags (fold_left cache_step ops
    (cache_step c0 (CSet key value (Some tags)))))) as Hin.
  { assert (key ∈ set_at tag (tc_tags (cache_step c0 (CSet key value (Some tags))))) as H0
      by (apply (proj1 (proj2 (set_spec key value (Some tags) c0))); by right).
    revert H0. generalize (cache_step c0 (CSet key value (Some tags))) as c. clear Hc.
    induction ops as [|op ops IH]; intros c H0; simpl; [done|].
    rewrite elem_of_cons in Hd, Hi. apply IH; [tauto | tauto |].
    apply tag_kept; [done | |]; intros ->; tauto. }
  pose proof (cache_run_consistent ops _ (cache_step_consistent c0 (CSet key value (Some tags)) Hc)) as Hcc.
  set (c := fold_left _ _ _) in *. clearbody c. split; [by apply invalidate_consistent|].
  split; [|split].
  - unfold TaggedCache_get, reads. simpl. rewrite lookup_deletes, decide_True; [done|].
    by apply elem_of_elements.
  - done.
  - intros k Hk. simpl. by rewrite lookup_deletes, decide_False by (by rewrite elem_of_elements).
Qed.

End TagLemmas.

(** ** Lemmas: cache-aside *)
Section AsideLemmas.
Context {V : Type}.
Implicit Types (s : AsideState V).

Definition held {A} (o : option A) : nat := match o with Some _ => 1 | None => 0 end.

Lemma count_events_snoc (P : aside_event (V := V) → bool) l ev :
  count_events P (l ++ [ev]) = (count_events P l + if P ev then 1 else 0)%nat.
Proof. unfold count_events. rewrite List.filter_app, length_app. simpl. by destruct (P ev). Qed.

(** Each load is under way under the lock, ended without a value, or gave the value that is
    cached or was lost; one that is under way found nothing cached. *)
Definition key_inv s (k : string) : Prop :=
  let n P := count_events (P k) (as_log s) in
  n begun = (n value_load + n empty_load + held (as_lock s !! k))%nat ∧
  n value_load = (n lost + held (as_get k s))%nat ∧
  (is_Some (as_lock s !! k) → as_get k s = None).

(** The task that holds the lock of a key is the one that loads it; values returned or cached are those of
    loads, and without a loss they are the cached one. *)
Record aside_inv s : Prop := {
  ai_key k : key_inv s k;
  ai_lock t k : as_task s !! t = Some (k, ALoad) ↔ as_lock s !! k = Some t;
  ai_cached k v : as_get k s = Some v → EEnd k (Return (Some v)) ∈ as_log s;
  ai_done t k v : as_task s !! t = Some (k, ADone (Return (Some v))) →
    EEnd k (Return (Some v)) ∈ as_log s ∧ (count_events (lost k) (as_log s) = 0%nat → as_get k s = Some v);
}.

(** A task that is not loading moves to another phase that is not loading. *)
Lemma inv_set_phase s t k p :
  aside_inv s → (∀ k', as_task s !! t ≠ Some (k', ALoad)) → p ≠ ALoad →
  (∀ v, p = ADone (Return (Some v)) → as_get k s = Some v) → aside_inv (set_phase t k p s).
Proof.
  intros [Hk Hl Hc Hd] Hnot Hp Hr. split; simpl; [done | | done |].
  - intros t' k'. rewrite <- Hl, lookup_insert_Some. split.
    + intros [[_ [= _ ?]] | [_ Ht]]; done.
    + intros Ht. right. split; [|done]. intros <-. by apply (Hnot k').
  - intros t' k' v. rewrite lookup_insert_Some. intros [[_ [= <- ->]] | [_ Ht]]; [|by apply (Hd t')].
    specialize (Hr v eq_refl). split; [by apply Hc | done].
Qed.

(** A waiting task finds the lock free and the key missing, and starts to load. *)
Lemma aside_load_inv s t k :
  aside_inv s → as_task s !! t = Some (k, AWait) → as_lock s !! k = None → as_get k s = None →
  aside_inv (mkAside (as_cache s) (<[k := t]> (as_lock s)) (<[t := (k, ALoad)]> (as_task s)) (as_log s ++ [EBegin k])).
Proof.
  intros [Hk Hl Hc Hd] Ht Hlock Hnone. split; simpl.
  - intros k'. destruct (Hk k') as (H1 & H2 & H3). unfold key_inv, as_get in *. simpl. rewrite !count_events_snoc. simpl.
    destruct (decide (k' = k)) as [->|Hne].
    + rewrite lookup_insert_eq. rewrite Hlock in H1. rewrite bool_decide_eq_true_2 by done. cbn [held] in *. split_and!; [lia | lia | done].
    + rewrite lookup_insert_ne by done. rewrite bool_decide_eq_false_2 by congruence. split_and!; [lia | lia | done].
  - intros t' k'. destruct (decide (k' = k)) as [->|Hne].
    + rewrite lookup_insert_eq, lookup_insert_Some. split; [intros [[-> _] | [Hne Ht']]; [done | apply Hl in Ht'; congruence] | intros [= <-]; by left].
    + rewrite (lookup_insert_ne (as_lock s)), <- Hl, lookup_insert_Some by done. split; [intros [[_ [= ?]] | [_ ?]]; [congruence | done]|].
      intros Ht'. right. split; [congruence | done].
  - intros k' v Hv. apply elem_of_app. left. by apply Hc.
  - intros t' k' v. rewrite lookup_insert_Some. intros [[_ [=]] | [_ Ht']]. destruct (Hd t' k' v Ht') as [H1 H2].
    split; [set_solver|]. rewrite count_events_snoc. simpl. rewrite Nat.add_0_r. exact H2.
Qed.

(** The loading task ends and releases the lock. *)
Lemma aside_finish_inv s t k o :
  aside_inv s → as_task s !! t = Some (k, ALoad) →
  aside_inv (mkAside (match o with Return r => <[k := r]> (as_cache s) | Raise _ => as_cache s end)
    (delete k (as_lock s)) (<[t := (k, ADone o)]> (as_task s)) (as_log s ++ [EEnd k o])).
Proof.
  intros [Hk Hl Hc Hd] Ht. pose proof (proj1 (Hl t k) Ht) as Hlock.
  set (cache' := match o with Return r => _ | Raise _ => _ end).
  assert (Hother : ∀ k', k' ≠ k → mjoin (cache' !! k') = as_get k' s).
  { intros k' Hne. unfold cache', as_get. destruct o; [by rewrite lookup_insert_ne | done]. }
  assert (Hown : mjoin (cache' !! k) = match o with Return (Some v) => Some v | _ => None end).
  { destruct (Hk k) as (_ & _ & H3). unfold cache'. destruct o as [r|e]; [rewrite lookup_insert_eq; by destruct r|]. apply H3. by rewrite Hlock. }
  assert (Hnone : as_get k s = None) by (destruct (Hk k) as (_ & _ & H3); apply H3; by rewrite Hlock).
  split; simpl.
  - intros k'. destruct (Hk k') as (H1 & H2 & H3). unfold key_inv. unfold as_get at 1 2. simpl. rewrite !count_events_snoc. simpl.
    destruct (decide (k' = k)) as [->|Hne].
    + rewrite lookup_delete_eq, Hown. rewrite Hlock in H1. rewrite Hnone in H2. rewrite bool_decide_eq_true_2 by done. cbn [held] in *.
      destruct o as [[v|]|e]; cbn [held] in *; (split_and!; [lia | lia | by intros [? ?]]).
    + rewrite lookup_delete_ne, Hother by done. rewrite bool_decide_eq_false_2 by congruence.
      destruct o as [[v|]|e]; cbn [held] in *; (split_and!; [lia | lia | done]).
  - intros t' k'. destruct (decide (t' = t)) as [->|Hnt].
    + rewrite lookup_insert_eq. split; [intros [=]|]. intros Hl'. destruct (decide (k' = k)) as [->|Hne]; [by rewrite lookup_delete_eq in Hl'|].
      rewrite lookup_delete_ne in Hl' by done. apply Hl in Hl'. congruence.
    + rewrite lookup_insert_ne, Hl by done. destruct (decide (k' = k)) as [->|Hne]; [|by rewrite lookup_delete_ne].
      rewrite lookup_delete_eq, Hlock. split; [congruence | done].
  - intros k' v. unfold as_get. simpl. destruct (decide (k' = k)) as [->|Hne]; [|rewrite Hother by done; intros Hv%Hc; set_solver].
    rewrite Hown. destruct o as [[v'|]|e]; [intros [= ->]; set_solver | done | done].
  - intros t' k' v. unfold as_get. simpl. rewrite count_events_snoc. simpl. rewrite Nat.add_0_r, lookup_insert_Some.
    intros [[_ [= <- ->]] | [_ Ht']]; [split; [set_solver | by rewrite Hown]|].
    destruct (Hd t' k' v Ht') as [H1 H2]. split; [set_solver|]. intros H0. specialize (H2 H0).
    destruct (decide (k' = k)) as [->|Hne]; [congruence | by rewrite Hother].
Qed.

(** The cache loses a value. *)
Lemma aside_lose_inv s k v :
  aside_inv s → as_get k s = Some v → aside_inv (mkAside (delete k (as_cache s)) (as_lock s) (as_task s) (as_log s ++ [ELost k])).
Proof.
  intros [Hk Hl Hc Hd] Hv. split; simpl; [|done| |].
  - intros k'. destruct (Hk k') as (H1 & H2 & H3). unfold key_inv. unfold as_get at 1 2. simpl. rewrite !count_events_snoc. simpl.
    destruct (decide (k' = k)) as [->|Hne].
    + rewrite lookup_delete_eq, bool_decide_eq_true_2 by done. rewrite Hv in H2. cbn [held mjoin option_join] in *. split_and!; [lia | lia | done].
    + rewrite lookup_delete_ne by done. rewrite bool_decide_eq_false_2 by congruence. fold (as_get k' s). split_and!; [lia | lia | done].
  - intros k' v'. unfold as_get. simpl. destruct (decide (k' = k)) as [->|Hne]; [by rewrite lookup_delete_eq|].
    rewrite lookup_delete_ne by done. intros Hv'%Hc. set_solver.
  - intros t k' v' Ht. destruct (Hd t k' v' Ht) as [H1 H2]. split; [set_solver|]. rewrite count_events_snoc. simpl. intros H0.
    case_bool_decide as Hkk; [lia|]. unfold as_get. simpl. rewrite lookup_delete_ne by done. apply H2. lia.
Qed.

Lemma aside_step_inv s s' : aside_step s s' → aside_inv s → aside_inv s'.
Proof.
  intros [t k s1 s1' Hs|t s1 s1' Hs|t s1 s1' Hs|t o s1 s1' Hs|t e s1 s1' Hs|k s1 s1' Hs] Hinv.
  - unfold aside_call in Hs. destruct (as_task s1 !! t) eqn:Ht; [done|]. injection Hs as <-.
    apply inv_set_phase; [done | congruence | done | done].
  - unfold aside_look in Hs. destruct (as_task s1 !! t) as [[k []]|] eqn:Ht; try done.
    injection Hs as <-. destruct (as_get k s1) eqn:Hc;
      (apply inv_set_phase; [done | congruence | done |]); [|done]. by intros v1 [= <-].
  - unfold aside_enter in Hs. destruct (as_task s1 !! t) as [[k []]|] eqn:Ht; try done.
    destruct (as_lock s1 !! k) eqn:Hlock; [done|]. injection Hs as <-. destruct (as_get k s1) eqn:Hc.
    + apply inv_set_phase; [done | congruence | done |]. by intros v1 [= <-].
    + by apply aside_load_inv.
  - unfold aside_finish in Hs. destruct (as_task s1 !! t) as [[k []]|] eqn:Ht; try done.
    injection Hs as <-. by apply aside_finish_inv.
  - unfold aside_cancel in Hs. destruct (as_task s1 !! t) as [[k []]|] eqn:Ht; try done.
    injection Hs as <-. apply inv_set_phase; [done | congruence | done | done].
  - unfold aside_lose in Hs. destruct (as_get k s1) as [v|] eqn:Hv; [|done]. injection Hs as <-. by apply (aside_lose_inv s1 k v).
Qed.

(** C20: However the calls of [get_or_load] interleave, whatever loaders return or raise, waiters that are
    cancelled and values the cache loses included: at most one load of a key is under way at
    any time; the loads of a key are at most one more than those that ended without a value (an
    exception, or [None], which is never taken from the cache) and the times its
    cached value was lost; a value a call returns is one a load returned, and as long as
    no value of the key was lost it is the cached one, the same for every call. *)
Theorem aside_no_stampede s k :
  rtc aside_step aside_init s →
  (∀ t t', as_task s !! t = Some (k, ALoad) → as_task s !! t' = Some (k, ALoad) → t = t') ∧
  (count_events (begun k) (as_log s) <= 1 + count_events (empty_load k) (as_log s) + count_events (lost k) (as_log s))%nat ∧
  ∀ t v, as_task s !! t = Some (k, ADone (Return (Some v))) →
    EEnd k (Return (Some v)) ∈ as_log s ∧ (count_events (lost k) (as_log s) = 0%nat → as_get k s = Some v).
Proof.
  intros Hrtc. assert (aside_inv s) as [Hk Hl _ Hd].
  { assert (aside_inv aside_init) as H0.
    { split; simpl; [done | by intros t k'; rewrite !lookup_empty | done | done]. }
    revert H0. induction Hrtc as [|s1 s2 s3 Hstep _ IH]; [done|]. intros H0.
    apply IH. by apply (aside_step_inv s1). }
  split_and!.
  - intros t t' Ht%Hl Ht'%Hl. congruence.
  - destruct (Hk k) as (H1 & H2 & H3). destruct (as_lock s !! k) as [t|]; [rewrite H3 in H2 by done; cbn [held] in *; lia|].
    destruct (as_get k s); cbn [held] in *; lia.
  - intros t v. apply Hd.
Qed.

End AsideLemmas.

(** ** Witnesses *)

Lemma invalidate_removes_tagged_witness :
  let c := fold_left cache_step [CSet "b" (Some 2%nat) None; CSet "a" (Some 3%nat) None]
             (cache_step TaggedCache_init (CSet "a" (Some 1%nat) (Some ["hot"]))) in
  tc_data c !! "a" = Some (Some 3%nat) ∧
  let '(n, c') := TaggedCache_invalidate_tag "hot" c in
  tags_consistent c' ∧ fst (TaggedCache_get "a" c') = Return None ∧
  n = Return (size (set_at "hot" (tc_tags c))) ∧
  ∀ k, k ∉ set_at "hot" (tc_tags c) → tc_data c' !! k = tc_data c !! k.
Proof.
  split; [vm_compute; reflexivity|].
  apply (invalidate_removes_tagged TaggedCache_init "a" (Some 1%nat) ["hot"] "hot"
    [CSet "b" (Some 2%nat) None; CSet "a" (Some 3%nat) None]).
  - intros tag key. unfold set_at. simpl. rewrite !lookup_empty. simpl. set_solver.
  - left.
  - intros H. repeat (apply elem_of_cons in H as [[=] | H]). by apply elem_of_nil in H.
  - intros H. repeat (apply elem_of_cons in H as [[=] | H]). by apply elem_of_nil in H.
Defined.

(** Two tasks ask for the same key; the second one waits and gets the first one's
    value. *)
Definition aside_run : option (AsideState nat) :=
  s ← aside_call 1 "k" aside_init; s ← aside_call 2 "k" s;
  s ← aside_look 1 s; s ← aside_look 2 s; s ← aside_enter 1 s;
  s ← aside_finish 1 (Return (Some 7%nat)) s; aside_enter 2 s.

Lemma aside_no_stampede_witness :
  ∃ s, aside_run = Some s ∧ as_task s !! 2%nat = Some ("k", ADone (Return (Some 7%nat))) ∧
    (count_events (begun "k") (as_log s) <= 1)%nat.
Proof.
  eexists. split; [vm_compute; reflexivity|]. split; [vm_compute; reflexivity|].
  match goal with |- context[as_log ?x] => set (s := x) end.
  destruct (aside_no_stampede (V := nat) s "k") as (_ & H & _); [|exact H].
  eapply rtc_l; [apply (as_call 1 "k"); vm_compute; reflexivity|].
  eapply rtc_l; [apply (as_call 2 "k"); vm_compute; reflexivity|].
  eapply rtc_l; [apply (as_look 1); vm_compute; reflexivity|].
  eapply rtc_l; [apply (as_look 2); vm_compute; reflexivity|].
  eapply rtc_l; [apply (as_enter 1); vm_compute; reflexivity|].
  eapply rtc_l; [apply (as_finish 1 (Return (Some 7%nat))); vm_compute; reflexivity|].
  eapply rtc_l; [apply (as_enter 2); vm_compute; reflexivity|].
  apply rtc_refl.
Defined.

(** A loader that returns [None] runs again on the next call. *)
Example none_is_reloaded :
  (s ← aside_call 1 "k" aside_init; s ← aside_look 1 s; s ← aside_enter 1 s; s ← aside_finish 1 (Return None) s;
   s ← aside_call 2 "k" s; s ← aside_look 2 s; s ← aside_enter 2 s;
   Some (count_events (begun "k") (as_log (s : AsideState nat)))) = Some 2%nat.
Proof. reflexivity. Qed.
