(* ===== verification/RateLimit.v ===== *)
(** * Rate limiting ([application/rate_limit/], [resilience/throttle/],
      [kernel/ddd/policies.py])

    The per-window request counter, the token bucket with its throttle policy, and
    the composable domain policies that consume their results.  Dates are
    microseconds, monotonic times and token counts are rationals. *)
From Stdlib Require Import Qround.
From S2P Require Import Prelude PyString.

(** ** The window counter ([rate_limiter.py], [local.py]) *)

Inductive RateLimitDecision := ALLOWED | DENIED.

Record Quota := mkQuota {
  quota_key : string;
  quota_limit : Z;
  quota_window_seconds : Z;
}.

Definition Quota_window_label (q : Quota) : string :=
  str_of_int (quota_limit q) +:+ " req/" +:+ str_of_int (quota_window_seconds q) +:+ "s".

Record RateLimitResult := mkRLResult {
  rl_decision : RateLimitDecision;
  rl_remaining : Z;
  rl_reset_at : Z;
  rl_quota : Quota;
}.

Definition RateLimitResult_allowed (r : RateLimitResult) : bool :=
  match rl_decision r with ALLOWED => true | DENIED => false end.

(** [max(0.0, (reset_at - now).total_seconds())]. *)
Definition retry_after_seconds (now : Z) (r : RateLimitResult) : Q :=
  py_max 0 (inject_Z (rl_reset_at r - now) / inject_Z 1000000).

(** [_buckets]: key to (count used, window start). *)
Definition Buckets : Type := gmap string (Z * Z).

Definition rl_key (q : Quota) (identifier : string) : string := quota_key q +:+ ":" +:+ identifier.

(** [timedelta(seconds=window_seconds)] in microseconds. *)
Definition window_us (q : Quota) : Z := (quota_window_seconds q * 1000000)%Z.

Definition LocalTokenBucketRateLimiter_check (now : Z) (q : Quota) (identifier : string)
    : PyM Buckets RateLimitResult := λ buckets,
  let key := rl_key q identifier in
  let '(count, window_start) := default (0, now)%Z (buckets !! key) in
  let '(count, window_start) :=
    if (window_us q <=? now - window_start)%Z then (0, now)%Z else (count, window_start) in
  let reset_at := (window_start + window_us q)%Z in
  if (count <? quota_limit q)%Z
  then (Return (mkRLResult ALLOWED (quota_limit q - count - 1) reset_at q),
         <[key := (count + 1, window_start)%Z]> buckets)
  else (Return (mkRLResult DENIED 0 reset_at q), buckets).

Definition LocalTokenBucketRateLimiter_reset (q : Quota) (identifier : string) : PyM Buckets unit :=
  updates (delete (rl_key q identifier)).

(** ** The token bucket ([token_bucket.py]) *)

Record TokenBucket := mkBucket {
  tb_capacity : Q;
  tb_refill_rate : Q;
  tb_tokens : Q;
  tb_last_refill : Q;
}.

(** [__post_init__] at monotonic time [now]. *)
Definition TokenBucket_init (capacity refill_rate now : Q) : TokenBucket :=
  mkBucket capacity refill_rate capacity now.

Definition TokenBucket_refill (now : Q) (b : TokenBucket) : TokenBucket :=
  let elapsed := (now - tb_last_refill b)%Q in
  mkBucket (tb_capacity b) (tb_refill_rate b)
    (py_min (tb_capacity b) (tb_tokens b + elapsed * tb_refill_rate b)) now.

(** [acquire]: one critical section under the bucket's lock. *)
Definition TokenBucket_acquire (now tokens : Q) : PyM TokenBucket bool := λ b,
  let b := TokenBucket_refill now b in
  if Qle_bool tokens (tb_tokens b)
  then (Return true,
         mkBucket (tb_capacity b) (tb_refill_rate b) (tb_tokens b - tokens) (tb_last_refill b))
  else (Return false, b).

(** [retry_after_ms]; [None] is [float("inf")]. *)
Definition TokenBucket_retry_after_ms (tokens : Q) (b : TokenBucket) : option Q :=
  let needed := (tokens - tb_tokens b)%Q in
  if Qle_bool needed 0 then Some 0
  else if Qle_bool (tb_refill_rate b) 0 then None
  else Some (needed / tb_refill_rate b * 1000)%Q.

(** [f"{x:.0f}"]: to the nearest integer, halves to even. *)
Definition round_half_even (x : Q) : Z :=
  let n := Qfloor x in
  let frac := (x - inject_Z n)%Q in
  if Qltb frac (1 # 2) then n
  else if Qltb (1 # 2) frac then (n + 1)%Z
  else if Z.even n then n else (n + 1)%Z.

Definition format_0f (x : option Q) : string :=
  match x with None => "inf" | Some q => str_of_int (round_half_even q) end.

(** The float attribute [retry_after_ms] is not represented. *)
Definition ThrottledError (retry_after_ms : option Q) : pyexn :=
  exn_of ["ThrottledError"]
    ("Rate limit exceeded – retry after " +:+ format_0f retry_after_ms +:+ " ms").

Definition ThrottlePolicy_execute {W A} (monotonic : W → Q) (tokens : Q) (fn : PyM W A)
    : PyM (TokenBucket * W) A :=
  now ← on_snd (reads monotonic);
  ok ← on_fst (TokenBucket_acquire now tokens);
  if negb ok
  then retry_ms ← on_fst (reads (TokenBucket_retry_after_ms tokens));
       raise (ThrottledError retry_ms)
  else on_snd fn.

(** ** Domain policies ([kernel/ddd/policies.py]) *)

Record PolicyResult := mkPolicyResult { pr_allowed : bool; pr_reason : option string }.

Definition permit (reason : option string) : PolicyResult := mkPolicyResult true reason.
Definition deny (reason : string) : PolicyResult := mkPolicyResult false (Some reason).

(** A policy is its [evaluate] method. *)
Definition Policy (C : Type) : Type := C → PolicyResult.

(** The constructors of the composites refuse an empty argument list. *)
Definition composite_init {C} (cls : string) (policies : list (Policy C)) : outcome (list (Policy C)) :=
  match policies with
  | [] => Raise (ValueError (cls +:+ " requires at least one policy"))
  | _ => Return policies
  end.

Fixpoint AllOf_evaluate {C} (policies : list (Policy C)) (c : C) : PolicyResult :=
  match policies with
  | [] => permit None
  | p :: ps => let result := p c in if negb (pr_allowed result) then result else AllOf_evaluate ps c
  end.

Fixpoint AnyOf_loop {C} (policies : list (Policy C)) (c : C) (last_denial : PolicyResult)
    : PolicyResult :=
  match policies with
  | [] => last_denial
  | p :: ps => let result := p c in if pr_allowed result then result else AnyOf_loop ps c result
  end.

Definition AnyOf_evaluate {C} (policies : list (Policy C)) (c : C) : PolicyResult :=
  AnyOf_loop policies c (deny "all policies denied").

(** [f"... {result.reason}"] prints [None] for a missing reason. *)
Fixpoint NoneOf_evaluate {C} (policies : list (Policy C)) (c : C) : PolicyResult :=
  match policies with
  | [] => permit None
  | p :: ps =>
      let result := p c in
      if pr_allowed result
      then deny ("policy was allowed but NoneOf forbids: " +:+ default "None" (pr_reason result))
      else NoneOf_evaluate ps c
  end.

(** [ExpiryPolicy] on a context's timestamp; [isoformat] prints a date. *)
Definition ExpiryPolicy_evaluate (isoformat : Z → string) (not_before not_after : option Z)
    : Policy Z := λ ts,
  let late :=
    match not_after with
    | Some na =>
        if (na <? ts)%Z
        then deny ("timestamp " +:+ isoformat ts +:+ " is after " +:+ isoformat na)
        else permit None
    | None => permit None
    end in
  match not_before with
  | Some nb =>
      if (ts <? nb)%Z
      then deny ("timestamp " +:+ isoformat ts +:+ " is before " +:+ isoformat nb)
      else late
  | None => late
  end.

Definition QuotaPolicy_evaluate (now : Z) : Policy RateLimitResult := λ r,
  if RateLimitResult_allowed r
  then permit (Some ("quota has " +:+ str_of_int (rl_remaining r) +:+
         " request(s) remaining (window: " +:+ Quota_window_label (rl_quota r) +:+ ")"))
  else deny ("quota exceeded for '" +:+ quota_key (rl_quota r) +:+ "'; retry after " +:+
         format_0f (Some (retry_after_seconds now r)) +:+ "s (limit: " +:+
         Quota_window_label (rl_quota r) +:+ ")").

(** ** Lemmas: the window counter *)

(** Checks at the given times, one after the other. *)
Fixpoint run_checks (q : Quota) (identifier : string) (ts : list Z)
    : PyM Buckets (list RateLimitResult) :=
  match ts with
  | [] => mret []
  | t :: ts' =>
      r ← LocalTokenBucketRateLimiter_check t q identifier;
      rs ← run_checks q identifier ts';
      mret (r :: rs)
  end.

(** The answer to the [n]-th request (from 0) of a window that began at [t0]. *)
Definition nth_answer (q : Quota) (t0 : Z) (n : Z) : RateLimitResult :=
  if (n <? quota_limit q)%Z
  then mkRLResult ALLOWED (quota_limit q - n - 1) (t0 + window_us q) q
  else mkRLResult DENIED 0 (t0 + window_us q) q.

(** No window of the key is open at time [t]. *)
Definition no_window (q : Quota) (identifier : string) (t : Z) (b : Buckets) : Prop :=
  match b !! rl_key q identifier with
  | None => True
  | Some (_, start) => (window_us q <= t - start)%Z
  end.

Lemma check_fresh q i t b :
  (0 < quota_limit q)%Z → no_window q i t b →
  LocalTokenBucketRateLimiter_check t q i b =
    (Return (nth_answer q t 0), <[rl_key q i := (1, t)%Z]> b).
Proof.
  intros Hlim Hno. unfold LocalTokenBucketRateLimiter_check, no_window, nth_answer in *.
  destruct (b !! rl_key q i) as [[c start]|]; simpl.
  - rewrite (proj2 (Z.leb_le _ _)) by done. by rewrite (proj2 (Z.ltb_lt _ _)) by done.
  - destruct (_ <=? _)%Z; by rewrite (proj2 (Z.ltb_lt _ _)) by done.
Qed.

Lemma check_open q i t t0 c b :
  (t < t0 + window_us q)%Z → b !! rl_key q i = Some (c, t0) →
  LocalTokenBucketRateLimiter_check t q i b =
    (Return (nth_answer q t0 c),
      if (c <? quota_limit q)%Z then <[rl_key q i := (c + 1, t0)%Z]> b else b).
Proof.
  intros Ht Hb. unfold LocalTokenBucketRateLimiter_check, nth_answer. rewrite Hb. simpl.
  rewrite (proj2 (Z.leb_gt _ _)) by lia. by destruct (_ <? _)%Z.
Qed.

Lemma nth_answer_denied q t0 n m :
  (quota_limit q <= n)%Z → (quota_limit q <= m)%Z → nth_answer q t0 n = nth_answer q t0 m.
Proof. intros. unfold nth_answer. by rewrite !(proj2 (Z.ltb_ge _ _)) by done. Qed.

Lemma run_checks_open q i ts t0 c n b :
  Forall (λ t, (t < t0 + window_us q)%Z) ts → b !! rl_key q i = Some (c, t0) →
  (c = n ∨ quota_limit q <= c ∧ c <= n)%Z →
  ∃ b', run_checks q i ts b =
      (Return (imap (λ k _, nth_answer q t0 (n + Z.of_nat k)) ts), b') ∧
    (∃ c', b' !! rl_key q i = Some (c', t0)) ∧
    ∀ k, k ≠ rl_key q i → b' !! k = b !! k.
Proof.
  intros Hts. revert c n b. induction Hts as [|t ts Ht Hts IH]; intros c n b Hb Hc.
  { exists b. split_and!; eauto. }
  assert (nth_answer q t0 c = nth_answer q t0 n) as Hans
    by (destruct Hc as [-> | [? ?]]; [done | apply nth_answer_denied; lia]).
  simpl run_checks. unfold mbind, PyM_bind. rewrite (check_open q i t t0 c b Ht Hb).
  set (b1 := if (c <? quota_limit q)%Z then _ else _).
  destruct (IH (if (c <? quota_limit q)%Z then (c + 1)%Z else c) (n + 1)%Z b1)
    as (b' & Hrun & Hkey & Hoth).
  - unfold b1. destruct (c <? quota_limit q)%Z; [apply lookup_insert_eq | done].
  - destruct (Z.ltb_spec c (quota_limit q)); lia.
  - rewrite Hrun. exists b'. split; [|split; [done|]].
    + rewrite imap_cons. rewrite Hans, Z.add_0_r. unfold mret, PyM_ret. do 3 f_equal.
      apply imap_ext. intros k x _. simpl. f_equal. lia.
    + intros k Hk. rewrite Hoth by done. unfold b1.
      destruct (c <? quota_limit q)%Z; [apply lookup_insert_ne; congruence | done].
Qed.

(** ** Lemmas: the token bucket *)

Definition bucket_ok (b : TokenBucket) : Prop :=
  (0 <= tb_refill_rate b)%Q ∧ (0 <= tb_tokens b <= tb_capacity b)%Q.

Lemma refill_tokens now b :
  bucket_ok b → (tb_last_refill b <= now)%Q →
  (tb_tokens b <= tb_tokens (TokenBucket_refill now b) <= tb_capacity b)%Q ∧
  (tb_tokens (TokenBucket_refill now b) <=
     tb_tokens b + (now - tb_last_refill b) * tb_refill_rate b)%Q.
Proof.
  intros [Hr Ht] Hnow. unfold TokenBucket_refill. simpl.
  assert (0 <= (now - tb_last_refill b) * tb_refill_rate b)%Q by nra.
  destruct (py_min_spec (tb_capacity b) (tb_tokens b + (now - tb_last_refill b) * tb_refill_rate b))
    as [[-> ?] | [-> ?]]; lra.
Qed.

(** Acquisitions [(time, tokens)] one after the other; the tokens granted. *)
Fixpoint run_acquires (l : list (Q * Q)) (b : TokenBucket) : Q * TokenBucket :=
  match l with
  | [] => (0, b)
  | (now, tokens) :: l' =>
      match TokenBucket_acquire now tokens b with
      | (Return true, b') => let '(g, b'') := run_acquires l' b' in (tokens + g, b'')
      | (_, b') => run_acquires l' b'
      end
  end%Q.

(** The times are in order and nothing negative is asked for. *)
Fixpoint acquires_ok (t : Q) (l : list (Q * Q)) : Prop :=
  match l with
  | [] => True
  | (now, tokens) :: l' => (t <= now)%Q ∧ (0 <= tokens)%Q ∧ acquires_ok now l'
  end.

Definition last_time (t : Q) (l : list (Q * Q)) : Q := default t (fst <$> last l).

Lemma acquire_ok now tokens b :
  bucket_ok b → (tb_last_refill b <= now)%Q → (0 <= tokens)%Q →
  let b' := snd (TokenBucket_acquire now tokens b) in
  bucket_ok b' ∧ tb_last_refill b' = now ∧ tb_refill_rate b' = tb_refill_rate b ∧
  tb_capacity b' = tb_capacity b.
Proof.
  intros Hok Hnow Htok. destruct (refill_tokens now b Hok Hnow) as [Ht _].
  destruct Hok as [Hr Hb]. unfold TokenBucket_acquire.
  destruct (Qle_bool _ _) eqn:E; reflect_tests; unfold bucket_ok; simpl in *; split_and!; try done; lra.
Qed.

Lemma run_acquires_bound l b :
  bucket_ok b → acquires_ok (tb_last_refill b) l →
  (fst (run_acquires l b) + tb_tokens (snd (run_acquires l b)) <=
    tb_tokens b + (last_time (tb_last_refill b) l - tb_last_refill b) * tb_refill_rate b)%Q.
Proof.
  revert b. induction l as [|[now tokens] l IH]; intros b Hok; simpl.
  { intros _. unfold last_time. simpl. lra. }
  intros (Hnow & Htok & Hl). destruct (acquire_ok now tokens b Hok Hnow Htok) as (Hok' & Hlast & Hrate & _).
  destruct (refill_tokens now b Hok Hnow) as [_ Hre].
  assert (last_time (tb_last_refill b) ((now, tokens) :: l) = last_time now l) as ->.
  { unfold last_time. rewrite last_cons. by destruct (last l). }
  unfold TokenBucket_acquire in *. destruct (Qle_bool _ _) eqn:E; simpl in *.
  - specialize (IH _ Hok'). simpl in IH. specialize (IH Hl).
    destruct (run_acquires l _) as [g b'']. simpl in *. lra.
  - specialize (IH _ Hok'). simpl in IH. specialize (IH Hl). lra.
Qed.

Lemma acquires_ok_app t l1 l2 : acquires_ok t (l1 ++ l2) ↔ acquires_ok t l1 ∧ acquires_ok (last_time t l1) l2.
Proof.
  revert t. induction l1 as [|[now tokens] l1 IH]; intros t; simpl; [by unfold last_time; simpl; intuition|].
  rewrite IH. assert (last_time t ((now, tokens) :: l1) = last_time now l1) as ->; [|by intuition].
  unfold last_time. rewrite last_cons. by destruct (last l1).
Qed.

Lemma run_acquires_ok l b :
  bucket_ok b → acquires_ok (tb_last_refill b) l →
  let b' := snd (run_acquires l b) in
  bucket_ok b' ∧ tb_last_refill b' = last_time (tb_last_refill b) l ∧ tb_refill_rate b' = tb_refill_rate b ∧
  tb_capacity b' = tb_capacity b.
Proof.
  revert b. induction l as [|[now tokens] l IH]; intros b Hok; [done|]. cbn [acquires_ok]. intros (Hnow & Htok & Hl).
  destruct (acquire_ok now tokens b Hok Hnow Htok) as (Hok' & Hlast & Hrate & Hcap). rewrite <- Hlast in Hl.
  specialize (IH _ Hok' Hl). rewrite Hlast, Hrate, Hcap in IH.
  assert (last_time (tb_last_refill b) ((now, tokens) :: l) = last_time now l) as ->.
  { unfold last_time. rewrite last_cons. by destruct (last l). }
  unfold run_acquires; fold run_acquires. destruct (TokenBucket_acquire now tokens b) as [[[]|e] b']; simpl in IH |- *; try done.
  by destruct (run_acquires l b').
Qed.

(** From the first call of a stretch on: the refill has left at most the capacity. *)
Lemma run_acquires_burst b t n l :
  bucket_ok b → acquires_ok (tb_last_refill b) ((t, n) :: l) →
  (fst (run_acquires ((t, n) :: l) b) <= tb_capacity b + tb_refill_rate b * (last_time t l - t))%Q.
Proof.
  intros Hok (Hnow & Htok & Hl). destruct (acquire_ok t n b Hok Hnow Htok) as (Hok' & Hlast & Hrate & _).
  destruct (refill_tokens t b Hok Hnow) as [Hre _].
  assert (Hrest : ∀ b', bucket_ok b' → tb_last_refill b' = t →
    (fst (run_acquires l b') <= tb_tokens b' + (last_time t l - t) * tb_refill_rate b')%Q).
  { intros b' Hb' <-. pose proof (run_acquires_bound l b' Hb' Hl) as Hbound.
    destruct (run_acquires_ok l b' Hb' Hl) as ([_ Htok'] & _). lra. }
  specialize (Hrest _ Hok' Hlast). rewrite Hrate in Hrest. cbn [run_acquires].
  unfold TokenBucket_acquire in *. destruct (Qle_bool _ _) eqn:E; simpl in *; [destruct (run_acquires l _); simpl in *|]; lra.
Qed.

(** ** Lemmas: policies *)

#[local] Set Warnings "-register-all".

(** Policies nested to any depth. *)
Inductive policy_expr (C : Type) :=
| Leaf (p : Policy C)
| AllOf (ps : list (policy_expr C))
| AnyOf (ps : list (policy_expr C))
| NoneOf (ps : list (policy_expr C)).
Arguments Leaf {C} p.
Arguments AllOf {C} ps.
Arguments AnyOf {C} ps.
Arguments NoneOf {C} ps.

(** The policy object an expression builds. *)
Fixpoint policy_of {C} (e : policy_expr C) : Policy C :=
  match e with
  | Leaf p => p
  | AllOf ps => AllOf_evaluate (map policy_of ps)
  | AnyOf ps => AnyOf_evaluate (map policy_of ps)
  | NoneOf ps => NoneOf_evaluate (map policy_of ps)
  end.

(** Its meaning as a boolean formula over the leaves. *)
Fixpoint policy_meaning {C} (e : policy_expr C) (c : C) : bool :=
  match e with
  | Leaf p => pr_allowed (p c)
  | AllOf ps => forallb (λ e, policy_meaning e c) ps
  | AnyOf ps => existsb (λ e, policy_meaning e c) ps
  | NoneOf ps => negb (existsb (λ e, policy_meaning e c) ps)
  end.

Section PolicyInduction.
Context {C : Type} (P : policy_expr C → Prop)
  (HLeaf : ∀ p, P (Leaf p)) (HAll : ∀ ps, Forall P ps → P (AllOf ps))
  (HAny : ∀ ps, Forall P ps → P (AnyOf ps)) (HNone : ∀ ps, Forall P ps → P (NoneOf ps)).

Fixpoint policy_expr_ind' (e : policy_expr C) : P e :=
  let list_ind := fix go (l : list (policy_expr C)) : Forall P l :=
    match l with [] => @List.Forall_nil _ P
            | e :: l' => @List.Forall_cons _ P e l' (policy_expr_ind' e) (go l') end in
  match e with
  | Leaf p => HLeaf p
  | AllOf ps => HAll ps (list_ind ps)
  | AnyOf ps => HAny ps (list_ind ps)
  | NoneOf ps => HNone ps (list_ind ps)
  end.
End PolicyInduction.

Lemma AllOf_allowed {C} (ps : list (Policy C)) c :
  pr_allowed (AllOf_evaluate ps c) = forallb (λ p, pr_allowed (p c)) ps.
Proof.
  induction ps as [|p ps IH]; [done|]. simpl.
  destruct (pr_allowed (p c)) eqn:E; simpl; [done | by rewrite E].
Qed.

Lemma AnyOf_allowed {C} (ps : list (Policy C)) c d :
  pr_allowed d = false → pr_allowed (AnyOf_loop ps c d) = existsb (λ p, pr_allowed (p c)) ps.
Proof.
  revert d. induction ps as [|p ps IH]; intros d Hd; [done|]. simpl.
  destruct (pr_allowed (p c)) eqn:E; simpl; [by rewrite E | by apply IH].
Qed.

Lemma NoneOf_allowed {C} (ps : list (Policy C)) c :
  pr_allowed (NoneOf_evaluate ps c) = negb (existsb (λ p, pr_allowed (p c)) ps).
Proof. induction ps as [|p ps IH]; [done|]. simpl. by destruct (pr_allowed (p c)). Qed.

Lemma forallb_map_ext {A B} (f : B → bool) (g : A → bool) (h : A → B) l :
  Forall (λ a, f (h a) = g a) l → forallb f (map h l) = forallb g l ∧ existsb f (map h l) = existsb g l.
Proof. induction 1 as [|a l Ha _ [IH1 IH2]]; [done|]. simpl. by rewrite Ha, IH1, IH2. Qed.

(** ** Properties *)

(** C17: In a window that starts with a request at [t0], whatever the number and
    times of the requests before [t0 + window], exactly the first [limit] are
    ALLOWED, with the remaining count going down to 0, the rest are DENIED, and
    every answer reports the end of this window.  The first request at or after
    that end starts a new window.  Other keys are not affected. *)
Theorem rate_limit_window q i t0 ts b :
  (0 < quota_limit q)%Z → no_window q i t0 b → Forall (λ t, (t < t0 + window_us q)%Z) ts →
  ∃ b', run_checks q i (t0 :: ts) b =
      (Return (imap (λ k _, nth_answer q t0 (Z.of_nat k)) (t0 :: ts)), b') ∧
    (∀ t, (t0 + window_us q <= t)%Z →
       fst (LocalTokenBucketRateLimiter_check t q i b') = Return (nth_answer q t 0)) ∧
    ∀ k, k ≠ rl_key q i → b' !! k = b !! k.
Proof.
  intros Hlim Hno Hts. simpl run_checks. unfold mbind, PyM_bind. rewrite check_fresh by done.
  destruct (run_checks_open q i ts t0 1 1 (<[rl_key q i := (1, t0)%Z]> b) Hts)
    as (b' & Hrun & [c' Hkey] & Hoth); [apply lookup_insert_eq | by left |].
  rewrite Hrun. exists b'. split_and!.
  - rewrite imap_cons. unfold mret, PyM_ret. do 3 f_equal.
    apply imap_ext. intros k x _. simpl. f_equal. lia.
  - intros t Ht. rewrite check_fresh; [done | done |]. unfold no_window. rewrite Hkey. lia.
  - intros k Hk. rewrite Hoth by done. apply lookup_insert_ne. congruence.
Qed.

(** C18: Over any stretch of a run of [acquire] calls, whatever came before it, a token bucket grants at
    most its capacity plus what it refills during the stretch:
    [capacity + refill_rate * elapsed], the time being that from the first to the last call
    of the stretch.  And after the run, a request of at most the capacity is granted as soon as its
    tokens have been refilled since the last call. *)
Theorem token_bucket_rate_bound capacity rate t0 before t n l :
  (0 <= capacity)%Q → (0 <= rate)%Q → acquires_ok t0 (before ++ (t, n) :: l) →
  let b := snd (run_acquires before (TokenBucket_init capacity rate t0)) in
  (fst (run_acquires ((t, n) :: l) b) <= capacity + rate * (last_time t l - t))%Q ∧
  ∀ n', (0 <= n' <= capacity)%Q → (n' <= rate * (t - last_time t0 before))%Q →
    fst (TokenBucket_acquire t n' b) = Return true.
Proof.
  intros Hc Hr Hl b. apply acquires_ok_app in Hl as [Hl1 Hl2].
  destruct (run_acquires_ok before (TokenBucket_init capacity rate t0)) as (Hok & Hlast & Hrate & Hcap); [unfold bucket_ok; simpl; lra | done|].
  fold b in Hok, Hlast, Hrate, Hcap. cbn [TokenBucket_init tb_last_refill tb_refill_rate tb_capacity] in *. rewrite <- Hlast in Hl2. split.
  - rewrite <- Hrate, <- Hcap. by apply run_acquires_burst.
  - intros n' Hn' Hwait. destruct Hl2 as (Hnow & _). rewrite <- Hlast, <- Hrate in Hwait. rewrite <- Hcap in Hn'.
    unfold TokenBucket_acquire, TokenBucket_refill. simpl. destruct Hok as [_ Hb].
    destruct (py_min_spec (tb_capacity b) (tb_tokens b + (t - tb_last_refill b) * tb_refill_rate b)) as [[-> ?]|[-> ?]];
      destruct (Qle_bool _ _) eqn:E; reflect_tests; try done; lra.
Qed.

(** The delay reported after a refused [acquire] is exactly long enough: the
    same request succeeds when that delay has passed and is refused at any moment
    before, provided the bucket is large enough and refills at all. *)
Theorem retry_after_exact b now tokens :
  bucket_ok b → (tb_last_refill b <= now)%Q → (0 < tb_refill_rate b)%Q →
  (tokens <= tb_capacity b)%Q →
  fst (TokenBucket_acquire now tokens b) = Return false →
  let b1 := snd (TokenBucket_acquire now tokens b) in
  ∃ ms, TokenBucket_retry_after_ms tokens b1 = Some ms ∧
    ∀ later, (now <= later)%Q →
      (fst (TokenBucket_acquire later tokens b1) = Return true ↔ (now + ms / 1000 <= later)%Q).
Proof.
  intros Hok Hnow Hrate Hcap. destruct (refill_tokens now b Hok Hnow) as [Ht _]. revert Ht.
  unfold TokenBucket_acquire at 1 2. set (b1 := TokenBucket_refill now b). intros Ht.
  assert (tb_refill_rate b1 = tb_refill_rate b) as Hr1 by done.
  assert (tb_capacity b1 = tb_capacity b) as Hc1 by done.
  assert (tb_last_refill b1 = now) as Hl1 by done. clearbody b1.
  destruct (Qle_bool tokens (tb_tokens b1)) eqn:E; simpl; [done|]. intros _. reflect_tests.
  unfold TokenBucket_retry_after_ms. rewrite Hr1.
  destruct (Qle_bool (tokens - tb_tokens b1) 0) eqn:E1; reflect_tests; [lra|].
  destruct (Qle_bool (tb_refill_rate b) 0) eqn:E2; reflect_tests; [lra|].
  eexists. split; [done|]. intros later Hlater.
  set (r := tb_refill_rate b) in *. set (n := (tokens - tb_tokens b1)%Q) in *.
  assert ((n / r * 1000) / 1000 == n / r)%Q as -> by (field; lra).
  assert (n / r * r == n)%Q as Hmul by (field; lra).
  assert ((now + n / r <= later)%Q ↔ (n <= (later - now) * r)%Q) as ->.
  { split; intros H; [nra|]. apply Qnot_lt_le. intros Hlt. nra. }
  unfold TokenBucket_acquire, TokenBucket_refill. rewrite Hr1, Hc1, Hl1. fold r. simpl.
  assert (tokens <= py_min (tb_capacity b) (tb_tokens b1 + (later - now) * r) ↔
          n <= (later - now) * r)%Q as Hiff.
  { unfold n. destruct (py_min_spec (tb_capacity b) (tb_tokens b1 + (later - now) * r))
      as [[-> ?] | [-> ?]]; split; lra. }
  destruct (Qle_bool tokens _) eqn:E3; reflect_tests; simpl; rewrite <- Hiff; split; try done.
  intros H. lra.
Qed.

(** However composite policies are nested, a context is allowed exactly when
    the boolean formula they spell out (conjunction, disjunction, none) holds of
    the results of the basic policies. *)
Theorem policies_mean_formula {C} (e : policy_expr C) (c : C) :
  pr_allowed (policy_of e c) = policy_meaning e c.
Proof.
  induction e as [p|ps IH|ps IH|ps IH] using policy_expr_ind'; [done|..]; simpl.
  - rewrite AllOf_allowed. by apply (forallb_map_ext (λ p, pr_allowed (p c))).
  - unfold AnyOf_evaluate. rewrite AnyOf_allowed by done.
    by apply (forallb_map_ext (λ p, pr_allowed (p c))).
  - rewrite NoneOf_allowed. f_equal. by apply (forallb_map_ext (λ p, pr_allowed (p c))).
Qed.

(** ** Witnesses *)

Definition quota0 : Quota := mkQuota "api" 2 60.

Lemma rate_limit_window_witness :
  ∃ b', run_checks quota0 "ann" [1000000; 2000000; 3000000]%Z ∅ =
    (Return [mkRLResult ALLOWED 1 61000000 quota0; mkRLResult ALLOWED 0 61000000 quota0;
             mkRLResult DENIED 0 61000000 quota0], b') ∧
    fst (LocalTokenBucketRateLimiter_check 61000000 quota0 "ann" b') =
      Return (mkRLResult ALLOWED 1 121000000 quota0).
Proof.
  destruct (rate_limit_window quota0 "ann" 1000000 [2000000; 3000000]%Z ∅)
    as (b' & Hrun & Hnext & _).
  - reflexivity.
  - exact I.
  - repeat constructor.
  - exists b'. split; [exact Hrun|]. rewrite Hnext; [reflexivity | vm_compute; discriminate].
Defined.

Lemma token_bucket_rate_bound_witness :
  let b := snd (run_acquires [(0, 1); (1, 1)] (TokenBucket_init 4 1 0))%Q in
  (fst (run_acquires [(100, 3); (101, 3); (102, 1)] b) == 4)%Q ∧
  (fst (run_acquires [(100, 3); (101, 3); (102, 1)] b) <= 4 + 1 * (102 - 100))%Q ∧
  fst (TokenBucket_acquire 100 4 b) = Return true.
Proof.
  destruct (token_bucket_rate_bound 4 1 0 [(0, 1); (1, 1)] 100 3 [(101, 3); (102, 1)]%Q) as [H1 H2].
  - vm_compute. discriminate.
  - vm_compute. discriminate.
  - simpl. repeat split; vm_compute; discriminate.
  - split; [vm_compute; reflexivity|]. split; [exact H1|]. apply H2; [split|]; vm_compute; discriminate.
Defined.

Lemma retry_after_exact_witness :
  let b1 := snd (TokenBucket_acquire 1 3 (mkBucket 4 2 0 0)) in
  ∃ ms, TokenBucket_retry_after_ms 3 b1 = Some ms ∧
    ∀ later, (1 <= later)%Q →
      (fst (TokenBucket_acquire later 3 b1) = Return true ↔ (1 + ms / 1000 <= later)%Q).
Proof.
  apply (retry_after_exact (mkBucket 4 2 0 0) 1 3).
  - split; [|split]; vm_compute; discriminate.
  - vm_compute. discriminate.
  - vm_compute. reflexivity.
  - vm_compute. discriminate.
  - vm_compute. reflexivity.
Defined.
