(* ===== verification/Bulkhead.v ===== *)
(** * Concurrency limiters ([resilience/bulkhead/], [resilience/backpressure.py])

    The limiters are built on [asyncio.Semaphore], whose FIFO behaviour is modelled
    first: a permit released while tasks wait is handed to the first of them, which
    resumes (or is cancelled) later.  [Bulkhead] is then a transition system over
    the tasks that enter, wait, resume, leave and are cancelled, in any order. *)
From S2P Require Import Prelude Errors.

(** ** asyncio.Semaphore *)

Definition task : Type := nat.

(** [l.remove(t)], if [t] is there. *)
Fixpoint remove_one (t : task) (l : list task) : option (list task) :=
  match l with
  | [] => None
  | x :: l' => if Nat.eqb x t then Some l' else cons x <$> remove_one t l'
  end.

(** [_value], the pending waiters, and the waiters that have been given a permit
    but have not run yet; both kinds are in [_waiters]. *)
Record Semaphore := mkSem {
  sem_value : nat;
  sem_waiters : list task;
  sem_woken : list task;
}.

Definition Semaphore_init (value : nat) : Semaphore := mkSem value [] [].

Definition Semaphore_locked (s : Semaphore) : bool :=
  match sem_value s, sem_waiters s, sem_woken s with
  | S _, [], [] => false
  | _, _, _ => true
  end.

(** [_wake_up_next]. *)
Definition wake_up_next (s : Semaphore) : Semaphore :=
  match sem_waiters s with
  | [] => s
  | t :: ws => mkSem (sem_value s - 1) ws (sem_woken s ++ [t])
  end.

(** [while self._value > 0: if not self._wake_up_next(): break]. *)
Fixpoint wake_all (value : nat) (waiters woken : list task) : Semaphore :=
  match value, waiters with
  | S v, t :: ws => wake_all v ws (woken ++ [t])
  | _, _ => mkSem value waiters woken
  end.

(** [acquire] up to its first suspension: [true] if the permit was free. *)
Definition Semaphore_acquire (t : task) (s : Semaphore) : bool * Semaphore :=
  if negb (Semaphore_locked s)
  then (true, mkSem (sem_value s - 1) (sem_waiters s) (sem_woken s))
  else (false, mkSem (sem_value s) (sem_waiters s ++ [t]) (sem_woken s)).

Definition Semaphore_release (s : Semaphore) : Semaphore :=
  wake_up_next (mkSem (S (sem_value s)) (sem_waiters s) (sem_woken s)).

(** A woken task runs the rest of [acquire]. *)
Definition Semaphore_resume (t : task) (s : Semaphore) : option Semaphore :=
  woken ← remove_one t (sem_woken s);
  Some (wake_all (sem_value s) (sem_waiters s) woken).

(** A task suspended in [acquire] is cancelled: a pending waiter leaves the queue,
    a woken one gives its permit back. *)
Definition Semaphore_cancel (t : task) (s : Semaphore) : option Semaphore :=
  match remove_one t (sem_waiters s) with
  | Some ws => Some (wake_all (sem_value s) ws (sem_woken s))
  | None =>
      woken ← remove_one t (sem_woken s);
      Some (wake_all (S (sem_value s)) (sem_waiters s) woken)
  end.

(** ** QueueLimiter and Bulkhead

    No task ever waits on the [_queue] semaphore, because [__aenter__] looks at its
    value first: its value is all that matters.  [ql_inside] are the tasks in the
    body of the [async with]. *)
Record QueueLimiter := mkQL {
  ql_semaphore : Semaphore;
  ql_queue : nat;
  ql_inside : list task;
}.

Definition QueueLimiter_init (max_concurrent max_queue : nat) : QueueLimiter :=
  mkQL (Semaphore_init max_concurrent) (max_concurrent + max_queue) [].

(** [__aenter__] of task [t] up to its first suspension. *)
Definition QueueLimiter_aenter (t : task) : PyM QueueLimiter unit := λ q,
  match ql_queue q with
  | O => (Raise (BulkheadFullError "Queue is full"), q)
  | S n =>
      let '(free, s) := Semaphore_acquire t (ql_semaphore q) in
      (Return tt, mkQL s n (if free then t :: ql_inside q else ql_inside q))
  end.

(** The rest of [__aenter__] of a woken task. *)
Definition QueueLimiter_resume (t : task) (q : QueueLimiter) : option QueueLimiter :=
  s ← Semaphore_resume t (ql_semaphore q);
  Some (mkQL s (ql_queue q) (t :: ql_inside q)).

(** [__aexit__]. *)
Definition QueueLimiter_aexit (t : task) (q : QueueLimiter) : option QueueLimiter :=
  inside ← remove_one t (ql_inside q);
  Some (mkQL (Semaphore_release (ql_semaphore q)) (S (ql_queue q)) inside).

(** Cancellation inside [__aenter__]: [__aexit__] does not run, so the slot of
    [_queue] is not given back. *)
Definition QueueLimiter_cancel (t : task) (q : QueueLimiter) : option QueueLimiter :=
  s ← Semaphore_cancel t (ql_semaphore q);
  Some (mkQL s (ql_queue q) (ql_inside q)).

(** [Bulkhead] delegates to its limiter. *)
Definition Bulkhead_init (name : string) (max_concurrent max_queue : nat) : string * QueueLimiter :=
  (name, QueueLimiter_init max_concurrent max_queue).
Definition Bulkhead_aenter (t : task) : PyM (string * QueueLimiter) unit :=
  on_snd (QueueLimiter_aenter t).
Definition Bulkhead_aexit (t : task) (b : string * QueueLimiter) : option (string * QueueLimiter) :=
  q ← QueueLimiter_aexit t (snd b); Some (fst b, q).

(** ** ConcurrencyLimiter *)

(** [__aenter__]: [asyncio.wait_for(acquire(), timeout=0.01)].  [freed] says whether
    a permit reaches the task before the timeout; [acquire] never returns a false
    value, so a task that gets none leaves with the builtin [TimeoutError]. *)
Definition ConcurrencyLimiter_aenter (freed : bool) : PyM nat unit := λ value,
  match value with
  | S v => (Return tt, v)
  | O => if freed then (Return tt, O) else (Raise BuiltinTimeoutError, O)
  end.

Definition ConcurrencyLimiter_aexit : PyM nat unit := updates S.

(** ** BackpressurePolicy *)

Definition BackpressureError (in_flight max_in_flight : Z) : pyexn :=
  PyExn ["BackpressureError"; "Exception"; "BaseException"]
    ("Backpressure limit reached: " +:+ str_of_int in_flight +:+ "/" +:+ str_of_int max_in_flight
       +:+ " slots in use")
    [("in_flight", str_of_int in_flight); ("max_in_flight", str_of_int max_in_flight)] [].

Record BackpressurePolicy := mkBP { bp_max : Z; bp_semaphore : nat }.

Definition BackpressurePolicy_init (max_in_flight : Z) : outcome BackpressurePolicy :=
  if (max_in_flight <? 1)%Z
  then Raise (ValueError ("max_in_flight must be >= 1, got " +:+ str_of_int max_in_flight))
  else Return (mkBP max_in_flight (Z.to_nat max_in_flight)).

Definition bp_in_flight (p : BackpressurePolicy) : Z := (bp_max p - Z.of_nat (bp_semaphore p))%Z.
Definition bp_utilization (p : BackpressurePolicy) : Q := (inject_Z (bp_in_flight p) / inject_Z (bp_max p))%Q.
Definition bp_is_overloaded (p : BackpressurePolicy) : bool := Nat.eqb (bp_semaphore p) 0.

(** [__aenter__]: nobody ever waits, so the value is the whole semaphore. *)
Definition BackpressurePolicy_aenter : PyM BackpressurePolicy unit := λ p,
  match bp_semaphore p with
  | O => (Raise (BackpressureError (bp_in_flight p) (bp_max p)), p)
  | S v => (Return tt, mkBP (bp_max p) v)
  end.

Definition BackpressurePolicy_aexit : PyM BackpressurePolicy unit :=
  updates (λ p, mkBP (bp_max p) (S (bp_semaphore p))).

(** [asyncio.wait_for(coro, timeout=0)] on a coroutine: the task made for it is
    cancelled before its first step and the caller gets [TimeoutError]. *)
Definition wait_for_zero {S A : Type} (coro : PyM S A) : PyM S A := raise BuiltinTimeoutError.

(** [async with policy.acquire(): body]. *)
Definition BackpressurePolicy_acquire {A} (body : PyM BackpressurePolicy A)
    : PyM BackpressurePolicy A := λ p,
  match bp_semaphore p with
  | O => (Raise (BackpressureError (bp_in_flight p) (bp_max p)), p)
  | S _ =>
      (wait_for_zero BackpressurePolicy_aenter ;;
       try_finally body BackpressurePolicy_aexit) p
  end.

(** ** Lemmas *)

Lemma remove_one_length t l k : remove_one t l = Some k → length l = S (length k).
Proof.
  revert k. induction l as [|x l IH]; intros k; simpl; [done|].
  destruct (Nat.eqb x t); [by intros [= <-]|].
  destruct (remove_one t l) as [k'|]; [|done]. intros [= <-]. simpl. by rewrite (IH k').
Qed.

(** Permits: free, or given to a woken task. *)
Definition sem_permits (s : Semaphore) : nat := sem_value s + length (sem_woken s).
(** Tasks suspended in [acquire]. *)
Definition sem_suspended (s : Semaphore) : nat := length (sem_waiters s) + length (sem_woken s).

Lemma wake_all_counts v ws wk :
  sem_permits (wake_all v ws wk) = (v + length wk)%nat ∧
  sem_suspended (wake_all v ws wk) = (length ws + length wk)%nat.
Proof.
  revert ws wk. induction v as [|v IH]; intros [|t ws] wk; try done.
  simpl. destruct (IH ws (wk ++ [t])) as [-> ->]. rewrite length_app. simpl. lia.
Qed.

Lemma release_counts s :
  sem_permits (Semaphore_release s) = S (sem_permits s) ∧
  sem_suspended (Semaphore_release s) = sem_suspended s.
Proof.
  unfold Semaphore_release, wake_up_next, sem_permits, sem_suspended. simpl.
  destruct (sem_waiters s); simpl; [done|]. rewrite length_app. simpl. lia.
Qed.

Lemma acquire_counts t s free s' :
  Semaphore_acquire t s = (free, s') →
  if free then sem_permits s = S (sem_permits s') ∧ sem_suspended s' = sem_suspended s
  else sem_permits s' = sem_permits s ∧ sem_suspended s' = S (sem_suspended s).
Proof.
  unfold Semaphore_acquire, Semaphore_locked, sem_permits, sem_suspended.
  destruct (sem_value s) as [|v] eqn:Hv, (sem_waiters s) eqn:Hw, (sem_woken s) eqn:Hk; simpl;
    intros [= <- <-]; simpl; rewrite ?length_app; simpl; lia.
Qed.

Lemma resume_counts t s s' :
  Semaphore_resume t s = Some s' →
  sem_permits s = S (sem_permits s') ∧ sem_suspended s = S (sem_suspended s').
Proof.
  unfold Semaphore_resume. destruct (remove_one t _) as [wk|] eqn:E; simpl; [|done].
  intros [= <-]. apply remove_one_length in E. destruct (wake_all_counts (sem_value s) (sem_waiters s) wk)
    as [-> ->]. unfold sem_permits, sem_suspended. lia.
Qed.

Lemma cancel_counts t s s' :
  Semaphore_cancel t s = Some s' →
  sem_permits s = sem_permits s' ∧ sem_suspended s = S (sem_suspended s').
Proof.
  unfold Semaphore_cancel. destruct (remove_one t (sem_waiters s)) as [ws|] eqn:E.
  - intros [= <-]. apply remove_one_length in E.
    destruct (wake_all_counts (sem_value s) ws (sem_woken s)) as [-> ->].
    unfold sem_permits, sem_suspended. lia.
  - destruct (remove_one t (sem_woken s)) as [wk|] eqn:E'; simpl; [|done]. intros [= <-].
    apply remove_one_length in E'.
    destruct (wake_all_counts (S (sem_value s)) (sem_waiters s) wk) as [H1 H2]. simpl in H1, H2.
    rewrite H1, H2. unfold sem_permits, sem_suspended. lia.
Qed.

(** What a task can do to a bulkhead; [reach n q]: the bulkhead is in state [q]
    after some of these, of which [n] were cancellations inside [__aenter__]. *)
Inductive reach (mc mq : nat) : nat → QueueLimiter → Prop :=
| reach_init : reach mc mq 0 (QueueLimiter_init mc mq)
| reach_enter n q t : reach mc mq n q → reach mc mq n (snd (QueueLimiter_aenter t q))
| reach_resume n q t q' : reach mc mq n q → QueueLimiter_resume t q = Some q' → reach mc mq n q'
| reach_exit n q t q' : reach mc mq n q → QueueLimiter_aexit t q = Some q' → reach mc mq n q'
| reach_cancel n q t q' : reach mc mq n q → QueueLimiter_cancel t q = Some q' → reach mc mq (S n) q'.

(** Every permit is free, on its way, or inside; every slot of the queue is free,
    taken by a task, or lost to a cancellation. *)
Definition limiter_inv (mc mq n : nat) (q : QueueLimiter) : Prop :=
  (sem_permits (ql_semaphore q) + length (ql_inside q) = mc)%nat ∧
  (ql_queue q + sem_suspended (ql_semaphore q) + length (ql_inside q) + n = mc + mq)%nat.

Lemma reach_inv mc mq n q : reach mc mq n q → limiter_inv mc mq n q.
Proof.
  induction 1 as [|n q t _ [IH1 IH2]|n q t q' _ [IH1 IH2] Hs|n q t q' _ [IH1 IH2] Hs
    |n q t q' _ [IH1 IH2] Hs]; unfold limiter_inv.
  - unfold sem_permits, sem_suspended. simpl. lia.
  - unfold QueueLimiter_aenter. destruct (ql_queue q) as [|k] eqn:Hk; [simpl; lia|].
    destruct (Semaphore_acquire t (ql_semaphore q)) as [free s] eqn:E. simpl.
    pose proof (acquire_counts _ _ _ _ E). destruct free; simpl; lia.
  - unfold QueueLimiter_resume in Hs. destruct (Semaphore_resume _ _) as [s|] eqn:E; [|done].
    injection Hs as <-. pose proof (resume_counts _ _ _ E). simpl. lia.
  - unfold QueueLimiter_aexit in Hs. destruct (remove_one _ _) as [l|] eqn:E; [|done].
    injection Hs as <-. apply remove_one_length in E.
    pose proof (release_counts (ql_semaphore q)). simpl. lia.
  - unfold QueueLimiter_cancel in Hs. destruct (Semaphore_cancel _ _) as [s|] eqn:E; [|done].
    injection Hs as <-. pose proof (cancel_counts _ _ _ E). simpl. lia.
Qed.

(** ** Properties *)

(** C19: Under every interleaving of tasks entering, waiting, resuming, leaving and
    being cancelled, at most [max_concurrent] tasks are inside the bulkhead, and a
    task is turned away exactly when the tasks inside and waiting have reached
    [max_concurrent + max_queue] less the number of tasks that were cancelled
    while entering: each such cancellation loses a slot for good. *)
Theorem bulkhead_limits mc mq n q t :
  reach mc mq n q →
  (length (ql_inside q) <= mc)%nat ∧
  (length (ql_inside q) + sem_suspended (ql_semaphore q) + n <= mc + mq)%nat ∧
  (fst (QueueLimiter_aenter t q) = Raise (BulkheadFullError "Queue is full") ↔
   length (ql_inside q) + sem_suspended (ql_semaphore q) + n = mc + mq)%nat.
Proof.
  intros [H1 H2]%reach_inv. split_and!; [lia | lia |]. unfold QueueLimiter_aenter.
  destruct (ql_queue q) as [|k]; [split; [lia | done]|].
  destruct (Semaphore_acquire t _). simpl. split; [done | lia].
Qed.

(** [async with policy.acquire()] never runs its body: the call raises
    [BackpressureError] when the policy is overloaded and [TimeoutError] otherwise,
    and leaves the policy as it was. *)
Theorem backpressure_acquire_never_enters {A} (body : PyM BackpressurePolicy A) p :
  BackpressurePolicy_acquire body p =
    (Raise (if bp_is_overloaded p then BackpressureError (bp_in_flight p) (bp_max p)
            else BuiltinTimeoutError), p).
Proof.
  unfold BackpressurePolicy_acquire, bp_is_overloaded. by destruct (bp_semaphore p).
Qed.

(** ** Witnesses *)

(** Two places and a queue of one: three cancellations while entering leave a
    bulkhead that is empty and refuses everybody. *)
Definition bulkhead_run : option QueueLimiter :=
  let enter (t : task) q := snd (QueueLimiter_aenter t q) in
  q ← QueueLimiter_aexit 1%nat (enter 3 (enter 2 (enter 1 (QueueLimiter_init 2 1))))%nat;
  q ← QueueLimiter_aexit 2%nat q;
  q ← QueueLimiter_cancel 3%nat (enter 5 (enter 4 q))%nat;
  q ← QueueLimiter_cancel 5%nat q;
  (QueueLimiter_cancel 4 q)%nat.

Lemma bulkhead_limits_witness :
  ∃ q, bulkhead_run = Some q ∧ ql_inside q = [] ∧ sem_suspended (ql_semaphore q) = 0%nat ∧
    fst (QueueLimiter_aenter 6%nat q) = Raise (BulkheadFullError "Queue is full").
Proof.
  eexists. split; [vm_compute; reflexivity|]. split; [reflexivity|]. split; [reflexivity|].
  apply (bulkhead_limits 2 1 3)%nat; [|reflexivity].
  refine (reach_cancel 2 1 2 _ 4 _ (reach_cancel 2 1 1 _ 5 _ (reach_cancel 2 1 0 _ 3 _
    (reach_enter 2 1 0 _ 5 (reach_enter 2 1 0 _ 4 (reach_exit 2 1 0 _ 2 _ (reach_exit 2 1 0 _ 1 _
      (reach_enter 2 1 0 _ 3 (reach_enter 2 1 0 _ 2 (reach_enter 2 1 0 _ 1 (reach_init 2 1))))
      _) _))) _) _) _)%nat; vm_compute; reflexivity.
Defined.
