(* ===== verification/Lifecycle.v ===== *)
(** * Fallbacks, deadlines, hedging, shutdown and dead letters
      ([resilience/fallback/], [resilience/timeouts/deadline.py],
      [resilience/deadline/], [resilience/hedge/], [resilience/graceful_shutdown.py],
      [resilience/dead_letter_scheduler.py]) *)
From S2P Require Import Prelude Errors.

(** ** Fallbacks ([fallback/policy.py]) *)
Section Fallback.
Context {W A : Type}.

(** [fallback] is a value or a callable. *)
Inductive FallbackValue := FValue (v : A) | FCall (f : PyM W A).

Definition run_fallback (f : FallbackValue) : PyM W A :=
  match f with FValue v => mret v | FCall f => f end.

Definition FallbackPolicy_execute (fallback : FallbackValue) (on_exceptions : list string)
    (fn : PyM W A) : PyM W A :=
  try_base fn (λ exc,
    if isinstance_any exc on_exceptions then run_fallback fallback else raise exc).

(** [CachedFallbackPolicy]: the state is the last successful result. *)
Definition CachedFallbackPolicy_execute (fallback : FallbackValue) (on_exceptions : list string)
    (fn : PyM W A) : PyM (option A * W) A :=
  try_base
    (result ← on_snd fn;
     on_fst (updates (λ _, Some result)) ;;
     mret result)
    (λ exc,
      if isinstance_any exc on_exceptions then
        last ← on_fst (reads id);
        match last with
        | Some v => mret v
        | None => on_snd (run_fallback fallback)
        end
      else raise exc).

Definition CachedFallbackPolicy_has_cached (last : option A) : bool := bool_decide (is_Some last).
Definition CachedFallbackPolicy_cached_value (last : option A) : outcome A :=
  match last with Some v => Return v | None => Raise (ValueError "No cached value available") end.

End Fallback.
Arguments FallbackValue : clear implicits.

(** ** Deadlines ([timeouts/deadline.py], [deadline/context.py]); microseconds *)

Definition Deadline_after (now seconds_us : Z) : Z := (now + seconds_us)%Z.
Definition Deadline_remaining_seconds (now expires_at : Z) : Q :=
  py_max 0 (inject_Z (expires_at - now) / inject_Z 1000000).
Definition Deadline_is_expired (now expires_at : Z) : bool := (expires_at <=? now)%Z.
Definition Deadline_raise_if_expired (now expires_at : Z) : outcome unit :=
  if Deadline_is_expired now expires_at then Raise (AppTimeoutError "Deadline exceeded") else Return tt.

Definition DeadlineExceededError (msg : string) : pyexn := exn_of ["DeadlineExceededError"] msg.

(** The context variable holds the active deadline. *)
Definition DeadlineContext_set (d : Z) : PyM (option Z) (option Z) := λ v, (Return v, Some d).
Definition DeadlineContext_get : PyM (option Z) (option Z) := reads id.
Definition DeadlineContext_reset (token : option Z) : PyM (option Z) unit := updates (λ _, token).
Definition DeadlineContext_raise_if_exceeded (now : Z) : PyM (option Z) unit := λ v,
  match v with
  | Some d => if Deadline_is_expired now d then (Raise (DeadlineExceededError "Deadline exceeded"), v)
              else (Return tt, v)
  | None => (Return tt, v)
  end.
Definition DeadlineContext_scoped {W A} (d : Z) (body : PyM (option Z * W) A) : PyM (option Z * W) A :=
  token ← on_fst (DeadlineContext_set d);
  try_finally body (on_fst (DeadlineContext_reset token)).

(** ** Hedged requests ([hedge/policy.py])

    The queue delivers the ends of the [1 + max_hedges] runs in some order; the
    loop takes them until the first success. *)
Section Hedge.
Context {A : Type}.

Record HedgeResult := mkHedge { hr_value : A; hr_winner_index : nat; hr_latency_ms : Q }.

Fixpoint hedge_loop (total : nat) (queue : list (nat * outcome A)) (latency : Q)
    (errors : list pyexn) : HedgeResult + list pyexn :=
  match total, queue with
  | S total', (idx, o) :: queue' =>
      match o with
      | Return v => inl (mkHedge v idx latency)
      | Raise exc => hedge_loop total' queue' latency (errors ++ [exc])
      end
  | _, _ => inr errors
  end.

Definition HedgePolicy_execute (max_hedges : nat) (queue : list (nat * outcome A)) (latency : Q)
    : outcome HedgeResult :=
  match hedge_loop (1 + max_hedges) queue latency [] with
  | inl winner => Return winner
  | inr (e :: _) => Raise e
  | inr [] => Raise (IndexError "list index out of range")
  end.

End Hedge.
Arguments HedgeResult : clear implicits.

(** ** Graceful shutdown ([graceful_shutdown.py]) *)
Section Shutdown.
Context {W : Type}.

(** A hook: synchronous, or a coroutine that can be timed out. *)
Inductive Hook := SyncHook (f : PyM W unit) | AsyncHook (f : PyM W unit).

(** [loop.time()], and [asyncio.wait_for] on a hook's coroutine. *)
Context (loop_time : W → Q) (wait_for : PyM W unit → Q → PyM W unit).

Record GracefulShutdown := mkShutdown {
  gs_drain_timeout : Q;
  gs_hooks : list Hook;
  gs_event : bool;
  gs_triggered_by : option string;
}.

Definition GracefulShutdown_init (drain_timeout : Q) : GracefulShutdown :=
  mkShutdown drain_timeout [] false None.

Definition GracefulShutdown_register (h : Hook) (g : GracefulShutdown) : GracefulShutdown :=
  mkShutdown (gs_drain_timeout g) (gs_hooks g ++ [h]) (gs_event g) (gs_triggered_by g).

Definition GracefulShutdown_handle_signal (sig : string) (g : GracefulShutdown) : GracefulShutdown :=
  if gs_event g then g
  else mkShutdown (gs_drain_timeout g) (gs_hooks g) true (Some sig).

Definition GracefulShutdown_trigger (g : GracefulShutdown) : GracefulShutdown :=
  if gs_event g then g
  else mkShutdown (gs_drain_timeout g) (gs_hooks g) true (gs_triggered_by g).

(** One hook within the time that remains; [TimeoutError] and every other
    [Exception] are logged and dropped. *)
Definition run_hook (h : Hook) (remaining : Q) : PyM W unit :=
  try_except (match h with SyncHook f => f | AsyncHook f => wait_for f remaining end)
    (λ _, mret tt).

(** The [for hook in hooks] loop. *)
Fixpoint run_hooks_loop (deadline : Q) (hooks : list Hook) : PyM W unit :=
  match hooks with
  | [] => mret tt
  | h :: hooks' =>
      t ← reads loop_time;
      let remaining := (deadline - t)%Q in
      if Qle_bool remaining 0 then mret tt
      else run_hook h remaining ;; run_hooks_loop deadline hooks'
  end.

Definition GracefulShutdown_run_hooks (g : GracefulShutdown) : PyM W unit :=
  match rev (gs_hooks g) with
  | [] => mret tt
  | hooks =>
      t ← reads loop_time;
      run_hooks_loop (t + gs_drain_timeout g) hooks
  end.

End Shutdown.
Arguments Hook : clear implicits.

(** ** Replaying dead letters ([dead_letter_scheduler.py]) *)

Record DeadLetterEntry := mkEntry {
  dl_id : string;
  dl_message_id : string;
  dl_topic : string;
  dl_payload : string;
  dl_headers : gmap string string;
  dl_reason : string;
  dl_failed_at : Z;
  dl_retry_count : Z;
  dl_replayed : bool;
}.

Section DeadLetters.
Context {W : Type}.
(** The store's [list] and [replay], and [asyncio.sleep]. *)
Context (store_list : Z → PyM W (list DeadLetterEntry)) (store_replay : string → PyM W unit)
  (sleep : Q → PyM W unit).

Record DeadLetterReplayScheduler := mkDLR {
  dlr_interval : Q;
  dlr_max_retries : Z;
  dlr_backoff_base : Q;
  dlr_max_backoff : Q;
  dlr_batch_size : Z;
}.

Definition DeadLetterReplayScheduler_init (interval_repr : string) (interval_seconds : Q)
    (max_retries : Z) (backoff_base max_backoff_seconds : Q) (batch_size : Z)
    : outcome DeadLetterReplayScheduler :=
  if Qle_bool interval_seconds 0
  then Raise (ValueError ("interval_seconds must be positive, got " +:+ interval_repr))
  else if (max_retries <? 0)%Z
  then Raise (ValueError ("max_retries must be ≥ 0, got " +:+ str_of_int max_retries))
  else Return (mkDLR interval_seconds max_retries backoff_base max_backoff_seconds batch_size).

(** The entries a cycle replays. *)
Definition eligible (s : DeadLetterReplayScheduler) (e : DeadLetterEntry) : bool :=
  negb (dl_replayed e) && negb (dlr_max_retries s <=? dl_retry_count e)%Z.

(** [min(backoff_base ** retry_count, max_backoff)], for retry counts whose power is
    within the range of a float. *)
Definition dl_backoff (s : DeadLetterReplayScheduler) (e : DeadLetterEntry) : Q :=
  py_min (dlr_backoff_base s ^ dl_retry_count e)%Q (dlr_max_backoff s).

(** The [for entry in entries] loop of [_replay_batch]. *)
Fixpoint replay_loop (s : DeadLetterReplayScheduler) (entries : list DeadLetterEntry) (replayed : Z)
    : PyM W Z :=
  match entries with
  | [] => mret replayed
  | e :: entries' =>
      if dl_replayed e then replay_loop s entries' replayed
      else if (dlr_max_retries s <=? dl_retry_count e)%Z then replay_loop s entries' replayed
      else
        let backoff := dl_backoff s e in
        (if Qltb 0 backoff then sleep backoff else mret tt) ;;
        ok ← try_except (store_replay (dl_id e) ;; mret 1%Z) (λ _, mret 0%Z);
        replay_loop s entries' (replayed + ok)
  end.

Definition replay_batch (s : DeadLetterReplayScheduler) : PyM W Z :=
  entries ← store_list (dlr_batch_size s);
  replay_loop s entries 0.

End DeadLetters.

(** ** Lemmas *)

(** While time remains, every registered hook runs, last registered first, and an
    exception of one does not keep the others from running: with hooks that end in
    an exception or not but take no time, the hooks log in reverse order. *)
Lemma run_hooks_lifo (names : list string) (fails : string → bool) (timeout : Q) (log : list string) :
  (0 < timeout)%Q →
  let hook name := SyncHook (W := list string)
    (updates (λ l, l ++ [name]) ;; if fails name then raise (ValueError name) else mret tt) in
  let g := fold_left (λ g n, GracefulShutdown_register (hook n) g) names
             (GracefulShutdown_init timeout) in
  GracefulShutdown_run_hooks (λ _, 0%Q) (λ f _, f) g log = (Return tt, log ++ rev names).
Proof.
  intros Ht hook g.
  assert (gs_hooks g = map hook names ∧ gs_drain_timeout g = timeout) as [Hg Htm].
  { unfold g. clear g. assert (∀ g0, gs_hooks (fold_left (λ g n, GracefulShutdown_register (hook n) g)
      names g0) = gs_hooks g0 ++ map hook names ∧
      gs_drain_timeout (fold_left (λ g n, GracefulShutdown_register (hook n) g) names g0) =
      gs_drain_timeout g0) as H; [|exact (H (GracefulShutdown_init timeout))].
    induction names as [|n names IH]; intros g0; simpl; [by rewrite app_nil_r|].
    destruct (IH (GracefulShutdown_register (hook n) g0)) as [-> ->]. simpl.
    by rewrite <- app_assoc. }
  assert (∀ d l log, (0 < d)%Q → run_hooks_loop (λ _, 0%Q) (λ f _, f) d (map hook l) log =
    (Return tt, log ++ l)) as Hloop.
  { clear. intros d l log Hd. revert log. induction l as [|n l IH]; intros log; simpl.
    - by rewrite app_nil_r.
    - unfold mbind, PyM_bind, reads. destruct (Qle_bool (d - 0) 0) eqn:E; [reflect_tests; lra|].
      unfold run_hook, try_except, try_base, hook. simpl. unfold mbind, PyM_bind, updates.
      destruct (fails n); simpl; rewrite IH, <- app_assoc; done. }
  unfold GracefulShutdown_run_hooks. rewrite Hg, <- map_rev, Htm.
  destruct (rev names) as [|n l] eqn:Hrev; [by rewrite app_nil_r|].
  exact (Hloop (0 + timeout)%Q (n :: l) log ltac:(lra)).
Qed.

(** One cycle attempts to replay exactly the entries that have not been replayed
    and have retries left, in order, whether or not attempts fail, and returns the
    number of attempts that succeeded. *)
Lemma replay_batch_spec (s : DeadLetterReplayScheduler) (entries : list DeadLetterEntry)
    (fails : string → bool) (log : list string) :
  let store_replay id := updates (λ l, l ++ [id]) ;;
    if fails id then raise (ValueError id) else mret tt in
  replay_batch (λ n, mret (take (Z.to_nat n) entries)) store_replay (λ _, mret tt) s log =
    let attempted := List.filter (eligible s) (take (Z.to_nat (dlr_batch_size s)) entries) in
    (Return (Z.of_nat (length (List.filter (λ e, negb (fails (dl_id e))) attempted))),
      log ++ map dl_id attempted).
Proof.
  intros store_replay. unfold replay_batch, mbind, PyM_bind. simpl.
  generalize (take (Z.to_nat (dlr_batch_size s)) entries) as l.
  assert (∀ l n log, replay_loop store_replay (λ _, mret tt) s l n log =
    (Return (n + Z.of_nat (length (List.filter (λ e, negb (fails (dl_id e)))
       (List.filter (eligible s) l))))%Z, log ++ map dl_id (List.filter (eligible s) l))) as Hloop;
    [|intros l; apply Hloop].
  clear log. induction l as [|e l IH]; intros n log; simpl.
  { rewrite app_nil_r, Z.add_0_r. done. }
  change (eligible s e) with (negb (dl_replayed e) && negb (dlr_max_retries s <=? dl_retry_count e)%Z).
  destruct (dl_replayed e); simpl; [apply IH|].
  destruct (dlr_max_retries s <=? dl_retry_count e)%Z; simpl; [apply IH|].
  assert ((if Qltb 0 (dl_backoff s e) then mret tt else mret tt : PyM (list string) unit) log =
    (Return tt, log)) as Hsleep by (by destruct (Qltb _ _)).
  unfold mbind, PyM_bind. rewrite Hsleep. unfold try_except, try_base, store_replay, mbind, PyM_bind.
  simpl. destruct (fails (dl_id e)); simpl; rewrite IH, <- app_assoc; simpl; do 2 f_equal; lia.
Qed.
