(* ===== verification/Saga.v ===== *)
(** * The saga orchestrator ([application/saga/])

    Steps act on the shared context and on the rest of the world; either method of
    a step may raise.  The store is a port: [SagaStore] is its interface, and
    [InMemorySagaStore] (in [store.py]) and a logging store are the
    implementations used below. *)
From S2P Require Import Prelude.

Inductive SagaState := RUNNING | COMPLETED | COMPENSATING | COMPENSATION_FAILED | FAILED.

#[export] Instance SagaState_eq_dec : EqDecision SagaState.
Proof. solve_decision. Defined.

(** ** The context: a dictionary shared by the steps *)

Section Context_.
Context {V : Type}.

Definition SagaContext_init (initial : option (gmap string V)) : gmap string V :=
  default ∅ initial.
Definition SagaContext_set (key : string) (value : V) (ctx : gmap string V) : gmap string V :=
  <[key := value]> ctx.
Definition SagaContext_get (key : string) (dflt : option V) (ctx : gmap string V) : option V :=
  match ctx !! key with Some v => Some v | None => dflt end.
Definition SagaContext_contains (key : string) (ctx : gmap string V) : bool :=
  bool_decide (is_Some (ctx !! key)).
Definition SagaContext_snapshot (ctx : gmap string V) : gmap string V := ctx.
Definition SagaContext_from_snapshot (data : gmap string V) : gmap string V :=
  SagaContext_init (Some data).

End Context_.

(** ** Store *)

Record SagaRecord (V : Type) := mkSagaRecord {
  sr_saga_id : string;
  sr_state : SagaState;
  sr_step_index : nat;
  sr_ctx_snapshot : gmap string V;
}.
Arguments mkSagaRecord {V} _ _ _ _.
Arguments sr_saga_id {V} _.
Arguments sr_state {V} _.
Arguments sr_step_index {V} _.
Arguments sr_ctx_snapshot {V} _.

(** The port: [save] and [load] on a store of type [T]. *)
Class SagaStore (V T : Type) := {
  save : string → SagaState → nat → gmap string V → PyM T unit;
  load : string → PyM T (option (SagaRecord V));
}.

(** [InMemorySagaStore]. *)
Definition InMemorySagaStore_save {V} (saga_id : string) (state : SagaState) (step_index : nat)
    (ctx_snapshot : gmap string V) : PyM (gmap string (SagaRecord V)) unit :=
  updates (insert saga_id (mkSagaRecord saga_id state step_index ctx_snapshot)).

Definition InMemorySagaStore_load {V} (saga_id : string)
    : PyM (gmap string (SagaRecord V)) (option (SagaRecord V)) :=
  reads (lookup saga_id).

Definition InMemorySagaStore (V : Type) : SagaStore V (gmap string (SagaRecord V)) := {|
  save := InMemorySagaStore_save;
  load := InMemorySagaStore_load;
|}.

(** ** Steps and errors *)

Record SagaStep (S : Type) := mkStep {
  step_name : string;
  step_action : PyM S unit;
  step_compensate : PyM S unit;
}.
Arguments mkStep {S} _ _ _.
Arguments step_name {S} _.
Arguments step_action {S} _.
Arguments step_compensate {S} _.

Definition saga_error (mro : list string) (saga_id failed_step : string)
    (causes : list pyexn) : pyexn :=
  PyExn (mro ++ ["SagaError"; "Exception"; "BaseException"])
    ("Saga '" +:+ saga_id +:+ "' failed at step '" +:+ failed_step +:+ "'")
    [("saga_id", saga_id); ("failed_step", failed_step)] causes.

Definition SagaFailedError (saga_id failed_step : string) (cause : pyexn) : pyexn :=
  saga_error ["SagaFailedError"] saga_id failed_step [cause].

Definition SagaCompensationFailedError (saga_id failed_step : string)
    (action_error compensation_error : pyexn) : pyexn :=
  saga_error ["SagaCompensationFailedError"] saga_id failed_step
    [action_error; compensation_error].

(** ** The orchestrator *)

Record SagaOrchestrator (V T W : Type) := mkOrchestrator {
  so_steps : list (SagaStep (gmap string V * (T * W)));
  so_store : option (SagaStore V T);
}.
Arguments mkOrchestrator {V T W} _ _.
Arguments so_steps {V T W} _.
Arguments so_store {V T W} _.

(** [SagaOrchestrator.__init__]. *)
Definition SagaOrchestrator_init {V T W} (steps : list (SagaStep (gmap string V * (T * W))))
    (store : option (SagaStore V T)) : outcome (SagaOrchestrator V T W) :=
  match steps with
  | [] => Raise (ValueError "SagaOrchestrator requires at least one step")
  | _ => Return (mkOrchestrator steps store)
  end.

Section Orchestrator.
Context {V T W : Type} (so : SagaOrchestrator V T W).

(** State: the context, the store, the rest of the world. *)
Let St : Type := (gmap string V * (T * W))%type.

(** [_persist]. *)
Definition persist (saga_id : string) (state : SagaState) (step_index : nat) : PyM St unit :=
  λ '(ctx, (t, w)),
  match so_store so with
  | None => (Return tt, (ctx, (t, w)))
  | Some store =>
      let '(o, t') := @save _ _ store saga_id state step_index (SagaContext_snapshot ctx) t in
      (o, (ctx, (t', w)))
  end.

(** The loop of [_compensate] over the remaining indices, most recent first. *)
Fixpoint compensate_loop (indices : list nat) (first_error : option pyexn)
    : PyM St (option pyexn) :=
  match indices with
  | [] => mret first_error
  | idx :: rest =>
      match so_steps so !! idx with
      | None => raise (IndexError "list index out of range")
      | Some step => λ s,
          match step_compensate step s with
          | (Return _, s') => compensate_loop rest first_error s'
          | (Raise exc, s') =>
              if is_Exception exc then
                compensate_loop rest
                  (match first_error with None => Some exc | Some e => Some e end) s'
              else (Raise exc, s')
          end
      end
  end.

(** [_compensate]. *)
Definition compensate (completed : list nat) : PyM St (option pyexn) :=
  compensate_loop (rev completed) None.

(** The [except Exception as action_exc] clause of [run]. *)
Definition fail_saga (saga_id : string) (step : SagaStep St) (idx : nat)
    (completed : list nat) (action_exc : pyexn) : PyM St unit :=
  persist saga_id COMPENSATING idx ;;
  compensation_exc ← compensate completed;
  match compensation_exc with
  | Some ce =>
      persist saga_id COMPENSATION_FAILED idx ;;
      raise (SagaCompensationFailedError saga_id (step_name step) action_exc ce)
  | None =>
      persist saga_id FAILED idx ;;
      raise (SagaFailedError saga_id (step_name step) action_exc)
  end.

(** The forward pass of [run] over the steps that remain; the [try] block covers
    the action and the save that follows it, and the step counts as completed as
    soon as its action has returned. *)
Fixpoint forward (saga_id : string) (rest : list (SagaStep St)) (idx : nat)
    (completed : list nat) : PyM St unit :=
  match rest with
  | [] => mret tt
  | step :: rest' => λ s,
      match step_action step s with
      | (Raise exc, s1) =>
          if is_Exception exc then fail_saga saga_id step idx completed exc s1
          else (Raise exc, s1)
      | (Return _, s1) =>
          match persist saga_id RUNNING (S idx) s1 with
          | (Raise exc, s2) =>
              if is_Exception exc then fail_saga saga_id step idx (completed ++ [idx]) exc s2
              else (Raise exc, s2)
          | (Return _, s2) => forward saga_id rest' (S idx) (completed ++ [idx]) s2
          end
      end
  end.

(** [run]: the final context, and the store and world it leaves. *)
Definition SagaOrchestrator_run (saga_id : string) (initial : option (gmap string V))
    : PyM (T * W) (gmap string V) := λ tw,
  let '(o, (ctx, tw')) :=
    (persist saga_id RUNNING 0 ;;
     forward saga_id (so_steps so) 0 [] ;;
     persist saga_id COMPLETED (length (so_steps so)))
      (SagaContext_init initial, tw) in
  match o with
  | Return _ => (Return ctx, tw')
  | Raise e => (Raise e, tw')
  end.

End Orchestrator.

(** ** Reference semantics

    Steps over the context and the world alone, run without an orchestrator. *)
Section Reference.
Context {V W : Type}.
Let S0 : Type := (gmap string V * W)%type.

(** All actions in order. *)
Definition run_actions (steps : list (SagaStep S0)) : PyM S0 unit :=
  for_each steps step_action.

(** All compensations in the given order, each one run; the errors they raised. *)
Fixpoint run_compensations (steps : list (SagaStep S0)) (s : S0) : list pyexn * S0 :=
  match steps with
  | [] => ([], s)
  | st :: rest =>
      match step_compensate st s with
      | (Return _, s') => run_compensations rest s'
      | (Raise e, s') => let '(es, s'') := run_compensations rest s' in (e :: es, s'')
      end
  end.

(** A step that leaves the saga store alone. *)
Definition lift_method {T : Type} (m : PyM S0 unit) : PyM (gmap string V * (T * W)) unit :=
  λ '(ctx, (t, w)), let '(o, (ctx', w')) := m (ctx, w) in (o, (ctx', (t, w'))).

Definition lift_step {T : Type} (st : SagaStep S0) : SagaStep (gmap string V * (T * W)) :=
  mkStep (step_name st) (lift_method (step_action st)) (lift_method (step_compensate st)).

(** Compensations raise only [Exception]s (no cancellation). *)
Definition compensations_tame (steps : list (SagaStep S0)) : Prop :=
  Forall (λ st, ∀ s e s', step_compensate st s = (Raise e, s') → is_Exception e = true) steps.

End Reference.

(** ** Lemmas *)
Section Lemmas.
Context {V W : Type} (sid : string).
Implicit Types (t : gmap string (SagaRecord V)) (c : gmap string V) (w : W).

Definition in_memory (steps : list (SagaStep (gmap string V * W)))
    : SagaOrchestrator V (gmap string (SagaRecord V)) W :=
  mkOrchestrator (lift_step <$> steps) (Some (InMemorySagaStore V)).

(** Only the saga's own record differs. *)
Definition same_others t t' : Prop := ∀ sid', sid' ≠ sid → t' !! sid' = t !! sid'.

Lemma persist_in_memory all state idx c t w :
  persist (in_memory all) sid state idx (c, (t, w)) =
    (Return tt, (c, (<[sid := mkSagaRecord sid state idx c]> t, w))).
Proof. done. Qed.

Lemma same_others_insert t t' r : same_others t t' → same_others t (<[sid := r]> t').
Proof. intros H sid' Hne. rewrite lookup_insert_ne by done. by apply H. Qed.

Lemma forward_success all rest idx done_ c w c' w' t :
  run_actions rest (c, w) = (Return tt, (c', w')) →
  ∃ t', forward (in_memory all) sid (lift_step <$> rest) idx done_ (c, (t, w)) =
      (Return tt, (c', (t', w'))) ∧ same_others t t'.
Proof.
  revert idx done_ c w t. induction rest as [|st rest IH]; intros idx done_ c w t Hrun.
  - injection Hrun as <- <-. by exists t.
  - unfold run_actions in Hrun; simpl in Hrun. unfold mbind, PyM_bind in Hrun.
    destruct (step_action st (c, w)) as [[u|e] [c1 w1]] eqn:Hact; [|done].
    cbn [fmap list_fmap forward lift_step step_action]. unfold lift_method. rewrite Hact.
    rewrite persist_in_memory.
    destruct (IH (S idx) (done_ ++ [idx]) c1 w1 (<[sid := mkSagaRecord sid RUNNING (S idx) c1]> t))
      as (t' & Hf & Ho); [exact Hrun|].
    exists t'. split; [exact Hf|]. intros sid' Hne. rewrite Ho by done.
    by rewrite lookup_insert_ne.
Qed.

Lemma forward_failure all pre st post idx done_ c w c1 w1 c2 w2 e t :
  run_actions pre (c, w) = (Return tt, (c1, w1)) →
  step_action st (c1, w1) = (Raise e, (c2, w2)) → is_Exception e = true →
  ∃ t', forward (in_memory all) sid (lift_step <$> pre ++ st :: post) idx done_ (c, (t, w)) =
      fail_saga (in_memory all) sid (lift_step st) (idx + length pre)
        (done_ ++ seq idx (length pre)) e (c2, (t', w2)) ∧ same_others t t'.
Proof.
  intros Hrun Hact He. revert idx done_ c w t Hrun.
  induction pre as [|st0 pre IH]; intros idx done_ c w t Hrun.
  - injection Hrun as -> ->. exists t. split; [|done].
    cbn [app fmap list_fmap forward lift_step step_action]. unfold lift_method.
    rewrite Hact, He. simpl. by rewrite app_nil_r, Nat.add_0_r.
  - unfold run_actions in Hrun; simpl in Hrun. unfold mbind, PyM_bind in Hrun.
    destruct (step_action st0 (c, w)) as [[u|e0] [c0 w0]] eqn:Hact0; [|done].
    cbn [app fmap list_fmap forward lift_step step_action]. unfold lift_method.
    rewrite Hact0, persist_in_memory.
    destruct (IH (S idx) (done_ ++ [idx]) c0 w0 (<[sid := mkSagaRecord sid RUNNING (S idx) c0]> t))
      as (t' & Hf & Ho); [exact Hrun|].
    exists t'. split.
    + etransitivity; [exact Hf|]. simpl. rewrite <- app_assoc; simpl.
      by rewrite <- plus_n_Sm.
    + intros sid' Hne. rewrite Ho by done. by rewrite lookup_insert_ne.
Qed.

(** Each compensation runs, in the order of the indices, and the first error wins. *)
Lemma compensate_loop_spec all indices sts fe c w t errs c' w' :
  Forall2 (λ i st, all !! i = Some st) indices sts →
  compensations_tame sts →
  run_compensations sts (c, w) = (errs, (c', w')) →
  compensate_loop (in_memory all) indices fe (c, (t, w)) =
    (Return (match fe with Some e => Some e | None => head errs end), (c', (t, w'))).
Proof.
  intros Hidx. revert fe c w errs. induction Hidx as [|i st indices sts Hi _ IH];
    intros fe c w errs Htame Hrun.
  - injection Hrun as <- <- <-. by destruct fe.
  - apply Forall_cons in Htame as [Hst Htame]. cbn [compensate_loop in_memory so_steps].
    rewrite list_lookup_fmap, Hi; simpl. unfold lift_method.
    simpl in Hrun. destruct (step_compensate st (c, w)) as [[u|e] [c1 w1]] eqn:Hc.
    + by apply IH.
    + rewrite (Hst _ _ _ Hc).
      destruct (run_compensations sts (c1, w1)) as [es [c2 w2]] eqn:Hes.
      injection Hrun as <- <- <-. erewrite IH by done. by destruct fe.
Qed.

Lemma seq_steps (pre post : list (SagaStep (gmap string V * W))) :
  Forall2 (λ i st, (pre ++ post) !! i = Some st) (rev (seq 0 (length pre))) (rev pre).
Proof.
  revert post. induction pre as [|st pre IH] using rev_ind; intros post; [constructor|].
  rewrite length_app; simpl. rewrite Nat.add_1_r, seq_S, !rev_unit, <- app_assoc; simpl.
  constructor; [by apply list_lookup_middle | apply IH].
Qed.

Lemma fail_saga_spec all st idx completed sts e c w t errs c' w' :
  Forall2 (λ i st, all !! i = Some st) (rev completed) sts →
  compensations_tame sts →
  run_compensations sts (c, w) = (errs, (c', w')) →
  ∃ t', fail_saga (in_memory all) sid (lift_step st) idx completed e (c, (t, w)) =
      (Raise (match errs with
              | [] => SagaFailedError sid (step_name st) e
              | ce :: _ => SagaCompensationFailedError sid (step_name st) e ce
              end),
        (c', (<[sid := mkSagaRecord sid (match errs with [] => FAILED | _ => COMPENSATION_FAILED end)
                 idx c']> t', w'))) ∧ same_others t t'.
Proof.
  intros Hidx Htame Hrun. unfold fail_saga, mbind, PyM_bind. rewrite persist_in_memory.
  unfold compensate. rewrite (compensate_loop_spec all _ sts None c w _ errs c' w') by done.
  exists (<[sid := mkSagaRecord sid COMPENSATING idx c]> t).
  split; [by destruct errs | by apply same_others_insert].
Qed.

Lemma run_unfold all initial t w :
  SagaOrchestrator_run (in_memory all) sid initial (t, w) =
  match forward (in_memory all) sid (lift_step <$> all) 0 []
      (default ∅ initial, (<[sid := mkSagaRecord sid RUNNING 0 (default ∅ initial)]> t, w)) with
  | (Return _, (c', (t', w'))) =>
      (Return c', (<[sid := mkSagaRecord sid COMPLETED (length all) c']> t', w'))
  | (Raise e, (c', (t', w'))) => (Raise e, (t', w'))
  end.
Proof.
  unfold SagaOrchestrator_run, mbind, PyM_bind, SagaContext_init.
  rewrite persist_in_memory. simpl so_steps.
  destruct (forward _ _ _ _ _ _) as [[u|e] [c' [t' w']]]; [|done].
  rewrite persist_in_memory, length_fmap. done.
Qed.

End Lemmas.

(** ** The life cycle of a saga record *)

(** A store that keeps every saved state and index. *)
Definition log_store (V : Type) : SagaStore V (list (SagaState * nat)) := {|
  save _ state idx _ := updates (λ l, l ++ [(state, idx)]);
  load _ := mret None;
|}.

(** The transitions of a record of a saga of [n] steps. *)
Inductive saga_next (n : nat) : SagaState * nat → SagaState * nat → Prop :=
| next_step i : (i < n)%nat → saga_next n (RUNNING, i) (RUNNING, S i)
| next_compensate i : (i < n)%nat → saga_next n (RUNNING, i) (COMPENSATING, i)
| next_failed i : saga_next n (COMPENSATING, i) (FAILED, i)
| next_compensation_failed i : saga_next n (COMPENSATING, i) (COMPENSATION_FAILED, i)
| next_completed : saga_next n (RUNNING, n) (COMPLETED, n).

Fixpoint saga_path (n : nat) (x : SagaState * nat) (l : list (SagaState * nat)) : Prop :=
  match l with
  | [] => True
  | y :: l' => saga_next n x y ∧ saga_path n y l'
  end.

(** How a run that leaves the record at [y] may end. *)
Definition ends_with {A} (o : outcome A) (y : SagaState * nat) : Prop :=
  match o with
  | Return _ => y.1 = COMPLETED
  | Raise e => is_Exception e = true → y.1 = FAILED ∨ y.1 = COMPENSATION_FAILED
  end.

Section Lifecycle.
Context {V W : Type} (sid : string) (steps : list (SagaStep (gmap string V * W))).
Let so : SagaOrchestrator V (list (SagaState * nat)) W :=
  mkOrchestrator (lift_step <$> steps) (Some (log_store V)).

Lemma compensate_loop_log indices fe c l w :
  Forall (λ i, (i < length steps)%nat) indices →
  ∃ o c' w', compensate_loop so indices fe (c, (l, w)) = (o, (c', (l, w'))) ∧
    match o with Return _ => True | Raise e => is_Exception e = false end.
Proof.
  intros Hidx. revert fe c w. induction Hidx as [|i indices Hi _ IH]; intros fe c w.
  - by eexists (Return fe), c, w.
  - cbn [compensate_loop so so_steps]. rewrite list_lookup_fmap.
    destruct (lookup_lt_is_Some_2 steps i Hi) as [st ->]. simpl. unfold lift_method.
    destruct (step_compensate st (c, w)) as [[u|e] [c1 w1]]; [apply IH|].
    destruct (is_Exception e) eqn:He; [apply IH|]. by eexists (Raise e), c1, w1.
Qed.

Lemma fail_saga_log st idx completed e c l w :
  Forall (λ i, (i < length steps)%nat) completed → (idx < length steps)%nat →
  ∃ o c' w' l', fail_saga so sid (lift_step st) idx completed e (c, (l, w)) =
      (o, (c', (l ++ (COMPENSATING, idx) :: l', w'))) ∧
    saga_path (length steps) (COMPENSATING, idx) l' ∧
    ends_with o (default (COMPENSATING, idx) (last l')) ∧
    match o with Return _ => False | Raise _ => True end.
Proof.
  intros Hc Hi. unfold fail_saga, mbind, PyM_bind, persist; simpl.
  unfold compensate.
  destruct (compensate_loop_log (rev completed) None c (l ++ [(COMPENSATING, idx)]) w)
    as (o & c' & w' & -> & Ho); [by apply Forall_rev|].
  destruct o as [[ce|]|e0]; simpl.
  - eexists _, c', w', [(COMPENSATION_FAILED, idx)]. split; [by rewrite <- app_assoc|].
    split_and!; [by repeat constructor | intros _; by right | done].
  - eexists _, c', w', [(FAILED, idx)]. split; [by rewrite <- app_assoc|].
    split_and!; [by repeat constructor | intros _; by left | done].
  - exists (Raise e0), c', w', []. split_and!; try done. intros He. by rewrite Ho in He.
Qed.

Lemma forward_log rest idx c l w :
  (idx + length rest = length steps)%nat →
  ∃ o c' w' l', forward so sid (lift_step <$> rest) idx (seq 0 idx) (c, (l, w)) =
      (o, (c', (l ++ l', w'))) ∧
    saga_path (length steps) (RUNNING, idx) l' ∧
    match o with
    | Return _ => last ((RUNNING, idx) :: l') = Some (RUNNING, length steps)
    | Raise e => ends_with o (default (RUNNING, idx) (last l'))
    end.
Proof.
  revert idx c l w. induction rest as [|st rest IH]; intros idx c l w Hlen; simpl in Hlen.
  - exists (Return tt), c, w, []. rewrite app_nil_r.
    split_and!; [done | done | simpl; do 2 f_equal; lia].
  - cbn [fmap list_fmap forward lift_step step_action]. unfold lift_method.
    destruct (step_action st (c, w)) as [[u|e] [c1 w1]].
    + unfold persist at 1; simpl.
      replace (seq 0 idx ++ [idx]) with (seq 0 (S idx)) by (by rewrite seq_S).
      destruct (IH (S idx) c1 (l ++ [(RUNNING, S idx)]) w1) as (o & c' & w' & l' & Hf & Hp & Ho);
        [lia|].
      exists o, c', w', ((RUNNING, S idx) :: l'). rewrite <- app_assoc in Hf. split; [exact Hf|].
      split; [split; [constructor; lia | done]|]. destruct o; [done|].
      by rewrite default_last_cons.
    + destruct (is_Exception e) eqn:He.
      * destruct (fail_saga_log st idx (seq 0 idx) e c1 l w1)
          as (o & c' & w' & l' & Hf & Hp & Ho & Hr); [| lia |].
        { apply Forall_forall. intros i Hi%list_elem_of_In%in_seq. lia. }
        exists o, c', w', ((COMPENSATING, idx) :: l'). split; [exact Hf|].
        split; [split; [constructor; lia | done]|]. destruct o; [done|].
        by rewrite default_last_cons.
      * exists (Raise e), c1, w1, []. rewrite app_nil_r. split_and!; try done.
        simpl. congruence.
Qed.

End Lifecycle.

(** ** Properties *)

(** when every action succeeds, [run] executes the actions in order, runs no
    compensation, returns the context they built, and leaves the saga's record as
    COMPLETED after all steps with that context; records of other sagas are
    untouched. *)
Theorem saga_success {V W} sid initial (steps : list (SagaStep (gmap string V * W)))
    (t : gmap string (SagaRecord V)) (w w' : W) ctx :
  run_actions steps (default ∅ initial, w) = (Return tt, (ctx, w')) →
  ∃ t', SagaOrchestrator_run (in_memory steps) sid initial (t, w) = (Return ctx, (t', w')) ∧
    t' !! sid = Some (mkSagaRecord sid COMPLETED (length steps) ctx) ∧
    same_others sid t t'.
Proof.
  intros Hrun. rewrite run_unfold.
  destruct (forward_success sid steps steps 0 [] (default ∅ initial) w ctx w'
    (<[sid := mkSagaRecord sid RUNNING 0 (default ∅ initial)]> t)) as (t' & -> & Ho); [done|].
  eexists. split; [done|]. split; [apply lookup_insert_eq|].
  apply same_others_insert. intros sid' Hne. rewrite Ho by done. by rewrite lookup_insert_ne.
Qed.

(** A saga over a log: each method records its name and ends as told. *)
Definition log_step (name : string) (act comp : outcome unit)
    : SagaStep (gmap string nat * list string) :=
  mkStep name (λ '(c, w), (act, (<[name := length w]> c, w ++ ["do " +:+ name])))
    (λ '(c, w), (comp, (c, w ++ ["undo " +:+ name]))).

Lemma saga_success_witness :
  let steps := [log_step "a" (Return tt) (Return tt); log_step "b" (Return tt) (Return tt)] in
  ∃ t', SagaOrchestrator_run (in_memory steps) "s1" None (∅, []) =
    (Return {["b" := 1%nat; "a" := 0%nat]}, (t', ["do a"; "do b"])).
Proof.
  intros steps. destruct (saga_success "s1" None steps ∅ [] ["do a"; "do b"]
    {["b" := 1%nat; "a" := 0%nat]}) as (t' & H & _); [reflexivity|]. by exists t'.
Defined.

(** C9: when a step's action raises after the steps [pre] before it succeeded, the
    compensations of exactly [pre] run, in reverse order and each of them even if
    an earlier one fails; the steps after it never run.  [run] raises
    [SagaFailedError] carrying the cause when all compensations succeed, and
    [SagaCompensationFailedError] carrying the first compensation error otherwise,
    and the saga's record is left FAILED, respectively COMPENSATION_FAILED, at the
    failed step with the final context. *)
Theorem saga_failure_compensates {V W} sid initial
    (pre : list (SagaStep (gmap string V * W))) st post
    (t : gmap string (SagaRecord V)) (w w1 w2 w3 : W) ctx1 ctx2 ctx3 e errs :
  run_actions pre (default ∅ initial, w) = (Return tt, (ctx1, w1)) →
  step_action st (ctx1, w1) = (Raise e, (ctx2, w2)) →
  is_Exception e = true →
  compensations_tame pre →
  run_compensations (rev pre) (ctx2, w2) = (errs, (ctx3, w3)) →
  ∃ t', SagaOrchestrator_run (in_memory (pre ++ st :: post)) sid initial (t, w) =
      (Raise (match errs with
              | [] => SagaFailedError sid (step_name st) e
              | ce :: _ => SagaCompensationFailedError sid (step_name st) e ce
              end), (t', w3)) ∧
    t' !! sid = Some (mkSagaRecord sid
      (match errs with [] => FAILED | _ => COMPENSATION_FAILED end) (length pre) ctx3) ∧
    same_others sid t t'.
Proof.
  intros Hpre Hact He Htame Hcomp. rewrite run_unfold.
  destruct (forward_failure sid (pre ++ st :: post) pre st post 0 [] (default ∅ initial) w
    ctx1 w1 ctx2 w2 e (<[sid := mkSagaRecord sid RUNNING 0 (default ∅ initial)]> t))
    as (t1 & -> & Ho1); [done..|].
  destruct (fail_saga_spec sid (pre ++ st :: post) st (0 + length pre) ([] ++ seq 0 (length pre))
    (rev pre) e ctx2 w2 t1 errs ctx3 w3) as (t2 & -> & Ho2); [apply seq_steps | | done |].
  { unfold compensations_tame. by apply Forall_rev. }
  eexists. split; [done|]. split; [apply lookup_insert_eq|].
  apply same_others_insert. intros sid' Hne. rewrite Ho2, Ho1 by done.
  by rewrite lookup_insert_ne.
Qed.

Lemma saga_failure_compensates_witness :
  let a := log_step "a" (Return tt) (Return tt) in
  let b := log_step "b" (Return tt) (Raise (ValueError "undo")) in
  let c := log_step "c" (Raise (ValueError "boom")) (Return tt) in
  let d := log_step "d" (Return tt) (Return tt) in
  ∃ t', SagaOrchestrator_run (in_memory [a; b; c; d]) "s1" None (∅, []) =
    (Raise (SagaCompensationFailedError "s1" "c" (ValueError "boom") (ValueError "undo")),
      (t', ["do a"; "do b"; "do c"; "undo b"; "undo a"])).
Proof.
  intros a b c d. set (ctx1 := {["b" := 1%nat; "a" := 0%nat]} : gmap string nat).
  set (ctx2 := <["c" := 2%nat]> ctx1).
  destruct (saga_failure_compensates "s1" None [a; b] c [d] ∅ []
    ["do a"; "do b"] ["do a"; "do b"; "do c"] ["do a"; "do b"; "do c"; "undo b"; "undo a"]
    ctx1 ctx2 ctx2 (ValueError "boom") [ValueError "undo"]) as (t' & H & _).
  - reflexivity.
  - reflexivity.
  - reflexivity.
  - repeat constructor; intros [??] e s'; simpl; intros [= <- <-]; reflexivity.
  - reflexivity.
  - exists t'. exact H.
Defined.

(** C10: whatever the steps do, the states saved for a saga follow its life cycle:
    RUNNING with the index growing by one per completed step, then either
    COMPLETED after the last step, or COMPENSATING and one of FAILED and
    COMPENSATION_FAILED at the failed step.  A run that returns ends in COMPLETED,
    and one that raises an [Exception] ends in FAILED or COMPENSATION_FAILED. *)
Theorem saga_lifecycle {V W} sid initial (steps : list (SagaStep (gmap string V * W))) (w : W) :
  ∃ o w' l,
    SagaOrchestrator_run (mkOrchestrator (lift_step <$> steps) (Some (log_store V)))
      sid initial ([], w) = (o, ((RUNNING, 0%nat) :: l, w')) ∧
    saga_path (length steps) (RUNNING, 0%nat) l ∧
    ends_with o (default (RUNNING, 0%nat) (last l)).
Proof.
  unfold SagaOrchestrator_run, mbind, PyM_bind.
  replace (persist _ sid RUNNING 0 _) with
    (Return tt, (SagaContext_init initial, ([(RUNNING, 0%nat)], w))) by done.
  destruct (forward_log sid steps steps 0 (SagaContext_init initial) [(RUNNING, 0%nat)] w)
    as (o & c' & w' & l & Hf & Hp & Ho); [done|].
  cbn [so_steps]. change (seq 0 0) with (@nil nat) in Hf. rewrite Hf.
  destruct o as [u|e].
  - exists (Return c'), w', (l ++ [(COMPLETED, length steps)]). simpl. rewrite length_fmap.
    split_and!; [done | | by rewrite last_snoc].
    clear Hf. revert Hp Ho. generalize (RUNNING, 0%nat) as x. induction l as [|y l IH]; intros x Hp Ho.
    + simpl in *. injection Ho as ->. split; [constructor | done].
    + destruct Hp as [Hn Hp]. split; [done|]. by apply IH.
  - exists (Raise e), w', l. by split_and!.
Qed.
