(* ===== verification/EventSourcing.v ===== *)
(** * Event sourcing ([application/event_sourcing/], [kernel/ddd/aggregate.py])

    Aggregates with pending events, the append-only event store with optimistic
    concurrency, and the repository that replays and appends.  The repository is
    written and verified against the interface [EventStore]/[EventStoreSpec];
    [InMemoryEventStore] implements it. *)
From S2P Require Import Prelude OrderedDict.

Section Data.
Context (P M : Type).

(** A domain event: [type(self).__name__], its id, its time and its own fields. *)
Record DomainEvent := mkDomainEvent {
  de_event_type : string;
  de_event_id : string;
  de_occurred_at : Z;
  de_fields : P;
}.

Record StoredEvent := mkStored {
  se_stream_id : string;
  se_version : Z;
  se_event_type : string;
  se_payload : string;
  se_metadata : M;
  se_occurred_at : Z;
}.

(** An aggregate root: identity, version, pending events, and the state of the
    concrete subclass. *)
Record AggregateRoot (S : Type) := mkAgg {
  agg_id : string;
  agg_version : Z;
  agg_events : list DomainEvent;
  agg_state : S;
}.

End Data.
Arguments mkDomainEvent {P} _ _ _ _.
Arguments de_event_type {P} _.
Arguments de_event_id {P} _.
Arguments de_occurred_at {P} _.
Arguments de_fields {P} _.
Arguments mkStored {M} _ _ _ _ _ _.
Arguments se_stream_id {M} _.
Arguments se_version {M} _.
Arguments se_event_type {M} _.
Arguments se_payload {M} _.
Arguments se_metadata {M} _.
Arguments se_occurred_at {M} _.
Arguments mkAgg {P S} _ _ _ _.
Arguments agg_id {P S} _.
Arguments agg_version {P S} _.
Arguments agg_events {P S} _.
Arguments agg_state {P S} _.

(** ** Aggregates *)
Section Aggregate.
Context {P S : Type}.
Implicit Types (a : AggregateRoot P S).

Definition AggregateRoot_init (id : string) (s : S) : AggregateRoot P S := mkAgg id 0 [] s.

(** [_raise_event]. *)
Definition raise_event (e : DomainEvent P) a : AggregateRoot P S :=
  mkAgg (agg_id a) (agg_version a + 1) (agg_events a ++ [e]) (agg_state a).

(** [pull_events]: the pending events, and the aggregate without them. *)
Definition pull_events a : list (DomainEvent P) * AggregateRoot P S :=
  (agg_events a, mkAgg (agg_id a) (agg_version a) [] (agg_state a)).

End Aggregate.

(** ** The event store port *)

Definition OptimisticConcurrencyError (stream_id : string) (expected actual : Z) : pyexn :=
  PyExn ["OptimisticConcurrencyError"; "Exception"; "BaseException"]
    ("Concurrency conflict on stream '" +:+ stream_id +:+ "': expected version "
      +:+ str_of_int expected +:+ ", found " +:+ str_of_int actual)
    [("stream_id", stream_id); ("expected", str_of_int expected); ("actual", str_of_int actual)] [].

Class EventStore (M T : Type) := {
  es_append : string → list (StoredEvent M) → Z → PyM T unit;
  es_load : string → Z → PyM T (list (StoredEvent M));
}.

(** Events of a stream that continue it after its [n]-th. *)
Definition numbered {M} (sid : string) (n : Z) (events : list (StoredEvent M)) : Prop :=
  ∀ j e, events !! j = Some e → se_version e = (n + Z.of_nat j + 1)%Z ∧ se_stream_id e = sid.

(** What a store promises: a stream per id; an [append] of events numbered after the
    expected version extends one stream when that is its length and raises otherwise,
    leaving every stream as it was; [load] returns the events after a version, in order.
    [es_ok] is the store's own invariant. *)
Class EventStoreSpec (M T : Type) `{EventStore M T} := {
  es_stream : string → T → list (StoredEvent M);
  es_ok : T → Prop;
  es_append_ok sid events n t :
    es_ok t → n = Z.of_nat (length (es_stream sid t)) → events ≠ [] → numbered sid n events →
    ∃ t', es_append sid events n t = (Return tt, t') ∧ es_ok t' ∧
      es_stream sid t' = es_stream sid t ++ events ∧
      ∀ sid', sid' ≠ sid → es_stream sid' t' = es_stream sid' t;
  es_append_conflict sid events n t :
    es_ok t → n ≠ Z.of_nat (length (es_stream sid t)) → events ≠ [] →
    ∃ t', es_append sid events n t =
        (Raise (OptimisticConcurrencyError sid n (Z.of_nat (length (es_stream sid t)))), t') ∧ es_ok t' ∧
      ∀ sid', es_stream sid' t' = es_stream sid' t;
  es_load_spec sid from_version t :
    es_ok t →
    es_load sid from_version t =
      (Return (filter (λ e, (from_version < se_version e)%Z) (es_stream sid t)), t);
}.

(** ** The in-memory store *)
Section InMemory.
Context {M : Type}.
Let Streams : Type := list (string * list (StoredEvent M)).
Implicit Types (t : Streams).

(** [append]: [setdefault] creates the stream before the version is checked. *)
Definition InMemoryEventStore_append (stream_id : string) (events : list (StoredEvent M))
    (expected_version : Z) : PyM Streams unit := λ t,
  let stream := default [] (od_get stream_id t) in
  let t1 := if od_mem stream_id t then t else od_set stream_id [] t in
  let actual_version := Z.of_nat (length stream) in
  if (actual_version =? expected_version)%Z
  then (Return tt, od_set stream_id (stream ++ events) t1)
  else (Raise (OptimisticConcurrencyError stream_id expected_version actual_version), t1).

Definition InMemoryEventStore_load (stream_id : string) (from_version : Z)
    : PyM Streams (list (StoredEvent M)) := λ t,
  (Return (filter (λ e, (from_version < se_version e)%Z) (default [] (od_get stream_id t))), t).

Definition InMemoryEventStore_stream_version (stream_id : string) t : Z :=
  Z.of_nat (length (default [] (od_get stream_id t))).

Definition InMemoryEventStore_all_events (stream_id : option string) t : list (StoredEvent M) :=
  match stream_id with
  | Some sid => default [] (od_get sid t)
  | None => concat (t.*2)
  end.

#[export] Instance InMemoryEventStore : EventStore M Streams := {
  es_append := InMemoryEventStore_append;
  es_load := InMemoryEventStore_load;
}.

Lemma setdefault_get sid sid' t :
  default [] (od_get sid' (if od_mem sid t then t else od_set sid [] t)) =
    default [] (od_get sid' t).
Proof.
  unfold od_mem. case_bool_decide as Hin; [done|].
  destruct (decide (sid = sid')) as [<-|Hne]; [|by rewrite od_get_set_ne].
  rewrite od_get_set_eq. by rewrite (proj2 (od_get_None sid t) Hin).
Qed.

#[export] Instance InMemoryEventStoreSpec : EventStoreSpec M Streams.
Proof.
  unshelve refine {| es_stream := λ sid t, default [] (od_get sid t); es_ok := λ _, True |}.
  - intros sid events n t _ -> _ _. unfold es_append; simpl. unfold InMemoryEventStore_append.
    rewrite Z.eqb_refl. eexists. do 2 (split; [done|]). split; [by rewrite od_get_set_eq|].
    intros sid' Hne. rewrite od_get_set_ne by done. apply setdefault_get.
  - intros sid events n t _ Hn _. unfold es_append; simpl. unfold InMemoryEventStore_append.
    rewrite (proj2 (Z.eqb_neq _ _)) by congruence. eexists. do 2 (split; [done|]).
    intros sid'. apply setdefault_get.
  - done.
Defined.

End InMemory.

(** ** Snapshots *)

Record SnapshotRecord := mkSnapshot {
  sn_stream_id : string;
  sn_version : Z;
  sn_state_bytes : string;
  sn_taken_at : Z;
}.

Definition InMemorySnapshotStore_take (now : Z) (stream_id : string) (version : Z)
    (state_bytes : string) : PyM (gmap string SnapshotRecord) unit :=
  updates (insert stream_id (mkSnapshot stream_id version state_bytes now)).

Definition InMemorySnapshotStore_latest (stream_id : string)
    : PyM (gmap string SnapshotRecord) (option SnapshotRecord) :=
  reads (lookup stream_id).

(** ** The repository *)
Section Repository.
Context {P M T S : Type} `{EventStore M T}.
(** The hooks of a concrete repository and aggregate class, and the constructor's
    callables. *)
Context (stream_prefix : string) (empty_state : S)
  (apply_stored_event : StoredEvent M → S → outcome S)
  (serialise : DomainEvent P → outcome string)
  (metadata_factory : DomainEvent P → outcome M).

Definition stream_id_for (aid : string) : string := stream_prefix +:+ "-" +:+ aid.

(** The replay loop of [load]. *)
Fixpoint replay (events : list (StoredEvent M)) (a : AggregateRoot P S)
    : outcome (AggregateRoot P S) :=
  match events with
  | [] => Return a
  | e :: events' =>
      match apply_stored_event e (agg_state a) with
      | Raise exc => Raise exc
      | Return s' => replay events' (mkAgg (agg_id a) (se_version e) (agg_events a) s')
      end
  end.

(** [EventSourcedRepository.load]. *)
Definition EventSourcedRepository_load (aid : string)
    : PyM T (option (AggregateRoot P S)) :=
  events ← es_load (stream_id_for aid) 0;
  match events with
  | [] => mret None
  | _ => a ← from_outcome (replay events (AggregateRoot_init aid empty_state));
         mret (Some a)
  end.

(** The list comprehension of [save]: the [i]-th pending event (from 0) gets
    version [prior_version + i + 1]. *)
Fixpoint stored_events (stream_id : string) (prior_version : Z) (i : Z)
    (events : list (DomainEvent P)) : outcome (list (StoredEvent M)) :=
  match events with
  | [] => Return []
  | de :: events' =>
      match serialise de with
      | Raise exc => Raise exc
      | Return payload =>
          match metadata_factory de with
          | Raise exc => Raise exc
          | Return metadata =>
              match stored_events stream_id prior_version (i + 1) events' with
              | Raise exc => Raise exc
              | Return rest =>
                  Return (mkStored stream_id (prior_version + i + 1) (de_event_type de)
                            payload metadata (de_occurred_at de) :: rest)
              end
          end
      end
  end.

(** [EventSourcedRepository.save]: the aggregate is emptied of its events first. *)
Definition EventSourcedRepository_save : PyM (AggregateRoot P S * T) unit := λ '(a, t),
  let '(domain_events, a1) := pull_events a in
  match domain_events with
  | [] => (Return tt, (a1, t))
  | _ =>
      let stream_id := stream_id_for (agg_id a1) in
      let prior_version := (agg_version a1 - Z.of_nat (length domain_events))%Z in
      match stored_events stream_id prior_version 0 domain_events with
      | Raise exc => (Raise exc, (a1, t))
      | Return stored =>
          let '(o, t') := es_append stream_id stored prior_version t in (o, (a1, t'))
      end
  end.

(** [Projector.project_all]. *)
Definition Projector_project_all {W : Type} (project : StoredEvent M → PyM W unit)
    (events : list (StoredEvent M)) : PyM W unit :=
  for_each events project.

End Repository.

(** ** Lemmas *)

(** A stream is numbered 1, 2, 3, ... *)
Definition stream_wf {M} (l : list (StoredEvent M)) : Prop :=
  ∀ j e, l !! j = Some e → se_version e = (Z.of_nat j + 1)%Z.

Definition store_wf {M T} `{EventStoreSpec M T} (t : T) : Prop :=
  es_ok t ∧ ∀ sid, stream_wf (es_stream sid t).

Lemma stream_wf_app {M} (l l' : list (StoredEvent M)) :
  stream_wf l →
  (∀ j e, l' !! j = Some e → se_version e = (Z.of_nat (length l) + Z.of_nat j + 1)%Z) →
  stream_wf (l ++ l').
Proof.
  intros Hl Hl' j e. rewrite lookup_app_Some. intros [Hj | [Hge Hj]]; [by apply Hl|].
  rewrite (Hl' _ _ Hj). lia.
Qed.

Lemma stream_wf_filter_0 {M} (l : list (StoredEvent M)) :
  stream_wf l → filter (λ e, (0 < se_version e)%Z) l = l.
Proof.
  intros Hwf. assert (Forall (λ e, (0 < se_version e)%Z) l) as Hall.
  { apply Forall_forall. intros e [j Hj]%list_elem_of_lookup. rewrite (Hwf _ _ Hj). lia. }
  clear Hwf. induction Hall as [|e l He _ IH]; [done|].
  rewrite filter_cons, decide_True by done. by rewrite IH.
Qed.

Section RepositoryLemmas.
Context {P M T S : Type} `{EventStoreSpec M T}.
Context (prefix : string) (empty_state : S)
  (apply_event : StoredEvent M → S → outcome S)
  (serialise : DomainEvent P → outcome string)
  (meta : DomainEvent P → outcome M).
Implicit Types (a : AggregateRoot P S) (t : T).

Let save := EventSourcedRepository_save (S := S) (T := T) prefix serialise meta.

Lemma stored_events_spec sid prior i evs l :
  stored_events serialise meta sid prior i evs = Return l →
  length l = length evs ∧ numbered sid (prior + i) l.
Proof.
  revert i l. induction evs as [|de evs IH]; intros i l; simpl.
  - intros [= <-]. split; [done|]. intros j e. by rewrite lookup_nil.
  - destruct (serialise de); [|done]. destruct (meta de); [|done].
    destruct (stored_events _ _ _ _ _ _) as [rest|] eqn:E; [|done]. intros [= <-].
    destruct (IH _ _ E) as [Hlen Hv]. split; [simpl; congruence|].
    intros [|j] e; simpl; [intros [= <-]; simpl; split; [lia | done]|].
    intros Hj. destruct (Hv _ _ Hj). split; [lia | done].
Qed.

Lemma stored_events_total :
  (∀ de, ∃ p m, serialise de = Return p ∧ meta de = Return m) →
  ∀ sid prior i evs exc, stored_events serialise meta sid prior i evs ≠ Raise exc.
Proof.
  intros Hser sid prior i evs exc. revert i. induction evs as [|de evs IH]; intros i; [done|].
  simpl. destruct (Hser de) as (p & m & -> & ->).
  specialize (IH (i + 1)%Z). destruct (stored_events _ _ _ _ _ _); [done | congruence].
Qed.

(** The aggregate was loaded (or created) at the current end of its stream, and
    its pending events were raised since. *)
Definition in_step a t : Prop :=
  (agg_version a - Z.of_nat (length (agg_events a)) =
   Z.of_nat (length (es_stream (stream_id_for prefix (agg_id a)) t)))%Z.

Definition cleared a : AggregateRoot P S := mkAgg (agg_id a) (agg_version a) [] (agg_state a).

Lemma save_pending a t :
  agg_events a ≠ [] →
  save (a, t) =
    let sid := stream_id_for prefix (agg_id a) in
    let prior := (agg_version a - Z.of_nat (length (agg_events a)))%Z in
    match stored_events serialise meta sid prior 0 (agg_events a) with
    | Raise exc => (Raise exc, (cleared a, t))
    | Return l => let '(o, t') := es_append sid l prior t in (o, (cleared a, t'))
    end.
Proof.
  unfold save, EventSourcedRepository_save, cleared. simpl. by destruct (agg_events a).
Qed.

(** Every way [save] can end. *)
Lemma save_cases a t :
  es_ok t →
  let sid := stream_id_for prefix (agg_id a) in
  let prior := (agg_version a - Z.of_nat (length (agg_events a)))%Z in
  (agg_events a = [] ∧ save (a, t) = (Return tt, (cleared a, t))) ∨
  (∃ exc, agg_events a ≠ [] ∧
     stored_events serialise meta sid prior 0 (agg_events a) = Raise exc ∧
     save (a, t) = (Raise exc, (cleared a, t))) ∨
  (∃ l t', agg_events a ≠ [] ∧
     stored_events serialise meta sid prior 0 (agg_events a) = Return l ∧ in_step a t ∧
     save (a, t) = (Return tt, (cleared a, t')) ∧ es_ok t' ∧
     es_stream sid t' = es_stream sid t ++ l ∧
     ∀ sid', sid' ≠ sid → es_stream sid' t' = es_stream sid' t) ∨
  (∃ l t', agg_events a ≠ [] ∧
     stored_events serialise meta sid prior 0 (agg_events a) = Return l ∧ ¬ in_step a t ∧
     save (a, t) =
       (Raise (OptimisticConcurrencyError sid prior (Z.of_nat (length (es_stream sid t)))),
         (cleared a, t')) ∧ es_ok t' ∧
     ∀ sid', es_stream sid' t' = es_stream sid' t).
Proof.
  intros Hok sid prior. destruct (decide (agg_events a = [])) as [Hev|Hne].
  { left. split; [done|]. unfold save, EventSourcedRepository_save, cleared. simpl. by rewrite Hev. }
  right. rewrite save_pending by done. cbv zeta. fold sid prior.
  destruct (stored_events serialise meta sid prior 0 (agg_events a)) as [l|exc] eqn:Hst;
    [right | left; exists exc; split_and!; [done | done | reflexivity]].
  destruct (stored_events_spec _ _ _ _ _ Hst) as [Hlen Hnum]. rewrite Z.add_0_r in Hnum.
  assert (l ≠ []) as Hl by (intros ->; destruct (agg_events a); done).
  destruct (decide (prior = Z.of_nat (length (es_stream sid t)))) as [Hp|Hp].
  - left. destruct (es_append_ok sid l prior t Hok Hp Hl Hnum) as (t' & -> & Hok' & Hs & Ho).
    exists l, t'. by split_and!.
  - right. destruct (es_append_conflict sid l prior t Hok Hp Hl) as (t' & -> & Hok' & Ho).
    exists l, t'. by split_and!.
Qed.

Lemma save_wf a t : store_wf t → store_wf (snd (snd (save (a, t)))).
Proof.
  intros [Hok Hwf]. destruct (save_cases a t Hok) as
    [[_ ->] | [(exc & _ & _ & ->) | [(l & t' & _ & Hst & Hin & -> & Hok' & Hs & Ho) |
      (l & t' & _ & _ & _ & -> & Hok' & Ho)]]]; simpl; try done.
  - split; [done|]. intros sid'. destruct (decide (sid' = stream_id_for prefix (agg_id a))) as [->|Hne];
      [|rewrite Ho by done; apply Hwf].
    rewrite Hs. destruct (stored_events_spec _ _ _ _ _ Hst) as [_ Hv].
    apply stream_wf_app; [apply Hwf|]. intros j e Hj. destruct (Hv _ _ Hj) as [-> _].
    unfold in_step in Hin. lia.
  - split; [done|]. intros sid'. rewrite Ho. apply Hwf.
Qed.

(** The loop of [load], as a fold over the states and the last version. *)
Fixpoint replay_state (events : list (StoredEvent M)) (s : S) : outcome S :=
  match events with
  | [] => Return s
  | e :: events' =>
      match apply_event e s with Raise exc => Raise exc | Return s' => replay_state events' s' end
  end.

Lemma replay_spec events (a : AggregateRoot P S) s' :
  replay_state events (agg_state a) = Return s' →
  replay apply_event events a =
    Return (mkAgg (agg_id a) (default (agg_version a) (se_version <$> last events))
              (agg_events a) s').
Proof.
  revert a. induction events as [|e events IH]; intros a; simpl.
  - intros [= <-]. by destruct a.
  - destruct (apply_event e (agg_state a)) as [s1|exc]; [|done]. intros Hrun.
    rewrite (IH (mkAgg (agg_id a) (se_version e) (agg_events a) s1)) by done.
    rewrite (last_cons e events). by destruct (last events).
Qed.

Lemma load_spec aid t s' :
  store_wf t → es_stream (stream_id_for prefix aid) t ≠ [] →
  replay_state (es_stream (stream_id_for prefix aid) t) empty_state = Return s' →
  EventSourcedRepository_load (P := P) prefix empty_state apply_event aid t =
    (Return (Some (mkAgg aid (Z.of_nat (length (es_stream (stream_id_for prefix aid) t))) [] s')),
      t).
Proof.
  intros [Hok Hwf] Hne Hrun. unfold EventSourcedRepository_load, mbind, PyM_bind.
  rewrite es_load_spec, stream_wf_filter_0 by (done || apply Hwf).
  set (l := es_stream (stream_id_for prefix aid) t) in *. specialize (Hwf (stream_id_for prefix aid)).
  fold l in Hwf. destruct l as [|e l0] eqn:Hl; [done|]. rewrite <- Hl in *.
  unfold from_outcome.
  rewrite (replay_spec _ (AggregateRoot_init aid empty_state) s') by done. simpl.
  destruct (last l) as [e'|] eqn:Hlast; [|apply last_None in Hlast; congruence].
  simpl. rewrite last_lookup in Hlast. rewrite (Hwf _ _ Hlast).
  apply lookup_lt_Some in Hlast.
  by replace (Z.of_nat (Nat.pred (length l)) + 1)%Z with (Z.of_nat (length l)) by lia.
Qed.

Lemma replay_state_app l1 l2 s s1 :
  replay_state l1 s = Return s1 → replay_state (l1 ++ l2) s = replay_state l2 s1.
Proof.
  revert s. induction l1 as [|e l1 IH]; intros s; simpl; [by intros [= <-]|].
  destruct (apply_event e s); [apply IH | done].
Qed.

(** [save] only ever appends. *)
Lemma save_prefix a t sid :
  es_ok t → es_stream sid t `prefix_of` es_stream sid (snd (snd (save (a, t)))).
Proof.
  intros Hok. destruct (save_cases a t Hok) as
    [[_ ->] | [(exc & _ & _ & ->) | [(l & t' & _ & Hst & Hin & -> & _ & Hs & Ho) |
      (l & t' & _ & _ & _ & -> & _ & Ho)]]]; simpl; try done.
  - destruct (decide (sid = stream_id_for prefix (agg_id a))) as [->|Hne];
      [rewrite Hs; by eexists | by rewrite Ho].
  - by rewrite Ho.
Qed.

(** A successful save, with what it wrote. *)
Lemma save_ok a t l :
  es_ok t → agg_events a ≠ [] → in_step a t →
  stored_events serialise meta (stream_id_for prefix (agg_id a))
    (agg_version a - Z.of_nat (length (agg_events a))) 0 (agg_events a) = Return l →
  ∃ t', save (a, t) = (Return tt, (cleared a, t')) ∧ es_ok t' ∧
    es_stream (stream_id_for prefix (agg_id a)) t' =
      es_stream (stream_id_for prefix (agg_id a)) t ++ l.
Proof.
  intros Hok Hev Hin Hst. destruct (save_cases a t Hok) as
    [[? _] | [(exc & _ & ? & _) | [(l' & t' & _ & Hst' & _ & Hsv & Hok' & Hs & _) |
      (? & ? & _ & _ & ? & _)]]]; try congruence.
  exists t'. do 2 (split; [done|]). congruence.
Qed.

(** The saves of a list of aggregates, one after the other; a save that raises
    does not stop the others (they come from other requests). *)
Definition saves (l : list (AggregateRoot P S)) t : T :=
  fold_left (λ t a, snd (snd (save (a, t)))) l t.

(** ** Properties *)

(** C11: Whatever aggregates are saved, in whatever order and with whatever stale
    versions, no stream ever loses or rewrites an event and every stream stays
    numbered 1, 2, 3, ... without gaps or duplicates. *)
Theorem saves_keep_streams (l : list (AggregateRoot P S)) t :
  store_wf t →
  store_wf (saves l t) ∧ ∀ sid, es_stream sid t `prefix_of` es_stream sid (saves l t).
Proof.
  unfold saves. revert t. induction l as [|a l IH]; intros t Hwf; simpl; [done|].
  destruct (IH _ (save_wf a t Hwf)) as [Hwf' Hpre]. split; [done|].
  intros sid. etrans; [apply save_prefix, Hwf | apply Hpre].
Qed.

(** Two copies of one aggregate loaded at the same version: once the first
    is saved, saving the second raises [OptimisticConcurrencyError] and leaves
    every stream as the first save left it. *)
Theorem second_save_conflicts a b t l :
  es_ok t → agg_id a = agg_id b → agg_events a ≠ [] → agg_events b ≠ [] →
  in_step a t → in_step b t →
  stored_events serialise meta (stream_id_for prefix (agg_id a))
    (agg_version a - Z.of_nat (length (agg_events a))) 0 (agg_events a) = Return l →
  (∀ de, ∃ p m, serialise de = Return p ∧ meta de = Return m) →
  ∃ t1 t2 exc, save (a, t) = (Return tt, (cleared a, t1)) ∧
    save (b, t1) = (Raise exc, (cleared b, t2)) ∧
    isinstance exc "OptimisticConcurrencyError" = true ∧
    (∀ sid, es_stream sid t2 = es_stream sid t1).
Proof.
  intros Hok Hid Ha Hb Hina Hinb Hst Hser.
  destruct (save_ok a t l Hok Ha Hina Hst) as (t1 & Hsv & Hok1 & Hs). exists t1.
  assert (¬ in_step b t1) as Hstale.
  { unfold in_step in *. rewrite Hid in *. rewrite Hs, length_app.
    destruct (stored_events_spec _ _ _ _ _ Hst) as [Hlen _].
    destruct (agg_events a); [done|]. simpl in Hlen. lia. }
  destruct (save_cases b t1 Hok1) as
    [[? _] | [(exc & _ & Hexc & _) | [(l' & t' & _ & _ & ? & _) |
      (l' & t2 & _ & _ & _ & Hsv2 & _ & Ho)]]]; [done | | done | by eauto 10].
  by destruct (stored_events_total Hser _ _ _ _ _ Hexc).
Qed.

(** C12: Saving an aggregate that is in step with its stream and loading it again
    gives the version the saved aggregate had, no pending events, and the state
    obtained by applying the new events to the state of the stream. *)
Theorem save_load_roundtrip a t l s0 s' :
  store_wf t → agg_events a ≠ [] → in_step a t →
  stored_events serialise meta (stream_id_for prefix (agg_id a))
    (agg_version a - Z.of_nat (length (agg_events a))) 0 (agg_events a) = Return l →
  replay_state (es_stream (stream_id_for prefix (agg_id a)) t) empty_state = Return s0 →
  replay_state l s0 = Return s' →
  ∃ t', save (a, t) = (Return tt, (cleared a, t')) ∧
    EventSourcedRepository_load (P := P) prefix empty_state apply_event (agg_id a) t' =
      (Return (Some (mkAgg (agg_id a) (agg_version a) [] s')), t').
Proof.
  intros Hwf Hev Hin Hst Hs0 Hs'.
  destruct (save_ok a t l (proj1 Hwf) Hev Hin Hst) as (t' & Hsv & _ & Hs).
  exists t'. split; [done|].
  destruct (stored_events_spec _ _ _ _ _ Hst) as [Hlen _].
  assert (store_wf t') as Hwf' by (by pose proof (save_wf a t Hwf) as H'; rewrite Hsv in H').
  rewrite (load_spec (agg_id a) t' s'); [|done| |].
  - rewrite Hs, length_app, Hlen. unfold in_step in Hin.
    by replace (Z.of_nat _) with (agg_version a) by lia.
  - rewrite Hs. destruct (agg_events a); [done|]. destruct l; [done|]. by intros [_ [=]]%app_nil.
  - rewrite Hs. by rewrite (replay_state_app _ _ _ _ Hs0).
Qed.

(** A save that raises has already taken the pending events off the
    aggregate: saving it again returns normally and appends nothing. *)
Theorem failed_save_drops_events a t exc a' t' :
  es_ok t → save (a, t) = (Raise exc, (a', t')) →
  agg_events a ≠ [] ∧ agg_events a' = [] ∧ save (a', t') = (Return tt, (a', t')) ∧
  ∀ sid, es_stream sid t' = es_stream sid t.
Proof.
  intros Hok Hsv. destruct (save_cases a t Hok) as
    [[_ E] | [(exc' & ? & _ & E) | [(l & t1 & _ & _ & _ & E & _) |
      (l & t1 & ? & _ & _ & E & _ & Ho)]]]; rewrite E in Hsv; simplify_eq; by split_and!.
Qed.

End RepositoryLemmas.

(** ** Witnesses: an account with deposits, stored in memory *)

Definition account_apply (e : StoredEvent unit) (balance : Z) : outcome Z :=
  if String.eqb (se_event_type e) "Deposited"
  then Return (balance + Z.of_nat (String.length (se_payload e)))%Z
  else Raise (ValueError "unknown event").
Definition account_serialise (e : DomainEvent string) : outcome string := Return (de_fields e).
Definition account_meta (e : DomainEvent string) : outcome unit := Return tt.
Definition deposit (amount : string) (a : AggregateRoot string Z) : AggregateRoot string Z :=
  raise_event (mkDomainEvent "Deposited" "id" 0 amount) a.
Definition account_new : AggregateRoot string Z := AggregateRoot_init "7" 0%Z.
Definition account_store : list (string * list (StoredEvent unit)) := [].

Lemma account_store_wf : store_wf account_store.
Proof. split; [done|]. intros sid j e. simpl. by rewrite lookup_nil. Qed.

Lemma saves_keep_streams_witness :
  es_stream "acc-7" (saves "acc" account_serialise account_meta
    [deposit "xx" account_new; deposit "x" account_new] account_store) =
    [mkStored "acc-7" 1 "Deposited" "xx" tt 0] ∧
  store_wf (saves "acc" account_serialise account_meta
    [deposit "xx" account_new; deposit "x" account_new] account_store).
Proof.
  split; [vm_compute; reflexivity|].
  apply (saves_keep_streams "acc" account_serialise account_meta). exact account_store_wf.
Defined.

Lemma second_save_conflicts_witness :
  ∃ t1 t2 exc,
    EventSourcedRepository_save "acc" account_serialise account_meta
      (deposit "xx" account_new, account_store) =
      (Return tt, (cleared (deposit "xx" account_new), t1)) ∧
    EventSourcedRepository_save "acc" account_serialise account_meta
      (deposit "x" account_new, t1) = (Raise exc, (cleared (deposit "x" account_new), t2)) ∧
    isinstance exc "OptimisticConcurrencyError" = true ∧
    (∀ sid, es_stream sid t2 = es_stream sid t1).
Proof.
  eapply (second_save_conflicts "acc" account_serialise account_meta
    (deposit "xx" account_new) (deposit "x" account_new) account_store).
  - exact I.
  - reflexivity.
  - discriminate.
  - discriminate.
  - reflexivity.
  - reflexivity.
  - reflexivity.
  - intros de. exists (de_fields de), tt. split; reflexivity.
Defined.

Lemma save_load_roundtrip_witness :
  ∃ t', EventSourcedRepository_save "acc" account_serialise account_meta
      (deposit "xxx" (deposit "xx" account_new), account_store) =
      (Return tt, (cleared (deposit "xxx" (deposit "xx" account_new)), t')) ∧
    EventSourcedRepository_load (P := string) "acc" 0%Z account_apply "7" t' =
      (Return (Some (mkAgg "7" 2 [] 5%Z)), t').
Proof.
  eapply (save_load_roundtrip "acc" 0%Z account_apply account_serialise account_meta
    (deposit "xxx" (deposit "xx" account_new)) account_store).
  - exact account_store_wf.
  - discriminate.
  - reflexivity.
  - reflexivity.
  - reflexivity.
  - vm_compute. reflexivity.
Defined.

Lemma failed_save_drops_events_witness :
  ∃ exc t', EventSourcedRepository_save "acc" account_serialise account_meta
      (deposit "x" (cleared (deposit "y" account_new)), account_store) =
      (Raise exc, (cleared (deposit "x" (cleared (deposit "y" account_new))), t')) ∧
    EventSourcedRepository_save "acc" account_serialise account_meta
      (cleared (deposit "x" (cleared (deposit "y" account_new))), t') =
      (Return tt, (cleared (deposit "x" (cleared (deposit "y" account_new))), t')).
Proof.
  eexists _, _. split; [vm_compute; reflexivity|].
  eapply (failed_save_drops_events "acc" account_serialise account_meta
    (deposit "x" (cleared (deposit "y" account_new))) account_store).
  - exact I.
  - vm_compute. reflexivity.
Defined.
