(* ===== verification/Inbox.v ===== *)
(** * Transactional inbox ([application/inbox/])

    The processor and its in-memory store.  Records are mutable objects that the
    processor and the store share, so the model keeps a heap of records and the
    store maps ids to locations of that heap: a status written through one
    reference is seen through every other. *)
From stdpp Require Import functions.
From S2P Require Import Prelude.

Inductive InboxStatus := PENDING | PROCESSED | FAILED | DUPLICATE.

#[export] Instance InboxStatus_eq_dec : EqDecision InboxStatus.
Proof. solve_decision. Defined.

Record InboxRecord (P : Type) := mkInbox {
  ir_source : string;
  ir_event_type : string;
  ir_payload : P;
  ir_id : string;
  ir_received_at : Z;
  ir_processed_at : option Z;
  ir_status : InboxStatus;
  ir_error : option string;
}.
Arguments mkInbox {P} _ _ _ _ _ _ _ _.
Arguments ir_source {P} _.
Arguments ir_event_type {P} _.
Arguments ir_payload {P} _.
Arguments ir_id {P} _.
Arguments ir_received_at {P} _.
Arguments ir_processed_at {P} _.
Arguments ir_status {P} _.
Arguments ir_error {P} _.

(** ** Operations *)
Section Inbox.
Context {P W : Type}.
(** The command bus, and the clock of the rest of the world. *)
Context (dispatch : string → P → PyM W unit) (now : W → Z).

Definition loc : Type := nat.

(** The objects, and the dictionary of [InMemoryInboxStore]. *)
Record InboxState := mkInboxState {
  heap : loc → InboxRecord P;
  records : gmap string loc;
}.

Definition set_status (st : InboxStatus) (r : InboxRecord P) : InboxRecord P :=
  mkInbox (ir_source r) (ir_event_type r) (ir_payload r) (ir_id r) (ir_received_at r)
    (ir_processed_at r) st (ir_error r).
Definition set_processed_at (t : Z) (r : InboxRecord P) : InboxRecord P :=
  mkInbox (ir_source r) (ir_event_type r) (ir_payload r) (ir_id r) (ir_received_at r)
    (Some t) (ir_status r) (ir_error r).
Definition set_error (msg : string) (r : InboxRecord P) : InboxRecord P :=
  mkInbox (ir_source r) (ir_event_type r) (ir_payload r) (ir_id r) (ir_received_at r)
    (ir_processed_at r) (ir_status r) (Some msg).

(** An assignment to attributes of the object at [l]. *)
Definition mutate (l : loc) (f : InboxRecord P → InboxRecord P) : PyM InboxState unit :=
  updates (λ s, mkInboxState (<[l := f (heap s l)]> (heap s)) (records s)).

(** [InMemoryInboxStore.save]: stores the reference. *)
Definition InMemoryInboxStore_save (l : loc) : PyM InboxState unit :=
  updates (λ s, mkInboxState (heap s) (<[ir_id (heap s l) := l]> (records s))).

Definition InMemoryInboxStore_load (record_id : string) : PyM InboxState (option loc) :=
  reads (λ s, records s !! record_id).

(** [InMemoryInboxStore.is_duplicate]: reads the status of the shared object. *)
Definition InMemoryInboxStore_is_duplicate (record_id : string) : PyM InboxState bool :=
  reads (λ s, match records s !! record_id with
              | None => false
              | Some l => bool_decide (ir_status (heap s l) = PROCESSED)
              end).

(** The part of [process] after the duplicate check. *)
Definition process_fresh (l : loc) (r : InboxRecord P) : PyM (InboxState * W) loc :=
  on_fst (InMemoryInboxStore_save l) ;;
  try_except
    (on_snd (dispatch (ir_event_type r) (ir_payload r)) ;;
     on_fst (mutate l (set_status PROCESSED)) ;;
     t ← on_snd (reads now);
     on_fst (mutate l (set_processed_at t)))
    (λ exc,
      on_fst (mutate l (set_status FAILED)) ;;
      on_fst (mutate l (set_error (exn_msg exc)))) ;;
  on_fst (InMemoryInboxStore_save l) ;;
  mret l.

(** [InboxProcessor.process] on the record at [l]. *)
Definition InboxProcessor_process (l : loc) : PyM (InboxState * W) loc :=
  r ← on_fst (reads (λ s, heap s l));
  dup ← on_fst (InMemoryInboxStore_is_duplicate (ir_id r));
  if dup : bool then
    on_fst (mutate l (set_status DUPLICATE)) ;;
    on_fst (InMemoryInboxStore_save l) ;;
    mret l
  else
    process_fresh l r.

(** ** Lemmas *)
Implicit Types (s : InboxState) (w : W).

(** The status recorded for an id, through the shared object. *)
Definition stored_status s (i : string) : option InboxStatus :=
  (λ l, ir_status (heap s l)) <$> records s !! i.

Lemma is_duplicate_status i s :
  InMemoryInboxStore_is_duplicate i s =
    (Return (bool_decide (stored_status s i = Some PROCESSED)), s).
Proof.
  unfold InMemoryInboxStore_is_duplicate, stored_status, reads. f_equal. f_equal.
  destruct (records s !! i) as [l|]; simpl; [|done].
  apply bool_decide_ext. split; congruence.
Qed.

(** The state left when the record at [l] ends as [r]. *)
Definition settled s (l : loc) (r : InboxRecord P) : InboxState → Prop := λ s',
  heap s' l = r ∧ (∀ l', l' ≠ l → heap s' l' = heap s l') ∧
  records s' = <[ir_id (heap s l) := l]> (records s).

Ltac solve_settled :=
  unfold settled; simpl; rewrite ?fn_lookup_insert; simpl; split; [done|]; split;
  [intros; by rewrite ?fn_lookup_insert_ne by congruence | by rewrite ?insert_insert_eq].

Lemma process_fresh_cases l s w :
  let r := heap s l in
  match dispatch (ir_event_type r) (ir_payload r) w with
  | (Return _, w') =>
      ∃ s', process_fresh l r (s, w) = (Return l, (s', w')) ∧
        settled s l (set_processed_at (now w') (set_status PROCESSED r)) s'
  | (Raise e, w') =>
      if is_Exception e
      then ∃ s', process_fresh l r (s, w) = (Return l, (s', w')) ∧
             settled s l (set_error (exn_msg e) (set_status FAILED r)) s'
      else ∃ s', process_fresh l r (s, w) = (Raise e, (s', w')) ∧ settled s l r s'
  end.
Proof.
  intros r. unfold process_fresh, try_except, try_base, mbind, PyM_bind, on_fst, on_snd. simpl.
  destruct (dispatch (ir_event_type r) (ir_payload r) w) as [[[]|e] w']; simpl.
  - eexists. split; [reflexivity|]. solve_settled.
  - destruct (is_Exception e) eqn:He; simpl; eexists; (split; [reflexivity|]); solve_settled.
Qed.

Lemma process_unfold l s w :
  InboxProcessor_process l (s, w) =
    if decide (stored_status s (ir_id (heap s l)) = Some PROCESSED)
    then (on_fst (mutate l (set_status DUPLICATE)) ;;
          on_fst (InMemoryInboxStore_save l) ;; mret l) (s, w)
    else process_fresh l (heap s l) (s, w).
Proof.
  unfold InboxProcessor_process. unfold mbind at 1 2, PyM_bind.
  unfold on_fst at 1 2, reads. cbn [fst snd]. rewrite is_duplicate_status. cbn [fst snd].
  case_decide as Hd; [by rewrite bool_decide_true by done | by rewrite bool_decide_false by done].
Qed.

(** Every way [process] can end. *)
Lemma process_cases l s w :
  let r := heap s l in
  if decide (stored_status s (ir_id r) = Some PROCESSED)
  then ∃ s', InboxProcessor_process l (s, w) = (Return l, (s', w)) ∧
         settled s l (set_status DUPLICATE r) s'
  else match dispatch (ir_event_type r) (ir_payload r) w with
       | (Return _, w') =>
           ∃ s', InboxProcessor_process l (s, w) = (Return l, (s', w')) ∧
             settled s l (set_processed_at (now w') (set_status PROCESSED r)) s'
       | (Raise e, w') =>
           if is_Exception e
           then ∃ s', InboxProcessor_process l (s, w) = (Return l, (s', w')) ∧
                  settled s l (set_error (exn_msg e) (set_status FAILED r)) s'
           else ∃ s', InboxProcessor_process l (s, w) = (Raise e, (s', w')) ∧ settled s l r s'
       end.
Proof.
  intros r. rewrite process_unfold. fold r. case_decide as Hd; [|apply process_fresh_cases].
  eexists. split; [reflexivity|]. solve_settled.
Qed.

(** Deliver the records at the given locations one after the other. *)
Definition deliver (ls : list loc) : PyM (InboxState * W) unit :=
  for_each ls (λ l, InboxProcessor_process l ;; mret tt).

Lemma settled_status s l r s' :
  settled s l r s' → stored_status s' (ir_id (heap s l)) = Some (ir_status r).
Proof.
  intros (Hl & _ & Hrec). unfold stored_status. by rewrite Hrec, lookup_insert_eq; simpl; rewrite Hl.
Qed.

Lemma settled_ids s l r s' l' :
  settled s l r s' → ir_id r = ir_id (heap s l) → ir_id (heap s' l') = ir_id (heap s l').
Proof.
  intros (Hl & Ho & _) Hid. destruct (decide (l' = l)) as [->|]; [congruence | by rewrite Ho].
Qed.

Lemma deliver_ids i ls s l r s' :
  (∀ l', l' ∈ l :: ls → ir_id (heap s l') = i) → settled s l r s' → ir_id r = ir_id (heap s l) →
  ∀ l', l' ∈ ls → ir_id (heap s' l') = i.
Proof.
  intros Hids Hs Hr l' Hl'. rewrite (settled_ids _ _ _ _ l' Hs Hr). apply Hids. by right.
Qed.

Lemma process_return_deliver l ls s w s' w' :
  InboxProcessor_process l (s, w) = (Return l, (s', w')) →
  deliver (l :: ls) (s, w) = deliver ls (s', w').
Proof. unfold deliver. simpl. unfold mbind, PyM_bind. by intros ->. Qed.

(** ** Properties *)

(** C13: An inbound event is dispatched once: a record whose id has not been
    processed is saved, dispatched exactly once and marked PROCESSED with the
    time after the dispatch, and delivering the same event again (as the same
    object or another one with its id) does not reach the bus and is marked
    DUPLICATE.  If the dispatch raises an [Exception] the record is marked FAILED
    with its message, nothing escapes, and the next delivery dispatches again. *)
Theorem inbox_redelivery l1 l2 s w :
  ir_id (heap s l2) = ir_id (heap s l1) →
  stored_status s (ir_id (heap s l1)) ≠ Some PROCESSED →
  match dispatch (ir_event_type (heap s l1)) (ir_payload (heap s l1)) w with
  | (Return _, w1) =>
      ∃ s1 s2, InboxProcessor_process l1 (s, w) = (Return l1, (s1, w1)) ∧
        heap s1 l1 = set_processed_at (now w1) (set_status PROCESSED (heap s l1)) ∧
        InboxProcessor_process l2 (s1, w1) = (Return l2, (s2, w1)) ∧
        ir_status (heap s2 l2) = DUPLICATE
  | (Raise e, w1) =>
      is_Exception e = true →
      ∃ s1, InboxProcessor_process l1 (s, w) = (Return l1, (s1, w1)) ∧
        heap s1 l1 = set_error (exn_msg e) (set_status FAILED (heap s l1)) ∧
        InboxProcessor_process l2 (s1, w1) = process_fresh l2 (heap s1 l2) (s1, w1)
  end.
Proof.
  intros Hid Hnot. pose proof (process_cases l1 s w) as Hp. cbv zeta in Hp.
  destruct (decide _) as [?|_] in Hp; [done|].
  destruct (dispatch _ _ w) as [[[]|e] w1].
  - destruct Hp as (s1 & Hrun & Hs1). pose proof (settled_status _ _ _ _ Hs1) as Hst.
    pose proof (process_cases l2 s1 w1) as Hp2. cbv zeta in Hp2.
    rewrite (settled_ids _ _ _ _ l2 Hs1 eq_refl), Hid in Hp2.
    destruct (decide _) as [_|?] in Hp2; [|done].
    destruct Hp2 as (s2 & Hrun2 & Hs2). exists s1, s2. split_and!; [done | apply Hs1 | done |].
    by rewrite (proj1 Hs2).
  - intros He. rewrite He in Hp. destruct Hp as (s1 & Hrun & Hs1).
    exists s1. split_and!; [done | apply Hs1 |]. rewrite process_unfold, decide_False; [done|].
    rewrite (settled_ids _ _ _ _ l2 Hs1 eq_refl), Hid, (settled_status _ _ _ _ Hs1). done.
Qed.

(** Marking a duplicate overwrites the PROCESSED mark it was detected by, so
    with a bus that always succeeds every second redelivery is dispatched again:
    of [n] deliveries of an event, [(n + 1) / 2] reach the bus. *)
Theorem inbox_every_other_dispatched (bump : W → W) i ls s w :
  (∀ et p w, dispatch et p w = (Return tt, bump w)) →
  (∀ l, l ∈ ls → ir_id (heap s l) = i) →
  ∃ s', deliver ls (s, w) =
    (Return tt, (s', Nat.iter (if decide (stored_status s i = Some PROCESSED)
                               then length ls / 2 else (length ls + 1) / 2) bump w)).
Proof.
  intros Hbus. revert s w. induction ls as [|l ls IH]; intros s w Hids.
  { exists s. case_decide; done. }
  assert (ir_id (heap s l) = i) as Hl by (apply Hids; left).
  pose proof (process_cases l s w) as Hp. cbv zeta in Hp. rewrite Hbus, Hl in Hp.
  case_decide as Hst; destruct Hp as (s1 & Hrun & Hs1);
    rewrite (process_return_deliver _ _ _ _ _ _ Hrun);
    pose proof (settled_status _ _ _ _ Hs1) as Hst1; rewrite Hl in Hst1; simpl in Hst1.
  - destruct (IH s1 w (deliver_ids _ _ _ _ _ _ Hids Hs1 eq_refl)) as [s' ->].
    rewrite decide_False by congruence. exists s'. do 3 f_equal. simpl length. f_equal. lia.
  - destruct (IH s1 (bump w) (deliver_ids _ _ _ _ _ _ Hids Hs1 eq_refl)) as [s' ->].
    rewrite decide_True by done. exists s'. rewrite <- Nat.iter_succ_r. do 3 f_equal.
    simpl length. replace (S (length ls) + 1)%nat with (length ls + 1 * 2)%nat by lia.
    rewrite Nat.div_add by done. lia.
Qed.
End Inbox.

(** ** Witnesses: a bus that counts the events it has been given *)

Definition counting_bus (et : string) (p : nat) : PyM nat unit := updates S.

Definition inbox_state0 : InboxState (P := nat) :=
  mkInboxState (λ l, mkInbox "kafka" "OrderPlaced" l "evt-1" 0 None PENDING None) ∅.

Lemma inbox_redelivery_witness :
  ∃ s1 s2, InboxProcessor_process counting_bus Z.of_nat 0%nat (inbox_state0, 0%nat) =
      (Return 0%nat, (s1, 1%nat)) ∧
    InboxProcessor_process counting_bus Z.of_nat 1%nat (s1, 1%nat) =
      (Return 1%nat, (s2, 1%nat)) ∧
    ir_status (heap s2 1%nat) = DUPLICATE.
Proof.
  destruct (inbox_redelivery counting_bus Z.of_nat 0%nat 1%nat inbox_state0 0%nat)
    as (s1 & s2 & H1 & _ & H2 & H3); [reflexivity | vm_compute; discriminate |].
  exists s1, s2. split; [exact H1 | split; [exact H2 | exact H3]].
Defined.

(** The third delivery of an event is dispatched a second time. *)
Lemma inbox_every_other_dispatched_witness :
  ∃ s', deliver counting_bus Z.of_nat [0; 1; 2]%nat (inbox_state0, 0%nat) =
    (Return tt, (s', 2%nat)).
Proof.
  apply (inbox_every_other_dispatched counting_bus Z.of_nat S "evt-1" [0; 1; 2]%nat
    inbox_state0 0%nat).
  - reflexivity.
  - reflexivity.
Defined.
