(* ===== verification/Workflow.v ===== *)
(** * Workflow engine ([application/workflow/])

    Definitions of states and guarded transitions, instances with a history, and
    the engine that starts and drives them.  [start] and [trigger] await the hooks,
    guards and actions that callers supply; between two such awaits they run without
    interruption, and the in-memory store never suspends.  A call is therefore cut at
    its hooks: [WorkflowEngine_trigger] runs to the first one, [resume] from one to the
    next, and [wf_step] interleaves any number of calls in any order.  A hook that calls the
    engine again is one more call, made while the outer one is suspended.  What a hook
    answers is open.

    The store hands out the stored object itself, so an instance is changed for
    everybody at once, before [save]; objects are identified by the instance's id. *)
From S2P Require Import Prelude OrderedDict.

Section Types.
(** The contexts of callers and the hooks, guards and actions they supply. *)
Context (C H : Type).

Record WorkflowState := mkWState {
  ws_name : string;
  ws_is_initial : bool;
  ws_is_terminal : bool;
  ws_on_enter : option H;
  ws_on_exit : option H;
}.

Record WorkflowTransition := mkWTrans {
  wt_from_state : string;
  wt_to_state : string;
  wt_trigger : string;
  wt_guard : option H;
  wt_action : option H;
}.

Record TransitionRecord := mkTRecord {
  tr_id : string;
  tr_from_state : string;
  tr_to_state : string;
  tr_trigger : string;
  tr_occurred_at : Z;
  tr_context : C;
}.

Record WorkflowInstance := mkWInstance {
  wi_id : string;
  wi_workflow_name : string;
  wi_current_state : string;
  wi_history : list TransitionRecord;
  wi_started_at : Z;
  wi_context : C;
}.

Record WorkflowDefinition := mkWDef {
  wd_name : string;
  wd_states : list (string * WorkflowState);
  wd_transitions : list WorkflowTransition;
}.

(** The engine, the instance objects that exist, and the ids its
    [InMemoryWorkflowInstanceStore] holds. *)
Record WorkflowEngine := mkEngine {
  we_objects : gmap string WorkflowInstance;
  we_store : gset string;
  we_definitions : gmap string WorkflowDefinition;
}.

End Types.
Arguments mkWState {H} _ _ _ _ _.
Arguments ws_name {H} _.
Arguments ws_is_initial {H} _.
Arguments ws_is_terminal {H} _.
Arguments ws_on_enter {H} _.
Arguments ws_on_exit {H} _.
Arguments mkWTrans {H} _ _ _ _ _.
Arguments wt_from_state {H} _.
Arguments wt_to_state {H} _.
Arguments wt_trigger {H} _.
Arguments wt_guard {H} _.
Arguments wt_action {H} _.
Arguments mkTRecord {C} _ _ _ _ _ _.
Arguments tr_id {C} _.
Arguments tr_from_state {C} _.
Arguments tr_to_state {C} _.
Arguments tr_trigger {C} _.
Arguments tr_occurred_at {C} _.
Arguments tr_context {C} _.
Arguments mkWInstance {C} _ _ _ _ _ _.
Arguments wi_id {C} _.
Arguments wi_workflow_name {C} _.
Arguments wi_current_state {C} _.
Arguments wi_history {C} _.
Arguments wi_started_at {C} _.
Arguments wi_context {C} _.
Arguments mkWDef {H} _ _ _.
Arguments wd_name {H} _.
Arguments wd_states {H} _.
Arguments wd_transitions {H} _.
Arguments mkEngine {C H} _ _ _.
Arguments we_objects {C H} _.
Arguments we_store {C H} _.
Arguments we_definitions {C H} _.

Definition InvalidTransitionError (from_state trigger : string) : pyexn :=
  PyExn ["InvalidTransitionError"; "Exception"; "BaseException"]
    ("No transition from '" +:+ from_state +:+ "' on trigger '" +:+ trigger +:+ "'")
    [("from_state", from_state); ("trigger", trigger)] [].

(** ** Operations *)
Section Engine.
Context {C H : Type}.
Implicit Types (d : WorkflowDefinition H) (i : WorkflowInstance C) (g : WorkflowEngine C H) (t : WorkflowTransition H).

Definition InMemoryWorkflowInstanceStore_save (iid : string) g : WorkflowEngine C H :=
  mkEngine (we_objects g) ({[iid]} ∪ we_store g) (we_definitions g).

Definition InMemoryWorkflowInstanceStore_load (iid : string) g : option (WorkflowInstance C) :=
  if bool_decide (iid ∈ we_store g) then we_objects g !! iid else None.

(** [WorkflowDefinition.initial_state]: the first state marked initial. *)
Definition initial_state d : outcome (WorkflowState H) :=
  match filter (λ s, ws_is_initial s = true) ((wd_states d).*2) with
  | s :: _ => Return s
  | [] => Raise (ValueError ("No initial state defined in workflow '" +:+ wd_name d +:+ "'"))
  end.

(** [{s.name: s for s in states}]. *)
Definition states_dict (states : list (WorkflowState H)) : list (string * WorkflowState H) :=
  fold_left (λ acc s, od_set (ws_name s) s acc) states [].

Definition define_workflow (workflow_name : string) (states : list (WorkflowState H))
    (transitions : list (WorkflowTransition H)) : WorkflowDefinition H :=
  mkWDef workflow_name (states_dict states) transitions.

Definition WorkflowEngine_define d g : WorkflowEngine C H :=
  mkEngine (we_objects g) (we_store g) (<[wd_name d := d]> (we_definitions g)).

(** Where a call is suspended: [start] in the hook of the initial state; [trigger] in the
    guard of a transition, with those still to be looked at, in the exit hook, in the action or in
    the enter hook.  The local variables of the call that it still needs are kept. *)
Inductive wf_task :=
| AtStart (iid : string)
| AtGuard (iid event : string) (ctx : C) d (exit_hook : option H) t (rest : list (WorkflowTransition H))
| AtExit (iid event : string) (ctx : C) d t
| AtAction (iid event : string) (ctx : C) d t
| AtEnter (iid : string)
| Finished (result : outcome string).

(** The last statements of both methods: save, and return the instance. *)
Definition save_and_return (iid : string) g : wf_task * WorkflowEngine C H :=
  (Finished (Return iid), InMemoryWorkflowInstanceStore_save iid g).

(** [start]; [iid] and [now] are the defaults of the new instance's fields. *)
Definition WorkflowEngine_start (workflow_name : string) (ctx : C) (iid : string) (now : Z) g
    : wf_task * WorkflowEngine C H :=
  match we_definitions g !! workflow_name with
  | None => (Finished (Raise (KeyError workflow_name)), g)
  | Some d =>
      match initial_state d with
      | Raise e => (Finished (Raise e), g)
      | Return initial =>
          let g' := mkEngine (<[iid := mkWInstance iid workflow_name (ws_name initial) [] now ctx]> (we_objects g))
                      (we_store g) (we_definitions g) in
          match ws_on_enter initial with
          | Some _ => (AtStart iid, g')
          | None => save_and_return iid g'
          end
      end
  end.

(** [instance.history.append(record); instance.current_state = to_state]. *)
Definition advance (r : TransitionRecord C) i : WorkflowInstance C :=
  mkWInstance (wi_id i) (wi_workflow_name i) (tr_to_state r) (wi_history i ++ [r])
    (wi_started_at i) (wi_context i).

Definition append_record (iid : string) (r : TransitionRecord C) g : WorkflowEngine C H :=
  mkEngine (alter (advance r) iid (we_objects g)) (we_store g) (we_definitions g).

(** From the record on: append it, move, and enter the new state.  [rid] and [now] are the
    defaults of the record's fields. *)
Definition move_on (rid : string) (now : Z) (iid event : string) (ctx : C) d t g : wf_task * WorkflowEngine C H :=
  let g' := append_record iid (mkTRecord rid (wt_from_state t) (wt_to_state t) event now ctx) g in
  match od_get (wt_to_state t) (wd_states d) with
  | None => (Finished (Raise (KeyError (wt_to_state t))), g')
  | Some new_state_obj =>
      match ws_on_enter new_state_obj with
      | Some _ => (AtEnter iid, g')
      | None => save_and_return iid g'
      end
  end.

Definition act_and_move (rid : string) (now : Z) (iid event : string) (ctx : C) d t g : wf_task * WorkflowEngine C H :=
  match wt_action t with
  | Some _ => (AtAction iid event ctx d t, g)
  | None => move_on rid now iid event ctx d t g
  end.

Definition leave_state (rid : string) (now : Z) (iid event : string) (ctx : C) d (exit_hook : option H) t g
    : wf_task * WorkflowEngine C H :=
  match exit_hook with
  | Some _ => (AtExit iid event ctx d t, g)
  | None => act_and_move rid now iid event ctx d t g
  end.

(** The search loop: the next transition from the current state on the event. *)
Fixpoint next_match (current event : string) (ts : list (WorkflowTransition H)) : option (WorkflowTransition H * list (WorkflowTransition H)) :=
  match ts with
  | [] => None
  | t :: ts' =>
      if String.eqb (wt_from_state t) current && String.eqb (wt_trigger t) event then Some (t, ts')
      else next_match current event ts'
  end.

(** The rest of the loop from some transition on, and what follows it; [current_state] is read of the
    shared object whenever it is needed. *)
Definition search (rid : string) (now : Z) (iid event : string) (ctx : C) d (exit_hook : option H)
    (ts : list (WorkflowTransition H)) g : wf_task * WorkflowEngine C H :=
  let current := match we_objects g !! iid with Some i => wi_current_state i | None => "" end in
  match next_match current event ts with
  | None => (Finished (Raise (InvalidTransitionError current event)), g)
  | Some (t, rest) =>
      match wt_guard t with
      | Some _ => (AtGuard iid event ctx d exit_hook t rest, g)
      | None => leave_state rid now iid event ctx d exit_hook t g
      end
  end.

Definition WorkflowEngine_trigger (rid : string) (now : Z) (iid event : string) (ctx : C) g
    : wf_task * WorkflowEngine C H :=
  match InMemoryWorkflowInstanceStore_load iid g with
  | None => (Finished (Raise (KeyError ("Workflow instance '" +:+ iid +:+ "' not found"))), g)
  | Some i =>
      match we_definitions g !! wi_workflow_name i with
      | None => (Finished (Raise (KeyError (wi_workflow_name i))), g)
      | Some d =>
          match od_get (wi_current_state i) (wd_states d) with
          | None => (Finished (Raise (KeyError (wi_current_state i))), g)
          | Some current_state_obj => search rid now iid event ctx d (ws_on_exit current_state_obj) (wd_transitions d) g
          end
      end
  end.

(** A suspended call goes on when its hook has answered; an exception of the hook is that of the call. *)
Definition resume (rid : string) (now : Z) (answer : outcome bool) (k : wf_task) g : wf_task * WorkflowEngine C H :=
  match k with
  | Finished _ => (k, g)
  | _ =>
      match answer with
      | Raise e => (Finished (Raise e), g)
      | Return b =>
          match k with
          | AtStart iid | AtEnter iid => save_and_return iid g
          | AtGuard iid event ctx d exit_hook t rest =>
              if b : bool then leave_state rid now iid event ctx d exit_hook t g
              else search rid now iid event ctx d exit_hook rest g
          | AtExit iid event ctx d t => act_and_move rid now iid event ctx d t g
          | AtAction iid event ctx d t => move_on rid now iid event ctx d t g
          | Finished _ => (k, g)
          end
      end
  end.

(** ** Calls in flight *)

(** The engine, the calls made so far, and, to speak about histories, every definition that was ever made. *)
Record wf_config := mkConfig {
  wc_engine : WorkflowEngine C H;
  wc_calls : gmap nat wf_task;
  wc_defined : list (WorkflowDefinition H);
}.

Definition wf_init : wf_config := mkConfig (mkEngine ∅ ∅ ∅) ∅ [].

(** The call [n] is now at [k]. *)
Definition put_call (n : nat) (r : wf_task * WorkflowEngine C H) (c : wf_config) : wf_config :=
  mkConfig (snd r) (<[n := fst r]> (wc_calls c)) (wc_defined c).

Inductive wf_label := LDefine | LStart (n : nat) | LTrigger (n : nat) (iid : string) | LResume (n : nat).

(** Instance ids are new, as [uuid4] makes them. *)
Inductive wf_step : wf_label → wf_config → wf_config → Prop :=
| step_define c d :
    wf_step LDefine c (mkConfig (WorkflowEngine_define d (wc_engine c)) (wc_calls c) (d :: wc_defined c))
| step_start c n name ctx iid now :
    wc_calls c !! n = None → we_objects (wc_engine c) !! iid = None →
    wf_step (LStart n) c (put_call n (WorkflowEngine_start name ctx iid now (wc_engine c)) c)
| step_trigger c n iid event ctx rid now :
    wc_calls c !! n = None →
    wf_step (LTrigger n iid) c (put_call n (WorkflowEngine_trigger rid now iid event ctx (wc_engine c)) c)
| step_resume c n k answer rid now :
    wc_calls c !! n = Some k →
    wf_step (LResume n) c (put_call n (resume rid now answer k (wc_engine c)) c).

(** The instance a suspended [trigger] has still to move. *)
Definition moving (k : wf_task) : option string :=
  match k with
  | AtGuard iid _ _ _ _ _ _ | AtExit iid _ _ _ _ | AtAction iid _ _ _ _ => Some iid
  | _ => None
  end.

(** A step that does not begin a [trigger] on [iid] while another one is still to move it. *)
Definition one_at_a_time (iid : string) (l : wf_label) (c : wf_config) : Prop :=
  ∀ n, l = LTrigger n iid → map_Forall (λ _ k, moving k ≠ Some iid) (wc_calls c).

(** ** Histories *)

(** The transitions the definitions of a workflow have declared. *)
Definition declared (ds : list (WorkflowDefinition H)) (name : string) t : Prop :=
  ∃ d, d ∈ ds ∧ wd_name d = name ∧ t ∈ wd_transitions d.

Definition records (r : TransitionRecord C) t : Prop :=
  tr_from_state r = wt_from_state t ∧ tr_to_state r = wt_to_state t ∧ tr_trigger r = wt_trigger t.

(** Each record is a declared transition; the instance is where the last one leads. *)
Inductive trail (T : WorkflowTransition H → Prop) : string → list (TransitionRecord C) → string → Prop :=
| trail_nil q : trail T q [] q
| trail_snoc q0 q h r t : trail T q0 h q → T t → records r t → trail T q0 (h ++ [r]) (tr_to_state r).

(** The same, each transition leaving the state the one before it entered. *)
Inductive walk (T : WorkflowTransition H → Prop) : string → list (TransitionRecord C) → string → Prop :=
| walk_nil q : walk T q [] q
| walk_snoc q0 q h r t :
    walk T q0 h q → T t → records r t → wt_from_state t = q → walk T q0 (h ++ [r]) (tr_to_state r).

(** The initial state of a definition of the workflow. *)
Definition begins (ds : list (WorkflowDefinition H)) (name q : string) : Prop :=
  ∃ d s, d ∈ ds ∧ wd_name d = name ∧ initial_state d = Return s ∧ ws_name s = q.

(** ** Lemmas *)

Lemma next_match_sound cur event ts t rest : next_match cur event ts = Some (t, rest) →
  t ∈ ts ∧ rest ⊆ ts ∧ wt_from_state t = cur ∧ wt_trigger t = event.
Proof.
  induction ts as [|t0 ts IH]; [done|]. simpl. destruct (_ && _) eqn:E.
  - intros [= -> ->]. apply andb_true_iff in E as [?%String.eqb_eq ?%String.eqb_eq]. set_solver.
  - intros Hm%IH. set_solver.
Qed.

(** What a call in flight knows of its transition: it is declared by the definition it
    looked up, and, when [exact] holds of the instance, leaves the current state. *)
Definition task_ok (exact : string → Prop) (c : wf_config) (k : wf_task) : Prop :=
  let ready iid event d t := ∃ i, we_objects (wc_engine c) !! iid = Some i ∧ d ∈ wc_defined c ∧ wd_name d = wi_workflow_name i ∧
    t ∈ wd_transitions d ∧ wt_trigger t = event ∧ (exact iid → wt_from_state t = wi_current_state i) in
  match k with
  | AtGuard iid event _ d _ t rest => ready iid event d t ∧ rest ⊆ wd_transitions d
  | AtExit iid event _ d t | AtAction iid event _ d t => ready iid event d t
  | _ => True
  end.

Definition instance_ok (exact : string → Prop) (ds : list (WorkflowDefinition H)) (iid : string) i : Prop :=
  ∃ q, begins ds (wi_workflow_name i) q ∧ trail (declared ds (wi_workflow_name i)) q (wi_history i) (wi_current_state i) ∧
    (exact iid → walk (declared ds (wi_workflow_name i)) q (wi_history i) (wi_current_state i)).

(** The invariant: [exact] are the instances that are triggered one call at a time. *)
Record config_ok (exact : string → Prop) (c : wf_config) : Prop := {
  ok_definitions name d : we_definitions (wc_engine c) !! name = Some d → d ∈ wc_defined c ∧ wd_name d = name;
  ok_instances : map_Forall (instance_ok exact (wc_defined c)) (we_objects (wc_engine c));
  ok_calls : map_Forall (λ _, task_ok exact c) (wc_calls c);
  ok_alone iid n m k k' : exact iid → wc_calls c !! n = Some k → wc_calls c !! m = Some k' →
    moving k = Some iid → moving k' = Some iid → n = m;
}.

Lemma declared_more ds d name t : declared ds name t → declared (d :: ds) name t.
Proof. intros (d' & ? & ? & ?). exists d'. set_solver. Qed.

Lemma trail_mono (T T' : WorkflowTransition H → Prop) q h q' : (∀ t, T t → T' t) → trail T q h q' → trail T' q h q'.
Proof. intros HT. induction 1; econstructor; eauto. Qed.

Lemma walk_mono (T T' : WorkflowTransition H → Prop) q h q' : (∀ t, T t → T' t) → walk T q h q' → walk T' q h q'.
Proof. intros HT. induction 1; econstructor; eauto. Qed.

Lemma instance_ok_more exact ds d iid i : instance_ok exact ds iid i → instance_ok exact (d :: ds) iid i.
Proof.
  intros (q & (d0 & s & Hd & Hb) & Ht & Hw). exists q. split_and!.
  - exists d0, s. set_solver.
  - eapply trail_mono; [|exact Ht]. intros t. apply declared_more.
  - intros He. eapply walk_mono; [|exact (Hw He)]. intros t. apply declared_more.
Qed.

(** What a call knows of the transition it is about to take. *)
Definition ready (exact : string → Prop) (c : wf_config) (iid event : string) d t : Prop :=
  ∃ i, we_objects (wc_engine c) !! iid = Some i ∧ d ∈ wc_defined c ∧ wd_name d = wi_workflow_name i ∧
    t ∈ wd_transitions d ∧ wt_trigger t = event ∧ (exact iid → wt_from_state t = wi_current_state i).

(** A section of a call on [iid] leaves all instances as they are and knows its
    transition, or appends one record to [iid]. *)
Definition section_ok (exact : string → Prop) (c : wf_config) (iid : string) (r : wf_task * WorkflowEngine C H) : Prop :=
  we_definitions (snd r) = we_definitions (wc_engine c) ∧
  (we_objects (snd r) = we_objects (wc_engine c) ∧ task_ok exact c (fst r) ∧ (moving (fst r) = None ∨ moving (fst r) = Some iid) ∨
   moving (fst r) = None ∧ ∃ i rec t, we_objects (wc_engine c) !! iid = Some i ∧ records rec t ∧
     declared (wc_defined c) (wi_workflow_name i) t ∧ (exact iid → wt_from_state t = wi_current_state i) ∧
     we_objects (snd r) = <[iid := advance rec i]> (we_objects (wc_engine c))).

Section Sections.
Context (exact : string → Prop) (c : wf_config) (rid : string) (now : Z) (iid event : string) (ctx : C) (d : WorkflowDefinition H).

Lemma finished_ok e : section_ok exact c iid (Finished (Raise e), wc_engine c).
Proof. split; [done|]. left. split_and!; [done | done | by left]. Qed.

Lemma saved_ok : section_ok exact c iid (save_and_return iid (wc_engine c)).
Proof. split; [done|]. left. split_and!; [done | done | by left]. Qed.

Lemma move_on_ok t : ready exact c iid event d t → section_ok exact c iid (move_on rid now iid event ctx d t (wc_engine c)).
Proof.
  intros (i & Hi & Hd & Hn & Ht & He & Hx). unfold move_on. set (rec := mkTRecord _ _ _ _ _ _).
  assert (Hobj : we_objects (append_record iid rec (wc_engine c)) = <[iid := advance rec i]> (we_objects (wc_engine c))).
  { simpl. apply map_eq. intros k. destruct (decide (k = iid)) as [->|Hk].
    - by rewrite lookup_alter_eq, lookup_insert_eq, Hi.
    - by rewrite lookup_alter_ne, lookup_insert_ne by done. }
  assert (Hres : ∀ k g', we_objects g' = <[iid := advance rec i]> (we_objects (wc_engine c)) →
    we_definitions g' = we_definitions (wc_engine c) → moving k = None → section_ok exact c iid (k, g')).
  { intros k g' Ho Hg Hk. split; [done|]. right. split; [done|]. exists i, rec, t. split_and!; try done. by exists d. }
  destruct (od_get _ _) as [so|]; [|by apply Hres]. destruct (ws_on_enter so); by apply Hres.
Qed.

Lemma act_and_move_ok t : ready exact c iid event d t → section_ok exact c iid (act_and_move rid now iid event ctx d t (wc_engine c)).
Proof.
  intros Hr. unfold act_and_move. destruct (wt_action t); [|by apply move_on_ok].
  split; [done|]. left. split_and!; [done | exact Hr | by right].
Qed.

Lemma leave_state_ok ex t : ready exact c iid event d t → section_ok exact c iid (leave_state rid now iid event ctx d ex t (wc_engine c)).
Proof.
  intros Hr. unfold leave_state. destruct ex; [|by apply act_and_move_ok].
  split; [done|]. left. split_and!; [done | exact Hr | by right].
Qed.

Lemma search_ok ex ts i : we_objects (wc_engine c) !! iid = Some i → d ∈ wc_defined c → wd_name d = wi_workflow_name i →
  ts ⊆ wd_transitions d → section_ok exact c iid (search rid now iid event ctx d ex ts (wc_engine c)).
Proof.
  intros Hi Hd Hn Hts. unfold search. rewrite Hi. destruct (next_match _ _ _) as [[t rest]|] eqn:Hm; [|apply finished_ok].
  apply next_match_sound in Hm as (Ht & Hrest & Hf & He).
  assert (Hr : ready exact c iid event d t) by (exists i; split_and!; [done..|by apply Hts|done|done]).
  destruct (wt_guard t); [|by apply leave_state_ok].
  split; [done|]. left. split_and!; [done | split; [exact Hr | set_solver] | by right].
Qed.

End Sections.

Lemma trigger_ok exact c rid now iid event ctx : config_ok exact c →
  section_ok exact c iid (WorkflowEngine_trigger rid now iid event ctx (wc_engine c)).
Proof.
  intros Hc. unfold WorkflowEngine_trigger, InMemoryWorkflowInstanceStore_load. case_bool_decide; [|apply finished_ok].
  destruct (we_objects (wc_engine c) !! iid) as [i|] eqn:Hi; [|apply finished_ok].
  destruct (we_definitions (wc_engine c) !! wi_workflow_name i) as [d|] eqn:Hd; [|apply finished_ok].
  destruct (od_get _ _) as [so|]; [|apply finished_ok]. apply (ok_definitions _ _ Hc) in Hd as [Hd Hn].
  by apply (search_ok _ _ _ _ _ _ _ _ _ _ i).
Qed.

(** The instance a call works on. *)
Definition subject (k : wf_task) : string :=
  match k with
  | AtStart iid | AtGuard iid _ _ _ _ _ _ | AtExit iid _ _ _ _ | AtAction iid _ _ _ _ | AtEnter iid => iid
  | Finished _ => ""
  end.

Lemma resume_ok exact c rid now answer k : task_ok exact c k → section_ok exact c (subject k) (resume rid now answer k (wc_engine c)).
Proof.
  intros Hk. destruct k as [iid|iid event ctx d ex t rest|iid event ctx d t|iid event ctx d t|iid|o]; simpl;
    (destruct answer as [b|e]; [|try apply finished_ok]).
  - apply saved_ok.
  - destruct Hk as [Hr Hrest]. destruct b; [by apply leave_state_ok|]. destruct Hr as (i & Hi & Hd & Hn & _).
    by apply (search_ok _ _ _ _ _ _ _ _ _ _ i).
  - by apply act_and_move_ok.
  - by apply move_on_ok.
  - apply saved_ok.
  - split; [done|]. left. split_and!; [done | done | by left].
  - split; [done|]. left. split_and!; [done | done | by left].
Qed.

Lemma task_ok_frame exact c c' k :
  wc_defined c ⊆ wc_defined c' →
  (∀ iid i, moving k = Some iid → we_objects (wc_engine c) !! iid = Some i →
     ∃ i', we_objects (wc_engine c') !! iid = Some i' ∧ wi_workflow_name i' = wi_workflow_name i ∧ (exact iid → wi_current_state i' = wi_current_state i)) →
  task_ok exact c k → task_ok exact c' k.
Proof.
  intros Hd Ho. assert (Hready : ∀ iid event d t, moving k = Some iid → ready exact c iid event d t → ready exact c' iid event d t).
  { intros iid event d t Hk (i & Hi & Hdd & Hn & Ht & He & Hx). destruct (Ho iid i Hk Hi) as (i' & Hi' & Hn' & Hx').
    exists i'. split_and!; try done; [by apply Hd | congruence | intros Hex; rewrite Hx' by done; auto]. }
  destruct k; try done; [intros [Hr ?]; split; [|done]|intros Hr|intros Hr]; by apply (Hready _ _ _ _ eq_refl).
Qed.

(** A section of call [n] on [iid] keeps the invariant, when no other call is about to move
    an instance that is triggered one call at a time. *)
Lemma put_call_ok exact c n iid r : config_ok exact c → section_ok exact c iid r →
  we_objects (snd r) = we_objects (wc_engine c) ∧ moving (fst r) = None ∨
    (exact iid → ∀ m k, m ≠ n → wc_calls c !! m = Some k → moving k ≠ Some iid) →
  config_ok exact (put_call n r c).
Proof.
  intros Hc [Hdef Hr] Hcase. pose proof Hc as [Hcd Hci Hcc Hca].
  assert (Hown : ∀ k, moving (fst r) = Some k → k = iid) by (intros k Hk; destruct Hr as [(_ & _ & [Hm|Hm])|[Hm _]]; congruence).
  split; simpl.
  - by rewrite Hdef.
  - destruct Hr as [[-> _]|(_ & i & rec & t & Hi & Hrec & Hdec & Hx & ->)]; [done|].
    apply map_Forall_insert_2; [|done]. destruct (Hci iid i Hi) as (q & Hb & Ht & Hw). exists q. simpl.
    split_and!; [done | by eapply trail_snoc|]. intros Hex. eapply walk_snoc; [by apply Hw | done | done | auto].
  - intros m k Hm. destruct (decide (m = n)) as [->|Hne].
    + rewrite lookup_insert_eq in Hm. injection Hm as <-.
      destruct Hr as [(Hobj & Hok & _)|[Hm _]]; [|by destruct (fst r)].
      eapply task_ok_frame; [| |exact Hok]; [done|]. intros iid' i' _ Hi'. exists i'. simpl. by rewrite Hobj.
    + rewrite lookup_insert_ne in Hm by done. eapply task_ok_frame; [| |exact (Hcc m k Hm)]; [done|].
      intros iid' i' Hk Hi'. simpl. destruct Hcase as [[-> _]|Halone]; [by exists i'|]. destruct Hr as [[-> _]|(_ & i & rec & t & Hi & _ & _ & _ & ->)]; [by exists i'|].
      destruct (decide (iid' = iid)) as [->|Hne']; [|exists i'; by rewrite lookup_insert_ne].
      exists (advance rec i). rewrite lookup_insert_eq. split_and!; [done | simpl; congruence|].
      intros Hex. by destruct (Halone Hex m k Hne Hm).
  - assert (Hother : ∀ iid' m k, exact iid' → m ≠ n → wc_calls c !! m = Some k → moving k = Some iid' → moving (fst r) = Some iid' → False).
    { intros iid' m k Hex Hne Hm Hk Hr'. destruct Hcase as [[_ Hnone]|Halone]; [congruence|].
      assert (iid' = iid) as -> by auto. by apply (Halone Hex m k). }
    intros iid' m1 m2 k1 k2 Hex H1 H2 M1 M2.
    destruct (decide (m1 = n)) as [->|N1], (decide (m2 = n)) as [->|N2]; [done|..].
    + rewrite lookup_insert_eq in H1. injection H1 as <-. rewrite lookup_insert_ne in H2 by done.
      by destruct (Hother iid' m2 k2).
    + rewrite lookup_insert_eq in H2. injection H2 as <-. rewrite lookup_insert_ne in H1 by done.
      by destruct (Hother iid' m1 k1).
    + rewrite lookup_insert_ne in H1, H2 by done. by apply (Hca iid' m1 m2 k1 k2).
Qed.

Lemma start_ok exact c n name ctx iid now : config_ok exact c → we_objects (wc_engine c) !! iid = None →
  config_ok exact (put_call n (WorkflowEngine_start name ctx iid now (wc_engine c)) c).
Proof.
  intros Hc Hnew. pose proof Hc as [Hcd Hci Hcc Hca].
  assert (Hfail : ∀ e, config_ok exact (put_call n (Finished (Raise e), wc_engine c) c)).
  { intros e. apply (put_call_ok exact c n iid); [done | apply finished_ok | by left]. }
  unfold WorkflowEngine_start. destruct (we_definitions (wc_engine c) !! name) as [d|] eqn:Hd; [|apply Hfail].
  destruct (initial_state d) as [s|e] eqn:Hs; [|apply Hfail]. apply Hcd in Hd as [Hd Hn].
  assert (Hgo : ∀ k store, moving k = None → config_ok exact (put_call n (k, mkEngine (<[iid := mkWInstance iid name (ws_name s) [] now ctx]>
    (we_objects (wc_engine c))) store (we_definitions (wc_engine c))) c)).
  { intros k store Hk. split; simpl; [done| | |].
    - apply map_Forall_insert_2; [|done]. exists (ws_name s). split_and!; simpl; [|constructor|constructor]. by exists d, s.
    - intros m k' Hm. destruct (decide (m = n)) as [->|Hne]; [rewrite lookup_insert_eq in Hm; injection Hm as <-; by destruct k|].
      rewrite lookup_insert_ne in Hm by done. eapply task_ok_frame; [| |exact (Hcc m k' Hm)]; [done|].
      intros iid' i' _ Hi'. exists i'. simpl. rewrite lookup_insert_ne by congruence. done.
    - intros iid' m1 m2 k1 k2 Hex H1 H2 M1 M2.
      destruct (decide (m1 = n)) as [->|N1]; [rewrite lookup_insert_eq in H1; congruence|].
      destruct (decide (m2 = n)) as [->|N2]; [rewrite lookup_insert_eq in H2; congruence|].
      rewrite lookup_insert_ne in H1, H2 by done. by apply (Hca iid' m1 m2 k1 k2). }
  destruct (ws_on_enter s); by apply Hgo.
Qed.

Lemma define_ok exact c d : config_ok exact c →
  config_ok exact (mkConfig (WorkflowEngine_define d (wc_engine c)) (wc_calls c) (d :: wc_defined c)).
Proof.
  intros [Hcd Hci Hcc Hca]. split; simpl; [| | |done].
  - intros name d'. destruct (decide (name = wd_name d)) as [->|Hne].
    + rewrite lookup_insert_eq. intros [= <-]. set_solver.
    + rewrite lookup_insert_ne by done. intros Hd%Hcd. set_solver.
  - intros k i Hi. by apply instance_ok_more, Hci.
  - intros m k Hm. eapply task_ok_frame; [| |exact (Hcc m k Hm)]; [set_solver|]. intros iid i _ Hi. by exists i.
Qed.

Lemma wf_step_ok exact l c c' : wf_step l c c' → (∀ iid, exact iid → one_at_a_time iid l c) → config_ok exact c → config_ok exact c'.
Proof.
  intros Hs Hone Hc. destruct Hs as [c d|c n name ctx iid now Hn Hi|c n iid event ctx rid now Hn|c n k answer rid now Hk].
  - by apply define_ok.
  - by apply start_ok.
  - apply (put_call_ok exact c n iid); [done | by apply trigger_ok|]. right. intros Hex m k _ Hm. by apply (Hone iid Hex n eq_refl m k).
  - pose proof (ok_calls _ _ Hc n k Hk) as Hok. apply (put_call_ok exact c n (subject k)); [done | by apply resume_ok|].
    destruct (moving k) as [iid|] eqn:Hmk.
    + right. intros Hex m k' Hne Hm Hk'. apply Hne. apply (ok_alone _ _ Hc (subject k) m n k' k); [done..|].
      by destruct k; simplify_eq/=.
    + left. destruct k; simplify_eq/=; destruct answer; done.
Qed.

Lemma wf_init_ok exact : config_ok exact wf_init.
Proof. by split; simpl; [intros name d; rewrite lookup_empty | intros k i; rewrite lookup_empty | intros k i; rewrite lookup_empty | intros iid n m k k' _; rewrite lookup_empty]. Qed.

(** ** One call, run alone *)

(** The answers of guards; the other hooks return. *)
Definition hook_answer (answer : H → bool) (k : wf_task) : outcome bool :=
  match k with
  | AtGuard _ _ _ _ _ t _ => Return (from_option answer true (wt_guard t))
  | _ => Return true
  end.

(** [n] hooks of a call answered, with nothing in between. *)
Fixpoint run_alone (answer : H → bool) (rid : string) (now : Z) (n : nat) (r : wf_task * WorkflowEngine C H)
    : wf_task * WorkflowEngine C H :=
  match n with
  | O => r
  | S n' => run_alone answer rid now n' (resume rid now (hook_answer answer (fst r)) (fst r) (snd r))
  end.

(** The transitions an event can take from a state. *)
Definition enabled (answer : H → bool) (current event : string) t : Prop :=
  wt_from_state t = current ∧ wt_trigger t = event ∧ from_option answer true (wt_guard t) = true.

#[global] Instance enabled_dec answer current event t : Decision (enabled answer current event t).
Proof. unfold enabled. apply _. Defined.

Section Alone.
Context (answer : H → bool) (rid : string) (now : Z) (iid event : string) (ctx : C) (d : WorkflowDefinition H).
Context (i : WorkflowInstance C) (g : WorkflowEngine C H).
Context (Hi : we_objects g !! iid = Some i).

(** The call returned, with the instance moved along [t] and saved. *)
Definition moved t (r : wf_task * WorkflowEngine C H) : Prop :=
  fst r = Finished (Return iid) ∧ iid ∈ we_store (snd r) ∧
  we_objects (snd r) !! iid = Some (advance (mkTRecord rid (wt_from_state t) (wt_to_state t) event now ctx) i).

Lemma run_alone_finished n o g' : run_alone answer rid now n (Finished o, g') = (Finished o, g').
Proof. induction n as [|n IH]; [done|]. exact IH. Qed.

Lemma move_on_alone n t so : od_get (wt_to_state t) (wd_states d) = Some so → (1 ≤ n)%nat →
  moved t (run_alone answer rid now n (move_on rid now iid event ctx d t g)).
Proof using Hi.
  intros Hso Hn. destruct n as [|n]; [lia|]. unfold move_on. rewrite Hso.
  unfold save_and_return. destruct (ws_on_enter so); simpl; unfold save_and_return; rewrite run_alone_finished; repeat split; simpl;
    solve [set_solver | by rewrite lookup_alter_eq, Hi].
Qed.

Lemma act_and_move_alone n t so : od_get (wt_to_state t) (wd_states d) = Some so → (2 ≤ n)%nat →
  moved t (run_alone answer rid now n (act_and_move rid now iid event ctx d t g)).
Proof using Hi.
  intros Hso Hn. unfold act_and_move. destruct (wt_action t); [|apply (move_on_alone n t so); [done | lia]].
  destruct n as [|n]; [lia|]. apply (move_on_alone n t so); [done | lia].
Qed.

Lemma leave_state_alone n ex t so : od_get (wt_to_state t) (wd_states d) = Some so → (3 ≤ n)%nat →
  moved t (run_alone answer rid now n (leave_state rid now iid event ctx d ex t g)).
Proof using Hi.
  intros Hso Hn. unfold leave_state. destruct ex; [|apply (act_and_move_alone n t so); [done | lia]].
  destruct n as [|n]; [lia|]. apply (act_and_move_alone n t so); [done | lia].
Qed.

Lemma search_alone ex ts n : (3 + length ts ≤ n)%nat →
  let r := run_alone answer rid now n (search rid now iid event ctx d ex ts g) in
  match head (filter (enabled answer (wi_current_state i) event) ts) with
  | Some t => is_Some (od_get (wt_to_state t) (wd_states d)) → moved t r
  | None => r = (Finished (Raise (InvalidTransitionError (wi_current_state i) event)), g)
  end.
Proof using Hi.
  revert n. induction ts as [|t ts IH]; intros n Hn.
  { simpl. unfold search. rewrite Hi. simpl. by rewrite run_alone_finished. }
  assert (Hskip : ¬ enabled answer (wi_current_state i) event t → filter (enabled answer (wi_current_state i) event) (t :: ts) =
    filter (enabled answer (wi_current_state i) event) ts) by apply filter_cons_False.
  cbn zeta. unfold search. rewrite Hi. cbn [next_match]. destruct (_ && _) eqn:E.
  - apply andb_true_iff in E as [E1%String.eqb_eq E2%String.eqb_eq].
    destruct (wt_guard t) as [h|] eqn:Eg; [destruct (answer h) eqn:Ea|].
    + rewrite filter_cons_True by (split_and!; [done | done | by rewrite Eg]). simpl in Hn |- *. destruct n as [|n]; [lia|].
      simpl. rewrite Eg. simpl. rewrite Ea. intros [so Hso]. apply (leave_state_alone n ex t so); [done | lia].
    + rewrite Hskip by (intros (_ & _ & Ht); rewrite Eg in Ht; simpl in Ht; congruence).
      simpl in Hn. destruct n as [|n]; [lia|]. simpl. rewrite Eg. simpl. rewrite Ea. apply IH. lia.
    + rewrite filter_cons_True by (split_and!; [done | done | by rewrite Eg]). simpl in Hn |- *.
      intros [so Hso]. apply (leave_state_alone n ex t so); [done | lia].
  - rewrite Hskip by (intros (E1 & E2 & _); rewrite E1, E2, !String.eqb_refl in E; done).
    specialize (IH n). unfold search in IH. rewrite Hi in IH. apply IH. simpl in Hn. lia.
Qed.

End Alone.

(** ** Properties *)

(** C14: whatever the hooks, guards and actions answer, however many calls are in flight, hooks
    that call the engine again included, and whatever is redefined meanwhile: in
    every reachable engine each record of a history is a transition that a
    definition of the workflow declared, and the instance is in the state the last record
    entered, or in the initial state of a definition.  If moreover no [trigger] on the
    instance began while another one was still to move it, the history is an unbroken walk
    from that initial state to the current state.  And a [trigger] of a stored instance that is
    not interrupted takes the first transition, in the order of the definition, that leaves
    the current state on the event and whose guard accepts: it returns after at most
    three hooks more than there are transitions, with one record more and the instance in the target state;
    with no such transition it raises [InvalidTransitionError] and changes nothing. *)
Theorem workflow_histories_are_walks c iid i :
  we_objects (wc_engine c) !! iid = Some i →
  let T := declared (wc_defined c) (wi_workflow_name i) in
  (rtc (λ c c', ∃ l, wf_step l c c') wf_init c →
     ∃ q, begins (wc_defined c) (wi_workflow_name i) q ∧ trail T q (wi_history i) (wi_current_state i)) ∧
  (rtc (λ c c', ∃ l, wf_step l c c' ∧ one_at_a_time iid l c) wf_init c →
     ∃ q, begins (wc_defined c) (wi_workflow_name i) q ∧ walk T q (wi_history i) (wi_current_state i)) ∧
  (∀ answer rid now event ctx d so,
     iid ∈ we_store (wc_engine c) → we_definitions (wc_engine c) !! wi_workflow_name i = Some d →
     od_get (wi_current_state i) (wd_states d) = Some so →
     let r := run_alone answer rid now (3 + length (wd_transitions d)) (WorkflowEngine_trigger rid now iid event ctx (wc_engine c)) in
     match head (filter (enabled answer (wi_current_state i) event) (wd_transitions d)) with
     | Some t =>
         is_Some (od_get (wt_to_state t) (wd_states d)) →
         fst r = Finished (Return iid) ∧ iid ∈ we_store (snd r) ∧
         we_objects (snd r) !! iid = Some (mkWInstance (wi_id i) (wi_workflow_name i) (wt_to_state t)
           (wi_history i ++ [mkTRecord rid (wt_from_state t) (wt_to_state t) event now ctx]) (wi_started_at i) (wi_context i))
     | None => r = (Finished (Raise (InvalidTransitionError (wi_current_state i) event)), wc_engine c)
     end).
Proof.
  intros Hi T. split_and!; [intros Hrtc..|].
  - assert (config_ok (λ _, False) c) as Hc.
    { pose proof (wf_init_ok (λ _, False)) as H0. revert H0. clear Hi T. induction Hrtc as [|c1 c2 c3 [l Hs] _ IH]; [done|].
      intros H1. apply IH. by apply (wf_step_ok _ l c1). }
    destruct (ok_instances _ _ Hc iid i Hi) as (q & Hb & Ht & _). by exists q.
  - assert (config_ok (eq iid) c) as Hc.
    { pose proof (wf_init_ok (eq iid)) as H0. revert H0. clear Hi T. induction Hrtc as [|c1 c2 c3 (l & Hs & Hone) _ IH]; [done|].
      intros H1. apply IH. apply (wf_step_ok _ l c1); [done | | done]. by intros ? <-. }
    destruct (ok_instances _ _ Hc iid i Hi) as (q & Hb & _ & Hw). exists q. auto.
  - intros answer rid now event ctx d so Hs Hd Hso. unfold WorkflowEngine_trigger, InMemoryWorkflowInstanceStore_load.
    rewrite bool_decide_eq_true_2, Hi, Hd, Hso by done. by apply search_alone.
Qed.

End Engine.

(** ** A workflow *)

(** A review: [submit] leads from a draft to a review when the guard accepts; [drop] to the bin. *)
Definition review : WorkflowDefinition nat :=
  define_workflow "review"
    [mkWState "draft" true false None (Some 7%nat); mkWState "review" false false None None; mkWState "bin" false true None None]
    [mkWTrans "draft" "review" "submit" (Some 1%nat) None; mkWTrans "draft" "bin" "drop" None None].

(** Started as instance ["i"]; the two calls of [triggered] are on it. *)
Definition started : wf_config (C := nat) (H := nat) :=
  put_call 0 (WorkflowEngine_start "review" 0%nat "i" 0 (WorkflowEngine_define review (mkEngine ∅ ∅ ∅)))
    (mkConfig (WorkflowEngine_define review (mkEngine ∅ ∅ ∅)) ∅ [review]).

Definition triggered (n : nat) (event : string) (c : wf_config (C := nat) (H := nat)) : wf_config (C := nat) (H := nat) :=
  put_call n (WorkflowEngine_trigger "r" 1 "i" event 0%nat (wc_engine c)) c.

Definition answered (n : nat) (c : wf_config (C := nat) (H := nat)) : wf_config (C := nat) (H := nat) :=
  match wc_calls c !! n with
  | Some k => put_call n (resume "r" 1 (Return true) k (wc_engine c)) c
  | None => c
  end.

Definition moves (c : wf_config (C := nat) (H := nat)) : list (string * string) :=
  match we_objects (wc_engine c) !! "i" with
  | Some i => map (λ r, (tr_from_state r, tr_to_state r)) (wi_history i)
  | None => []
  end.

(** Both calls found the instance in [draft]; both record a move from it. *)
Example overlapping_triggers :
  moves (answered 2 (answered 1 (answered 1 (triggered 2 "drop" (triggered 1 "submit" started)))))
  = [("draft", "review"); ("draft", "bin")].
Proof. reflexivity. Qed.

Lemma workflow_histories_are_walks_witness :
  let c := answered 1 (answered 1 (triggered 1 "submit" started)) in
  ∃ i q, we_objects (wc_engine c) !! "i" = Some i ∧ begins (wc_defined c) (wi_workflow_name i) q ∧
    walk (declared (wc_defined c) (wi_workflow_name i)) q (wi_history i) (wi_current_state i) ∧
    length (wi_history i) = 1%nat.
Proof.
  set (c := answered 1 _).
  destruct (workflow_histories_are_walks c "i" _ eq_refl) as (_ & Hw & _).
  destruct Hw as (q & Hb & Hq); [|eexists _, q; split_and!; [reflexivity | exact Hb | exact Hq | reflexivity]].
  eapply rtc_l; [exists LDefine; split; [apply (step_define _ review) | intros n; discriminate]|].
  eapply rtc_l; [exists (LStart 0); split; [by apply (step_start _ 0 "review" 0%nat "i" 0) | intros n; discriminate]|].
  eapply rtc_l; [exists (LTrigger 1 "i"); split; [by apply (step_trigger _ 1 "i" "submit" 0%nat "r" 1)|]|].
  { intros n _. apply map_Forall_to_list. vm_compute. repeat constructor. discriminate. }
  eapply rtc_l; [exists (LResume 1); split; [by eapply (step_resume _ 1 _ (Return true) "r" 1) | intros n; discriminate]|].
  apply rtc_once. exists (LResume 1). split; [by eapply (step_resume _ 1 _ (Return true) "r" 1) | intros n; discriminate].
Defined.
