(* ===== verification/Security.v ===== *)
(** * Security ([kernel/security/])

    Principals and permissions, role-based access control with wildcards, the
    security context, policy decisions, and the audit log. *)
From S2P Require Import Prelude PyString Errors.

(** ** Principals ([principal.py]); a [Role] and a [Permission] wrap a string *)

Record Principal := mkPrincipal {
  subject : string;
  tenant_id : option string;
  roles : gset string;
  permissions : gset string;
  claims : gmap string string;
  is_service_account : bool;
}.

(** [any(f(x) for x in s)] over a set. *)
Definition set_any {A} `{Countable A} (f : A → bool) (s : gset A) : bool := existsb f (elements s).

Definition Principal_has_role (p : Principal) (role : string) : bool :=
  set_any (λ r, String.eqb r role) (roles p).

Definition Principal_has_permission (p : Principal) (permission : string) : bool :=
  set_any (λ q, String.eqb q permission) (permissions p).

(** ** Policy decisions ([policy.py]) *)

Inductive PolicyDecision := ALLOW | DENY.

#[export] Instance PolicyDecision_eq_dec : EqDecision PolicyDecision.
Proof. solve_decision. Defined.

Record PolicyContext := mkPolicyContext {
  pc_principal : Principal;
  pc_resource : string;
  pc_action : string;
  pc_attributes : gmap string string;
}.

(** ** The security context ([security_context.py]): a context variable *)

Definition SecurityContext_get_current : PyM (option Principal) (option Principal) := reads id.
Definition SecurityContext_set_current (p : Principal) : PyM (option Principal) unit :=
  updates (λ _, Some p).
Definition SecurityContext_clear : PyM (option Principal) unit := updates (λ _, None).
Definition SecurityContext_require : PyM (option Principal) Principal :=
  o ← SecurityContext_get_current;
  match o with
  | None => raise (UnauthorizedError "No authenticated principal in context")
  | Some p => mret p
  end.

(** ** Role-based access control ([rbac.py]) *)

Definition permission_matches (stored required : string) : bool :=
  if String.eqb stored "*" then true
  else if String.eqb stored required then true
  else if endswith ":*" stored then startswith (drop_last stored) required
  else false.

Record RBACRole := mkRole { role_name : string; role_permissions : gset string }.

#[export] Instance RBACRole_eq_dec : EqDecision RBACRole.
Proof. solve_decision. Defined.
#[export] Instance RBACRole_countable : Countable RBACRole.
Proof.
  refine (inj_countable' (λ r, (role_name r, role_permissions r)) (λ p, mkRole (fst p) (snd p)) _).
  by intros [].
Defined.

Definition RBACRole_has_permission (r : RBACRole) (perm : string) : bool :=
  set_any (λ p, permission_matches p perm) (role_permissions r).

Definition RoleStore : Type := gmap string (gset RBACRole).

Definition RoleStore_add_role (principal_id : string) (role : RBACRole) (s : RoleStore) : RoleStore :=
  <[principal_id := default ∅ (s !! principal_id) ∪ {[role]}]> s.

Definition RoleStore_remove_role (principal_id : string) (role : RBACRole) (s : RoleStore) : RoleStore :=
  match s !! principal_id with
  | None => s
  | Some rs => <[principal_id := rs ∖ {[role]}]> s
  end.

Definition RoleStore_get_roles (principal_id : string) (s : RoleStore) : list RBACRole :=
  elements (default ∅ (s !! principal_id)).

Definition RoleStore_has_permission (principal_id perm : string) (s : RoleStore) : bool :=
  existsb (λ r, RBACRole_has_permission r perm) (RoleStore_get_roles principal_id s).

Definition RoleStore_clear (s : RoleStore) : RoleStore := ∅.

Record RBACPolicy := mkPolicy { required : string; role_store : option RoleStore }.

Record RBACResult := mkResult {
  allowed : bool;
  res_principal : Principal;
  missing_permission : option string;
}.

Definition RBACPolicy_evaluate (pol : RBACPolicy) (p : Principal) : RBACResult :=
  if set_any (λ q, permission_matches q (required pol)) (permissions p) then mkResult true p None
  else if match role_store pol with
          | None => false
          | Some s => RoleStore_has_permission (subject p) (required pol) s
          end
  then mkResult true p None
  else mkResult false p (Some (required pol)).

Definition RBACResult_reason (r : RBACResult) : option string :=
  match allowed r, missing_permission r with
  | false, Some m =>
      Some ("principal " +:+ py_repr (subject (res_principal r)) +:+ " lacks permission "
            +:+ py_repr m)
  | _, _ => None
  end.

(** [require_permission]: the wrapper around the function [fn] (the synchronous and
    the asynchronous wrapper have the same body). *)
Definition require_permission {W A} (perm : string) (store : option RoleStore) (fn : PyM W A)
    : PyM (option Principal * W) A :=
  p ← on_fst SecurityContext_require;
  let result := RBACPolicy_evaluate (mkPolicy perm store) p in
  if negb (allowed result) then
    raise (ForbiddenError (match RBACResult_reason result with
                           | None | Some "" => "forbidden"
                           | Some r => r
                           end))
  else on_snd fn.

(** ** The audit log ([audit.py]) *)

Record AuditEvent := mkAudit {
  ae_principal_id : string;
  ae_action : string;
  ae_resource_type : string;
  ae_resource_id : string;
  ae_outcome : string;
  ae_event_id : string;
  ae_occurred_at : Z;
  ae_metadata : gmap string string;
}.

Definition AuditEvent_is_denied (e : AuditEvent) : bool := String.eqb (ae_outcome e) "deny".
Definition AuditEvent_is_allowed (e : AuditEvent) : bool := String.eqb (ae_outcome e) "allow".

Definition InMemoryAuditStore_record (e : AuditEvent) : PyM (list AuditEvent) unit :=
  updates (λ l, l ++ [e]).

(** [results = [e for e in results if test(x, e)]] when the argument [x] is given. *)
Definition filter_opt {X : Type} (o : option X) (test : X → AuditEvent → bool)
    (l : list AuditEvent) : list AuditEvent :=
  match o with None => l | Some x => List.filter (test x) l end.

Definition InMemoryAuditStore_query (principal_id : option string) (from_dt to_dt : option Z)
    (action_filter outcome : option string) (limit : Z) : PyM (list AuditEvent) (list AuditEvent) :=
  reads (λ records,
    let results := filter_opt principal_id (λ x e, String.eqb (ae_principal_id e) x) records in
    let results := filter_opt from_dt (λ x e, (x <=? ae_occurred_at e)%Z) results in
    let results := filter_opt to_dt (λ x e, (ae_occurred_at e <=? x)%Z) results in
    let results := filter_opt action_filter (λ x e, contains x (ae_action e)) results in
    let results := filter_opt outcome (λ x e, String.eqb (ae_outcome e) x) results in
    slice_to limit (sorted_by ae_occurred_at results)).

(** ** Lemmas *)

(** What a stored permission grants: everything, itself, or every action on a
    resource. *)
Definition grants (stored required : string) : Prop :=
  stored = "*" ∨ stored = required ∨
  ∃ resource action, stored = resource +:+ ":*" ∧ required = resource +:+ ":" +:+ action.

Lemma permission_matches_spec stored req :
  permission_matches stored req = true ↔ grants stored req.
Proof.
  unfold permission_matches, grants.
  destruct (String.eqb_spec stored "*") as [->|Hstar]; [tauto|].
  destruct (String.eqb_spec stored req) as [->|Hne]; [tauto|].
  destruct (endswith ":*" stored) eqn:He; [apply endswith_spec in He as [r Hr]|].
  - assert (drop_last stored = r +:+ ":") as ->
      by (rewrite Hr; change ":*" with (":" +:+ "*"); by rewrite <- app_assoc_str, drop_last_snoc).
    rewrite startswith_spec. split.
    + intros [a ->]. right. right. exists r, a. by rewrite app_assoc_str.
    + intros [? | [? | (r' & a & Hr' & ->)]]; [done | done |]. exists a.
      rewrite (app_inj_r_str r r' ":*") by congruence. by rewrite app_assoc_str.
  - split; [done|]. intros [? | [? | (r & a & -> & _)]]; [done | done|].
    assert (endswith ":*" (r +:+ ":*") = true) by (apply endswith_spec; eauto). congruence.
Qed.

Lemma set_any_spec {A} `{Countable A} (f : A → bool) (s : gset A) :
  set_any f s = true ↔ ∃ x, x ∈ s ∧ f x = true.
Proof.
  unfold set_any. rewrite existsb_exists. split; intros (x & Hx & Hf); exists x; split; try done.
  - apply list_elem_of_In in Hx. by apply elem_of_elements.
  - apply list_elem_of_In. by apply elem_of_elements.
Qed.

(** The permissions a principal holds, directly or through its roles. *)
Definition holds (store : option RoleStore) (p : Principal) (q : string) : Prop :=
  q ∈ permissions p ∨
  ∃ s rs r, store = Some s ∧ s !! subject p = Some rs ∧ r ∈ rs ∧ q ∈ role_permissions r.

Lemma store_has_permission_spec s pid perm :
  RoleStore_has_permission pid perm s = true ↔
  ∃ rs r q, s !! pid = Some rs ∧ r ∈ rs ∧ q ∈ role_permissions r ∧ grants q perm.
Proof.
  unfold RoleStore_has_permission, RoleStore_get_roles. rewrite existsb_exists. split.
  - intros (r & Hr & Hp). apply list_elem_of_In, elem_of_elements in Hr.
    destruct (s !! pid) as [rs|]; simpl in Hr; [|set_solver].
    apply set_any_spec in Hp as (q & Hq & Hm). apply permission_matches_spec in Hm. eauto 10.
  - intros (rs & r & q & -> & Hr & Hq & Hm). exists r. split.
    + by apply list_elem_of_In, elem_of_elements.
    + apply set_any_spec. exists q. by rewrite permission_matches_spec.
Qed.

Lemma evaluate_allowed pol p :
  allowed (RBACPolicy_evaluate pol p) = true ↔
  ∃ q, holds (role_store pol) p q ∧ grants q (required pol).
Proof.
  unfold RBACPolicy_evaluate, holds.
  destruct (set_any _ _) eqn:E1; simpl.
  { apply set_any_spec in E1 as (q & Hq & Hm). apply permission_matches_spec in Hm.
    split; eauto. }
  assert (¬ ∃ q, q ∈ permissions p ∧ grants q (required pol)) as Hno.
  { intros (q & Hq & Hm). rewrite <- not_true_iff_false, set_any_spec in E1. apply E1. exists q.
    by rewrite permission_matches_spec. }
  destruct (role_store pol) as [s|]; simpl.
  - destruct (RoleStore_has_permission _ _ _) eqn:E2; simpl.
    + apply store_has_permission_spec in E2 as (rs & r & q & ? & ? & ? & ?).
      split; [intros _; exists q; split; [right; by exists s, rs, r | done] | done].
    + split; [done|]. intros (q & [Hq | (s' & rs & r & [= <-] & Hl & Hr & Hq)] & Hm).
      * destruct Hno. eauto.
      * rewrite <- E2. apply store_has_permission_spec. eauto 10.
  - split; [done|]. intros (q & [Hq | (s' & rs & r & [=] & _)] & Hm). destruct Hno. eauto.
Qed.

(** The events a query asks for. *)
Definition audit_matches (pid : option string) (from to : option Z) (act out : option string)
    (e : AuditEvent) : bool :=
  let given {X : Type} (o : option X) (test : X → bool) := from_option test true o in
  given pid (λ x, String.eqb (ae_principal_id e) x) &&
  (given from (λ x, (x <=? ae_occurred_at e)%Z) &&
  (given to (λ x, (ae_occurred_at e <=? x)%Z) &&
  (given act (λ x, contains x (ae_action e)) &&
  given out (λ x, String.eqb (ae_outcome e) x)))).

Lemma filter_opt_filter {X} (o : option X) test l :
  filter_opt o test l = List.filter (λ e, from_option (λ x, test x e) true o) l.
Proof.
  destruct o; [done|]. simpl. induction l as [|e l IH]; [done|]. simpl. by rewrite <- IH.
Qed.

Lemma filter_filter_andb (p q : AuditEvent → bool) l :
  List.filter q (List.filter p l) = List.filter (λ e, p e && q e) l.
Proof.
  induction l as [|e l IH]; [done|]. simpl. destruct (p e); simpl; [|done].
  destruct (q e); by rewrite IH.
Qed.

(** ** Properties *)

(** C15: A function guarded by [require_permission] runs exactly when there is an
    authenticated principal that holds, directly or through a role of the role
    store, a permission granting the required one (the same permission, the
    wildcard of its resource, or the full wildcard).  Without a principal the
    caller gets [UnauthorizedError], without the permission [ForbiddenError], and
    in both cases the function has not run. *)
Theorem require_permission_enforces {W A} perm store (fn : PyM W A) ctx w :
  match ctx with
  | None => require_permission perm store fn (ctx, w) =
      (Raise (UnauthorizedError "No authenticated principal in context"), (ctx, w))
  | Some p =>
      (∃ q, holds store p q ∧ grants q perm) ∧
        require_permission perm store fn (ctx, w) = on_snd fn (ctx, w) ∨
      ¬ (∃ q, holds store p q ∧ grants q perm) ∧
        ∃ msg, require_permission perm store fn (ctx, w) = (Raise (ForbiddenError msg), (ctx, w))
  end.
Proof.
  destruct ctx as [p|]; [|done]. unfold require_permission, mbind, PyM_bind. simpl.
  pose proof (evaluate_allowed (mkPolicy perm store) p) as Hall. simpl in Hall.
  destruct (allowed _); simpl; [left | right]; [split; [by apply Hall | done]|].
  split; [intros H; by apply Hall in H | by eexists].
Qed.

(** An audit query returns, oldest first, the events that satisfy every given
    filter and nothing else, cut off at the limit; the log is not changed. *)
Theorem audit_query_exact pid from to act out limit records :
  (0 <= limit)%Z →
  ∃ l, InMemoryAuditStore_query pid from to act out limit records =
      (Return (take (Z.to_nat limit) l), records) ∧
    Sorted (λ e1 e2, (ae_occurred_at e1 <= ae_occurred_at e2)%Z) l ∧
    l ≡ₚ List.filter (audit_matches pid from to act out) records.
Proof.
  intros Hlimit. eexists. split; [|split; [apply sorted_by_sorted | rewrite sorted_by_perm]].
  - unfold InMemoryAuditStore_query, reads, slice_to. rewrite (proj2 (Z.ltb_ge _ _)) by done. done.
  - rewrite !filter_opt_filter, !filter_filter_andb. reflexivity.
Qed.

(** ** Witnesses *)

Definition audit_log0 : list AuditEvent :=
  [mkAudit "ann" "orders:create" "Order" "1" "allow" "e1" 3 ∅;
   mkAudit "bob" "orders:create" "Order" "2" "allow" "e2" 1 ∅;
   mkAudit "ann" "orders:delete" "Order" "1" "deny" "e3" 2 ∅;
   mkAudit "ann" "orders:read" "Order" "1" "allow" "e4" 9 ∅].

Lemma audit_query_exact_witness :
  ∃ l, InMemoryAuditStore_query (Some "ann") None (Some 5%Z) (Some "order") None 10 audit_log0 =
      (Return (take 10 l), audit_log0) ∧
    ae_event_id <$> l = ["e3"; "e1"].
Proof.
  destruct (audit_query_exact (Some "ann") None (Some 5%Z) (Some "order") None 10 audit_log0)
    as (l & Hq & Hs & Hp); [lia|].
  exists l. split; [exact Hq|].
  assert (length l = 2%nat) as Hlen by (by rewrite Hp).
  destruct l as [|e1 [|e2 [|]]]; try discriminate. vm_compute in Hq. injection Hq as <- <-.
  reflexivity.
Defined.
