(* ===== verification/Pipeline.v ===== *)
(** * The request pipeline and CQRS buses
    ([application/pipeline/], [application/cqrs/], [kernel/messaging/idempotency.py],
    [kernel/ddd/unit_of_work.py])

    A middleware wraps the rest of the chain; [Pipeline.execute] nests them around
    the handler.  Ports (stores, caches, engines, metrics) act on the state [X] of
    the whole application and are arguments of the middlewares that use them; the
    idempotency store is the interface [IdempotencyStore]/[IdempotencyStoreSpec],
    which [InMemoryIdempotencyStore] implements. *)
From S2P Require Import Prelude PyString Errors Security Retry.

(** ** Requests

    A request object: [type(request).__name__], whether it is a [Query] or a
    [Command], its string attributes, how it takes attribute assignments, and its
    [validate] method if it has one. *)
Inductive AttrPolicy := Plain | Frozen | Slotted.

Record Request := mkRequest {
  rq_type : string;
  rq_is_query : bool;
  rq_is_command : bool;
  rq_attrs : gmap string string;
  rq_policy : AttrPolicy;
  rq_has_uow : bool;
  rq_validate : option (outcome unit);
}.

(** [getattr(request, name, None)]. *)
Definition getattr (r : Request) (name : string) : option string := rq_attrs r !! name.

Definition with_attr (name value : string) (r : Request) : Request :=
  mkRequest (rq_type r) (rq_is_query r) (rq_is_command r) (<[name := value]> (rq_attrs r))
    (rq_policy r) (rq_has_uow r) (rq_validate r).

Definition with_uow (r : Request) : Request :=
  mkRequest (rq_type r) (rq_is_query r) (rq_is_command r) (rq_attrs r) (rq_policy r) true
    (rq_validate r).

Definition AttributeError (cls : list string) (msg : string) : pyexn :=
  exn_of (cls ++ ["AttributeError"]) msg.

(** ** Idempotency records ([kernel/messaging/idempotency.py]) *)

Record IdempotencyKey := mkIKey { client_key : string; operation : string }.

Definition IdempotencyKey_str (k : IdempotencyKey) : string :=
  operation k +:+ ":" +:+ client_key k.

Record IdempotencyRecord := mkIRecord {
  idr_key : string;
  idr_response : option string;
  idr_status : string;
  idr_created_at : Z;
  idr_expires_at : option Z;
}.

Class IdempotencyStore (X : Type) := {
  ids_get : IdempotencyKey → PyM X (option IdempotencyRecord);
  ids_save : IdempotencyKey → IdempotencyRecord → PyM X unit;
  ids_complete : IdempotencyKey → string → PyM X unit;
}.

(** What a store promises, in terms of the status and the response it holds per key;
    the other fields of a record are the store's own business.  [get] reads, [save]
    files a new request (one without a response) under the key's string, [complete]
    marks an existing one COMPLETED with the response.  [ids_ok] is the store's own
    invariant, which holds of the states its operations lead to. *)
Definition idr_entry (r : IdempotencyRecord) : string * option string := (idr_status r, idr_response r).

Class IdempotencyStoreSpec (X : Type) `{IdempotencyStore X} := {
  ids_entries : X → gmap string (string * option string);
  ids_ok : X → Prop;
  ids_get_spec k x : ids_ok x →
    ∃ o, ids_get k x = (Return o, x) ∧ idr_entry <$> o = ids_entries x !! IdempotencyKey_str k;
  ids_save_spec k r x : ids_ok x → idr_response r = None →
    ∃ x', ids_save k r x = (Return tt, x') ∧ ids_ok x' ∧
      ids_entries x' = <[IdempotencyKey_str k := (idr_status r, None)]> (ids_entries x);
  ids_complete_spec k resp x :
    ids_ok x → is_Some (ids_entries x !! IdempotencyKey_str k) →
    ∃ x', ids_complete k resp x = (Return tt, x') ∧ ids_ok x' ∧
      ids_entries x' = <[IdempotencyKey_str k := ("COMPLETED", Some resp)]> (ids_entries x);
}.

(** ** Middlewares *)
Section Middlewares.
Context {X R : Type}.

Definition Handler : Type := Request → PyM X R.
Definition Middleware : Type := Request → Handler → PyM X R.

(** [Pipeline.add]. *)
Definition Pipeline_add (mw : Middleware) (pipeline : list Middleware) : list Middleware :=
  pipeline ++ [mw].

(** The loop of [Pipeline.execute] over the reversed middlewares. *)
Fixpoint wrap_chain (reversed_mws : list Middleware) (chain : Handler) : Handler :=
  match reversed_mws with
  | [] => chain
  | mw :: mws => wrap_chain mws (λ req, mw req chain)
  end.

Definition Pipeline_execute (pipeline : list Middleware) (request : Request) (handler : Handler)
    : PyM X R :=
  wrap_chain (rev pipeline) handler request.

(** *** Logging, tracing, metrics: around the rest of the chain *)

(** [perf_counter()], and the logger called with the event, the request's name and
    the duration in milliseconds. *)
Definition LoggingMiddleware (perf_counter : PyM X Q) (log : string → string → Q → PyM X unit)
    : Middleware := λ request next_,
  start ← perf_counter;
  try_except
    (result ← next_ request;
     t ← perf_counter;
     log "use_case.completed" (rq_type request) ((t - start) * 1000)%Q ;;
     mret result)
    (λ exc,
      t ← perf_counter;
      log "use_case.failed" (rq_type request) ((t - start) * 1000)%Q ;;
      raise exc).

(** The tracer: [enter] and [exit] of the span, and its methods. *)
Definition TracingMiddleware (enter : string → PyM X unit) (exit : option pyexn → PyM X unit)
    (set_attribute : string → string → PyM X unit) (set_status_ok : PyM X unit)
    (record_exception : pyexn → PyM X unit) : Middleware := λ request next_,
  enter ("use_case." +:+ rq_type request) ;;
  try_base
    (result ←
       (set_attribute "use_case.type" (rq_type request) ;;
        try_except
          (result ← next_ request; set_status_ok ;; mret result)
          (λ exc, record_exception exc ;; raise exc));
     mret (inl result))
    (λ exc, mret (inr exc)) ≫= λ (o : R + pyexn),
  match o with
  | inl result => exit None ;; mret result
  | inr exc => exit (Some exc) ;; raise exc
  end.

(** [calls.add], [latency.record] and [errors.add] with their labels. *)
Definition MetricsMiddleware (perf_counter : PyM X Q)
    (calls_add : Q → list (string * string) → PyM X unit)
    (latency_record : Q → list (string * string) → PyM X unit)
    (errors_add : Q → list (string * string) → PyM X unit) : Middleware := λ request next_,
  let labels := [("use_case", rq_type request)] in
  start ← perf_counter;
  try_except
    (result ← next_ request;
     t ← perf_counter;
     calls_add 1 labels ;;
     latency_record ((t - start) * 1000)%Q labels ;;
     mret result)
    (λ exc, errors_add 1 (labels ++ [("status", "error")]) ;; raise exc).

(** *** Retry *)

Definition RetryMiddleware `{RetryEnv X} (max_attempts : Z) : Middleware := λ request next_,
  RetryPolicy_execute_async (RetryPolicy_init max_attempts None None ["Exception"]) (next_ request).

(** *** Authorization *)

Definition AuthzMiddleware (get_current : PyM X (option Principal))
    (evaluate : PolicyContext → PyM X PolicyDecision) (require_auth : bool) : Middleware :=
  λ request next_,
  principal ← get_current;
  match principal with
  | None =>
      if require_auth then raise (UnauthorizedError "No authenticated principal in context")
      else next_ request
  | Some p =>
      let resource := default (rq_type request) (getattr request "_resource") in
      let action := default "execute" (getattr request "_action") in
      decision ← evaluate (mkPolicyContext p resource action ∅);
      if decide (decision = DENY)
      then raise (ForbiddenError ("Access denied: " +:+ resource +:+ ":" +:+ action))
      else next_ request
  end.

(** *** Correlation and validation *)

(** [object.__setattr__] bypasses a frozen dataclass; an object with slots refuses,
    and the refusal is swallowed. *)
Definition CorrelationMiddleware (uuid4 : PyM X string) : Middleware := λ request next_,
  match getattr request "correlation_id" with
  | None | Some "" =>
      u ← uuid4;
      match rq_policy request with
      | Slotted => next_ request
      | _ => next_ (with_attr "correlation_id" u request)
      end
  | _ => next_ request
  end.

Definition ValidationMiddleware : Middleware := λ request next_,
  match rq_validate request with
  | Some v => from_outcome v ;; next_ request
  | None => next_ request
  end.

(** *** Unit of work ([kernel/ddd/unit_of_work.py]) *)

(** [async with uow: body] with [UnitOfWork.__aexit__]. *)
Definition UnitOfWork_block {A} (commit rollback : PyM X unit) (body : PyM X A) : PyM X A :=
  o ← try_base (a ← body; mret (inl a)) (λ e, mret (inr e));
  match o with
  | inl a => commit ;; mret a
  | inr e => rollback ;; raise e
  end.

(** [request._uow = uow] raises on a frozen or slotted request. *)
Definition UnitOfWorkMiddleware (commit rollback : PyM X unit) : Middleware := λ request next_,
  UnitOfWork_block commit rollback
    (match rq_policy request with
     | Plain => next_ (with_uow request)
     | Frozen => raise (AttributeError ["FrozenInstanceError"] "cannot assign to field '_uow'")
     | Slotted => raise (AttributeError [] "object has no attribute '_uow'")
     end).

(** *** Caching of queries *)

(** [digest] is the 16-character hash of the request's fields, [dumps] and [loads]
    are [pickle]'s; [ttl_map] is keyed by the type's name. *)
Definition CachingMiddleware (cache_get : string → PyM X (option string))
    (cache_set : string → string → Z → PyM X unit)
    (digest : Request → string) (dumps : R → string) (loads : string → outcome R)
    (default_ttl : Z) (ttl_map : gmap string Z) : Middleware := λ request next_,
  if negb (rq_is_query request) then next_ request
  else
    let key := "query:" +:+ rq_type request +:+ ":" +:+ digest request in
    cached ← cache_get key;
    match cached with
    | Some bytes => from_outcome (loads bytes)
    | None =>
        result ← next_ request;
        cache_set key (dumps result) (default default_ttl (ttl_map !! rq_type request)) ;;
        mret result
    end.

(** *** Idempotency and deduplication *)

(** [json.dumps({"result": str(result)}).encode()]. *)
Definition result_json (str_of : R → string) (result : R) : string :=
  "{" +:+ json_string "result" +:+ ": " +:+ json_string (str_of result) +:+ "}".

Section Idempotent.
Context `{IdempotencyStore X}.
(** [str(result)], the stored response as a result, and the clock. *)
Context (str_of : R → string) (of_response : option string → R) (utcnow : X → Z).

(** The common tail: file a PROCESSING record, run, complete. *)
Definition run_recorded (ikey : IdempotencyKey) (request : Request) (next_ : Handler) : PyM X R :=
  now ← reads utcnow;
  ids_save ikey (mkIRecord (IdempotencyKey_str ikey) None "PROCESSING" now None) ;;
  result ← next_ request;
  ids_complete ikey (result_json str_of result) ;;
  mret result.

(** The middleware on a request that no other one interrupts. *)
Definition IdempotencyMiddleware : Middleware := λ request next_,
  match getattr request "idempotency_key" with
  | None => next_ request
  | Some key_value =>
      let ikey := mkIKey key_value (rq_type request) in
      existing ← ids_get ikey;
      match existing with
      | Some rec =>
          if String.eqb (idr_status rec) "COMPLETED" then mret (of_response (idr_response rec))
          else run_recorded ikey request next_
      | None => run_recorded ikey request next_
      end
  end.

(** The same call cut at its awaits: before [get], before [save], in the rest of the chain (for a
    request without a key, nothing else happens), before [complete], and ended. *)
Inductive idem_task :=
| IGet (ikey : IdempotencyKey)
| ISave (ikey : IdempotencyKey)
| INext (ikey : option IdempotencyKey)
| IComplete (ikey : IdempotencyKey) (result : R)
| IEnded (o : outcome R).

Definition idem_begin (request : Request) : idem_task :=
  match getattr request "idempotency_key" with
  | None => INext None
  | Some key_value => IGet (mkIKey key_value (rq_type request))
  end.

Definition idem_section (request : Request) (next_ : Handler) (t : idem_task) : PyM X idem_task :=
  match t with
  | IGet ikey =>
      existing ← ids_get ikey;
      match existing with
      | Some rec =>
          if String.eqb (idr_status rec) "COMPLETED" then mret (IEnded (Return (of_response (idr_response rec))))
          else mret (ISave ikey)
      | None => mret (ISave ikey)
      end
  | ISave ikey =>
      now ← reads utcnow;
      ids_save ikey (mkIRecord (IdempotencyKey_str ikey) None "PROCESSING" now None) ;;
      mret (INext (Some ikey))
  | INext None => result ← next_ request; mret (IEnded (Return result))
  | INext (Some ikey) => result ← next_ request; mret (IComplete ikey result)
  | IComplete ikey result => ids_complete ikey (result_json str_of result) ;; mret (IEnded (Return result))
  | IEnded _ => mret t
  end.

(** An exception of a section is that of the call. *)
Definition idem_advance (request : Request) (next_ : Handler) (t : idem_task) (x : X) : idem_task * X :=
  match idem_section request next_ t x with
  | (Return t', x') => (t', x')
  | (Raise e, x') => (IEnded (Raise e), x')
  end.

(** [getattr(request, "command_id", None) or getattr(request, "idempotency_key", None)]. *)
Definition command_key (request : Request) : option string :=
  match getattr request "command_id" with
  | None | Some "" => getattr request "idempotency_key"
  | o => o
  end.

Definition DeduplicationMiddleware : Middleware := λ request next_,
  if negb (rq_is_command request) then next_ request
  else
    match command_key request with
    | None => next_ request
    | Some cmd_id =>
        let ikey := mkIKey cmd_id (rq_type request) in
        existing ← ids_get ikey;
        match existing with
        | Some rec =>
            if String.eqb (idr_status rec) "COMPLETED" then mret (of_response (idr_response rec))
            else raise (ConflictError ("Duplicate command " +:+ rq_type request +:+ ":" +:+ cmd_id))
        | None => run_recorded ikey request next_
        end
    end.

End Idempotent.

(** *** Audit ([audit_middleware.py]) *)

(** [self._action or type(request).__name__]. *)
Definition or_default (o : option string) (d : string) : string :=
  match o with None | Some "" => d | Some s => s end.

Definition AuditMiddleware (get_current : PyM X (option Principal))
    (new_id : PyM X string) (utcnow : PyM X Z) (record : AuditEvent → PyM X unit)
    (action resource_type : option string) : Middleware := λ request next_,
  principal ← get_current;
  let principal_id := match principal with Some p => subject p | None => "anonymous" end in
  o ← try_except (a ← next_ request; mret (inl a)) (λ exc, mret (inr exc));
  eid ← new_id;
  now ← utcnow;
  record (mkAudit principal_id (or_default action (rq_type request))
    (or_default resource_type (rq_type request)) (default "-" (getattr request "id"))
    (match o with inl _ => "allow" | inr _ => "deny" end) eid now ∅) ;;
  match o with
  | inl a => mret a
  | inr exc => raise exc
  end.

End Middlewares.
Arguments Handler : clear implicits.
Arguments Middleware : clear implicits.

(** ** CQRS buses ([application/cqrs/]) *)
Section Buses.
Context {X R : Type}.

(** [InProcessCommandBus], [InProcessQueryBus]: a registry by request type. *)
Definition Bus : Type := gmap string (Handler X R).

Definition InProcessCommandBus_register (command_type : string) (handler : Handler X R) (b : Bus) : Bus :=
  <[command_type := handler]> b.

Definition no_handler (request : Request) : pyexn :=
  KeyError ("No handler registered for " +:+ py_repr (rq_type request)).

Definition InProcessCommandBus_dispatch (b : Bus) (command : Request) : PyM X R :=
  match b !! rq_type command with
  | None => raise (no_handler command)
  | Some handler => handler command
  end.

Definition InProcessQueryBus_register (query_type : string) (handler : Handler X R) (b : Bus) : Bus :=
  <[query_type := handler]> b.

Definition InProcessQueryBus_ask (b : Bus) (query : Request) : PyM X R :=
  match b !! rq_type query with
  | None => raise (no_handler query)
  | Some handler => handler query
  end.

(** [MiddlewareAwareCommandBus.dispatch]. *)
Definition MiddlewareAwareCommandBus_dispatch (pipeline : list (Middleware X R)) (b : Bus)
    (command : Request) : PyM X R :=
  match b !! rq_type command with
  | None => raise (no_handler command)
  | Some handler => Pipeline_execute pipeline command handler
  end.

(** [make_command_bus] and [make_query_bus]: the global registry, each handler
    class instantiated, then the extra handlers. *)
Definition make_bus (registry : list (string * Handler X R))
    (extra : option (list (string * Handler X R))) : Bus :=
  let add := fold_left (λ b e, InProcessCommandBus_register (fst e) (snd e) b) in
  add (default [] extra) (add registry ∅).

End Buses.
Arguments Bus : clear implicits.

(** ** The in-memory idempotency store ([testing/fakes/idempotency.py]) *)

(** [datetime.now(UTC)] of a world. *)
Class Clock (W : Type) := clock_now : W → Z.

Section InMemoryIdempotency.
Context {W : Type} `{Clock W}.
Let St : Type := gmap string IdempotencyRecord * W.

Definition InMemoryIdempotencyStore_get (k : IdempotencyKey) : PyM St (option IdempotencyRecord) :=
  reads (λ s, fst s !! IdempotencyKey_str k).

Definition InMemoryIdempotencyStore_save (k : IdempotencyKey) (r : IdempotencyRecord) : PyM St unit :=
  updates (λ s, (<[IdempotencyKey_str k := r]> (fst s), snd s)).

Definition InMemoryIdempotencyStore_complete (k : IdempotencyKey) (response : string) : PyM St unit :=
  updates (λ s,
    match fst s !! IdempotencyKey_str k with
    | None => s
    | Some r =>
        (<[IdempotencyKey_str k :=
             mkIRecord (idr_key r) (Some response) "COMPLETED" (clock_now (snd s)) None]> (fst s),
          snd s)
    end).

#[export] Instance InMemoryIdempotencyStore : IdempotencyStore St := {
  ids_get := InMemoryIdempotencyStore_get;
  ids_save := InMemoryIdempotencyStore_save;
  ids_complete := InMemoryIdempotencyStore_complete;
}.

#[export] Instance InMemoryIdempotencyStoreSpec : IdempotencyStoreSpec St.
Proof.
  unshelve refine {| ids_entries := λ x, idr_entry <$> fst x; ids_ok := λ _, True |}.
  - intros k x _. eexists. split; [done|]. simpl. by rewrite lookup_fmap.
  - intros k r x _ Hr. eexists. do 2 (split; [done|]). simpl. rewrite fmap_insert. unfold idr_entry at 1.
    by rewrite Hr.
  - intros k resp x _ [en Hen]. rewrite lookup_fmap in Hen. unfold ids_complete; simpl.
    unfold InMemoryIdempotencyStore_complete, updates.
    destruct (fst x !! _) as [r|]; [|done]. eexists. do 2 (split; [done|]). simpl. by rewrite fmap_insert.
Defined.

End InMemoryIdempotency.

(** ** Lemmas *)
Section Lemmas.
Context {X R : Type}.
Implicit Types (mws : list (Middleware X R)) (h : Handler X R) (x : X).

Lemma wrap_chain_app mws1 mws2 h :
  wrap_chain (mws1 ++ mws2) h = wrap_chain mws2 (wrap_chain mws1 h).
Proof. revert h. induction mws1 as [|mw mws1 IH]; intros h; [done|]. simpl. apply IH. Qed.

(** The first middleware added is the outermost one. *)
Lemma Pipeline_execute_cons mw mws req h :
  Pipeline_execute (mw :: mws) req h = mw req (λ r, Pipeline_execute mws r h).
Proof. unfold Pipeline_execute. simpl. by rewrite wrap_chain_app. Qed.

Lemma Pipeline_execute_app mws1 mws2 req h :
  Pipeline_execute (mws1 ++ mws2) req h =
    Pipeline_execute mws1 req (λ r, Pipeline_execute mws2 r h).
Proof. unfold Pipeline_execute. by rewrite rev_app_distr, wrap_chain_app. Qed.

(** A middleware that acts before and after the rest of the chain. *)
Definition bracket (before after : PyM X unit) : Middleware X R := λ req next_,
  before ;; r ← next_ req; after ;; mret r.

Lemma bind_unit_assoc {A} (m : PyM X unit) (k : PyM X A) (f : A → PyM X R) x :
  ((m ;; k) ≫= f) x = (m ;; (k ≫= f)) x.
Proof. apply bind_assoc. Qed.

(** ** Properties *)

(** Middlewares nest in the order they were added: the first one added acts
    first before the handler and last after it. *)
Theorem pipeline_order (l : list (PyM X unit * PyM X unit)) req h x :
  Pipeline_execute (fold_left (λ p ba, Pipeline_add (bracket (fst ba) (snd ba)) p) l []) req h x =
    (for_each l fst ;; r ← h req; for_each (rev l) snd ;; mret r) x.
Proof.
  assert (∀ p, fold_left (λ p ba, Pipeline_add (bracket ba.1 ba.2) p) l p =
    p ++ map (λ ba, bracket ba.1 ba.2) l) as ->.
  { induction l as [|ba l IH]; intros p; simpl; [by rewrite app_nil_r|].
    rewrite IH. unfold Pipeline_add. by rewrite <- app_assoc. }
  simpl. revert x. induction l as [|[b a] l IH]; intros x; simpl.
  - unfold Pipeline_execute. simpl. unfold mbind, PyM_bind. simpl.
    by destruct (h req x) as [[r|e] x'].
  - rewrite Pipeline_execute_cons. unfold bracket at 1. simpl. rewrite bind_unit_assoc.
    apply bind_ext. intros _ x1. unfold mbind at 1, PyM_bind at 1. rewrite IH.
    unfold mbind, PyM_bind. destruct (for_each l fst x1) as [[[]|e] x2]; [|done].
    destruct (h req x2) as [[r|e] x3]; [|done]. rewrite for_each_app. simpl.
    unfold mbind, PyM_bind. destruct (for_each (rev l) snd x3) as [[[]|e] x4]; [|done]. simpl.
    by destruct (a x4) as [[[]|e] x5].
Qed.

Section Idempotency.
Context `{IdempotencyStoreSpec X} (str_of : R → string) (of_response : option string → R)
  (utcnow : X → Z).

(** [next_] ends with [o] and leaves the idempotency records alone. *)
Definition ends (next_ : Handler X R) (req : Request) (o : outcome R) : Prop :=
  ∀ x, ids_ok x → ∃ x', next_ req x = (o, x') ∧ ids_ok x' ∧ ids_entries x' = ids_entries x.

Lemma run_recorded_returns ikey req next_ r x :
  ids_ok x → ends next_ req (Return r) →
  ∃ x', run_recorded str_of utcnow ikey req next_ x = (Return r, x') ∧ ids_ok x' ∧
    ids_entries x' !! IdempotencyKey_str ikey = Some ("COMPLETED", Some (result_json str_of r)).
Proof.
  intros Hok Hnext. unfold run_recorded, mbind, PyM_bind. simpl.
  edestruct ids_save_spec as (x1 & -> & Hok1 & Hx1); [done..|].
  destruct (Hnext x1 Hok1) as (x2 & -> & Hok2 & Hx2).
  edestruct (ids_complete_spec ikey (result_json str_of r) x2) as (x3 & -> & Hok3 & Hx3); [done|..].
  { rewrite Hx2, Hx1, lookup_insert_eq. done. }
  exists x3. do 2 (split; [done|]). rewrite Hx3. apply lookup_insert_eq.
Qed.

Lemma run_recorded_raises ikey req next_ e x :
  ids_ok x → ends next_ req (Raise e) →
  ∃ x', run_recorded str_of utcnow ikey req next_ x = (Raise e, x') ∧ ids_ok x' ∧
    ids_entries x' !! IdempotencyKey_str ikey = Some ("PROCESSING", None).
Proof.
  intros Hok Hnext. unfold run_recorded, mbind, PyM_bind. simpl.
  edestruct ids_save_spec as (x1 & -> & Hok1 & Hx1); [done..|].
  destruct (Hnext x1 Hok1) as (x2 & -> & Hok2 & Hx2).
  exists x2. do 2 (split; [done|]). rewrite Hx2, Hx1. apply lookup_insert_eq.
Qed.

(** What [get] finds, when the entry is known. *)
Lemma ids_get_entry k x en :
  ids_ok x → ids_entries x !! IdempotencyKey_str k = en →
  ∃ o, ids_get k x = (Return o, x) ∧ idr_entry <$> o = en.
Proof. intros Hok <-. by apply ids_get_spec. Qed.

Let Idem := IdempotencyMiddleware str_of of_response utcnow.
Let Dedup := DeduplicationMiddleware str_of of_response utcnow.

(** ** Requests in flight *)

(** The store, the requests made so far with where their calls are, and how each run of the rest of the chain for
    a request with a key ended, in order. *)
Record idem_config := mkIConfig {
  ic_store : X;
  ic_calls : gmap nat (Request * idem_task (R := R));
  ic_runs : list (string * outcome R);
}.

(** The key a request is recorded under. *)
Definition request_key (request : Request) : option string :=
  match getattr request "idempotency_key" with
  | None => None
  | Some key_value => Some (IdempotencyKey_str (mkIKey key_value (rq_type request)))
  end.

(** What a section adds to the runs: the rest of the chain has returned or raised. *)
Definition ran (t t' : idem_task (R := R)) : list (string * outcome R) :=
  match t, t' with
  | INext (Some k), IComplete _ r => [(IdempotencyKey_str k, Return r)]
  | INext (Some k), IEnded o => [(IdempotencyKey_str k, o)]
  | _, _ => []
  end.

(** The rest of the chain does not write idempotency records. *)
Definition leaves_records (next_ : Handler X R) : Prop :=
  ∀ req x, ids_ok x → ids_ok (snd (next_ req x)) ∧ ids_entries (snd (next_ req x)) = ids_entries x.

Inductive idem_label := LBegin (request : Request) | LOther.

(** A request begins, a section of one runs, or the rest of the world changes. *)
Inductive idem_step : idem_label → idem_config → idem_config → Prop :=
| istep_begin c n request :
    ic_calls c !! n = None →
    idem_step (LBegin request) c
      (mkIConfig (ic_store c) (<[n := (request, idem_begin request)]> (ic_calls c)) (ic_runs c))
| istep_section c n request t next_ t' x' :
    ic_calls c !! n = Some (request, t) → leaves_records next_ →
    idem_advance str_of of_response utcnow request next_ t (ic_store c) = (t', x') →
    idem_step LOther c (mkIConfig x' (<[n := (request, t')]> (ic_calls c)) (ic_runs c ++ ran t t'))
| istep_world c x' :
    ids_ok x' → ids_entries x' = ids_entries (ic_store c) →
    idem_step LOther c (mkIConfig x' (ic_calls c) (ic_runs c)).

(** No request with the key begins while another one with it is in flight. *)
Definition alone (K : string) (l : idem_label) (c : idem_config) : Prop :=
  ∀ request, l = LBegin request → request_key request = Some K →
    ∀ n request' t, ic_calls c !! n = Some (request', t) → request_key request' = Some K → ∃ o, t = IEnded o.

(** How the runs for a key ended. *)
Definition runs_of (K : string) (runs : list (string * outcome R)) : list (outcome R) :=
  snd <$> filter (λ kr, fst kr = K) runs.

Definition begun_with (x : X) : idem_config := mkIConfig x ∅ [].

(** The requests with a key: one that has not ended is recorded under it. *)
Definition task_key (t : idem_task (R := R)) : option string :=
  match t with
  | IGet k | ISave k | INext (Some k) | IComplete k _ => Some (IdempotencyKey_str k)
  | INext None | IEnded _ => None
  end.

(** Nothing has returned yet: all runs have raised [es]. *)
Record open_key (K : string) (es : list pyexn) (c : idem_config) : Prop := {
  open_runs : runs_of K (ic_runs c) = map Raise es;
  open_entry resp : ids_entries (ic_store c) !! K ≠ Some ("COMPLETED", resp);
  open_calls n request t : ic_calls c !! n = Some (request, t) → request_key request = Some K →
    match t with
    | IEnded o => ∃ e, e ∈ es ∧ o = Raise e
    | IComplete _ _ => False
    | _ => True
    end;
}.

(** A run has returned [r]: it is being recorded, or is, and the calls end as they should. *)
Record closed_key (K : string) (es : list pyexn) (r : R) (c : idem_config) : Prop := {
  closed_runs : runs_of K (ic_runs c) = map Raise es ++ [Return r];
  closed_entry : ids_entries (ic_store c) !! K = Some ("COMPLETED", Some (result_json str_of r)) ∨
    ∃ n request k, ic_calls c !! n = Some (request, IComplete k r) ∧ request_key request = Some K;
  closed_calls n request t : ic_calls c !! n = Some (request, t) → request_key request = Some K →
    match t with
    | IEnded o => (∃ e, e ∈ es ∧ o = Raise e) ∨ o = Return r ∨ o = Return (of_response (Some (result_json str_of r)))
    | IGet _ => True
    | IComplete _ r' => r' = r
    | _ => False
    end;
}.

Record idem_ok (K : string) (c : idem_config) : Prop := {
  io_store : ids_ok (ic_store c);
  io_keys n request t : ic_calls c !! n = Some (request, t) → match t with IEnded _ => True | _ => task_key t = request_key request end;
  io_alone n m request request' t t' : ic_calls c !! n = Some (request, t) → ic_calls c !! m = Some (request', t') →
    request_key request = Some K → request_key request' = Some K → (∀ o, t ≠ IEnded o) → (∀ o, t' ≠ IEnded o) → n = m;
  io_filed n request k t : ic_calls c !! n = Some (request, t) → t = INext (Some k) ∨ (∃ r, t = IComplete k r) →
    is_Some (ids_entries (ic_store c) !! IdempotencyKey_str k);
  io_key : ∃ es, open_key K es c ∨ ∃ r, closed_key K es r c;
}.

(** What a section does to the records. *)
Definition section_effect (t t' : idem_task (R := R)) (x x' : X) : Prop :=
  match t with
  | IGet k =>
      ids_entries x' = ids_entries x ∧
      match ids_entries x !! IdempotencyKey_str k with
      | Some (st, resp) => t' = if String.eqb st "COMPLETED" then IEnded (Return (of_response resp)) else ISave k
      | None => t' = ISave k
      end
  | ISave k => t' = INext (Some k) ∧ ids_entries x' = <[IdempotencyKey_str k := ("PROCESSING", None)]> (ids_entries x)
  | INext (Some k) => ids_entries x' = ids_entries x ∧ ((∃ r, t' = IComplete k r) ∨ ∃ e, t' = IEnded (Raise e))
  | INext None => ids_entries x' = ids_entries x ∧ ∃ o, t' = IEnded o
  | IComplete k r =>
      t' = IEnded (Return r) ∧ ids_entries x' = <[IdempotencyKey_str k := ("COMPLETED", Some (result_json str_of r))]> (ids_entries x)
  | IEnded _ => t' = t ∧ ids_entries x' = ids_entries x
  end.

Lemma section_effects request next_ t x t' x' :
  ids_ok x → leaves_records next_ → (∀ k r, t = IComplete k r → is_Some (ids_entries x !! IdempotencyKey_str k)) →
  idem_advance str_of of_response utcnow request next_ t x = (t', x') → ids_ok x' ∧ section_effect t t' x x'.
Proof.
  intros Hok Hnext Hfiled. unfold idem_advance. destruct t as [k|k|[k|]|k r|o]; simpl; unfold mbind, PyM_bind.
  - destruct (ids_get_spec k x Hok) as (o & -> & Ho). rewrite <- Ho. destruct o as [rec|]; simpl.
    + destruct (String.eqb _ _); by intros [= <- <-].
    + by intros [= <- <-].
  - simpl. edestruct (ids_save_spec k (mkIRecord (IdempotencyKey_str k) None "PROCESSING" (utcnow x) None) x) as (x1 & -> & Hok1 & Hx1); [done..|].
    by intros [= <- <-].
  - destruct (Hnext request x Hok) as [Hok1 Hx1]. destruct (next_ request x) as [[r|e] x1]; intros [= <- <-]; simpl in *; eauto.
  - destruct (Hnext request x Hok) as [Hok1 Hx1]. destruct (next_ request x) as [[r|e] x1]; intros [= <- <-]; simpl in *; eauto.
  - destruct (ids_complete_spec k (result_json str_of r) x Hok) as (x1 & -> & Hok1 & Hx1); [by apply (Hfiled k r)|]. by intros [= <- <-].
  - by intros [= <- <-].
Qed.

(** What the invariant says of a key depends on its entry, its runs and its calls only. *)
Lemma key_frame K c c' :
  ids_entries (ic_store c') !! K = ids_entries (ic_store c) !! K → runs_of K (ic_runs c') = runs_of K (ic_runs c) →
  (∀ n request t, request_key request = Some K → ic_calls c' !! n = Some (request, t) ↔ ic_calls c !! n = Some (request, t)) →
  (∃ es, open_key K es c ∨ ∃ r, closed_key K es r c) → ∃ es, open_key K es c' ∨ ∃ r, closed_key K es r c'.
Proof.
  intros He Hr Hc (es & [[H1 H2 H3]|(r & [H1 H2 H3])]); exists es; [left|right; exists r]; split.
  - by rewrite Hr.
  - by rewrite He.
  - intros n request t Hn Hk. apply Hc in Hn; [|done]. by apply (H3 n request).
  - by rewrite Hr.
  - rewrite He. destruct H2 as [H2|(n & request & k & Hn & Hk)]; [by left|]. right. exists n, request, k. by rewrite Hc.
  - intros n request t Hn Hk. apply Hc in Hn; [|done]. by apply (H3 n request).
Qed.

Lemma runs_of_other K runs t t' : task_key t ≠ Some K → runs_of K (runs ++ ran t t') = runs_of K runs.
Proof.
  intros Hk. unfold runs_of. rewrite filter_app, fmap_app. assert (filter (λ kr : string * outcome R, kr.1 = K) (ran t t') = []) as ->.
  { destruct t as [k|k|[k|]|k r|o]; try done. simpl in Hk. destruct t'; try done; simpl; rewrite filter_cons_False; [done | simpl; congruence | done | simpl; congruence]. }
  simpl. by rewrite app_nil_r.
Qed.

Lemma runs_of_own K runs k t' o : IdempotencyKey_str k = K →
  ran (INext (Some k)) t' = [(K, o)] → runs_of K (runs ++ ran (INext (Some k)) t') = runs_of K runs ++ [o].
Proof. intros Hk ->. unfold runs_of. rewrite filter_app, fmap_app, filter_cons_True, filter_nil by done. done. Qed.

(** A section of another key's call. *)
Lemma section_other_key K c n request t t' x' :
  ic_calls c !! n = Some (request, t) → request_key request ≠ Some K → task_key t ≠ Some K → section_effect t t' (ic_store c) x' →
  (∃ es, open_key K es c ∨ ∃ r, closed_key K es r c) →
  ∃ es, let c' := mkIConfig x' (<[n := (request, t')]> (ic_calls c)) (ic_runs c ++ ran t t') in open_key K es c' ∨ ∃ r, closed_key K es r c'.
Proof.
  intros Hn Hrk Htk Heff. apply key_frame; simpl.
  - destruct t as [k|k|[k|]|k r|o]; simpl in Heff, Htk; destruct_and!; (try by congruence);
      match goal with E : ids_entries x' = _ |- _ => rewrite E end; (try done); rewrite lookup_insert_ne; congruence.
  - by apply runs_of_other.
  - intros m request' t0 Hrk'. destruct (decide (m = n)) as [->|]; [|by rewrite lookup_insert_ne].
    rewrite lookup_insert_eq, Hn. split; intros [= ? ?]; congruence.
Qed.

(** A section of the only call of the key that has not ended. *)
Lemma section_own_key K c n request t t' x' :
  idem_ok K c → ic_calls c !! n = Some (request, t) → request_key request = Some K → task_key t = Some K →
  section_effect t t' (ic_store c) x' →
  ∃ es, let c' := mkIConfig x' (<[n := (request, t')]> (ic_calls c)) (ic_runs c ++ ran t t') in open_key K es c' ∨ ∃ r, closed_key K es r c'.
Proof.
  intros Hc Hn Hrk Htk Heff.
  assert (Hothers : ∀ m request' t0, m ≠ n → ic_calls c !! m = Some (request', t0) → request_key request' = Some K → ∃ o, t0 = IEnded o).
  { intros m request' t0 Hm Hl Hk. destruct t0; try (by eauto);
      destruct (Hm (io_alone K c Hc _ _ _ _ _ _ Hl Hn Hk Hrk ltac:(done) ltac:(intros o ->; done))). }
  assert (Hcalls : ∀ m request' t0, <[n := (request, t')]> (ic_calls c) !! m = Some (request', t0) → request_key request' = Some K →
    t0 = t' ∨ (∃ o, t0 = IEnded o ∧ ic_calls c !! m = Some (request', IEnded o))).
  { intros m request' t0 Hl Hk. destruct (decide (m = n)) as [->|Hm]; [rewrite lookup_insert_eq in Hl; left; congruence|].
    rewrite lookup_insert_ne in Hl by done. destruct (Hothers m request' t0 Hm Hl Hk) as [o ->]. right. eauto. }
  destruct (io_key K c Hc) as (es & [[H1 H2 H3]|(r & [H1 H2 H3])]); pose proof (H3 n request t Hn Hrk) as Hnow;
    destruct t as [k|k|[k|]|k r0|o]; try done; simpl in Heff, Htk; injection Htk as Htk; rewrite ?Htk in Heff.
  - destruct Heff as [He Ht']. assert (t' = ISave k) as ->.
    { destruct (ids_entries (ic_store c) !! K) as [[st resp]|] eqn:E; [|done]. destruct (String.eqb_spec st "COMPLETED") as [->|]; [|done]. by destruct (H2 resp). }
    exists es. left. split; simpl; [by rewrite app_nil_r | by rewrite He |]. intros m request' t0 Hl Hk.
    destruct (Hcalls m request' t0 Hl Hk) as [->|(o & -> & Hm)]; [done|]. by apply (H3 m request' (IEnded o)).
  - destruct Heff as [-> He]. exists es. left. split; simpl; [by rewrite app_nil_r | by intros resp; rewrite He, lookup_insert_eq |].
    intros m request' t0 Hl Hk. destruct (Hcalls m request' t0 Hl Hk) as [->|(o & -> & Hm)]; [done|]. by apply (H3 m request' (IEnded o)).
  - destruct Heff as [He [[r ->]|[e ->]]].
    + exists es. right. exists r. split; [cbn [ic_runs]; rewrite (runs_of_own K _ k _ (Return r)) by (simpl; congruence); by rewrite H1 |..].
      * right. exists n, request, k. simpl. by rewrite lookup_insert_eq.
      * simpl. intros m request' t0 Hl Hk. destruct (Hcalls m request' t0 Hl Hk) as [->|(o & -> & Hm)]; [done|]. left. by apply (H3 m request' (IEnded o)).
    + exists (es ++ [e]). left. split; [cbn [ic_runs]; rewrite (runs_of_own K _ k _ (Raise e)) by (simpl; congruence); by rewrite H1, map_app | simpl; by rewrite He |].
      simpl. intros m request' t0 Hl Hk. destruct (Hcalls m request' t0 Hl Hk) as [->|(o & -> & Hm)].
      * exists e. set_solver.
      * destruct (H3 m request' (IEnded o) Hm Hk) as (e' & ? & ->). exists e'. set_solver.
  - destruct Heff as [He Ht']. destruct H2 as [H2|(m & request' & k' & Hm & Hk)];
      [|destruct (decide (m = n)) as [->|Hne]; [congruence | by destruct (Hothers m request' _ Hne Hm Hk)]].
    rewrite H2 in Ht'. simpl in Ht'. subst t'. exists es. right. exists r. split; simpl; [by rewrite app_nil_r | left; by rewrite He |].
    intros m request' t0 Hl Hk. destruct (Hcalls m request' t0 Hl Hk) as [->|(o & -> & Hm)]; [by right; right|]. by apply (H3 m request' (IEnded o)).
  - destruct Heff as [-> He]. simpl in Hnow. subst r0. exists es. right. exists r. split; simpl; [by rewrite app_nil_r | left; by rewrite He, lookup_insert_eq |].
    intros m request' t0 Hl Hk. destruct (Hcalls m request' t0 Hl Hk) as [->|(o & -> & Hm)]; [by right; left|]. by apply (H3 m request' (IEnded o)).
Qed.

Lemma section_keeps_ok K c n request t t' x' :
  idem_ok K c → ic_calls c !! n = Some (request, t) → ids_ok x' → section_effect t t' (ic_store c) x' →
  idem_ok K (mkIConfig x' (<[n := (request, t')]> (ic_calls c)) (ic_runs c ++ ran t t')).
Proof.
  intros Hc Hn Hok Heff. pose proof (io_keys K c Hc n request t Hn) as Hkey.
  assert (Hmono : ∀ k, is_Some (ids_entries (ic_store c) !! k) → is_Some (ids_entries x' !! k)).
  { intros k Hk. destruct t as [k0|k0|[k0|]|k0 r|o]; simpl in Heff; destruct_and!;
      match goal with E : ids_entries x' = _ |- _ => rewrite E end; (try done); apply lookup_insert_is_Some; destruct (decide (IdempotencyKey_str k0 = k)); auto. }
  assert (Hnew : ∀ o, t = IEnded o → t' = t) by (intros o ->; by destruct Heff).
  split; simpl; [done| | | |].
  - intros m request' t0. destruct (decide (m = n)) as [->|]; [|rewrite lookup_insert_ne by done; apply (io_keys K c Hc)].
    rewrite lookup_insert_eq. intros [= <- <-]. destruct t as [k0|k0|[k0|]|k0 r|o]; simpl in Heff, Hkey.
    + destruct Heff as [_ Ht']. destruct (ids_entries _ !! _) as [[st resp]|]; [destruct (String.eqb _ _)|]; by subst t'.
    + by destruct Heff as [-> _].
    + by destruct Heff as [_ [[r ->]|[e ->]]].
    + by destruct Heff as [_ [o ->]].
    + by destruct Heff as [-> _].
    + by destruct Heff as [-> _].
  - assert (Hback : ∀ m request' t0, <[n:=(request, t')]> (ic_calls c) !! m = Some (request', t0) → (∀ o, t0 ≠ IEnded o) →
      ∃ t1, ic_calls c !! m = Some (request', t1) ∧ ∀ o, t1 ≠ IEnded o).
    { intros m request' t0 Hl Ho. destruct (decide (m = n)) as [->|]; [|rewrite lookup_insert_ne in Hl by done; eauto].
      rewrite lookup_insert_eq in Hl. injection Hl as <- <-. exists t. split; [done|]. intros o E. apply (Ho o). by rewrite (Hnew o E). }
    intros m1 m2 q1 q2 t1 t2 L1 L2 K1 K2 O1 O2. destruct (Hback _ _ _ L1 O1) as (u1 & U1 & V1), (Hback _ _ _ L2 O2) as (u2 & U2 & V2).
    by apply (io_alone K c Hc m1 m2 q1 q2 u1 u2).
  - intros m request' k t0 Hl Ht0. destruct (decide (m = n)) as [->|]; [|rewrite lookup_insert_ne in Hl by done; apply Hmono; by apply (io_filed K c Hc m request' k t0)].
    rewrite lookup_insert_eq in Hl. injection Hl as <- <-. destruct t as [k0|k0|[k0|]|k0 r|o]; simpl in Heff.
    + destruct Heff as [_ Ht']. destruct (ids_entries _ !! _) as [[st resp]|]; [destruct (String.eqb _ _)|]; subst t'; by destruct Ht0 as [?|[??]].
    + destruct Heff as [-> ->]. destruct Ht0 as [[= <-]|[? ?]]; [|done]. by rewrite lookup_insert_eq.
    + destruct Heff as [-> [[r ->]|[e ->]]]; destruct Ht0 as [?|[? E]]; try done. injection E as <- _. apply (io_filed K c Hc n request k0 (INext (Some k0))); auto.
    + destruct Heff as [_ [o ->]]. by destruct Ht0 as [?|[??]].
    + destruct Heff as [-> _]. by destruct Ht0 as [?|[??]].
    + destruct Heff as [-> _]. by destruct Ht0 as [?|[??]].
  - destruct (decide (task_key t = Some K)) as [Htk|Htk].
    + assert (request_key request = Some K) by (destruct t; simpl in *; congruence). by apply section_own_key.
    + destruct (decide (request_key request = Some K)) as [Hrk|Hrk]; [|by apply section_other_key; [..|apply (io_key K c Hc)]].
      assert (∃ o, t = IEnded o) as [o ->] by (destruct t; simpl in *; eauto; congruence).
      destruct Heff as [-> He]. eapply key_frame; [| | |apply (io_key K c Hc)]; simpl; [by rewrite He | by rewrite app_nil_r|].
      intros m request' t0 _. by rewrite insert_id.
Qed.

Lemma idem_step_ok K l c c' : idem_step l c c' → alone K l c → idem_ok K c → idem_ok K c'.
Proof.
  intros Hs Hal Hc. destruct Hs as [c n request Hn|c n request t next_ t' x' Hn Hnext Hadv|c x' Hok Hx'].
  - assert (Hbk : match idem_begin request with IEnded _ => False | t => task_key t = request_key request end).
    { unfold idem_begin, request_key. by destruct (getattr _ _). }
    split; simpl; [apply (io_store K c Hc)| | | |].
    + intros m request' t. destruct (decide (m = n)) as [->|]; [|rewrite lookup_insert_ne by done; apply (io_keys K c Hc)].
      rewrite lookup_insert_eq. intros [= <- <-]. by destruct (idem_begin request).
    + intros m1 m2 q1 q2 t1 t2 L1 L2 K1 K2 O1 O2. destruct (decide (m1 = n)) as [->|N1], (decide (m2 = n)) as [->|N2]; [done|..].
      * rewrite lookup_insert_eq in L1. rewrite lookup_insert_ne in L2 by done. injection L1 as <- <-.
        destruct (Hal request eq_refl K1 m2 q2 t2 L2 K2) as [o ->]. by destruct (O2 o).
      * rewrite lookup_insert_eq in L2. rewrite lookup_insert_ne in L1 by done. injection L2 as <- <-.
        destruct (Hal request eq_refl K2 m1 q1 t1 L1 K1) as [o ->]. by destruct (O1 o).
      * rewrite lookup_insert_ne in L1, L2 by done. by apply (io_alone K c Hc m1 m2 q1 q2 t1 t2).
    + intros m request' k t. destruct (decide (m = n)) as [->|]; [|rewrite lookup_insert_ne by done; apply (io_filed K c Hc)].
      rewrite lookup_insert_eq. intros [= <- <-]. unfold idem_begin. destruct (getattr _ _); intros [?|[??]]; done.
    + assert (Hpre : ∀ m request' t, <[n := (request, idem_begin request)]> (ic_calls c) !! m = Some (request', t) → request_key request' = Some K →
        ic_calls c !! m = Some (request', t) ∨ ∃ k, t = IGet k).
      { intros m request' t Hl Hk. destruct (decide (m = n)) as [->|]; [|rewrite lookup_insert_ne in Hl by done; auto].
        rewrite lookup_insert_eq in Hl. injection Hl as <- <-. right. unfold request_key in Hk. unfold idem_begin.
        destruct (getattr _ _); [eauto | done]. }
      destruct (io_key K c Hc) as (es & [[H1 H2 H3]|(r & [H1 H2 H3])]); exists es; [left|right; exists r]; split; simpl; try done.
      * intros m request' t Hl Hk. destruct (Hpre m request' t Hl Hk) as [Hm|[k ->]]; [by apply (H3 m request')|done].
      * destruct H2 as [H2|(m & q & k & Hm & Hk)]; [by left|]. right. exists m, q, k. split; [|done]. rewrite lookup_insert_ne; [done | congruence].
      * intros m request' t Hl Hk. destruct (Hpre m request' t Hl Hk) as [Hm|[k ->]]; [by apply (H3 m request')|done].
  - apply section_effects in Hadv as [Hok' Heff]; [by apply section_keeps_ok | apply (io_store K c Hc) | done|].
    intros k r ->. apply (io_filed K c Hc n request k _ Hn). eauto.
  - destruct Hc as [H1 H2 H3 H4 H5]. split; simpl; [done | done | done | by rewrite Hx'|].
    eapply key_frame; [| | |exact H5]; simpl; [by rewrite Hx' | done | done].
Qed.

(** A call no other one interrupts: its sections one after another. *)
Fixpoint idem_run (request : Request) (next_ : Handler X R) (n : nat) (tx : idem_task (R := R) * X) : idem_task (R := R) * X :=
  match n with
  | O => tx
  | S n' => idem_run request next_ n' (idem_advance str_of of_response utcnow request next_ (fst tx) (snd tx))
  end.

Lemma idem_run_ended request next_ n o x : idem_run request next_ n (IEnded o, x) = (IEnded o, x).
Proof. induction n as [|n IH]; [done|]. exact IH. Qed.

Lemma idem_run_S request next_ n t x :
  idem_run request next_ (S n) (t, x) = idem_run request next_ n (idem_advance str_of of_response utcnow request next_ t x).
Proof. done. Qed.

Lemma idem_run_recorded request next_ k x :
  idem_run request next_ 3 (ISave k, x) =
    let '(o, x') := run_recorded str_of utcnow k request next_ x in (IEnded o, x').
Proof.
  unfold run_recorded, mbind, PyM_bind, reads. rewrite idem_run_S.
  unfold idem_advance, idem_section, mbind, PyM_bind, reads.
  destruct (ids_save _ _ x) as [[[]|e] x1]; [|apply idem_run_ended]. cbn [mret PyM_ret]. rewrite idem_run_S.
  unfold idem_advance, idem_section, mbind, PyM_bind.
  destruct (next_ request x1) as [[r|e] x2]; [|apply idem_run_ended]. cbn [mret PyM_ret]. rewrite idem_run_S.
  unfold idem_advance, idem_section, mbind, PyM_bind. by destruct (ids_complete _ _ x2) as [[[]|e] x3].
Qed.

Lemma idem_run_whole request next_ x :
  idem_run request next_ 4 (idem_begin request, x) = let '(o, x') := Idem request next_ x in (IEnded o, x').
Proof.
  unfold Idem, IdempotencyMiddleware, idem_begin. destruct (getattr _ _) as [v|].
  - set (k := mkIKey v _). rewrite idem_run_S. unfold idem_advance, idem_section, mbind, PyM_bind.
    destruct (ids_get k x) as [[[rec|]|e] x1]; [destruct (String.eqb _ _); [apply idem_run_ended|]|..];
      solve [apply idem_run_ended | apply idem_run_recorded].
  - rewrite idem_run_S. unfold idem_advance, idem_section, mbind, PyM_bind.
    destruct (next_ request x) as [[r|e] x1]; apply idem_run_ended.
Qed.

(** C16: Requests run interleaved at every await, over a store that keeps its contract and a chain that does
    not write idempotency records.  For a key none of whose requests begins while another one
    with it is in flight, the rest of the chain returns at most once: its runs for the key are
    failures followed by at most one success.  Before that success every request with the key that ended has
    raised the exception of a run; after it no request with the key is in the chain or
    about to enter it, and each ends with that result, its recorded form, or the exception of
    an earlier run.  A request that is not interrupted ends after at most four sections, as the
    middleware run in one piece does, and, over a recorded result, with that result,
    whatever the rest of the chain would do. *)
Theorem idempotent_replay K x0 c :
  ids_ok x0 → (∀ resp, ids_entries x0 !! K ≠ Some ("COMPLETED", resp)) →
  rtc (λ c c', ∃ l, idem_step l c c' ∧ alone K l c) (begun_with x0) c →
  (∃ es,
    (runs_of K (ic_runs c) = map Raise es ∧
     ∀ n request o, ic_calls c !! n = Some (request, IEnded o) → request_key request = Some K → ∃ e, e ∈ es ∧ o = Raise e) ∨
    (∃ r, runs_of K (ic_runs c) = map Raise es ++ [Return r] ∧
     ∀ n request t, ic_calls c !! n = Some (request, t) → request_key request = Some K →
       match t with
       | IEnded o => (∃ e, e ∈ es ∧ o = Raise e) ∨ o = Return r ∨ o = Return (of_response (Some (result_json str_of r)))
       | IGet _ | IComplete _ _ => True
       | ISave _ | INext _ => False
       end)) ∧
  (∀ request next_ x, idem_run request next_ 4 (idem_begin request, x) = let '(o, x') := Idem request next_ x in (IEnded o, x')) ∧
  (∀ request next_ resp, request_key request = Some K → ids_entries (ic_store c) !! K = Some ("COMPLETED", resp) →
     Idem request next_ (ic_store c) = (Return (of_response resp), ic_store c)).
Proof.
  intros Hok Hno Hrtc. assert (idem_ok K c) as Hc.
  { assert (idem_ok K (begun_with x0)) as Hstart.
    { split; simpl; [done | by intros n request t; rewrite lookup_empty | by intros n m request request' t t'; rewrite lookup_empty | by intros n request k t; rewrite lookup_empty|].
      exists []. left. split; simpl; [done | done | by intros n request t; rewrite lookup_empty]. }
    revert Hstart. clear Hok Hno. induction Hrtc as [|c1 c2 c3 (l & Hs & Hal) _ IH]; [done|]. intros H1. apply IH. by apply (idem_step_ok K l c1). }
  split_and!.
  - destruct (io_key K c Hc) as (es & [[H1 H2 H3]|(r & [H1 H2 H3])]); exists es; [left|right; exists r]; (split; [done|]).
    + intros n request o Hn Hk. by apply (H3 n request (IEnded o)).
    + intros n request t Hn Hk. pose proof (H3 n request t Hn Hk) as Ht. by destruct t.
  - intros request next_ x. apply idem_run_whole.
  - intros request next_ resp Hk He. unfold request_key in Hk. unfold Idem, IdempotencyMiddleware, mbind, PyM_bind.
    destruct (getattr _ _) as [v|]; [|done]. injection Hk as Hk. rewrite <- Hk in He.
    destruct (ids_get_entry _ _ _ (io_store K c Hc) He) as ([rec|] & -> & Hrec); [|done]. by injection Hrec as -> ->.
Qed.

(** A deduplicated command whose handler raises can never be submitted again:
    its record stays PROCESSING, so every later submission with its id is refused
    with [ConflictError] without running, whatever the handler would do now. *)
Theorem dedup_blocks_after_failure req1 req2 cmd next1 e x :
  ids_ok x →
  rq_is_command req1 = true → rq_is_command req2 = true → rq_type req2 = rq_type req1 →
  command_key req1 = Some cmd → command_key req2 = Some cmd →
  ids_entries x !! IdempotencyKey_str (mkIKey cmd (rq_type req1)) = None →
  ends next1 req1 (Raise e) →
  ∃ x1, Dedup req1 next1 x = (Raise e, x1) ∧
    ∀ next2, Dedup req2 next2 x1 =
      (Raise (ConflictError ("Duplicate command " +:+ rq_type req2 +:+ ":" +:+ cmd)), x1).
Proof.
  intros Hok Hc1 Hc2 Hty Hk1 Hk2 Hnone Hends. set (ikey := mkIKey cmd (rq_type req1)) in *.
  destruct (run_recorded_raises ikey req1 next1 e x Hok Hends) as (x1 & Hrun & Hok1 & Hen).
  exists x1. unfold Dedup, DeduplicationMiddleware, mbind, PyM_bind.
  rewrite Hc1, Hc2, Hk1, Hk2, Hty. cbn [negb]. fold ikey.
  apply ids_get_entry in Hnone as ([rec|] & -> & Hrec); [done| |done]. split; [done|]. intros next2.
  apply ids_get_entry in Hen as ([rec'|] & -> & Hrec'); [|done..]. by injection Hrec' as -> ->.
Qed.

End Idempotency.
End Lemmas.

(** The audit middleware passes the outcome of the rest of the chain on
    unchanged and appends exactly one event to the log, after whatever the chain
    logged: "allow" if the chain returned, "deny" if it raised an [Exception], by
    the current principal or "anonymous".  Only a chain cut short by another
    [BaseException] (a cancellation) goes unrecorded. *)
Theorem audit_records_outcome {R} p eid now action rtype req
    (next_ : Handler (list AuditEvent) R) log :
  let '(o, log') := next_ req log in
  AuditMiddleware (reads (λ _, p)) (reads (λ _, eid)) (reads (λ _, now))
    InMemoryAuditStore_record action rtype req next_ log =
    (o, match o with
        | Raise e => if is_Exception e then log' ++ [mkAudit (from_option subject "anonymous" p)
            (or_default action (rq_type req)) (or_default rtype (rq_type req))
            (default "-" (getattr req "id")) "deny" eid now ∅] else log'
        | Return _ => log' ++ [mkAudit (from_option subject "anonymous" p)
            (or_default action (rq_type req)) (or_default rtype (rq_type req))
            (default "-" (getattr req "id")) "allow" eid now ∅]
        end).
Proof.
  destruct (next_ req log) as [o log'] eqn:Hn.
  unfold AuditMiddleware, try_except, try_base, mbind, PyM_bind. simpl. rewrite Hn.
  destruct o as [r|e]; simpl; [by destruct p|]. destruct (is_Exception e); simpl; [by destruct p | done].
Qed.

(** ** Witnesses: an order command, a counter for how often its handler has run *)

#[export] Instance counter_clock : Clock nat := Z.of_nat.
Definition order_state : Type := gmap string IdempotencyRecord * nat.

Definition order_request (item : string) : Request :=
  mkRequest "PlaceOrder" false true {["idempotency_key" := "k1"; "item" := item]} Plain false None.

Definition place_order : Handler order_state string := λ req,
  on_snd (updates S) ;; mret ("placed " +:+ default "?" (getattr req "item")).

Definition failing_order : Handler order_state string := λ req,
  on_snd (updates S) ;; raise (ValueError "no stock").

Definition order_utcnow (x : order_state) : Z := clock_now (snd x).

(** Requests [n] and a section of one, on the state above. *)
Definition order_config : Type := idem_config (X := order_state) (R := string).

Definition order_begin (n : nat) (c : order_config) : order_config :=
  mkIConfig (ic_store c) (<[n := (order_request "tea", idem_begin (order_request "tea"))]> (ic_calls c)) (ic_runs c).

Definition order_section (n : nat) (next_ : Handler order_state string) (c : order_config) : order_config :=
  match ic_calls c !! n with
  | Some (request, t) =>
      let '(t', x') := idem_advance id (default "") order_utcnow request next_ t (ic_store c) in
      mkIConfig x' (<[n := (request, t')]> (ic_calls c)) (ic_runs c ++ ran t t')
  | None => c
  end.

Definition order_start : order_config := begun_with (∅, 0%nat).

(** Two requests with one key in flight: both run the handler; the second one has put PROCESSING over the
    recorded result, so when it fails a third one runs it again. *)
Example overlapping_requests :
  let c1 := order_section 2 place_order (order_section 1 place_order (order_begin 2 (order_begin 1 order_start))) in
  let c2 := Nat.iter 3 (order_section 1 place_order) c1 in
  let c3 := Nat.iter 2 (order_section 2 failing_order) c2 in
  let c4 := Nat.iter 4 (order_section 3 place_order) (order_begin 3 c3) in
  ic_runs c4 = [("PlaceOrder:k1", Return "placed tea"); ("PlaceOrder:k1", Raise (ValueError "no stock"));
    ("PlaceOrder:k1", Return "placed tea")].
Proof. vm_compute. reflexivity. Qed.

Lemma place_order_leaves : leaves_records place_order.
Proof. by intros req [m n] _. Qed.

Lemma idempotent_replay_witness :
  let c := order_section 2 place_order (order_begin 2 (Nat.iter 4 (order_section 1 place_order) (order_begin 1 order_start))) in
  (∃ es r, runs_of "PlaceOrder:k1" (ic_runs c) = map Raise es ++ [Return r] ∧ snd (ic_store c) = 1%nat ∧
    snd <$> ic_calls c !! 2%nat = Some (IEnded (Return (result_json id r)))) ∧
  ∀ next_, fst (IdempotencyMiddleware id (default "") order_utcnow (order_request "tea") next_ (ic_store c)) =
    Return (result_json id "placed tea").
Proof.
  intros c. destruct (idempotent_replay id (default "") order_utcnow "PlaceOrder:k1" (∅, 0%nat) c) as (Hruns & _ & Hlater).
  - exact I.
  - intros resp. vm_compute. discriminate.
  - assert (Hsec : ∀ n request t c0, ic_calls c0 !! n = Some (request, t) →
      ∃ l, idem_step id (default "") order_utcnow l c0 (order_section n place_order c0) ∧ alone "PlaceOrder:k1" l c0).
    { intros n request t c0 Hn. exists LOther. split; [|by intros request0]. unfold order_section. rewrite Hn.
      destruct (idem_advance _ _ _ _ _ _ _) as [t' x'] eqn:E. by eapply istep_section; [|apply place_order_leaves|]. }
    eapply rtc_l; [exists (LBegin (order_request "tea")); split; [by apply (istep_begin _ _ _ order_start 1%nat)|]|].
    { intros request _ _ n request' t Hn. unfold begun_with in Hn. cbn [ic_calls] in Hn. by rewrite lookup_empty in Hn. }
    do 4 (eapply rtc_l; [by eapply (Hsec 1%nat)|]).
    eapply rtc_l; [exists (LBegin (order_request "tea")); split; [eapply (istep_begin _ _ _ _ 2%nat); vm_compute; reflexivity|]|].
    { intros request _ _ n request' t Hn _. refine (map_Forall_lookup_1 (λ _ rt, ∃ o, snd rt = IEnded o) _ n (request', t) _ Hn).
      apply map_Forall_to_list. vm_compute. repeat constructor. eauto. }
    apply rtc_once. by eapply (Hsec 2%nat).
  - split.
    + assert (Hnow : runs_of "PlaceOrder:k1" (ic_runs c) = [Return "placed tea"]) by (vm_compute; reflexivity).
      destruct Hruns as (es & [[Hr _]|(r & Hr & _)]); rewrite Hnow in Hr; [by destruct es|].
      exists es, r. rewrite Hnow. split; [exact Hr|]. destruct es as [|e [|e' es]]; [|discriminate..].
      injection Hr as <-. split; vm_compute; reflexivity.
    + intros next_. rewrite (Hlater (order_request "tea") next_ (Some (result_json id "placed tea"))); [reflexivity..|]. vm_compute. reflexivity.
Defined.

Lemma dedup_blocks_after_failure_witness :
  ∃ x1, DeduplicationMiddleware id (default "") order_utcnow (order_request "tea") failing_order
      (∅, 0%nat) = (Raise (ValueError "no stock"), x1) ∧
    DeduplicationMiddleware id (default "") order_utcnow (order_request "tea") place_order x1 =
      (Raise (ConflictError "Duplicate command PlaceOrder:k1"), x1).
Proof.
  destruct (dedup_blocks_after_failure id (default "") order_utcnow (order_request "tea")
    (order_request "tea") "k1" failing_order (ValueError "no stock") (∅, 0%nat)) as (x1 & H1 & H2).
  - exact I.
  - reflexivity.
  - reflexivity.
  - reflexivity.
  - reflexivity.
  - reflexivity.
  - reflexivity.
  - intros x _. eexists. split; [reflexivity|]. split; [exact I | reflexivity].
  - exists x1. split; [exact H1 | exact (H2 place_order)].
Defined.
