(* ===== verification/ValueObjects.v ===== *)
(** * Value objects ([kernel/types/], [kernel/contracts/contract.py])

    Money over Python's [Decimal], e-mail addresses, E.164 phone numbers, slugs,
    string identifiers, the 12-character random UID, and contract versions.
    Strings are ASCII.  The regular expressions are matched by hand-written
    recognisers; where a pattern ends in [$] the recogniser also accepts one
    trailing newline, as [re.match] does. *)
From Stdlib Require Import Qpower.
From S2P Require Import Prelude PyString Errors.

#[local] Arguments String.append !_ _ / : simpl nomatch.

(** ** Decimal: coefficient and exponent, the default context of 28 digits *)

Record Decimal := mkDec { coef : Z; expo : Z }.

Definition dec_val (d : Decimal) : Q := (inject_Z (coef d) * (10 # 1) ^ expo d)%Q.

Definition num_digits (n : Z) : Z := Z.of_nat (String.length (str_of_int (Z.abs n))).

(** [n / 10^k], halves to even. *)
Definition div_half_even (n k : Z) : Z :=
  let p := (10 ^ k)%Z in
  let q := (Z.abs n / p)%Z in
  let r := (Z.abs n mod p)%Z in
  let q' := if (2 * r <? p)%Z then q
            else if (p <? 2 * r)%Z then (q + 1)%Z
            else if Z.even q then q else (q + 1)%Z in
  (Z.sgn n * q')%Z.

(** [_fix]: round to 28 significant digits. *)
Definition dec_fix (d : Decimal) : Decimal :=
  if (Z.abs (coef d) <? 10 ^ 28)%Z then d
  else
    let k := (num_digits (coef d) - 28)%Z in
    let c := div_half_even (coef d) k in
    if (Z.abs c <? 10 ^ 28)%Z then mkDec c (expo d + k)
    else mkDec (c / 10) (expo d + k + 1).

(** The exact sum, at the smaller exponent. *)
Definition dec_add_exact (a b : Decimal) : Decimal :=
  let e := Z.min (expo a) (expo b) in
  mkDec (coef a * 10 ^ (expo a - e) + coef b * 10 ^ (expo b - e)) e.

Definition dec_neg (a : Decimal) : Decimal := mkDec (- coef a) (expo a).
Definition dec_add (a b : Decimal) : Decimal := dec_fix (dec_add_exact a b).
Definition dec_sub (a b : Decimal) : Decimal := dec_add a (dec_neg b).
Definition dec_mul (a b : Decimal) : Decimal := dec_fix (mkDec (coef a * coef b) (expo a + expo b)).
(** [d < 0]. *)
Definition dec_is_neg (d : Decimal) : bool := (coef d <? 0)%Z.

(** ** Money ([money.py]) *)

(** [s] without one trailing newline. *)
Definition chomp (s : string) : string :=
  if endswith (String "010"%char "") s then drop_last s else s.

(** [^[A-Z]{3}$]. *)
Definition is_iso4217 (currency : string) : bool :=
  let s := chomp currency in
  Nat.eqb (String.length s) 3 && str_all is_upper s.

Record Money := mkMoney { amount : Decimal; currency : string }.

(** [Money(amount, currency)] with its [__post_init__]. *)
Definition Money_init (amount : Decimal) (currency : string) : outcome Money :=
  if negb (is_iso4217 currency)
  then Raise (ValidationError ("Invalid ISO 4217 currency code: " +:+ py_repr currency))
  else if dec_is_neg amount then Raise (ValidationError "Money amount must be non-negative")
  else Return (mkMoney amount currency).

Definition assert_same_currency (a b : Money) : outcome unit :=
  if negb (String.eqb (currency a) (currency b))
  then Raise (ValidationError ("Currency mismatch: " +:+ currency a +:+ " vs " +:+ currency b))
  else Return tt.

Definition Money_add (a b : Money) : outcome Money :=
  match assert_same_currency a b with
  | Raise e => Raise e
  | Return _ => Money_init (dec_add (amount a) (amount b)) (currency a)
  end.

Definition Money_sub (a b : Money) : outcome Money :=
  match assert_same_currency a b with
  | Raise e => Raise e
  | Return _ =>
      let result := dec_sub (amount a) (amount b) in
      if dec_is_neg result then Raise (ValidationError "Subtraction would produce negative Money")
      else Money_init result (currency a)
  end.

(** [Money.of] for an amount given as an [int] or a [Decimal]. *)
Definition Money_of (amount : Decimal) (currency : string) : outcome Money :=
  Money_init amount (upper currency).

Definition Money_multiply (a : Money) (factor : Decimal) : outcome Money :=
  let result := dec_mul (amount a) factor in
  if dec_is_neg result then Raise (ValidationError "multiply() would produce negative Money")
  else Money_init result (currency a).

(** ** E-mail ([email.py]) *)

(** [s.split(c, 1)] at the first, and at the last, occurrence of [c]. *)
Fixpoint split_first (c : ascii) (s : string) : option (string * string) :=
  match s with
  | "" => None
  | String x s' =>
      if Ascii.eqb x c then Some ("", s')
      else match split_first c s' with
           | Some (l, r) => Some (String x l, r)
           | None => None
           end
  end.

Fixpoint split_last (c : ascii) (s : string) : option (string * string) :=
  match s with
  | "" => None
  | String x s' =>
      match split_last c s' with
      | Some (l, r) => Some (String x l, r)
      | None => if Ascii.eqb x c then Some ("", s') else None
      end
  end.

Definition is_local_char (c : ascii) : bool :=
  is_alnum c || str_in (String c "") ["."; "_"; "%"; "+"; "-"].
Definition is_domain_char (c : ascii) : bool := is_alnum c || str_in (String c "") ["."; "-"].
Definition nonempty (s : string) : bool := negb (String.eqb s "").

(** [_EMAIL_PATTERN].  No class of the pattern has an [@], so the split is at the
    only one; the top-level domain has no dot, so it starts after the last. *)
Definition is_email (s : string) : bool :=
  match split_first "@" (chomp s) with
  | None => false
  | Some (local, rest) =>
      nonempty local && str_all is_local_char local &&
      match split_last "." rest with
      | None => false
      | Some (dom, tld) =>
          nonempty dom && str_all is_domain_char dom &&
          Nat.leb 2 (String.length tld) && str_all is_alpha tld
      end
  end.

(** [Email(value)]: the value kept is the normalised one. *)
Definition Email_init (value : string) : outcome string :=
  let normalised := strip (lower value) in
  if is_email normalised then Return normalised
  else Raise (ValidationError ("Invalid email address: " +:+ py_repr normalised)).

Definition Email_domain (value : string) : outcome string :=
  match split_first "@" value with
  | Some (_, d) => Return d
  | None => Raise (IndexError "list index out of range")
  end.

(** ** Phone numbers ([phone.py]) *)

Definition CC1 : list string := ["1"; "7"].
Definition CC2 : list string :=
  ["20"; "27"; "30"; "31"; "32"; "33"; "34"; "36"; "39"; "40"; "41"; "43"; "44"; "45"; "46";
   "47"; "48"; "49"; "51"; "52"; "53"; "54"; "55"; "56"; "57"; "58"; "60"; "61"; "62"; "63";
   "64"; "65"; "66"; "81"; "82"; "84"; "86"; "90"; "91"; "92"; "93"; "94"; "95"; "98"].

(** [^\+[1-9]\d{6,14}$]. *)
Definition is_e164 (value : string) : bool :=
  match chomp value with
  | String "+" (String d rest) =>
      in_range 49 57 d && Nat.leb 6 (String.length rest) && Nat.leb (String.length rest) 14 &&
      str_all is_digit rest
  | _ => false
  end.

Definition PhoneNumber_init (value : string) : outcome string :=
  if is_e164 value then Return value
  else Raise (ValidationError ("Invalid E.164 phone number: " +:+ py_repr value)).

(** [s[n:]] and [s[:n]]. *)
Definition str_from (n : nat) (s : string) : string := String.substring n (String.length s - n) s.
Definition str_upto (n : nat) (s : string) : string := String.substring 0 n s.

Definition country_code (value : string) : string :=
  let digits := str_from 1 value in
  if str_in (str_upto 1 digits) CC1 then str_upto 1 digits
  else if str_in (str_upto 2 digits) CC2 then str_upto 2 digits
  else str_upto 3 digits.

Definition national_number (value : string) : string :=
  str_from (1 + String.length (country_code value)) value.

(** ** Slugs ([slug.py]) *)

Definition is_slug_char (c : ascii) : bool := is_lower c || is_digit c.
Definition hyphen : ascii := "-".

(** [[a-z0-9]+(?:-[a-z0-9]+)*]: non-empty groups between single hyphens. *)
Definition is_slug_body (s : string) : bool :=
  forallb (λ w, nonempty w && str_all is_slug_char w) (split_on hyphen s).

Definition Slug_init (value : string) : outcome string :=
  if is_slug_body (chomp value) then Return value
  else Raise (ValidationError
    ("Invalid slug (must be lowercase alphanumeric + hyphens): " +:+ py_repr value)).

(** [\w] and [\s] on ASCII. *)
Definition is_word (c : ascii) : bool := is_alnum c || Ascii.eqb c "_".

(** [re.sub("p+", "-", s)]: every run of characters of class [p] becomes a hyphen. *)
Fixpoint sub_runs (p : ascii → bool) (in_run : bool) (s : string) : string :=
  match s with
  | "" => ""
  | String c s' =>
      if p c then if in_run then sub_runs p true s' else String hyphen (sub_runs p true s')
      else String c (sub_runs p false s')
  end.

(** On ASCII text: the classes of the source are those of Unicode, by which other letters and digits are
    left in the text, for the pattern of a slug to refuse. *)
Definition slugify (text : string) : string :=
  let value := strip (lower text) in
  let value := str_filter (λ c, is_word c || is_space c || Ascii.eqb c hyphen) value in
  let value := sub_runs (λ c, is_space c || Ascii.eqb c "_") false value in
  strip_by (Ascii.eqb hyphen) (sub_runs (Ascii.eqb hyphen) false value).

Definition Slug_from_text (text : string) : outcome string := Slug_init (slugify text).

(** ** Identifiers ([ids.py], [uid.py]) *)

(** [_StrId] and its subclasses. *)
Definition StrId_init (cls value : string) : outcome string :=
  if String.eqb value "" then Raise (ValidationError (cls +:+ " must not be empty")) else Return value.

Definition EntityId_from_str (value : string) : outcome string := StrId_init "EntityId" value.

(** [[0-9A-HJKMNP-TV-Z]{26}] on the upper-cased value. *)
Definition is_ulid_char (c : ascii) : bool :=
  is_digit c || (is_upper c && negb (str_in (String c "") ["I"; "L"; "O"; "U"])).

Definition ULID_init (value : string) : outcome string :=
  let s := chomp (upper value) in
  if Nat.eqb (String.length s) 26 && str_all is_ulid_char s then Return value
  else Raise (ValidationError ("Invalid ULID: " +:+ py_repr value)).

Definition UID_init (value : string) : outcome string :=
  if Nat.eqb (String.length value) 12 then Return value
  else Raise (ValidationError ("UID must be exactly 12 characters, got "
         +:+ str_of_int (Z.of_nat (String.length value)))).

(** [base64.urlsafe_b64encode] on whole groups of three bytes. *)
Definition b64_char (n : nat) : ascii :=
  if Nat.ltb n 26 then ascii_of_nat (65 + n)
  else if Nat.ltb n 52 then ascii_of_nat (71 + n)
  else if Nat.ltb n 62 then ascii_of_nat (n - 4)
  else if Nat.eqb n 62 then "-" else "_".

Fixpoint b64_groups (l : list ascii) : string :=
  match l with
  | a :: b :: c :: l' =>
      String (b64_char (code a / 4))
        (String (b64_char (code a mod 4 * 16 + code b / 16))
          (String (b64_char (code b mod 16 * 4 + code c / 64))
            (String (b64_char (code c mod 64)) (b64_groups l'))))
  | _ => ""
  end.

(** [UID.generate] from the nine bytes drawn. *)
Definition UID_generate (raw : list ascii) : outcome string := UID_init (b64_groups raw).

(** ** Contract versions ([contract.py]) *)

Record ContractVersion := mkVersion { major : Z; minor : Z; patch : Z }.

Definition ContractVersion_str (v : ContractVersion) : string :=
  str_of_int (major v) +:+ "." +:+ str_of_int (minor v) +:+ "." +:+ str_of_int (patch v).

(** [int(s)] in base 10: surrounding blanks, a sign, digits with single underscores
    between them. *)
Definition digit_val (c : ascii) : Z := Z.of_nat (code c - 48).

Fixpoint int_digits (acc : Z) (s : string) : option Z :=
  match s with
  | "" => Some acc
  | String c s' =>
      if is_digit c then int_digits (acc * 10 + digit_val c) s'
      else if Ascii.eqb c "_" then
        match s' with
        | String c' s'' => if is_digit c' then int_digits (acc * 10 + digit_val c') s'' else None
        | "" => None
        end
      else None
  end.

Definition int_body (s : string) : option Z :=
  match s with
  | String c s' => if is_digit c then int_digits (digit_val c) s' else None
  | "" => None
  end.

Definition py_int (s : string) : outcome Z :=
  let r := match strip s with
           | String "-" s' => Z.opp <$> int_body s'
           | String "+" s' => int_body s'
           | s' => int_body s'
           end in
  match r with
  | Some n => Return n
  | None => Raise (ValueError ("invalid literal for int() with base 10: " +:+ py_repr s))
  end.

Definition ContractVersion_from_str (value : string) : outcome ContractVersion :=
  match split_on "." (strip value) with
  | [a; b; c] =>
      match py_int a with
      | Raise e => Raise e
      | Return major =>
          match py_int b with
          | Raise e => Raise e
          | Return minor =>
              match py_int c with
              | Raise e => Raise e
              | Return patch => Return (mkVersion major minor patch)
              end
          end
      end
  | _ => Raise (ValueError ("Invalid ContractVersion string: " +:+ py_repr value))
  end.

(** [order=True]: lexicographic. *)
Definition ContractVersion_lt (a b : ContractVersion) : bool :=
  (major a <? major b)%Z || (major a =? major b)%Z &&
    ((minor a <? minor b)%Z || (minor a =? minor b)%Z && (patch a <? patch b)%Z).

(** ** Lemmas: integers as text *)

Lemma pretty_char_digit (d : N) :
  (d < 10)%N → is_digit (pretty_N_char d) = true ∧ digit_val (pretty_N_char d) = Z.of_N d.
Proof.
  intros Hd. assert (d = 0 ∨ d = 1 ∨ d = 2 ∨ d = 3 ∨ d = 4 ∨ d = 5 ∨ d = 6 ∨ d = 7 ∨ d = 8 ∨ d = 9)%N
    as Hc by lia.
  repeat (destruct Hc as [-> | Hc]; [done|]). by subst.
Qed.

Lemma int_digits_go x acc :
  ∃ k, (0 <= k)%Z ∧ ∀ s, int_digits acc (pretty_N_go x s) = int_digits (acc * 10 ^ k + Z.of_N x) s.
Proof.
  induction (N.lt_wf_0 x) as [x _ IH]. destruct (decide (x = 0)%N) as [->|Hx].
  { exists 0%Z. split; [done|]. intros s. rewrite pretty_N_go_0. f_equal. lia. }
  destruct (IH (x `div` 10)%N) as (k & Hk & Hgo); [by apply N.div_lt; lia|].
  exists (k + 1)%Z. split; [lia|]. intros s. rewrite pretty_N_go_step by lia. rewrite Hgo. simpl.
  destruct (pretty_char_digit (x `mod` 10)) as [-> ->]; [by apply N.mod_lt|].
  f_equal. rewrite Z.pow_add_r by lia. rewrite (N.div_mod x 10) at 3 by done. lia.
Qed.

Lemma go_digits x s : str_all is_digit (pretty_N_go x s) = str_all is_digit s.
Proof.
  revert s. induction (N.lt_wf_0 x) as [x _ IH]; intros s.
  destruct (decide (x = 0)%N) as [->|Hx]; [by rewrite pretty_N_go_0|].
  rewrite pretty_N_go_step by lia. rewrite IH by (apply N.div_lt; lia). simpl.
  by rewrite (proj1 (pretty_char_digit (x `mod` 10) ltac:(by apply N.mod_lt))).
Qed.

Lemma go_nonempty x s : (0 < x)%N → ∃ c r, pretty_N_go x s = String c r.
Proof.
  revert s. induction (N.lt_wf_0 x) as [x _ IH]; intros s Hx.
  rewrite pretty_N_go_step by done. destruct (decide (x `div` 10 = 0)%N) as [->|Hd].
  - rewrite pretty_N_go_0. eauto.
  - apply IH; [by apply N.div_lt | by apply N.neq_0_lt_0].
Qed.

Lemma int_body_pretty (p : positive) : int_body (pretty (Npos p)) = Some (Zpos p).
Proof.
  change (pretty (Npos p)) with (pretty_N_go (Npos p) "").
  destruct (int_digits_go (Npos p) 0) as (k & _ & Hgo). specialize (Hgo ""). simpl in Hgo.
  destruct (go_nonempty (Npos p) "") as (c & r & Hcr); [done|].
  pose proof (go_digits (Npos p) "") as Hall. rewrite Hcr in *. simpl in *.
  destruct (is_digit c); [|done].
  by replace (digit_val c) with (0 * 10 + digit_val c)%Z by lia.
Qed.

(** The characters of [str(n)]: digits, and a sign in front. *)
Definition is_int_char (c : ascii) : bool := is_digit c || Ascii.eqb c "-".

Lemma str_of_int_chars n : str_all is_int_char (str_of_int n) = true.
Proof.
  assert (∀ p : positive, str_all is_int_char (pretty (Npos p)) = true) as Hp.
  { intros p. apply (str_all_impl is_digit); [intros c Hc; unfold is_int_char; by rewrite Hc|].
    change (pretty (Npos p)) with (pretty_N_go (Npos p) ""). by rewrite go_digits. }
  destruct n as [|p|p]; [done | apply Hp |]. apply (Hp p).
Qed.

Lemma int_char_cases c :
  is_int_char c = true → is_space c = false ∧ Ascii.eqb c "." = false.
Proof.
  destruct c as [[] [] [] [] [] [] [] []]; vm_compute; intros H; done.
Qed.

Lemma int_chars_no_space s : str_all is_int_char s = true → str_all (λ c, negb (is_space c)) s = true.
Proof. apply str_all_impl. intros c Hc. by rewrite (proj1 (int_char_cases c Hc)). Qed.

Lemma py_int_str n : py_int (str_of_int n) = Return n.
Proof.
  unfold py_int, strip. rewrite strip_none by apply int_chars_no_space, str_of_int_chars.
  destruct n as [|p|p]; [done| |].
  - change (str_of_int (Z.pos p)) with (pretty (Npos p)). pose proof (int_body_pretty p) as Hb.
    destruct (pretty (Npos p)) as [|c r]; [done|].
    destruct (Ascii.eqb_spec c "-") as [->|Hm]; [done|].
    destruct (Ascii.eqb_spec c "+") as [->|Hp]; [done|].
    destruct c as [[] [] [] [] [] [] [] []]; by rewrite ?Hb.
  - change (str_of_int (Z.neg p)) with ("-" +:+ pretty (Npos p)). simpl.
    by rewrite int_body_pretty.
Qed.

Lemma split_on_app c s t :
  str_all (λ x, negb (Ascii.eqb x c)) s = true →
  split_on c (s +:+ String c t) = s :: split_on c t.
Proof.
  induction s as [|x s IH]; simpl; [by rewrite Ascii.eqb_refl|].
  destruct (Ascii.eqb x c); [done|]. simpl. intros Hs. by rewrite IH.
Qed.

Lemma split_on_single c s :
  str_all (λ x, negb (Ascii.eqb x c)) s = true → split_on c s = [s].
Proof.
  induction s as [|x s IH]; simpl; [done|]. destruct (Ascii.eqb x c); [done|]. simpl.
  intros Hs. by rewrite IH.
Qed.

(** ** Lemmas: slugs *)

#[local] Arguments Ascii.eqb : simpl never.
#[local] Arguments is_slug_char : simpl never.

(** An automaton for the slug pattern; [prev] says whether a hyphen may not follow. *)
Fixpoint slug_run (prev : bool) (s : string) : bool :=
  match s with
  | "" => negb prev
  | String c s' =>
      if Ascii.eqb c hyphen then negb prev && slug_run true s'
      else is_slug_char c && slug_run false s'
  end.

(** The same without the condition on the last character. *)
Fixpoint slug_prefix (prev : bool) (s : string) : bool :=
  match s with
  | "" => true
  | String c s' =>
      if Ascii.eqb c hyphen then negb prev && slug_prefix true s'
      else is_slug_char c && slug_prefix false s'
  end.

Definition group_ok (w : string) : bool := nonempty w && str_all is_slug_char w.

Lemma split_on_cons c s : ∃ w ws, split_on c s = w :: ws.
Proof.
  destruct s as [|x s]; simpl; [eauto|]. destruct (Ascii.eqb x c); [eauto|].
  destruct (split_on c s); eauto.
Qed.

Lemma slug_run_groups s w ws :
  split_on hyphen s = w :: ws →
  slug_run true s = group_ok w && forallb group_ok ws ∧
  slug_run false s = str_all is_slug_char w && forallb group_ok ws.
Proof.
  revert w ws. induction s as [|c s IH]; intros w ws; simpl; [by intros [= <- <-]|].
  destruct (split_on_cons hyphen s) as (w1 & ws1 & Hs). rewrite Hs.
  destruct (IH _ _ Hs) as [IH1 IH2]. destruct (Ascii.eqb c hyphen) eqn:Hc; intros [= <- <-].
  - by rewrite IH1.
  - rewrite IH2. change (group_ok (String c w1)) with (is_slug_char c && str_all is_slug_char w1).
    simpl. rewrite andb_assoc. split; reflexivity.
Qed.

Lemma slug_body_run s : is_slug_body s = slug_run true s.
Proof.
  unfold is_slug_body. destruct (split_on_cons hyphen s) as (w & ws & Hs). rewrite Hs.
  by rewrite (proj1 (slug_run_groups s w ws Hs)).
Qed.

(** The alphabet before hyphens are collapsed. *)
Definition slug_or_hyphen (c : ascii) : bool := is_slug_char c || Ascii.eqb c hyphen.

Lemma collapse_prefix b s :
  str_all slug_or_hyphen s = true → slug_prefix b (sub_runs (Ascii.eqb hyphen) b s) = true.
Proof.
  revert b. induction s as [|c s IH]; intros b; simpl; [done|]. rewrite andb_true_iff.
  intros [Hc Hs]. rewrite (Ascii.eqb_sym hyphen c). destruct (Ascii.eqb c hyphen) eqn:E.
  - destruct b; simpl; [by apply IH | by apply IH].
  - simpl. rewrite E. unfold slug_or_hyphen in Hc. rewrite E, orb_false_r in Hc. rewrite Hc.
    by apply IH.
Qed.

Lemma lstrip_prefix s : slug_prefix false s = true → slug_prefix true (lstrip_by (Ascii.eqb hyphen) s) = true.
Proof.
  destruct s as [|c s]; [done|]. simpl. rewrite (Ascii.eqb_sym hyphen c).
  destruct (Ascii.eqb c hyphen) eqn:E; simpl.
  - intros Hs. destruct s as [|c' s]; [done|]. simpl in *. rewrite (Ascii.eqb_sym hyphen c').
    destruct (Ascii.eqb c' hyphen) eqn:E'; [done|]. simpl. by rewrite E'.
  - by rewrite E.
Qed.

Lemma rstrip_run b s :
  slug_prefix b s = true →
  rstrip_by (Ascii.eqb hyphen) s = "" ∨ slug_run b (rstrip_by (Ascii.eqb hyphen) s) = true.
Proof.
  revert b. induction s as [|c s IH]; intros b; simpl; [by left|].
  rewrite (Ascii.eqb_sym hyphen c). destruct (Ascii.eqb c hyphen) eqn:E; simpl.
  - rewrite andb_true_iff. intros [Hb Hs]. destruct (IH _ Hs) as [->|Hr]; [by left|].
    destruct (rstrip_by _ s) as [|c' r] eqn:Er; [by left|]. right.
    change (slug_run b (String c (String c' r)) = true). simpl slug_run at 1. rewrite E.
    simpl in Hr |- *. by rewrite Hb.
  - rewrite andb_true_iff. intros [Hc Hs]. right. destruct (rstrip_by _ s) as [|c' r] eqn:Er.
    + simpl. by rewrite E, Hc.
    + destruct (IH _ Hs) as [?|Hr]; [done|].
      change (slug_run b (String c (String c' r)) = true). simpl slug_run at 1. rewrite E, Hc. done.
Qed.

Lemma str_all_lower s : str_all (λ c, negb (is_upper c)) (lower s) = true.
Proof.
  induction s as [|c s IH]; [done|]. change (lower (String c s)) with (String (lower_char c) (lower s)).
  cbn [str_all]. rewrite IH, andb_true_r. destruct c as [[] [] [] [] [] [] [] []]; reflexivity.
Qed.

Lemma str_all_lstrip q p s : str_all q s = true → str_all q (lstrip_by p s) = true.
Proof.
  induction s as [|c s IH]; [done|]. simpl. rewrite andb_true_iff. intros [Hc Hs].
  destruct (p c); [auto|]. simpl. by rewrite Hc.
Qed.

Lemma str_all_rstrip q p s : str_all q s = true → str_all q (rstrip_by p s) = true.
Proof.
  induction s as [|c s IH]; [done|]. simpl. rewrite andb_true_iff. intros [Hc Hs].
  specialize (IH Hs). destruct (rstrip_by p s) as [|c' r]; [destruct (p c); simpl; by rewrite ?Hc|].
  change (q c && str_all q (String c' r) = true). by rewrite Hc, IH.
Qed.

Lemma str_all_filter q p s :
  str_all q s = true → str_all (λ c, p c && q c) (str_filter p s) = true.
Proof.
  induction s as [|c s IH]; [done|]. simpl. rewrite andb_true_iff. intros [Hc Hs].
  destruct (p c) eqn:Hp; [|auto]. simpl. by rewrite Hp, Hc, IH.
Qed.

Lemma sub_runs_all q p b s :
  q hyphen = true → str_all (λ c, p c || q c) s = true → str_all q (sub_runs p b s) = true.
Proof.
  intros Hh. revert b. induction s as [|c s IH]; intros b; [done|]. simpl.
  rewrite andb_true_iff. intros [Hc Hs]. destruct (p c); [|by simpl; rewrite (IH false Hs), andb_true_r].
  destruct b; [by apply IH|]. simpl. by rewrite Hh, IH.
Qed.

Lemma slug_alphabet c :
  ((is_word c || is_space c || Ascii.eqb c hyphen) && negb (is_upper c) = true) →
  (is_space c || Ascii.eqb c "_") || slug_or_hyphen c = true.
Proof. destruct c as [[] [] [] [] [] [] [] []]; vm_compute; intros H; done. Qed.

Lemma slugify_valid text : slugify text = "" ∨ slug_run true (slugify text) = true.
Proof.
  unfold slugify, strip_by. apply rstrip_run, lstrip_prefix, collapse_prefix.
  apply sub_runs_all; [done|].
  apply (str_all_impl (λ c, (is_word c || is_space c || Ascii.eqb c hyphen) && negb (is_upper c)));
    [intros c; apply slug_alphabet|].
  apply str_all_filter, str_all_rstrip, str_all_lstrip, str_all_lower.
Qed.

(** Valid slugs are fixed points of every step. *)
Lemma slug_run_chars b s : slug_run b s = true → str_all slug_or_hyphen s = true.
Proof.
  revert b. induction s as [|c s IH]; intros b; [done|]. simpl. unfold slug_or_hyphen at 1.
  destruct (Ascii.eqb c hyphen); rewrite andb_true_iff; intros [H1 H2].
  - by rewrite orb_true_r, (IH _ H2).
  - by rewrite H1, (IH _ H2).
Qed.

Lemma slug_char_fixed c :
  slug_or_hyphen c = true →
  lower_char c = c ∧ is_space c = false ∧ is_word c || Ascii.eqb c hyphen = true ∧
  Ascii.eqb c "_" = false ∧ Ascii.eqb c "010" = false.
Proof. destruct c as [[] [] [] [] [] [] [] []]; vm_compute; intros H; done. Qed.

Lemma lower_fixed s : str_all slug_or_hyphen s = true → lower s = s.
Proof.
  induction s as [|c s IH]; [done|]. change (lower (String c s)) with (String (lower_char c) (lower s)).
  cbn [str_all]. rewrite andb_true_iff. intros [Hc Hs].
  by rewrite (proj1 (slug_char_fixed c Hc)), IH.
Qed.

Lemma filter_fixed p s : (∀ c, slug_or_hyphen c = true → p c = true) →
  str_all slug_or_hyphen s = true → str_filter p s = s.
Proof.
  intros Hp. induction s as [|c s IH]; [done|]. simpl. rewrite andb_true_iff. intros [Hc Hs].
  rewrite Hp by done. by rewrite IH.
Qed.

Lemma sub_runs_fixed p s : (∀ c, slug_or_hyphen c = true → p c = false) →
  str_all slug_or_hyphen s = true → sub_runs p false s = s.
Proof.
  intros Hp. induction s as [|c s IH]; [done|]. simpl. rewrite andb_true_iff. intros [Hc Hs].
  rewrite Hp by done. by rewrite IH.
Qed.

Lemma collapse_fixed b s : slug_run b s = true → sub_runs (Ascii.eqb hyphen) b s = s.
Proof.
  revert b. induction s as [|c s IH]; intros b; [done|]. simpl. rewrite (Ascii.eqb_sym hyphen c).
  destruct (Ascii.eqb_spec c hyphen) as [->|]; rewrite andb_true_iff; intros [H1 H2].
  - destruct b; [done|]. by rewrite IH.
  - by rewrite IH.
Qed.

Lemma rstrip_fixed b s : slug_run b s = true → rstrip_by (Ascii.eqb hyphen) s = s.
Proof.
  revert b. induction s as [|c s IH]; intros b; [done|]. simpl. rewrite (Ascii.eqb_sym hyphen c).
  destruct (Ascii.eqb c hyphen); rewrite andb_true_iff; intros [H1 H2]; rewrite (IH _ H2);
    destruct s; done.
Qed.

Lemma lstrip_fixed s : slug_run true s = true → lstrip_by (Ascii.eqb hyphen) s = s.
Proof. destruct s as [|c s]; [done|]. simpl. rewrite (Ascii.eqb_sym hyphen c). by destruct (Ascii.eqb c hyphen). Qed.

Lemma slug_run_weaken s : slug_run true s = true → slug_run false s = true.
Proof. destruct s as [|c s]; [done|]. simpl. by destruct (Ascii.eqb c hyphen). Qed.

Lemma slugify_fixed s : slug_run true s = true → slugify s = s.
Proof.
  intros Hs. pose proof (slug_run_chars _ _ Hs) as Hc. unfold slugify.
  rewrite lower_fixed by done. unfold strip. rewrite (strip_none is_space).
  2: { revert Hc. apply str_all_impl. intros c Hc. by rewrite (proj1 (proj2 (slug_char_fixed c Hc))). }
  rewrite filter_fixed; [| |done].
  2: { intros c Hc'. destruct (slug_char_fixed c Hc') as (_ & Hsp & Hw & _). cbv beta.
       by rewrite Hsp, orb_false_r. }
  rewrite (sub_runs_fixed (λ c, is_space c || Ascii.eqb c "_") s); [| |done].
  2: { intros c Hc'. destruct (slug_char_fixed c Hc') as (_ & Hsp & _ & Hu & _). cbv beta.
       by rewrite Hsp, Hu. }
  rewrite (collapse_fixed false) by (by apply slug_run_weaken). unfold strip_by.
  rewrite lstrip_fixed by done. by apply (rstrip_fixed true).
Qed.

Lemma chomp_none s : str_all (λ c, negb (Ascii.eqb c "010"%char)) s = true → chomp s = s.
Proof.
  intros Hs. unfold chomp. destruct (endswith (String "010" "") s) eqn:E; [|done].
  apply endswith_spec in E as [r ->]. rewrite str_all_app, andb_true_iff in Hs. by destruct Hs.
Qed.

Lemma chomp_fixed s : str_all slug_or_hyphen s = true → chomp s = s.
Proof.
  intros Hs. apply chomp_none. eapply str_all_impl; [|exact Hs].
  intros c. destruct c as [[] [] [] [] [] [] [] []]; done.
Qed.

(** What a slug is made of: the letters, in lower case, and digits of the text, in words between blanks, underscores
    and hyphens; everything else is dropped. *)
Definition is_separator (c : ascii) : bool := is_space c || Ascii.eqb c "_" || Ascii.eqb c hyphen.

Fixpoint slug_words (word s : string) : list string :=
  match s with
  | "" => if nonempty word then [word] else []
  | String c s' =>
      if is_separator c then (if nonempty word then [word] else []) ++ slug_words "" s'
      else slug_words (if is_alnum c then word +:+ String (lower_char c) "" else word) s'
  end.
#[local] Arguments is_separator : simpl never.

Lemma words_lower s : ∀ word, slug_words word (lower s) = slug_words word s.
Proof.
  induction s as [|c s IH]; intros word; [done|]. change (lower (String c s)) with (String (lower_char c) (lower s)). cbn [slug_words].
  assert (is_separator (lower_char c) = is_separator c ∧ is_alnum (lower_char c) = is_alnum c ∧ lower_char (lower_char c) = lower_char c) as (-> & -> & ->)
    by (destruct c as [[] [] [] [] [] [] [] []]; by vm_compute).
  by rewrite !IH.
Qed.

Lemma words_lstrip p s : (∀ c, p c = true → is_separator c = true) → slug_words "" (lstrip_by p s) = slug_words "" s.
Proof. intros Hp. induction s as [|c s IH]; [done|]. simpl. destruct (p c) eqn:E; [|done]. by rewrite (Hp c E), IH. Qed.

Lemma words_rstrip p s : (∀ c, p c = true → is_separator c = true) → ∀ word, slug_words word (rstrip_by p s) = slug_words word s.
Proof.
  intros Hp. induction s as [|c s IH]; intros word; [done|]. cbn [rstrip_by]. destruct (rstrip_by p s) as [|c' r] eqn:Er.
  - cbn [slug_words]. rewrite <- !IH. destruct (p c) eqn:E; [by rewrite (Hp c E); simpl; rewrite app_nil_r|]. done.
  - cbn [slug_words]. rewrite <- !IH. done.
Qed.

Lemma words_strip p s : (∀ c, p c = true → is_separator c = true) → slug_words "" (strip_by p s) = slug_words "" s.
Proof. intros Hp. unfold strip_by. by rewrite words_rstrip, words_lstrip. Qed.

Lemma words_filter p s : (∀ c, p c = false → is_separator c = false ∧ is_alnum c = false) → ∀ word, slug_words word (str_filter p s) = slug_words word s.
Proof.
  intros Hp. induction s as [|c s IH]; intros word; [done|]. cbn [str_filter]. destruct (p c) eqn:E; cbn [slug_words]; rewrite ?IH; [done|].
  destruct (Hp c E) as [-> ->]. done.
Qed.

Lemma words_sub_runs p s : (∀ c, p c = true → is_separator c = true) →
  ∀ b word, (b = true → word = "") → slug_words word (sub_runs p b s) = slug_words word s.
Proof.
  intros Hp. induction s as [|c s IH]; intros b word Hb; [done|]. cbn [sub_runs slug_words]. destruct (p c) eqn:E.
  - rewrite (Hp c E). destruct b; [rewrite (Hb eq_refl); by apply IH|]. cbn [slug_words]. change (is_separator hyphen) with true. cbn iota.
    by rewrite IH.
  - cbn [slug_words]. by rewrite !IH by done.
Qed.

Lemma words_slugify text : slug_words "" (slugify text) = slug_words "" text.
Proof.
  unfold slugify. rewrite words_strip by (intros c Hc; apply Ascii.eqb_eq in Hc as <-; done).
  rewrite words_sub_runs by (done || (intros c Hc; apply Ascii.eqb_eq in Hc as <-; done)).
  rewrite words_sub_runs by (done || (intros c Hc; unfold is_separator; by rewrite Hc)).
  rewrite words_filter by (intros c; destruct c as [[] [] [] [] [] [] [] []]; by vm_compute).
  unfold strip. rewrite words_strip by (intros c Hc; unfold is_separator; by rewrite Hc). apply words_lower.
Qed.

Lemma slug_char_word c : is_slug_char c = true → is_separator c = false ∧ is_alnum c = true ∧ lower_char c = c.
Proof. destruct c as [[] [] [] [] [] [] [] []]; by vm_compute. Qed.

(** A slug is its words. *)
Lemma join_words s : ∀ b word, slug_run b s = true → (b = true ↔ word = "") → join "-" (slug_words word s) = word +:+ s ∧ slug_words word s ≠ [].
Proof.
  induction s as [|c s IH]; intros b word Hs Hb; cbn [slug_run slug_words] in *.
  - destruct word as [|x word]; [|by rewrite app_nil_r_str]. by rewrite (proj2 Hb) in Hs.
  - destruct (Ascii.eqb_spec c hyphen) as [->|Hne]; apply andb_true_iff in Hs as [H1 H2].
    + destruct b; [done|]. change (is_separator hyphen) with true. cbn iota. destruct word as [|x word]; [by destruct (proj2 Hb eq_refl)|].
      destruct (IH true "" H2 ltac:(done)) as [Hj Hn]. change (nonempty (String x word)) with true. cbn iota. cbn [app].
      destruct (slug_words "" s) as [|w ws]; [done|]. split; [|done]. change (join "-" (String x word :: w :: ws)) with (String x word +:+ "-" +:+ join "-" (w :: ws)).
      by rewrite Hj.
    + destruct (slug_char_word c H1) as (-> & -> & ->).
      destruct (IH false (word +:+ String c "") H2) as [Hj Hn]; [by destruct word|]. split; [|done]. by rewrite Hj, app_assoc_str.
Qed.

(** ** Lemmas: money *)

Lemma dec_add_exact_val a b : (dec_val (dec_add_exact a b) == dec_val a + dec_val b)%Q.
Proof.
  unfold dec_val, dec_add_exact. simpl. set (e := Z.min (expo a) (expo b)).
  assert (∀ x, (e <= x)%Z → ((10 # 1) ^ x == inject_Z (10 ^ (x - e)) * (10 # 1) ^ e)%Q) as Hsc.
  { intros x Hx. rewrite Zpower_Qpower by lia. change (inject_Z 10) with (10 # 1)%Q.
    rewrite <- Qpower_plus by done. by replace (x - e + e)%Z with x by lia. }
  rewrite (Hsc (expo a)), (Hsc (expo b)) by lia.
  rewrite inject_Z_plus, !inject_Z_mult. ring.
Qed.

Lemma dec_fix_exact d : (Z.abs (coef d) < 10 ^ 28)%Z → dec_fix d = d.
Proof. intros Hd. unfold dec_fix. by rewrite (proj2 (Z.ltb_lt _ _)). Qed.

Lemma dec_neg_val a : (dec_val (dec_neg a) == - dec_val a)%Q.
Proof. unfold dec_val, dec_neg. simpl. rewrite inject_Z_opp. ring. Qed.

Lemma dec_is_neg_val d : dec_is_neg d = true ↔ (dec_val d < 0)%Q.
Proof.
  unfold dec_is_neg, dec_val. rewrite Z.ltb_lt.
  assert (0 < (10 # 1) ^ expo d)%Q as Hp by (by apply Qpower_0_lt).
  rewrite Zlt_Qlt. change (inject_Z 0) with 0%Q. split; intros H; nra.
Qed.

(** A valid amount of money. *)
Definition money_ok (m : Money) : Prop :=
  is_iso4217 (currency m) = true ∧ (0 <= dec_val (amount m))%Q.

Lemma Money_init_cases a c :
  (∃ m, Money_init a c = Return m ∧ money_ok m ∧ amount m = a ∧ currency m = c) ∨
  (∃ msg, Money_init a c = Raise (ValidationError msg)) ∧
    (is_iso4217 c = false ∨ dec_val a < 0)%Q.
Proof.
  unfold Money_init. destruct (is_iso4217 c) eqn:Hc; simpl; [|right; eauto].
  destruct (dec_is_neg a) eqn:Ha; [right; split; [eauto | right; by apply dec_is_neg_val]|].
  left. eexists. split; [done|]. split; [split|]; simpl; [done | | done].
  apply Qnot_lt_le. intros H. apply dec_is_neg_val in H. congruence.
Qed.

(** ** Properties *)

(** [ContractVersion.from_str] reads back what [str] prints, for all version
    numbers. *)
Theorem contract_version_roundtrip v :
  ContractVersion_from_str (ContractVersion_str v) = Return v.
Proof.
  destruct v as [a b c]. unfold ContractVersion_from_str, ContractVersion_str, strip. simpl.
  assert (∀ n, str_all (λ x, negb (Ascii.eqb x ".")) (str_of_int n) = true) as Hdot.
  { intros n. apply (str_all_impl is_int_char); [|apply str_of_int_chars].
    intros x Hx. by rewrite (proj2 (int_char_cases x Hx)). }
  assert (∀ n, str_all (λ x, negb (is_space x)) (str_of_int n) = true) as Hsp
    by (intros n; apply int_chars_no_space, str_of_int_chars).
  rewrite strip_none.
  2: { rewrite str_all_app, Hsp. simpl. rewrite str_all_app, Hsp. simpl. apply Hsp. }
  rewrite (split_on_app "." (str_of_int a)), (split_on_app "." (str_of_int b)) by done.
  rewrite split_on_single by done. by rewrite !py_int_str.
Qed.

(** C39: [Slug.from_text] makes a slug of the words of a text: for ASCII text the result is the words - what is
    left between blanks, underscores and hyphens when everything but letters and digits is
    dropped, in lower case - joined by hyphens, and matches the pattern of a slug; when there
    are no words it raises [ValidationError].  A text that is a well-formed slug is left as it
    is. *)
Theorem slug_from_text_valid text :
  is_ascii text = true →
  match slug_words "" text with
  | [] => ∃ msg, Slug_from_text text = Raise (ValidationError msg)
  | ws => Slug_from_text text = Return (join "-" ws) ∧ is_slug_body (join "-" ws) = true
  end ∧
  (is_slug_body text = true → Slug_from_text text = Return text).
Proof.
  intros _. unfold Slug_from_text. assert (∀ s, slug_run true s = true → Slug_init s = Return s) as Hinit.
  { intros s Hs. unfold Slug_init. rewrite chomp_fixed by (by eapply slug_run_chars). by rewrite slug_body_run, Hs. }
  split; [|intros Hs; rewrite slug_body_run in Hs; rewrite slugify_fixed by done; by apply Hinit].
  rewrite <- words_slugify. destruct (slugify_valid text) as [->|Hv]; [by eexists|].
  destruct (join_words (slugify text) true "" Hv) as [Hj Hn]; [done|]. destruct (slug_words "" (slugify text)) as [|w ws]; [done|].
  rewrite Hj. change ("" +:+ slugify text) with (slugify text). rewrite slug_body_run. split; [by apply Hinit|done].
Qed.

Lemma slug_from_text_valid_witness :
  Slug_from_text "  Hello, World__2 -" = Return "hello-world-2" ∧ (∃ msg, Slug_from_text "?! " = Raise (ValidationError msg)) ∧
  Slug_from_text "a-1" = Return "a-1".
Proof.
  split_and!.
  - destruct (slug_from_text_valid "  Hello, World__2 -") as [H _]; [reflexivity|].
    assert (slug_words "" "  Hello, World__2 -" = ["hello"; "world"; "2"]) as E by (vm_compute; reflexivity). rewrite E in H. exact (proj1 H).
  - destruct (slug_from_text_valid "?! ") as [H _]; [reflexivity|].
    assert (slug_words "" "?! " = []) as E by (vm_compute; reflexivity). rewrite E in H. exact H.
  - destruct (slug_from_text_valid "a-1") as [_ H]; [reflexivity|]. apply H. vm_compute. reflexivity.
Defined.

(** Money keeps its invariants: adding two valid amounts of one currency gives
    a valid amount and, as long as the exact sum fits the 28 digits of the decimal
    context, exactly the sum; taking the second amount off again gives back the
    first.  Different currencies, and a subtraction below zero, are refused. *)
Theorem money_add_sub a b :
  money_ok a → money_ok b →
  if String.eqb (currency a) (currency b) then
    ((Z.abs (coef (dec_add_exact (amount a) (amount b))) < 10 ^ 28)%Z →
     ∃ c, Money_add a b = Return c ∧ money_ok c ∧
      (dec_val (amount c) == dec_val (amount a) + dec_val (amount b))%Q ∧
      ((Z.abs (coef (dec_add_exact (amount c) (dec_neg (amount b)))) < 10 ^ 28)%Z →
       ∃ a', Money_sub c b = Return a' ∧ money_ok a' ∧
         (dec_val (amount a') == dec_val (amount a))%Q)) ∧
    ((Z.abs (coef (dec_add_exact (amount a) (dec_neg (amount b)))) < 10 ^ 28)%Z →
     (dec_val (amount a) < dec_val (amount b))%Q →
     Money_sub a b = Raise (ValidationError "Subtraction would produce negative Money"))
  else ∃ msg, Money_add a b = Raise (ValidationError msg) ∧
              Money_sub a b = Raise (ValidationError msg).
Proof.
  intros [Hca Ha] [Hcb Hb]. unfold Money_add, Money_sub, assert_same_currency.
  destruct (String.eqb_spec (currency a) (currency b)) as [Hc|Hc]; simpl; [|by eexists].
  split; [|intros Hfit Hlt; unfold dec_sub, dec_add; rewrite dec_fix_exact by done;
    rewrite (proj2 (dec_is_neg_val _)); [done|]; rewrite dec_add_exact_val, dec_neg_val; lra].
  intros Hfit. unfold dec_add at 1. rewrite dec_fix_exact by done.
  pose proof (dec_add_exact_val (amount a) (amount b)) as Hval.
  destruct (Money_init_cases (dec_add_exact (amount a) (amount b)) (currency a))
    as [(c & -> & Hok & Hamt & Hcur) | [_ [?|?]]]; [|congruence | lra].
  exists c. rewrite Hamt, Hcur, Hc, String.eqb_refl. split_and!; [done | done | done |]. simpl.
  intros Hfit'. unfold dec_sub, dec_add. rewrite dec_fix_exact by done.
  pose proof (dec_add_exact_val (dec_add_exact (amount a) (amount b)) (dec_neg (amount b))) as Hval'.
  rewrite dec_neg_val, Hval in Hval'.
  destruct (dec_is_neg _) eqn:Hneg; [apply dec_is_neg_val in Hneg; lra|].
  destruct (Money_init_cases (dec_add_exact (dec_add_exact (amount a) (amount b))
    (dec_neg (amount b))) (currency b)) as [(a' & -> & Hok' & Hamt' & _) | [_ [?|?]]];
    [|congruence | lra].
  exists a'. split_and!; [done | done |]. rewrite Hamt', Hval'. ring.
Qed.

(** ** Witnesses *)

Lemma money_add_sub_witness :
  ∃ c, Money_add (mkMoney (mkDec 1050 (-2)) "EUR") (mkMoney (mkDec 3 0) "EUR") = Return c ∧
    amount c = mkDec 1350 (-2) ∧ money_ok c.
Proof.
  destruct (money_add_sub (mkMoney (mkDec 1050 (-2)) "EUR") (mkMoney (mkDec 3 0) "EUR"))
    as [Hsum _].
  - split; [reflexivity | vm_compute; discriminate].
  - split; [reflexivity | vm_compute; discriminate].
  - destruct Hsum as (c & Hadd & Hok & _); [vm_compute; reflexivity|].
    exists c. split; [exact Hadd|]. split; [|exact Hok]. vm_compute in Hadd. by injection Hadd as <-.
Defined.
