(* ===== verification/Pagination.v ===== *)
(** * Pagination ([application/pagination/]) *)
From S2P Require Import Prelude.

Inductive SortDirection := ASC | DESC.

Record Sort := mkSort { sort_field : string; sort_direction : SortDirection }.

Record Filter (V : Type) := mkFilter { filter_field : string; filter_operator : string; filter_value : V }.
Arguments mkFilter {V} _ _ _.

Record PageRequest (V : Type) := mkPageRequest {
  pq_page : Z;
  pq_size : Z;
  pq_sorts : list Sort;
  pq_filters : list (Filter V);
}.
Arguments mkPageRequest {V} _ _ _ _.
Arguments pq_page {V} _.
Arguments pq_size {V} _.
Arguments pq_sorts {V} _.
Arguments pq_filters {V} _.

(** [PageRequest(...)] with its [__post_init__]. *)
Definition PageRequest_init {V} (page size : Z) (sorts : list Sort) (filters : list (Filter V))
    : outcome (PageRequest V) :=
  if (page <? 1)%Z then Raise (ValueError "page must be >= 1")
  else if (size <? 1)%Z || (1000 <? size)%Z then Raise (ValueError "size must be between 1 and 1000")
  else Return (mkPageRequest page size sorts filters).

Definition offset {V} (r : PageRequest V) : Z := ((pq_page r - 1) * pq_size r)%Z.

Record Page (A : Type) := mkPage { pg_items : list A; pg_total : Z; pg_page : Z; pg_size : Z }.
Arguments mkPage {A} _ _ _ _.
Arguments pg_items {A} _.
Arguments pg_total {A} _.
Arguments pg_page {A} _.
Arguments pg_size {A} _.

(** *** [math.ceil(a / b)] of positive integers

    [a / b] is a float: the quotient rounded to 53 significant bits, halves to even.
    It is kept as a mantissa [m] and a shift [s], for [m * 2 ^ (- s)]. *)

(** The [e] with [2 ^ e <= a / b < 2 ^ (e + 1)]. *)
Definition quotient_exponent (a b : Z) : Z :=
  let d := (Z.log2 a - Z.log2 b)%Z in
  if (a * 2 ^ Z.log2 b <? b * 2 ^ Z.log2 a)%Z then (d - 1)%Z else d.

(** [n / d] to the nearest integer, halves to even. *)
Definition round_half_even (n d : Z) : Z :=
  let q := (n / d)%Z in
  let r := (n mod d)%Z in
  if (2 * r <? d)%Z then q
  else if (d <? 2 * r)%Z then (q + 1)%Z
  else if Z.even q then q else (q + 1)%Z.

Definition ceil_truediv (a b : Z) : Z :=
  let s := (52 - quotient_exponent a b)%Z in
  let m := round_half_even (a * 2 ^ Z.max s 0) (b * 2 ^ Z.max (- s) 0) in
  if (0 <=? s)%Z then (- (- m / 2 ^ s))%Z else (m * 2 ^ (- s))%Z.

Definition total_pages {A} (p : Page A) : Z :=
  if (pg_size p <=? 0)%Z || (pg_total p <=? 0)%Z then 0%Z
  else ceil_truediv (pg_total p) (pg_size p).

Definition has_next {A} (p : Page A) : bool := (pg_page p <? total_pages p)%Z.
Definition has_previous {A} (p : Page A) : bool := (1 <? pg_page p)%Z.

Definition Page_map {A B} (fn : A → B) (p : Page A) : Page B :=
  mkPage (fn <$> pg_items p) (pg_total p) (pg_page p) (pg_size p).

(** [l[start:end]] for non-negative bounds. *)
Definition slice {A} (start stop : Z) (l : list A) : list A :=
  take (Z.to_nat stop - Z.to_nat start) (drop (Z.to_nat start) l).

Definition Page_of {A V} (all_items : list A) (r : PageRequest V) : Page A :=
  mkPage (slice (offset r) (offset r + pq_size r) all_items) (Z.of_nat (length all_items))
    (pq_page r) (pq_size r).

(** [CursorPage] and [Cursor]. *)
Record CursorPage (A : Type) := mkCursorPage {
  cp_items : list A;
  cp_next_cursor : option string;
  cp_has_more : bool;
}.

(** ** Lemmas *)

(** The client that follows [has_next]: the pages it sees, in order; [None] if it has not come to
    a last page within [fuel] requests. *)
Fixpoint walk_pages {A V} (fuel : nat) (all_items : list A) (r : PageRequest V) : option (list (list A)) :=
  match fuel with
  | O => None
  | S fuel' =>
      let p := Page_of all_items r in
      if has_next p
      then rest ← walk_pages fuel' all_items (mkPageRequest (pq_page r + 1) (pq_size r) (pq_sorts r) (pq_filters r));
           Some (pg_items p :: rest)
      else Some [pg_items p]
  end.

Lemma round_half_even_near n d :
  (0 < d)%Z → (2 * Z.abs (round_half_even n d * d - n) <= d)%Z.
Proof.
  intros Hd. unfold round_half_even.
  pose proof (Z.div_mod n d ltac:(lia)). pose proof (Z.mod_pos_bound n d Hd).
  repeat (split_test; [nia|]). destruct (Z.even _); nia.
Qed.

Lemma quotient_exponent_le a b :
  (0 < a)%Z → (0 < b)%Z → (quotient_exponent a b <= Z.log2 a)%Z.
Proof.
  intros Ha Hb. unfold quotient_exponent. pose proof (Z.log2_nonneg b). destruct (_ <? _)%Z; lia.
Qed.

(** Below [2 ^ 43] and for divisors up to 2000 the rounding of the float quotient does
    not carry it over an integer, so its ceiling is that of the exact quotient. *)
Lemma ceil_truediv_exact a b :
  (0 < a < 2 ^ 43)%Z → (0 < b <= 2000)%Z → ceil_truediv a b = ((a + b - 1) / b)%Z.
Proof.
  intros Ha Hb. unfold ceil_truediv. set (s := (52 - quotient_exponent a b)%Z).
  assert (10 <= s)%Z as Hs.
  { assert (Z.log2 a <= 42)%Z by (apply Z.lt_succ_r, Z.log2_lt_pow2; simpl; lia).
    pose proof (quotient_exponent_le a b ltac:(lia) ltac:(lia)). unfold s. lia. }
  rewrite (proj2 (Z.leb_le 0 s)), Z.max_l, (Z.max_r (- s)), Z.mul_1_r by lia.
  assert (2 ^ 10 <= 2 ^ s)%Z as Hpow by (apply Z.pow_le_mono_r; lia). change (2 ^ 10)%Z with 1024%Z in Hpow.
  set (P := (2 ^ s)%Z) in *. pose proof (round_half_even_near (a * P) b ltac:(lia)) as Hm.
  set (m := round_half_even (a * P) b) in *. set (c := ((a + b - 1) / b)%Z).
  assert (b * (c - 1) < a <= b * c)%Z as Hc.
  { unfold c. pose proof (Z.div_mod (a + b - 1) b ltac:(lia)).
    pose proof (Z.mod_pos_bound (a + b - 1) b ltac:(lia)). nia. }
  assert (P * (c - 1) < m <= P * c)%Z as Hmc.
  { clearbody m P c. clear s Hs. split.
    - assert (P * (b * (c - 1) + 1) <= P * a)%Z by (apply Z.mul_le_mono_nonneg_l; lia). nia.
    - assert (P * a <= P * (b * c))%Z by (apply Z.mul_le_mono_nonneg_l; lia). nia. }
  assert (- m / P = - c)%Z as ->; [|lia].
  symmetry. apply (Z.div_unique_pos _ _ _ (P * c - m)); lia.
Qed.

Lemma has_next_spec {A V} (l : list A) (r : PageRequest V) :
  (1 <= pq_page r)%Z → (1 <= pq_size r <= 1000)%Z → (Z.of_nat (length l) < 2 ^ 43)%Z →
  has_next (Page_of l r) = true ↔ (pq_page r * pq_size r < Z.of_nat (length l))%Z.
Proof.
  intros Hp Hs Hl. unfold has_next, total_pages, Page_of. cbn [pg_size pg_total pg_page].
  destruct (Z.leb_spec (pq_size r) 0); [lia|].
  destruct (Z.leb_spec (Z.of_nat (length l)) 0); cbn [orb]; rewrite Z.ltb_lt; [nia|].
  rewrite ceil_truediv_exact by lia.
  pose proof (Z.div_mod (Z.of_nat (length l) + pq_size r - 1) (pq_size r) ltac:(lia)).
  pose proof (Z.mod_pos_bound (Z.of_nat (length l) + pq_size r - 1) (pq_size r) ltac:(lia)). nia.
Qed.

Lemma page_items_spec {A V} (l : list A) (r : PageRequest V) :
  (1 <= pq_page r)%Z → (1 <= pq_size r)%Z →
  pg_items (Page_of l r) = take (Z.to_nat (pq_size r)) (drop (Z.to_nat (offset r)) l).
Proof.
  intros Hp Hs. unfold Page_of, slice. simpl. f_equal. unfold offset. nia.
Qed.

Lemma walk_pages_drop {A V} fuel (l : list A) (r : PageRequest V) :
  (1 <= pq_page r)%Z → (1 <= pq_size r <= 1000)%Z → (Z.of_nat (length l) < 2 ^ 43)%Z →
  (offset r <= Z.of_nat (length l) < offset r + Z.of_nat fuel)%Z →
  ∃ ps, walk_pages fuel l r = Some ps ∧ concat ps = drop (Z.to_nat (offset r)) l ∧
    Forall (λ p, (Z.of_nat (length p) <= pq_size r)%Z) ps ∧
    (ps = [[]] ∨ Forall (λ p, p ≠ []) ps).
Proof.
  revert r. induction fuel as [|fuel IH]; intros r Hp Hs Hl Hf; cbn [walk_pages]; [lia|].
  rewrite page_items_spec by lia. set (page := take _ _). pose proof (has_next_spec l r Hp Hs Hl) as Hn.
  assert (0 <= offset r)%Z as Hoff by (unfold offset; nia).
  assert (Hlen : length page = Nat.min (Z.to_nat (pq_size r)) (length l - Z.to_nat (offset r))) by (unfold page; by rewrite length_take, length_drop).
  destruct (has_next (Page_of l r)).
  - assert (pq_page r * pq_size r < Z.of_nat (length l))%Z as Hmore by by apply Hn.
    assert (offset (mkPageRequest (pq_page r + 1) (pq_size r) (pq_sorts r) (pq_filters r)) = offset r + pq_size r)%Z as Hoff'
      by (unfold offset; cbn [pq_page pq_size]; lia).
    destruct (IH (mkPageRequest (pq_page r + 1) (pq_size r) (pq_sorts r) (pq_filters r))) as (ps & -> & Hps & Hsize & Hne);
      [cbn [pq_page]; lia | done | done | rewrite Hoff'; unfold offset in *; nia|].
    exists (page :: ps). split; [done|]. rewrite Hoff' in Hps. split_and!.
    + cbn [concat]. rewrite Hps, Z2Nat.inj_add, <- drop_drop by lia. apply take_drop.
    + constructor; [lia | done].
    + right. constructor; [intros E; rewrite E in Hlen; simpl in Hlen; unfold offset in *; nia|].
      destruct Hne as [->|Hne]; [|done]. exfalso. apply (f_equal length) in Hps. rewrite length_drop in Hps. simpl in Hps. unfold offset in *. nia.
  - assert (¬ (pq_page r * pq_size r < Z.of_nat (length l))%Z) as Hlast by (intros H; by apply Hn in H).
    exists [page]. split; [done|]. split_and!.
    + simpl. rewrite app_nil_r. apply take_ge. rewrite length_drop. unfold offset. nia.
    + repeat constructor. lia.
    + destruct page as [|x page]; [by left | right; by repeat constructor].
Qed.

(** ** Properties *)

(** C21: A client that starts at page 1 and follows [has_next] comes to a last page after at most one request more than
    there are items; the pages it saw are the items, each once and in order, none of them with more than
    [size] items, and none empty unless there are no items at all.  This holds for fewer
    than 2{^43} items (the number of pages is computed with a float division).  Every
    page reports the number of all items. *)
Theorem pages_partition {A V} (l : list A) size sorts (filters : list (Filter V)) r :
  PageRequest_init 1 size sorts filters = Return r → (Z.of_nat (length l) < 2 ^ 43)%Z →
  (∃ ps, walk_pages (S (length l)) l r = Some ps ∧ concat ps = l ∧
     Forall (λ p, (Z.of_nat (length p) <= size)%Z) ps ∧ (ps = [[]] ∨ Forall (λ p, p ≠ []) ps)) ∧
  ∀ page r', PageRequest_init page size sorts filters = Return r' →
    (Z.of_nat (length (pg_items (Page_of l r'))) <= size)%Z ∧ pg_total (Page_of l r') = Z.of_nat (length l).
Proof.
  assert (∀ page r', PageRequest_init page size sorts filters = Return r' →
    (1 <= page)%Z ∧ (1 <= size <= 1000)%Z ∧ r' = mkPageRequest page size sorts filters) as Hinit.
  { intros page r'. unfold PageRequest_init.
    destruct (Z.ltb_spec page 1); [done|]. destruct (Z.ltb_spec size 1); [done|].
    destruct (Z.ltb_spec 1000 size); [done|]. simpl. intros [= <-]. by split_and!; try lia. }
  intros Hr Hl. apply Hinit in Hr as (_ & Hs & ->). split.
  - apply (walk_pages_drop (S (length l)) l (mkPageRequest 1 size sorts filters)); [done | done | done | unfold offset; simpl; lia].
  - intros page r' (Hp & _ & ->)%Hinit. rewrite page_items_spec by (simpl; lia). split; [|done].
    rewrite length_take. simpl. lia.
Qed.

(** ** Witnesses *)

Lemma pages_partition_witness :
  let r := mkPageRequest (V := string) 1 2 [mkSort "name" ASC] [] in
  walk_pages 6 ["a"; "b"; "c"; "d"; "e"] r = Some [["a"; "b"]; ["c"; "d"]; ["e"]] ∧
  ∃ ps, walk_pages 6 ["a"; "b"; "c"; "d"; "e"] r = Some ps ∧ concat ps = ["a"; "b"; "c"; "d"; "e"].
Proof.
  split; [vm_compute; reflexivity|].
  destruct (pages_partition (V := string) ["a"; "b"; "c"; "d"; "e"] 2 [mkSort "name" ASC] [] (mkPageRequest 1 2 [mkSort "name" ASC] []))
    as [(ps & H1 & H2 & _) _]; [reflexivity | vm_compute; reflexivity | exists ps; split; [exact H1 | exact H2]].
Defined.
