(* ===== verification/DomainKernel.v ===== *)
(** * Domain building blocks ([kernel/types/option.py], [kernel/types/result.py],
      [kernel/ddd/])

    The [Option] and [Result] types, specifications and invariants, the ambient
    tenant, the service registry, entities, and the event-driven [Saga] base. *)
From S2P Require Import Prelude PyString Errors.

(** ** Option ([option.py]) *)
Section Option.
Context {T : Type}.

Inductive Option := OSome (value : T) | ONothing.

Definition Option_is_some (o : Option) : bool := match o with OSome _ => true | ONothing => false end.
Definition Option_is_none (o : Option) : bool := match o with OSome _ => false | ONothing => true end.
Definition Option_unwrap (o : Option) : outcome T :=
  match o with OSome v => Return v | ONothing => Raise (ValueError "Called unwrap() on Nothing") end.
Definition Option_unwrap_or (d : T) (o : Option) : T :=
  match o with OSome v => v | ONothing => d end.
Definition Option_map (f : T → T) (o : Option) : Option :=
  match o with OSome v => OSome (f v) | ONothing => ONothing end.
Definition Option_flat_map (f : T → Option) (o : Option) : Option :=
  match o with OSome v => f v | ONothing => ONothing end.
Definition Option_filter (p : T → bool) (o : Option) : Option :=
  match o with OSome v => if p v then o else ONothing | ONothing => ONothing end.
Definition Option_iter (o : Option) : list T :=
  match o with OSome v => [v] | ONothing => [] end.

End Option.
Arguments Option : clear implicits.

(** ** Result ([result.py]) *)
Section Result.
Context {T : Type}.

Inductive Result := Ok (value : T) | Err (error : pyexn).

Definition Result_is_ok (r : Result) : bool := match r with Ok _ => true | Err _ => false end.
Definition Result_is_err (r : Result) : bool := match r with Ok _ => false | Err _ => true end.
Definition Result_unwrap (r : Result) : outcome T :=
  match r with Ok v => Return v | Err e => Raise e end.
Definition Result_unwrap_or (d : T) (r : Result) : T := match r with Ok v => v | Err _ => d end.
Definition Result_map (f : T → T) (r : Result) : Result :=
  match r with Ok v => Ok (f v) | Err e => Err e end.
Definition Result_flat_map (f : T → Result) (r : Result) : Result :=
  match r with Ok v => f v | Err e => Err e end.

End Result.
Arguments Result : clear implicits.

(** ** Specifications ([specification.py])

    A specification is its [is_satisfied_by]; [and] and [or] evaluate their right
    operand only when the left one does not decide.  Predicates may raise. *)
Definition Specification (T : Type) : Type := T → outcome bool.

Definition LambdaSpecification {T} (predicate : T → outcome bool) : Specification T := predicate.
Definition AndSpecification {T} (left right : Specification T) : Specification T := λ c,
  match left c with Return true => right c | o => o end.
Definition OrSpecification {T} (left right : Specification T) : Specification T := λ c,
  match left c with Return false => right c | o => o end.
Definition NotSpecification {T} (spec : Specification T) : Specification T := λ c,
  match spec c with Return b => Return (negb b) | Raise e => Raise e end.

(** ** Invariants ([invariant.py]) *)

Definition Invariant_require (condition : bool) (message : string) : outcome unit :=
  if condition then Return tt else Raise (InvariantViolationError message).

Definition Invariant_not_none {T} (value : option T) (name : string) : outcome T :=
  match value with
  | Some v => Return v
  | None => Raise (InvariantViolationError (name +:+ " must not be None"))
  end.

(** ** The ambient tenant ([tenant.py]); the state is the context variable *)

(** [set] returns a token that holds the previous value. *)
Definition TenantContext_set (t : string) : PyM (option string) (option string) := λ v, (Return v, Some t).
Definition TenantContext_get : PyM (option string) (option string) := reads id.
Definition TenantContext_require : PyM (option string) string :=
  t ← TenantContext_get;
  match t with
  | None => raise (ValidationError "No tenant in context")
  | Some t => mret t
  end.
Definition TenantContext_reset (token : (option string)) : PyM (option string) unit := updates (λ _, token).
Definition TenantContext_clear : PyM (option string) unit := updates (λ _, None).

(** [async with TenantContext.scoped(t): body]. *)
Definition TenantContext_scoped {W A} (t : string) (body : PyM (option string * W) A)
    : PyM (option string * W) A :=
  token ← on_fst (TenantContext_set t);
  try_finally body (on_fst (TenantContext_reset token)).

(** [TenantAware._init_tenant]. *)
Definition TenantAware_init_tenant (tenant_id : option string) : PyM (option string) string :=
  match tenant_id with Some t => mret t | None => TenantContext_require end.

(** ** The service registry ([domain_service.py]); services are objects compared by
    identity, so they are locations *)

Definition ServiceRegistry : Type := gmap string nat.

Definition ServiceRegistry_register (name : string) (service : nat) : PyM ServiceRegistry unit := λ r,
  match r !! name with
  | Some existing =>
      if Nat.eqb existing service then (Return tt, <[name := service]> r)
      else (Raise (ValueError ("A different service is already registered under " +:+ py_repr name)), r)
  | None => (Return tt, <[name := service]> r)
  end.

Definition ServiceRegistry_get (name : string) : PyM ServiceRegistry nat := λ r,
  match r !! name with
  | Some s => (Return s, r)
  | None => (Raise (KeyError ("No service registered under " +:+ py_repr name)), r)
  end.

(** [isinst] is [isinstance] of a service and [type_name] its class's name. *)
Definition ServiceRegistry_get_typed (isinst : nat → string → bool) (type_name : nat → string)
    (name cls : string) : PyM ServiceRegistry nat :=
  service ← ServiceRegistry_get name;
  if isinst service cls then mret service
  else raise (TypeError ("Service " +:+ py_repr name +:+ " is " +:+ py_repr (type_name service)
         +:+ ", expected " +:+ py_repr cls)).

Definition ServiceRegistry_clear : PyM ServiceRegistry unit := updates (λ _, ∅).
Definition ServiceRegistry_contains (name : string) (r : ServiceRegistry) : bool :=
  bool_decide (is_Some (r !! name)).

(** ** Entities ([entity.py]): [__eq__] asks whether the other object is an instance
    of the left one's class, then compares ids *)

Record Entity := mkEntity { ent_id : string; ent_class : string; ent_mro : list string }.

Definition Entity_eq (a b : Entity) : bool :=
  str_in (ent_class a) (ent_mro b) && String.eqb (ent_id a) (ent_id b).

(** ** The event-driven saga ([saga.py]) *)
Section EventSaga.
Context {E W : Type}.

Record EventSaga := mkEventSaga {
  esg_id : string;
  esg_completed : bool;
  esg_handlers : gmap string (E → PyM (bool * W) unit);
}.

Definition Saga_init (saga_id : string) : EventSaga := mkEventSaga saga_id false ∅.

Definition Saga_register (event_type : string) (h : E → PyM (bool * W) unit) (s : EventSaga) : EventSaga :=
  mkEventSaga (esg_id s) (esg_completed s) (<[event_type := h]> (esg_handlers s)).

(** A handler sees the completed flag, which [_mark_completed] sets. *)
Definition Saga_mark_completed : PyM (bool * W) unit := on_fst (updates (λ _, true)).

Definition Saga_handle (event_type : string) (event : E) : PyM (EventSaga * W) unit := λ '(s, w),
  match esg_handlers s !! event_type with
  | None => (Return tt, (s, w))
  | Some h =>
      let '(o, (c, w')) := h event (esg_completed s, w) in
      (o, (mkEventSaga (esg_id s) c (esg_handlers s), w'))
  end.

End EventSaga.

(** ** Lemmas *)

(** The combinators of specifications, nested to any depth. *)
Inductive spec_expr (T : Type) :=
| SLeaf (p : T → outcome bool)
| SAnd (l r : spec_expr T)
| SOr (l r : spec_expr T)
| SNot (s : spec_expr T).
Arguments SLeaf {T} p.
Arguments SAnd {T} l r.
Arguments SOr {T} l r.
Arguments SNot {T} s.

Fixpoint spec_of {T} (e : spec_expr T) : Specification T :=
  match e with
  | SLeaf p => LambdaSpecification p
  | SAnd l r => AndSpecification (spec_of l) (spec_of r)
  | SOr l r => OrSpecification (spec_of l) (spec_of r)
  | SNot s => NotSpecification (spec_of s)
  end.

(** Negation pushed to the leaves. *)
Fixpoint spec_nnf {T} (neg : bool) (e : spec_expr T) : spec_expr T :=
  match e with
  | SLeaf p => if neg then SNot (SLeaf p) else SLeaf p
  | SAnd l r => (if neg then SOr else SAnd) (spec_nnf neg l) (spec_nnf neg r)
  | SOr l r => (if neg then SAnd else SOr) (spec_nnf neg l) (spec_nnf neg r)
  | SNot s => spec_nnf (negb neg) s
  end.

(** De Morgan's laws hold for whole outcomes, evaluation order and exceptions
    included. *)
Lemma spec_de_morgan {T} (e : spec_expr T) neg c :
  spec_of (spec_nnf neg e) c =
    if neg then NotSpecification (spec_of e) c else spec_of e c.
Proof.
  revert neg. induction e as [p|l IHl r IHr|l IHl r IHr|s IH]; intros neg; simpl.
  - by destruct neg.
  - destruct neg; simpl; unfold OrSpecification, AndSpecification, NotSpecification;
      rewrite IHl, IHr; [|done]. unfold NotSpecification. by destruct (spec_of l c) as [[]|].
  - destruct neg; simpl; unfold OrSpecification, AndSpecification, NotSpecification;
      rewrite IHl, IHr; [|done]. unfold NotSpecification. by destruct (spec_of l c) as [[]|].
  - rewrite IH. destruct neg; simpl; [|done]. unfold NotSpecification.
    destruct (spec_of s c) as [[]|]; done.
Qed.

Lemma Option_flat_map_assoc {T} (o : Option T) f g :
  Option_flat_map g (Option_flat_map f o) = Option_flat_map (λ v, Option_flat_map g (f v)) o.
Proof. by destruct o. Qed.

Lemma Result_flat_map_assoc {T} (r : Result T) f g :
  Result_flat_map g (Result_flat_map f r) = Result_flat_map (λ v, Result_flat_map g (f v)) r.
Proof. by destruct r. Qed.

(** A scope runs its body with its own tenant and restores the previous one,
    whatever the body does to the variable and however it ends. *)
Lemma scoped_restores {W A} t (body : PyM (option string * W) A) v w :
  ∃ w', TenantContext_scoped t body (v, w) = (fst (body (Some t, w)), (v, w')) ∧
    w' = snd (snd (body (Some t, w))).
Proof.
  unfold TenantContext_scoped, mbind, PyM_bind, try_finally, on_fst. simpl.
  destruct (body (Some t, w)) as [o [v' w']]. by exists w'.
Qed.
