(* ===== verification/Webhooks.v ===== *)
(** * Webhooks ([application/webhooks/])

    Endpoints and their in-memory store, request signing with HMAC-SHA256, and the
    dispatcher that posts an event to every matching endpoint and retries.  The HTTP
    client and the JSON encoding of a payload are arguments. *)
From S2P Require Import Prelude PyString Sha256 OrderedDict.

(** ** Endpoints ([endpoint.py], [store.py]) *)

Record WebhookEndpoint := mkEndpoint {
  ep_url : string;
  ep_secret : string;
  ep_events : gset string;
  ep_enabled : bool;
  ep_id : string;
}.

Definition WebhookEndpoint_matches (event_type : string) (ep : WebhookEndpoint) : bool :=
  if negb (ep_enabled ep) then false
  else bool_decide (ep_events ep = ∅) || bool_decide (event_type ∈ ep_events ep).

(** The dictionary from ids to endpoints, in insertion order. *)
Definition InMemoryWebhookEndpointStore : Type := list (string * WebhookEndpoint).

Definition InMemoryWebhookEndpointStore_find_by_event (event_type : string)
    (st : InMemoryWebhookEndpointStore) : list WebhookEndpoint :=
  List.filter (WebhookEndpoint_matches event_type) (map snd st).
Definition InMemoryWebhookEndpointStore_save (ep : WebhookEndpoint)
    (st : InMemoryWebhookEndpointStore) : InMemoryWebhookEndpointStore := od_set (ep_id ep) ep st.
Definition InMemoryWebhookEndpointStore_remove (endpoint_id : string)
    (st : InMemoryWebhookEndpointStore) : InMemoryWebhookEndpointStore := od_del endpoint_id st.
Definition InMemoryWebhookEndpointStore_all (st : InMemoryWebhookEndpointStore)
    : list WebhookEndpoint := map snd st.

(** ** Signatures ([signature.py]) *)

Definition WebhookSigner_sign (payload : list Z) (secret : string) : string :=
  "sha256=" +:+ hexdigest (hmac_sha256 (encode secret) payload).

(** [hmac.compare_digest] compares the two byte strings. *)
Definition WebhookSigner_verify (payload : list Z) (secret signature : string) : bool :=
  let expected := WebhookSigner_sign payload secret in
  bool_decide (encode expected = encode signature).

(** ** The dispatcher ([dispatcher.py]) *)

Record WebhookDeliveryRecord := mkDelivery {
  dr_endpoint_id : string;
  dr_event_type : string;
  dr_http_status : option Z;
  dr_duration_ms : Q;
  dr_attempts : Z;
  dr_last_error : option string;
}.

Record WebhookDispatcher := mkDispatcher { wd_max_retries : Z; wd_retry_on : gset Z }.

(** [retry_on or {500, 502, 503, 504}]; the time limit is the client's. *)
Definition WebhookDispatcher_init (max_retries : Z) (retry_on : option (gset Z)) : WebhookDispatcher :=
  let given := default ∅ retry_on in
  mkDispatcher max_retries (if decide (given = ∅) then {[500; 502; 503; 504]}%Z else given).

(** What one request carries. *)
Record PostRequest := mkPost {
  post_url : string;
  post_content : list Z;
  post_headers : list (string * string);
}.

Section Deliver.
Context {W P : Type}.
(** [time.monotonic()]; opening a client, posting and closing it, which gives the
    status code; [json.dumps(payload)] with compact separators. *)
Context (monotonic : W → Q) (post : PostRequest → PyM W Z) (dumps : P → outcome string).
Context (wd : WebhookDispatcher).

Definition set_attempts (n : Z) (r : WebhookDeliveryRecord) : WebhookDeliveryRecord :=
  mkDelivery (dr_endpoint_id r) (dr_event_type r) (dr_http_status r) (dr_duration_ms r) n
    (dr_last_error r).
Definition set_duration (d : Q) (r : WebhookDeliveryRecord) : WebhookDeliveryRecord :=
  mkDelivery (dr_endpoint_id r) (dr_event_type r) (dr_http_status r) d (dr_attempts r)
    (dr_last_error r).
Definition set_http_status (c : Z) (r : WebhookDeliveryRecord) : WebhookDeliveryRecord :=
  mkDelivery (dr_endpoint_id r) (dr_event_type r) (Some c) (dr_duration_ms r) (dr_attempts r)
    (dr_last_error r).
Definition set_last_error (e : option string) (r : WebhookDeliveryRecord) : WebhookDeliveryRecord :=
  mkDelivery (dr_endpoint_id r) (dr_event_type r) (dr_http_status r) (dr_duration_ms r)
    (dr_attempts r) e.

(** One attempt: a finished record, or the record so far and the error. *)
Definition deliver_attempt (req : PostRequest) (r : WebhookDeliveryRecord)
    : PyM W (WebhookDeliveryRecord + WebhookDeliveryRecord * string) :=
  t0 ← reads monotonic;
  try_except
    (status_code ← post req;
     t1 ← reads monotonic;
     let r := set_http_status status_code (set_duration ((t1 - t0) * 1000) r) in
     mret (if bool_decide (status_code ∈ wd_retry_on wd)
           then inr (r, "HTTP " +:+ str_of_int status_code)
           else inl (set_last_error None r)))
    (λ exc,
     t1 ← reads monotonic;
     mret (inr (set_duration ((t1 - t0) * 1000) r, exn_msg exc))).

(** [for attempt in range(1, max_retries + 1)]: [n] attempts are left. *)
Fixpoint deliver_loop (req : PostRequest) (n : nat) (attempt : Z) (r : WebhookDeliveryRecord)
    (last_error : option string) : PyM W WebhookDeliveryRecord :=
  match n with
  | O => mret (set_last_error last_error r)
  | S n' =>
      res ← deliver_attempt req (set_attempts attempt r);
      match res with
      | inl done => mret done
      | inr (r', err) => deliver_loop req n' (attempt + 1) r' (Some err)
      end
  end.

(** The body: [json.dumps] of the object with the event and the data. *)
Definition webhook_body (event_type data : string) : list Z :=
  encode ("{" +:+ json_string "event" +:+ ":" +:+ json_string event_type +:+ "," +:+
          json_string "data" +:+ ":" +:+ data +:+ "}").

Definition webhook_request (ep : WebhookEndpoint) (event_type : string) (body : list Z) : PostRequest :=
  mkPost (ep_url ep) body
    [("Content-Type", "application/json");
     ("X-Webhook-Signature", WebhookSigner_sign body (ep_secret ep));
     ("X-Webhook-Event", event_type)].

Definition WebhookDispatcher_deliver (ep : WebhookEndpoint) (event_type : string) (payload : P)
    : PyM W WebhookDeliveryRecord :=
  data ← from_outcome (dumps payload);
  deliver_loop (webhook_request ep event_type (webhook_body event_type data))
    (Z.to_nat (wd_max_retries wd)) 1 (mkDelivery (ep_id ep) event_type None 0 0 None) None.

(** [dispatch] over the endpoints found; the state's first half is [delivery_log]. *)
Fixpoint dispatch_loop (event_type : string) (payload : P) (endpoints : list WebhookEndpoint)
    (records : list WebhookDeliveryRecord)
    : PyM (list WebhookDeliveryRecord * W) (list WebhookDeliveryRecord) :=
  match endpoints with
  | [] => mret records
  | ep :: endpoints' =>
      r ← on_snd (WebhookDispatcher_deliver ep event_type payload);
      on_fst (updates (λ log, log ++ [r])) ;;
      dispatch_loop event_type payload endpoints' (records ++ [r])
  end.

Definition WebhookDispatcher_dispatch (find_by_event : string → PyM W (list WebhookEndpoint))
    (event_type : string) (payload : P)
    : PyM (list WebhookDeliveryRecord * W) (list WebhookDeliveryRecord) :=
  endpoints ← on_snd (find_by_event event_type);
  dispatch_loop event_type payload endpoints [].

End Deliver.

(** ** A scripted client

    The [i]-th request of the run ends as [script i] says; the world is the list of
    requests made. *)

Definition script_post (script : nat → outcome Z) (req : PostRequest) : PyM (list PostRequest) Z :=
  λ log, (script (length log), log ++ [req]).

(** Outcomes after which the dispatcher tries again, and the error it keeps. *)
Definition retriable (wd : WebhookDispatcher) (o : outcome Z) : Prop :=
  match o with Return c => c ∈ wd_retry_on wd | Raise e => is_Exception e = true end.
Definition error_text (o : outcome Z) : string :=
  match o with Return c => "HTTP " +:+ str_of_int c | Raise e => exn_msg e end.

Section ScriptLemmas.
Context (mono : list PostRequest → Q) (script : nat → outcome Z) (wd : WebhookDispatcher).
Context (req : PostRequest).
Implicit Types (r : WebhookDeliveryRecord) (log : list PostRequest).

Lemma attempt_retried r log :
  retriable wd (script (length log)) →
  ∃ r', deliver_attempt mono (script_post script) wd req r log =
          (Return (inr (r', error_text (script (length log)))), log ++ [req]) ∧
        dr_attempts r' = dr_attempts r ∧ dr_endpoint_id r' = dr_endpoint_id r.
Proof.
  unfold deliver_attempt, mbind, PyM_bind, reads, try_except, try_base, script_post.
  destruct (script (length log)) as [c|e]; simpl; intros Hr.
  - rewrite bool_decide_eq_true_2 by done. by eexists.
  - rewrite Hr. by eexists.
Qed.

Lemma attempt_accepted r log c :
  script (length log) = Return c → c ∉ wd_retry_on wd →
  ∃ r', deliver_attempt mono (script_post script) wd req r log =
          (Return (inl r'), log ++ [req]) ∧
        dr_attempts r' = dr_attempts r ∧ dr_endpoint_id r' = dr_endpoint_id r ∧
        dr_http_status r' = Some c ∧ dr_last_error r' = None.
Proof.
  intros Hs Hc. unfold deliver_attempt, mbind, PyM_bind, reads, try_except, try_base, script_post.
  rewrite Hs. simpl. rewrite bool_decide_eq_false_2 by done. by eexists.
Qed.

Lemma loop_accepted i n a r err log c :
  (i < n)%nat → (∀ j, (j < i)%nat → retriable wd (script (length log + j))) →
  script (length log + i)%nat = Return c → c ∉ wd_retry_on wd →
  ∃ r', deliver_loop mono (script_post script) wd req n a r err log =
          (Return r', log ++ repeat req (S i)) ∧
        dr_attempts r' = (a + Z.of_nat i)%Z ∧ dr_endpoint_id r' = dr_endpoint_id r ∧
        dr_http_status r' = Some c ∧ dr_last_error r' = None.
Proof.
  revert n a r err log. induction i as [|i IH]; intros [|n] a r err log Hn Hj Hs Hc; try lia.
  - rewrite Nat.add_0_r in Hs. cbn [deliver_loop]. unfold mbind, PyM_bind.
    destruct (attempt_accepted (set_attempts a r) log c Hs Hc) as (r' & -> & Ha & Hid & ?).
    exists r'. rewrite Ha, Hid, Z.add_0_r. done.
  - cbn [deliver_loop]. unfold mbind, PyM_bind.
    destruct (attempt_retried (set_attempts a r) log) as (r1 & -> & Ha & Hid).
    { rewrite <- (Nat.add_0_r (length log)). apply Hj. lia. }
    assert (length (log ++ [req]) = S (length log)) as Hlen by (rewrite length_app; simpl; lia).
    destruct (IH n (a + 1)%Z r1 (Some (error_text (script (length log)))) (log ++ [req]))
      as (r' & -> & Ha' & Hid' & ?); [lia | | | done |].
    + intros j Hjj. rewrite Hlen. replace (S _ + j)%nat with (length log + S j)%nat by lia.
      apply Hj. lia.
    + rewrite Hlen. by replace (S _ + i)%nat with (length log + S i)%nat by lia.
    + exists r'. rewrite <- app_assoc, Ha', Hid', Hid. split_and!; [done | lia | done | tauto | tauto].
Qed.

Lemma loop_exhausted n a r err log :
  (∀ j, (j < n)%nat → retriable wd (script (length log + j))) →
  ∃ r', deliver_loop mono (script_post script) wd req n a r err log =
          (Return r', log ++ repeat req n) ∧
        dr_endpoint_id r' = dr_endpoint_id r ∧
        dr_attempts r' = (if Nat.eqb n 0 then dr_attempts r else a + Z.of_nat n - 1)%Z ∧
        dr_last_error r' = (if Nat.eqb n 0 then err
                            else Some (error_text (script (length log + (n - 1))%nat))).
Proof.
  revert a r err log. induction n as [|n IH]; intros a r err log Hj.
  - exists (set_last_error err r). simpl. by rewrite app_nil_r.
  - cbn [deliver_loop]. unfold mbind, PyM_bind.
    destruct (attempt_retried (set_attempts a r) log) as (r1 & -> & Ha & Hid).
    { rewrite <- (Nat.add_0_r (length log)). apply Hj. lia. }
    assert (length (log ++ [req]) = S (length log)) as Hlen by (rewrite length_app; simpl; lia).
    destruct (IH (a + 1)%Z r1 (Some (error_text (script (length log)))) (log ++ [req]))
      as (r' & -> & Hid' & Ha' & He').
    { intros j Hjj. rewrite Hlen. replace (S _ + j)%nat with (length log + S j)%nat by lia.
      apply Hj. lia. }
    exists r'. rewrite <- app_assoc, Hid', Hid, Ha', He', Hlen. split_and!; try done.
    + destruct n; simpl; [rewrite Ha; simpl; lia | lia].
    + destruct n; simpl; [by rewrite Nat.add_0_r | do 3 f_equal; lia].
Qed.

End ScriptLemmas.

#[local] Opaque hmac_sha256 hexdigest.

(** A client that never ends in anything but a response or an [Exception]. *)
Definition well_behaved (script : nat → outcome Z) : Prop :=
  ∀ i, match script i with Return _ => True | Raise e => is_Exception e = true end.

(** ** What is to be delivered *)

(** The endpoints an event is for. *)
Definition subscribed (event_type : string) (ep : WebhookEndpoint) : Prop :=
  ep_enabled ep = true ∧ (ep_events ep = ∅ ∨ event_type ∈ ep_events ep).

#[export] Instance subscribed_dec event_type ep : Decision (subscribed event_type ep).
Proof. unfold subscribed. apply _. Defined.

(** The request: the event and its data as JSON, signed with the secret of the endpoint. *)
Definition signed_post (ep : WebhookEndpoint) (event_type data : string) : PostRequest :=
  let body := encode ("{" +:+ json_string "event" +:+ ":" +:+ json_string event_type +:+ "," +:+ json_string "data" +:+ ":" +:+ data +:+ "}") in
  mkPost (ep_url ep) body
    [("Content-Type", "application/json");
     ("X-Webhook-Signature", "sha256=" +:+ hexdigest (hmac_sha256 (encode (ep_secret ep)) body));
     ("X-Webhook-Event", event_type)].

Section Deliveries.
Context (script : nat → outcome Z) (wd : WebhookDispatcher).

(** [k] requests from the [i]-th on: until one is accepted, and at most [n]. *)
Definition tries (n i k : nat) : Prop :=
  (k <= n)%nat ∧ (∀ j, (S j < k)%nat → retriable wd (script (i + j))) ∧
  ((k < n)%nat → ∃ j, k = S j ∧ ¬ retriable wd (script (i + j))).

(** The record of the [k] requests. *)
Definition recorded (i k : nat) (r : WebhookDeliveryRecord) : Prop :=
  dr_attempts r = Z.of_nat k ∧
  match k with
  | O => dr_http_status r = None ∧ dr_last_error r = None
  | S j => (∀ c, script (i + j) = Return c → dr_http_status r = Some c) ∧
           (retriable wd (script (i + j)) → dr_last_error r = Some (error_text (script (i + j)))) ∧
           (¬ retriable wd (script (i + j)) → dr_last_error r = None)
  end.

(** One endpoint after the other. *)
Fixpoint delivered (event_type data : string) (i : nat) (eps : list WebhookEndpoint) (records : list WebhookDeliveryRecord)
    (posts : list PostRequest) : Prop :=
  match eps, records with
  | [], [] => posts = []
  | ep :: eps', r :: records' =>
      ∃ k rest, posts = repeat (signed_post ep event_type data) k ++ rest ∧
        tries (Z.to_nat (wd_max_retries wd)) i k ∧ recorded i k r ∧
        dr_endpoint_id r = ep_id ep ∧ dr_event_type r = event_type ∧
        delivered event_type data (i + k) eps' records' rest
  | _, _ => False
  end.

Context (mono : list PostRequest → Q) (Hs : well_behaved script).

Lemma attempt_result req r log :
  ∃ r', dr_attempts r' = dr_attempts r ∧ dr_endpoint_id r' = dr_endpoint_id r ∧ dr_event_type r' = dr_event_type r ∧
    (∀ c, script (length log) = Return c → dr_http_status r' = Some c) ∧
    ((retriable wd (script (length log)) ∧
      deliver_attempt mono (script_post script) wd req r log = (Return (inr (r', error_text (script (length log)))), log ++ [req])) ∨
     (¬ retriable wd (script (length log)) ∧ dr_last_error r' = None ∧
      deliver_attempt mono (script_post script) wd req r log = (Return (inl r'), log ++ [req]))).
Proof using Hs.
  specialize (Hs (length log)). unfold deliver_attempt, mbind, PyM_bind, reads, try_except, try_base, script_post.
  destruct (script (length log)) as [c|e]; cbn [retriable error_text].
  - destruct (bool_decide_reflect (c ∈ wd_retry_on wd)) as [Hin|Hin].
    + eexists. split_and!; [..|left; split; [done|reflexivity]]; try done. by intros c' [= ->].
    + eexists. split_and!; [..|right; split_and!; [done| |reflexivity]]; try done. by intros c' [= ->].
  - rewrite Hs. eexists. split_and!; [..|left; split; [done|reflexivity]]; done.
Qed.

Lemma loop_result req n : ∀ a r err log,
  ∃ r' k, deliver_loop mono (script_post script) wd req n a r err log = (Return r', log ++ repeat req k) ∧
    tries n (length log) k ∧ dr_endpoint_id r' = dr_endpoint_id r ∧ dr_event_type r' = dr_event_type r ∧
    match k with
    | O => r' = set_last_error err r
    | S j => dr_attempts r' = (a + Z.of_nat j)%Z ∧
             (∀ c, script (length log + j) = Return c → dr_http_status r' = Some c) ∧
             (retriable wd (script (length log + j)) → dr_last_error r' = Some (error_text (script (length log + j)))) ∧
             (¬ retriable wd (script (length log + j)) → dr_last_error r' = None)
    end.
Proof using Hs.
  induction n as [|n IH]; intros a r err log.
  - exists (set_last_error err r), O. cbn. rewrite app_nil_r. split_and!; try done. split_and!; intros; lia.
  - cbn [deliver_loop]. unfold mbind, PyM_bind.
    destruct (attempt_result req (set_attempts a r) log) as (r1 & Ha & Hid & Hev & Hst & [[Hr ->]|(Hr & He & ->)]).
    + destruct (IH (a + 1)%Z r1 (Some (error_text (script (length log)))) (log ++ [req])) as (r' & k & -> & (Hk & Hj & Hl) & Hid' & Hev' & Hrec).
      assert (length (log ++ [req]) = S (length log)) as Hlen by (rewrite length_app; simpl; lia). rewrite Hlen in *.
      assert (∀ j, (S (length log) + j = length log + S j)%nat) as Hadd by (intros; lia).
      exists r', (S k). split; [by rewrite <- app_assoc|]. split_and!; [split_and!| by rewrite Hid', Hid | by rewrite Hev', Hev | ..].
      * lia.
      * intros [|j] Hjk; [by rewrite Nat.add_0_r|]. rewrite <- Hadd. apply Hj. lia.
      * intros Hkn. destruct Hl as (j & -> & Hn); [lia|]. exists (S j). by rewrite <- Hadd.
      * destruct k as [|j]; [rewrite Hrec; simpl; rewrite Ha; simpl; lia|]. destruct Hrec as [-> _]. lia.
      * destruct k as [|j]; [rewrite Hrec, Nat.add_0_r; exact Hst|]. rewrite <- Hadd. tauto.
      * destruct k as [|j]; [rewrite Hrec, Nat.add_0_r; done|]. rewrite <- Hadd. tauto.
      * destruct k as [|j]; [rewrite Nat.add_0_r; done|]. rewrite <- Hadd. tauto.
    + exists r1, 1%nat. rewrite Nat.add_0_r. split_and!; try done; [split_and!| rewrite Ha; simpl; lia].
      * lia.
      * lia.
      * intros _. exists O. by rewrite Nat.add_0_r.
Qed.

Lemma dispatch_loop_spec {P} (dumps : P → outcome string) event_type payload data endpoints :
  dumps payload = Return data → ∀ records log posts,
  ∃ new posts', dispatch_loop mono (script_post script) dumps wd event_type payload endpoints records (log, posts) =
      (Return (records ++ new), (log ++ new, posts ++ posts')) ∧
    delivered event_type data (length posts) endpoints new posts'.
Proof using Hs.
  intros Hd. induction endpoints as [|ep eps IH]; intros records log posts; cbn [dispatch_loop].
  { exists [], []. by rewrite !app_nil_r. }
  unfold WebhookDispatcher_deliver, mbind, PyM_bind, on_snd, from_outcome. cbn [fst snd]. rewrite Hd.
  destruct (loop_result (webhook_request ep event_type (webhook_body event_type data)) (Z.to_nat (wd_max_retries wd)) 1
    (mkDelivery (ep_id ep) event_type None 0 0 None) None posts) as (r & k & -> & Ht & Hid & Hev & Hrec).
  unfold on_fst, updates. cbn [fst snd].
  destruct (IH (records ++ [r]) (log ++ [r]) (posts ++ repeat (webhook_request ep event_type (webhook_body event_type data)) k))
    as (new & ps & -> & Hdel).
  exists (r :: new), (repeat (webhook_request ep event_type (webhook_body event_type data)) k ++ ps).
  rewrite <- !app_assoc. split; [done|]. exists k, ps. split_and!; try done.
  - unfold recorded. destruct k as [|j]; [by rewrite Hrec|]. destruct Hrec as (-> & Hrec). split; [lia|done].
  - by rewrite length_app, repeat_length in Hdel.
Qed.

End Deliveries.

(** Nothing but the signature verifies. *)
Lemma verify_iff payload secret sig :
  WebhookSigner_verify payload secret sig = true ↔ sig = WebhookSigner_sign payload secret.
Proof.
  unfold WebhookSigner_verify. rewrite bool_decide_eq_true. split; [|by intros ->].
  intros H%encode_inj. done.
Qed.

Lemma matches_subscribed event_type eps :
  List.filter (WebhookEndpoint_matches event_type) eps = filter (subscribed event_type) eps.
Proof.
  induction eps as [|ep eps IH]; [done|]. cbn [List.filter]. rewrite filter_cons, IH.
  assert (WebhookEndpoint_matches event_type ep = true ↔ subscribed event_type ep) as Hiff.
  { unfold WebhookEndpoint_matches, subscribed. destruct (ep_enabled ep); simpl; [|naive_solver].
    rewrite orb_true_iff, !bool_decide_eq_true. naive_solver. }
  destruct (WebhookEndpoint_matches event_type ep), (decide (subscribed event_type ep)) as [H|H]; try done.
  - by destruct H; apply Hiff.
  - by apply Hiff in H.
Qed.

(** ** Properties *)

(** Delivery posts the signed event until it is accepted.  If attempt [i] is the
    first to be answered with a status outside [retry_on] and is within the limit,
    exactly [i + 1] identical requests are made and the record has that status,
    [i + 1] attempts and no error; if every attempt is answered with a status to
    retry or raises, exactly [max_retries] requests are made and the record keeps
    the last error. *)
Theorem webhook_delivery {P} mono script (dumps : P → outcome string) wd ep event_type payload data :
  dumps payload = Return data →
  let n := Z.to_nat (wd_max_retries wd) in
  let req := webhook_request ep event_type (webhook_body event_type data) in
  let out := WebhookDispatcher_deliver mono (script_post script) dumps wd ep event_type payload [] in
  (∀ i c, (i < n)%nat → (∀ j, (j < i)%nat → retriable wd (script j)) →
    script i = Return c → c ∉ wd_retry_on wd →
    ∃ r, out = (Return r, repeat req (S i)) ∧ dr_attempts r = Z.of_nat (S i) ∧
      dr_http_status r = Some c ∧ dr_last_error r = None) ∧
  ((0 < n)%nat → (∀ j, (j < n)%nat → retriable wd (script j)) →
    ∃ r, out = (Return r, repeat req n) ∧ dr_attempts r = Z.of_nat n ∧
      dr_last_error r = Some (error_text (script (n - 1)%nat))).
Proof.
  intros Hd n req out. unfold out, WebhookDispatcher_deliver, mbind, PyM_bind, from_outcome.
  rewrite Hd. split.
  - intros i c Hi Hj Hs Hc.
    destruct (loop_accepted mono script wd req i n 1
      (mkDelivery (ep_id ep) event_type None 0 0 None) None [] c Hi Hj Hs Hc)
      as (r & E & Ha & _ & Hst & Hle).
    exists r. split; [exact E|]. split_and!; [rewrite Ha; lia | done | done].
  - intros Hn Hj.
    destruct (loop_exhausted mono script wd req n 1
      (mkDelivery (ep_id ep) event_type None 0 0 None) None [] Hj) as (r & E & _ & Ha & Hle).
    exists r. split; [exact E|]. destruct (Nat.eqb_spec n 0); [lia|]. split; [lia | done].
Qed.

Lemma webhook_delivery_witness :
  let script i := match i with O => Return 503%Z | 1%nat => Raise (ValueError "boom") | _ => Return 200%Z end in
  let ep := mkEndpoint "https://a" "s3cret" ∅ true "e1" in
  ∃ r, WebhookDispatcher_deliver (λ _, 0%Q) (script_post script) Return
         (WebhookDispatcher_init 3 None) ep "created" "1" [] =
       (Return r, repeat (webhook_request ep "created" (webhook_body "created" "1")) 3) ∧
       dr_attempts r = 3%Z ∧ dr_http_status r = Some 200%Z ∧ dr_last_error r = None.
Proof.
  intros script ep.
  apply (proj1 (webhook_delivery (λ _, 0%Q) script Return (WebhookDispatcher_init 3 None) ep
    "created" "1" "1" eq_refl) 2%nat 200%Z).
  - vm_compute. lia.
  - intros [|[|j]] Hj; [|vm_compute; reflexivity | lia].
    simpl. apply (bool_decide_unpack _). vm_compute. exact I.
  - reflexivity.
  - apply (bool_decide_unpack _). vm_compute. exact I.
Defined.

(** C40: Dispatch delivers to every subscriber.  When the client only ever answers or fails with an
    exception, [dispatch] goes through the endpoints of the store that are enabled and
    subscribe to the event - or to everything - in the order of the store.  To each it
    posts the event with its data as JSON, signed with "sha256=" and the HMAC-SHA256 of the
    body under the secret of the endpoint, the same request again as long as the answer is a status of
    [retry_on] or an exception and at most [max_retries] times; it makes no other request.
    The record it returns and appends to the log for the endpoint has the number of requests,
    the status of the last one if it was answered, and its error if it was not accepted.  A receiver
    that shares the secret accepts that signature and no other. *)
Theorem webhook_dispatch {P} mono script (dumps : P → outcome string) wd st event_type payload data
    log posts :
  well_behaved script → dumps payload = Return data →
  (∃ records posts',
    WebhookDispatcher_dispatch mono (script_post script) dumps wd
      (λ ev, mret (InMemoryWebhookEndpointStore_find_by_event ev st)) event_type payload (log, posts) =
    (Return records, (log ++ records, posts ++ posts')) ∧
    delivered script wd event_type data (length posts) (filter (subscribed event_type) (map snd st)) records posts') ∧
  ∀ body secret sig, WebhookSigner_verify body secret sig = true ↔ sig = "sha256=" +:+ hexdigest (hmac_sha256 (encode secret) body).
Proof.
  intros Hs Hd. split; [|intros body secret sig; apply verify_iff].
  unfold WebhookDispatcher_dispatch, mbind, PyM_bind, on_snd. cbn [fst snd].
  destruct (dispatch_loop_spec script wd mono Hs dumps event_type payload data
    (InMemoryWebhookEndpointStore_find_by_event event_type st) Hd [] log posts) as (new & ps & E & Hdel).
  exists new, ps. split; [exact E|]. unfold InMemoryWebhookEndpointStore_find_by_event in Hdel. by rewrite matches_subscribed in Hdel.
Qed.

Lemma webhook_dispatch_witness :
  let ep := mkEndpoint "https://a" "k1" ∅ true "e1" in
  let script i := match i with O => Return 503%Z | _ => Return 200%Z end in
  ∃ r posts,
    WebhookDispatcher_dispatch (λ _, 0%Q) (script_post script) Return (WebhookDispatcher_init 3 None)
      (λ ev, mret (InMemoryWebhookEndpointStore_find_by_event ev
         [("e1", ep); ("e2", mkEndpoint "https://b" "k2" ∅ false "e2")])) "created" "{}" ([], []) =
    (Return [r], ([r], posts)) ∧ posts = [signed_post ep "created" "{}"; signed_post ep "created" "{}"] ∧ dr_endpoint_id r = "e1".
Proof.
  intros ep script.
  destruct (webhook_dispatch (λ _, 0%Q) script Return (WebhookDispatcher_init 3 None)
    [("e1", ep); ("e2", mkEndpoint "https://b" "k2" ∅ false "e2")]
    "created" "{}" "{}" [] []) as [(records & posts & E & Hd) _]; [by intros [|i] | done |].
  assert (filter (subscribed "created") (map snd [("e1", ep); ("e2", mkEndpoint "https://b" "k2" ∅ false "e2")]) = [ep]) as Hf
    by (vm_compute; reflexivity).
  rewrite Hf in Hd. destruct records as [|r [|r' records]]; cbn [delivered] in Hd; [done| |by destruct Hd as (? & ? & ? & ? & ? & ? & ? & ?)].
  destruct Hd as (k & rest & -> & (Hk & Hj & Hl) & _ & Hid & _ & ->). exists r.
  exists (repeat (signed_post ep "created" "{}") k ++ []). split; [exact E|]. split; [|exact Hid].
  assert (k = 2%nat) as ->; [|reflexivity]. clear E Hid Hf.
  assert (retriable (WebhookDispatcher_init 3 None) (Return 503%Z)) as H503 by (simpl; apply (bool_decide_unpack _); vm_compute; exact I).
  assert (¬ retriable (WebhookDispatcher_init 3 None) (Return 200%Z)) as H200 by (simpl; apply (bool_decide_unpack _); vm_compute; exact I).
  change (Z.to_nat (wd_max_retries (WebhookDispatcher_init 3 None))) with 3%nat in *.
  destruct k as [|[|[|k]]].
  - destruct Hl as (j & Hjk & _); [lia|done].
  - destruct Hl as (j & [= <-] & Hn); [lia|]. exfalso. apply Hn. exact H503.
  - reflexivity.
  - exfalso. apply H200. apply (Hj 1%nat). lia.
Defined.
