(* ===== verification/Flags.v ===== *)
(** * Feature flags ([config/flags/provider.py], [application/feature_flags/])

    The file-backed provider with its targeting rules and percentage roll-out, the
    client that falls back to the default, and the in-memory provider.  Reading and
    parsing the YAML file are arguments; what they return is a [pyval]. *)
From S2P Require Import Prelude PyString Sha256 OrderedDict PyValue.

(** ** The provider port and its client *)

Record EvaluationContext := mkEvalCtx {
  targeting_key : string;
  ctx_attributes : list (string * pyval);
}.

Class FlagProvider (X : Type) := {
  fp_get_boolean : string → bool → option EvaluationContext → PyM X bool;
  fp_get_string : string → string → option EvaluationContext → PyM X string;
  fp_get_number : string → Q → option EvaluationContext → PyM X Q;
  fp_get_object : string → pyval → option EvaluationContext → PyM X pyval;
}.

Section Client.
Context {X : Type} `{FlagProvider X}.

Definition FeatureFlagClient_is_enabled (flag_key : string) (dflt : bool)
    (context : option EvaluationContext) : PyM X bool :=
  try_except (fp_get_boolean flag_key dflt context) (λ _, mret dflt).
Definition FeatureFlagClient_get_string (flag_key dflt : string)
    (context : option EvaluationContext) : PyM X string :=
  try_except (fp_get_string flag_key dflt context) (λ _, mret dflt).
Definition FeatureFlagClient_get_number (flag_key : string) (dflt : Q)
    (context : option EvaluationContext) : PyM X Q :=
  try_except (fp_get_number flag_key dflt context) (λ _, mret dflt).
Definition FeatureFlagClient_get_object (flag_key : string) (dflt : pyval)
    (context : option EvaluationContext) : PyM X pyval :=
  try_except (fp_get_object flag_key dflt context) (λ _, mret dflt).

End Client.

(** ** Evaluating a flag *)

(** [_percentage_bucket]: thousandths of a percent from the digest of flag and user. *)
Definition percentage_bucket (targeting_key flag_key : string) : Q :=
  let digest := hexdigest (sha256 (encode (flag_key +:+ ":" +:+ targeting_key))) in
  (inject_Z (int16 (String.substring 0 8 digest) 0 mod 100000) / 1000)%Q.

(** [bool(rule.get("value", False))]. *)
Definition rule_value (rule : pyval) : outcome bool :=
  v ← py_get "value" rule;
  mret (truthy (default (VBool false) v)).

(** [for rule in targeting: if rule.get("key") == targeting_key: return ...]. *)
Fixpoint match_targeting_key (key : string) (rules : list pyval) : outcome (option bool) :=
  match rules with
  | [] => mret None
  | rule :: rules' =>
      k ← py_get "key" rule;
      if py_eq (default VNone k) (VStr key) then v ← rule_value rule; mret (Some v)
      else match_targeting_key key rules'
  end.

(** [for attr_key, attr_val in context.attributes.items()] within one rule. *)
Fixpoint match_attributes (rule : pyval) (attrs : list (string * pyval)) : outcome bool :=
  match attrs with
  | [] => mret false
  | (attr_key, attr_val) :: attrs' =>
      k ← py_get "key" rule;
      if py_eq (default VNone k) (VStr attr_key) then
        m ← py_get "match" rule;
        if py_eq (default VNone m) attr_val then mret true else match_attributes rule attrs'
      else match_attributes rule attrs'
  end.

Fixpoint match_rules (attrs : list (string * pyval)) (rules : list pyval) : outcome (option bool) :=
  match rules with
  | [] => mret None
  | rule :: rules' =>
      hit ← match_attributes rule attrs;
      if (hit : bool) then v ← rule_value rule; mret (Some v) else match_rules attrs rules'
  end.

(** The targeting part of [_evaluate_boolean]: the decision of a rule, if one matches. *)
Definition evaluate_targeting (flag_def : list (string * pyval)) (context : option EvaluationContext)
    : outcome (option bool) :=
  match context with
  | None => mret None
  | Some ctx =>
      match od_get "targeting" flag_def with
      | None => mret None
      | Some targeting =>
          if truthy targeting then
            rules ← py_iter targeting;
            r ← match_targeting_key (targeting_key ctx) rules;
            match r with
            | Some v => mret (Some v)
            | None => match_rules (ctx_attributes ctx) rules
            end
          else mret None
      end
  end.

(** [FlatFileProvider._evaluate_boolean]. *)
Definition evaluate_boolean (flag_def : list (string * pyval)) (context : option EvaluationContext)
    : outcome bool :=
  t ← evaluate_targeting flag_def context;
  match t with
  | Some v => mret v
  | None =>
      match default VNone (od_get "rollout_percentage" flag_def) with
      | VNone => mret (truthy (default (VBool false) (od_get "enabled" flag_def)))
      | pct =>
          let key := match context with Some ctx => targeting_key ctx | None => "" end in
          let flag_key := match od_get "_key" flag_def with Some (VStr k) => k | _ => "" end in
          let bucket := percentage_bucket key flag_key in
          p ← py_float pct;
          mret (Qltb bucket p)
      end
  end.

(** ** The file-backed provider *)

Section FlatFile.
Context {W : Type}.
(** [self._path.read_text()], [yaml.safe_load], and [str(v)] of a float, list or
    dictionary. *)
Context (read_text : PyM W string) (safe_load : string → outcome pyval) (str_other : pyval → string).

Record FlatFileProvider := mkFlat { ff_flags : pyval; ff_loaded : bool }.

Definition FlatFileProvider_init : FlatFileProvider := mkFlat (VDict []) false.

(** [_load]: [yaml.safe_load(raw) or {}]. *)
Definition FlatFileProvider_load : PyM (FlatFileProvider * W) pyval :=
  raw ← on_snd read_text;
  v ← from_outcome (safe_load raw);
  mret (if truthy v then v else VDict []).

Definition FlatFileProvider_reload : PyM (FlatFileProvider * W) unit :=
  flags ← FlatFileProvider_load;
  on_fst (updates (λ _, mkFlat flags true)).

Definition ensure_loaded : PyM (FlatFileProvider * W) unit :=
  loaded ← on_fst (reads ff_loaded);
  if (loaded : bool) then mret tt else FlatFileProvider_reload.

(** [self._flags.get(flag_key)] once loaded; a null entry reads as an absent one. *)
Definition lookup_flag (flag_key : string) : PyM (FlatFileProvider * W) pyval :=
  ensure_loaded ;;
  flags ← on_fst (reads ff_flags);
  v ← from_outcome (py_get flag_key flags);
  mret (default VNone v).

Definition FlatFileProvider_get_boolean (flag_key : string) (dflt : bool)
    (context : option EvaluationContext) : PyM (FlatFileProvider * W) bool :=
  flag_def ← lookup_flag flag_key;
  match flag_def with
  | VNone => mret dflt
  | VDict d => from_outcome (evaluate_boolean (od_set "_key" (VStr flag_key) d) context)
  | v => mret (truthy v)
  end.

(** [str(v)]. *)
Definition py_str (v : pyval) : string :=
  match v with
  | VNone => "None"
  | VBool b => if b then "True" else "False"
  | VInt z => str_of_int z
  | VStr s => s
  | v => str_other v
  end.

Definition FlatFileProvider_get_string (flag_key dflt : string)
    (context : option EvaluationContext) : PyM (FlatFileProvider * W) string :=
  flag_def ← lookup_flag flag_key;
  mret match flag_def with
       | VNone => dflt
       | VDict d => py_str (default (VStr dflt) (od_get "value" d))
       | v => py_str v
       end.

Definition FlatFileProvider_get_number (flag_key : string) (dflt : Q)
    (context : option EvaluationContext) : PyM (FlatFileProvider * W) Q :=
  flag_def ← lookup_flag flag_key;
  match flag_def with
  | VNone => mret dflt
  | VDict d => from_outcome (py_float (default (VFloat dflt) (od_get "value" d)))
  | v => from_outcome (py_float v)
  end.

Definition FlatFileProvider_get_object (flag_key : string) (dflt : pyval)
    (context : option EvaluationContext) : PyM (FlatFileProvider * W) pyval :=
  flag_def ← lookup_flag flag_key;
  mret match flag_def with
       | VNone => dflt
       | VDict d => default (VDict d) (od_get "value" d)
       | v => v
       end.

#[export] Instance FlatFile_FlagProvider : FlagProvider (FlatFileProvider * W) := {
  fp_get_boolean := FlatFileProvider_get_boolean;
  fp_get_string := FlatFileProvider_get_string;
  fp_get_number := FlatFileProvider_get_number;
  fp_get_object := FlatFileProvider_get_object;
}.

End FlatFile.

(** ** The in-memory provider ([application/feature_flags/in_memory.py]) *)

Record FeatureFlag := mkFlag {
  flag_key : string;
  flag_description : string;
  flag_default_value : bool;
  flag_tags : gset string;
}.

Definition InMemoryFeatureFlagProvider_set (flag : FeatureFlag + string) (enabled : bool)
    (flags : gmap string bool) : gmap string bool :=
  let key := match flag with inl f => flag_key f | inr k => k end in
  <[key := enabled]> flags.
Definition InMemoryFeatureFlagProvider_is_enabled (flag : FeatureFlag) (flags : gmap string bool) : bool :=
  default (flag_default_value flag) (flags !! flag_key flag).
Definition InMemoryFeatureFlagProvider_get_variant (flag : FeatureFlag) (flags : gmap string bool)
    : string :=
  let enabled := default (flag_default_value flag) (flags !! flag_key flag) in
  if enabled then "on" else "off".

(** ** Lemmas *)

Lemma bucket_range (u f : string) : (0 <= percentage_bucket u f < 100)%Q.
Proof.
  unfold percentage_bucket. set (n := int16 _ _).
  assert (0 <= n mod 100000 < 100000)%Z as [H0 H1] by (apply Z.mod_pos_bound; lia).
  rewrite Zle_Qle in H0. rewrite Zlt_Qlt in H1.
  change (inject_Z 0) with 0%Q in H0. change (inject_Z 100000) with (100 * 1000)%Q in H1.
  split; [apply Qle_shift_div_l; lra | by apply Qlt_shift_div_r; [lra|]].
Qed.

(** A provider that has loaded a mapping evaluates the entry of the flag. *)
Lemma get_boolean_loaded {W} read_text safe_load flags key dflt ctx (w : W) :
  FlatFileProvider_get_boolean read_text safe_load key dflt ctx (mkFlat (VDict flags) true, w) =
  (match default VNone (od_get key flags) with
   | VNone => Return dflt
   | VDict d => evaluate_boolean (od_set "_key" (VStr key) d) ctx
   | v => Return (truthy v)
   end, (mkFlat (VDict flags) true, w)).
Proof.
  unfold FlatFileProvider_get_boolean, lookup_flag, ensure_loaded.
  unfold mbind, PyM_bind, on_fst, reads, from_outcome. simpl.
  by destruct (default VNone (od_get key flags)).
Qed.

(** Targeting does not look at any field but ["targeting"]. *)
Lemma targeting_frame k v d ctx :
  k ≠ "targeting" → evaluate_targeting (od_set k v d) ctx = evaluate_targeting d ctx.
Proof. intros Hk. unfold evaluate_targeting. by rewrite od_get_set_ne. Qed.

(** A dictionary's roll-out decision. *)
Lemma evaluate_rollout key d ctx p :
  evaluate_boolean (od_set "_key" (VStr key) (od_set "rollout_percentage" (VFloat p) d)) ctx =
  (t ← evaluate_targeting d ctx;
   mret match t with
        | Some v => v
        | None => Qltb (percentage_bucket (match ctx with Some c => targeting_key c | None => "" end)
                          key) p
        end).
Proof.
  unfold evaluate_boolean. rewrite !targeting_frame by done.
  destruct (evaluate_targeting d ctx) as [[v|]|e]; [done| |done].
  unfold mbind, outcome_bind. rewrite od_get_set_ne, !od_get_set_eq by done. done.
Qed.

(** Exceptions that [except Exception] catches. *)
Definition raises_Exception {A : Type} (o : outcome A) : Prop :=
  match o with Return _ => True | Raise e => is_Exception e = true end.

Lemma is_Exception_of mro msg : is_Exception (exn_of mro msg) = true.
Proof. apply bool_decide_eq_true. simpl. set_solver. Qed.

Lemma raises_bind {A B} (o : outcome A) (k : A → outcome B) :
  raises_Exception o → (∀ a, raises_Exception (k a)) → raises_Exception (o ≫= k).
Proof. intros Ho Hk. destruct o; [apply Hk | exact Ho]. Qed.

Lemma raises_ret {A} (a : A) : raises_Exception (mret a).
Proof. exact I. Qed.

Lemma raises_get k v : raises_Exception (py_get k v).
Proof. destruct v; simpl; try apply is_Exception_of; exact I. Qed.

Lemma raises_iter v : raises_Exception (py_iter v).
Proof. destruct v; simpl; try apply is_Exception_of; exact I. Qed.

Lemma raises_float v : raises_Exception (py_float v).
Proof.
  destruct v; simpl; try apply is_Exception_of; try exact I.
  destruct (parse_float s); [exact I | apply is_Exception_of].
Qed.

Lemma raises_rule_value rule : raises_Exception (rule_value rule).
Proof. apply raises_bind; [apply raises_get | intros; apply raises_ret]. Qed.

#[local] Hint Resolve raises_bind raises_ret raises_get raises_iter raises_float raises_rule_value : mpc.

Lemma raises_targeting_key key rules : raises_Exception (match_targeting_key key rules).
Proof.
  induction rules as [|r rules IH]; simpl; [exact I|].
  apply raises_bind; [apply raises_get|]. intros k. destruct (py_eq _ _); eauto with mpc.
Qed.

Lemma raises_match_attributes rule attrs : raises_Exception (match_attributes rule attrs).
Proof.
  induction attrs as [|[k v] attrs IH]; simpl; [exact I|].
  apply raises_bind; [apply raises_get|]. intros k'. destruct (py_eq _ _); [|done].
  apply raises_bind; [apply raises_get|]. intros m. destruct (py_eq _ _); eauto with mpc.
Qed.

Lemma raises_match_rules attrs rules : raises_Exception (match_rules attrs rules).
Proof.
  induction rules as [|r rules IH]; simpl; [exact I|].
  apply raises_bind; [apply raises_match_attributes|]. intros []; eauto with mpc.
Qed.

Lemma raises_evaluate d ctx : raises_Exception (evaluate_boolean d ctx).
Proof.
  apply raises_bind.
  - unfold evaluate_targeting. destruct ctx as [c|]; [|exact I].
    destruct (od_get _ d) as [t|]; [|exact I]. destruct (truthy t); [|exact I].
    apply raises_bind; [apply raises_iter|]. intros rules.
    apply raises_bind; [apply raises_targeting_key|]. intros [v|]; [exact I|].
    apply raises_match_rules.
  - intros [v|]; [exact I|]. destruct (default VNone _); eauto with mpc.
Qed.

(** A rule that names the user and is the first to do so decides. *)
Lemma match_first_rule user (before after : list (list (string * pyval))) rule :
  Forall (λ r, py_eq (default VNone (od_get "key" r)) (VStr user) = false) before →
  od_get "key" rule = Some (VStr user) →
  match_targeting_key user (map VDict (before ++ rule :: after)) =
  Return (Some (truthy (default (VBool false) (od_get "value" rule)))).
Proof.
  intros Hbefore Hrule. induction Hbefore as [|r before Hr Hbefore IH].
  - simpl. rewrite Hrule. simpl. by rewrite String.eqb_refl.
  - simpl. by rewrite Hr.
Qed.

Section FlatFileLemmas.
Context {W : Type} (read_text : PyM W string) (safe_load : string → outcome pyval)
  (str_other : pyval → string).
(** Neither reading nor parsing ends in anything but a result or an [Exception]. *)
Context (Hread : ∀ w, raises_Exception (fst (read_text w)))
  (Hparse : ∀ raw, raises_Exception (safe_load raw)).

Lemma lookup_flag_raises key s : raises_Exception (fst (lookup_flag read_text safe_load key s)).
Proof.
  assert (∀ k s0, raises_Exception
    (fst ((flags ← on_fst (reads ff_flags); v ← from_outcome (py_get k flags);
           mret (default VNone v)) s0 : outcome pyval * (FlatFileProvider * W)))) as Hget.
  { intros k [f w]. unfold mbind, PyM_bind, on_fst, reads, from_outcome. simpl.
    pose proof (raises_get k (ff_flags f)) as H. by destruct (py_get k (ff_flags f)). }
  destruct s as [f w]. unfold lookup_flag, ensure_loaded.
  rewrite bind_assoc. unfold mbind at 1, PyM_bind at 1. unfold on_fst at 1, reads at 1. simpl.
  destruct (ff_loaded f); [apply Hget|].
  unfold mbind at 1, PyM_bind at 1. unfold FlatFileProvider_reload, FlatFileProvider_load.
  unfold mbind at 1, PyM_bind at 1. unfold mbind at 1, PyM_bind at 1. unfold on_snd at 1. simpl.
  specialize (Hread w). destruct (read_text w) as [[raw|e] w']; [|exact Hread].
  unfold mbind at 1, PyM_bind at 1, from_outcome at 1.
  specialize (Hparse raw). destruct (safe_load raw) as [v|e]; [|exact Hparse]. apply Hget.
Qed.

Lemma get_boolean_raises key dflt ctx s :
  raises_Exception (fst (FlatFileProvider_get_boolean read_text safe_load key dflt ctx s)).
Proof.
  unfold FlatFileProvider_get_boolean, mbind, PyM_bind.
  pose proof (lookup_flag_raises key s) as H.
  destruct (lookup_flag read_text safe_load key s) as [[v|e] s']; [|exact H].
  destruct v; try exact I. apply raises_evaluate.
Qed.

End FlatFileLemmas.

(** ** Properties *)

(** Raising the roll-out percentage of a flag never takes it from anyone who had
    it: whatever the targeting rules, the user and the other fields of the flag, if
    [get_boolean] returns [True] at [p] it returns [True] at every larger
    percentage.  When no targeting rule decides, nobody has the flag at 0 or less
    and everybody has it at 100 or more. *)
Theorem rollout_monotone {W} read_text safe_load flags key d ctx dflt (w : W) (p p' : Q) :
  (p <= p')%Q →
  let out q := fst (FlatFileProvider_get_boolean read_text safe_load key dflt ctx
    (mkFlat (VDict (od_set key (VDict (od_set "rollout_percentage" (VFloat q) d)) flags)) true, w)) in
  (out p = Return true → out p' = Return true) ∧
  (evaluate_targeting d ctx = Return None →
    ((p <= 0)%Q → out p = Return false) ∧ ((100 <= p)%Q → out p = Return true)).
Proof.
  intros Hp out.
  assert (∀ q, out q = (t ← evaluate_targeting d ctx;
    mret match t with
         | Some v => v
         | None => Qltb (percentage_bucket (match ctx with Some c => targeting_key c | None => "" end)
                           key) q
         end)) as Hout.
  { intros q. unfold out. rewrite get_boolean_loaded, od_get_set_eq. apply evaluate_rollout. }
  rewrite !Hout. set (b := percentage_bucket _ key). pose proof (bucket_range _ _ : (0 <= b < 100)%Q).
  split.
  - destruct (evaluate_targeting d ctx) as [[v|]|e]; try done. intros [= Hb]. unfold mret, outcome_ret.
    simpl. f_equal. reflect_tests. lra.
  - intros ->. unfold mbind, outcome_bind, mret, outcome_ret.
    split; intros Hq; f_equal; reflect_tests; lra.
Qed.

Definition demo_flag : list (string * pyval) :=
  [("enabled", VBool false);
   ("targeting", VList [VDict [("key", VStr "alice"); ("value", VBool true)];
                        VDict [("key", VStr "plan"); ("match", VStr "pro"); ("value", VInt 1)]])].

Lemma rollout_monotone_witness :
  fst (FlatFileProvider_get_boolean (W := unit) (mret "") (λ _, Return VNone) "my_feature" false
         (Some (mkEvalCtx "user-123" []))
         (mkFlat (VDict (od_set "my_feature"
            (VDict (od_set "rollout_percentage" (VFloat 50) demo_flag)) [])) true, tt)) = Return true.
Proof.
  refine (proj1 (rollout_monotone (mret "") (λ _, Return VNone) [] "my_feature" demo_flag
    (Some (mkEvalCtx "user-123" [])) false tt 20 50 _) _); [lra | vm_compute; reflexivity].
Defined.

(** A rule for the user decides first: if [rule] is the first targeting rule whose
    key is the user's targeting key, [get_boolean] returns the truth of its value,
    whatever the attribute rules, the roll-out percentage and ["enabled"] say. *)
Theorem targeting_user_decides {W} read_text safe_load flags key d attrs dflt (w : W)
    user before rule after :
  od_get "targeting" d = Some (VList (map VDict (before ++ rule :: after))) →
  Forall (λ r, py_eq (default VNone (od_get "key" r)) (VStr user) = false) before →
  od_get "key" rule = Some (VStr user) →
  od_get key flags = Some (VDict d) →
  fst (FlatFileProvider_get_boolean read_text safe_load key dflt (Some (mkEvalCtx user attrs))
         (mkFlat (VDict flags) true, w)) =
  Return (truthy (default (VBool false) (od_get "value" rule))).
Proof.
  intros Ht Hbefore Hrule Hflag. rewrite get_boolean_loaded, Hflag. simpl.
  unfold evaluate_boolean. rewrite targeting_frame by done. unfold evaluate_targeting. rewrite Ht.
  replace (truthy (VList (map VDict (before ++ rule :: after)))) with true;
    [|simpl; rewrite length_map, length_app; simpl; by rewrite Nat.add_succ_r].
  simpl. by rewrite (match_first_rule user before after rule).
Qed.

Lemma targeting_user_decides_witness :
  fst (FlatFileProvider_get_boolean (W := unit) (mret "") (λ _, Return VNone) "f" false
         (Some (mkEvalCtx "alice" [("plan", VStr "free")]))
         (mkFlat (VDict [("f", VDict demo_flag)]) true, tt)) = Return true.
Proof.
  apply (targeting_user_decides _ _ _ "f" demo_flag _ _ _ "alice" []
    [("key", VStr "alice"); ("value", VBool true)]
    [[("key", VStr "plan"); ("match", VStr "pro"); ("value", VInt 1)]]);
    [reflexivity | constructor | reflexivity | reflexivity].
Defined.

(** The client answers whatever the file holds: as long as reading and parsing the
    file fail with ordinary exceptions only, [is_enabled] on the file-backed
    provider returns a boolean, from any state of the provider, for every flag and
    context, and the default when the file cannot be read. *)
Theorem flag_client_answers {W} (read_text : PyM W string) safe_load str_other key dflt ctx s :
  (∀ w, raises_Exception (fst (read_text w))) →
  (∀ raw, raises_Exception (safe_load raw)) →
  let client := FeatureFlagClient_is_enabled
    (H := FlatFile_FlagProvider read_text safe_load str_other) key dflt ctx in
  (∃ b s', client s = (Return b, s')) ∧
  (∀ e w', ff_loaded (fst s) = false → read_text (snd s) = (Raise e, w') →
    fst (client s) = Return dflt).
Proof.
  intros Hread Hparse client.
  pose proof (get_boolean_raises read_text safe_load Hread Hparse key dflt ctx s) as H.
  unfold client, FeatureFlagClient_is_enabled, try_except, try_base. simpl. split.
  - destruct (FlatFileProvider_get_boolean _ _ _ _ _ s) as [[b|e] s']; [by exists b, s'|].
    simpl in H. rewrite H. by exists dflt, s'.
  - intros e w' Hl He. specialize (Hread (snd s)). destruct s as [f w]. simpl in *.
    rewrite He in Hread. simpl in Hread.
    assert (FlatFileProvider_get_boolean read_text safe_load key dflt ctx (f, w) =
      (Raise e, (f, w'))) as ->; [|by rewrite Hread].
    unfold FlatFileProvider_get_boolean, lookup_flag, ensure_loaded.
    unfold mbind, PyM_bind, on_fst, reads. simpl. rewrite Hl.
    unfold FlatFileProvider_reload, FlatFileProvider_load, mbind, PyM_bind, on_snd. simpl.
    by rewrite He.
Qed.

Lemma flag_client_answers_witness :
  fst (FeatureFlagClient_is_enabled
    (H := FlatFile_FlagProvider (W := unit) (raise (ValueError "no file")) (λ _, Return VNone) type_name)
    "f" true None (FlatFileProvider_init, tt)) = Return true.
Proof.
  refine (proj2 (flag_client_answers (raise (ValueError "no file")) (λ _, Return VNone) type_name
    "f" true None (FlatFileProvider_init, tt) _ _) (ValueError "no file") tt _ _);
    [intros []; apply is_Exception_of | intros raw; exact I | reflexivity | reflexivity].
Defined.
