(* ===== verification/I18n.v ===== *)
(** * Locales and translation ([application/i18n/translator.py])

    Locale tags, the ambient locale, negotiation of an [Accept-Language] header, the
    translator over message catalogues and the middleware that sets the locale of a
    request.  Catalogue files and [str.format] are arguments. *)
From S2P Require Import Prelude PyString OrderedDict PyValue.

#[local] Arguments String.append !_ _ / : simpl nomatch.

(** ** Locales *)

Record Locale := mkLocale { language : string; territory : option string }.
#[export] Instance Locale_eq_dec : EqDecision Locale.
Proof. solve_decision. Defined.

(** [f"{language}{sep}{territory}"], or the language alone. *)
Definition locale_text (sep : string) (l : Locale) : string :=
  match territory l with
  | None | Some "" => language l
  | Some t => language l +:+ sep +:+ t
  end.
Definition Locale_str : Locale → string := locale_text "-".
Definition Locale_babel_str : Locale → string := locale_text "_".
Definition Locale_default : Locale := mkLocale "en" None.

(** The longest prefix of characters in [p], and the rest. *)
Fixpoint span (p : ascii → bool) (s : string) : string * string :=
  match s with
  | "" => ("", "")
  | String c s' => if p c then let '(a, b) := span p s' in (String c a, b) else ("", s)
  end.

Definition is_sep (c : ascii) : bool := Ascii.eqb c "_" || Ascii.eqb c "-".

(** [.+] up to the end: not empty and without a newline. *)
Definition dot_plus (s : string) : bool :=
  negb (String.eqb s "") && str_all (λ c, negb (Ascii.eqb c "010"%char)) s.

(** [(?:[_-].+)?$]. *)
Definition tail_ok (s : string) : bool :=
  match s with "" => true | String c s' => is_sep c && dot_plus s' end.

(** The territory after the first separator: two letters or three digits, followed by
    nothing or by another separator and more. *)
Definition territory_of (s : string) : option string :=
  match s with
  | String a (String b rest) =>
      if is_alpha a && is_alpha b && tail_ok rest then Some (String a (String b ""))
      else match rest with
           | String c rest' =>
               if is_digit a && is_digit b && is_digit c && tail_ok rest'
               then Some (String a (String b (String c ""))) else None
           | "" => None
           end
  | _ => None
  end.

(** [_BCP47_RE.match]: the language is the whole run of letters, since what follows it
    must be a separator or the end; without a territory the rest is any tail. *)
Definition match_bcp47 (s : string) : option (string * option string) :=
  let '(lang, rest) := span is_alpha s in
  let n := String.length lang in
  if Nat.leb 2 n && Nat.leb n 8 then
    match rest with
    | "" => Some (lang, None)
    | String c rest' =>
        if is_sep c then
          match territory_of rest' with
          | Some t => Some (lang, Some t)
          | None => if dot_plus rest' then Some (lang, None) else None
          end
        else None
    end
  else None.

Definition Locale_parse (tag : string) : outcome Locale :=
  match match_bcp47 (strip tag) with
  | None => Raise (ValueError ("Invalid BCP-47 locale tag: " +:+ py_repr tag))
  | Some (lang, terr) => Return (mkLocale (lower lang) (upper <$> terr))
  end.

(** ** The ambient locale *)

Definition LocaleContext_get : PyM Locale Locale := reads id.
Definition LocaleContext_set (l : Locale) : PyM Locale Locale := λ v, (Return v, l).
Definition LocaleContext_reset (token : Locale) : PyM Locale unit := updates (λ _, token).
Definition LocaleContext_scoped {W A} (l : Locale) (body : Locale → PyM (Locale * W) A)
    : PyM (Locale * W) A :=
  token ← on_fst (LocaleContext_set l);
  try_finally (body l) (on_fst (LocaleContext_reset token)).

(** ** Negotiation *)

(** [s.split(p, 1)] when [p] occurs in [s]. *)
Fixpoint split_sub (p s : string) : option (string * string) :=
  if startswith p s then
    Some ("", String.substring (String.length p) (String.length s - String.length p) s)
  else match s with
       | "" => None
       | String c s' =>
           match split_sub p s' with Some (a, b) => Some (String c a, b) | None => None end
       end.

(** One part of the header: its quality and tag. *)
Definition candidate_of (raw_part : string) : Q * string :=
  let part := strip raw_part in
  match split_sub ";q=" part with
  | Some (lang, q_str) => (default 0%Q (parse_float q_str), strip lang)
  | None => (1%Q, strip part)
  end.

(** [a >= b] on tuples. *)
Definition cand_geb (a b : Q * string) : bool :=
  if Qeq_bool (fst a) (fst b) then String.leb (snd b) (snd a) else Qle_bool (fst b) (fst a).

(** [candidates.sort(reverse=True)]. *)
Fixpoint insert_cand (x : Q * string) (l : list (Q * string)) : list (Q * string) :=
  match l with
  | [] => [x]
  | y :: l' => if cand_geb x y then x :: l else y :: insert_cand x l'
  end.
Definition sort_candidates (l : list (Q * string)) : list (Q * string) := foldr insert_cand [] l.

Definition candidates (accept_language : string) : list (Q * string) :=
  map candidate_of (split_on "," accept_language).

(** The supported locale a tag asks for: the same locale, or else the same language. *)
Definition locale_match (supported : list Locale) (tag : string) : option Locale :=
  match Locale_parse tag with
  | Raise _ => None
  | Return requested =>
      match List.find (λ s, bool_decide (s = requested)) supported with
      | Some s => Some s
      | None => List.find (λ s, String.eqb (language s) (language requested)) supported
      end
  end.

Fixpoint first_match (supported : list Locale) (cands : list (Q * string)) : option Locale :=
  match cands with
  | [] => None
  | (_, tag) :: cands' =>
      match locale_match supported tag with
      | Some s => Some s
      | None => first_match supported cands'
      end
  end.

(** [Translator.negotiate]; [current] is the ambient locale. *)
Definition Translator_negotiate (supported : list Locale) (current : Locale) (accept_language : string)
    : Locale :=
  match supported with
  | [] => current
  | first :: _ =>
      default first (first_match supported (sort_candidates (candidates accept_language)))
  end.

(** ** The translator *)

Section Translator.
Context {T K W : Type}.
(** Whether a catalogue file exists, loading one (directory, locale, domain), looking a
    message up in it, and [text.format( **kwargs )]. *)
Context (mo_exists : string → W → bool) (load : string → string → string → PyM W T)
  (gettext : T → string → string) (format : string → list (string * K) → outcome string).

Record Translator := mkTranslator {
  tl_locale_dir : option string;
  tl_domain : string;
  tl_supported : list Locale;
  tl_cache : gmap string (option T);
}.

Definition parse_all (tags : list string) : outcome (list Locale) :=
  foldr (λ tag acc, l ← Locale_parse tag; ls ← acc; mret (l :: ls)) (mret []) tags.

Definition Translator_init (locale_dir : option string) (domain : string)
    (supported_locales : list string) : outcome Translator :=
  supported ← parse_all supported_locales;
  mret (mkTranslator (match locale_dir with Some "" => None | d => d end) domain supported ∅).

Definition cache_store (key : string) (v : option T) (t : Translator) : Translator :=
  mkTranslator (tl_locale_dir t) (tl_domain t) (tl_supported t) (<[key := v]> (tl_cache t)).

Definition mo_path (dir sub domain : string) : string :=
  dir +:+ "/" +:+ sub +:+ "/LC_MESSAGES/" +:+ domain +:+ ".mo".

Definition get_translations (l : Locale) : PyM (Translator * W) (option T) := λ s,
  let t := fst s in
  let w := snd s in
  let key := Locale_babel_str l in
  match tl_cache t !! key with
  | Some v => (Return v, s)
  | None =>
      match tl_locale_dir t with
      | None => (Return None, s)
      | Some dir =>
          if mo_exists (mo_path dir (Locale_babel_str l) (tl_domain t)) w
             || mo_exists (mo_path dir (language l) (tl_domain t)) w
          then match load dir (Locale_babel_str l) (tl_domain t) w with
               | (Return trans, w') => (Return (Some trans), (cache_store key (Some trans) t, w'))
               | (Raise e, w') => (Raise e, (t, w'))
               end
          else (Return None, (cache_store key None t, w))
      end
  end.

Definition Translator_translate (current : Locale) (key : string) (l : option Locale)
    (kwargs : list (string * K)) : PyM (Translator * W) string :=
  trans ← get_translations (default current l);
  let text := match trans with None => key | Some tr => gettext tr key end in
  match kwargs with
  | [] => mret text
  | _ =>
      match format text kwargs with
      | Return text' => mret text'
      | Raise e => if isinstance_any e ["KeyError"; "ValueError"] then mret text else raise e
      end
  end.

(** [TranslatedError.localise]. *)
Definition TranslatedError_localise (current : Locale) (message_key : string)
    (context : list (string * K)) (l : option Locale) : PyM (Translator * W) string :=
  Translator_translate current message_key l context.

End Translator.

(** ** The middleware *)

(** [LocaleMiddleware.__call__]: [scope_type] is [scope["type"]] and [headers] the
    header list; the application runs with the ambient locale set. *)
Definition LocaleMiddleware_call {W A} (supported : list Locale) (scope_type : string)
    (headers : list (string * string)) (app : PyM (Locale * W) A) : PyM (Locale * W) A :=
  if String.eqb scope_type "http" then
    let accept := default "" (od_get "accept-language"
      (fold_left (λ d h, od_set (fst h) (snd h) d) headers [])) in
    current ← on_fst LocaleContext_get;
    let l := if String.eqb accept "" then Locale_default
             else Translator_negotiate supported current accept in
    token ← on_fst (LocaleContext_set l);
    try_finally app (on_fst (LocaleContext_reset token))
  else app.

(** ** Lemmas *)

(** A fact about every character, by evaluation. *)
Ltac by_chars := intros c; destruct c as [[] [] [] [] [] [] [] []]; done.

Lemma alpha_lower : ∀ c, is_alpha c = true → is_lower (lower_char c) = true.
Proof. by_chars. Qed.
Lemma alpha_upper : ∀ c, is_alpha c = true → is_upper (upper_char c) = true.
Proof. by_chars. Qed.
Lemma digit_upper : ∀ c, is_digit c = true → is_digit (upper_char c) = true.
Proof. by_chars. Qed.
Lemma lower_char_fixed : ∀ c, is_lower c = true → lower_char c = c.
Proof. by_chars. Qed.
Lemma upper_char_fixed : ∀ c, is_upper c = true → upper_char c = c.
Proof. by_chars. Qed.
Lemma digit_fixed : ∀ c, is_digit c = true → upper_char c = c.
Proof. by_chars. Qed.
Lemma digit_not_alpha : ∀ c, is_digit c = true → is_alpha c = false.
Proof. by_chars. Qed.
Lemma lower_alpha : ∀ c, is_lower c = true → is_alpha c = true.
Proof. by_chars. Qed.
Lemma upper_alpha : ∀ c, is_upper c = true → is_alpha c = true.
Proof. by_chars. Qed.
Lemma alnum_not_space : ∀ c, is_alpha c || is_digit c || is_sep c = true → is_space c = false.
Proof. by_chars. Qed.

Lemma str_map_all f (p q : ascii → bool) s :
  (∀ c, p c = true → q (f c) = true) → str_all p s = true → str_all q (str_map f s) = true.
Proof.
  intros H. induction s as [|c s IH]; simpl; [done|]. rewrite !andb_true_iff.
  intros [Hc Hs]. split; [by apply H | by apply IH].
Qed.

Lemma str_map_fixed f p s :
  (∀ c, p c = true → f c = c) → str_all p s = true → str_map f s = s.
Proof.
  intros H. induction s as [|c s IH]; simpl; [done|]. rewrite andb_true_iff.
  intros [Hc Hs]. by rewrite H, IH.
Qed.

Lemma str_map_length f s : String.length (str_map f s) = String.length s.
Proof. induction s as [|c s IH]; simpl; [done|]. by rewrite IH. Qed.

Lemma span_all p s : str_all p (fst (span p s)) = true.
Proof.
  induction s as [|c s IH]; simpl; [done|]. destruct (p c) eqn:E; [|done].
  destruct (span p s) as [a b]. simpl in *. by rewrite E.
Qed.

Lemma span_app p a b :
  str_all p a = true → match b with "" => True | String c _ => p c = false end →
  span p (a +:+ b) = (a, b).
Proof.
  intros Ha Hb. induction a as [|c a IH]; simpl in *.
  - destruct b as [|c b]; simpl; [done|]. by rewrite Hb.
  - apply andb_true_iff in Ha as [-> Ha]. by rewrite IH.
Qed.

(** Locales as [parse] builds them. *)
Definition wf_territory (t : string) : Prop :=
  (String.length t = 2%nat ∧ str_all is_upper t = true) ∨
  (String.length t = 3%nat ∧ str_all is_digit t = true).
Definition wf_locale (l : Locale) : Prop :=
  (2 <= String.length (language l) <= 8)%nat ∧ str_all is_lower (language l) = true ∧
  match territory l with None => True | Some t => wf_territory t end.

Lemma territory_of_wf s t : territory_of s = Some t → wf_territory (upper t).
Proof.
  destruct s as [|a [|b rest]]; try done. simpl.
  destruct (is_alpha a && is_alpha b && tail_ok rest) eqn:E.
  - intros [= <-]. left. split; [done|]. rewrite !andb_true_iff in E. destruct E as [[Ha Hb] _].
    simpl. by rewrite !alpha_upper.
  - destruct rest as [|c rest]; [done|]. destruct (is_digit a && is_digit b && is_digit c && tail_ok rest) eqn:E2; [|done]. intros [= <-]. right.
    split; [done|]. rewrite !andb_true_iff in E2. destruct E2 as [[[Ha Hb] Hc] _].
    simpl. by rewrite !digit_upper.
Qed.

Lemma parse_wf tag l : Locale_parse tag = Return l → wf_locale l.
Proof.
  unfold Locale_parse, match_bcp47. pose proof (span_all is_alpha (strip tag)) as Hall.
  destruct (span is_alpha (strip tag)) as [lang rest]. simpl in Hall.
  destruct (Nat.leb 2 _ && Nat.leb _ 8) eqn:Hn; [|done].
  apply andb_true_iff in Hn as [H2 H8]. apply Nat.leb_le in H2, H8.
  assert ((2 <= String.length (lower lang) <= 8)%nat ∧ str_all is_lower (lower lang) = true) as [??].
  { unfold lower. rewrite str_map_length. split; [lia|]. eapply str_map_all; [apply alpha_lower | done]. }
  destruct rest as [|c rest]; [by intros [= <-]|]. destruct (is_sep c); [|done].
  destruct (territory_of rest) as [t|] eqn:Ht.
  - intros [= <-]. split_and!; simpl; [lia | lia | done | by eapply territory_of_wf].
  - destruct (dot_plus rest); [|done]. by intros [= <-].
Qed.

Lemma territory_of_id t : wf_territory t → territory_of t = Some t ∧ upper t = t ∧ t ≠ "".
Proof.
  intros [[Hl Ha]|[Hl Ha]].
  - split_and!; [|eapply str_map_fixed; [apply upper_char_fixed | done] | by intros ->].
    destruct t as [|a [|b [|]]]; try done. simpl in Ha. rewrite !andb_true_iff in Ha.
    destruct Ha as (Ha & Hb & _). simpl. by rewrite !upper_alpha.
  - split_and!; [|eapply str_map_fixed; [apply digit_fixed | done] | by intros ->].
    destruct t as [|a [|b [|c [|]]]]; try done. simpl in Ha. rewrite !andb_true_iff in Ha.
    destruct Ha as (Ha & Hb & Hc & _). simpl. rewrite Ha, Hb, Hc.
    by rewrite !digit_not_alpha.
Qed.

Lemma wf_territory_chars t :
  wf_territory t → str_all (λ c, is_alpha c || is_digit c || is_sep c) t = true.
Proof.
  intros [[_ H]|[_ H]]; (eapply str_all_impl; [|exact H]); intros c Hc.
  - by rewrite upper_alpha.
  - by rewrite Hc, orb_true_r.
Qed.

Lemma match_bcp47_lang lang rest :
  str_all is_alpha lang = true → (2 <= String.length lang <= 8)%nat →
  match rest with "" => True | String c _ => is_alpha c = false end →
  match_bcp47 (lang +:+ rest) =
  match rest with
  | "" => Some (lang, None)
  | String c rest' =>
      if is_sep c then
        match territory_of rest' with
        | Some t => Some (lang, Some t)
        | None => if dot_plus rest' then Some (lang, None) else None
        end
      else None
  end.
Proof.
  intros Ha Hn Hr. unfold match_bcp47. rewrite span_app by done.
  by rewrite (proj2 (Nat.leb_le 2 _)), (proj2 (Nat.leb_le _ 8)) by lia.
Qed.

(** A locale prints to a text that parses back to it. *)
Lemma parse_str l : wf_locale l → Locale_parse (Locale_str l) = Return l.
Proof.
  destruct l as [lang terr]. intros (Hn & Hl & Ht). simpl in *.
  assert (str_all is_alpha lang = true) as Hal by (eapply str_all_impl; [apply lower_alpha | done]).
  assert (str_all (λ c, is_alpha c || is_digit c || is_sep c) lang = true) as Hch.
  { eapply str_all_impl; [|exact Hal]. by intros c ->. }
  assert (lower lang = lang) as Hlow by (eapply str_map_fixed; [apply lower_char_fixed | done]).
  assert (∀ s, str_all (λ c, is_alpha c || is_digit c || is_sep c) s = true → strip s = s) as Hstrip.
  { intros s Hs. apply strip_none. eapply str_all_impl; [|exact Hs].
    intros c Hc. by rewrite alnum_not_space. }
  unfold Locale_parse. destruct terr as [t|].
  - destruct (territory_of_id t Ht) as (Hto & Hup & Hne).
    assert (Locale_str (mkLocale lang (Some t)) = lang +:+ String "-" t) as -> by (by destruct t).
    rewrite (Hstrip (lang +:+ String "-" t))
      by (rewrite str_all_app, Hch; exact (wf_territory_chars t Ht)).
    rewrite match_bcp47_lang; [|done | done | vm_compute; done]. change (is_sep "-") with true. cbv iota.
    rewrite Hto, Hlow. simpl. by rewrite Hup.
  - change (Locale_str (mkLocale lang None)) with lang. rewrite Hstrip by done.
    pose proof (match_bcp47_lang lang "" Hal Hn I) as E. rewrite app_nil_r_str in E.
    rewrite E. by rewrite Hlow.
Qed.

(** *** Negotiation *)

Definition by_quality (a b : Q * string) : Prop := (fst b <= fst a)%Q.

Lemma cand_geb_true a b : cand_geb a b = true → by_quality a b.
Proof.
  unfold cand_geb, by_quality. destruct (Qeq_bool _ _) eqn:E.
  - intros _. apply Qeq_bool_eq in E. lra.
  - by rewrite Qle_bool_iff.
Qed.

Lemma cand_geb_false a b : cand_geb a b = false → by_quality b a.
Proof.
  unfold cand_geb, by_quality. destruct (Qeq_bool _ _) eqn:E.
  - intros _. apply Qeq_bool_eq in E. lra.
  - intros H. reflect_tests. lra.
Qed.

Lemma insert_cand_perm x l : insert_cand x l ≡ₚ x :: l.
Proof.
  induction l as [|y l IH]; simpl; [done|]. destruct (cand_geb x y); [done|].
  rewrite IH. apply Permutation_swap.
Qed.

Lemma sort_candidates_perm l : sort_candidates l ≡ₚ l.
Proof. induction l as [|x l IH]; simpl; [done|]. by rewrite insert_cand_perm, IH. Qed.

Lemma insert_cand_sorted x l :
  StronglySorted by_quality l → StronglySorted by_quality (insert_cand x l).
Proof.
  induction 1 as [|y l Hl IH Hall]; simpl; [by repeat constructor|].
  destruct (cand_geb x y) eqn:E.
  - apply cand_geb_true in E. constructor; [by constructor|]. constructor; [done|].
    eapply Forall_impl; [exact Hall|]. unfold by_quality in *. intros z Hz. lra.
  - apply cand_geb_false in E. constructor; [done|]. rewrite insert_cand_perm. by constructor.
Qed.

Lemma sort_candidates_sorted l : StronglySorted by_quality (sort_candidates l).
Proof. induction l as [|x l IH]; simpl; [constructor | by apply insert_cand_sorted]. Qed.

(** The first match of a list sorted by quality is a best one. *)
Lemma first_match_best supported l r :
  StronglySorted by_quality l → first_match supported l = Some r →
  ∃ q tag, (q, tag) ∈ l ∧ locale_match supported tag = Some r ∧
    ∀ q' tag', (q', tag') ∈ l → is_Some (locale_match supported tag') → (q' <= q)%Q.
Proof.
  induction 1 as [|[q tag] l Hl IH Hall]; simpl; [done|].
  destruct (locale_match supported tag) as [s|] eqn:E.
  - intros [= <-]. exists q, tag. split_and!; [apply list_elem_of_here | done |].
    intros q' tag' [[= -> ->]|Hin]%elem_of_cons _; [lra|].
    rewrite Forall_forall in Hall. exact (Hall _ Hin).
  - intros Hf. destruct (IH Hf) as (q0 & tag0 & Hin & Hm & Hbest). exists q0, tag0.
    split_and!; [by apply list_elem_of_further | done |].
    intros q' tag' [[= -> ->]|Hin']%elem_of_cons Hs; [by rewrite E in Hs; destruct Hs | by eauto].
Qed.

Lemma first_match_none supported l :
  first_match supported l = None → ∀ q tag, (q, tag) ∈ l → locale_match supported tag = None.
Proof.
  induction l as [|[q0 tag0] l IH]; simpl; intros H q tag Hin; [by apply not_elem_of_nil in Hin|].
  destruct (locale_match supported tag0) eqn:E; [done|].
  apply elem_of_cons in Hin as [[= -> ->]|Hin]; [done | by eapply IH].
Qed.

Lemma locale_match_supported supported tag l :
  locale_match supported tag = Some l → l ∈ supported.
Proof.
  unfold locale_match. destruct (Locale_parse tag); [|done].
  destruct (List.find _ supported) eqn:E.
  - intros [= <-]. apply find_some in E as [E _]. by apply list_elem_of_In.
  - intros H. apply find_some in H as [H _]. by apply list_elem_of_In.
Qed.

(** ** Properties *)

(** Parsing normalises and prints back: whatever tag [Locale.parse] accepts, the
    locale it returns has a lower-case language of two to eight letters and no
    territory, a two-letter upper-case one or a three-digit one, and its text parses
    to the same locale again. *)
Theorem locale_parse_print tag l :
  Locale_parse tag = Return l → wf_locale l ∧ Locale_parse (Locale_str l) = Return l.
Proof. intros H%parse_wf. split; [done | by apply parse_str]. Qed.

Lemma locale_parse_print_witness :
  Locale_parse (Locale_str (mkLocale "pt" (Some "BR"))) = Return (mkLocale "pt" (Some "BR")).
Proof. refine (proj2 (locale_parse_print " PT_br-x1 " _ _)). vm_compute. reflexivity. Defined.

(** Negotiation picks the best supported locale: with at least one supported
    locale the result is supported; it is the match of a candidate of the header
    whose quality is the highest among all candidates that match a supported locale,
    and the first supported locale when no candidate matches. *)
Theorem negotiate_best supported current header :
  supported ≠ [] →
  let l := Translator_negotiate supported current header in
  let matches c := locale_match supported (snd c) in
  l ∈ supported ∧
  ((∃ c, c ∈ candidates header ∧ matches c = Some l ∧
      ∀ c', c' ∈ candidates header → is_Some (matches c') → (fst c' <= fst c)%Q) ∨
   ((∀ c, c ∈ candidates header → matches c = None) ∧ head supported = Some l)).
Proof.
  intros Hne l matches. destruct supported as [|first rest] eqn:Hsup; [done|]. clear Hne.
  unfold l, Translator_negotiate, matches. rewrite <- Hsup.
  destruct (first_match supported (sort_candidates (candidates header))) as [r|] eqn:E.
  - apply first_match_best in E as (q & tag & Hin & Hm & Hbest); [|apply sort_candidates_sorted].
    split; [by eapply locale_match_supported|]. left. exists (q, tag). split_and!; [|done|].
    + by rewrite <- (sort_candidates_perm (candidates header)).
    + intros [q' tag'] Hc' Hs. apply (Hbest q' tag'); [|done]. by rewrite sort_candidates_perm.
  - split; [rewrite Hsup; apply list_elem_of_here|]. right. split; [|by rewrite Hsup].
    intros [q tag] Hc. eapply first_match_none; [exact E|]. by rewrite sort_candidates_perm.
Qed.

Lemma negotiate_best_witness :
  Translator_negotiate [mkLocale "en" None; mkLocale "pt" (Some "BR")] Locale_default
    "en;q=0.2, pt;q=0.9" ∈ [mkLocale "en" None; mkLocale "pt" (Some "BR")].
Proof.
  refine (proj1 (negotiate_best [mkLocale "en" None; mkLocale "pt" (Some "BR")] Locale_default
    "en;q=0.2, pt;q=0.9" _)). discriminate.
Defined.

(** The middleware scopes the locale: for an HTTP request the application runs with
    the default locale, or with the negotiated one when the request has an
    [accept-language] header, and when it has returned or raised the ambient locale is
    again what it was; other requests run in the ambient locale. *)
Theorem locale_middleware_scoped {W A} supported scope_type headers (app : PyM (Locale * W) A)
    (ambient : Locale) (w : W) :
  let accept := default "" (od_get "accept-language"
    (fold_left (λ d h, od_set (fst h) (snd h) d) headers [])) in
  let l := if String.eqb accept "" then Locale_default
           else Translator_negotiate supported ambient accept in
  LocaleMiddleware_call supported scope_type headers app (ambient, w) =
  (if String.eqb scope_type "http" then
     let '(o, (_, w')) := app (l, w) in (o, (ambient, w'))
   else app (ambient, w)).
Proof.
  unfold LocaleMiddleware_call. destruct (String.eqb scope_type "http"); [|done].
  unfold mbind, PyM_bind, on_fst, LocaleContext_get, LocaleContext_set, reads, try_finally. simpl.
  destruct (app _) as [o [l' w']]. done.
Qed.
