(* ===== verification/Credentials.v ===== *)
(** * Credentials ([kernel/security/pkce.py], [security/apikeys/])

    PKCE code verifiers and challenges, and API keys: generation, verification and the
    migration of stored hashes from bcrypt to argon2.  SHA-256 and base64url are
    computed; bcrypt, argon2 and the random source are arguments. *)
From S2P Require Import Prelude PyString Sha256 PyValue ValueObjects.

(** ** Unpadded base64url *)

(** The character of a six-bit value in the URL-safe alphabet. *)
Definition b64url_char (v : Z) : ascii :=
  ascii_of_nat (Z.to_nat
    (if (v <? 26)%Z then v + 65
     else if (v <? 52)%Z then v + 71
     else if (v <? 62)%Z then v - 4
     else if (v =? 62)%Z then 45 else 95)%Z).

(** Three bytes to four characters; the last one or two bytes give two or three. *)
Fixpoint b64_chars (bs : list Z) : string :=
  match bs with
  | a :: b :: c :: bs' =>
      String (b64url_char (Z.shiftr a 2))
        (String (b64url_char (Z.lor (Z.shiftl (Z.land a 3) 4) (Z.shiftr b 4)))
          (String (b64url_char (Z.lor (Z.shiftl (Z.land b 15) 2) (Z.shiftr c 6)))
            (String (b64url_char (Z.land c 63)) (b64_chars bs'))))
  | [a; b] =>
      String (b64url_char (Z.shiftr a 2))
        (String (b64url_char (Z.lor (Z.shiftl (Z.land a 3) 4) (Z.shiftr b 4)))
          (String (b64url_char (Z.shiftl (Z.land b 15) 2)) ""))
  | [a] => String (b64url_char (Z.shiftr a 2)) (String (b64url_char (Z.shiftl (Z.land a 3) 4)) "")
  | [] => ""
  end.

(** [base64.urlsafe_b64encode], padded with [=] to a multiple of four. *)
Definition urlsafe_b64encode (bs : list Z) : string :=
  b64_chars bs +:+ match Nat.modulo (length bs) 3 with
                   | O => "" | 1%nat => "==" | _ => "="
                   end.

(** [.rstrip(b"=").decode("ascii")]. *)
Definition b64url_nopad (bs : list Z) : string :=
  rstrip_by (λ c, Ascii.eqb c "="%char) (urlsafe_b64encode bs).

(** ** PKCE *)

Definition PKCEError (msg : string) : pyexn := exn_of ["PKCEError"; "ValueError"] msg.
Definition PKCEVerificationError (msg : string) : pyexn :=
  exn_of ["PKCEVerificationError"; "PKCEError"; "ValueError"] msg.

Definition is_unreserved (c : ascii) : bool := is_alnum c || str_in (String c "") ["-"; "."; "_"; "~"].

(** [^[A-Za-z0-9\-._~]{43,128}$]. *)
Definition is_verifier (code_verifier : string) : bool :=
  let s := chomp code_verifier in
  Nat.leb 43 (String.length s) && Nat.leb (String.length s) 128 && str_all is_unreserved s.

(** [generate_code_verifier]; [urandom n] is [os.urandom]. *)
Definition generate_code_verifier {W} (urandom : Z → PyM W (list Z)) (length_bytes : Z) : PyM W string :=
  if negb ((32 <=? length_bytes)%Z && (length_bytes <=? 96)%Z)
  then raise (PKCEError ("length_bytes must be 32–96, got " +:+ str_of_int length_bytes))
  else
    raw ← urandom length_bytes;
    mret (b64url_nopad raw).

Definition compute_code_challenge (code_verifier method : string) : outcome string :=
  if negb (is_verifier code_verifier)
  then Raise (PKCEError ("code_verifier must be 43–128 URL-safe characters ([A-Za-z0-9-._~]), got "
         +:+ str_of_int (Z.of_nat (String.length code_verifier)) +:+ " chars"))
  else if String.eqb method "S256" then Return (b64url_nopad (sha256 (encode code_verifier)))
  else if String.eqb method "plain" then Return code_verifier
  else Raise (PKCEError ("Unsupported PKCE method: " +:+ py_repr method +:+
                         ". Use 'S256' or 'plain'.")).

Definition verify_code_challenge (stored_challenge received_verifier method : string) : outcome unit :=
  expected ← compute_code_challenge received_verifier method;
  if bool_decide (encode expected = encode stored_challenge) then mret tt
  else Raise (PKCEVerificationError "code_verifier does not match the stored code_challenge").

Definition generate_pkce_pair {W} (urandom : Z → PyM W (list Z)) (method : string)
    : PyM W (string * string) :=
  verifier ← generate_code_verifier urandom 32;
  challenge ← from_outcome (compute_code_challenge verifier method);
  mret (verifier, challenge).

(** RFC 7636, appendix B. *)
Example pkce_rfc7636 :
  compute_code_challenge "dBjftJeZ4CVP-mB92K27uhbUJU1p1r_wW1gFWFOEjXk" "S256" =
  Return "E9Melhoa2OwvFrEMTJguCHaoeK1t8URWbuGJSstw-cM".
Proof. vm_compute. reflexivity. Qed.

(** ** API keys ([generator.py]) *)

Definition PREFIX_LEN : nat := 8.

Record ApiKey := mkApiKey {
  ak_key_id : string;
  ak_key_hash : string;
  ak_principal_id : string;
  ak_scopes : gset string;
  ak_expires_at : option Z;
  ak_revoked : bool;
}.

Definition ApiKey_is_expired (now : Z) (k : ApiKey) : bool :=
  match ak_expires_at k with None => false | Some t => (t <=? now)%Z end.
Definition ApiKey_is_valid (now : Z) (k : ApiKey) : bool :=
  negb (ak_revoked k) && negb (ApiKey_is_expired now k).

(** The store port; reads do not change what is stored. *)
Class ApiKeyStore (X : Type) := {
  aks_save : ApiKey → PyM X unit;
  aks_find_by_id : string → PyM X (option ApiKey);
  aks_revoke : string → PyM X unit;
}.

(** [InMemoryApiKeyStore]: key ids to records. *)
Definition InMemoryApiKeyStore_save (k : ApiKey) : PyM (gmap string ApiKey) unit :=
  updates (λ st, <[ak_key_id k := k]> st).
Definition InMemoryApiKeyStore_find_by_id (key_id : string)
    : PyM (gmap string ApiKey) (option ApiKey) := reads (λ st, st !! key_id).
Definition InMemoryApiKeyStore_revoke (key_id : string) : PyM (gmap string ApiKey) unit :=
  updates (λ st, match st !! key_id with
                 | Some k => <[key_id := mkApiKey (ak_key_id k) (ak_key_hash k) (ak_principal_id k)
                                           (ak_scopes k) (ak_expires_at k) true]> st
                 | None => st
                 end).
#[export] Instance InMemory_ApiKeyStore : ApiKeyStore (gmap string ApiKey) := {
  aks_save := InMemoryApiKeyStore_save;
  aks_find_by_id := InMemoryApiKeyStore_find_by_id;
  aks_revoke := InMemoryApiKeyStore_revoke;
}.

(** [raw_key[:_PREFIX_LEN]]. *)
Definition key_prefix (raw_key : string) : string := String.substring 0 PREFIX_LEN raw_key.

Definition day_us : Z := 86400000000.

(** [ApiKeyGenerator.generate]: [token] is [secrets.token_urlsafe], [hashpw] is
    [bcrypt.hashpw] with a fresh salt. *)
Definition ApiKeyGenerator_generate {W} (token : PyM W string) (hashpw : string → PyM W string)
    (now : W → Z) (principal_id : string) (scopes : gset string) (ttl_days : option Z)
    : PyM W (string * ApiKey) :=
  raw_key ← token;
  key_hash ← hashpw raw_key;
  t ← reads now;
  mret (raw_key, mkApiKey (key_prefix raw_key) key_hash principal_id scopes
                   ((λ d, t + d * day_us)%Z <$> ttl_days) false).

Section Verify.
Context {X : Type} `{ApiKeyStore X} (now : X → Z).
(** [bcrypt.checkpw] raises on a hash it cannot read. *)
Context (checkpw : string → string → outcome bool).

Definition ApiKeyVerifier_verify (raw_key : string) : PyM X (option ApiKey) :=
  if Nat.ltb (String.length raw_key) PREFIX_LEN then mret None
  else
    record ← aks_find_by_id (key_prefix raw_key);
    match record with
    | None => mret None
    | Some k =>
        t ← reads now;
        if negb (ApiKey_is_valid t k) then mret None
        else
          ok ← from_outcome (checkpw raw_key (ak_key_hash k));
          mret (if (ok : bool) then Some k else None)
    end.

(** *** Upgrading hashes ([hash_upgrade.py])

    The hasher of argon2: [hash], [verify] (which raises on a mismatch) and
    [check_needs_rehash]. *)
Context (argon2_hash : string → outcome string) (argon2_verify : string → string → outcome unit)
  (argon2_needs_rehash : string → bool).

Definition is_bcrypt (key_hash : string) : bool := startswith "$2" key_hash.
Definition is_argon2 (key_hash : string) : bool := startswith "$argon2" key_hash.

Definition with_hash (h : string) (k : ApiKey) : ApiKey :=
  mkApiKey (ak_key_id k) h (ak_principal_id k) (ak_scopes k) (ak_expires_at k) (ak_revoked k).

(** Re-hash and persist. *)
Definition rehash (raw_key : string) (k : ApiKey) : PyM X ApiKey :=
  new_hash ← from_outcome (argon2_hash raw_key);
  let upgraded := with_hash new_hash k in
  aks_save upgraded ;;
  mret upgraded.

Definition upgrade_bcrypt (raw_key : string) (k : ApiKey) : PyM X (option ApiKey) :=
  ok ← from_outcome (checkpw raw_key (ak_key_hash k));
  if negb ok then mret None
  else try_except (upgraded ← rehash raw_key k; mret (Some upgraded)) (λ _, mret (Some k)).

Definition upgrade_argon2 (raw_key : string) (k : ApiKey) : PyM X (option ApiKey) :=
  try_except
    (from_outcome (argon2_verify (ak_key_hash k) raw_key) ;;
     if argon2_needs_rehash (ak_key_hash k) then
       upgraded ← rehash raw_key k; mret (Some upgraded)
     else mret (Some k))
    (λ _, mret None).

Definition verify_unknown (raw_key : string) (k : ApiKey) : PyM X (option ApiKey) :=
  try_except
    (ok ← from_outcome (checkpw raw_key (ak_key_hash k));
     mret (if (ok : bool) then Some k else None))
    (λ _, mret None).

Definition ApiKeyHashUpgrade_verify_and_upgrade (raw_key : string) : PyM X (option ApiKey) :=
  if Nat.ltb (String.length raw_key) PREFIX_LEN then mret None
  else
    record ← aks_find_by_id (key_prefix raw_key);
    match record with
    | None => mret None
    | Some k =>
        t ← reads now;
        if negb (ApiKey_is_valid t k) then mret None
        else if is_bcrypt (ak_key_hash k) then upgrade_bcrypt raw_key k
        else if is_argon2 (ak_key_hash k) then upgrade_argon2 raw_key k
        else verify_unknown raw_key k
    end.

End Verify.

(** ** Lemmas *)

#[local] Arguments String.append !_ _ / : simpl nomatch.

Lemma list_ind3 {A} (P : list A → Prop) :
  P [] → (∀ a, P [a]) → (∀ a b, P [a; b]) → (∀ a b c l, P l → P (a :: b :: c :: l)) → ∀ l, P l.
Proof.
  intros H0 H1 H2 H3. fix IH 1. intros [|a [|b [|c l]]]; [done | apply H1 | apply H2 |].
  apply H3, IH.
Qed.

Definition b64_ok (c : ascii) : bool := is_unreserved c && negb (Ascii.eqb c "="%char).

Lemma b64url_char_ok v : (0 <= v)%Z → b64_ok (b64url_char v) = true.
Proof.
  intros Hv. destruct (decide (v < 64)%Z) as [Hlt|Hge].
  - assert (forallb (λ n, b64_ok (b64url_char (Z.of_nat n))) (seq 0 64) = true) as H
      by (vm_compute; reflexivity).
    rewrite forallb_forall in H. rewrite <- (Z2Nat.id v) by done. apply H, in_seq. lia.
  - unfold b64url_char. repeat (split_test; [lia|]). vm_compute. reflexivity.
Qed.

(** Six-bit groups are not negative. *)
Ltac group_nonneg :=
  repeat first [ rewrite Z.lor_nonneg | rewrite Z.shiftl_nonneg | rewrite Z.shiftr_nonneg
               | rewrite Z.land_nonneg ]; lia.

Lemma b64_chars_ok bs : Forall (λ b, 0 <= b)%Z bs → str_all b64_ok (b64_chars bs) = true.
Proof.
  induction bs as [|a|a b|a b c bs IH] using list_ind3; intros H; decompose_Forall_hyps; [done|..];
    cbn [b64_chars str_all]; rewrite !b64url_char_ok by group_nonneg; [done | done | by apply IH].
Qed.

Lemma b64_chars_length bs : String.length (b64_chars bs) = ((4 * length bs + 2) / 3)%nat.
Proof.
  induction bs as [|a|a b|a b c bs IH] using list_ind3; [done | done | done |].
  cbn [b64_chars String.length length]. rewrite IH.
  replace (4 * S (S (S (length bs))) + 2)%nat with (4 * length bs + 2 + 4 * 3)%nat by lia.
  rewrite Nat.div_add by done. lia.
Qed.

Lemma rstrip_app p s t :
  str_all (λ c, negb (p c)) s = true → str_all p t = true → rstrip_by p (s +:+ t) = s.
Proof.
  intros Hs Ht. induction s as [|c s IH]; simpl in *.
  - induction t as [|c t IH]; [done|]. simpl in *. apply andb_true_iff in Ht as [Hc Ht].
    by rewrite IH, Hc.
  - apply andb_true_iff in Hs as [Hc Hs]. rewrite IH by done. apply negb_true_iff in Hc.
    by destruct s; rewrite ?Hc.
Qed.

(** Stripping removes exactly the padding. *)
Lemma b64url_nopad_chars bs : Forall (λ b, 0 <= b)%Z bs → b64url_nopad bs = b64_chars bs.
Proof.
  intros H. apply rstrip_app.
  - eapply str_all_impl; [|by apply b64_chars_ok]. intros c Hc.
    by apply andb_true_iff in Hc as [_ Hc].
  - by destruct (length bs mod 3)%nat as [|[|]].
Qed.

(** What [generate_code_verifier] returns is a code verifier. *)
Lemma b64url_verifier bs :
  Forall (λ b, 0 <= b)%Z bs → (32 <= length bs <= 96)%nat →
  is_verifier (b64url_nopad bs) = true ∧
  String.length (b64url_nopad bs) = ((4 * length bs + 2) / 3)%nat.
Proof.
  intros Hb Hn. rewrite b64url_nopad_chars by done. rewrite b64_chars_length. split; [|done].
  unfold is_verifier. rewrite chomp_none.
  - rewrite b64_chars_length, !andb_true_iff, !Nat.leb_le. split_and!.
    + apply Nat.div_le_lower_bound; lia.
    + apply Nat.lt_succ_r, Nat.Div0.div_lt_upper_bound. lia.
    + eapply str_all_impl; [|by apply b64_chars_ok]. intros c Hc.
      by apply andb_true_iff in Hc as [Hc _].
  - eapply str_all_impl; [|by apply b64_chars_ok].
    intros c. destruct c as [[] [] [] [] [] [] [] []]; done.
Qed.

(** A challenge verifies exactly against the verifiers that derive it. *)
Lemma verify_challenge_iff stored received method :
  verify_code_challenge stored received method = Return tt ↔
  compute_code_challenge received method = Return stored.
Proof.
  unfold verify_code_challenge, mbind, outcome_bind.
  destruct (compute_code_challenge received method) as [expected|e]; [|done].
  destruct (bool_decide_reflect (encode expected = encode stored)) as [H|H].
  - apply encode_inj in H. by subst.
  - split; [done | by intros [= ->]].
Qed.

(** ** Properties: PKCE *)

(** A generated PKCE pair works: from 32 random bytes [generate_pkce_pair] returns,
    for either method, a verifier of 43 unreserved characters and a challenge that
    the server's [verify_code_challenge] accepts for this verifier and that is the
    only challenge it accepts for it. *)
Theorem pkce_pair_verifies {W} (urandom : Z → PyM W (list Z)) raw method (w w' : W) :
  urandom 32%Z w = (Return raw, w') → length raw = 32%nat → Forall (λ b, 0 <= b)%Z raw →
  method = "S256" ∨ method = "plain" →
  ∃ v c, generate_pkce_pair urandom method w = (Return (v, c), w') ∧
    is_verifier v = true ∧ String.length v = 43%nat ∧
    ∀ c', verify_code_challenge c' v method = Return tt ↔ c' = c.
Proof.
  intros Hrand Hlen Hbytes Hm.
  destruct (b64url_verifier raw Hbytes) as [Hv Hl]; [lia|]. rewrite Hlen in Hl.
  assert (∃ c, compute_code_challenge (b64url_nopad raw) method = Return c) as [c Hc].
  { unfold compute_code_challenge. rewrite Hv. destruct Hm as [-> | ->]; eexists; reflexivity. }
  exists (b64url_nopad raw), c. split_and!; [|done|exact Hl|].
  - unfold generate_pkce_pair, generate_code_verifier, mbind, PyM_bind. simpl.
    rewrite Hrand. unfold from_outcome. simpl. by rewrite Hc.
  - intros c'. rewrite verify_challenge_iff, Hc. split; [by intros [= ->] | by intros ->].
Qed.

Lemma pkce_pair_verifies_witness :
  ∃ v c, generate_pkce_pair (λ n, mret (repeat 7%Z (Z.to_nat n))) "S256" tt = (Return (v, c), tt) ∧
    verify_code_challenge c v "S256" = Return tt.
Proof.
  destruct (pkce_pair_verifies (λ n, mret (repeat 7%Z (Z.to_nat n))) (repeat 7%Z 32) "S256" tt tt)
    as (v & c & E & _ & _ & H);
    [reflexivity | reflexivity | | by left |].
  { apply Forall_forall. intros b Hb%list_elem_of_In%repeat_spec. by subst. }
  exists v, c. split; [exact E | by apply H].
Defined.

(** ** API keys *)

(** What a key grants: everything but its hash. *)
Definition grant (k : ApiKey) : ApiKey := with_hash "" k.

Section ApiKeyLemmas.
Context (t : Z) (checkpw : string → string → outcome bool).
Context (argon2_hash : string → outcome string) (argon2_verify : string → string → outcome unit)
  (needs_rehash : string → bool).
Implicit Types (st : gmap string ApiKey) (k : ApiKey).

(** Verification on the in-memory store, as one equation. *)
Lemma verify_eq raw st :
  ApiKeyVerifier_verify (λ _, t) checkpw raw st =
  (if Nat.ltb (String.length raw) PREFIX_LEN then Return None
   else match st !! key_prefix raw with
        | None => Return None
        | Some k =>
            if ApiKey_is_valid t k
            then ok ← checkpw raw (ak_key_hash k); mret (if (ok : bool) then Some k else None)
            else Return None
        end, st).
Proof.
  unfold ApiKeyVerifier_verify. destruct (Nat.ltb _ _); [done|].
  unfold mbind at 1, PyM_bind at 1. unfold aks_find_by_id. simpl.
  unfold InMemoryApiKeyStore_find_by_id, reads.
  destruct (st !! key_prefix raw) as [k|]; [|done].
  unfold mbind, PyM_bind, outcome_bind, from_outcome. destruct (ApiKey_is_valid t k); [|done].
  simpl. by destruct (checkpw _ _) as [ok|e].
Qed.

Lemma rehash_eq raw k st :
  rehash argon2_hash raw k st =
  match argon2_hash raw with
  | Return h => (Return (with_hash h k), <[ak_key_id k := with_hash h k]> st)
  | Raise e => (Raise e, st)
  end.
Proof. unfold rehash, mbind, PyM_bind, from_outcome. by destruct (argon2_hash raw). Qed.

Lemma upgrade_eq raw st :
  ApiKeyHashUpgrade_verify_and_upgrade (λ _, t) checkpw argon2_hash argon2_verify needs_rehash raw st =
  (if Nat.ltb (String.length raw) PREFIX_LEN then (Return None, st)
   else match st !! key_prefix raw with
        | None => (Return None, st)
        | Some k =>
            if ApiKey_is_valid t k
            then (if is_bcrypt (ak_key_hash k) then upgrade_bcrypt checkpw argon2_hash raw k
                  else if is_argon2 (ak_key_hash k)
                  then upgrade_argon2 argon2_hash argon2_verify needs_rehash raw k
                  else verify_unknown checkpw raw k) st
            else (Return None, st)
        end).
Proof.
  unfold ApiKeyHashUpgrade_verify_and_upgrade. destruct (Nat.ltb _ _); [done|].
  unfold mbind at 1, PyM_bind at 1. unfold aks_find_by_id. simpl.
  unfold InMemoryApiKeyStore_find_by_id, reads.
  destruct (st !! key_prefix raw) as [k|]; [|done].
  unfold mbind at 1, PyM_bind at 1. by destruct (ApiKey_is_valid t k).
Qed.

(** Storing a re-hashed record changes no grant. *)
Lemma save_grants k h st :
  st !! ak_key_id k = Some k →
  ∀ id, grant <$> (<[ak_key_id k := with_hash h k]> st !! id) = grant <$> (st !! id).
Proof.
  intros Hk id. destruct (decide (id = ak_key_id k)) as [->|Hne].
  - by rewrite lookup_insert_eq, Hk.
  - by rewrite lookup_insert_ne.
Qed.

(** What each branch of the upgrade leaves and returns. *)
Definition branch_ok raw k st (r : outcome (option ApiKey) * gmap string ApiKey) : Prop :=
  (∀ id, grant <$> (snd r !! id) = grant <$> (st !! id)) ∧
  (∀ k', fst r = Return (Some k') → grant k' = grant k ∧
     (checkpw raw (ak_key_hash k) = Return true ∨ argon2_verify (ak_key_hash k) raw = Return tt)).

Lemma upgrade_bcrypt_ok raw k st :
  st !! ak_key_id k = Some k → branch_ok raw k st (upgrade_bcrypt checkpw argon2_hash raw k st).
Proof.
  intros Hk. unfold upgrade_bcrypt, mbind at 1, PyM_bind at 1, from_outcome.
  destruct (checkpw raw (ak_key_hash k)) as [[]|e] eqn:Hc; [|by split|by split]. simpl.
  unfold try_except, try_base, mbind, PyM_bind. rewrite rehash_eq.
  destruct (argon2_hash raw) as [h|e]; simpl.
  - split; [by apply save_grants|]. intros k' [= <-]. split; [done | by left].
  - destruct (is_Exception e); [|by split]. split; [done|]. intros k' [= <-]. split; [done | by left].
Qed.

Lemma upgrade_argon2_ok raw k st :
  st !! ak_key_id k = Some k →
  branch_ok raw k st (upgrade_argon2 argon2_hash argon2_verify needs_rehash raw k st).
Proof.
  intros Hk. unfold upgrade_argon2, try_except, try_base, mbind, PyM_bind, from_outcome.
  destruct (argon2_verify (ak_key_hash k) raw) as [[]|e] eqn:Hv.
  - destruct (needs_rehash (ak_key_hash k)).
    + rewrite rehash_eq. destruct (argon2_hash raw) as [h|e]; simpl.
      * split; [by apply save_grants|]. intros k' [= <-]. split; [done | by right].
      * by destruct (is_Exception e).
    + split; [done|]. intros k' [= <-]. split; [done | by right].
  - by destruct (is_Exception e).
Qed.

Lemma verify_unknown_ok raw k st : branch_ok raw k st (verify_unknown checkpw raw k st).
Proof.
  unfold verify_unknown, try_except, try_base, mbind, PyM_bind, from_outcome.
  destruct (checkpw raw (ak_key_hash k)) as [[]|e] eqn:Hc.
  - split; [done|]. intros k' [= <-]. split; [done | by left].
  - by split.
  - by destruct (is_Exception e).
Qed.

(** The same of the whole call. *)
Definition call_ok raw st (r : outcome (option ApiKey) * gmap string ApiKey) : Prop :=
  (∀ id, grant <$> (snd r !! id) = grant <$> (st !! id)) ∧
  (∀ k', fst r = Return (Some k') →
     ∃ k, st !! key_prefix raw = Some k ∧ ApiKey_is_valid t k = true ∧ grant k' = grant k ∧
       (checkpw raw (ak_key_hash k) = Return true ∨ argon2_verify (ak_key_hash k) raw = Return tt)).

Lemma branch_call raw k st r :
  st !! key_prefix raw = Some k → ApiKey_is_valid t k = true → branch_ok raw k st r →
  call_ok raw st r.
Proof. intros Hk Hv [Hg Hacc]. split; [exact Hg|]. intros k' H. destruct (Hacc k' H). by exists k. Qed.

End ApiKeyLemmas.

(** ** Properties: API keys *)

(** The life of an API key: a key generated for [ttl] days (or for ever) and saved
    in a store verifies, and yields its record, at every instant before its expiry and
    at none after it; once revoked it never verifies.  [checkpw] is only assumed to
    accept the hash that [hashpw] made of the same key. *)
Theorem api_key_lifecycle {W} token hashpw now_w checkpw principal scopes ttl (w w1 w2 : W) raw h st t :
  token w = (Return raw, w1) → hashpw raw w1 = (Return h, w2) →
  (PREFIX_LEN <= String.length raw)%nat → checkpw raw h = Return true →
  ∃ k, ApiKeyGenerator_generate token hashpw now_w principal scopes ttl w = (Return (raw, k), w2) ∧
    ak_principal_id k = principal ∧ ak_scopes k = scopes ∧
    let st1 := snd (InMemoryApiKeyStore_save k st) in
    let st2 := snd (InMemoryApiKeyStore_revoke (ak_key_id k) st1) in
    fst (ApiKeyVerifier_verify (λ _, t) checkpw raw st1) =
      Return (if match ttl with None => true | Some d => (t <? now_w w2 + d * day_us)%Z end
              then Some k else None) ∧
    fst (ApiKeyVerifier_verify (λ _, t) checkpw raw st2) = Return None.
Proof.
  intros Htok Hhash Hlen Hcheck.
  eexists. unfold ApiKeyGenerator_generate, mbind, PyM_bind. rewrite Htok, Hhash. simpl.
  split; [reflexivity|]. split; [done|]. split; [done|].
  set (k := mkApiKey _ _ _ _ _ _). rewrite !verify_eq.
  rewrite (proj2 (Nat.ltb_ge _ _)) by done. split.
  - rewrite lookup_insert_eq. unfold ApiKey_is_valid, ApiKey_is_expired, k. simpl.
    destruct ttl as [d|]; simpl; [|by rewrite Hcheck].
    rewrite Z.leb_antisym, negb_involutive. destruct (_ <? _)%Z; [|done]. simpl. by rewrite Hcheck.
  - change (ak_key_id k) with (key_prefix raw). by rewrite lookup_insert_eq, lookup_insert_eq.
Qed.

(** Stand-ins for bcrypt and argon2: the hash shows the key. *)
Definition demo_token : PyM unit string := mret "abcdefgh-secret".
Definition demo_hashpw (raw : string) : PyM unit string := mret ("$2b$" +:+ raw).
Definition demo_checkpw (raw h : string) : outcome bool := Return (String.eqb ("$2b$" +:+ raw) h).
Definition demo_argon2_hash (raw : string) : outcome string := Return ("$argon2id$" +:+ raw).
Definition demo_argon2_verify (h raw : string) : outcome unit :=
  if String.eqb ("$argon2id$" +:+ raw) h then Return tt else Raise (ValueError "mismatch").
Definition demo_key : ApiKey := mkApiKey "abcdefgh" "$2b$abcdefgh-secret" "p" ∅ None false.

Lemma api_key_lifecycle_witness :
  ∃ k, ApiKeyGenerator_generate demo_token demo_hashpw (λ _, 0%Z) "p" ∅ (Some 1%Z) tt =
         (Return ("abcdefgh-secret", k), tt) ∧
    fst (ApiKeyVerifier_verify (λ _, 5%Z) demo_checkpw "abcdefgh-secret"
           (snd (InMemoryApiKeyStore_save k ∅))) = Return (Some k).
Proof.
  destruct (api_key_lifecycle demo_token demo_hashpw (λ _, 0%Z) demo_checkpw
    "p" ∅ (Some 1%Z) tt tt tt "abcdefgh-secret" ("$2b$" +:+ "abcdefgh-secret") ∅ 5%Z)
    as (k & E & _ & _ & Hv & _);
    [reflexivity | reflexivity | vm_compute; lia | reflexivity |].
  exists k. split; [exact E | exact Hv].
Defined.

(** Upgrading hashes is safe: whatever [verify_and_upgrade] returns or raises, no
    key is added or removed and none changes its principal, scopes, expiry or
    revocation; and it accepts a raw key only if a record is stored under the key's
    prefix, is neither revoked nor expired, and its stored hash verified against the
    raw key. *)
Theorem upgrade_safe t checkpw argon2_hash argon2_verify needs_rehash raw st :
  (∀ id k, st !! id = Some k → ak_key_id k = id) →
  let r := ApiKeyHashUpgrade_verify_and_upgrade (λ _, t) checkpw argon2_hash argon2_verify
             needs_rehash raw st in
  (∀ id, grant <$> (snd r !! id) = grant <$> (st !! id)) ∧
  (∀ k', fst r = Return (Some k') →
     ∃ k, st !! key_prefix raw = Some k ∧ ApiKey_is_valid t k = true ∧ grant k' = grant k ∧
       (checkpw raw (ak_key_hash k) = Return true ∨ argon2_verify (ak_key_hash k) raw = Return tt)).
Proof.
  intros Hwf r. change (call_ok t checkpw argon2_verify raw st r). unfold r. rewrite upgrade_eq.
  destruct (Nat.ltb _ _); [by split|].
  destruct (st !! key_prefix raw) as [k|] eqn:Hk; [|by split].
  destruct (ApiKey_is_valid t k) eqn:Hval; [|by split]. apply (branch_call _ _ _ _ k); [done | done |].
  assert (st !! ak_key_id k = Some k) by (by rewrite (Hwf _ _ Hk)).
  destruct (is_bcrypt _); [by apply upgrade_bcrypt_ok|].
  destruct (is_argon2 _); [by apply upgrade_argon2_ok | apply verify_unknown_ok].
Qed.

Lemma upgrade_safe_witness :
  let st : gmap string ApiKey := {["abcdefgh" := demo_key]} in
  let r := ApiKeyHashUpgrade_verify_and_upgrade (λ _, 0%Z) demo_checkpw demo_argon2_hash
    demo_argon2_verify (λ _, false) "abcdefgh-other" st in
  grant <$> (snd r !! "abcdefgh") = Some (grant demo_key).
Proof.
  refine (proj1 (upgrade_safe 0%Z demo_checkpw demo_argon2_hash demo_argon2_verify (λ _, false)
    "abcdefgh-other" {["abcdefgh" := demo_key]} _) "abcdefgh").
  intros id k [<- <-]%lookup_singleton_Some. reflexivity.
Defined.

(** The migration locks nobody out: when a valid bcrypt key verifies, the call
    returns it, its record now has an argon2 hash, and every later call with the same
    key returns the same record, without another write, as long as the key has not
    expired. *)
Theorem upgrade_keeps_access t t' checkpw argon2_hash argon2_verify needs_rehash raw st k h :
  (PREFIX_LEN <= String.length raw)%nat →
  st !! key_prefix raw = Some k → ak_key_id k = key_prefix raw →
  ApiKey_is_valid t k = true → ApiKey_is_valid t' k = true →
  is_bcrypt (ak_key_hash k) = true → checkpw raw (ak_key_hash k) = Return true →
  argon2_hash raw = Return h → is_argon2 h = true → argon2_verify h raw = Return tt →
  needs_rehash h = false →
  let call now := ApiKeyHashUpgrade_verify_and_upgrade (λ _, now) checkpw argon2_hash argon2_verify
                    needs_rehash raw in
  let st' := <[key_prefix raw := with_hash h k]> st in
  call t st = (Return (Some (with_hash h k)), st') ∧
  call t' st' = (Return (Some (with_hash h k)), st').
Proof.
  intros Hlen Hk Hid Hv Hv' Hb Hc Hh Ha Hver Hre call st'. unfold call.
  rewrite !upgrade_eq, (proj2 (Nat.ltb_ge _ _)) by done. split.
  - rewrite Hk, Hv, Hb. unfold upgrade_bcrypt, mbind at 1, PyM_bind at 1, from_outcome.
    rewrite Hc. simpl. unfold try_except, try_base, mbind, PyM_bind.
    by rewrite rehash_eq, Hh, Hid.
  - unfold st'. rewrite lookup_insert_eq.
    change (ApiKey_is_valid t' (with_hash h k)) with (ApiKey_is_valid t' k). rewrite Hv'.
    change (ak_key_hash (with_hash h k)) with h.
    assert (is_bcrypt h = false) as ->.
    { unfold is_argon2, is_bcrypt in *. apply startswith_spec in Ha as [r ->]. reflexivity. }
    rewrite Ha. unfold upgrade_argon2, try_except, try_base, mbind, PyM_bind, from_outcome.
    change (ak_key_hash (with_hash h k)) with h. by rewrite Hver, Hre.
Qed.

Lemma upgrade_keeps_access_witness :
  fst (ApiKeyHashUpgrade_verify_and_upgrade (λ _, 0%Z) demo_checkpw demo_argon2_hash
    demo_argon2_verify (λ _, false) "abcdefgh-secret" {["abcdefgh" := demo_key]}) =
  Return (Some (with_hash "$argon2id$abcdefgh-secret" demo_key)).
Proof.
  destruct (upgrade_keeps_access 0%Z 0%Z demo_checkpw demo_argon2_hash demo_argon2_verify
    (λ _, false) "abcdefgh-secret" {["abcdefgh" := demo_key]} demo_key "$argon2id$abcdefgh-secret")
    as [E _]; [vm_compute; lia | vm_compute; reflexivity .. |].
  exact (f_equal fst E).
Defined.
