(* ===== verification/Observability.v ===== *)
(** * Service levels, health and correlation ([observability/slo/],
      [observability/health/check.py], [registry.py], [observability/correlation/])

    Error budgets and burn-rate alerts, the health registry, and the request context
    taken from HTTP headers.  A division by zero that the code turns into
    [float("inf")] is [BInf]. *)
From S2P Require Import Prelude PyString OrderedDict.
#[local] Open Scope Q_scope.

(** ** Service-level objectives ([slo/tracker.py]) *)

Record SLODefinition := mkSLO {
  slo_name : string;
  slo_target : Q;
  slo_window_days : Z;
  slo_metric_name : string;
}.

Record ErrorBudget := mkBudget { eb_slo : SLODefinition; eb_total_requests : Z; eb_error_count : Z }.

Inductive burn := BFinite (q : Q) | BInf.

(** [rate >= threshold] for a finite threshold. *)
Definition burn_ge (r : burn) (threshold : Q) : bool :=
  match r with BFinite q => Qle_bool threshold q | BInf => true end.

Definition ErrorBudget_allowed_errors (b : ErrorBudget) : Q :=
  inject_Z (eb_total_requests b) * (1 - slo_target (eb_slo b)).

Definition ErrorBudget_remaining_budget (b : ErrorBudget) : Q :=
  let allowed := ErrorBudget_allowed_errors b in
  if Qle_bool allowed 0 then 0
  else py_max 0 (allowed - inject_Z (eb_error_count b)) / allowed.

Definition ErrorBudget_burn_rate (b : ErrorBudget) (window_hours : Q) : burn :=
  if (eb_total_requests b =? 0)%Z || Qle_bool window_hours 0 then BFinite 0
  else
    let error_rate := inject_Z (eb_error_count b) / inject_Z (eb_total_requests b) in
    let ideal_error_rate := 1 - slo_target (eb_slo b) in
    if Qeq_bool ideal_error_rate 0 then BInf
    else BFinite (error_rate / ideal_error_rate).

Definition ErrorBudget_is_exhausted (b : ErrorBudget) : bool :=
  Qle_bool (ErrorBudget_allowed_errors b) (inject_Z (eb_error_count b)).

Record SLOAlertEvent := mkAlert {
  al_slo_name : string;
  al_burn_rate : burn;
  al_threshold : Q;
  al_occurred_at : Z;
}.

Record InMemorySLOTracker := mkTracker {
  tr_totals : gmap string Z;
  tr_errors : gmap string Z;
  tr_events : list SLOAlertEvent;
}.

Definition InMemorySLOTracker_init : InMemorySLOTracker := mkTracker ∅ ∅ [].

Definition incr (k : string) (m : gmap string Z) : gmap string Z :=
  <[k := (default 0%Z (m !! k) + 1)%Z]> m.

Definition InMemorySLOTracker_record_request (metric_name : string) (success : bool)
    (t : InMemorySLOTracker) : InMemorySLOTracker :=
  mkTracker (incr metric_name (tr_totals t))
    (if success then tr_errors t else incr metric_name (tr_errors t)) (tr_events t).

Definition InMemorySLOTracker_get_budget (slo : SLODefinition) (t : InMemorySLOTracker) : ErrorBudget :=
  mkBudget slo (default 0%Z (tr_totals t !! slo_metric_name slo))
    (default 0%Z (tr_errors t !! slo_metric_name slo)).

(** [BurnRateAlert.check]; [now] is [datetime.now], [on_alert] the optional callback. *)
Definition BurnRateAlert_check {W} (now : W → Z) (threshold : Q)
    (on_alert : option (SLOAlertEvent → PyM W unit)) (slo : SLODefinition)
    : PyM (InMemorySLOTracker * W) bool :=
  budget ← on_fst (reads (InMemorySLOTracker_get_budget slo));
  let rate := ErrorBudget_burn_rate budget 1 in
  if burn_ge rate threshold then
    t ← on_snd (reads now);
    let evt := mkAlert (slo_name slo) rate threshold t in
    on_fst (updates (λ tr, mkTracker (tr_totals tr) (tr_errors tr) (tr_events tr ++ [evt]))) ;;
    (match on_alert with Some f => on_snd (f evt) | None => mret tt end) ;;
    mret true
  else mret false.

(** ** Health checks ([health/check.py], [health/registry.py]) *)

Record HealthStatus := mkHealth {
  hs_healthy : bool;
  hs_detail : option string;
  hs_latency_ms : Q;
}.

Record HealthCheck (W : Type) := mkCheck { hc_name : string; hc_check : PyM W HealthStatus }.
Arguments mkCheck {W} _ _.
Arguments hc_name {W} _.
Arguments hc_check {W} _.

(** [HealthReport.results], in insertion order. *)
Definition HealthReport : Type := list (string * HealthStatus).

Definition HealthReport_overall (report : HealthReport) : bool :=
  forallb (λ s, hs_healthy s) (map snd report).

Section Registry.
Context {W : Type} (monotonic : W → Q).

Definition HealthCheck_timed_check (c : HealthCheck W) : PyM W HealthStatus :=
  start ← reads monotonic;
  status ← hc_check c;
  stop ← reads monotonic;
  mret (mkHealth (hs_healthy status) (hs_detail status) ((stop - start) * 1000)).

Definition HealthRegistry_register (c : HealthCheck W) (checks : list (HealthCheck W))
    : list (HealthCheck W) := checks ++ [c].

(** One round of the [for check in self._checks] loop. *)
Definition probe (c : HealthCheck W) : PyM W HealthStatus :=
  try_except (HealthCheck_timed_check c)
    (λ exc, mret (mkHealth false (Some ("exception: " +:+ exn_msg exc)) 0)).

Fixpoint run_registered (checks : list (HealthCheck W)) (report : HealthReport) : PyM W HealthReport :=
  match checks with
  | [] => mret report
  | c :: checks' =>
      status ← probe c;
      run_registered checks' (od_set (hc_name c) status report)
  end.

Definition HealthRegistry_run_all (checks : list (HealthCheck W)) : PyM W HealthReport :=
  run_registered checks [].
Definition HealthRegistry_run_liveness (checks : list (HealthCheck W)) : PyM W HealthReport :=
  HealthRegistry_run_all checks.

End Registry.

(** ** The request context ([correlation/context.py]) *)

Record RequestContext := mkReqCtx {
  rc_correlation_id : string;
  rc_tenant_id : option string;
  rc_user_id : option string;
  rc_trace_id : option string;
  rc_span_id : option string;
}.

Definition RuntimeError (msg : string) : pyexn := exn_of ["RuntimeError"] msg.

Section Correlation.
Context {W : Type} (uuid4 : PyM W string).

(** The context variable is the first half of the state. *)
Definition RequestContext_new (tenant_id user_id : option string) : PyM W RequestContext :=
  i ← uuid4;
  mret (mkReqCtx i tenant_id user_id None None).

Definition CorrelationContext_set (ctx : RequestContext) : PyM (option RequestContext * W) unit :=
  on_fst (updates (λ _, Some ctx)).
Definition CorrelationContext_get : PyM (option RequestContext * W) (option RequestContext) :=
  on_fst (reads id).
Definition CorrelationContext_require : PyM (option RequestContext * W) RequestContext :=
  ctx ← CorrelationContext_get;
  match ctx with
  | None => raise (RuntimeError "No RequestContext in current context")
  | Some c => mret c
  end.
Definition CorrelationContext_get_or_new : PyM (option RequestContext * W) RequestContext :=
  ctx ← CorrelationContext_get;
  match ctx with
  | None => c ← on_snd (RequestContext_new None None); CorrelationContext_set c ;; mret c
  | Some c => mret c
  end.
Definition CorrelationContext_clear : PyM (option RequestContext * W) unit :=
  on_fst (updates (λ _, None)).

(** [{k.lower(): v for k, v in headers.items()}]. *)
Definition norm_headers (headers : list (string * string)) : list (string * string) :=
  fold_left (λ d e, od_set (lower (fst e)) (snd e) d) headers [].

(** The trace id of a [traceparent] header. *)
Definition trace_id_of (traceparent : option string) : option string :=
  match traceparent with
  | None | Some "" => None
  | Some tp =>
      match split_on "-" tp with
      | _ :: p :: _ => if String.eqb p "" then None else Some p
      | _ => None
      end
  end.

Definition CorrelationContext_set_from_headers (headers : list (string * string))
    : PyM (option RequestContext * W) RequestContext :=
  let norm := norm_headers headers in
  correlation_id ←
    match od_get "x-correlation-id" norm with
    | None | Some "" =>
        match od_get "x-request-id" norm with
        | None | Some "" => on_snd uuid4
        | Some i => mret i
        end
    | Some i => mret i
    end;
  let ctx := mkReqCtx correlation_id None None (trace_id_of (od_get "traceparent" norm)) None in
  CorrelationContext_set ctx ;;
  mret ctx.

End Correlation.

(** ** Lemmas *)

(** The tracker after a sequence of requests, and how many of them concern a metric. *)
Definition track (reqs : list (string * bool)) : InMemorySLOTracker :=
  fold_left (λ t r, InMemorySLOTracker_record_request (fst r) (snd r) t) reqs InMemorySLOTracker_init.
Definition requests_on (m : string) (reqs : list (string * bool)) : Z :=
  Z.of_nat (length (List.filter (λ r, String.eqb (fst r) m) reqs)).
Definition failures_on (m : string) (reqs : list (string * bool)) : Z :=
  Z.of_nat (length (List.filter (λ r, String.eqb (fst r) m && negb (snd r)) reqs)).

Lemma incr_lookup k m (g : gmap string Z) :
  default 0%Z (incr k g !! m) =
  (default 0%Z (g !! m) + if String.eqb k m then 1 else 0)%Z.
Proof.
  unfold incr. destruct (String.eqb_spec k m) as [->|Hne].
  - by rewrite lookup_insert_eq.
  - rewrite lookup_insert_ne by done. lia.
Qed.

Lemma track_counts m reqs :
  default 0%Z (tr_totals (track reqs) !! m) = requests_on m reqs ∧
  default 0%Z (tr_errors (track reqs) !! m) = failures_on m reqs.
Proof.
  induction reqs as [|[k ok] reqs IH] using rev_ind.
  { unfold track, requests_on, failures_on. simpl. by rewrite lookup_empty. }
  destruct IH as [IH1 IH2]. unfold track, requests_on, failures_on in *.
  rewrite fold_left_app, !List.filter_app, !length_app, !Nat2Z.inj_add, <- IH1, <- IH2. simpl.
  rewrite incr_lookup. split; [by destruct (String.eqb k m)|].
  destruct ok; simpl; [by rewrite andb_false_r, Z.add_0_r|].
  rewrite incr_lookup. by destruct (String.eqb k m).
Qed.

Lemma budget_of_track slo reqs :
  InMemorySLOTracker_get_budget slo (track reqs) =
  mkBudget slo (requests_on (slo_metric_name slo) reqs) (failures_on (slo_metric_name slo) reqs).
Proof.
  unfold InMemorySLOTracker_get_budget.
  by destruct (track_counts (slo_metric_name slo) reqs) as [-> ->].
Qed.

(** For an objective below 100 % with traffic, the burn rate reaches [r] exactly when
    the failures reach [r] times the allowance. *)
Lemma burn_rate_ge b r :
  slo_target (eb_slo b) < 1 → (0 < eb_total_requests b)%Z →
  burn_ge (ErrorBudget_burn_rate b 1) r = true ↔
  r * ErrorBudget_allowed_errors b <= inject_Z (eb_error_count b).
Proof.
  intros Ht Hn. unfold ErrorBudget_burn_rate, ErrorBudget_allowed_errors.
  set (i := 1 - slo_target (eb_slo b)). assert (0 < i) as Hi by (unfold i; lra).
  rewrite (proj2 (Z.eqb_neq _ _)) by lia. simpl.
  destruct (Qeq_bool i 0) eqn:E; [apply Qeq_bool_eq in E; lra|]. simpl. rewrite Qle_bool_iff.
  set (n := inject_Z (eb_total_requests b)). set (e := inject_Z (eb_error_count b)).
  assert (0 < n) as HN by (unfold n; change 0 with (inject_Z 0); by rewrite <- Zlt_Qlt).
  assert (e / n / i == e / (n * i)) as -> by (field; split; lra).
  assert (0 < n * i) as Hni by (by apply Qmult_lt_0_compat).
  split; intros H.
  - apply (Qmult_le_compat_r _ _ (n * i)) in H; [|lra].
    assert (e / (n * i) * (n * i) == e) as Heq by (field; lra). lra.
  - by apply Qle_shift_div_l.
Qed.

Lemma remaining_range b :
  (0 <= eb_error_count b)%Z →
  0 <= ErrorBudget_remaining_budget b <= 1 ∧
  (0 < ErrorBudget_allowed_errors b →
    ErrorBudget_remaining_budget b == 0 ↔ ErrorBudget_is_exhausted b = true).
Proof.
  intros He. unfold ErrorBudget_remaining_budget, ErrorBudget_is_exhausted.
  set (a := ErrorBudget_allowed_errors b). set (e := inject_Z (eb_error_count b)).
  assert (0 <= e) as He' by (unfold e; change 0 with (inject_Z 0); by rewrite <- Zle_Qle).
  destruct (Qle_bool a 0) eqn:E; reflect_tests; [split; [lra|]; intros ?; lra|].
  destruct (py_max_spec 0 (a - e)) as [[-> H]|[-> H]].
  - assert (0 / a == 0) as -> by (field; lra). split; [lra|]. intros _.
    split; [intros _|lra]. reflect_tests. lra.
  - assert ((a - e) / a == 1 - e / a) as -> by (field; lra).
    assert (0 <= e / a < 1) as [H0 H1].
    { split; [apply Qle_shift_div_l; lra | apply Qlt_shift_div_r; lra]. }
    split; [lra|]. intros _. split; [lra|]. intros Hx. reflect_tests. lra.
Qed.

(** *** Health *)

(** A check that records that it ran and ends as [script] says. *)
Definition scripted_check (script : string → outcome HealthStatus) (name : string)
    : HealthCheck (list string) :=
  mkCheck name (updates (λ log, log ++ [name]) ;; from_outcome (script name)).

(** The status the registry keeps for it. *)
Definition scripted_status (script : string → outcome HealthStatus) (name : string) : HealthStatus :=
  match script name with
  | Return s => mkHealth (hs_healthy s) (hs_detail s) 0
  | Raise e => mkHealth false (Some ("exception: " +:+ exn_msg e)) 0
  end.

Lemma probe_scripted script name log :
  match script name with Return _ => True | Raise e => is_Exception e = true end →
  ∃ s, probe (λ _, 0) (scripted_check script name) log = (Return s, log ++ [name]) ∧
    hs_healthy s = hs_healthy (scripted_status script name).
Proof.
  unfold probe, scripted_status, try_except, try_base, HealthCheck_timed_check, scripted_check.
  unfold mbind, PyM_bind, reads, updates, from_outcome. simpl.
  destruct (script name) as [s|e]; intros H; [by eexists|]. rewrite H. by eexists.
Qed.

Lemma run_registered_scripted script names report log :
  (∀ n, match script n with Return _ => True | Raise e => is_Exception e = true end) →
  NoDup (report.*1 ++ names) →
  ∃ new, run_registered (λ _, 0) (map (scripted_check script) names) report log =
      (Return (report ++ new), log ++ names) ∧ new.*1 = names ∧
    map hs_healthy new.*2 = map (λ n, hs_healthy (scripted_status script n)) names.
Proof.
  intros Hs. revert report log. induction names as [|n names IH]; intros report log Hd; simpl.
  { exists []. by rewrite !app_nil_r. }
  unfold mbind, PyM_bind. destruct (probe_scripted script n log (Hs n)) as (s & -> & Hh).
  assert (n ∉ report.*1) as Hn.
  { intros Hin. apply NoDup_app in Hd as (_ & Hd & _). apply (Hd n Hin). apply list_elem_of_here. }
  rewrite od_set_keys_new by done.
  destruct (IH (report ++ [(n, s)]) (log ++ [n])) as (new & -> & Hk & Hv).
  { rewrite fmap_app, <- app_assoc. exact Hd. }
  exists ((n, s) :: new). rewrite <- !app_assoc. split; [done|].
  split; [exact (f_equal (cons n) Hk)|]. simpl. f_equal; [exact Hh | exact Hv].
Qed.

(** *** Correlation *)

(** Header names are compared without regard to case. *)
Lemma norm_headers_case (hs hs' : list (string * string)) :
  Forall2 (λ h h', lower (fst h) = lower (fst h') ∧ snd h = snd h') hs hs' →
  norm_headers hs = norm_headers hs'.
Proof.
  unfold norm_headers. generalize (@nil (string * string)). intros d H. revert d.
  induction H as [|h h' hs hs' [Hk Hv] H IH]; intros d; simpl; [done|]. by rewrite Hk, Hv.
Qed.

(** ** Properties *)

(** The three views of an error budget agree.  After any sequence of requests the
    budget of an objective below 100 % whose metric has traffic counts exactly the
    requests and the failures on that metric, the remaining fraction lies between 0
    and 1, and "no budget remains", "exhausted" and "burn rate at least 1" are the
    same condition. *)
Theorem error_budget_views slo reqs :
  slo_target slo < 1 → (0 < requests_on (slo_metric_name slo) reqs)%Z →
  let b := InMemorySLOTracker_get_budget slo (track reqs) in
  eb_total_requests b = requests_on (slo_metric_name slo) reqs ∧
  eb_error_count b = failures_on (slo_metric_name slo) reqs ∧
  0 <= ErrorBudget_remaining_budget b <= 1 ∧
  (ErrorBudget_remaining_budget b == 0 ↔ ErrorBudget_is_exhausted b = true) ∧
  (ErrorBudget_is_exhausted b = true ↔ burn_ge (ErrorBudget_burn_rate b 1) 1 = true).
Proof.
  intros Ht Hn b. unfold b. rewrite budget_of_track. set (b' := mkBudget _ _ _).
  assert (0 < ErrorBudget_allowed_errors b') as Ha.
  { unfold ErrorBudget_allowed_errors, b'. simpl. apply Qmult_lt_0_compat; [|lra].
    change 0 with (inject_Z 0). by rewrite <- Zlt_Qlt. }
  destruct (remaining_range b') as [Hr Hz]; [unfold b', failures_on; simpl; lia|].
  split_and!; [done | done | lra | lra | by apply Hz |].
  rewrite burn_rate_ge by done. unfold ErrorBudget_is_exhausted. rewrite Qle_bool_iff. lra.
Qed.

Lemma error_budget_views_witness :
  let slo := mkSLO "api" (9 # 10) 30 "m" in
  let b := InMemorySLOTracker_get_budget slo (track [("m", true); ("m", false); ("n", false)]) in
  0 < 1 ∧ eb_total_requests b = 2%Z ∧ ErrorBudget_remaining_budget b == 0.
Proof.
  intros slo b. split; [lra|].
  destruct (error_budget_views slo [("m", true); ("m", false); ("n", false)])
    as (Htot & _ & _ & Hz & _); [vm_compute; reflexivity | vm_compute; reflexivity |].
  split; [exact Htot | apply Hz; vm_compute; reflexivity].
Defined.

(** A burn-rate alert fires exactly when it should: for an objective below 100 %
    whose metric has traffic, [check] returns [True] and appends one alert to the
    tracker if and only if the failures on the metric reach [threshold] times the
    failures the objective allows; otherwise it returns [False] and changes nothing. *)
Theorem burn_alert_exact {W} now threshold slo reqs (w : W) :
  slo_target slo < 1 → (0 < requests_on (slo_metric_name slo) reqs)%Z →
  let t := track reqs in
  let fires := threshold * (inject_Z (requests_on (slo_metric_name slo) reqs) * (1 - slo_target slo))
               <= inject_Z (failures_on (slo_metric_name slo) reqs) in
  (fires → ∃ evt, BurnRateAlert_check now threshold None slo (t, w) =
     (Return true, (mkTracker (tr_totals t) (tr_errors t) (tr_events t ++ [evt]), w)) ∧
     al_slo_name evt = slo_name slo ∧ al_occurred_at evt = now w) ∧
  (~ fires → BurnRateAlert_check now threshold None slo (t, w) = (Return false, (t, w))).
Proof.
  intros Ht Hn t fires.
  assert (burn_ge (ErrorBudget_burn_rate (InMemorySLOTracker_get_budget slo t) 1) threshold = true
    ↔ fires) as Hfires.
  { unfold t. rewrite budget_of_track. by apply burn_rate_ge. }
  unfold BurnRateAlert_check, mbind, PyM_bind, on_fst, on_snd, reads, updates. simpl.
  destruct (burn_ge _ _); split; intros H; [by eexists | by destruct H; apply Hfires | |done].
  by apply Hfires in H.
Qed.

Lemma burn_alert_exact_witness :
  let slo := mkSLO "api" (9 # 10) 30 "m" in
  let t := track [("m", true); ("m", true)] in
  BurnRateAlert_check (λ _ : unit, 0%Z) (14 # 1) None slo (t, tt) = (Return false, (t, tt)).
Proof.
  intros slo t.
  refine (proj2 (burn_alert_exact (λ _, 0%Z) (14 # 1) slo [("m", true); ("m", true)] tt _ _) _);
    [vm_compute; reflexivity | vm_compute; reflexivity | vm_compute; intros H; by apply H].
Defined.

(** The health report covers every check: with distinct names, [run_all] runs all
    checks in the order of registration even when some raise, reports one status per
    name in that order, and is healthy overall exactly when every check returned a
    healthy status (a check that raises counts as unhealthy). *)
Theorem health_report_complete script names log :
  (∀ n, match script n with Return _ => True | Raise e => is_Exception e = true end) →
  NoDup names →
  ∃ report, HealthRegistry_run_all (λ _, 0) (map (scripted_check script) names) log =
      (Return report, log ++ names) ∧
    report.*1 = names ∧
    (HealthReport_overall report = true ↔
      Forall (λ n, ∃ s, script n = Return s ∧ hs_healthy s = true) names).
Proof.
  intros Hs Hd. destruct (run_registered_scripted script names [] log Hs Hd) as (new & E & Hk & Hv).
  exists new. split; [exact E|]. split; [done|]. unfold HealthReport_overall.
  rewrite forallb_forall, Forall_forall.
  assert (∀ b, In b (map hs_healthy (map snd new)) ↔
    In b (map (λ n, hs_healthy (scripted_status script n)) names)) as Hin.
  { intros b. change (map snd new) with (new.*2). by rewrite Hv. }
  split; intros H.
  - intros n Hn%list_elem_of_In.
    assert (hs_healthy (scripted_status script n) = true) as Hh.
    { destruct (hs_healthy (scripted_status script n)) eqn:E2; [done|].
      assert (In false (map hs_healthy (map snd new))) as Hf.
      { apply Hin. rewrite <- E2. by apply (in_map (λ n, hs_healthy (scripted_status script n))). }
      apply in_map_iff in Hf as (s & Hs' & Hi). rewrite (H s Hi) in Hs'. done. }
    unfold scripted_status in Hh. destruct (script n) as [s|e]; [|done]. by exists s.
  - intros s Hi. assert (In (hs_healthy s) (map hs_healthy (map snd new))) as Hb by (by apply in_map).
    apply Hin in Hb. apply in_map_iff in Hb as (n & Hn & Hni). rewrite <- Hn.
    apply list_elem_of_In in Hni. destruct (H n Hni) as (s' & Hs' & Hh).
    unfold scripted_status. by rewrite Hs'.
Qed.

Lemma health_report_complete_witness :
  ∃ report, HealthRegistry_run_all (λ _, 0)
      (map (scripted_check (λ n, if String.eqb n "db" then Raise (ValueError "down")
                                 else Return (mkHealth true None 0))) ["db"; "mq"]) [] =
      (Return report, ["db"; "mq"]) ∧ report.*1 = ["db"; "mq"].
Proof.
  destruct (health_report_complete (λ n, if String.eqb n "db" then Raise (ValueError "down")
      else Return (mkHealth true None 0)) ["db"; "mq"] []) as (report & E & Hk & _).
  - intros n. by destruct (String.eqb n "db").
  - apply (bool_decide_unpack _). vm_compute. exact I.
  - exists report. split; [exact E | exact Hk].
Defined.

(** An objective of 100 % alerts on its first request even when it succeeds, and a
    budget without requests counts as exhausted. *)
Example perfect_slo_alerts :
  fst (BurnRateAlert_check (λ _ : unit, 0%Z) (144 # 10) None (mkSLO "s" 1 30 "m")
         (track [("m", true)], tt)) = Return true ∧
  ErrorBudget_is_exhausted
    (InMemorySLOTracker_get_budget (mkSLO "s" (9 # 10) 30 "m") (track [])) = true.
Proof. split; vm_compute; reflexivity. Qed.
