(* ===== verification/Privacy.v ===== *)
(** * Data subject requests and consent ([application/gdpr/erasure.py])

    Erasure and export over registered handlers, and the consent store.  Consent
    records are mutable objects shared between the store and its callers, so the store
    maps keys to locations of a heap of records. *)
From S2P Require Import Prelude PyString OrderedDict.

#[local] Arguments String.append !_ _ / : simpl nomatch.

(** ** Erasure and export *)

Record ErasureResult := mkErasure {
  er_scope : string;
  er_success : bool;
  er_detail : option string;
}.

Record DataErasedEvent := mkErased {
  de_subject_id : string;
  de_results : list ErasureResult;
  de_erased_at : Z;
}.

Record Erasable (W : Type) := mkErasable { ez_scope : string; ez_erase : string → PyM W ErasureResult }.
Arguments mkErasable {W} _ _.
Arguments ez_scope {W} _.
Arguments ez_erase {W} _.

Record Exportable (W D : Type) := mkExportable { ex_scope : string; ex_export : string → PyM W D }.
Arguments mkExportable {W D} _ _.
Arguments ex_scope {W D} _.
Arguments ex_export {W D} _.

Section Erasure.
Context {W : Type} (now : W → Z).

Definition ErasureService_register (h : Erasable W) (handlers : list (Erasable W)) : list (Erasable W) :=
  handlers ++ [h].

(** The [for handler in self._handlers] loop. *)
Fixpoint erase_loop (subject_id : string) (handlers : list (Erasable W)) (results : list ErasureResult)
    : PyM W (list ErasureResult) :=
  match handlers with
  | [] => mret results
  | h :: handlers' =>
      result ← try_except (ez_erase h subject_id)
                 (λ exc, mret (mkErasure (ez_scope h) false (Some (exn_msg exc))));
      erase_loop subject_id handlers' (results ++ [result])
  end.

(** [ErasureService.erase]; the first half of the state is [events]. *)
Definition ErasureService_erase (handlers : list (Erasable W)) (subject_id : string)
    : PyM (list DataErasedEvent * W) DataErasedEvent :=
  results ← on_snd (erase_loop subject_id handlers []);
  t ← on_snd (reads now);
  let event := mkErased subject_id results t in
  on_fst (updates (λ events, events ++ [event])) ;;
  mret event.

(** What a scope exports: its data, or [{"error": ...}]. *)
Inductive exported (D : Type) := ExData (d : D) | ExError (msg : string).
Arguments ExData {D} _.
Arguments ExError {D} _.

(** [DataPortabilityExporter.export]. *)
Fixpoint export_loop {D} (subject_id : string) (handlers : list (Exportable W D))
    (merged : list (string * exported D)) : PyM W (list (string * exported D)) :=
  match handlers with
  | [] => mret merged
  | h :: handlers' =>
      data ← try_except (d ← ex_export h subject_id; mret (ExData d))
               (λ exc, mret (ExError (exn_msg exc)));
      export_loop subject_id handlers' (od_set (ex_scope h) data merged)
  end.
Definition DataPortabilityExporter_export {D} (handlers : list (Exportable W D)) (subject_id : string)
    : PyM W (list (string * exported D)) := export_loop subject_id handlers [].

End Erasure.

(** ** Consent *)

Record ConsentRecord := mkConsent {
  cr_subject_id : string;
  cr_purpose : string;
  cr_granted : bool;
  cr_id : string;
  cr_granted_at : Z;
  cr_withdrawn_at : option Z;
}.

(** The heap of records, and the store's dictionary from keys to locations. *)
Record ConsentState := mkConsentState {
  ch_heap : gmap nat ConsentRecord;
  ch_records : list (string * nat);
}.

(** [record.withdraw()] on the object at [l]. *)
Definition ConsentRecord_withdraw (now : Z) (l : nat) (s : ConsentState) : ConsentState :=
  mkConsentState
    (alter (λ r, mkConsent (cr_subject_id r) (cr_purpose r) false (cr_id r) (cr_granted_at r)
                   (Some now)) l (ch_heap s))
    (ch_records s).

Definition consent_key (subject_id purpose : string) : string := subject_id +:+ ":" +:+ purpose.

Definition InMemoryConsentStore_save (l : nat) (s : ConsentState) : ConsentState :=
  match ch_heap s !! l with
  | Some r => mkConsentState (ch_heap s)
                (od_set (consent_key (cr_subject_id r) (cr_purpose r)) l (ch_records s))
  | None => s
  end.

(** [find] returns the object itself. *)
Definition InMemoryConsentStore_find (subject_id purpose : string) (s : ConsentState) : option nat :=
  od_get (consent_key subject_id purpose) (ch_records s).

Definition InMemoryConsentStore_list_for_subject (subject_id : string) (s : ConsentState) : list nat :=
  List.filter (λ l, match ch_heap s !! l with
                    | Some r => String.eqb (cr_subject_id r) subject_id
                    | None => false
                    end) (map snd (ch_records s)).

(** The record found, read through its reference. *)
Definition consent_of (subject_id purpose : string) (s : ConsentState) : option ConsentRecord :=
  InMemoryConsentStore_find subject_id purpose s ≫= λ l, ch_heap s !! l.

(** ** Lemmas *)

(** A handler that records its run and ends as [script] says. *)
Definition scripted_handler (script : string → outcome ErasureResult) (scope : string)
    : Erasable (list string) :=
  mkErasable scope (λ _, updates (λ log, log ++ [scope]) ;; from_outcome (script scope)).

(** The result kept for it. *)
Definition scripted_result (script : string → outcome ErasureResult) (scope : string) : ErasureResult :=
  match script scope with
  | Return r => r
  | Raise e => mkErasure scope false (Some (exn_msg e))
  end.

Lemma erase_loop_scripted script subject scopes results log :
  (∀ s, match script s with Return _ => True | Raise e => is_Exception e = true end) →
  erase_loop subject (map (scripted_handler script) scopes) results log =
  (Return (results ++ map (scripted_result script) scopes), log ++ scopes).
Proof.
  intros Hs. revert results log. induction scopes as [|s scopes IH]; intros results log; simpl.
  { by rewrite !app_nil_r. }
  unfold mbind, PyM_bind, try_except, try_base, updates, from_outcome, scripted_result. simpl.
  specialize (Hs s). destruct (script s) as [r|e]; [|rewrite Hs]; simpl;
    by rewrite IH, <- !app_assoc.
Qed.

(** Keys of colon-free subjects are unambiguous. *)
Lemma consent_key_inj s p s' p' :
  str_all (λ c, negb (Ascii.eqb c ":"%char)) s = true →
  str_all (λ c, negb (Ascii.eqb c ":"%char)) s' = true →
  consent_key s p = consent_key s' p' → s = s' ∧ p = p'.
Proof.
  unfold consent_key. revert s'. induction s as [|c s IH]; intros [|c' s'] Hs Hs' H; simpl in *.
  - by injection H.
  - injection H as <- _. done.
  - injection H as -> _. done.
  - injection H as -> H. apply andb_true_iff in Hs as [_ Hs], Hs' as [_ Hs'].
    by destruct (IH s' Hs Hs' H) as [-> ->].
Qed.

(** ** Properties *)

(** Erasure reaches every scope: [erase] runs all registered handlers once each, in
    the order of registration, even when some raise; the event has one result per
    handler in that order, the handler's own or a failure with its error message, and
    is appended to the service's events. *)
Theorem erasure_reaches_all script subject scopes events log :
  (∀ s, match script s with Return _ => True | Raise e => is_Exception e = true end) →
  ∃ event,
    ErasureService_erase (λ _, 0%Z)
      (fold_left (λ hs s, ErasureService_register (scripted_handler script s) hs) scopes [])
      subject (events, log) = (Return event, (events ++ [event], log ++ scopes)) ∧
    de_subject_id event = subject ∧
    Forall2 (λ s r, match script s with
                    | Return r' => r = r'
                    | Raise e => er_scope r = s ∧ er_success r = false ∧
                                 er_detail r = Some (exn_msg e)
                    end) scopes (de_results event).
Proof.
  intros Hs.
  assert (∀ hs, fold_left (λ hs s, ErasureService_register (scripted_handler script s) hs) scopes hs =
    hs ++ map (scripted_handler script) scopes) as Hreg.
  { induction scopes as [|s scopes IH]; intros hs; simpl; [by rewrite app_nil_r|].
    rewrite IH. unfold ErasureService_register. by rewrite <- app_assoc. }
  rewrite Hreg. simpl. unfold ErasureService_erase, mbind, PyM_bind, on_snd. simpl.
  rewrite erase_loop_scripted by done. eexists. split; [reflexivity|]. split; [done|]. simpl.
  rewrite Forall2_fmap_r. apply Forall_Forall2_diag, Forall_true. intros s.
  cbn. unfold scripted_result. destruct (script s); [done | by split_and!].
Qed.

Lemma erasure_reaches_all_witness :
  ∃ event, ErasureService_erase (λ _, 0%Z)
      (fold_left (λ hs s, ErasureService_register
         (scripted_handler (λ s, if String.eqb s "crm" then Raise (ValueError "down")
                                 else Return (mkErasure s true None)) s) hs) ["crm"; "mail"] [])
      "u1" ([], []) = (Return event, ([event], ["crm"; "mail"])) ∧ de_subject_id event = "u1".
Proof.
  destruct (erasure_reaches_all (λ s, if String.eqb s "crm" then Raise (ValueError "down")
    else Return (mkErasure s true None)) "u1" ["crm"; "mail"] [] []) as (event & E & Hsub & _).
  - intros s. by destruct (String.eqb s "crm").
  - exists event. split; [exact E | exact Hsub].
Defined.

(** Consent is recorded per subject and purpose and withdrawal is seen: for subject
    ids without a colon, saving a record makes it the consent of its own subject and
    purpose and leaves every other one unchanged, and after [withdraw] on the object
    that [find] returns the store finds the consent not granted, without another
    [save]. *)
Theorem consent_withdrawal l r now s p s0 :
  ch_heap s0 !! l = Some r → cr_subject_id r = s → cr_purpose r = p →
  str_all (λ c, negb (Ascii.eqb c ":"%char)) s = true →
  let s1 := InMemoryConsentStore_save l s0 in
  consent_of s p s1 = Some r ∧
  (∀ s' p', str_all (λ c, negb (Ascii.eqb c ":"%char)) s' = true → (s', p') ≠ (s, p) →
     consent_of s' p' s1 = consent_of s' p' s0) ∧
  ∃ l', InMemoryConsentStore_find s p s1 = Some l' ∧
    cr_granted <$> consent_of s p (ConsentRecord_withdraw now l' s1) = Some false.
Proof.
  intros Hr Hs Hp Hcolon s1. unfold s1, InMemoryConsentStore_save, consent_of,
    InMemoryConsentStore_find. rewrite Hr, Hs, Hp. simpl. rewrite od_get_set_eq. simpl. split_and!.
  - exact Hr.
  - intros s' p' Hs' Hne. rewrite od_get_set_ne; [done|]. intros Hk.
    apply consent_key_inj in Hk as [-> ->]; done.
  - exists l. split; [done|]. by rewrite lookup_alter_eq, Hr.
Qed.

Lemma consent_withdrawal_witness :
  let r := mkConsent "u1" "ads" true "c1" 0 None in
  let s1 := InMemoryConsentStore_save 0 (mkConsentState {[0%nat := r]} []) in
  consent_of "u1" "ads" s1 = Some r.
Proof.
  intros r s1.
  refine (proj1 (consent_withdrawal 0 r 5 "u1" "ads" (mkConsentState {[0%nat := r]} []) _ _ _ _));
    reflexivity.
Defined.

(** With a colon in a subject id two consents can share a key: the consent of subject
    ["a"] for ["b:c"] is found for subject ["a:b"] and purpose ["c"]. *)
Example consent_key_clash :
  let r := mkConsent "a" "b:c" true "c1" 0 None in
  consent_of "a:b" "c" (InMemoryConsentStore_save 0 (mkConsentState {[0%nat := r]} [])) = Some r.
Proof. vm_compute. reflexivity. Qed.
