(* ===== verification/Maintenance.v ===== *)
(** * Jobs, secret rotation and dynamic configuration ([application/scheduler/],
      [security/rotation/rotator.py], [config/dynamic/source.py])

    The in-memory scheduler with its execution log, the rotator that isolates the
    failures of single secrets, and the configuration registry that caches what its
    sources load. *)
From S2P Require Import Prelude PyString OrderedDict.

(** ** Jobs ([scheduler/job.py], [scheduler.py], [in_memory.py]) *)

Record Job (W : Type) := mkJob {
  job_id : string;
  job_name : string;
  job_handler : PyM W unit;
  job_cron : option string;
  job_interval_seconds : option Z;
  job_enabled : bool;
}.
Arguments mkJob {W} _ _ _ _ _ _.
Arguments job_id {W} _.
Arguments job_name {W} _.
Arguments job_handler {W} _.
Arguments job_cron {W} _.
Arguments job_interval_seconds {W} _.
Arguments job_enabled {W} _.

(** [Job(...)] with its [__post_init__]. *)
Definition Job_init {W} (id name : string) (handler : PyM W unit) (cron : option string)
    (interval_seconds : option Z) (enabled : bool) : outcome (Job W) :=
  match cron, interval_seconds with
  | None, None => Raise (ValueError "Job must have either 'cron' or 'interval_seconds'")
  | Some _, Some _ => Raise (ValueError "Job cannot have both 'cron' and 'interval_seconds'")
  | _, _ => Return (mkJob id name handler cron interval_seconds enabled)
  end.

Record JobExecutedEvent := mkExecuted {
  je_job_id : string;
  je_job_name : string;
  je_started_at : Z;
  je_duration_ms : Q;
  je_error : option string;
}.
Definition JobExecutedEvent_success (e : JobExecutedEvent) : bool := bool_decide (je_error e = None).

Section Scheduler.
Context {W : Type} (utcnow : W → Z) (monotonic : W → Q).

(** [JobExecutionContext.run]. *)
Definition JobExecutionContext_run (job : Job W) : PyM W JobExecutedEvent :=
  started_at ← reads utcnow;
  t0 ← reads monotonic;
  error ← try_except (job_handler job ;; mret None) (λ exc, mret (Some (exn_msg exc)));
  t1 ← reads monotonic;
  mret (mkExecuted (job_id job) (job_name job) started_at ((t1 - t0) * 1000) error).

Record InMemoryScheduler := mkScheduler {
  sc_jobs : list (string * Job W);
  sc_running : bool;
  sc_execution_log : list JobExecutedEvent;
}.

Definition InMemoryScheduler_init : InMemoryScheduler := mkScheduler [] false [].
Definition InMemoryScheduler_add_job (j : Job W) (s : InMemoryScheduler) : InMemoryScheduler :=
  mkScheduler (od_set (job_id j) j (sc_jobs s)) (sc_running s) (sc_execution_log s).
Definition InMemoryScheduler_remove_job (id : string) (s : InMemoryScheduler) : InMemoryScheduler :=
  mkScheduler (od_del id (sc_jobs s)) (sc_running s) (sc_execution_log s).
Definition InMemoryScheduler_start (s : InMemoryScheduler) : InMemoryScheduler :=
  mkScheduler (sc_jobs s) true (sc_execution_log s).
Definition InMemoryScheduler_stop (s : InMemoryScheduler) : InMemoryScheduler :=
  mkScheduler (sc_jobs s) false (sc_execution_log s).
Definition InMemoryScheduler_list_jobs (s : InMemoryScheduler) : list (Job W) := map snd (sc_jobs s).

Definition InMemoryScheduler_trigger (id : string) : PyM (InMemoryScheduler * W) JobExecutedEvent :=
  jobs ← on_fst (reads sc_jobs);
  match od_get id jobs with
  | None => raise (KeyError (py_repr id))
  | Some job =>
      event ← on_snd (JobExecutionContext_run job);
      on_fst (updates (λ s, mkScheduler (sc_jobs s) (sc_running s) (sc_execution_log s ++ [event]))) ;;
      mret event
  end.

End Scheduler.
Arguments InMemoryScheduler : clear implicits.

(** ** Secret rotation ([rotation/rotator.py]) *)

Record RotatableSecret (W : Type) := mkRotatable { rs_name : string; rs_rotate : PyM W string }.
Arguments mkRotatable {W} _ _.
Arguments rs_name {W} _.
Arguments rs_rotate {W} _.

Record SecretRotatedEvent := mkRotated { rot_secret_name : string; rot_rotated_at : Z }.

Section Rotator.
Context {W : Type} (utcnow : W → Z) (on_rotated : option (SecretRotatedEvent → PyM W unit)).

Definition SecretRotator_register (s : RotatableSecret W) (secrets : list (RotatableSecret W))
    : list (RotatableSecret W) := secrets ++ [s].

(** The local list of events and the dictionary [rotation_errors]. *)
Definition RotationState : Type := list SecretRotatedEvent * list (string * pyexn).

(** The body of the [try]: rotate, append the event, call back. *)
Definition rotate_one (s : RotatableSecret W) : PyM (RotationState * W) unit :=
  on_snd (rs_rotate s) ;;
  t ← on_snd (reads utcnow);
  let event := mkRotated (rs_name s) t in
  on_fst (updates (λ st, (fst st ++ [event], snd st))) ;;
  match on_rotated with
  | Some f => on_snd (f event)
  | None => mret tt
  end.

Fixpoint rotate_loop (secrets : list (RotatableSecret W)) : PyM (RotationState * W) unit :=
  match secrets with
  | [] => mret tt
  | s :: secrets' =>
      try_except (rotate_one s)
        (λ exc, on_fst (updates (λ st, (fst st, od_set (rs_name s) exc (snd st))))) ;;
      rotate_loop secrets'
  end.

(** [rotate_all]: the attribute [rotation_errors] starts empty in every run. *)
Definition SecretRotator_rotate_all (secrets : list (RotatableSecret W))
    : PyM (RotationState * W) (list SecretRotatedEvent) :=
  on_fst (updates (λ _, ([], []))) ;;
  rotate_loop secrets ;;
  on_fst (reads fst).

End Rotator.

(** ** Dynamic configuration ([dynamic/source.py]) *)

(** [EnvConfigSource.load] over the environment's variables. *)
Definition EnvConfigSource_load (prefix : string) (environ : list (string * string))
    : list (string * string) :=
  let p := upper prefix in
  if String.eqb p "" then environ
  else fold_left (λ d e, od_set (lower (String.substring (String.length p)
                    (String.length (fst e) - String.length p) (fst e))) (snd e) d)
         (List.filter (λ e, startswith p (fst e)) environ) [].

Section Registry.
Context {W V : Type} (monotonic : W → Q).

Record DynamicConfigRegistry := mkRegistry {
  cfg_sources : gmap string (PyM W (list (string * V)));
  cfg_cache : gmap string (V * Q);
  cfg_ttl : Q;
  cfg_callbacks : gmap string (list (V → PyM W unit));
}.

Definition DynamicConfigRegistry_init (ttl_seconds : Q) : DynamicConfigRegistry :=
  mkRegistry ∅ ∅ ttl_seconds ∅.
Definition DynamicConfigRegistry_register (key : string) (source : PyM W (list (string * V)))
    (r : DynamicConfigRegistry) : DynamicConfigRegistry :=
  mkRegistry (<[key := source]> (cfg_sources r)) (cfg_cache r) (cfg_ttl r) (cfg_callbacks r).
Definition DynamicConfigRegistry_on_change (key : string) (callback : V → PyM W unit)
    (r : DynamicConfigRegistry) : DynamicConfigRegistry :=
  mkRegistry (cfg_sources r) (cfg_cache r) (cfg_ttl r)
    (<[key := default [] (cfg_callbacks r !! key) ++ [callback]]> (cfg_callbacks r)).
Definition set_cache (c : gmap string (V * Q)) (r : DynamicConfigRegistry) : DynamicConfigRegistry :=
  mkRegistry (cfg_sources r) c (cfg_ttl r) (cfg_callbacks r).
Definition DynamicConfigRegistry_invalidate (key : string) (r : DynamicConfigRegistry)
    : DynamicConfigRegistry := set_cache (delete key (cfg_cache r)) r.
Definition DynamicConfigRegistry_invalidate_all (r : DynamicConfigRegistry)
    : DynamicConfigRegistry := set_cache ∅ r.

(** A cached value that has not expired. *)
Definition cached_value (key : string) (r : DynamicConfigRegistry) (now : Q) : option V :=
  match cfg_cache r !! key with
  | Some (value, expires_at) => if Qltb now expires_at then Some value else None
  | None => None
  end.

Definition DynamicConfigRegistry_get (key : string) (dflt : V) : PyM (DynamicConfigRegistry * W) V :=
  r ← on_fst (reads id);
  now ← on_snd (reads monotonic);
  match cached_value key r now with
  | Some value => mret value
  | None =>
      match cfg_sources r !! key with
      | None => mret dflt
      | Some load =>
          data ← on_snd load;
          let value := default dflt (od_get key data) in
          now' ← on_snd (reads monotonic);
          on_fst (updates (λ r, set_cache (<[key := (value, now' + cfg_ttl r)%Q]> (cfg_cache r)) r)) ;;
          mret value
      end
  end.

End Registry.
Arguments DynamicConfigRegistry : clear implicits.

(** ** Lemmas *)

(** A secret whose rotation is recorded and ends as [rot] says, and a callback that
    ends as [cb] says. *)
Definition scripted_secret (rot : string → outcome string) (name : string)
    : RotatableSecret (list string) :=
  mkRotatable name (updates (λ log, log ++ [name]) ;; from_outcome (rot name)).
Definition scripted_callback (cb : string → outcome unit) (e : SecretRotatedEvent)
    : PyM (list string) unit := from_outcome (cb (rot_secret_name e)).

Definition only_exceptions {A} (script : string → outcome A) : Prop :=
  ∀ n, match script n with Return _ => True | Raise e => is_Exception e = true end.

(** Whether a secret was rotated, and the error that is kept for it. *)
Definition rotated (rot : string → outcome string) (name : string) : bool :=
  match rot name with Return _ => true | Raise _ => false end.
Definition rotation_error (rot : string → outcome string) (cb : string → outcome unit) (name : string)
    : option pyexn :=
  match rot name with
  | Raise e => Some e
  | Return _ => match cb name with Raise e => Some e | Return _ => None end
  end.
Definition error_entries (rot : string → outcome string) (cb : string → outcome unit)
    (names : list string) : list (string * pyexn) :=
  omap (λ n, e ← rotation_error rot cb n; Some (n, e)) names.

Lemma error_entries_keys rot cb names n : n ∈ (error_entries rot cb names).*1 → n ∈ names.
Proof.
  intros H. apply list_elem_of_fmap in H as ([n' e] & -> & H). simpl.
  apply list_elem_of_omap in H as (x & Hx & He).
  by destruct (rotation_error rot cb x); simplify_eq/=.
Qed.

Lemma rotate_loop_scripted rot cb names evs errs log :
  only_exceptions rot → only_exceptions cb → NoDup (errs.*1 ++ names) →
  rotate_loop (λ _, 0%Z) (Some (scripted_callback cb)) (map (scripted_secret rot) names)
    ((evs, errs), log) =
  (Return tt, ((evs ++ map (λ n, mkRotated n 0) (List.filter (rotated rot) names),
                errs ++ error_entries rot cb names), log ++ names)).
Proof.
  intros Hrot Hcb. revert evs errs log.
  induction names as [|n names IH]; intros evs errs log Hd; cbn [map rotate_loop].
  { unfold error_entries. simpl. by rewrite !app_nil_r. }
  assert (n ∉ errs.*1) as Hn.
  { intros Hin. apply NoDup_app in Hd as (_ & Hd & _). apply (Hd n Hin), list_elem_of_here. }
  assert (NoDup (errs.*1 ++ names)) as Hd1.
  { rewrite Permutation_app_comm in Hd. simpl in Hd. apply NoDup_cons in Hd as [_ Hd].
    by rewrite Permutation_app_comm. }
  assert (∀ e, NoDup ((errs ++ [(n, e)]).*1 ++ names)) as Hd2.
  { intros e. rewrite fmap_app, <- app_assoc. exact Hd. }
  unfold mbind at 1, PyM_bind at 1. unfold try_except, try_base, rotate_one, scripted_secret,
    scripted_callback, mbind, PyM_bind, on_snd, on_fst, updates, reads, from_outcome. simpl.
  pose proof (Hrot n) as Hr. pose proof (Hcb n) as Hc. unfold rotated at 1, error_entries. simpl.
  unfold rotation_error at 1.
  destruct (rot n) as [v|e]; simpl.
  - destruct (cb n) as [[]|e]; simpl.
    + rewrite IH by done. unfold error_entries. by rewrite <- !app_assoc.
    + rewrite Hc. simpl. rewrite od_set_keys_new by done. rewrite IH by apply Hd2.
      unfold error_entries. by rewrite <- !app_assoc.
  - rewrite Hr. simpl. rewrite od_set_keys_new by done. rewrite IH by apply Hd2.
    unfold error_entries. by rewrite <- !app_assoc.
Qed.

(** ** Properties *)

(** Rotation isolates failures: with distinct names, [rotate_all] rotates every
    registered secret once, in order, whatever happens to the others; it returns
    exactly the events of the secrets whose rotation succeeded, and [rotation_errors]
    holds exactly the secrets whose rotation or callback raised, with the exception,
    whatever an earlier run had left there. *)
Theorem rotation_isolated rot cb names old log :
  only_exceptions rot → only_exceptions cb → NoDup names →
  SecretRotator_rotate_all (λ _, 0%Z) (Some (scripted_callback cb))
    (fold_left (λ ss n, SecretRotator_register (scripted_secret rot n) ss) names []) (old, log) =
  let events := map (λ n, mkRotated n 0) (List.filter (rotated rot) names) in
  (Return events, ((events, error_entries rot cb names), log ++ names)).
Proof.
  intros Hrot Hcb Hd.
  assert (∀ ss, fold_left (λ ss n, SecretRotator_register (scripted_secret rot n) ss) names ss =
    ss ++ map (scripted_secret rot) names) as Hreg.
  { clear. induction names as [|n names IH]; intros ss; simpl; [by rewrite app_nil_r|].
    rewrite IH. unfold SecretRotator_register. by rewrite <- app_assoc. }
  rewrite Hreg. unfold SecretRotator_rotate_all, mbind, PyM_bind, on_fst, updates, reads. simpl.
  by rewrite rotate_loop_scripted.
Qed.

Lemma rotation_isolated_witness :
  let rot n := if String.eqb n "db" then Raise (ValueError "locked") else Return "new" in
  SecretRotator_rotate_all (λ _, 0%Z) (Some (scripted_callback (λ _, Return tt)))
    (fold_left (λ ss n, SecretRotator_register (scripted_secret rot n) ss) ["db"; "api"] [])
    (([], []), []) =
  (Return [mkRotated "api" 0], (([mkRotated "api" 0], [("db", ValueError "locked")]), ["db"; "api"])).
Proof.
  intros rot. refine (rotation_isolated rot (λ _, Return tt) ["db"; "api"] ([], []) [] _ _ _).
  - intros n. unfold rot. by destruct (String.eqb n "db").
  - by intros n.
  - apply (bool_decide_unpack _). vm_compute. exact I.
Defined.

(** Configuration values are fresh for the time to live and no longer: when no
    unexpired value is cached, [get] loads the source once and returns what it holds
    for the key (or the default); every later [get] before the deadline, which is the
    time to live after the load, returns that value and touches nothing, whatever its
    own default; from the deadline on, or after [invalidate], the source is loaded
    again. *)
Theorem config_ttl {W V} (monotonic : W → Q) (r : DynamicConfigRegistry W V) key dflt
    (load : PyM W (list (string * V))) data (w w1 : W) :
  cached_value key r (monotonic w) = None →
  cfg_sources r !! key = Some load → load w = (Return data, w1) →
  let value := default dflt (od_get key data) in
  let r1 := set_cache (<[key := (value, monotonic w1 + cfg_ttl r)%Q]> (cfg_cache r)) r in
  DynamicConfigRegistry_get monotonic key dflt (r, w) = (Return value, (r1, w1)) ∧
  (∀ dflt' w2, (monotonic w2 < monotonic w1 + cfg_ttl r)%Q →
     DynamicConfigRegistry_get monotonic key dflt' (r1, w2) = (Return value, (r1, w2))) ∧
  (∀ w2, (monotonic w1 + cfg_ttl r <= monotonic w2)%Q → cached_value key r1 (monotonic w2) = None) ∧
  (∀ w2, cached_value key (DynamicConfigRegistry_invalidate key r1) (monotonic w2) = None ∧
         cfg_sources (DynamicConfigRegistry_invalidate key r1) !! key = Some load).
Proof.
  intros Hc Hs Hl value r1. split_and!.
  - unfold DynamicConfigRegistry_get, mbind, PyM_bind, on_fst, on_snd, reads, updates, id. simpl.
    rewrite Hc, Hs. simpl. by rewrite Hl.
  - intros dflt' w2 Ht. unfold DynamicConfigRegistry_get, mbind, PyM_bind, on_fst, on_snd, reads. simpl.
    unfold cached_value, r1. simpl. rewrite lookup_insert_eq.
    by rewrite (proj2 (Qltb_lt _ _)) by done.
  - intros w2 Ht. unfold cached_value, r1. simpl. rewrite lookup_insert_eq.
    by rewrite (proj2 (Qltb_ge _ _)) by done.
  - intros w2. split; [|done]. unfold cached_value. simpl. by rewrite lookup_delete_eq.
Qed.

Lemma config_ttl_witness :
  let load : PyM nat (list (string * Z)) := λ w, (Return [("limit", 5%Z)], S w) in
  let r := DynamicConfigRegistry_register "limit" load (DynamicConfigRegistry_init 30) in
  fst (DynamicConfigRegistry_get (λ w, inject_Z (Z.of_nat w)) "limit" 0%Z (r, 0%nat)) = Return 5%Z.
Proof.
  intros load r.
  destruct (config_ttl (λ w, inject_Z (Z.of_nat w)) r "limit" 0%Z load [("limit", 5%Z)] 0%nat 1%nat)
    as [E _]; [reflexivity | reflexivity | reflexivity |].
  exact (f_equal fst E).
Defined.

(** A job's failure is data: triggering a registered job runs its handler once and,
    unless it is cancelled, returns an event that carries the handler's error message
    or none, appended to the execution log; an unknown id raises [KeyError] and
    changes nothing. *)
Theorem trigger_records {W} utcnow monotonic id (s : InMemoryScheduler W) (w : W) :
  let out := InMemoryScheduler_trigger utcnow monotonic id (s, w) in
  match od_get id (sc_jobs s) with
  | None => out = (Raise (KeyError (py_repr id)), (s, w))
  | Some job =>
      let '(o, w') := job_handler job w in
      match o with
      | Raise e =>
          if is_Exception e then
            ∃ ev, out = (Return ev, (mkScheduler (sc_jobs s) (sc_running s)
                                       (sc_execution_log s ++ [ev]), w')) ∧
              je_job_id ev = job_id job ∧ je_error ev = Some (exn_msg e)
          else out = (Raise e, (s, w'))
      | Return _ =>
          ∃ ev, out = (Return ev, (mkScheduler (sc_jobs s) (sc_running s)
                                     (sc_execution_log s ++ [ev]), w')) ∧
            je_job_id ev = job_id job ∧ JobExecutedEvent_success ev = true
      end
  end.
Proof.
  unfold InMemoryScheduler_trigger, mbind, PyM_bind, on_fst, reads. simpl.
  destruct (od_get id (sc_jobs s)) as [job|]; [|done].
  unfold JobExecutionContext_run, mbind, PyM_bind, on_snd, reads, try_except, try_base, updates. simpl.
  destruct (job_handler job w) as [[[]|e] w']; simpl; [by eexists|].
  destruct (is_Exception e); [by eexists | done].
Qed.
