(* ===== verification/Asgi.v ===== *)
(** * The request middlewares of the FastAPI adapter

    [adapters/fastapi/middleware.py].  An ASGI application is called with a scope and
    two closures, [receive] and [send].  Here it is a function that is polymorphic in
    the state the closures run in: a middleware that shares a local variable with a
    closure it hands down extends that state by a cell, which the application below it
    cannot name.  [Parametric] is the property that makes this precise; it holds of
    every application given as a tree of interactions and is preserved by every
    middleware, so the theorems speak about whole stacks.

    Headers and paths are ASCII, except for the signature of a webhook, which is decoded as the
    bytes it is; structured logging is left out. *)
From S2P Require Import Prelude PyString OrderedDict PyValue Errors Sha256 Utf8 RateLimit Security DomainKernel Observability Webhooks.

#[local] Arguments String.append !_ _ / : simpl nomatch.

(** ** Scopes and messages *)

Record Scope := mkScope {
  s_type : string;
  s_method : option string;
  s_path : option string;
  s_raw_path : option string;
  s_headers : option (list (string * string));
  s_client : option (string * Z);
}.

(** A message is a dict; a key that is absent is [None]. *)
Record Message := mkMessage {
  m_type : string;
  m_status : option Z;
  m_headers : option (list (string * string));
  m_body : option (list Z);
  m_more_body : option bool;
}.

Definition response_start (status : Z) (headers : list (string * string)) : Message :=
  mkMessage "http.response.start" (Some status) (Some headers) None None.
Definition response_body (body : string) : Message :=
  mkMessage "http.response.body" None None (Some (encode body)) None.

Definition is_start (m : Message) : bool := String.eqb (m_type m) "http.response.start".

(** [{**message, "headers": headers_list}]. *)
Definition with_headers (hs : list (string * string)) (m : Message) : Message :=
  mkMessage (m_type m) (m_status m) (Some hs) (m_body m) (m_more_body m).

(** [dict(scope.get("headers", [])).get(name, b"").decode().strip()]: in a dict built
    from pairs the last pair of a key wins. *)
Definition header_value (name : string) (scope : Scope) : string :=
  let headers := fold_left (λ d e, od_set (fst e) (snd e) d) (default [] (s_headers scope)) [] in
  strip (default "" (od_get name headers)).

(** [json.dumps] of a dict of strings. *)
Definition json_dumps (d : list (string * string)) : string :=
  "{" +:+ join ", " (map (λ e, json_string (fst e) +:+ ": " +:+ json_string (snd e)) d) +:+ "}".

(** [{"detail":"..."}] as the literals of the source have it. *)
Definition detail_body (text : string) : string :=
  "{" +:+ json_string "detail" +:+ ":" +:+ json_string text +:+ "}".

Definition str_len (s : string) : string := str_of_int (Z.of_nat (String.length s)).

Definition json_headers (body : string) : list (string * string) :=
  [("content-type", "application/json"); ("content-length", str_len body)].

(** ** Applications *)

(** The ambient state of a request: the three context variables the middlewares set,
    and the rest of the process. *)
Definition Ambient (U : Type) : Type :=
  option RequestContext * (option string * (option Principal * U)).

Definition ASGIApp (B : Type) : Type :=
  ∀ W : Type, (∀ A : Type, PyM B A → PyM W A) →
    Scope → PyM W Message → (Message → PyM W unit) → PyM W unit.

(** A local variable that closures share, for the time of [m]. *)
Definition new_cell {C W A : Type} (c : C) (m : PyM (C * W) A) : PyM W A := λ w,
  let '(o, (_, w')) := m (c, w) in (o, w').

(** An application as a tree of interactions: it receives, sends, or acts on the
    ambient state, and goes on with the outcome. *)
Inductive prog (B : Type) : Type :=
| PDone (o : outcome unit)
| PReceive (k : outcome Message → prog B)
| PSend (m : Message) (k : outcome unit → prog B)
| PAmbient (A : Type) (m : PyM B A) (k : outcome A → prog B).
Arguments PDone {B} o.
Arguments PReceive {B} k.
Arguments PSend {B} m k.
Arguments PAmbient {B} A m k.

(** Run [m] and go on with its outcome, also when it raised. *)
Definition observe {W A C : Type} (m : PyM W A) (k : outcome A → PyM W C) : PyM W C := λ w,
  let '(o, w') := m w in k o w'.

Fixpoint run_prog {B W : Type} (lift : ∀ A, PyM B A → PyM W A) (receive : PyM W Message)
    (send : Message → PyM W unit) (p : prog B) : PyM W unit :=
  match p with
  | PDone o => from_outcome o
  | PReceive k => observe receive (λ o, run_prog lift receive send (k o))
  | PSend m k => observe (send m) (λ o, run_prog lift receive send (k o))
  | PAmbient A m k => observe (lift A m) (λ o, run_prog lift receive send (k o))
  end.

Definition app_of {B : Type} (p : Scope → prog B) : ASGIApp B := λ W lift scope receive send,
  run_prog lift receive send (p scope).

(** ** The middlewares *)

Section Middlewares.
Context {U : Type}.
#[local] Abbreviation B := (Ambient U).
#[local] Abbreviation App := (ASGIApp B).

(** The context variables as parts of the ambient state; the correlation context is
    its first component. *)
Definition tenant_var {A} (m : PyM (option string) A) : PyM B A := on_snd (on_fst m).
Definition principal_var {A} (m : PyM (option Principal) A) : PyM B A := on_snd (on_snd (on_fst m)).

(** *** Correlation id *)

Record FastAPICorrelationIdMiddleware := mkCorrelationMw {
  cm_response_header : string;
  cm_request_headers : list string;
}.

Definition FastAPICorrelationIdMiddleware_init (header_name : string) (fallback_headers : list string)
    : FastAPICorrelationIdMiddleware :=
  mkCorrelationMw (lower header_name) (lower header_name :: map lower fallback_headers).

(** The loop over [self._request_headers]: the first header with a value decides. *)
Fixpoint resolve_correlation (request_headers : list string) (scope : Scope) : option string :=
  match request_headers with
  | [] => None
  | header :: rest =>
      let value := header_value header scope in
      if String.eqb value "" then resolve_correlation rest scope
      else if String.eqb header "traceparent" && contains "-" value then
        let parts := split_on "-" value in
        if (2 <=? length parts)%nat then parts !! 1%nat else None
      else Some value
  end.

(** [x or str(uuid4())]. *)
Definition or_uuid4 (uuid4 : PyM U string) (o : option string) : PyM B string :=
  match o with
  | None | Some "" => on_snd (on_snd (on_snd uuid4))
  | Some i => mret i
  end.

(** [send_with_header(s)]: append to the headers of the response start. *)
Definition stamp (extra : list (string * string)) (m : Message) : Message :=
  if is_start m then with_headers (default [] (m_headers m) ++ extra) m else m.

Definition FastAPICorrelationIdMiddleware_call (uuid4 : PyM U string)
    (self : FastAPICorrelationIdMiddleware) (app : App) : App := λ W lift scope receive send,
  if negb (str_in (s_type scope) ["http"; "websocket"]) then app W lift scope receive send
  else
    correlation_id ← lift _ (or_uuid4 uuid4 (resolve_correlation (cm_request_headers self) scope));
    lift _ (CorrelationContext_set (mkReqCtx correlation_id None None None None)) ;;
    app W lift scope receive (λ m, send (stamp [(cm_response_header self, correlation_id)] m)).

(** *** Tenant *)

(** [TenantId(value)]. *)
Definition TenantId (value : string) : outcome string :=
  if String.eqb value "" then Raise (ValidationError "TenantId must not be empty") else Return value.

Definition answer {W} (send : Message → PyM W unit) (status : Z) (headers : list (string * string))
    (body : string) : PyM W unit :=
  send (response_start status headers) ;; send (response_body body).

Definition tenant_required : string := detail_body "X-Tenant-ID header is required".

Definition FastAPITenantMiddleware_call (header : string) (require_tenant : bool) (app : App) : App :=
  λ W lift scope receive send,
  if String.eqb (s_type scope) "http" then
    let tenant_raw := header_value header scope in
    if negb (String.eqb tenant_raw "") then
      t ← from_outcome (TenantId tenant_raw);
      lift _ (tenant_var (TenantContext_set t)) ;;
      app W lift scope receive send
    else if require_tenant then
      answer send 400 (json_headers tenant_required) tenant_required
    else app W lift scope receive send
  else app W lift scope receive send.

(** *** Security *)

Definition unauthorized_body : string :=
  json_dumps [("code", "unauthorized"); ("message", "Missing or invalid credentials")].

(** The token of an [Authorization] header, if it has the bearer scheme. *)
Definition bearer_token (auth_value : string) : option string :=
  if startswith "bearer " (lower auth_value)
  then Some (strip (String.substring 7 (String.length auth_value - 7) auth_value)) else None.

(** The principal the verifier finds; its exceptions count as none. *)
Definition authenticate (verifier : option (string → PyM B (option Principal))) (scope : Scope)
    : PyM B (option Principal) :=
  match bearer_token (header_value "authorization" scope) with
  | None => mret None
  | Some token =>
      match verifier with
      | Some verify =>
          if String.eqb token "" then mret None else try_except (verify token) (λ _, mret None)
      | None => mret None
      end
  end.

Definition FastAPISecurityMiddleware_call (verifier : option (string → PyM B (option Principal)))
    (require_auth : bool) (app : App) : App := λ W lift scope receive send,
  if negb (String.eqb (s_type scope) "http") then app W lift scope receive send
  else
    principal ← lift _ (authenticate verifier scope);
    match principal with
    | Some p =>
        lift _ (principal_var (SecurityContext_set_current p)) ;;
        app W lift scope receive send
    | None =>
        if require_auth then answer send 401 (json_headers unauthorized_body) unauthorized_body
        else app W lift scope receive send
    end.

(** *** Metrics *)

(** The instruments of the metrics port, as callables. *)
Record Instruments := mkInstruments {
  requests_add : Q → list (string * string) → PyM B unit;
  latency_record : Q → list (string * string) → PyM B unit;
  errors_add : Q → list (string * string) → PyM B unit;
}.

(** [send_capturing]; the cell is [status_code[0]]. *)
Definition send_capturing {W} (send : Message → PyM W unit) (m : Message) : PyM (Z * W) unit :=
  (if is_start m then on_fst (updates (λ _, default 200%Z (m_status m))) else mret tt) ;;
  on_snd (send m).

Definition FastAPIMetricsMiddleware_call (perf_counter : PyM B Q) (ins : Instruments) (app : App) : App :=
  λ W lift scope receive send,
  if negb (String.eqb (s_type scope) "http") then app W lift scope receive send
  else
    let labels := [("method", default "GET" (s_method scope)); ("path", default "" (s_path scope))] in
    start ← lift _ perf_counter;
    new_cell 200%Z
      (try_finally
         (app (Z * W)%type (λ A m, on_snd (lift A m)) scope (on_snd receive) (send_capturing send))
         (stop ← on_snd (lift _ perf_counter);
          let elapsed := (stop - start) * 1000 in
          status ← on_fst (reads id);
          on_snd (lift _ (requests_add ins 1 (labels ++ [("status", str_of_int status)]))) ;;
          on_snd (lift _ (latency_record ins elapsed labels)) ;;
          if (500 <=? status)%Z then on_snd (lift _ (errors_add ins 1 labels)) else mret tt)).

(** *** Rate limit *)

Definition default_identifier (scope : Scope) : string :=
  match s_client scope with Some (host, _) => host | None => "unknown" end.

(** [int(x)] of a float: towards zero. *)
Definition int_of_float (x : Q) : Z := Z.quot (Qnum x) (Zpos (Qden x)).

Definition rate_limited_body (retry_after : string) : string :=
  json_dumps [("code", "rate_limit_exceeded");
              ("message", "Rate limit exceeded. Retry after " +:+ retry_after +:+ "s.")].

(** The port [RateLimiter.check] and the clock that [retry_after_seconds] reads. *)
Definition FastAPIRateLimitMiddleware_call (check : Quota → string → PyM B RateLimitResult)
    (utcnow : PyM B Z) (quota : Quota) (identifier_fn : option (Scope → string)) (app : App) : App :=
  λ W lift scope receive send,
  if negb (String.eqb (s_type scope) "http") then app W lift scope receive send
  else
    let identifier := default default_identifier identifier_fn scope in
    result ← lift _ (check quota identifier);
    if negb (RateLimitResult_allowed result) then
      now ← lift _ utcnow;
      let retry_after := str_of_int (int_of_float (retry_after_seconds now result) + 1) in
      let body := rate_limited_body retry_after in
      answer send 429 (json_headers body ++ [("retry-after", retry_after)]) body
    else app W lift scope receive send.

(** *** Correlation and tenant in one *)

Definition FastAPIRequestContextMiddleware_call (uuid4 : PyM U string)
    (correlation_h tenant_h : string) (app : App) : App := λ W lift scope receive send,
  if String.eqb (s_type scope) "http" then
    correlation_id ← lift _ (or_uuid4 uuid4 (Some (header_value correlation_h scope)));
    let tenant := header_value tenant_h scope in
    let tenant_id := if String.eqb tenant "" then None else Some tenant in
    lift _ (CorrelationContext_set (mkReqCtx correlation_id tenant_id None None None)) ;;
    app W lift scope receive send
  else app W lift scope receive send.

(** *** Incoming webhooks *)

(** What a loop that has used up its fuel ends with; no handler catches it. *)
Definition OutOfFuel : pyexn := PyExn ["OutOfFuel"] "" [] [].

(** [while more_body: ...], at most [fuel] rounds. *)
Fixpoint read_body {W} (fuel : nat) (receive : PyM W Message) (body : list Z) : PyM W (list Z) :=
  match fuel with
  | O => raise OutOfFuel
  | S fuel' =>
      message ← receive;
      let body := body ++ default [] (m_body message) in
      if default false (m_more_body message) then read_body fuel' receive body else mret body
  end.

(** [_verify], of the characters of the signature; comparing text with other than ASCII characters raises. *)
Definition FastAPIIncomingWebhookMiddleware_verify (secret : list Z) (body : list Z) (signature : list Z)
    : outcome bool :=
  if negb (startswith_points (encode "sha256=") signature) then Return false
  else
    let expected := "sha256=" +:+ hexdigest (hmac_sha256 secret body) in
    compare_digest (encode expected) signature.

(** [dict(scope.get("headers", [])).get(self._header, b"")]. *)
Definition header_bytes (name : string) (scope : Scope) : list Z :=
  let headers := fold_left (λ d e, od_set (fst e) (snd e) d) (default [] (s_headers scope)) [] in
  encode (default "" (od_get name headers)).

Definition webhook_path (scope : Scope) : string :=
  match s_path scope with Some p => p | None => default "" (s_raw_path scope) end.

Definition bad_signature : string := detail_body "Invalid or missing webhook signature".

(** [replay_receive]; the cell is [body_consumed]. *)
Definition replay_receive {W} (body : list Z) (receive : PyM W Message) : PyM (bool * W) Message :=
  consumed ← on_fst (reads id);
  if negb consumed then
    on_fst (updates (λ _, true)) ;;
    mret (mkMessage "http.request" None None (Some body) (Some false))
  else on_snd receive.

Definition FastAPIIncomingWebhookMiddleware_call (fuel : nat) (secret : list Z) (path_prefix header : string)
    (app : App) : App := λ W lift scope receive send,
  if negb (String.eqb (s_type scope) "http") then app W lift scope receive send
  else if negb (startswith path_prefix (webhook_path scope)) then app W lift scope receive send
  else
    body ← read_body fuel receive [];
    text ← from_outcome (bytes_decode (header_bytes header scope));
    let sig_header := strip_points text in
    verified ← from_outcome (FastAPIIncomingWebhookMiddleware_verify secret body sig_header);
    if negb verified then
      answer send 401 (json_headers bad_signature) bad_signature
    else
      new_cell false
        (app (bool * W)%type (λ A m, on_snd (lift A m)) scope (replay_receive body receive)
           (λ m, on_snd (send m))).

(** *** Security headers *)

Definition default_csp : string :=
  "default-src 'self'; script-src 'self'; style-src 'self'; img-src 'self' data:; font-src 'self'; object-src 'none'; frame-ancestors 'none'".

(** The constructor keeps the headers that are not disabled. *)
Definition FastAPISecurityHeadersMiddleware_init
    (content_security_policy strict_transport_security x_frame_options x_content_type_options
     referrer_policy permissions_policy : option string) : list (string * string) :=
  omap (λ '(name, value), pair name <$> value)
    [("content-security-policy", content_security_policy);
     ("strict-transport-security", strict_transport_security);
     ("x-frame-options", x_frame_options);
     ("x-content-type-options", x_content_type_options);
     ("referrer-policy", referrer_policy);
     ("permissions-policy", permissions_policy)].

Definition default_security_headers : list (string * string) :=
  FastAPISecurityHeadersMiddleware_init (Some default_csp)
    (Some "max-age=63072000; includeSubDomains; preload") (Some "DENY") (Some "nosniff")
    (Some "strict-origin-when-cross-origin") (Some "geolocation=(), microphone=(), camera=()").

Definition FastAPISecurityHeadersMiddleware_call (headers : list (string * string)) (app : App) : App :=
  λ W lift scope receive send,
  if negb (str_in (s_type scope) ["http"; "websocket"]) then app W lift scope receive send
  else app W lift scope receive (λ m, send (stamp headers m)).

End Middlewares.

(** ** Parametricity

    Two runs whose closures answer alike stay related. *)

Definition same {W1 W2 A : Type} (R : W1 → W2 → Prop) (m1 : PyM W1 A) (m2 : PyM W2 A) : Prop :=
  ∀ w1 w2, R w1 w2 → fst (m1 w1) = fst (m2 w2) ∧ R (snd (m1 w1)) (snd (m2 w2)).

Class Parametric {B : Type} (app : ASGIApp B) : Prop := parametric :
  ∀ W1 W2 (R : W1 → W2 → Prop) lift1 lift2 recv1 recv2 send1 send2,
    (∀ A (m : PyM B A), same R (lift1 A m) (lift2 A m)) →
    same R recv1 recv2 →
    (∀ m, same R (send1 m) (send2 m)) →
    ∀ scope, same R (app W1 lift1 scope recv1 send1) (app W2 lift2 scope recv2 send2).

Create HintDb asgi.

Section Same.
Context {W1 W2 : Type} (R : W1 → W2 → Prop).

Lemma same_ret {A} (a : A) : same R (mret a) (mret a).
Proof. by intros w1 w2 HR. Qed.

Lemma same_raise {A} e : same R (raise (A := A) e) (raise e).
Proof. by intros w1 w2 HR. Qed.

Lemma same_outcome {A} (o : outcome A) : same R (from_outcome o) (from_outcome o).
Proof. by intros w1 w2 HR. Qed.

Lemma same_observe {A C} (m1 : PyM W1 A) (m2 : PyM W2 A) (k1 : outcome A → PyM W1 C) k2 :
  same R m1 m2 → (∀ o, same R (k1 o) (k2 o)) → same R (observe m1 k1) (observe m2 k2).
Proof.
  intros Hm Hk w1 w2 HR. destruct (Hm w1 w2 HR) as [Ho HR']. unfold observe.
  destruct (m1 w1) as [o1 w1'], (m2 w2) as [o2 w2']. simpl in *. subst. by apply Hk.
Qed.

Lemma same_bind {A C} (m1 : PyM W1 A) (m2 : PyM W2 A) (k1 : A → PyM W1 C) k2 :
  same R m1 m2 → (∀ a, same R (k1 a) (k2 a)) → same R (m1 ≫= k1) (m2 ≫= k2).
Proof.
  intros Hm Hk w1 w2 HR. destruct (Hm w1 w2 HR) as [Ho HR']. unfold mbind, PyM_bind.
  destruct (m1 w1) as [[a|e] w1'], (m2 w2) as [[a'|e'] w2']; simplify_eq/=; [|done].
  by apply Hk.
Qed.

Lemma same_finally {A} (m1 : PyM W1 A) (m2 : PyM W2 A) f1 f2 :
  same R m1 m2 → same R f1 f2 → same R (try_finally m1 f1) (try_finally m2 f2).
Proof.
  intros Hm Hf w1 w2 HR. destruct (Hm w1 w2 HR) as [Ho HR']. unfold try_finally.
  destruct (m1 w1) as [o1 w1'], (m2 w2) as [o2 w2']. simpl in *.
  destruct (Hf w1' w2' HR') as [Ho' HR''].
  destruct (f1 w1') as [[|] ?], (f2 w2') as [[|] ?]; simplify_eq/=; done.
Qed.

(** The relation on states that are extended by one cell each. *)
Definition cells {C : Type} (x : C * W1) (y : C * W2) : Prop := fst x = fst y ∧ R (snd x) (snd y).

Lemma same_new_cell {C A} (c : C) (m1 : PyM (C * W1) A) m2 :
  same cells m1 m2 → same R (new_cell c m1) (new_cell c m2).
Proof.
  intros Hm w1 w2 HR. destruct (Hm (c, w1) (c, w2) (conj eq_refl HR)) as [Ho [_ HR']].
  unfold new_cell. destruct (m1 _) as [o1 [c1 v1]], (m2 _) as [o2 [c2 v2]]. by simpl in *.
Qed.

Lemma same_on_snd {C A} (m1 : PyM W1 A) m2 :
  same R m1 m2 → same (cells (C := C)) (on_snd m1) (on_snd m2).
Proof.
  intros Hm [c1 w1] [c2 w2] [Hc HR]. simpl in *. destruct (Hm w1 w2 HR) as [Ho HR'].
  unfold on_snd. simpl. destruct (m1 w1), (m2 w2). by simpl in *.
Qed.

Lemma same_on_fst {C A} (m : PyM C A) : same (cells (C := C)) (on_fst m) (on_fst m).
Proof.
  intros [c1 w1] [c2 w2] [Hc HR]. simpl in *. subst. unfold on_fst. simpl. by destruct (m c2).
Qed.

Lemma same_if {A} (b : bool) (m1 m1' : PyM W1 A) (m2 m2' : PyM W2 A) :
  same R m1 m2 → same R m1' m2' → same R (if b then m1 else m1') (if b then m2 else m2').
Proof. by destruct b. Qed.

End Same.

#[export] Hint Resolve same_ret same_raise same_outcome same_observe same_bind same_finally
  same_new_cell same_on_snd same_on_fst same_if : asgi.

Lemma run_prog_same {B W1 W2} (R : W1 → W2 → Prop) lift1 lift2 recv1 recv2 send1 send2 :
  (∀ A (m : PyM B A), same R (lift1 A m) (lift2 A m)) → same R recv1 recv2 →
  (∀ m, same R (send1 m) (send2 m)) →
  ∀ p, same R (run_prog lift1 recv1 send1 p) (run_prog lift2 recv2 send2 p).
Proof. intros HL HR HS p. induction p as [o|k IH|m k IH|A m k IH]; simpl; auto with asgi. Qed.

#[export] Instance app_of_parametric {B} (p : Scope → prog B) : Parametric (app_of p).
Proof. intros W1 W2 R l1 l2 r1 r2 s1 s2 HL HR HS scope. by apply run_prog_same. Qed.

Lemma answer_same {W1 W2} (R : W1 → W2 → Prop) send1 send2 status hs body :
  (∀ m, same R (send1 m) (send2 m)) →
  same R (answer send1 status hs body) (answer send2 status hs body).
Proof. intros HS. unfold answer. auto with asgi. Qed.

Lemma read_body_same {W1 W2} (R : W1 → W2 → Prop) recv1 recv2 n body :
  same R recv1 recv2 → same R (read_body n recv1 body) (read_body n recv2 body).
Proof.
  intros HR. revert body. induction n as [|n IH]; intros body; simpl; auto with asgi.
Qed.

#[export] Hint Resolve answer_same read_body_same : asgi.
#[export] Hint Extern 2 (same _ (?app _ _ _ _ _) (?app _ _ _ _ _)) =>
  eapply (parametric (app := app)) : asgi.

Ltac head_of t := lazymatch t with ?f _ => head_of f | _ => t end.

(** Prove that a middleware is parametric: follow its text. *)
Ltac middleware_parametric :=
  intros W1 W2 R l1 l2 r1 r2 s1 s2 HL HR HS scope;
  lazymatch goal with |- same _ (?f _ _ _ _ _) _ => let h := head_of f in unfold h end;
  repeat first
    [ apply same_if | apply same_bind; [solve [eauto with asgi] | intros ?]
    | progress simpl | eauto 6 with asgi ].

Section Instances.
Context {U : Type}.
Implicit Types app : ASGIApp (Ambient U).

#[export] Instance correlation_parametric uuid4 self app :
  Parametric app → Parametric (FastAPICorrelationIdMiddleware_call uuid4 self app).
Proof. intros Happ. middleware_parametric. Qed.

#[export] Instance tenant_parametric header req app :
  Parametric app → Parametric (FastAPITenantMiddleware_call header req app).
Proof. intros Happ. middleware_parametric. Qed.

#[export] Instance security_parametric verifier req app :
  Parametric app → Parametric (FastAPISecurityMiddleware_call verifier req app).
Proof. intros Happ. middleware_parametric. destruct a; eauto 6 with asgi. Qed.

#[export] Instance metrics_parametric perf ins app :
  Parametric app → Parametric (FastAPIMetricsMiddleware_call perf ins app).
Proof.
  intros Happ. middleware_parametric. apply same_new_cell, same_finally.
  - unfold send_capturing. eauto 8 with asgi.
  - eauto 12 with asgi.
Qed.

#[export] Instance rate_limit_parametric check now q idf app :
  Parametric app → Parametric (FastAPIRateLimitMiddleware_call check now q idf app).
Proof. intros Happ. middleware_parametric. Qed.

#[export] Instance request_context_parametric uuid4 c t app :
  Parametric app → Parametric (FastAPIRequestContextMiddleware_call uuid4 c t app).
Proof. intros Happ. middleware_parametric. Qed.

#[export] Instance webhook_parametric fuel secret prefix header app :
  Parametric app → Parametric (FastAPIIncomingWebhookMiddleware_call fuel secret prefix header app).
Proof. intros Happ. middleware_parametric. unfold replay_receive. eauto 10 with asgi. Qed.

#[export] Instance security_headers_parametric hs app :
  Parametric app → Parametric (FastAPISecurityHeadersMiddleware_call hs app).
Proof. intros Happ. middleware_parametric. Qed.

End Instances.

(** ** A connection

    The server's side: the messages still to be received, then a disconnect; and the
    messages sent. *)

Record Conn := mkConn { c_inbox : list Message; c_sent : list Message }.

Definition disconnect : Message := mkMessage "http.disconnect" None None None None.

Definition conn_receive : PyM Conn Message := λ c,
  match c_inbox c with
  | [] => (Return disconnect, c)
  | m :: ms => (Return m, mkConn ms (c_sent c))
  end.
Definition conn_send (m : Message) : PyM Conn unit :=
  updates (λ c, mkConn (c_inbox c) (c_sent c ++ [m])).

(** Serve one request: what the application returns, the connection and the ambient
    state it leaves. *)
Definition serve {B : Type} (app : ASGIApp B) (scope : Scope) (inbox : list Message) (b : B)
    : outcome unit * (Conn * B) :=
  app (Conn * B)%type (λ A m, on_snd m) scope (on_fst conn_receive) (λ m, on_fst (conn_send m))
    (mkConn inbox [], b).

Definition sent {B} (r : outcome unit * (Conn * B)) : list Message := c_sent (fst (snd r)).

Definition http_scope (path : string) (headers : list (string * string)) : Scope :=
  mkScope "http" (Some "POST") (Some path) None (Some headers) (Some ("10.0.0.1", 5000%Z)).

(** Two runs with related connections give related answers. *)
Lemma serve_same {B W} (app : ASGIApp B) `{!Parametric app} (R : W → Conn * B → Prop) lift recv send scope w c b :
  (∀ A (m : PyM B A), same R (lift A m) (on_snd m)) → same R recv (on_fst conn_receive) →
  (∀ m, same R (send m) (on_fst (conn_send m))) → R w (c, b) →
  ∃ o w' c' b', app W lift scope recv send w = (o, w') ∧
    app (Conn * B)%type (λ A m, on_snd m) scope (on_fst conn_receive) (λ m, on_fst (conn_send m)) (c, b)
      = (o, (c', b')) ∧ R w' (c', b').
Proof.
  intros HL HR HS Hw.
  destruct (parametric (app := app) W (Conn * B)%type R _ _ _ _ _ _ HL HR HS scope w (c, b) Hw) as [Ho Hr].
  destruct (app W lift scope recv send w) as [o w'], (app _ _ _ _ _ (c, b)) as [o' [c' b']].
  simpl in *. subst. eauto 10.
Qed.

(** Closures that act on both sides alike: step through their definitions. *)
Ltac same_steps :=
  unfold same, on_fst, on_snd, conn_receive, conn_send, updates, reads, mret, PyM_ret in *;
  repeat first [intros [? ?] | intros ?]; simpl in *; destruct_and?; simplify_eq/=;
  repeat (case_match; simplify_eq/=); simplify_eq/=; split_and?; eauto.

Definition stamped (hs : list (string * string)) {B} (w1 w2 : Conn * B) : Prop :=
  c_inbox (fst w1) = c_inbox (fst w2) ∧ c_sent (fst w1) = map (stamp hs) (c_sent (fst w2)) ∧
  snd w1 = snd w2.

Lemma serve_stamped {B} (app : ASGIApp B) `{!Parametric app} hs scope c1 c2 b :
  stamped hs (c1, b) (c2, b) →
  ∃ o c1' c2' b',
    app (Conn * B)%type (λ A m, on_snd m) scope (on_fst conn_receive)
      (λ m, on_fst (conn_send (stamp hs m))) (c1, b) = (o, (c1', b')) ∧
    app (Conn * B)%type (λ A m, on_snd m) scope (on_fst conn_receive)
      (λ m, on_fst (conn_send m)) (c2, b) = (o, (c2', b')) ∧
    stamped hs (c1', b') (c2', b').
Proof.
  intros H0.
  destruct (serve_same app (stamped hs) (λ A m, on_snd m) (on_fst conn_receive)
    (λ m, on_fst (conn_send (stamp hs m))) scope (c1, b) c2 b) as (o & [c1' b1'] & c2' & b' & E1 & E2 & H).
  - intros A m. unfold stamped. same_steps.
  - unfold stamped. intros [[i1 s1] b1] [[i2 s2] b2] (?&?&?). simplify_eq/=.
    unfold on_fst, conn_receive. simpl. by destruct i2.
  - intros m. unfold stamped. intros [[i1 s1] b1] [[i2 s2] b2] (?&?&?). simplify_eq/=.
    by rewrite map_app.
  - done.
  - assert (b1' = b') as -> by apply H. eauto 10.
Qed.

Lemma stamp_stamp hs hs' m : stamp hs (stamp hs' m) = stamp (hs' ++ hs) m.
Proof.
  unfold stamp. destruct (is_start m) eqn:E; [|by rewrite E].
  assert (is_start (with_headers (default [] (m_headers m) ++ hs') m) = true) as -> by done.
  unfold with_headers. simpl. by rewrite <- app_assoc.
Qed.

Lemma map_stamp_stamp hs hs' ms : map (stamp hs) (map (stamp hs') ms) = map (stamp (hs' ++ hs)) ms.
Proof. rewrite map_map. apply map_ext. intros m. apply stamp_stamp. Qed.

Lemma serve_security_headers {U} hs (app : ASGIApp (Ambient U)) `{!Parametric app} scope inbox b :
  str_in (s_type scope) ["http"; "websocket"] = true →
  let r := serve app scope inbox b in
  serve (FastAPISecurityHeadersMiddleware_call hs app) scope inbox b =
    (fst r, (mkConn (c_inbox (fst (snd r))) (map (stamp hs) (sent r)), snd (snd r))).
Proof.
  intros Hs. unfold sent, serve, FastAPISecurityHeadersMiddleware_call. rewrite Hs. simpl.
  destruct (serve_stamped app hs scope (mkConn inbox []) (mkConn inbox []) b)
    as (o & [i1 s1] & [i2 s2] & b' & E1 & E2 & (?&?&_)); [done|].
  rewrite E1, E2. by simplify_eq/=.
Qed.

Lemma or_uuid4_nonempty {U} (uuid4 : PyM U string) o (b : Ambient U) i b' :
  (∀ u j u', uuid4 u = (Return j, u') → j ≠ "") →
  or_uuid4 uuid4 o b = (Return i, b') → i ≠ "" ∧ fst b' = fst b ∧ fst (snd b') = fst (snd b).
Proof.
  intros Hu. unfold or_uuid4, on_snd. destruct b as [c [t [p u]]]. simpl.
  destruct o as [[|a s]|]; simpl.
  1,3: destruct (uuid4 u) as [[j|e] u'] eqn:E; intros; simplify_eq/=; eauto.
  unfold mret, PyM_ret. intros. by simplify_eq/=.
Qed.

Lemma serve_correlation {U} uuid4 self (app : ASGIApp (Ambient U)) `{!Parametric app} scope inbox b i b1 :
  str_in (s_type scope) ["http"; "websocket"] = true →
  or_uuid4 uuid4 (resolve_correlation (cm_request_headers self) scope) b = (Return i, b1) →
  let r := serve app scope inbox (Some (mkReqCtx i None None None None), snd b1) in
  serve (FastAPICorrelationIdMiddleware_call uuid4 self app) scope inbox b =
    (fst r, (mkConn (c_inbox (fst (snd r))) (map (stamp [(cm_response_header self, i)]) (sent r)),
              snd (snd r))).
Proof.
  intros Hs Hi. unfold sent, serve, FastAPICorrelationIdMiddleware_call. rewrite Hs. simpl.
  unfold mbind at 1, PyM_bind at 1, on_snd at 1. simpl. rewrite Hi.
  unfold mbind, PyM_bind, on_snd at 1, CorrelationContext_set, on_fst at 1, updates. simpl.
  destruct (serve_stamped app [(cm_response_header self, i)] scope (mkConn inbox []) (mkConn inbox [])
    (Some (mkReqCtx i None None None None), snd b1))
    as (o & [i1 s1] & [i2 s2] & b' & E1 & E2 & (?&?&_)); [done|].
  rewrite E1, E2. by simplify_eq/=.
Qed.

(** *** Webhooks *)

Definition request_chunk (body : list Z) (more : bool) : Message :=
  mkMessage "http.request" None None (Some body) (Some more).

(** A request whose body arrives in the given pieces. *)
Fixpoint chunked (first : list Z) (others : list (list Z)) : list Message :=
  match others with
  | [] => [request_chunk first false]
  | c :: cs => request_chunk first true :: chunked c cs
  end.

Lemma read_body_chunked {B} (fuel : nat) first others rest s (b : B) acc :
  (length others < fuel)%nat →
  read_body fuel (on_fst conn_receive) acc (mkConn (chunked first others ++ rest) s, b) =
    (Return (acc ++ concat (first :: others)), (mkConn rest s, b)).
Proof.
  revert fuel first acc. induction others as [|c cs IH]; intros [|fuel] first acc Hf; simpl in *; try lia.
  - unfold mbind, PyM_bind, on_fst at 1. simpl. by rewrite app_nil_r.
  - unfold mbind, PyM_bind, on_fst at 1. simpl. rewrite IH by lia. by rewrite <- app_assoc.
Qed.

(** The signature a sender makes: HMAC-SHA256 of the body under the secret, in hexadecimal. *)
Definition body_signature (secret body : list Z) : list Z :=
  encode ("sha256=" +:+ hexdigest (hmac_sha256 secret body)).

Lemma body_signature_ascii secret body : points_ascii (body_signature secret body) = true.
Proof. apply encode_points_ascii. by rewrite is_ascii_app, hexdigest_ascii. Qed.

Lemma webhook_verify_exact secret body signature :
  FastAPIIncomingWebhookMiddleware_verify secret body signature =
    if bool_decide (signature = body_signature secret body) then Return true
    else if startswith_points (encode "sha256=") signature && negb (points_ascii signature) then Raise TypeError_ascii
    else Return false.
Proof.
  unfold FastAPIIncomingWebhookMiddleware_verify. fold (body_signature secret body). case_bool_decide as Hsig.
  - subst signature. unfold body_signature at 1. rewrite encode_app, startswith_points_app. cbn [negb].
    unfold compare_digest. rewrite body_signature_ascii. cbn [andb]. by rewrite bool_decide_eq_true_2.
  - destruct (startswith_points _ _); [|done]. cbn [negb andb]. unfold compare_digest. rewrite body_signature_ascii. cbn [andb].
    destruct (points_ascii signature); [|done]. cbn [negb]. by rewrite bool_decide_eq_false_2 by congruence.
Qed.

(** The connection below the webhook middleware, which has read the body, against one
    that delivers it in a single message. *)
Definition replayed {B} (body : list Z) (w : bool * (Conn * B)) (w' : Conn * B) : Prop :=
  c_inbox (fst w') = (if fst w then [] else [request_chunk body false]) ++ c_inbox (fst (snd w)) ∧
  c_sent (fst w') = c_sent (fst (snd w)) ∧ snd w' = snd (snd w).

Lemma serve_replayed {B} (app : ASGIApp B) `{!Parametric app} scope body rest (b : B) :
  let r := new_cell false
    (app (bool * (Conn * B))%type (λ A m, on_snd (on_snd m)) scope
       (replay_receive body (on_fst conn_receive)) (λ m, on_snd (on_fst (conn_send m))))
    (mkConn rest [], b) in
  let r0 := serve app scope (request_chunk body false :: rest) b in
  fst r = fst r0 ∧ sent r = sent r0 ∧ snd (snd r) = snd (snd r0).
Proof.
  unfold serve, sent, new_cell.
  destruct (serve_same app (replayed body) (λ A m, on_snd (on_snd m))
    (replay_receive body (on_fst conn_receive)) (λ m, on_snd (on_fst (conn_send m))) scope
    (false, (mkConn rest [], b)) (mkConn (request_chunk body false :: rest) []) b)
    as (o & [x [c1 b1]] & c' & b' & E1 & E2 & (?&?&?)); simpl in *.
  - intros A m [x [c1 b1]] [c2 b2] (?&?&?). simplify_eq/=. unfold on_snd. simpl.
    by destruct (m b1).
  - intros [x [[i1 s1] b1]] [[i2 s2] b2] (?&?&?). simplify_eq/=.
    unfold replay_receive, mbind, PyM_bind, on_fst, on_snd, conn_receive, reads, updates. simpl.
    destruct x; simpl; [|done]. by destruct i1.
  - intros m [x [[i1 s1] b1]] [[i2 s2] b2] (?&?&?). by simplify_eq/=.
  - done.
  - rewrite E1, E2. simpl. by split_and!.
Qed.

(** *** Metrics *)

Definition last_status (ms : list Message) : Z :=
  fold_left (λ s m, if is_start m then default 200%Z (m_status m) else s) ms 200%Z.

Lemma serve_capturing {B} (app : ASGIApp B) `{!Parametric app} scope inbox (b : B) :
  let r0 := serve app scope inbox b in
  app (Z * (Conn * B))%type (λ A m, on_snd (on_snd m)) scope (on_snd (on_fst conn_receive))
    (send_capturing (λ m, on_fst (conn_send m))) (200%Z, (mkConn inbox [], b)) =
  (fst r0, (last_status (sent r0), snd r0)).
Proof.
  unfold serve, sent.
  destruct (serve_same app (λ (w : Z * (Conn * B)) w', snd w = w' ∧ fst w = last_status (c_sent (fst w')))
    (λ A m, on_snd (on_snd m)) (on_snd (on_fst conn_receive))
    (send_capturing (λ m, on_fst (conn_send m))) scope (200%Z, (mkConn inbox [], b)) (mkConn inbox []) b)
    as (o & [x w1] & c' & b' & E1 & E2 & (?&?)); simpl in *.
  - intros A m [x [c1 b1]] w' [? ?]. simplify_eq/=. unfold on_snd. simpl. by destruct (m b1).
  - intros [x [[i1 s1] b1]] w' [? ?]. simplify_eq/=. unfold on_snd, on_fst, conn_receive. simpl.
    by destruct i1.
  - intros m [x [[i1 s1] b1]] w' [? ?]. simplify_eq/=.
    unfold send_capturing, mbind, PyM_bind, on_fst, on_snd, conn_send, updates. simpl.
    unfold last_status. rewrite fold_left_app. simpl. by destruct (is_start m).
  - done.
  - rewrite E1, E2. by simplify_eq/=.
Qed.

(** Instruments that record what they are given. *)
Inductive measurement :=
| MRequests (v : Q) (labels : list (string * string))
| MLatency (v : Q) (labels : list (string * string))
| MErrors (v : Q) (labels : list (string * string)).

Definition record {V} (x : measurement) : PyM (Ambient (list measurement * V)) unit :=
  on_snd (on_snd (on_snd (on_fst (updates (λ l, l ++ [x]))))).
Definition recording {V} : Instruments (U := list measurement * V) :=
  mkInstruments (λ v l, record (MRequests v l)) (λ v l, record (MLatency v l)) (λ v l, record (MErrors v l)).
Definition clock_of {V} (t : V → Q) : PyM (Ambient (list measurement * V)) Q :=
  reads (λ b, t (snd (snd (snd (snd b))))).

Definition measurements {V} (b : Ambient (list measurement * V)) : list measurement :=
  fst (snd (snd (snd b))).
Definition beside_measurements {V} (b : Ambient (list measurement * V)) :=
  (fst b, (fst (snd b), (fst (snd (snd b)), snd (snd (snd (snd b)))))).

(** *** Rate limit *)

(** The in-memory limiter with its clock, as the process state. *)
Definition local_check (q : Quota) (i : string) : PyM (Ambient (Z * Buckets)) RateLimitResult :=
  on_snd (on_snd (on_snd (λ '(t, bs),
    let '(o, bs') := LocalTokenBucketRateLimiter_check t q i bs in (o, (t, bs'))))).
Definition local_now : PyM (Ambient (Z * Buckets)) Z := reads (λ b, fst (snd (snd (snd b)))).

Lemma int_of_micros (d : Z) : int_of_float (inject_Z d / inject_Z 1000000) = Z.quot d 1000000.
Proof. unfold int_of_float, inject_Z, Qdiv, Qmult, Qinv. simpl. by rewrite Z.mul_1_r. Qed.

Lemma advised_wait t r :
  let n := (int_of_float (retry_after_seconds t r) + 1)%Z in
  (t < rl_reset_at r → rl_reset_at r < t + n * 1000000 <= rl_reset_at r + 1000000)%Z.
Proof.
  intros n Ht. assert (n = Z.quot (rl_reset_at r - t) 1000000 + 1)%Z as ->.
  { unfold n, retry_after_seconds, py_max. f_equal.
    assert (Qltb 0 (inject_Z (rl_reset_at r - t) / inject_Z 1000000) = true) as ->;
      [|apply int_of_micros].
    apply Qltb_lt. unfold inject_Z, Qdiv, Qmult, Qinv, Qlt. simpl. lia. }
  rewrite Z.quot_div_nonneg by lia.
  pose proof (Z.div_mod (rl_reset_at r - t) 1000000). pose proof (Z.mod_pos_bound (rl_reset_at r - t) 1000000).
  lia.
Qed.

(** ** Theorems *)

(** the outer pair of a stack identifies every response: whatever answers below them,
    each response start the server gets carries, after its own headers, the
    correlation id and then the configured security headers, and nothing else of the
    exchange changes.  The id is the one the application finds in the correlation
    context, and it is never empty. *)
Theorem responses_identified {U} (uuid4 : PyM U string) self hs (app : ASGIApp (Ambient U)) scope inbox b i b1 :
  Parametric app →
  str_in (s_type scope) ["http"; "websocket"] = true →
  (∀ u j u', uuid4 u = (Return j, u') → j ≠ "") →
  or_uuid4 uuid4 (resolve_correlation (cm_request_headers self) scope) b = (Return i, b1) →
  let r0 := serve app scope inbox (Some (mkReqCtx i None None None None), snd b1) in
  i ≠ "" ∧
  serve (FastAPISecurityHeadersMiddleware_call hs (FastAPICorrelationIdMiddleware_call uuid4 self app))
    scope inbox b =
  (fst r0, (mkConn (c_inbox (fst (snd r0))) (map (stamp ((cm_response_header self, i) :: hs)) (sent r0)),
             snd (snd r0))).
Proof.
  intros Happ Hs Hu Hi r0. split; [by eapply or_uuid4_nonempty in Hi as [? _]|].
  rewrite serve_security_headers by (done || apply _).
  unfold sent. rewrite (serve_correlation uuid4 self app scope inbox b i b1) by done. simpl.
  by rewrite map_stamp_stamp.
Qed.

(** C25: below the webhook middleware the application runs exactly for requests that the
    sender signed: a body that arrives in any pieces, with a signature header whose text, but for blanks around it, is
    ["sha256="] and the HMAC-SHA256 of the body under the secret in hexadecimal (what
    [WebhookSigner] makes of it), reaches the application as one message, and the answer is that of the application
    alone.  A header that is not UTF-8, or begins with ["sha256="] and has a character that is not
    ASCII, makes the call raise: nothing of the application runs and nothing is sent.
    Any other request is answered with 401 and nothing of the application runs. *)
Theorem webhook_gate {U} fuel secret prefix header (app : ASGIApp (Ambient U)) scope first others rest b :
  Parametric app →
  s_type scope = "http" → startswith prefix (webhook_path scope) = true →
  (length others < fuel)%nat →
  let body := concat (first :: others) in
  let r := serve (FastAPIIncomingWebhookMiddleware_call fuel secret prefix header app)
             scope (chunked first others ++ rest) b in
  let r0 := serve app scope (request_chunk body false :: rest) b in
  match utf8_points (header_bytes header scope) with
  | None => r = (Raise UnicodeDecodeError, (mkConn rest [], b))
  | Some text =>
      let sig := strip_points text in
      (sig = encode ("sha256=" +:+ hexdigest (hmac_sha256 secret body)) →
         fst r = fst r0 ∧ sent r = sent r0 ∧ snd (snd r) = snd (snd r0)) ∧
      (sig ≠ encode ("sha256=" +:+ hexdigest (hmac_sha256 secret body)) →
         if startswith_points (encode "sha256=") sig && negb (points_ascii sig)
         then r = (Raise TypeError_ascii, (mkConn rest [], b))
         else r = (Return tt, (mkConn rest [response_start 401 (json_headers bad_signature);
                                            response_body bad_signature], b)))
  end ∧
  (∀ text, secret = encode text → "sha256=" +:+ hexdigest (hmac_sha256 secret body) = WebhookSigner_sign body text).
Proof.
  intros Happ Ht Hp Hf body r r0. split; [|by intros text ->].
  assert (r = match bytes_decode (header_bytes header scope) with
    | Raise e => (Raise e, (mkConn rest [], b))
    | Return text =>
        match FastAPIIncomingWebhookMiddleware_verify secret body (strip_points text) with
        | Raise e => (Raise e, (mkConn rest [], b))
        | Return false => answer (λ m, on_fst (conn_send m)) 401 (json_headers bad_signature) bad_signature (mkConn rest [], b)
        | Return true => new_cell false
            (app (bool * (Conn * Ambient U))%type (λ A m, on_snd (on_snd m)) scope
               (replay_receive body (on_fst conn_receive)) (λ m, on_snd (on_fst (conn_send m))))
            (mkConn rest [], b)
        end
    end) as ->.
  { unfold r, serve, FastAPIIncomingWebhookMiddleware_call. rewrite Ht, Hp, String.eqb_refl. cbn [negb].
    unfold mbind at 1, PyM_bind at 1. rewrite read_body_chunked by done. cbn [List.app]. fold body.
    unfold mbind, PyM_bind, from_outcome. destruct (bytes_decode _) as [text|e]; [|done].
    by destruct (FastAPIIncomingWebhookMiddleware_verify _ _ _) as [[]|e]. }
  unfold bytes_decode. destruct (utf8_points _) as [text|]; [|done]. rewrite webhook_verify_exact.
  fold (body_signature secret body). cbn zeta. split; intros Hsig.
  - rewrite bool_decide_eq_true_2 by done. by apply serve_replayed.
  - rewrite bool_decide_eq_false_2 by done. by destruct (_ && _).
Qed.

(** the metrics middleware counts every HTTP request once, also when the
    application raises: after whatever the application did, it records one request
    with the status of the last response start (200 if there was none), one latency,
    and one error exactly when that status is 500 or more; outcome, connection and the
    rest of the state are those of the application. *)
Theorem metrics_exact {V} (t : V → Q) (app : ASGIApp (Ambient (list measurement * V))) scope inbox b :
  Parametric app → s_type scope = "http" →
  let r := serve (FastAPIMetricsMiddleware_call (clock_of t) recording app) scope inbox b in
  let r0 := serve app scope inbox b in
  let labels := [("method", default "GET" (s_method scope)); ("path", default "" (s_path scope))] in
  let status := last_status (sent r0) in
  fst r = fst r0 ∧ fst (snd r) = fst (snd r0) ∧
  beside_measurements (snd (snd r)) = beside_measurements (snd (snd r0)) ∧
  ∃ elapsed, measurements (snd (snd r)) = measurements (snd (snd r0)) ++
    [MRequests 1 (labels ++ [("status", str_of_int status)]); MLatency elapsed labels] ++
    (if (500 <=? status)%Z then [MErrors 1 labels] else []).
Proof.
  intros Happ Ht r r0 labels status.
  pose proof (serve_capturing app scope inbox b : _ = (fst r0, (status, snd r0))) as Hcap.
  assert (∃ elapsed, r = (fst r0, (fst (snd r0),
    let '(x, (y, (z, (l, v)))) := snd (snd r0) in
    (x, (y, (z, (l ++ [MRequests 1 (labels ++ [("status", str_of_int status)]); MLatency elapsed labels] ++
                   (if (500 <=? status)%Z then [MErrors 1 labels] else []), v))))))) as [elapsed ->].
  { unfold r, serve, FastAPIMetricsMiddleware_call. rewrite Ht, String.eqb_refl. cbn [negb]. fold labels.
    unfold mbind at 1, PyM_bind at 1, on_snd at 1, clock_of, reads at 1. cbn [fst snd].
    unfold new_cell, try_finally. rewrite Hcap. clearbody status r0.
    destruct r0 as [o [c [x [y [z [l v]]]]]].
    unfold mbind, PyM_bind, on_snd, on_fst, reads, updates, mret, PyM_ret. cbn [fst snd id].
    eexists. destruct (500 <=? status)%Z; cbn; by rewrite <- !app_assoc. }
  clearbody status r0. destruct r0 as [o [c [x [y [z [l v]]]]]]. simpl. eauto.
Qed.

(** over the in-memory limiter, a client that has used its quota gets 429 and the
    application does not run; the number of seconds in Retry-After leads past the end
    of the window but by at most one second, and a request made then, or later, reaches
    the application. *)
Theorem rate_limited_advice q idf (app : ASGIApp (Ambient (Z * Buckets))) scope inbox (x : option RequestContext)
    (y : option string) (z : option Principal) (t : Z) (bs : Buckets) (c t0 : Z) :
  s_type scope = "http" → (0 < quota_limit q)%Z →
  let i := default default_identifier idf scope in
  let limited := FastAPIRateLimitMiddleware_call local_check local_now q idf app in
  bs !! rl_key q i = Some (c, t0) → (quota_limit q <= c)%Z → (t < t0 + window_us q)%Z →
  ∃ n : Z,
    serve limited scope inbox (x, (y, (z, (t, bs)))) =
      (Return tt,
       (mkConn inbox
          [response_start 429 (json_headers (rate_limited_body (str_of_int n)) ++
                                 [("retry-after", str_of_int n)]);
           response_body (rate_limited_body (str_of_int n))],
        (x, (y, (z, (t, bs)))))) ∧
    (t0 + window_us q < t + n * 1000000 <= t0 + window_us q + 1000000)%Z ∧
    ∀ t', (t + n * 1000000 <= t')%Z →
      ∃ bs', serve limited scope inbox (x, (y, (z, (t', bs)))) =
             serve app scope inbox (x, (y, (z, (t', bs')))).
Proof.
  intros Ht Hlim i limited Hb Hc Hw.
  pose proof (check_open q i t t0 c bs Hw Hb) as Hchk. unfold nth_answer in Hchk.
  rewrite !(proj2 (Z.ltb_ge _ _)) in Hchk by done.
  set (res := mkRLResult DENIED 0 (t0 + window_us q) q) in Hchk.
  pose proof (advised_wait t res) as Hadv. simpl in Hadv. specialize (Hadv Hw).
  exists (int_of_float (retry_after_seconds t res) + 1)%Z. split; [|split; [done|]].
  - unfold limited, serve, FastAPIRateLimitMiddleware_call. rewrite Ht, String.eqb_refl. cbn [negb]. fold i.
    unfold mbind at 1, PyM_bind at 1, on_snd at 1, local_check, on_snd. cbn [fst snd]. by rewrite Hchk.
  - intros t' Ht'.
    exists (<[rl_key q i := (1, t')%Z]> bs).
    assert (LocalTokenBucketRateLimiter_check t' q i bs
      = (Return (nth_answer q t' 0), <[rl_key q i := (1, t')%Z]> bs)) as Hok.
    { apply check_fresh; [done|]. unfold no_window. rewrite Hb. lia. }
    unfold limited, serve, FastAPIRateLimitMiddleware_call. rewrite Ht, String.eqb_refl. cbn [negb]. fold i.
    unfold mbind at 1, PyM_bind at 1, on_snd at 1, local_check, on_snd at 1 2 3. cbn [fst snd].
    rewrite Hok. unfold nth_answer. by rewrite (proj2 (Z.ltb_lt _ _)) by done.
Qed.

(** with authentication required, the application runs only for a bearer token for
    which the verifier returns a principal, and it runs with that principal in the
    security context; a missing or blank token, another scheme, a verifier that finds
    none or raises all give 401 without running it. *)
Theorem auth_gate {U} (verify : string → PyM (Ambient U) (option Principal)) (app : ASGIApp (Ambient U)) scope inbox b :
  s_type scope = "http" →
  (∀ tok e b', verify tok b = (Raise e, b') → is_Exception e = true) →
  let r := serve (FastAPISecurityMiddleware_call (Some verify) true app) scope inbox b in
  (∃ tok p b1, bearer_token (header_value "authorization" scope) = Some tok ∧ tok ≠ "" ∧
     verify tok b = (Return (Some p), b1) ∧
     r = serve app scope inbox (fst b1, (fst (snd b1), (Some p, snd (snd (snd b1)))))) ∨
  (∃ b1, (∀ tok p, bearer_token (header_value "authorization" scope) = Some tok → tok ≠ "" →
            fst (verify tok b) ≠ Return (Some p)) ∧
     r = (Return tt, (mkConn inbox [response_start 401 (json_headers unauthorized_body);
                                    response_body unauthorized_body], b1))).
Proof.
  intros Ht Hexn r.
  assert (r = match authenticate (Some verify) scope b with
    | (Return (Some p), b1) => serve app scope inbox (fst b1, (fst (snd b1), (Some p, snd (snd (snd b1)))))
    | (Return None, b1) => (Return tt, (mkConn inbox [response_start 401 (json_headers unauthorized_body);
                                    response_body unauthorized_body], b1))
    | (Raise e, b1) => (Raise e, (mkConn inbox [], b1))
    end) as ->.
  { unfold r, serve at 1, FastAPISecurityMiddleware_call. rewrite Ht, String.eqb_refl. cbn [negb].
    unfold mbind at 1, PyM_bind at 1, on_snd at 1. cbn [fst snd].
    by destruct (authenticate (Some verify) scope b) as [[[p|]|e] b1]. }
  unfold authenticate. destruct (bearer_token _) as [tok|]; [|right; by eexists].
  destruct (String.eqb_spec tok "") as [->|Hne]; [right; eexists; split; [|done]; by intros ? ? [= <-]|].
  unfold try_except, try_base. destruct (verify tok b) as [[[p|]|e] b1] eqn:E.
  - left. exists tok, p, b1. by rewrite E.
  - right. exists b1. split; [|done]. intros tok' p [= <-] _. by rewrite E.
  - rewrite (Hexn _ _ _ E). right. exists b1. split; [|done]. intros tok' p [= <-] _. by rewrite E.
Qed.

(** ** Witnesses *)

Definition demo_uuid4 : PyM unit string := mret "11111111-2222-4333-8444-555555555555".

(** An application that echoes the body of one request and then reads on. *)
Definition demo_echo {B} (status : Z) : Scope → prog B := λ _,
  PReceive (λ o, PSend (response_start status [("x-app", "1")])
    (λ _, PSend (mkMessage "http.response.body" None None
                   (match o with Return m => m_body m | Raise _ => None end) None)
      (λ _, PReceive (λ _, PDone (Return tt))))).

Definition demo_ambient : Ambient unit := (None, (None, (None, tt))).
Definition demo_correlation : FastAPICorrelationIdMiddleware :=
  FastAPICorrelationIdMiddleware_init "X-Correlation-ID" ["X-Request-ID"; "traceparent"].
Definition demo_body : list Z := encode "hi".

Lemma responses_identified_witness :
  sent (serve (FastAPISecurityHeadersMiddleware_call default_security_headers
                 (FastAPICorrelationIdMiddleware_call demo_uuid4 demo_correlation (app_of (demo_echo 200))))
          (http_scope "/x" [("traceparent", "00-abc-def-01")]) [request_chunk demo_body false] demo_ambient)
  = [response_start 200 (("x-app", "1") :: ("x-correlation-id", "abc") :: default_security_headers);
     mkMessage "http.response.body" None None (Some demo_body) None].
Proof.
  pose proof (responses_identified demo_uuid4 demo_correlation default_security_headers
    (app_of (demo_echo 200)) (http_scope "/x" [("traceparent", "00-abc-def-01")])
    [request_chunk demo_body false] demo_ambient "abc" demo_ambient _ eq_refl) as H.
  destruct H as [_ H]; [by intros u j u' [= <- _] | vm_compute; reflexivity |].
  unfold sent at 1. rewrite H. vm_compute. reflexivity.
Defined.

Definition demo_signed : Scope :=
  http_scope "/webhooks/in" [("x-hub-signature-256", WebhookSigner_sign demo_body "s3cret")].

Definition demo_gated : ASGIApp (Ambient unit) :=
  FastAPIIncomingWebhookMiddleware_call 2 (encode "s3cret") "/webhooks" "x-hub-signature-256" (app_of (demo_echo 200)).

Lemma webhook_gate_witness :
  sent (serve demo_gated demo_signed [request_chunk (encode "h") true; request_chunk (encode "i") false] demo_ambient)
    = [response_start 200 [("x-app", "1")]; mkMessage "http.response.body" None None (Some demo_body) None] ∧
  sent (serve demo_gated (http_scope "/webhooks/in" [("x-hub-signature-256", "sha256=00")])
          [request_chunk (encode "h") true; request_chunk (encode "i") false] demo_ambient)
    = [response_start 401 (json_headers bad_signature); response_body bad_signature].
Proof.
  split.
  - pose proof (webhook_gate 2 (encode "s3cret") "/webhooks" "x-hub-signature-256" (app_of (demo_echo 200))
      demo_signed (encode "h") [encode "i"] [] demo_ambient _ eq_refl eq_refl) as H.
    destruct H as [H _]; [simpl; lia|].
    assert (utf8_points (header_bytes "x-hub-signature-256" demo_signed) = Some (encode (WebhookSigner_sign demo_body "s3cret"))) as E
      by (vm_compute; reflexivity).
    rewrite E in H. destruct H as [(_ & H & _) _]; [vm_compute; reflexivity|].
    etransitivity; [exact H | vm_compute; reflexivity].
  - pose proof (webhook_gate 2 (encode "s3cret") "/webhooks" "x-hub-signature-256" (app_of (demo_echo 200))
      (http_scope "/webhooks/in" [("x-hub-signature-256", "sha256=00")]) (encode "h") [encode "i"] [] demo_ambient _ eq_refl eq_refl) as H.
    destruct H as [H _]; [simpl; lia|].
    assert (utf8_points (header_bytes "x-hub-signature-256" (http_scope "/webhooks/in" [("x-hub-signature-256", "sha256=00")])) =
      Some (encode "sha256=00")) as E by (vm_compute; reflexivity).
    rewrite E in H. destruct H as [_ H]. specialize (H ltac:(vm_compute; discriminate)).
    unfold sent, demo_gated. etransitivity; [refine (f_equal (λ r, c_sent (fst (snd r))) H) | reflexivity].
Defined.

Lemma metrics_exact_witness :
  ∃ elapsed, measurements (snd (snd (serve (FastAPIMetricsMiddleware_call (clock_of (λ _ : unit, 0)) recording
      (app_of (demo_echo 503))) (http_scope "/x" []) [] (None, (None, (None, ([], tt)))))))
  = [MRequests 1 [("method", "POST"); ("path", "/x"); ("status", "503")];
     MLatency elapsed [("method", "POST"); ("path", "/x")]; MErrors 1 [("method", "POST"); ("path", "/x")]].
Proof.
  destruct (metrics_exact (λ _ : unit, 0) (app_of (demo_echo 503)) (http_scope "/x" []) []
    (None, (None, (None, ([], tt)))) _ eq_refl) as (_ & _ & _ & elapsed & H).
  exists elapsed. rewrite H. vm_compute. reflexivity.
Defined.

Lemma rate_limited_advice_witness :
  ∃ n : Z, sent (serve (FastAPIRateLimitMiddleware_call local_check local_now quota0 None (app_of (demo_echo 200)))
      (http_scope "/x" []) [] (None, (None, (None, (1500000%Z, {["api:10.0.0.1" := (2, 0)%Z]})))))
    = [response_start 429 (json_headers (rate_limited_body (str_of_int n)) ++ [("retry-after", str_of_int n)]);
       response_body (rate_limited_body (str_of_int n))] ∧
    (60000000 < 1500000 + n * 1000000 <= 61000000)%Z.
Proof.
  destruct (rate_limited_advice quota0 None (app_of (demo_echo 200)) (http_scope "/x" []) [] None None None
    1500000 {["api:10.0.0.1" := (2, 0)%Z]} 2 0) as (n & H & Hn & _).
  - reflexivity.
  - vm_compute. reflexivity.
  - vm_compute. reflexivity.
  - vm_compute. discriminate.
  - vm_compute. reflexivity.
  - exists n. rewrite H. split; [reflexivity | exact Hn].
Defined.

Definition demo_verify (tok : string) : PyM (Ambient unit) (option Principal) :=
  if String.eqb tok "good" then mret (Some (mkPrincipal "alice" None ∅ ∅ ∅ false)) else mret None.

Lemma auth_gate_witness :
  sent (serve (FastAPISecurityMiddleware_call (Some demo_verify) true (app_of (demo_echo 200)))
          (http_scope "/x" [("authorization", "Bearer bad")]) [] demo_ambient)
  = [response_start 401 (json_headers unauthorized_body); response_body unauthorized_body].
Proof.
  destruct (auth_gate demo_verify (app_of (demo_echo 200))
    (http_scope "/x" [("authorization", "Bearer bad")]) [] demo_ambient eq_refl)
    as [(tok & p & b1 & Htok & _ & Hv & _)|(b1 & _ & H)].
  - intros tok e b'. unfold demo_verify. by destruct (tok =? "good")%string.
  - vm_compute in Htok. injection Htok as <-. vm_compute in Hv. discriminate.
  - rewrite H. reflexivity.
Defined.
