(* ===== verification/FastApi.v ===== *)
(** * Error mapping, OpenAPI helpers and readiness of the FastAPI adapter

    [adapters/fastapi/exception_mapper.py], [deps.py], [routers.py] and
    [BaseError.to_dict].  A class is its MRO; two classes of one name (there are three
    [TimeoutError]s) are told apart by their bases.  How Starlette picks a handler is
    not code of the repository: it is an argument, with its documented behaviour (the
    handler of the nearest class of the MRO) as a hypothesis. *)
From S2P Require Import Prelude PyString OrderedDict PyValue Errors Observability.

(** ** [to_dict] *)

Definition attr_code (e : pyexn) : string := default "" (od_get "code" (exn_attrs e)).

(** Attributes that are not strings ([detail], [errors]) are read by [attr]; [repr] is
    that of the cause. *)
Definition BaseError_to_dict (attr : pyexn → string → pyval) (repr : pyexn → string) (e : pyexn)
    : list (string * pyval) :=
  let payload := [("code", VStr (attr_code e)); ("message", VStr (exn_msg e)); ("detail", attr e "detail")] in
  match exn_causes e with
  | c :: _ => od_set "cause" (VStr (repr c)) payload
  | [] => payload
  end.

Definition ValidationError_to_dict (attr : pyexn → string → pyval) (repr : pyexn → string) (e : pyexn)
    : list (string * pyval) :=
  od_set "errors" (attr e "errors") (BaseError_to_dict attr repr e).

(** ** The exception mapper *)

Definition base_chain : list string := ["BaseError"; "Exception"; "BaseException"].
Definition domain_chain : list string := "DomainError" :: base_chain.
Definition application_chain : list string := "ApplicationError" :: base_chain.
Definition infrastructure_chain : list string := "InfrastructureError" :: base_chain.

(** [self._map]. *)
Definition FastAPIExceptionMapper_map : list (list string * Z) :=
  [("ValidationError" :: domain_chain, 400%Z);
   ("NotFoundError" :: domain_chain, 404%Z);
   ("ConflictError" :: domain_chain, 409%Z);
   ("UnauthorizedError" :: application_chain, 401%Z);
   ("ForbiddenError" :: application_chain, 403%Z);
   ("RateLimitError" :: application_chain, 429%Z);
   ("TimeoutError" :: application_chain, 504%Z);
   (infrastructure_chain, 503%Z);
   (domain_chain, 422%Z)].

(** [issubclass] of classes given by their MROs (single inheritance). *)
Definition subclass (mro cls : list string) : bool := bool_decide (cls `suffix_of` mro).

Record JSONResponse := mkJSONResponse { jr_status : Z; jr_content : list (string * pyval) }.

(** The closure that [make_handler] returns. *)
Definition error_handler (attr : pyexn → string → pyval) (repr : pyexn → string) (code : Z)
    (ctx : option RequestContext) (exc : pyexn) : JSONResponse :=
  let correlation_id := match ctx with Some c => VStr (rc_correlation_id c) | None => VNone end in
  let body :=
    if subclass (exn_mro exc) base_chain then
      if subclass (exn_mro exc) ("ValidationError" :: domain_chain)
      then ValidationError_to_dict attr repr exc else BaseError_to_dict attr repr exc
    else [("code", VStr "error"); ("message", VStr (exn_msg exc))] in
  mkJSONResponse code (od_set "correlation_id" correlation_id body).

(** A handler: what it answers, in the context of a request, to an exception. *)
Definition ErrorHandler : Type := option RequestContext → pyexn → JSONResponse.

(** [register]: [app.add_exception_handler] once per entry, each with a closure of its own. *)
Definition FastAPIExceptionMapper_register (attr : pyexn → string → pyval) (repr : pyexn → string)
    (handlers : list (list string * ErrorHandler)) : list (list string * ErrorHandler) :=
  fold_left (λ h '(cls, status), od_set cls (error_handler attr repr status) h) FastAPIExceptionMapper_map handlers.

(** ** OpenAPI helpers *)

Definition code_for_status (status : Z) : string :=
  match status with
  | 400 => "validation_error" | 401 => "unauthorized" | 403 => "forbidden" | 404 => "not_found"
  | 409 => "conflict" | 422 => "domain_error" | 429 => "rate_limit_exceeded" | 500 => "internal_error"
  | 503 => "service_unavailable" | 504 => "timeout" | _ => "error"
  end%Z.

Definition status_description (status : Z) : string :=
  match status with
  | 400 => "Validation error" | 401 => "Unauthorized" | 403 => "Forbidden" | 404 => "Resource not found"
  | 409 => "Conflict" | 422 => "Domain rule violated" | 429 => "Rate limit exceeded"
  | 500 => "Internal server error" | 503 => "Service unavailable" | 504 => "Upstream timeout" | _ => "Error"
  end%Z.

Definition error_schema : pyval :=
  VDict [("type", VStr "object");
         ("properties", VDict [("code", VDict [("type", VStr "string")]);
                               ("message", VDict [("type", VStr "string")]);
                               ("correlation_id", VDict [("type", VStr "string"); ("nullable", VBool true)])]);
         ("required", VList [VStr "code"; VStr "message"])].

Definition error_response (code : Z) : pyval :=
  VDict [("description", VStr (status_description code));
         ("content", VDict [("application/json", VDict
            [("schema", error_schema);
             ("example", VDict [("code", VStr (code_for_status code));
                                ("message", VStr (status_description code));
                                ("correlation_id", VStr "00000000-0000-0000-0000-000000000000")])])])].

Definition error_responses (codes : list Z) : list (string * pyval) :=
  fold_left (λ result code, od_set (str_of_int code) (error_response code) result) codes [].

(** ** Readiness *)

Section Readiness.
Context {W : Type}.

(** A check: its [__name__] and what awaiting it gives. *)
Fixpoint readiness_loop (checks : list (string * PyM W bool)) (results : list (string * bool)) (all_ok : bool)
    : PyM W (list (string * bool) * bool) :=
  match checks with
  | [] => mret (results, all_ok)
  | (name, check) :: rest =>
      ok ← try_except check (λ _, mret false);
      readiness_loop rest (od_set name ok results) (if negb ok then false else all_ok)
  end.

Definition readiness (checks : list (string * PyM W bool)) : PyM W JSONResponse :=
  '(results, all_ok) ← readiness_loop checks [] true;
  let status_code := if (all_ok : bool) then 200%Z else 503%Z in
  mret (mkJSONResponse status_code
    [("status", VStr (if all_ok then "ok" else "degraded"));
     ("checks", VDict (map (λ '(n, ok), (n, VBool ok)) results))]).

End Readiness.

(** ** Lemmas *)

(** The handler of the nearest class of an MRO. *)
Fixpoint nearest {H : Type} (handlers : list (list string * H)) (mro : list string) : option H :=
  match od_get mro handlers with
  | Some h => Some h
  | None => match mro with [] => None | _ :: bases => nearest handlers bases end
  end.

(** The first entry of [_map] that the exception is an instance of. *)
Definition first_mapped (table : list (list string * Z)) (mro : list string) : option Z :=
  snd <$> head (filter (λ e, subclass mro (fst e) = true) table).

Lemma subclass_cons x mro cls : cls ≠ x :: mro → subclass (x :: mro) cls = subclass mro cls.
Proof.
  intros Hne. apply bool_decide_ext. split; [|apply suffix_cons_r].
  intros [[|y p] Hp]; simplify_eq/=. by exists p.
Qed.

Lemma first_match_cons x mro table :
  od_get (x :: mro) table = None → first_mapped table (x :: mro) = first_mapped table mro.
Proof.
  intros Hno. unfold first_mapped. do 2 f_equal. apply od_get_None in Hno.
  induction table as [|[cls s] table IH]; [done|].
  rewrite fmap_cons, not_elem_of_cons in Hno. destruct Hno as [Hc Hno].
  rewrite !filter_cons. simpl in *. rewrite subclass_cons by congruence.
  destruct (decide _); [f_equal|]; auto.
Qed.

Lemma nearest_first_match mro :
  nearest FastAPIExceptionMapper_map mro = first_mapped FastAPIExceptionMapper_map mro.
Proof.
  induction mro as [|x mro IH]; [done|]. cbn [nearest].
  destruct (od_get (x :: mro) FastAPIExceptionMapper_map) as [s|] eqn:E.
  - apply od_get_elem in E. revert E. unfold FastAPIExceptionMapper_map at 1.
    rewrite !elem_of_cons, elem_of_nil. intros H. destruct_or! H; try done; injection H as -> -> ->; reflexivity.
  - rewrite IH. symmetry. by apply first_match_cons.
Qed.

Lemma registered attr repr :
  FastAPIExceptionMapper_register attr repr [] =
    map (λ e, (fst e, error_handler attr repr (snd e))) FastAPIExceptionMapper_map.
Proof. reflexivity. Qed.

Lemma nearest_map {H K} (f : H → K) (table : list (list string * H)) mro :
  nearest (map (λ e, (fst e, f (snd e))) table) mro = f <$> nearest table mro.
Proof.
  assert (Hget : ∀ k, od_get k (map (λ e, (fst e, f (snd e))) table) = f <$> od_get k table).
  { intros k. induction table as [|[k' v] table IH]; [done|]. simpl. by case_decide. }
  induction mro as [|x mro IH]; simpl; rewrite Hget; [by destruct (od_get [] table)|]. destruct (od_get (x :: mro) table); [done | exact IH].
Qed.

Lemma nearest_elem {H} (table : list (list string * H)) mro h :
  nearest table mro = Some h → ∃ cls, cls `suffix_of` mro ∧ (cls, h) ∈ table.
Proof.
  induction mro as [|x mro IH]; simpl.
  - destruct (od_get [] table) as [h'|] eqn:E; [|done]. intros [= ->]. exists []. split; [done | by apply od_get_elem].
  - destruct (od_get (x :: mro) table) as [h'|] eqn:E.
    + intros [= ->]. exists (x :: mro). split; [done | by apply od_get_elem].
    + intros (cls & Hs & Hin)%IH. exists cls. split; [by apply suffix_cons_r | done].
Qed.

(** The mappings the documentation of the class lists. *)
Definition documented_statuses : list (list string * Z) :=
  [(domain_chain, 422%Z);
   ("ValidationError" :: domain_chain, 400%Z);
   ("NotFoundError" :: domain_chain, 404%Z);
   ("ConflictError" :: domain_chain, 409%Z);
   ("UnauthorizedError" :: application_chain, 401%Z);
   ("ForbiddenError" :: application_chain, 403%Z);
   ("RateLimitError" :: application_chain, 429%Z);
   ("TimeoutError" :: application_chain, 504%Z);
   (infrastructure_chain, 503%Z)].

Lemma nearest_documented mro : nearest FastAPIExceptionMapper_map mro = nearest documented_statuses mro.
Proof.
  assert (Hget : ∀ k, od_get k FastAPIExceptionMapper_map = od_get k documented_statuses).
  { intros k. apply option_eq. intros v.
    assert (Hin : ∀ t : list (list string * Z), NoDup t.*1 → od_get k t = Some v ↔ (k, v) ∈ t).
    { intros t Ht. split; [apply od_get_elem | by apply od_get_NoDup]. }
    rewrite !Hin by (apply (bool_decide_unpack _); vm_compute; reflexivity).
    unfold FastAPIExceptionMapper_map, documented_statuses. rewrite !elem_of_cons. tauto. }
  induction mro as [|x mro IH]; cbn [nearest]; rewrite Hget; [done|]. by rewrite IH.
Qed.

Lemma error_body attr repr code ctx e :
  base_chain `suffix_of` exn_mro e →
  let body := jr_content (error_handler attr repr code ctx e) in
  od_get "code" body = Some (VStr (attr_code e)) ∧ od_get "message" body = Some (VStr (exn_msg e)) ∧
  od_get "detail" body = Some (attr e "detail") ∧
  (subclass (exn_mro e) ("ValidationError" :: domain_chain) = true → od_get "errors" body = Some (attr e "errors")) ∧
  od_get "correlation_id" body = Some (match ctx with Some c => VStr (rc_correlation_id c) | None => VNone end).
Proof.
  intros Hbase. unfold error_handler. simpl jr_content.
  assert (subclass (exn_mro e) base_chain = true) as -> by by apply bool_decide_eq_true.
  unfold ValidationError_to_dict, BaseError_to_dict.
  destruct (subclass _ _), (exn_causes e); split_and!; try done;
    repeat (rewrite od_get_set_ne by done); rewrite ?od_get_set_eq; done.
Qed.

Section ReadinessLemmas.
Context {W : Type}.

(** What a check counts for: its answer, or false when it raises an [Exception]. *)
Definition check_ok (o : outcome bool) : bool := match o with Return b => b | Raise _ => false end.

(** Checks that read one script and raise nothing but [Exception]s. *)
Definition scripted_ready (script : string → outcome bool) (name : string) : string * PyM W bool :=
  (name, from_outcome (script name)).

Lemma readiness_loop_scripted script names results all_ok (w : W) :
  (∀ n e, script n = Raise e → is_Exception e = true) →
  readiness_loop (map (scripted_ready script) names) results all_ok w =
    (Return (fold_left (λ r n, od_set n (check_ok (script n)) r) names results,
             all_ok && forallb (λ n, check_ok (script n)) names), w).
Proof.
  intros Hexn. revert results all_ok. induction names as [|n names IH]; intros results all_ok; simpl.
  { by rewrite andb_true_r. }
  unfold mbind at 1, PyM_bind at 1, try_except, try_base, from_outcome.
  destruct (script n) as [b|e] eqn:E; simpl.
  - rewrite IH. do 3 f_equal. by destruct b, all_ok.
  - rewrite (Hexn _ _ E). unfold mret, PyM_ret. rewrite IH. by destruct all_ok.
Qed.

End ReadinessLemmas.

(** ** Theorems *)

(** with Starlette's rule that the handler of the nearest class of the MRO answers, an
    exception gets the status of the first entry of the mapper's list it is an instance
    of: the list is ordered from specific to general, and registration loses no entry. *)
Theorem mapper_order attr repr ctx (lookup : list (list string * ErrorHandler) → pyexn → option ErrorHandler) :
  (∀ handlers exc, lookup handlers exc = nearest handlers (exn_mro exc)) →
  ∀ exc, (λ h : ErrorHandler, jr_status (h ctx exc)) <$> lookup (FastAPIExceptionMapper_register attr repr []) exc =
    first_mapped FastAPIExceptionMapper_map (exn_mro exc).
Proof.
  intros Hlaw exc. rewrite Hlaw, registered, nearest_map, <- nearest_first_match.
  by destruct (nearest FastAPIExceptionMapper_map (exn_mro exc)).
Qed.

(** C29: on an application with the mapper registered and nothing else, under Starlette's rule that the handler of the
    nearest class of the MRO answers: an exception is answered with the status the
    documentation lists for the nearest of its classes and not handled when it lists none, in particular each
    error class of the library with the status below (none for [BulkheadFullError]); and
    whatever is answered carries the code and the message of the exception, its detail, for a validation error
    its errors, and the correlation id of the request. *)
Theorem error_answers attr repr ctx (lookup : list (list string * ErrorHandler) → pyexn → option ErrorHandler) :
  (∀ handlers exc, lookup handlers exc = nearest handlers (exn_mro exc)) →
  let answer e := (λ h : ErrorHandler, h ctx e) <$> lookup (FastAPIExceptionMapper_register attr repr []) e in
  (∀ e, jr_status <$> answer e = nearest documented_statuses (exn_mro e)) ∧
  (∀ msg name id cause, map (λ e, jr_status <$> answer e)
     [ValidationError msg; NotFoundError name id; ConflictError msg; InvariantViolationError msg;
      UnauthorizedError msg; ForbiddenError msg; RateLimitError msg; AppTimeoutError msg; BulkheadFullError msg;
      InfraConnectionError name cause; InfrastructureTimeoutError msg; SerializationError msg;
      ExternalServiceError name cause; CircuitOpenError name; exn_of ["ValueError"] msg] =
     [Some 400; Some 404; Some 409; Some 422; Some 401; Some 403; Some 429; Some 504; None;
      Some 503; Some 503; Some 503; Some 503; Some 503; None]%Z) ∧
  ∀ e r, answer e = Some r →
    let body := jr_content r in
    od_get "code" body = Some (VStr (attr_code e)) ∧ od_get "message" body = Some (VStr (exn_msg e)) ∧
    od_get "detail" body = Some (attr e "detail") ∧
    (subclass (exn_mro e) ("ValidationError" :: domain_chain) = true → od_get "errors" body = Some (attr e "errors")) ∧
    od_get "correlation_id" body =
      Some (match ctx with Some c => VStr (rc_correlation_id c) | None => VNone end).
Proof.
  intros Hlaw answer.
  assert (Hanswer : ∀ e, answer e = (λ st, error_handler attr repr st ctx e) <$> nearest documented_statuses (exn_mro e)).
  { intros e. unfold answer. rewrite Hlaw, registered, nearest_map, nearest_documented. by destruct (nearest _ _). }
  assert (Hstatus : ∀ e, jr_status <$> answer e = nearest documented_statuses (exn_mro e)).
  { intros e. rewrite Hanswer. by destruct (nearest _ _). }
  split_and!; [done | |].
  - intros msg name id cause. rewrite (map_ext _ _ Hstatus). reflexivity.
  - intros e r. rewrite Hanswer. destruct (nearest _ _) as [st|] eqn:E; [|done]. intros [= <-]. apply error_body.
    apply nearest_elem in E as (cls & Hs & Hin). etransitivity; [|exact Hs]. clear -Hin. unfold documented_statuses in Hin.
    rewrite !elem_of_cons, elem_of_nil in Hin. destruct_or! Hin; try done; injection Hin as -> _; by apply (bool_decide_unpack _).
Qed.

(** the OpenAPI helper documents the codes that domain and application errors carry,
    but for status 503 it documents service_unavailable, which no infrastructure error
    of the library carries. *)
Theorem documented_codes msg name id :
  code_for_status 400 = attr_code (ValidationError msg) ∧
  code_for_status 404 = attr_code (NotFoundError name id) ∧
  code_for_status 409 = attr_code (ConflictError msg) ∧
  code_for_status 401 = attr_code (UnauthorizedError msg) ∧
  code_for_status 403 = attr_code (ForbiddenError msg) ∧
  code_for_status 429 = attr_code (RateLimitError msg) ∧
  code_for_status 504 = attr_code (AppTimeoutError msg) ∧
  Forall (λ e, attr_code e ≠ code_for_status 503 ∧
               first_mapped FastAPIExceptionMapper_map (exn_mro e) = Some 503%Z)
    [InfraConnectionError name id; InfrastructureTimeoutError msg; SerializationError msg;
     ExternalServiceError name id; CircuitOpenError name].
Proof. split_and!; [reflexivity..|]. repeat constructor; by vm_compute. Qed.

(** readiness is 200 exactly when every check answered true; a check that raises
    counts as false and does not stop the others, and checks that share a name do not
    hide a failure. *)
Theorem readiness_exact {W} script names (w : W) :
  (∀ n e, script n = Raise e → is_Exception e = true) →
  ∃ r, readiness (map (scripted_ready script) names) w = (Return r, w) ∧
    (jr_status r = 200%Z ↔ ∀ n, n ∈ names → script n = Return true) ∧
    (jr_status r = 200%Z ∨ jr_status r = 503%Z).
Proof.
  intros Hexn. unfold readiness, mbind, PyM_bind. rewrite readiness_loop_scripted by done.
  eexists. split; [done|]. cbn [andb jr_status].
  assert (forallb (λ n, check_ok (script n)) names = true ↔ ∀ n, n ∈ names → script n = Return true) as Hall.
  { rewrite forallb_forall. split; intros H n Hn.
    - specialize (H n (proj1 (list_elem_of_In _ _) Hn)). destruct (script n) as [[]|]; done.
    - by rewrite (H n (proj2 (list_elem_of_In _ _) Hn)). }
  rewrite <- Hall. destruct (forallb _ names); split; try tauto. split; [done|]. intros; discriminate.
Qed.

(** ** Witnesses *)

Definition demo_lookup (handlers : list (list string * ErrorHandler)) (e : pyexn) : option ErrorHandler :=
  nearest handlers (exn_mro e).

Lemma mapper_order_witness :
  (λ h : ErrorHandler, jr_status (h None (CircuitOpenError "db"))) <$>
    demo_lookup (FastAPIExceptionMapper_register (λ _ _, VNone) exn_msg []) (CircuitOpenError "db") = Some 503%Z.
Proof.
  etransitivity; [exact (mapper_order (λ _ _, VNone) exn_msg None demo_lookup (λ _ _, eq_refl) (CircuitOpenError "db"))|].
  vm_compute. reflexivity.
Defined.

Lemma error_answers_witness :
  (λ h : ErrorHandler, jr_status (h None (NotFoundError "Order" None))) <$>
    demo_lookup (FastAPIExceptionMapper_register (λ _ _, VNone) exn_msg []) (NotFoundError "Order" None) = Some 404%Z.
Proof.
  destruct (error_answers (λ _ _, VNone) exn_msg None demo_lookup (λ _ _, eq_refl)) as (H & _).
  specialize (H (NotFoundError "Order" None)). etransitivity; [|exact H]. reflexivity.
Defined.

Definition demo_ready (n : string) : outcome bool :=
  if String.eqb n "db" then Return true else Raise (ValueError "down").

Lemma readiness_exact_witness :
  ∃ r, readiness (map (scripted_ready demo_ready) ["db"; "cache"]) tt = (Return r, tt) ∧ jr_status r = 503%Z.
Proof.
  destruct (readiness_exact demo_ready ["db"; "cache"] tt) as (r & Hr & _ & Hst).
  - intros n e. unfold demo_ready. destruct (String.eqb n "db"); [done|]. intros [= <-]. reflexivity.
  - exists r. split; [exact Hr|]. vm_compute in Hr. injection Hr as <-. reflexivity.
Defined.
