(* ===== verification/RedisAdapters.v ===== *)
(** * The Redis adapters

    [adapters/redis/cache.py], [lock.py], [rate_limiter.py], [idempotency.py].  The
    server is a type with the commands the adapters send ([RedisStore]) and what they do
    to the keys ([RedisStoreSpec], in terms of the value and the time each key has left);
    [SimStore] is a server that meets it.  Time is in milliseconds.  The documents of the
    idempotency store are JSON objects of three fields and are kept decoded. *)
From S2P Require Import Prelude PyString Errors RateLimit Pipeline Asgi.

(** ** The server, as an interface *)

Inductive stored :=
| SStr (s : string)
| SInt (n : Z)
| SDoc (key : string) (response : option string) (status : string).

Class RedisStore (R : Type) := {
  rs_get : string → R → option stored;
  rs_set : string → stored → option Z → R → R;
  rs_set_nx : string → stored → Z → R → bool * R;
  rs_del : string → R → R;
  rs_incr : string → R → outcome Z * R;
  rs_expire : string → Z → R → R;
  rs_wait : Z → R → R;
}.

(** What is left of a key after some time. *)
Definition age_entry (d : Z) (e : stored * option Z) : option (stored * option Z) :=
  match snd e with
  | None => Some e
  | Some t => if (d <? t)%Z then Some (fst e, Some (t - d)%Z) else None
  end.

(** Answer to an INCR of a value that is not a counter. *)
Definition IncrError : pyexn :=
  exn_of ["ResponseError"; "RedisError"] "value is not an integer or out of range".

Class RedisStoreSpec (R : Type) `{RedisStore R} := {
  rs_view : R → gmap string (stored * option Z);
  rs_get_view k r : rs_get k r = fst <$> rs_view r !! k;
  rs_set_view k v px r : rs_view (rs_set k v px r) = <[k := (v, px)]> (rs_view r);
  rs_set_nx_view k v px r : (0 < px)%Z →
    rs_set_nx k v px r =
      match rs_view r !! k with
      | Some _ => (false, r)
      | None => (true, rs_set k v (Some px) r)
      end;
  rs_del_view k r : rs_view (rs_del k r) = delete k (rs_view r);
  rs_incr_view k r :
    match rs_view r !! k with
    | None => ∃ r', rs_incr k r = (Return 1%Z, r') ∧ rs_view r' = <[k := (SInt 1, None)]> (rs_view r)
    | Some (SInt n, t) =>
        ∃ r', rs_incr k r = (Return (n + 1)%Z, r') ∧ rs_view r' = <[k := (SInt (n + 1), t)]> (rs_view r)
    | Some _ => rs_incr k r = (Raise IncrError, r)
    end;
  rs_expire_view k ms r :
    rs_view (rs_expire k ms r) =
      match rs_view r !! k with
      | None => rs_view r
      | Some (v, _) => if (0 <? ms)%Z then <[k := (v, Some ms)]> (rs_view r) else delete k (rs_view r)
      end;
  rs_wait_view d r : (0 <= d)%Z → rs_view (rs_wait d r) = omap (age_entry d) (rs_view r);
}.

(** ** The adapters *)

Section Adapters.
Context {R W : Type} `{RedisStore R}.
#[local] Abbreviation St := (R * W)%type.

(** *** [RedisCache] *)

Definition RedisCache_get (key : string) : PyM St (option stored) := on_fst (reads (rs_get key)).
Definition RedisCache_set (key : string) (value : stored) (ttl : option Z) : PyM St unit :=
  on_fst (updates (rs_set key value ((λ s, s * 1000)%Z <$> ttl))).
Definition RedisCache_delete (key : string) : PyM St unit := on_fst (updates (rs_del key)).
Definition RedisCache_exists (key : string) : PyM St bool :=
  on_fst (reads (λ r, match rs_get key r with Some _ => true | None => false end)).

(** *** [RedisLock] *)

Record RedisLock := mkLock { lk_name : string; lk_ttl_ms : Z }.

Definition RedisLock_init (name : string) (ttl_ms : Z) : RedisLock := mkLock ("lock:" +:+ name) ttl_ms.

(** [self._token] is the first component of the state. *)
Definition RedisLock_acquire (uuid4 : PyM W string) (lk : RedisLock) : PyM (option string * St) bool :=
  token ← on_snd (on_snd uuid4);
  result ← on_snd (on_fst (λ r, let '(b, r') := rs_set_nx (lk_name lk) (SStr token) (lk_ttl_ms lk) r in
                               (Return b, r')));
  if (result : bool) then on_fst (updates (λ _, Some token)) ;; mret true else mret false.

(** The script: delete the key if it still holds the token. *)
Definition lua_release (key token : string) : PyM R Z := λ r,
  match rs_get key r with
  | Some (SStr t) => if String.eqb t token then (Return 1%Z, rs_del key r) else (Return 0%Z, r)
  | _ => (Return 0%Z, r)
  end.

Definition RedisLock_release (lk : RedisLock) : PyM (option string * St) unit :=
  token ← on_fst (reads id);
  match token with
  | None => mret tt
  | Some t => on_snd (on_fst (lua_release (lk_name lk) t)) ;; on_fst (updates (λ _, None))
  end.

(** [async with lock: body]. *)
Definition RedisLock_with {A} (uuid4 : PyM W string) (lk : RedisLock) (body : PyM (option string * St) A)
    : PyM (option string * St) A :=
  acquired ← RedisLock_acquire uuid4 lk;
  if negb acquired then raise (ConflictError ("Could not acquire lock '" +:+ lk_name lk +:+ "'"))
  else try_finally body (RedisLock_release lk).

(** *** [RedisRateLimiter] *)

Definition redis_rl_key (q : Quota) (identifier : string) : string :=
  "rl:" +:+ quota_key q +:+ ":" +:+ identifier.

(** The transaction runs both commands; an error of the first is raised at the end. *)
Definition incr_expire (key : string) (seconds : Z) : PyM R Z := λ r,
  let '(count, r1) := rs_incr key r in (count, rs_expire key (seconds * 1000) r1).

Definition RedisRateLimiter_check (utcnow : W → Z) (q : Quota) (identifier : string)
    : PyM St RateLimitResult :=
  count ← on_fst (incr_expire (redis_rl_key q identifier) (quota_window_seconds q));
  now ← on_snd (reads utcnow);
  mret (mkRLResult (if (count <=? quota_limit q)%Z then ALLOWED else DENIED)
          (Z.max 0 (quota_limit q - count)) now q).

Definition RedisRateLimiter_reset (q : Quota) (identifier : string) : PyM St unit :=
  RedisCache_delete (redis_rl_key q identifier).

(** *** [RedisIdempotencyStore] *)

Definition idempotency_key (k : IdempotencyKey) : string := "idempotency:" +:+ IdempotencyKey_str k.

(** [IdempotencyRecord( **json.loads(raw))]; values of other shapes are not objects. *)
Definition RedisIdempotencyStore_get (utcnow : W → Z) (k : IdempotencyKey)
    : PyM St (option IdempotencyRecord) :=
  raw ← RedisCache_get (idempotency_key k);
  match raw with
  | None => mret None
  | Some (SDoc key response status) =>
      now ← on_snd (reads utcnow);
      mret (Some (mkIRecord key response status now None))
  | Some _ => raise (TypeError "argument after ** must be a mapping")
  end.

Definition RedisIdempotencyStore_save (default_ttl : Z) (k : IdempotencyKey) (r : IdempotencyRecord)
    : PyM St unit :=
  RedisCache_set (idempotency_key k) (SDoc (idr_key r) None (idr_status r)) (Some default_ttl).

Definition RedisIdempotencyStore_complete (utcnow : W → Z) (default_ttl : Z) (k : IdempotencyKey)
    (response : string) : PyM St unit :=
  record ← RedisIdempotencyStore_get utcnow k;
  match record with
  | None => mret tt
  | Some r =>
      RedisCache_set (idempotency_key k) (SDoc (idr_key r) (Some response) "COMPLETED") (Some default_ttl)
  end.

End Adapters.

(** ** A server *)

Abbreviation SimStore := (gmap string (stored * option Z)).

#[export] Instance SimStore_RedisStore : RedisStore SimStore := {
  rs_get k r := fst <$> r !! k;
  rs_set k v px r := <[k := (v, px)]> r;
  rs_set_nx k v px r := match r !! k with Some _ => (false, r) | None => (true, <[k := (v, Some px)]> r) end;
  rs_del k r := delete k r;
  rs_incr k r := match r !! k with
    | None => (Return 1%Z, <[k := (SInt 1, None)]> r)
    | Some (SInt n, t) => (Return (n + 1)%Z, <[k := (SInt (n + 1), t)]> r)
    | Some _ => (Raise IncrError, r)
    end;
  rs_expire k ms r := match r !! k with
    | None => r
    | Some (v, _) => if (0 <? ms)%Z then <[k := (v, Some ms)]> r else delete k r
    end;
  rs_wait d r := omap (age_entry d) r;
}.

#[export] Instance SimStore_RedisStoreSpec : RedisStoreSpec SimStore.
Proof.
  refine {| rs_view := id |}; try done; intros k r; unfold id; simpl;
    destruct (r !! k) as [[[] t]|] eqn:E; rewrite ?E; try done; eauto.
Defined.

(** ** Lemmas: the idempotency store *)

(** The part of a key space under a prefix. *)
Definition unprefix (p k : string) : option string :=
  if startswith p k then Some (String.substring (String.length p) (String.length k - String.length p) k)
  else None.

Definition keyed {A} (p : string) (m : gmap string A) : gmap string A :=
  map_fold (λ k v acc, match unprefix p k with Some s => <[s := v]> acc | None => acc end) ∅ m.

Lemma unprefix_spec p k s : unprefix p k = Some s ↔ k = p +:+ s.
Proof.
  unfold unprefix. destruct (startswith p k) eqn:E.
  - apply startswith_spec in E as [r ->]. rewrite length_app_str.
    replace (String.length p + String.length r - String.length p)%nat with (String.length r) by lia.
    rewrite substring_drop. split; [intros [= ->]; done|]. intros Heq. f_equal. by apply app_inj_l_str in Heq.
  - split; [done|]. intros ->. apply not_true_iff_false in E. destruct E. apply startswith_spec. eauto.
Qed.

Lemma lookup_keyed {A} p (m : gmap string A) s : keyed p m !! s = m !! (p +:+ s).
Proof.
  revert s. unfold keyed.
  apply (map_fold_weak_ind (λ (acc m : gmap string A), ∀ s, acc !! s = m !! (p +:+ s))).
  { intros s. by rewrite !lookup_empty. }
  intros k v m' acc Hk IH s. destruct (unprefix p k) as [t|] eqn:E.
  - apply unprefix_spec in E as ->. destruct (decide (t = s)) as [->|Hne].
    + by rewrite !lookup_insert_eq.
    + rewrite !lookup_insert_ne; [apply IH | | done].
      intros Heq. by apply app_inj_l_str in Heq.
  - rewrite lookup_insert_ne; [apply IH|]. intros ->.
    pose proof (proj2 (unprefix_spec p (p +:+ s) s) eq_refl). congruence.
Qed.

Definition doc_entry (e : stored * option Z) : option (string * option string) :=
  match fst e with SDoc _ response status => Some (status, response) | _ => None end.

Section Idempotency.
Context {R W : Type} `{RedisStoreSpec R} `{Clock W} (ttl : Z).

#[local] Instance Redis_IdempotencyStore : IdempotencyStore (R * W) := {
  ids_get := RedisIdempotencyStore_get clock_now;
  ids_save := RedisIdempotencyStore_save ttl;
  ids_complete := RedisIdempotencyStore_complete clock_now ttl;
}.

Definition redis_entries (x : R * W) : gmap string (string * option string) :=
  keyed "idempotency:" (omap doc_entry (rs_view (fst x))).

(** Under the prefix of the store there are only its own documents. *)
Definition redis_typed (x : R * W) : Prop :=
  ∀ s e, rs_view (fst x) !! ("idempotency:" +:+ s) = Some e → is_Some (doc_entry e).

Lemma redis_entries_lookup x s :
  redis_entries x !! s = rs_view (fst x) !! ("idempotency:" +:+ s) ≫= doc_entry.
Proof. unfold redis_entries. by rewrite lookup_keyed, lookup_omap. Qed.

(** Writing a document under a key. *)
Lemma redis_put k key resp st px (r : R) (w : W) :
  let x' := (rs_set (idempotency_key k) (SDoc key resp st) px r, w) in
  redis_typed (r, w) →
  redis_typed x' ∧ redis_entries x' = <[IdempotencyKey_str k := (st, resp)]> (redis_entries (r, w)).
Proof.
  intros x' Hty. unfold x', idempotency_key, redis_typed in *. simpl in *. split.
  - intros s e. rewrite rs_set_view, lookup_insert_Some. intros [[_ <-]|[_ Hs]]; [done|]. eauto.
  - apply map_eq. intros s. rewrite redis_entries_lookup. simpl. rewrite rs_set_view.
    destruct (decide (s = IdempotencyKey_str k)) as [->|Hne].
    + by rewrite !lookup_insert_eq.
    + rewrite !lookup_insert_ne; [by rewrite redis_entries_lookup | done |].
      intros Heq. apply app_inj_l_str in Heq. congruence.
Qed.

Lemma redis_get k (x : R * W) :
  redis_typed x →
  ∃ o, RedisIdempotencyStore_get clock_now k x = (Return o, x) ∧
    idr_entry <$> o = redis_entries x !! IdempotencyKey_str k.
Proof.
  destruct x as [r w]. intros Hty. rewrite redis_entries_lookup.
  unfold RedisIdempotencyStore_get, RedisCache_get, idempotency_key, mbind, PyM_bind, on_fst, reads. simpl.
  rewrite rs_get_view. destruct (rs_view r !! _) as [[v t]|] eqn:E; simpl; [|by eexists].
  specialize (Hty _ _ E). destruct v; [by destruct Hty..|]. by eexists.
Qed.

#[export] Instance Redis_IdempotencyStoreSpec : IdempotencyStoreSpec (R * W).
Proof.
  unshelve refine {| ids_entries := redis_entries; ids_ok := redis_typed |}.
  - intros k x. apply redis_get.
  - intros k r [x w] Hok Hr. destruct (redis_put k (idr_key r) None (idr_status r) (Some (ttl * 1000)%Z) x w Hok).
    by eexists.
  - intros k resp [x w] Hok [en Hen]. unfold ids_complete; simpl.
    unfold RedisIdempotencyStore_complete, mbind, PyM_bind.
    destruct (redis_get k (x, w) Hok) as ([r|] & -> & Ho); [|simpl in *; congruence].
    destruct (redis_put k (idr_key r) (Some resp) "COMPLETED" (Some (ttl * 1000)%Z) x w Hok).
    by eexists.
Defined.

End Idempotency.

(** ** Lemmas: the lock

    Any number of clients, each with its own [RedisLock] object for one name, share the
    server.  A client that holds a token is listed with it and with the time since it
    got it; [ls_used] are the tokens drawn so far, which [uuid4] does not repeat. *)

Record LockSys (R : Type) := mkLockSys {
  ls_redis : R;
  ls_clients : gmap nat (string * Z);
  ls_used : gset string;
}.
Arguments mkLockSys {R} _ _ _.
Arguments ls_redis {R} _.
Arguments ls_clients {R} _.
Arguments ls_used {R} _.

Section LockSystem.
Context {R : Type} `{RedisStoreSpec R} (lk : RedisLock).

Definition own_token (i : nat) (s : LockSys R) : option string := fst <$> ls_clients s !! i.

Inductive lock_step : LockSys R → LockSys R → Prop :=
| step_acquire i tk s b tok' r' :
    tk ∉ ls_used s →
    RedisLock_acquire (mret tk) lk (own_token i s, (ls_redis s, tt)) = (Return b, (tok', (r', tt))) →
    lock_step s (mkLockSys r'
      (if b : bool then partial_alter (λ _, (λ t, (t, 0%Z)) <$> tok') i (ls_clients s) else ls_clients s)
      ({[tk]} ∪ ls_used s))
| step_release i s tok' r' :
    RedisLock_release lk (own_token i s, (ls_redis s, tt)) = (Return tt, (tok', (r', tt))) →
    lock_step s (mkLockSys r'
      (match tok' with None => delete i (ls_clients s) | Some _ => ls_clients s end) (ls_used s))
| step_wait d s :
    (0 <= d)%Z →
    lock_step s (mkLockSys (rs_wait d (ls_redis s)) ((λ e, (fst e, snd e + d)%Z) <$> ls_clients s) (ls_used s))
| step_other s r' :
    rs_view r' !! lk_name lk = rs_view (ls_redis s) !! lk_name lk →
    lock_step s (mkLockSys r' (ls_clients s) (ls_used s)).

Definition lock_init (s : LockSys R) : Prop :=
  ls_clients s = ∅ ∧ rs_view (ls_redis s) !! lk_name lk = None.

Definition lock_key (s : LockSys R) : option (stored * option Z) := rs_view (ls_redis s) !! lk_name lk.

(** A client whose token is younger than the time to live owns the key; no two clients
    hold one token; the key holds a token that was drawn, and not for longer than that. *)
Record lock_inv (s : LockSys R) : Prop := {
  li_owner i tk a : ls_clients s !! i = Some (tk, a) →
    tk ∈ ls_used s ∧ (0 <= a)%Z ∧
    ((a < lk_ttl_ms lk)%Z → lock_key s = Some (SStr tk, Some (lk_ttl_ms lk - a)%Z));
  li_distinct i j tk a b : ls_clients s !! i = Some (tk, a) → ls_clients s !! j = Some (tk, b) → i = j;
  li_key v t : lock_key s = Some (v, t) → ∃ tk t', v = SStr tk ∧ t = Some t' ∧ (t' <= lk_ttl_ms lk)%Z;
}.

Hypothesis Httl : (0 < lk_ttl_ms lk)%Z.

Lemma acquire_eq {W} (tk : string) tok (r : R) (w : W) :
  RedisLock_acquire (mret tk) lk (tok, (r, w)) =
    match rs_view r !! lk_name lk with
    | Some _ => (Return false, (tok, (r, w)))
    | None => (Return true, (Some tk, (rs_set (lk_name lk) (SStr tk) (Some (lk_ttl_ms lk)) r, w)))
    end.
Proof.
  unfold RedisLock_acquire, mbind, PyM_bind, on_snd, on_fst, mret, PyM_ret. simpl.
  rewrite rs_set_nx_view by done. by destruct (rs_view r !! _).
Qed.

Lemma release_eq {W} tok (r : R) (w : W) :
  RedisLock_release lk (tok, (r, w)) =
    (Return tt, (None,
      (match tok, rs_view r !! lk_name lk with
       | Some tk, Some (SStr t, _) => if String.eqb t tk then rs_del (lk_name lk) r else r
       | _, _ => r
       end, w))).
Proof.
  unfold RedisLock_release, lua_release, mbind, PyM_bind, on_snd, on_fst, mret, PyM_ret, reads, updates, id.
  simpl. destruct tok as [tk|]; [|done]. simpl. rewrite rs_get_view.
  destruct (rs_view r !! _) as [[[t| |] ?]|]; simpl; try done. by destruct (String.eqb t tk).
Qed.

Lemma lock_inv_init s : lock_init s → lock_inv s.
Proof.
  intros [Hc Hk]. split; unfold lock_key; rewrite ?Hc, ?Hk; done.
Qed.

(** An expired client, in a system whose key is free, owns nothing. *)
Lemma free_expired s i tk a :
  lock_inv s → lock_key s = None → ls_clients s !! i = Some (tk, a) → (lk_ttl_ms lk <= a)%Z.
Proof.
  intros Hinv Hfree Hi. destruct (li_owner s Hinv _ _ _ Hi) as (_ & _ & Hown).
  destruct (Z_lt_le_dec a (lk_ttl_ms lk)) as [Hlt|]; [|done]. rewrite Hown in Hfree by done. discriminate.
Qed.

Lemma lock_inv_acquire s i tk b tok' r' :
  lock_inv s → tk ∉ ls_used s →
  RedisLock_acquire (mret tk) lk (own_token i s, (ls_redis s, tt)) = (Return b, (tok', (r', tt))) →
  lock_inv (mkLockSys r'
    (if b : bool then partial_alter (λ _, (λ t, (t, 0%Z)) <$> tok') i (ls_clients s) else ls_clients s)
    ({[tk]} ∪ ls_used s)).
Proof.
  intros Hinv Hnew. rewrite acquire_eq. fold (lock_key s).
  destruct (lock_key s) as [e|] eqn:Hk; intros [= <- <- <-]; simpl.
  { split; unfold lock_key; simpl; try apply Hinv.
    intros j t a Hj. destruct (li_owner s Hinv _ _ _ Hj) as (? & ? & ?). split_and!; [set_solver|done..]. }
  split; unfold lock_key; simpl; rewrite ?rs_set_view.
  - intros j t a. destruct (decide (i = j)) as [<-|Hne].
    + rewrite lookup_partial_alter_eq. intros [= <- <-].
      split_and!; [set_solver|lia|]. intros _. rewrite lookup_insert_eq. do 3 f_equal. lia.
    + rewrite lookup_partial_alter_ne by done. intros Hj. destruct (li_owner s Hinv _ _ _ Hj) as (? & ? & _).
      pose proof (free_expired s j t a Hinv Hk Hj). split_and!; [set_solver|done|lia].
  - intros j1 j2 t a b. rewrite !lookup_partial_alter.
    assert (∀ j x, ls_clients s !! j = Some (tk, x) → False) as Hno
      by (intros j x Hj; by destruct (li_owner s Hinv _ _ _ Hj) as [? _]).
    destruct (decide (i = j1)), (decide (i = j2)); subst; simpl; [done|..].
    + intros [= <- <-] H2. by apply Hno in H2.
    + intros H1 [= <- <-]. by apply Hno in H1.
    + apply (li_distinct s Hinv).
  - intros v t. rewrite lookup_insert_eq. intros [= <- <-]. eexists _, _. split_and!; done || lia.
Qed.

Lemma lock_inv_release s i tok' r' :
  lock_inv s →
  RedisLock_release lk (own_token i s, (ls_redis s, tt)) = (Return tt, (tok', (r', tt))) →
  lock_inv (mkLockSys r'
    (match tok' with None => delete i (ls_clients s) | Some _ => ls_clients s end) (ls_used s)).
Proof.
  intros Hinv. rewrite release_eq. fold (lock_key s). intros [= <- <-].
  assert (∀ r', rs_view r' !! lk_name lk = lock_key s ∨
     rs_view r' !! lk_name lk = None ∧
     (∃ tk t, own_token i s = Some tk ∧ lock_key s = Some (SStr tk, t)) →
     lock_inv (mkLockSys r' (delete i (ls_clients s)) (ls_used s))) as Hgen.
  { intros r' Hr'. split; unfold lock_key; simpl; fold (lock_key s) in *.
    - intros j t a Hj. apply lookup_delete_Some in Hj as [Hne Hj].
      destruct (li_owner s Hinv _ _ _ Hj) as (? & ? & Hown). split_and!; [done..|]. intros Hlt.
      specialize (Hown Hlt). destruct Hr' as [->|(_ & tk & t' & Htk & Hk)]; [done|]. exfalso.
      rewrite Hk in Hown. injection Hown as -> ->. unfold own_token in Htk.
      destruct (ls_clients s !! i) as [[tk b]|] eqn:Hi; simplify_eq/=.
      by pose proof (li_distinct s Hinv _ _ _ _ _ Hi Hj).
    - intros j1 j2 t a b [_ H1]%lookup_delete_Some [_ H2]%lookup_delete_Some.
      by eapply (li_distinct s Hinv).
    - intros v t Hv. destruct Hr' as [Hr'|[Hr' _]]; rewrite Hr' in Hv; [|done]. by eapply (li_key s Hinv). }
  apply Hgen. destruct (own_token i s) as [tk|], (lock_key s) as [[[t| |] t']|] eqn:Hk; try by left.
  destruct (String.eqb_spec t tk) as [->|]; [|by left].
  right. rewrite rs_del_view, lookup_delete_eq. eauto.
Qed.

Lemma lock_inv_wait s d :
  lock_inv s → (0 <= d)%Z →
  lock_inv (mkLockSys (rs_wait d (ls_redis s)) ((λ e, (fst e, snd e + d)%Z) <$> ls_clients s) (ls_used s)).
Proof.
  intros Hinv Hd. split; unfold lock_key; simpl; rewrite ?rs_wait_view by done.
  - intros j t a. rewrite lookup_fmap. destruct (ls_clients s !! j) as [[t0 a0]|] eqn:Hj; [|done].
    intros [= <- <-]. destruct (li_owner s Hinv _ _ _ Hj) as (? & ? & Hown). split_and!; [done|lia|].
    intros Hlt. rewrite lookup_omap. fold (lock_key s). rewrite Hown by lia.
    simpl. unfold age_entry. simpl. rewrite (proj2 (Z.ltb_lt _ _)) by lia. do 3 f_equal. lia.
  - intros j1 j2 t a b. rewrite !lookup_fmap.
    destruct (ls_clients s !! j1) as [[t1 a1]|] eqn:H1, (ls_clients s !! j2) as [[t2 a2]|] eqn:H2; try done.
    intros [= -> _] [= -> _]. by eapply (li_distinct s Hinv).
  - intros v t. rewrite lookup_omap. fold (lock_key s).
    destruct (lock_key s) as [[v0 t0]|] eqn:Hk; [|done].
    destruct (li_key s Hinv _ _ Hk) as (tk & t' & -> & -> & Hle). simpl. unfold age_entry. simpl.
    destruct (_ <? _)%Z; [|done]. intros [= <- <-]. eexists _, _. split_and!; done || lia.
Qed.

Lemma lock_inv_reachable s0 s : lock_init s0 → rtc lock_step s0 s → lock_inv s.
Proof.
  intros Hinit Hr. apply (rtc_ind_r (R := lock_step) lock_inv s0); [by apply lock_inv_init | | done].
  intros s1 s2 _ Hstep Hinv. destruct Hstep as [i tk s1 b tok' r' Hnew Hacq|i s1 tok' r' Hrel|d s1 Hd|s1 r' Hr'].
  - by eapply lock_inv_acquire.
  - by eapply lock_inv_release.
  - by apply lock_inv_wait.
  - split; unfold lock_key; simpl; rewrite ?Hr'; apply Hinv.
Qed.

End LockSystem.

(** ** Lemmas: the rate limiter *)

Section Limiter.
Context {R : Type} `{RedisStoreSpec R}.

(** Requests of one client, each with the time that passed since the one before; the
    second half of the state is the clock in microseconds. *)
Fixpoint spaced_checks (q : Quota) (i : string) (gaps : list Z) : PyM (R * Z) (list RateLimitResult) :=
  match gaps with
  | [] => mret []
  | g :: gaps' =>
      updates (λ '(r, t), (rs_wait g r, (t + g * 1000)%Z)) ;;
      res ← RedisRateLimiter_check id q i;
      rs ← spaced_checks q i gaps';
      mret (res :: rs)
  end.

Definition counter (q : Quota) (i : string) (r : R) : option (stored * option Z) :=
  rs_view r !! redis_rl_key q i.

Lemma check_eq q i (r : R) (t : Z) n ttl :
  (0 < quota_window_seconds q)%Z →
  counter q i r = match n with 0 => None | _ => Some (SInt n, ttl) end%Z →
  ∃ r', RedisRateLimiter_check id q i (r, t) =
      (Return (mkRLResult (if (n + 1 <=? quota_limit q)%Z then ALLOWED else DENIED)
                 (Z.max 0 (quota_limit q - (n + 1))) t q), (r', t)) ∧
    counter q i r' = Some (SInt (n + 1), Some (quota_window_seconds q * 1000)%Z).
Proof.
  intros Hw Hn. unfold RedisRateLimiter_check, incr_expire, mbind, PyM_bind, on_fst, on_snd, reads, mret, PyM_ret.
  simpl. assert (∃ r1 t1, rs_incr (redis_rl_key q i) r = (Return (n + 1)%Z, r1) ∧
    rs_view r1 !! redis_rl_key q i = Some (SInt (n + 1), t1)) as (r1 & t1 & -> & Hr1).
  { pose proof (rs_incr_view (redis_rl_key q i) r) as Hi. unfold counter in Hn. rewrite Hn in Hi.
    destruct n; destruct Hi as (r' & -> & Hv); eexists r', _; (split; [done|]); by rewrite Hv, lookup_insert_eq. }
  eexists. split; [done|]. unfold counter. simpl. rewrite rs_expire_view, Hr1.
  rewrite (proj2 (Z.ltb_lt _ _)) by lia. by rewrite lookup_insert_eq.
Qed.

Lemma counter_wait q i (r : R) n w d :
  (0 <= d)%Z → counter q i r = Some (SInt n, Some w) →
  counter q i (rs_wait d r) = if (d <? w)%Z then Some (SInt n, Some (w - d)%Z) else None.
Proof. intros Hd Hn. unfold counter in *. rewrite rs_wait_view by done. by rewrite lookup_omap, Hn. Qed.

Lemma imap_replicate {A B} (f : nat → A → B) n x y :
  (∀ k, f k x = y) → imap f (replicate n x) = replicate n y.
Proof.
  revert f. induction n as [|n IH]; intros f Hf; [done|]. simpl replicate.
  rewrite imap_cons, Hf, IH; [done|]. intros k. apply Hf.
Qed.

(** The counter of a client whose requests are never a window apart only grows. *)
Lemma spaced_checks_count q i gaps n (r : R) t :
  (0 < n)%Z → (0 < quota_window_seconds q)%Z →
  counter q i r = Some (SInt n, Some (quota_window_seconds q * 1000)%Z) →
  Forall (λ g, 0 <= g < quota_window_seconds q * 1000)%Z gaps →
  ∃ rs r' t', spaced_checks q i gaps (r, t) = (Return rs, (r', t')) ∧
    rl_decision <$> rs =
      imap (λ k _, if (n + 1 + Z.of_nat k <=? quota_limit q)%Z then ALLOWED else DENIED) gaps.
Proof.
  intros Hn Hw Hc Hg. revert n r t Hn Hc. induction Hg as [|g gaps Hgap Hg IH]; intros n r t Hn Hc.
  { by eexists [], _, _. }
  simpl spaced_checks. unfold mbind, PyM_bind, updates.
  assert (counter q i (rs_wait g r) = Some (SInt n, Some (quota_window_seconds q * 1000 - g)%Z)) as Hc1.
  { rewrite (counter_wait q i r n _ g) by (lia || done). by rewrite (proj2 (Z.ltb_lt _ _)) by lia. }
  destruct (check_eq q i (rs_wait g r) (t + g * 1000) n (Some (quota_window_seconds q * 1000 - g)%Z))
    as (r1 & -> & Hr1); [done| by destruct n |].
  destruct (IH (n + 1)%Z r1 (t + g * 1000)%Z) as (rs & r' & t' & -> & Hrs); [lia|done|].
  eexists _, r', t'. split; [done|]. rewrite fmap_cons, imap_cons, Hrs. simpl. f_equal.
  - by rewrite Z.add_0_r.
  - apply imap_ext. intros k x _. simpl. by replace (n + 1 + 1 + Z.of_nat k)%Z with (n + 1 + Z.of_nat (S k))%Z by lia.
Qed.

End Limiter.

(** ** Theorems *)

(** C23: the lock in every reachable state of any number of clients sharing a server, also
    when clients stop without releasing: two clients whose acquisition is younger than
    the time to live are the same client; while there is one, every other acquire is
    refused, also after releases by clients whose lock expired; and once the time to
    live has passed without a new acquisition the next acquire succeeds. *)
Theorem redis_lock_safe {R} `{RedisStoreSpec R} (lk : RedisLock) s0 s :
  (0 < lk_ttl_ms lk)%Z → lock_init lk s0 → rtc (lock_step lk) s0 s →
  (∀ i j ti tj a b, ls_clients s !! i = Some (ti, a) → ls_clients s !! j = Some (tj, b) →
     (a < lk_ttl_ms lk)%Z → (b < lk_ttl_ms lk)%Z → i = j) ∧
  (∀ i ti a, ls_clients s !! i = Some (ti, a) → (a < lk_ttl_ms lk)%Z →
     ∀ tk tok, fst (RedisLock_acquire (mret tk) lk (tok, (ls_redis s, tt))) = Return false) ∧
  (∀ d, (lk_ttl_ms lk <= d)%Z →
     ∀ tk tok, fst (RedisLock_acquire (mret tk) lk (tok, (rs_wait d (ls_redis s), tt))) = Return true).
Proof.
  intros Httl Hinit Hr. pose proof (lock_inv_reachable lk Httl s0 s Hinit Hr) as Hinv. split_and!.
  - intros i j ti tj a b Hi Hj Ha Hb.
    destruct (li_owner _ _ Hinv _ _ _ Hi) as (_ & _ & Hi'), (li_owner _ _ Hinv _ _ _ Hj) as (_ & _ & Hj').
    specialize (Hi' Ha). specialize (Hj' Hb). rewrite Hi' in Hj'. injection Hj' as -> _.
    by eapply (li_distinct _ _ Hinv).
  - intros i ti a Hi Ha tk tok. rewrite acquire_eq by done. fold (lock_key lk s).
    destruct (li_owner _ _ Hinv _ _ _ Hi) as (_ & _ & ->); done.
  - intros d Hd tk tok. rewrite acquire_eq by done. rewrite rs_wait_view by lia.
    rewrite lookup_omap. fold (lock_key lk s). destruct (lock_key lk s) as [[v t]|] eqn:Hk; [|done].
    destruct (li_key _ _ Hinv _ _ Hk) as (? & t' & -> & -> & Ht'). simpl. unfold age_entry. simpl.
    by rewrite (proj2 (Z.ltb_ge _ _)) by lia.
Qed.

(** the Redis limiter counts requests until a whole window passes without any: every
    request, a refused one too, starts the expiry anew.  So the decisions of a client
    whose requests are never a window apart depend on their number alone, however long
    they take. *)
Theorem redis_limiter_counts {R} `{RedisStoreSpec R} q i g gaps (r : R) t :
  (0 < quota_window_seconds q)%Z →
  rs_view (rs_wait g r) !! redis_rl_key q i = None →
  Forall (λ g, 0 <= g < quota_window_seconds q * 1000)%Z gaps →
  ∃ rs r' t', spaced_checks q i (g :: gaps) (r, t) = (Return rs, (r', t')) ∧
    rl_decision <$> rs =
      imap (λ k _, if (1 + Z.of_nat k <=? quota_limit q)%Z then ALLOWED else DENIED) (g :: gaps).
Proof.
  intros Hw Hfree Hg. simpl spaced_checks. unfold mbind, PyM_bind, updates.
  destruct (check_eq q i (rs_wait g r) (t + g * 1000) 0 None) as (r1 & -> & Hr1); [done..|].
  destruct (spaced_checks_count q i gaps 1 r1 (t + g * 1000)%Z) as (rs & r' & t' & -> & Hrs); [lia|done..|].
  eexists _, r', t'. split; [done|]. rewrite fmap_cons, imap_cons, Hrs. f_equal.
  apply imap_ext. intros k x _. cbv beta delta [compose].
  by replace (1 + 1 + Z.of_nat k)%Z with (1 + Z.of_nat (S k))%Z by lia.
Qed.

(** behind the HTTP middleware a client that has used its quota and obeys every
    Retry-After it is given is refused for ever when the window is longer than a second:
    the reset time of the Redis limiter is the present, so the advice is always one
    second, and every retry keeps the counter alive. *)
Theorem redis_limiter_starves {R} `{RedisStoreSpec R} q i n (r : R) t retries :
  (1 < quota_window_seconds q)%Z → (0 < n)%Z → (quota_limit q <= n)%Z →
  rs_view r !! redis_rl_key q i = Some (SInt n, Some (quota_window_seconds q * 1000)%Z) →
  (∀ now res st', RedisRateLimiter_check id q i (r, now) = (Return res, st') →
     ∀ later, (now <= later)%Z → (int_of_float (retry_after_seconds later res) + 1 = 1)%Z) ∧
  ∃ rs r' t', spaced_checks q i (replicate retries (1 * 1000)%Z) (r, t) = (Return rs, (r', t')) ∧
    rl_decision <$> rs = replicate retries DENIED.
Proof.
  intros Hw Hn Hlim Hc. split.
  - intros now res st' Hres later Hl.
    destruct (check_eq q i r now n (Some (quota_window_seconds q * 1000)%Z)) as (r1 & E & _);
      [lia | by destruct n |]. rewrite E in Hres. injection Hres as <- _.
    unfold retry_after_seconds, py_max. simpl.
    assert (Qltb 0 (inject_Z (now - later) / inject_Z 1000000) = false) as ->; [|done].
    apply Qltb_ge. unfold inject_Z, Qdiv, Qmult, Qinv, Qle. simpl. lia.
  - destruct (spaced_checks_count q i (replicate retries (1 * 1000)%Z) n r t) as (rs & r' & t' & E & Hrs);
      [done | lia | done | |].
    { apply Forall_replicate. lia. }
    eexists rs, r', t'. split; [done|]. rewrite Hrs. clear -Hlim.
    apply imap_replicate. intros k. by rewrite (proj2 (Z.leb_gt _ _)) by lia.
Qed.

(** through the Redis store a request that was filed and completed in time answers
    with its recorded response for the store's time to live, counted from the completion,
    and is unknown afterwards; a completion that comes after the record expired has no
    effect. *)
Theorem redis_idempotency_ttl {R W} `{RedisStoreSpec R} (utcnow : W → Z) ttl k rec resp (r : R) (w : W) d1 d2 :
  (0 < ttl)%Z → (0 <= d1)%Z → (0 <= d2)%Z →
  let r1 := fst (snd (RedisIdempotencyStore_save ttl k rec (r, w))) in
  let r2 := fst (snd (RedisIdempotencyStore_complete utcnow ttl k resp (rs_wait d1 r1, w))) in
  let found := fst (RedisIdempotencyStore_get utcnow k (rs_wait d2 r2, w)) in
  ∃ o, found = Return o ∧
    idr_entry <$> o =
      if (d1 <? ttl * 1000)%Z && (d2 <? ttl * 1000)%Z then Some ("COMPLETED", Some resp) else None.
Proof.
  intros Httl Hd1 Hd2 r1 r2 found. set (key := idempotency_key k).
  assert (rs_view r1 !! key = Some (SDoc (idr_key rec) None (idr_status rec), Some (ttl * 1000)%Z)) as H1
    by (unfold r1; simpl; by rewrite rs_set_view, lookup_insert_eq).
  assert (rs_view r2 !! key = if (d1 <? ttl * 1000)%Z
    then Some (SDoc (idr_key rec) (Some resp) "COMPLETED", Some (ttl * 1000)%Z) else None) as H2.
  { assert (rs_view (rs_wait d1 r1) !! key = if (d1 <? ttl * 1000)%Z
      then Some (SDoc (idr_key rec) None (idr_status rec), Some (ttl * 1000 - d1)%Z) else None) as Hw
      by (rewrite rs_wait_view, lookup_omap, H1 by done; done).
    unfold r2, RedisIdempotencyStore_complete, RedisIdempotencyStore_get, RedisCache_get, RedisCache_set,
      mbind, PyM_bind, on_fst, on_snd, reads, updates, mret, PyM_ret. simpl. fold key.
    rewrite rs_get_view, Hw. destruct (d1 <? ttl * 1000)%Z; simpl; [|done].
    by rewrite rs_set_view, lookup_insert_eq. }
  unfold found, RedisIdempotencyStore_get, RedisCache_get, mbind, PyM_bind, on_fst, on_snd, reads, mret, PyM_ret.
  simpl. fold key. rewrite rs_get_view, rs_wait_view, lookup_omap, H2 by done.
  destruct (d1 <? ttl * 1000)%Z; simpl; [|by eexists]. unfold age_entry. simpl.
  destruct (d2 <? ttl * 1000)%Z; by eexists.
Qed.

(** ** Witnesses *)

Definition demo_request : IdempotencyRecord := mkIRecord "Pay:k1" None "PROCESSING" 0 None.

Lemma redis_idempotency_ttl_witness :
  ∃ o, fst (RedisIdempotencyStore_get (λ _ : unit, 0%Z) (mkIKey "k1" "Pay")
    (rs_wait 59999 (fst (snd (RedisIdempotencyStore_complete (λ _ : unit, 0%Z) 60 (mkIKey "k1" "Pay") "ok"
      (rs_wait 10 (fst (snd (RedisIdempotencyStore_save 60 (mkIKey "k1" "Pay") demo_request
         ((∅ : SimStore), tt)))), tt)))), tt)) = Return o ∧ idr_entry <$> o = Some ("COMPLETED", Some "ok").
Proof.
  apply (redis_idempotency_ttl (λ _ : unit, 0%Z) 60 (mkIKey "k1" "Pay") demo_request "ok" (∅ : SimStore) tt
    10 59999); vm_compute; congruence.
Defined.

Definition demo_lock : RedisLock := RedisLock_init "jobs" 100.
Definition demo_locked : LockSys SimStore :=
  mkLockSys {["lock:jobs" := (SStr "t1", Some 100%Z)]} {[0%nat := ("t1", 0%Z)]} {["t1"]}.

Lemma redis_lock_safe_witness :
  fst (RedisLock_acquire (mret "t2") demo_lock (None, (ls_redis demo_locked, tt))) = Return false ∧
  fst (RedisLock_acquire (mret "t2") demo_lock (None, (rs_wait 100 (ls_redis demo_locked), tt))) = Return true.
Proof.
  destruct (redis_lock_safe demo_lock (mkLockSys (∅ : SimStore) ∅ ∅) demo_locked) as (_ & H1 & H2).
  - reflexivity.
  - split; reflexivity.
  - eapply rtc_l; [|apply rtc_refl].
    exact (step_acquire demo_lock 0%nat "t1" (mkLockSys (∅ : SimStore) ∅ ∅) true (Some "t1")
      {["lock:jobs" := (SStr "t1", Some 100%Z)]} (not_elem_of_empty "t1") eq_refl).
  - split; [apply (H1 0%nat "t1" 0%Z); reflexivity | apply H2; vm_compute; discriminate].
Defined.

Lemma redis_limiter_counts_witness :
  ∃ rs r' t', spaced_checks quota0 "bob" [0; 59000; 59000]%Z ((∅ : SimStore), 0%Z) = (Return rs, (r', t')) ∧
    rl_decision <$> rs = [ALLOWED; ALLOWED; DENIED].
Proof.
  destruct (redis_limiter_counts quota0 "bob" 0 [59000; 59000]%Z (∅ : SimStore) 0) as (rs & r' & t' & E & Hrs).
  - reflexivity.
  - reflexivity.
  - repeat constructor; vm_compute; congruence.
  - exists rs, r', t'. split; [exact E | exact Hrs].
Defined.

Definition demo_spent : SimStore := {["rl:api:bob" := (SInt 2, Some 60000%Z)]}.

Lemma redis_limiter_starves_witness :
  ∃ rs r' t', spaced_checks quota0 "bob" (replicate 5 1000%Z) (demo_spent, 0%Z) = (Return rs, (r', t')) ∧
    rl_decision <$> rs = replicate 5 DENIED.
Proof.
  destruct (redis_limiter_starves quota0 "bob" 2 demo_spent 0 5) as (_ & rs & r' & t' & E & Hrs).
  - reflexivity.
  - reflexivity.
  - vm_compute. discriminate.
  - reflexivity.
  - exists rs, r', t'. split; [exact E | exact Hrs].
Defined.
