(* ===== verification/Outbox.v ===== *)
(** * The transactional outbox and its dispatchers

    [kernel/messaging/outbox.py] and [message.py], the in-memory repository of
    [testing/fakes/outbox.py], and the dispatchers of [adapters/redis/streams.py],
    [adapters/kafka/outbox_dispatcher.py] with [producer.py], and
    [adapters/pulsar/messaging.py].  The dispatchers are written against the port
    [OutboxRepository] and verified against its contract [OutboxRepositorySpec]; the
    broker clients are arguments. *)
From S2P Require Import Prelude PyString OrderedDict.

Inductive OutboxStatus := PENDING | DISPATCHED | FAILED.

#[export] Instance OutboxStatus_eq_dec : EqDecision OutboxStatus.
Proof. solve_decision. Defined.

Record OutboxRecord := mkOutbox {
  or_id : string;
  or_aggregate_id : string;
  or_aggregate_type : string;
  or_event_type : string;
  or_topic : string;
  or_payload : list Z;
  or_headers : list (string * string);
  or_status : OutboxStatus;
  or_created_at : Z;
  or_dispatched_at : option Z;
  or_retry_count : Z;
  or_last_error : option string;
}.

Definition is_pending (r : OutboxRecord) : bool := bool_decide (or_status r = PENDING).

(** ** The port *)

Class OutboxRepository (X : Type) := {
  ob_save : OutboxRecord → PyM X unit;
  ob_get_pending : Z → PyM X (list OutboxRecord);
  ob_mark_dispatched : string → PyM X unit;
  ob_mark_failed : string → string → PyM X unit;
}.

(** The contract, in terms of the status of each record id: [get_pending] returns
    distinct pending records, all of them or [limit] many, and the two transitions
    change the status of one record. *)
Class OutboxRepositorySpec (X : Type) `{OutboxRepository X} := {
  ob_statuses : X → gmap string OutboxStatus;
  ob_ok : X → Prop;
  ob_get_pending_spec limit x : ob_ok x → (0 < limit)%Z →
    ∃ l, ob_get_pending limit x = (Return l, x) ∧ NoDup (or_id <$> l) ∧
      (∀ r, r ∈ l → ob_statuses x !! or_id r = Some PENDING) ∧
      (length l = Z.to_nat limit ∨
       ∀ i, ob_statuses x !! i = Some PENDING → i ∈ or_id <$> l);
  ob_mark_dispatched_spec i x : ob_ok x → is_Some (ob_statuses x !! i) →
    ∃ x', ob_mark_dispatched i x = (Return tt, x') ∧ ob_ok x' ∧
      ob_statuses x' = <[i := DISPATCHED]> (ob_statuses x);
  ob_mark_failed_spec i error x : ob_ok x → is_Some (ob_statuses x !! i) →
    ∃ x', ob_mark_failed i error x = (Return tt, x') ∧ ob_ok x' ∧
      ob_statuses x' = <[i := FAILED]> (ob_statuses x);
}.

(** ** The in-memory repository ([testing/fakes/outbox.py]) *)

(** [OutboxRecord(...)] with the fields the fake copies; the others get their defaults. *)
Definition copy_with_status (st : OutboxStatus) (r : OutboxRecord) : OutboxRecord :=
  mkOutbox (or_id r) (or_aggregate_id r) (or_aggregate_type r) (or_event_type r) (or_topic r)
    (or_payload r) (or_headers r) st (or_created_at r) None 0 None.

Definition InMemoryOutboxRepository_save (r : OutboxRecord) : PyM (list (string * OutboxRecord)) unit :=
  updates (od_set (or_id r) r).

Definition InMemoryOutboxRepository_get_pending (limit : Z)
    : PyM (list (string * OutboxRecord)) (list OutboxRecord) :=
  reads (λ d, slice_to limit (filter (λ r, or_status r = PENDING) (d.*2))).

Definition InMemoryOutboxRepository_mark_dispatched (record_id : string)
    : PyM (list (string * OutboxRecord)) unit :=
  updates (λ d, match od_get record_id d with
                | Some r => od_set record_id (copy_with_status DISPATCHED r) d
                | None => d
                end).

Definition InMemoryOutboxRepository_mark_failed (record_id error : string)
    : PyM (list (string * OutboxRecord)) unit :=
  updates (λ d, match od_get record_id d with
                | Some r => od_set record_id (copy_with_status FAILED r) d
                | None => d
                end).

Definition InMemoryOutboxRepository_all_records (d : list (string * OutboxRecord)) : list OutboxRecord := d.*2.

#[export] Instance InMemory_OutboxRepository : OutboxRepository (list (string * OutboxRecord)) := {
  ob_save := InMemoryOutboxRepository_save;
  ob_get_pending := InMemoryOutboxRepository_get_pending;
  ob_mark_dispatched := InMemoryOutboxRepository_mark_dispatched;
  ob_mark_failed := InMemoryOutboxRepository_mark_failed;
}.

(** ** The dispatchers *)

Section Dispatch.
Context {X W : Type} `{OutboxRepository X}.

(** The loop the three dispatchers share: publish, mark dispatched, count; on an
    exception of either call mark the record failed and go on. *)
Fixpoint outbox_loop (publish : OutboxRecord → PyM (X * W) unit) (failure : pyexn → string)
    (records : list OutboxRecord) (dispatched : Z) : PyM (X * W) Z :=
  match records with
  | [] => mret dispatched
  | r :: rest =>
      n ← try_except
            (publish r ;; on_fst (ob_mark_dispatched (or_id r)) ;; mret (dispatched + 1)%Z)
            (λ exc, on_fst (ob_mark_failed (or_id r) (failure exc)) ;; mret dispatched);
      outbox_loop publish failure rest n
  end.

End Dispatch.

(** *** Redis Streams *)

(** A field of a stream entry: text or bytes. *)
Inductive field_value := FText (s : string) | FBytes (b : list Z).

Section Streams.
Context {X W : Type} `{OutboxRepository X}.
(** [redis.xadd(stream, fields, maxlen=..., approximate=...)]. *)
Context (xadd : string → list (string * field_value) → option Z → PyM W string).

Definition RedisStreamProducer_publish (stream : string) (fields : list (string * field_value))
    (maxlen : option Z) : PyM W string :=
  xadd stream fields maxlen.

(** The fields of an entry: five attributes of the record, then [fields.update(headers)]. *)
Definition stream_fields (r : OutboxRecord) : list (string * field_value) :=
  fold_left (λ d e, od_set (fst e) (FText (snd e)) d) (or_headers r)
    [("id", FText (or_id r)); ("event_type", FText (or_event_type r));
     ("aggregate_id", FText (or_aggregate_id r)); ("aggregate_type", FText (or_aggregate_type r));
     ("payload", FBytes (or_payload r))].

Definition RedisStreamOutboxDispatcher_dispatch_pending : PyM (X * W) Z :=
  records ← on_fst (ob_get_pending 100);
  outbox_loop
    (λ r, on_snd (RedisStreamProducer_publish (or_topic r) (stream_fields r) None) ;; mret tt)
    (λ _, "dispatch failed") records 0.

End Streams.

(** The entries a consumer group reads. *)
Record RedisStreamEntry := mkStreamEntry { ent_id : string; ent_fields : list (string * field_value) }.

(** [field_str]: a bytes field is decoded. *)
Definition RedisStreamEntry_field_str (decode : list Z → string) (key dflt : string) (e : RedisStreamEntry)
    : string :=
  match od_get key (ent_fields e) with
  | None => dflt
  | Some (FText s) => s
  | Some (FBytes b) => decode b
  end.

Section ConsumerGroup.
Context {W : Type} (xgroup_create : string → string → string → bool → PyM W unit)
  (xreadgroup : string → string → string → Z → option Z →
     PyM W (list (string * list (string * list (string * field_value)))))
  (xack : string → string → list string → PyM W Z) (str_of : pyexn → string).

Definition RedisStreamConsumerGroup_create_group (stream group start_id : string) (mkstream : bool)
    : PyM W unit :=
  try_except (xgroup_create stream group start_id mkstream)
    (λ exc, if contains "BUSYGROUP" (str_of exc) then mret tt else raise exc).

(** [block_ms or None]. *)
Definition block_arg (block_ms : Z) : option Z := if (block_ms =? 0)%Z then None else Some block_ms.

Definition RedisStreamConsumerGroup_read (stream group consumer : string) (count block_ms : Z)
    : PyM W (list RedisStreamEntry) :=
  results ← xreadgroup group consumer stream count (block_arg block_ms);
  mret (concat (map (λ '(_, messages), map (λ '(i, fields), mkStreamEntry i fields) messages) results)).

Definition RedisStreamConsumerGroup_ack (stream group : string) (ids : list string) : PyM W Z :=
  xack stream group ids.

End ConsumerGroup.

(** *** Kafka *)

Record MessageHeaders := mkMsgHeaders {
  mh_correlation_id : option string;
  mh_extra : list (string * string);
}.

Record BusMessage := mkBusMessage {
  bm_id : string;
  bm_topic : string;
  bm_payload : list Z;
  bm_headers : MessageHeaders;
}.

Section Kafka.
Context {X W : Type} `{OutboxRepository X}.
Context (client_start client_stop : PyM W unit)
  (client_send : string → list Z → list (string * string) → string → PyM W unit)
  (str_of : pyexn → string).

(** [self._started] is the first component of the producer's state. *)
Definition KafkaProducer_start : PyM (bool * W) unit :=
  on_snd client_start ;; on_fst (updates (λ _, true)).

Definition KafkaProducer_stop : PyM (bool * W) unit :=
  on_snd client_stop ;; on_fst (updates (λ _, false)).

Definition kafka_headers (h : MessageHeaders) : list (string * string) :=
  mh_extra h ++
  match mh_correlation_id h with
  | None | Some "" => []
  | Some c => [("correlation-id", c)]
  end.

(** Payloads of outbox messages are bytes, which the serialiser passes on. *)
Definition KafkaProducer_publish (m : BusMessage) : PyM (bool * W) unit :=
  started ← on_fst (reads id);
  (if negb started then KafkaProducer_start else mret tt) ;;
  on_snd (client_send (bm_topic m) (bm_payload m) (kafka_headers (bm_headers m)) (bm_id m)).

Definition KafkaProducer_publish_batch (ms : list BusMessage) : PyM (bool * W) unit :=
  for_each ms KafkaProducer_publish.

(** The message made of a record. *)
Definition outbox_message (r : OutboxRecord) : BusMessage :=
  mkBusMessage (or_id r) (or_topic r) (or_payload r)
    (mkMsgHeaders (od_get "correlation-id" (or_headers r)) (or_headers r)).

Definition KafkaOutboxDispatcher_dispatch_pending : PyM (X * (bool * W)) Z :=
  records ← on_fst (ob_get_pending 100);
  outbox_loop (λ r, on_snd (KafkaProducer_publish (outbox_message r))) str_of records 0.

End Kafka.

(** *** Pulsar *)

Section Pulsar.
Context {X W Pr : Type} `{OutboxRepository X}.
Context (client_connect : PyM W unit) (create_producer : string → PyM W Pr)
  (producer_send : Pr → list Z → PyM W unit).

(** [self._client is not None], and [self._producers]. *)
Definition Pulsar_state : Type := bool * list (string * Pr).

Definition PulsarProducer_connect : PyM (Pulsar_state * W) unit :=
  on_snd client_connect ;; on_fst (updates (λ s, (true, snd s))).

Definition PulsarProducer_get_producer (topic : string) : PyM (Pulsar_state * W) Pr :=
  ps ← on_fst (reads snd);
  match od_get topic ps with
  | Some p => mret p
  | None =>
      p ← on_snd (create_producer topic);
      on_fst (updates (λ s, (fst s, od_set topic p (snd s)))) ;;
      mret p
  end.

Definition PulsarOutboxDispatcher_dispatch_pending : PyM (X * (Pulsar_state * W)) Z :=
  connected ← on_snd (on_fst (reads fst));
  (if negb connected then on_snd PulsarProducer_connect else mret tt) ;;
  records ← on_fst (ob_get_pending 100);
  outbox_loop
    (λ r, p ← on_snd (PulsarProducer_get_producer (or_topic r));
          on_snd (on_snd (producer_send p (or_payload r))))
    (λ _, "pulsar dispatch failed") records 0.

End Pulsar.

(** ** Lemmas *)

Section InMemorySpec.
Implicit Types d : list (string * OutboxRecord).

Definition memory_statuses d : gmap string OutboxStatus :=
  list_to_map ((λ e, (fst e, or_status (snd e))) <$> d).

(** Records are filed under their ids. *)
Definition memory_ok d : Prop := NoDup d.*1 ∧ or_id <$> d.*2 = d.*1.

Lemma memory_statuses_lookup d i : memory_statuses d !! i = or_status <$> od_get i d.
Proof.
  induction d as [|[k r] d IH]; [done|]. unfold memory_statuses in *. simpl.
  rewrite lookup_insert. by repeat case_decide; subst.
Qed.

Lemma od_set_ids k r d :
  or_id r = k → or_id <$> d.*2 = d.*1 → or_id <$> (od_set k r d).*2 = (od_set k r d).*1.
Proof.
  intros Hr. induction d as [|[k' r'] d IH]; simpl; [by rewrite Hr|]. intros [= Hk Hd].
  case_decide; simpl; f_equal; auto.
Qed.

(** Replacing a record by one with another status. *)
Lemma memory_set d i r r' :
  memory_ok d → od_get i d = Some r → or_id r' = or_id r →
  memory_ok (od_set i r' d) ∧
  memory_statuses (od_set i r' d) = <[i := or_status r']> (memory_statuses d).
Proof.
  intros [Hnd Hids] Hi Hr'. assert (or_id r = i) as Hr.
  { apply od_get_elem, list_elem_of_lookup in Hi as [j Hj].
    assert ((or_id <$> d.*2) !! j = Some (or_id r)) as H1 by by rewrite !list_lookup_fmap, Hj.
    assert (d.*1 !! j = Some i) as H2 by by rewrite list_lookup_fmap, Hj.
    congruence. }
  split; [split; [by apply od_set_NoDup | apply od_set_ids; congruence]|].
  apply map_eq. intros j. rewrite memory_statuses_lookup.
  destruct (decide (i = j)) as [<-|Hne].
  - by rewrite od_get_set_eq, lookup_insert_eq.
  - by rewrite od_get_set_ne, lookup_insert_ne, memory_statuses_lookup.
Qed.

Lemma memory_pending_ids d :
  memory_ok d → NoDup (or_id <$> filter (λ r, or_status r = PENDING) d.*2).
Proof.
  intros [Hnd Hids]. rewrite <- Hids in Hnd. eapply sublist_NoDup; [exact Hnd|].
  apply fmap_sublist, sublist_filter.
Qed.

Lemma memory_pending_elem d r :
  memory_ok d → r ∈ filter (λ r, or_status r = PENDING) d.*2 →
  memory_statuses d !! or_id r = Some PENDING.
Proof.
  intros [Hnd Hids] [Hp Hr]%list_elem_of_filter. apply list_elem_of_lookup in Hr as [j Hj].
  rewrite list_lookup_fmap in Hj. destruct (d !! j) as [[k r0]|] eqn:Hd; simplify_eq/=.
  assert (k = or_id r) as ->.
  { assert (d.*1 !! j = Some k) as H1 by by rewrite list_lookup_fmap, Hd.
    rewrite <- Hids, list_lookup_fmap, list_lookup_fmap, Hd in H1. by simplify_eq/=. }
  rewrite memory_statuses_lookup, (od_get_NoDup _ r); [simpl; congruence | done |].
  apply list_elem_of_lookup. eauto.
Qed.

Lemma memory_pending_all d i :
  memory_ok d → memory_statuses d !! i = Some PENDING →
  i ∈ or_id <$> filter (λ r, or_status r = PENDING) d.*2.
Proof.
  intros [Hnd Hids]. rewrite memory_statuses_lookup.
  destruct (od_get i d) as [r|] eqn:Hi; [|done]. intros [= Hst]. apply od_get_elem in Hi.
  apply list_elem_of_lookup in Hi as [j Hj].
  assert (or_id r = i) as <-.
  { assert (d.*1 !! j = Some i) as H1 by by rewrite list_lookup_fmap, Hj.
    rewrite <- Hids, !list_lookup_fmap, Hj in H1. by simplify_eq/=. }
  apply list_elem_of_fmap. exists r. split; [done|]. apply list_elem_of_filter. split; [done|].
  apply list_elem_of_lookup. exists j. by rewrite list_lookup_fmap, Hj.
Qed.

#[export] Instance InMemory_OutboxRepositorySpec : OutboxRepositorySpec (list (string * OutboxRecord)).
Proof.
  unshelve refine {| ob_statuses := memory_statuses; ob_ok := memory_ok |}.
  - intros limit d Hok Hlim. eexists. split; [reflexivity|].
    unfold slice_to. rewrite (proj2 (Z.ltb_ge _ _)) by lia. split_and!.
    + rewrite fmap_take. eapply sublist_NoDup; [by apply memory_pending_ids | apply sublist_take].
    + intros r Hr. apply memory_pending_elem; [done|].
      apply elem_of_take in Hr as (j & Hj & _). apply list_elem_of_lookup. eauto.
    + destruct (decide (Z.to_nat limit ≤ length (filter (λ r, or_status r = PENDING) d.*2))%nat) as [Hl|Hl].
      * left. rewrite length_take. lia.
      * right. rewrite take_ge by lia. intros i. by apply memory_pending_all.
  - intros i d Hok [st Hst]. rewrite memory_statuses_lookup in Hst.
    destruct (od_get i d) as [r|] eqn:Hi; [|done].
    eexists. split; [simpl; unfold InMemoryOutboxRepository_mark_dispatched, updates; by rewrite Hi|].
    by apply (memory_set d i r (copy_with_status DISPATCHED r)).
  - intros i err d Hok [st Hst]. rewrite memory_statuses_lookup in Hst.
    destruct (od_get i d) as [r|] eqn:Hi; [|done].
    eexists. split; [simpl; unfold InMemoryOutboxRepository_mark_failed, updates; by rewrite Hi|].
    by apply (memory_set d i r (copy_with_status FAILED r)).
Defined.

End InMemorySpec.

Section DispatchLemmas.
Context {X W : Type} `{OutboxRepositorySpec X}.

Definition succeeds {A} (o : outcome A) : bool := match o with Return _ => true | Raise _ => false end.

(** Where a record ends up. *)
Definition dispatch_status (script : OutboxRecord → outcome unit) (r : OutboxRecord) : OutboxStatus :=
  if succeeds (script r) then DISPATCHED else FAILED.

Definition count_ok (script : OutboxRecord → outcome unit) (l : list OutboxRecord) : Z :=
  Z.of_nat (length (filter (λ r, succeeds (script r) = true) l)).

(** A publisher that follows [script] for the outcome, does [logged] to its own state,
    and leaves the repository alone. *)
Definition publishes (publish : OutboxRecord → PyM (X * W) unit) (script : OutboxRecord → outcome unit)
    (logged : OutboxRecord → W → W) : Prop :=
  (∀ r x w, publish r (x, w) = (script r, (x, logged r w))) ∧
  (∀ r e, script r = Raise e → is_Exception e = true).

Lemma count_ok_cons script r l :
  count_ok script (r :: l) = ((if succeeds (script r) then 1 else 0) + count_ok script l)%Z.
Proof.
  unfold count_ok. rewrite filter_cons. destruct (succeeds (script r)); simpl; [|done]. lia.
Qed.

Lemma outbox_loop_spec publish failure script logged l x w n :
  publishes publish script logged → ob_ok x →
  (∀ r, r ∈ l → is_Some (ob_statuses x !! or_id r)) →
  ∃ x', outbox_loop publish failure l n (x, w) =
      (Return (n + count_ok script l)%Z, (x', fold_left (λ w r, logged r w) l w)) ∧
    ob_ok x' ∧
    ob_statuses x' = fold_left (λ m r, <[or_id r := dispatch_status script r]> m) l (ob_statuses x).
Proof.
  intros [Hpub Hexn]. revert x w n. induction l as [|r l IH]; intros x w n Hok Hin.
  { exists x. simpl. unfold count_ok. simpl. by rewrite Z.add_0_r. }
  assert (∃ x1, try_except (publish r ;; on_fst (ob_mark_dispatched (or_id r)) ;; mret (n + 1)%Z)
      (λ exc, on_fst (ob_mark_failed (or_id r) (failure exc)) ;; mret n) (x, w) =
      (Return (n + if succeeds (script r) then 1 else 0)%Z, (x1, logged r w)) ∧ ob_ok x1 ∧
      ob_statuses x1 = <[or_id r := dispatch_status script r]> (ob_statuses x)) as (x1 & Hstep & Hok1 & Hst1).
  { unfold try_except, try_base, mbind, PyM_bind, on_fst, dispatch_status. rewrite Hpub.
    assert (is_Some (ob_statuses x !! or_id r)) as Hr by (apply Hin; set_solver).
    destruct (script r) as [u|e] eqn:E; simpl.
    - destruct (ob_mark_dispatched_spec (or_id r) x Hok Hr) as (x1 & -> & ? & ?). by exists x1.
    - rewrite (Hexn r e E). simpl.
      destruct (ob_mark_failed_spec (or_id r) (failure e) x Hok Hr) as (x1 & -> & ? & ?).
      exists x1. by rewrite Z.add_0_r. }
  simpl outbox_loop. unfold mbind at 1, PyM_bind at 1. rewrite Hstep.
  destruct (IH x1 (logged r w) (n + if succeeds (script r) then 1 else 0)%Z Hok1) as (x' & -> & Hok' & Hst').
  { intros r' Hr'. rewrite Hst1, lookup_insert_is_Some'. right. apply Hin. set_solver. }
  exists x'. split_and!; [|done|by rewrite Hst', Hst1].
  by rewrite count_ok_cons, Z.add_assoc.
Qed.

Lemma settled_statuses script l (m : gmap string OutboxStatus) i :
  NoDup (or_id <$> l) →
  fold_left (λ m r, <[or_id r := dispatch_status script r]> m) l m !! i =
    match list_find (λ r, or_id r = i) l with
    | Some (_, r) => Some (dispatch_status script r)
    | None => m !! i
    end.
Proof.
  revert m. induction l as [|r l IH]; intros m Hnd; [done|]. apply NoDup_cons in Hnd as [Hr Hnd].
  simpl. rewrite IH by done. case_decide as Hi.
  - subst i. destruct (list_find _ l) as [[j r']|] eqn:E; [|by rewrite lookup_insert_eq].
    apply list_find_Some in E as (Hj & Hid & _). destruct Hr. rewrite <- Hid.
    apply list_elem_of_fmap. exists r'. split; [done|]. apply list_elem_of_lookup. eauto.
  - destruct (list_find _ l) as [[j r']|]; [done|]. by rewrite lookup_insert_ne.
Qed.

Lemma settled_elem script l (m : gmap string OutboxStatus) r :
  NoDup (or_id <$> l) → r ∈ l →
  fold_left (λ m r, <[or_id r := dispatch_status script r]> m) l m !! or_id r = Some (dispatch_status script r).
Proof.
  intros Hnd Hr. rewrite settled_statuses by done.
  destruct (list_find (λ r', or_id r' = or_id r) l) as [[j r']|] eqn:E.
  - apply list_find_Some in E as (Hj & Hid & _). apply list_elem_of_lookup in Hr as [k Hk].
    assert (j = k) as ->; [|congruence].
    eapply NoDup_lookup; [exact Hnd|..]; rewrite list_lookup_fmap; [by rewrite Hj|rewrite Hk; simpl; congruence].
  - apply list_find_None in E. rewrite Forall_forall in E. by destruct (E r Hr).
Qed.

Lemma settled_other script l (m : gmap string OutboxStatus) i :
  NoDup (or_id <$> l) → i ∉ or_id <$> l →
  fold_left (λ m r, <[or_id r := dispatch_status script r]> m) l m !! i = m !! i.
Proof.
  intros Hnd Hi. rewrite settled_statuses by done.
  destruct (list_find _ l) as [[j r']|] eqn:E; [|done].
  apply list_find_Some in E as (Hj & Hid & _). destruct Hi. rewrite <- Hid.
  apply list_elem_of_fmap. exists r'. split; [done|]. apply list_elem_of_lookup. eauto.
Qed.

(** What one run of a dispatcher does. *)
Lemma dispatch_run publish failure script logged x w :
  publishes publish script logged → ob_ok x →
  ∃ l x', ob_get_pending 100 x = (Return l, x) ∧ NoDup (or_id <$> l) ∧
    outbox_loop publish failure l 0 (x, w) =
      (Return (count_ok script l), (x', fold_left (λ w r, logged r w) l w)) ∧ ob_ok x' ∧
    (∀ r, r ∈ l → ob_statuses x !! or_id r = Some PENDING ∧
                  ob_statuses x' !! or_id r = Some (dispatch_status script r)) ∧
    (∀ i, i ∉ or_id <$> l → ob_statuses x' !! i = ob_statuses x !! i) ∧
    (length l = 100%nat ∨ ∀ i, ob_statuses x !! i = Some PENDING → i ∈ or_id <$> l).
Proof.
  intros Hpub Hok. destruct (ob_get_pending_spec 100 x Hok) as (l & Hget & Hnd & Hpend & Hall); [lia|].
  destruct (outbox_loop_spec publish failure script logged l x w 0 Hpub Hok) as (x' & Hrun & Hok' & Hst).
  { intros r Hr. rewrite Hpend by done. by eexists. }
  exists l, x'. split_and!; try done.
  - intros r Hr. split; [by apply Hpend|]. rewrite Hst. by apply settled_elem.
  - intros i Hi. rewrite Hst. by apply settled_other.
Qed.

(** The ids of the pending records. *)
Definition pending_ids (x : X) : gset string := dom (filter (λ e, snd e = PENDING) (ob_statuses x)).

Lemma elem_of_pending_ids x i : i ∈ pending_ids x ↔ ob_statuses x !! i = Some PENDING.
Proof.
  unfold pending_ids. rewrite elem_of_dom. split.
  - intros [st Hst]. apply map_lookup_filter_Some in Hst as [Hi Hst]. simpl in Hst. congruence.
  - intros Hi. exists PENDING. by apply map_lookup_filter_Some.
Qed.

(** What settling a batch leaves pending. *)
Lemma pending_left script x x' l :
  (∀ r, r ∈ l → ob_statuses x' !! or_id r = Some (dispatch_status script r)) →
  (∀ i, i ∉ or_id <$> l → ob_statuses x' !! i = ob_statuses x !! i) →
  pending_ids x' = pending_ids x ∖ list_to_set (or_id <$> l).
Proof.
  intros Hin Hout. apply set_eq. intros i. rewrite elem_of_difference, elem_of_list_to_set, !elem_of_pending_ids.
  destruct (decide (i ∈ or_id <$> l)) as [Hi|Hi]; [|rewrite Hout by done; naive_solver].
  split; [|naive_solver]. intros Hp. exfalso. apply list_elem_of_fmap in Hi as (r & -> & Hr).
  rewrite Hin in Hp by done. unfold dispatch_status in Hp. by destruct (succeeds _).
Qed.

(** A full batch takes a hundred of the pending records away. *)
Lemma pending_left_size x l n :
  NoDup (or_id <$> l) → (∀ r, r ∈ l → ob_statuses x !! or_id r = Some PENDING) →
  (length l = 100%nat ∨ ∀ i, ob_statuses x !! i = Some PENDING → i ∈ or_id <$> l) →
  (size (pending_ids x) ≤ 100 * S n)%nat → (size (pending_ids x ∖ list_to_set (or_id <$> l)) ≤ 100 * n)%nat.
Proof.
  intros Hnd Hin Hall Hsize. destruct Hall as [Hlen|Hall].
  - rewrite size_difference, size_list_to_set, length_fmap by
      (first [done | intros i (r & -> & Hr)%elem_of_list_to_set%list_elem_of_fmap; by apply elem_of_pending_ids, Hin]). lia.
  - assert (pending_ids x ∖ list_to_set (or_id <$> l) ≡ ∅) as ->%leibniz_equiv; [|by rewrite size_empty; lia].
    intros i. rewrite elem_of_difference, elem_of_list_to_set, elem_of_pending_ids. set_solver.
Qed.

End DispatchLemmas.

(** The fields of a stream entry: a header wins over an attribute of its name. *)
Lemma stream_fields_get r k :
  NoDup (or_headers r).*1 →
  od_get k (stream_fields r) =
    match od_get k (or_headers r) with
    | Some v => Some (FText v)
    | None => od_get k [("id", FText (or_id r)); ("event_type", FText (or_event_type r));
         ("aggregate_id", FText (or_aggregate_id r)); ("aggregate_type", FText (or_aggregate_type r));
         ("payload", FBytes (or_payload r))]
    end.
Proof.
  unfold stream_fields. generalize [("id", FText (or_id r)); ("event_type", FText (or_event_type r));
    ("aggregate_id", FText (or_aggregate_id r)); ("aggregate_type", FText (or_aggregate_type r));
    ("payload", FBytes (or_payload r))] as d.
  induction (or_headers r) as [|[h v] hs IH]; intros d Hnd; [done|].
  apply NoDup_cons in Hnd as [Hh Hnd]. simpl. rewrite IH by done. simpl in Hh. case_decide as Hk.
  - subst k. rewrite (proj2 (od_get_None h hs)) by done. by rewrite od_get_set_eq.
  - destruct (od_get k hs); [done|]. by rewrite od_get_set_ne.
Qed.

(** A Redis whose [xadd] follows a script and remembers the entries it was given. *)
Definition StreamLog : Type := list (string * list (string * field_value)).
Definition scripted_xadd (script : string → list (string * field_value) → outcome string)
    (stream : string) (fields : list (string * field_value)) (maxlen : option Z) : PyM StreamLog string :=
  λ log, (script stream fields, log ++ [(stream, fields)]).

Definition entry_script (script : string → list (string * field_value) → outcome string)
    (r : OutboxRecord) : outcome unit :=
  match script (or_topic r) (stream_fields r) with Return _ => Return tt | Raise e => Raise e end.

Lemma scripted_publishes {X} script :
  (∀ s f e, script s f = Raise e → is_Exception e = true) →
  publishes (X := X)
    (λ r, on_snd (RedisStreamProducer_publish (scripted_xadd script) (or_topic r) (stream_fields r) None) ;; mret tt)
    (entry_script script) (λ r log, log ++ [(or_topic r, stream_fields r)]).
Proof.
  intros Hexn. split.
  - intros r x w. unfold RedisStreamProducer_publish, scripted_xadd, on_snd, mbind, PyM_bind, entry_script.
    simpl. by destruct (script _ _).
  - intros r e. unfold entry_script. destruct (script _ _) eqn:E; [done|]. intros [= <-]. eauto.
Qed.

Lemma fold_log {A B} (f : A → B) l (log : list B) :
  fold_left (λ log x, log ++ [f x]) l log = log ++ map f l.
Proof.
  revert log. induction l as [|x l IH]; intros log; simpl; [by rewrite app_nil_r|].
  rewrite IH. by rewrite <- app_assoc.
Qed.

(** ** Theorems *)

(** The dispatcher run [n] times; the records dispatched. *)
Fixpoint dispatch_times {S} (dispatch : PyM S Z) (n : nat) : PyM S Z :=
  match n with
  | O => mret 0%Z
  | S n' => k ← dispatch; m ← dispatch_times dispatch n'; mret (k + m)%Z
  end.

Lemma dispatch_times_S {S} (dispatch : PyM S Z) n s k s1 m s2 :
  dispatch s = (Return k, s1) → dispatch_times dispatch n s1 = (Return m, s2) → dispatch_times dispatch (Datatypes.S n) s = (Return (k + m)%Z, s2).
Proof. intros H1 H2. simpl. unfold mbind, PyM_bind. by rewrite H1, H2. Qed.

Lemma count_ok_app script l1 l2 : count_ok script (l1 ++ l2) = (count_ok script l1 + count_ok script l2)%Z.
Proof. unfold count_ok. rewrite filter_app, length_app. lia. Qed.

Section StreamRuns.
Context {X : Type} `{OutboxRepositorySpec X} (script : string → list (string * field_value) → outcome string).
Context (Hexn : ∀ s f e, script s f = Raise e → is_Exception e = true).

Let dispatch := RedisStreamOutboxDispatcher_dispatch_pending (X := X) (scripted_xadd script).
Let entries (l : list OutboxRecord) : StreamLog := map (λ r, (or_topic r, stream_fields r)) l.

Lemma stream_run x (log : list (string * list (string * field_value))) : ob_ok x →
  ∃ l x', ob_get_pending 100 x = (Return l, x) ∧ NoDup (or_id <$> l) ∧
    dispatch (x, log) = (Return (count_ok (entry_script script) l), (x', log ++ entries l)) ∧ ob_ok x' ∧
    (∀ r, r ∈ l → ob_statuses x !! or_id r = Some PENDING ∧
       ob_statuses x' !! or_id r = Some (dispatch_status (entry_script script) r)) ∧
    (∀ i, i ∉ or_id <$> l → ob_statuses x' !! i = ob_statuses x !! i) ∧
    (length l = 100%nat ∨ ∀ i, ob_statuses x !! i = Some PENDING → i ∈ or_id <$> l).
Proof using Hexn.
  intros Hok. destruct (dispatch_run _ (λ _, "dispatch failed") _ _ x log (scripted_publishes script Hexn) Hok)
    as (l & x' & Hget & Hnd & Hrun & Hrest). exists l, x'. rewrite (fold_log (λ r, (or_topic r, stream_fields r)) l log) in Hrun. split_and!; try apply Hrest; try done.
  unfold dispatch, RedisStreamOutboxDispatcher_dispatch_pending, mbind at 1, PyM_bind at 1, on_fst at 1.
  cbn [fst snd]. rewrite Hget. exact Hrun.
Qed.

(** With nothing pending a run does nothing. *)
Lemma stream_run_idle x log : ob_ok x → pending_ids x = ∅ → dispatch (x, log) = (Return 0%Z, (x, log)).
Proof.
  intros Hok Hnone. destruct (ob_get_pending_spec 100 x Hok) as (l & Hget & _ & Hpend & _); [lia|].
  assert (l = []) as ->.
  { destruct l as [|r l]; [done|]. assert (or_id r ∈ pending_ids x) as Hr by (apply elem_of_pending_ids, Hpend, list_elem_of_here).
    rewrite Hnone in Hr. set_solver. }
  unfold dispatch, RedisStreamOutboxDispatcher_dispatch_pending, mbind at 1, PyM_bind at 1, on_fst at 1.
  cbn [fst snd]. by rewrite Hget.
Qed.

Lemma stream_runs n x log : ob_ok x → (size (pending_ids x) ≤ 100 * n)%nat →
  ∃ l x', dispatch_times dispatch n (x, log) = (Return (count_ok (entry_script script) l), (x', log ++ entries l)) ∧
    ob_ok x' ∧ NoDup (or_id <$> l) ∧ (∀ i, i ∈ or_id <$> l ↔ ob_statuses x !! i = Some PENDING) ∧
    (∀ r, r ∈ l → ob_statuses x' !! or_id r = Some (dispatch_status (entry_script script) r)) ∧
    (∀ i, i ∉ or_id <$> l → ob_statuses x' !! i = ob_statuses x !! i) ∧ pending_ids x' = ∅.
Proof using Hexn.
  revert x log. induction n as [|n IH]; intros x log Hok Hsize.
  { assert (pending_ids x = ∅) as Hnone by (apply leibniz_equiv, size_empty_inv; lia).
    exists [], x. simpl. rewrite app_nil_r. split_and!; [done | done | apply NoDup_nil_2 | | by intros r ?%elem_of_nil | done | done]. intros i. split; [by intros ?%elem_of_nil|].
    intros Hi%elem_of_pending_ids. rewrite Hnone in Hi. set_solver. }
  destruct (stream_run x log Hok) as (l1 & x1 & _ & Hnd1 & Hrun1 & Hok1 & Hin1 & Hout1 & Hall1).
  assert (Hleft : pending_ids x1 = pending_ids x ∖ list_to_set (or_id <$> l1)) by (eapply pending_left; [intros r Hr; by apply Hin1 | done]).
  destruct (IH x1 (log ++ entries l1) Hok1) as (l2 & x2 & Hrun2 & Hok2 & Hnd2 & Hin2 & Hst2 & Hout2 & Hnone).
  { rewrite Hleft. apply pending_left_size; try done. intros r Hr. by apply Hin1. }
  assert (Hdisj : ∀ i, i ∈ or_id <$> l1 → i ∉ or_id <$> l2).
  { intros i Hi Hi2. apply Hin2, elem_of_pending_ids in Hi2. rewrite Hleft in Hi2. set_solver. }
  exists (l1 ++ l2), x2. split_and!.
  - unfold entries. rewrite map_app, app_assoc, count_ok_app. by eapply dispatch_times_S.
  - done.
  - rewrite fmap_app. by apply NoDup_app.
  - intros i. rewrite fmap_app, elem_of_app, Hin2, <- !elem_of_pending_ids, Hleft, elem_of_difference, elem_of_list_to_set.
    destruct (decide (i ∈ or_id <$> l1)) as [Hi|Hi]; [|naive_solver]. split; [intros _ | auto].
    apply list_elem_of_fmap in Hi as (r & -> & Hr). by apply elem_of_pending_ids, Hin1.
  - intros r [Hr|Hr]%elem_of_app; [|by apply Hst2]. rewrite Hout2; [by apply Hin1|]. apply Hdisj, list_elem_of_fmap. eauto.
  - intros i. rewrite fmap_app, not_elem_of_app. intros [Hi1 Hi2]. by rewrite Hout2, Hout1.
  - done.
Qed.

End StreamRuns.

(** C24: The Redis Streams dispatcher over any repository that keeps the contract.  One run adds each record
    of the batch [get_pending] returned (a hundred pending records, or all of
    them) to the stream of its topic once and in that order, marks it DISPATCHED or, if adding it raised,
    FAILED, changes no other record and returns the number dispatched.  As many runs as there are
    hundreds of pending records, begun ones included, add every pending record
    once and nothing else, settle each, return in sum the number dispatched, and a
    further run then finds nothing, adds nothing and returns 0. *)
Theorem outbox_dispatch_exact {X} `{OutboxRepositorySpec X} script (x : X) log n :
  ob_ok x → (∀ s f e, script s f = Raise e → is_Exception e = true) →
  (size (pending_ids x) ≤ 100 * n)%nat →
  let dispatch := RedisStreamOutboxDispatcher_dispatch_pending (scripted_xadd script) in
  let entries := map (λ r, (or_topic r, stream_fields r)) in
  (∃ l x', ob_get_pending 100 x = (Return l, x) ∧ NoDup (or_id <$> l) ∧
    dispatch (x, log) = (Return (count_ok (entry_script script) l), (x', log ++ entries l)) ∧
    (∀ r, r ∈ l → ob_statuses x !! or_id r = Some PENDING ∧
       ob_statuses x' !! or_id r = Some (dispatch_status (entry_script script) r)) ∧
    (∀ i, i ∉ or_id <$> l → ob_statuses x' !! i = ob_statuses x !! i) ∧
    (length l = 100%nat ∨ ∀ i, ob_statuses x !! i = Some PENDING → i ∈ or_id <$> l)) ∧
  (∃ l x', dispatch_times dispatch n (x, log) = (Return (count_ok (entry_script script) l), (x', log ++ entries l)) ∧
    NoDup (or_id <$> l) ∧ (∀ i, i ∈ or_id <$> l ↔ ob_statuses x !! i = Some PENDING) ∧
    (∀ r, r ∈ l → ob_statuses x' !! or_id r = Some (dispatch_status (entry_script script) r)) ∧
    (∀ i, i ∉ or_id <$> l → ob_statuses x' !! i = ob_statuses x !! i) ∧
    ∀ log', dispatch (x', log') = (Return 0%Z, (x', log'))).
Proof.
  intros Hok Hexn Hsize dispatch entries. split.
  - destruct (stream_run script Hexn x log Hok) as (l & x' & Hget & Hnd & Hrun & _ & Hrest). by exists l, x'.
  - destruct (stream_runs script Hexn n x log Hok Hsize) as (l & x' & Hrun & Hok' & Hnd & Hin & Hst & Hout & Hnone).
    exists l, x'. split_and!; try done. intros log'. by apply stream_run_idle.
Qed.

(** a header of a record named like an attribute of the entry replaces it on the
    stream, the id and the payload included; every other field is the attribute. *)
Theorem stream_header_wins r k :
  NoDup (or_headers r).*1 →
  (∀ v, od_get k (or_headers r) = Some v → od_get k (stream_fields r) = Some (FText v)) ∧
  (od_get k (or_headers r) = None → k = "payload" →
     od_get k (stream_fields r) = Some (FBytes (or_payload r))) ∧
  (od_get k (or_headers r) = None → k = "id" → od_get k (stream_fields r) = Some (FText (or_id r))).
Proof.
  intros Hnd. rewrite stream_fields_get by done. split_and!.
  - by intros v ->.
  - intros Hno ->. rewrite Hno. reflexivity.
  - intros Hno ->. rewrite Hno. reflexivity.
Qed.

(** a record with a correlation id among its headers is sent to Kafka with that header
    twice. *)
Theorem kafka_correlation_twice r c :
  od_get "correlation-id" (or_headers r) = Some c → c ≠ "" → NoDup (or_headers r).*1 →
  filter (λ h, fst h = "correlation-id") (kafka_headers (bm_headers (outbox_message r))) =
    [("correlation-id", c); ("correlation-id", c)].
Proof.
  intros Hc Hne Hnd. unfold kafka_headers, outbox_message. simpl. rewrite Hc.
  rewrite filter_app. assert (∀ hs : list (string * string), NoDup hs.*1 →
    od_get "correlation-id" hs = Some c → filter (λ h, fst h = "correlation-id") hs = [("correlation-id", c)]) as Hone.
  { induction hs as [|[h v] hs IH]; intros Hn Hg; [done|]. apply NoDup_cons in Hn as [Hh Hn].
    rewrite filter_cons. simpl in *. repeat case_decide; simplify_eq/=; [|by apply IH].
    f_equal. apply od_get_None in Hh. clear -Hh. induction hs as [|[h v'] hs IH]; [done|].
    rewrite filter_cons. simpl in *. repeat case_decide; simplify_eq/=; auto. }
  rewrite (Hone _ Hnd Hc). by destruct c.
Qed.

(** ** Witnesses *)

Definition demo_record (i topic : string) (st : OutboxStatus) : OutboxRecord :=
  mkOutbox i "agg-1" "Order" "OrderPlaced" topic [1; 2]%Z [("correlation-id", "c-9")] st 0 None 0 None.
Definition demo_outbox : list (string * OutboxRecord) :=
  [("a", demo_record "a" "orders" PENDING); ("b", demo_record "b" "orders" DISPATCHED);
   ("c", demo_record "c" "bad" PENDING)].
Definition demo_stream (stream : string) (fields : list (string * field_value)) : outcome string :=
  if String.eqb stream "bad" then Raise (ValueError "no stream") else Return "1-0".

Lemma outbox_dispatch_exact_witness :
  (∃ x', RedisStreamOutboxDispatcher_dispatch_pending (scripted_xadd demo_stream) (demo_outbox, []) =
      (Return 1%Z, (x', [("orders", stream_fields (demo_record "a" "orders" PENDING));
                         ("bad", stream_fields (demo_record "c" "bad" PENDING))])) ∧
    ob_statuses x' !! "a" = Some DISPATCHED ∧ ob_statuses x' !! "c" = Some FAILED) ∧
  ∃ l x' k, dispatch_times (RedisStreamOutboxDispatcher_dispatch_pending (scripted_xadd demo_stream)) 1 (demo_outbox, []) =
      (Return k, (x', map (λ r, (or_topic r, stream_fields r)) l)) ∧
    (∀ i, i ∈ or_id <$> l ↔ ob_statuses demo_outbox !! i = Some PENDING).
Proof.
  destruct (outbox_dispatch_exact demo_stream demo_outbox [] 1) as [(l & x' & Hget & _ & Hrun & Hin & _) (l' & x2 & Hruns & _ & Hids & _)].
  - split; [|reflexivity]. vm_compute. repeat constructor; intros H; repeat (inversion H as [|? ? ? H']; clear H; rename H' into H).
  - intros s f e. unfold demo_stream. destruct (s =? "bad")%string; [|done]. intros [= <-]. reflexivity.
  - vm_compute. repeat constructor.
  - split; [|exists l', x2; eexists; split; [exact Hruns | exact Hids]].
    vm_compute in Hget. injection Hget as <-. exists x'. split; [exact Hrun|]. split.
    + exact (proj2 (Hin (demo_record "a" "orders" PENDING) (list_elem_of_here _ _))).
    + exact (proj2 (Hin (demo_record "c" "bad" PENDING) (list_elem_of_further _ _ _ (list_elem_of_here _ _)))).
Defined.

Lemma stream_header_wins_witness :
  od_get "payload" (stream_fields (mkOutbox "a" "" "" "" "t" [7%Z] [("payload", "x")] PENDING 0 None 0 None))
    = Some (FText "x").
Proof.
  apply (stream_header_wins (mkOutbox "a" "" "" "" "t" [7%Z] [("payload", "x")] PENDING 0 None 0 None) "payload").
  - vm_compute. repeat constructor. intros H. inversion H.
  - reflexivity.
Defined.

Lemma kafka_correlation_twice_witness :
  filter (λ h, fst h = "correlation-id")
    (kafka_headers (bm_headers (outbox_message (demo_record "a" "orders" PENDING)))) =
    [("correlation-id", "c-9"); ("correlation-id", "c-9")].
Proof.
  apply (kafka_correlation_twice (demo_record "a" "orders" PENDING)).
  - reflexivity.
  - discriminate.
  - vm_compute. repeat constructor. intros H. inversion H.
Defined.
