(* ===== verification/EventRows.v ===== *)
(** * Events kept as rows

    What the event stores over a database share: the insertion of rows under a unique
    index, and the rows of a list of events whose streams are numbered without gaps. *)
From S2P Require Import Prelude PyString EventSourcing.

(** ** Rows *)

(** Ordered bulk insertion: up to the first row that clashes with one already there. *)
Fixpoint insert_rows {Row} (clash : Row → Row → bool) (rows new : list Row) : bool * list Row :=
  match new with
  | [] => (true, rows)
  | r :: new' => if existsb (clash r) rows then (false, rows) else insert_rows clash (rows ++ [r]) new'
  end.

(** A comprehension [[f(x) for x in l]] whose [f] may raise. *)
Fixpoint map_outcome {A B} (f : A → outcome B) (l : list A) : outcome (list B) :=
  match l with
  | [] => Return []
  | x :: l' =>
      match f x with
      | Raise e => Raise e
      | Return y => match map_outcome f l' with Raise e => Raise e | Return ys => Return (y :: ys) end
      end
  end.

Section Filter.
Context {A : Type} (P : A → Prop) `{!∀ x, Decision (P x)}.

Lemma filter_none (l : list A) : (∀ x, x ∈ l → ¬ P x) → filter P l = [].
Proof.
  induction l as [|x l IH]; intros Hl; [done|]. rewrite filter_cons, decide_False by (apply Hl; apply list_elem_of_here).
  apply IH. intros y Hy. by apply Hl, list_elem_of_further.
Qed.

Lemma filter_every (l : list A) : (∀ x, x ∈ l → P x) → filter P l = l.
Proof.
  induction l as [|x l IH]; intros Hl; [done|]. rewrite filter_cons, decide_True by (apply Hl; apply list_elem_of_here).
  f_equal. apply IH. intros y Hy. by apply Hl, list_elem_of_further.
Qed.

End Filter.

(** ** Streams *)

Definition ekey {M} (e : StoredEvent M) : string * Z := (se_stream_id e, se_version e).

Lemma stream_wf_versions {M} (l : list (StoredEvent M)) : stream_wf l → NoDup (se_version <$> l).
Proof.
  intros Hwf. apply NoDup_alt. intros i j v. rewrite !list_lookup_fmap.
  destruct (l !! i) as [e|] eqn:Hi, (l !! j) as [e'|] eqn:Hj; try done.
  intros [= Hv] [= Hv']. rewrite (Hwf _ _ Hi) in Hv. rewrite (Hwf _ _ Hj) in Hv'. lia.
Qed.

Section Streams.
Context {M : Type}.
Implicit Types (evs events : list (StoredEvent M)).

Definition stream_of (sid : string) (evs : list (StoredEvent M)) : list (StoredEvent M) :=
  filter (λ e, se_stream_id e = sid) evs.

Lemma stream_of_app sid evs events : stream_of sid (evs ++ events) = stream_of sid evs ++ stream_of sid events.
Proof. apply filter_app. Qed.

Lemma NoDup_ekeys evs : (∀ sid, NoDup (se_version <$> stream_of sid evs)) → NoDup (ekey <$> evs).
Proof.
  induction evs as [|e evs IH]; intros Hs; [by constructor|]. rewrite fmap_cons. constructor.
  - rewrite list_elem_of_fmap. intros (e' & Hk & He'). injection Hk as Hsid Hv.
    specialize (Hs (se_stream_id e)). unfold stream_of in Hs. rewrite filter_cons, decide_True in Hs by done.
    apply NoDup_cons in Hs as [Hs _]. apply Hs. rewrite Hv. apply list_elem_of_fmap. exists e'.
    split; [done|]. by apply list_elem_of_filter.
  - apply IH. intros sid. specialize (Hs sid). unfold stream_of in *. rewrite filter_cons in Hs.
    case_decide; [|done]. by apply NoDup_cons in Hs as [_ ?].
Qed.

Lemma stream_of_numbered sid n events sid' :
  numbered sid n events → stream_of sid' events = if decide (sid' = sid) then events else [].
Proof.
  intros Hnum. unfold stream_of.
  assert (Forall (λ e, se_stream_id e = sid) events) as Hall.
  { apply Forall_forall. intros e [j Hj]%list_elem_of_lookup. by destruct (Hnum _ _ Hj). }
  clear Hnum. induction Hall as [|e events He _ IH]; [by case_decide|].
  rewrite filter_cons, IH. repeat case_decide; congruence.
Qed.

Lemma holds_append evs sid events :
  (∀ s, stream_wf (stream_of s evs)) → numbered sid (Z.of_nat (length (stream_of sid evs))) events →
  ∀ s, stream_wf (stream_of s (evs ++ events)).
Proof.
  intros Hwf Hnum s. rewrite stream_of_app, (stream_of_numbered sid _ events s Hnum). case_decide as Hs; [|by rewrite app_nil_r].
  subst s. apply stream_wf_app; [apply Hwf|]. intros j e Hj. by destruct (Hnum _ _ Hj) as [-> _].
Qed.

Lemma stream_sorted (l : list (StoredEvent M)) v :
  stream_wf l → Sorted (λ a b, (se_version a <= se_version b)%Z) (filter (λ e, (v < se_version e)%Z) l).
Proof.
  intros Hwf. apply StronglySorted_Sorted.
  assert (StronglySorted (λ a b, (se_version a <= se_version b)%Z) l) as Hs.
  { clear v. assert (∃ n : Z, ∀ j (e : StoredEvent M), l !! j = Some e → se_version e = (n + Z.of_nat j)%Z)
      as [n Hn] by (exists 1%Z; intros j e Hj; rewrite (Hwf _ _ Hj); lia).
    clear Hwf. revert n Hn. induction l as [|e l IH]; intros n Hn; constructor.
    - apply (IH (n + 1)%Z). intros j e' Hj. rewrite (Hn (S j) e' Hj). lia.
    - apply Forall_forall. intros e' [j Hj]%list_elem_of_lookup.
      rewrite (Hn 0%nat e eq_refl), (Hn (S j) e' Hj). lia. }
  clear Hwf. induction Hs as [|e l' Hs IH Hall]; [constructor|]. rewrite filter_cons. case_decide; [|done].
  constructor; [done|]. rewrite Forall_forall in *. intros e1 [_ He1]%list_elem_of_filter. by apply Hall.
Qed.

End Streams.

Section EventRows.
Context {M Row : Type} (to_row : StoredEvent M → Row) (clash : Row → Row → bool) (row_version : Row → Z).
Context (clash_spec : ∀ a b, clash (to_row a) (to_row b) = true ↔ ekey a = ekey b).
Context (row_version_spec : ∀ e, row_version (to_row e) = se_version e).
Implicit Types (evs events : list (StoredEvent M)).

Lemma existsb_clash e evs :
  existsb (clash (to_row e)) (map to_row evs) = true ↔ ekey e ∈ ekey <$> evs.
Proof.
  rewrite existsb_exists, list_elem_of_fmap. split.
  - intros (d & Hd & Hc). apply in_map_iff in Hd as (e' & <- & He'). exists e'.
    rewrite clash_spec in Hc. split; [done|]. by apply list_elem_of_In.
  - intros (e' & Hk & He'). exists (to_row e'). split; [apply in_map, list_elem_of_In, He'|].
    by apply clash_spec.
Qed.

Lemma insert_events evs events :
  NoDup (ekey <$> evs ++ events) →
  insert_rows clash (map to_row evs) (map to_row events) = (true, map to_row (evs ++ events)).
Proof.
  revert evs. induction events as [|e events IH]; intros evs Hnd; cbn [map insert_rows]; [by rewrite app_nil_r|].
  destruct (existsb _ _) eqn:E.
  - apply existsb_clash in E. rewrite fmap_app, NoDup_app in Hnd. destruct Hnd as (_ & Hd & _).
    destruct (Hd _ E). rewrite fmap_cons. apply list_elem_of_here.
  - change [to_row e] with (map to_row [e]). rewrite <- (map_app to_row evs [e]), IH by by rewrite <- app_assoc.
    by rewrite <- app_assoc.
Qed.

Lemma filter_to_row (p : Row → bool) (q : StoredEvent M → Prop) `{!∀ e, Decision (q e)} evs :
  (∀ e, p (to_row e) = true ↔ q e) →
  filter (λ d, p d = true) (map to_row evs) = map to_row (filter q evs).
Proof.
  intros Hpq. induction evs as [|e evs IH]; [done|]. cbn [map]. rewrite !filter_cons, IH.
  destruct (decide (q e)) as [Hq|Hq].
  - rewrite decide_True by by apply Hpq. done.
  - rewrite decide_False by by rewrite Hpq. done.
Qed.

Lemma rows_versions evs : row_version <$> map to_row evs = se_version <$> evs.
Proof. induction evs as [|e evs IH]; [done|]. cbn. by rewrite row_version_spec, IH. Qed.

Lemma rows_sorted evs v :
  stream_wf evs → Sorted (λ a b, (row_version a <= row_version b)%Z)
    (map to_row (filter (λ e, (v < se_version e)%Z) evs)).
Proof.
  intros Hwf. induction (stream_sorted evs v Hwf) as [|e l' Hs IH Hhd]; [constructor|].
  cbn [map]. constructor; [done|]. destruct Hhd; constructor. by rewrite !row_version_spec.
Qed.

(** Events that continue their stream go in. *)
Lemma insert_continues evs sid events :
  (∀ s, stream_wf (stream_of s evs)) → numbered sid (Z.of_nat (length (stream_of sid evs))) events →
  insert_rows clash (map to_row evs) (map to_row events) = (true, map to_row (evs ++ events)).
Proof.
  intros Hwf Hnum. apply insert_events, NoDup_ekeys. intros s. by apply stream_wf_versions, (holds_append _ sid).
Qed.

(** Events numbered after an earlier state of their stream do not. *)
Lemma insert_stale evs sid events n :
  (∀ s, stream_wf (stream_of s evs)) → events ≠ [] → (0 <= n < Z.of_nat (length (stream_of sid evs)))%Z →
  numbered sid n events →
  insert_rows clash (map to_row evs) (map to_row events) = (false, map to_row evs).
Proof.
  intros Hwf Hne Hn Hnum. destruct events as [|e events]; [done|].
  destruct (Hnum 0%nat e eq_refl) as [Hv Hs].
  cbn [map insert_rows]. assert (existsb (clash (to_row e)) (map to_row evs) = true) as ->; [|done].
  apply existsb_clash. assert (Z.to_nat n < length (stream_of sid evs))%nat as Hlt by lia.
  destruct (lookup_lt_is_Some_2 _ _ Hlt) as [e' He']. pose proof (Hwf sid _ _ He') as Hv'.
  apply list_elem_of_lookup_2, list_elem_of_filter in He' as [Hs' He'].
  apply list_elem_of_fmap. exists e'. split; [|done]. unfold ekey. rewrite Hs, Hs', Hv, Hv'. f_equal. lia.
Qed.

(** The rows of a stream from a version on, in the order of their versions, are its events. *)
Lemma select_stream (p : Row → bool) evs sid v l :
  (∀ s, stream_wf (stream_of s evs)) →
  (∀ e, p (to_row e) = true ↔ (v < se_version e)%Z ∧ se_stream_id e = sid) →
  l ≡ₚ filter (λ r, p r = true) (map to_row evs) →
  Sorted (λ a b, (row_version a <= row_version b)%Z) l →
  l = map to_row (filter (λ e, (v < se_version e)%Z) (stream_of sid evs)).
Proof.
  intros Hwf Hp Hperm Hsort.
  rewrite (filter_to_row p (λ e, (v < se_version e)%Z ∧ se_stream_id e = sid) evs Hp) in Hperm.
  rewrite <- (list_filter_filter (λ e, (v < se_version e)%Z) (λ e, se_stream_id e = sid)) in Hperm.
  fold (stream_of sid evs) in Hperm. symmetry.
  apply (sorted_unique row_version); [|by apply rows_sorted | done | done].
  eapply sublist_NoDup; [exact (stream_wf_versions _ (Hwf sid))|].
  rewrite rows_versions. apply fmap_sublist, sublist_filter.
Qed.

End EventRows.
