(* ===== verification/Mongo.v ===== *)
(** * The MongoDB adapters

    [adapters/mongodb/event_store.py], [outbox.py], [repository.py], [uow.py].  A
    collection is a type with the calls the adapters make ([Collection]) and what they do
    to its rows ([CollectionSpec]); [list_Collection] is one that meets it.  A query
    document is written as the predicate it stands for.  The event store and the outbox
    store implement the ports of [EventSourcing] and [Outbox], and keep their contracts. *)
From S2P Require Import Prelude PyString OrderedDict Errors ValueObjects EventSourcing EventRows Outbox.

(** ** Collections *)

Class Collection (C Row : Type) := {
  col_find : (Row → bool) → option (Row → Z) → Z → PyM C (list Row);
  col_count : (Row → bool) → PyM C Z;
  col_insert_one : Row → PyM C unit;
  col_insert_many : list Row → PyM C unit;
  col_update_one : (Row → bool) → (Row → Row) → PyM C unit;
  col_replace_one : (Row → bool) → Row → PyM C unit;
  col_delete_one : (Row → bool) → PyM C unit;
}.

(** Replace the first row that satisfies a predicate. *)
Fixpoint update_first {Row} (p : Row → bool) (f : Row → Row) (rows : list Row) : list Row :=
  match rows with
  | [] => []
  | r :: rows' => if p r then f r :: rows' else r :: update_first p f rows'
  end.

Fixpoint delete_first {Row} (p : Row → bool) (rows : list Row) : list Row :=
  match rows with
  | [] => []
  | r :: rows' => if p r then rows' else r :: delete_first p rows'
  end.

Definition with_limit {A} (n : Z) (l : list A) : list A := if (n =? 0)%Z then l else take (Z.to_nat n) l.

(** The rows that satisfy a predicate come in some order, in that of the sort key if there
    is one.  [clash] says which rows the unique indexes keep apart. *)
Class CollectionSpec (C Row : Type) `{Collection C Row} (clash : Row → Row → bool) := {
  col_rows : C → list Row;
  dup_error : pyexn;
  dup_error_exn : is_Exception dup_error = true;
  col_find_spec p sort n c : (0 <= n)%Z →
    ∃ l, col_find p sort n c = (Return (with_limit n l), c) ∧
      l ≡ₚ filter (λ r, p r = true) (col_rows c) ∧
      ∀ key, sort = Some key → Sorted (λ a b, (key a <= key b)%Z) l;
  col_count_spec p c :
    col_count p c = (Return (Z.of_nat (length (filter (λ r, p r = true) (col_rows c)))), c);
  col_insert_one_spec r c :
    ∃ c', col_insert_one r c =
        ((if existsb (clash r) (col_rows c) then Raise dup_error else Return tt), c') ∧
      col_rows c' = if existsb (clash r) (col_rows c) then col_rows c else col_rows c ++ [r];
  col_insert_many_spec rs c :
    ∃ c', col_insert_many rs c =
        ((if fst (insert_rows clash (col_rows c) rs) then Return tt else Raise dup_error), c') ∧
      col_rows c' = snd (insert_rows clash (col_rows c) rs);
  col_update_one_spec p f c :
    ∃ c', col_update_one p f c = (Return tt, c') ∧ col_rows c' = update_first p f (col_rows c);
  col_replace_one_spec p r c :
    ∃ c', col_replace_one p r c = (Return tt, c') ∧
      col_rows c' = if existsb p (col_rows c) then update_first p (λ _, r) (col_rows c) else col_rows c ++ [r];
  col_delete_one_spec p c :
    ∃ c', col_delete_one p c = (Return tt, c') ∧ col_rows c' = delete_first p (col_rows c);
}.

(** MongoDB names the violation of a unique index by its code. *)
Class MongoDuplicate (C Row : Type) (clash : Row → Row → bool) `{CollectionSpec C Row clash} : Prop :=
  dup_error_text : contains "E11000" (exn_msg (dup_error (clash := clash))) = true.

Definition DuplicateKeyError : pyexn :=
  exn_of ["DuplicateKeyError"; "WriteError"; "OperationFailure"; "PyMongoError"] "E11000 duplicate key error".

(** A collection kept as a list; [clash] is its indexes. *)
Definition list_Collection {Row} (clash : Row → Row → bool) : Collection (list Row) Row := {|
  col_find p sort n := reads (λ rows, with_limit n
    (let l := filter (λ r, p r = true) rows in match sort with Some key => sorted_by key l | None => l end));
  col_count p := reads (λ rows, Z.of_nat (length (filter (λ r, p r = true) rows)));
  col_insert_one r := λ rows,
    if existsb (clash r) rows then (Raise DuplicateKeyError, rows) else (Return tt, rows ++ [r]);
  col_insert_many rs := λ rows,
    let '(ok, rows') := insert_rows clash rows rs in
    ((if ok then Return tt else Raise DuplicateKeyError), rows');
  col_update_one p f := updates (update_first p f);
  col_replace_one p r := updates (λ rows, if existsb p rows then update_first p (λ _, r) rows else rows ++ [r]);
  col_delete_one p := updates (delete_first p);
|}.

Definition list_CollectionSpec {Row} (clash : Row → Row → bool) :
  @CollectionSpec (list Row) Row (list_Collection clash) clash.
Proof.
  unshelve eapply (@Build_CollectionSpec (list Row) Row (list_Collection clash) clash id DuplicateKeyError);
    unfold id; try done.
  - intros p sort n c Hn. eexists. split; [done|]. destruct sort as [key|].
    + split; [apply sorted_by_perm|]. intros key' [= <-]. apply (sorted_by_sorted key).
    + done.
  - intros r c. simpl. destruct (existsb _ _); by eexists.
  - intros rs c. simpl. destruct (insert_rows clash c rs) as [ok rows]. by eexists.
  - intros p f c. by eexists.
  - intros p r c. by eexists.
  - intros p c. by eexists.
Defined.

(** ** Documents *)

Inductive dval (M : Type) :=
| DNull
| DStr (s : string)
| DInt (n : Z)
| DBytes (b : list Z)
| DRaw (s : string)
| DTime (t : Z)
| DMap (m : list (string * string))
| DMeta (m : M).
Arguments DNull {M}.
Arguments DStr {M} s.
Arguments DInt {M} n.
Arguments DBytes {M} b.
Arguments DRaw {M} s.
Arguments DTime {M} t.
Arguments DMap {M} m.
Arguments DMeta {M} m.

Definition doc (M : Type) : Type := list (string * dval M).

(** ** The event store *)

Section EventStore.
Context {C M : Type} `{!Collection C (doc M)} (no_metadata : M).

Definition event_key (sid : string) (version : Z) : string := sid +:+ "#" +:+ str_of_int version.

Definition MongoEventStore_to_doc (ev : StoredEvent M) : doc M :=
  [("_id", DStr (event_key (se_stream_id ev) (se_version ev)));
   ("stream_id", DStr (se_stream_id ev));
   ("version", DInt (se_version ev));
   ("event_type", DStr (se_event_type ev));
   ("payload", DRaw (se_payload ev));
   ("metadata", DMeta (se_metadata ev));
   ("occurred_at", DTime (se_occurred_at ev))].

(** [_from_doc]; a key that must be there is looked up with [doc[...]].  Fields hold what
    the store writes into them. *)
Definition MongoEventStore_from_doc (now : Z) (d : doc M) : outcome (StoredEvent M) :=
  match od_get "stream_id" d, od_get "version" d, od_get "event_type" d with
  | Some (DStr sid), Some (DInt v), Some (DStr ty) =>
      Return (mkStored sid v ty
        (match od_get "payload" d with Some (DRaw p) => p | _ => "" end)
        (match od_get "metadata" d with Some (DMeta m) => m | _ => no_metadata end)
        (match od_get "occurred_at" d with Some (DTime t) => t | _ => now end))
  | _, _, _ => Raise (KeyError "stream_id")
  end.

(** [{"stream_id": sid}] and [{"version": {"$gt": v}}]. *)
Definition stream_is (sid : string) (d : doc M) : bool :=
  match od_get "stream_id" d with Some (DStr s) => String.eqb s sid | _ => false end.
Definition doc_version (d : doc M) : Z :=
  match od_get "version" d with Some (DInt v) => v | _ => 0%Z end.
Definition version_gt (v : Z) (d : doc M) : bool :=
  match od_get "version" d with Some (DInt v') => (v <? v')%Z | _ => false end.

(** The second half of [append], after the count: insert, and tell a duplicate key. *)
Definition MongoEventStore_write (stream_id : string) (events : list (StoredEvent M)) (expected_version : Z)
    : PyM C unit :=
  try_except (col_insert_many (map MongoEventStore_to_doc events)) (λ exc,
    if contains "duplicate key" (lower (exn_msg exc)) || contains "E11000" (exn_msg exc) then
      actual ← col_count (stream_is stream_id);
      raise (OptimisticConcurrencyError stream_id expected_version actual)
    else raise exc).

Definition MongoEventStore_append (stream_id : string) (events : list (StoredEvent M)) (expected_version : Z)
    : PyM C unit :=
  match events with
  | [] => mret tt
  | _ =>
      current ← col_count (stream_is stream_id);
      if negb (current =? expected_version)%Z
      then raise (OptimisticConcurrencyError stream_id expected_version current)
      else MongoEventStore_write stream_id events expected_version
  end.

Definition MongoEventStore_load (now : Z) (stream_id : string) (from_version : Z)
    : PyM C (list (StoredEvent M)) :=
  docs ← col_find (λ d, stream_is stream_id d && version_gt from_version d) (Some doc_version) 0;
  from_outcome (map_outcome (MongoEventStore_from_doc now) docs).

(** The unique indexes of the collection: [_id], and (stream_id, version). *)
Definition event_clash (a b : doc M) : bool :=
  match od_get "_id" a, od_get "_id" b with Some (DStr x), Some (DStr y) => String.eqb x y | _, _ => false end ||
  match od_get "stream_id" a, od_get "version" a, od_get "stream_id" b, od_get "version" b with
  | Some (DStr s), Some (DInt v), Some (DStr s'), Some (DInt v') => String.eqb s s' && (v =? v')%Z
  | _, _, _, _ => false
  end.

End EventStore.

(** ** The outbox store *)

Section OutboxStore.
Context {C : Type} `{!Collection C (doc unit)}.

(** [OutboxStatus.value] and back. *)
Definition status_text (st : OutboxStatus) : string :=
  match st with PENDING => "PENDING" | DISPATCHED => "DISPATCHED" | FAILED => "FAILED" end.
Definition status_of_text (s : string) : outcome OutboxStatus :=
  if String.eqb s "PENDING" then Return PENDING
  else if String.eqb s "DISPATCHED" then Return DISPATCHED
  else if String.eqb s "FAILED" then Return FAILED
  else Raise (ValueError (py_repr s +:+ " is not a valid OutboxStatus")).

Definition opt_time (o : option Z) : dval unit := match o with Some t => DTime t | None => DNull end.
Definition opt_text (o : option string) : dval unit := match o with Some s => DStr s | None => DNull end.

Definition MongoOutboxStore_to_doc (r : OutboxRecord) : doc unit :=
  [("_id", DStr (or_id r)); ("aggregate_id", DStr (or_aggregate_id r));
   ("aggregate_type", DStr (or_aggregate_type r)); ("event_type", DStr (or_event_type r));
   ("topic", DStr (or_topic r)); ("payload", DBytes (or_payload r)); ("headers", DMap (or_headers r));
   ("status", DStr (status_text (or_status r))); ("created_at", DTime (or_created_at r));
   ("dispatched_at", opt_time (or_dispatched_at r)); ("retry_count", DInt (or_retry_count r));
   ("last_error", opt_text (or_last_error r))].

Definition get_str (k : string) (d : doc unit) : string :=
  match od_get k d with Some (DStr s) => s | _ => "" end.

Definition MongoOutboxStore_from_doc (now : Z) (d : doc unit) : outcome OutboxRecord :=
  match od_get "_id" d with
  | Some (DStr i) =>
      match status_of_text (match od_get "status" d with Some (DStr s) => s | _ => "PENDING" end) with
      | Raise e => Raise e
      | Return st =>
          Return (mkOutbox i (get_str "aggregate_id" d) (get_str "aggregate_type" d)
            (get_str "event_type" d) (get_str "topic" d)
            (match od_get "payload" d with Some (DBytes b) => b | _ => [] end)
            (match od_get "headers" d with Some (DMap m) => m | _ => [] end) st
            (match od_get "created_at" d with Some (DTime t) => t | _ => now end)
            (match od_get "dispatched_at" d with Some (DTime t) => Some t | _ => None end)
            (match od_get "retry_count" d with Some (DInt n) => n | _ => 0%Z end)
            (match od_get "last_error" d with Some (DStr s) => Some s | _ => None end))
      end
  | _ => Raise (KeyError "_id")
  end.

(** [{"status": ...}], [{"_id": ...}] and [{"$set": ...}]. *)
Definition status_is (st : OutboxStatus) (d : doc unit) : bool :=
  match od_get "status" d with Some (DStr s) => String.eqb s (status_text st) | _ => false end.
Definition id_is (i : string) (d : doc unit) : bool :=
  match od_get "_id" d with Some (DStr s) => String.eqb s i | _ => false end.
Definition set_fields (fs : list (string * dval unit)) (d : doc unit) : doc unit :=
  fold_left (λ d e, od_set (fst e) (snd e) d) fs d.

Definition MongoOutboxStore_save (r : OutboxRecord) : PyM C unit := col_insert_one (MongoOutboxStore_to_doc r).

Definition MongoOutboxStore_get_pending (now : Z) (limit : Z) : PyM C (list OutboxRecord) :=
  docs ← col_find (status_is PENDING) None limit;
  from_outcome (map_outcome (MongoOutboxStore_from_doc now) docs).

Definition MongoOutboxStore_mark_dispatched (now : Z) (record_id : string) : PyM C unit :=
  col_update_one (id_is record_id)
    (set_fields [("status", DStr (status_text DISPATCHED)); ("dispatched_at", DTime now)]).

Definition MongoOutboxStore_mark_failed (record_id error : string) : PyM C unit :=
  col_update_one (id_is record_id)
    (set_fields [("status", DStr (status_text FAILED)); ("last_error", DStr error); ("retry_count", DInt 1)]).

(** The unique index on [_id]. *)
Definition id_clash (a b : doc unit) : bool :=
  match od_get "_id" a, od_get "_id" b with Some (DStr x), Some (DStr y) => String.eqb x y | _, _ => false end.

End OutboxStore.

(** ** The repository *)

Section Repository.
Context {C A : Type} `{!Collection C (doc unit)}.
(** The hooks of a concrete repository, and its class name. *)
Context (to_document : A → doc unit) (from_document : doc unit → outcome A) (cls : string).

Definition MongoRepository_get (i : string) : PyM C (option A) :=
  docs ← col_find (id_is i) None 1;
  match docs with
  | [] => mret None
  | d :: _ => a ← from_outcome (from_document d); mret (Some a)
  end.

Definition MongoRepository_get_or_raise (i : string) : PyM C A :=
  o ← MongoRepository_get i;
  match o with
  | None => raise (NotFoundError cls (Some i))
  | Some a => mret a
  end.

Definition MongoRepository_save (a : A) : PyM C unit :=
  let d := to_document a in
  match od_get "_id" d with
  | Some (DStr i) => col_replace_one (id_is i) d
  | _ => raise (KeyError "'_id'")
  end.

Definition MongoRepository_delete (i : string) : PyM C unit := col_delete_one (id_is i).

Definition MongoRepository_find_all : PyM C (list A) :=
  docs ← col_find (λ _, true) None 0;
  from_outcome (map_outcome from_document docs).

(** [to_mongo_filter], when the specification has one, and [is_satisfied_by]. *)
Definition MongoRepository_find_by (to_mongo_filter : option (doc unit → bool)) (is_satisfied_by : A → bool)
    : PyM C (list A) :=
  match to_mongo_filter with
  | Some p =>
      docs ← col_find p None 0;
      from_outcome (map_outcome from_document docs)
  | None =>
      all_aggs ← MongoRepository_find_all;
      mret (filter (λ a, is_satisfied_by a = true) all_aggs)
  end.

End Repository.

(** ** The unit of work: the session is a client object *)

Section UnitOfWork.
Context {W A : Type} (start_session start_transaction commit_transaction abort_transaction end_session : PyM W unit).

(** [__aexit__]. *)
Definition MongoUnitOfWork_aexit (failed : bool) : PyM W unit :=
  try_finally (if failed then abort_transaction else commit_transaction) end_session.

(** [async with MongoUnitOfWork(client) as uow: body]. *)
Definition uow_body (body : PyM W A) : PyM W A := λ w,
  match body w with
  | (Return a, w') => (MongoUnitOfWork_aexit false ;; mret a) w'
  | (Raise e, w') => (MongoUnitOfWork_aexit true ;; raise e) w'
  end.

Definition MongoUnitOfWork_with (body : PyM W A) : PyM W A :=
  start_session ;; start_transaction ;; uow_body body.

End UnitOfWork.

(** ** Lemmas: the event store *)

#[local] Arguments String.append !_ _ / : simpl nomatch.

Lemma split_last_hash (p : ascii → bool) a b n m :
  p "#"%char = false → str_all p n = true → str_all p m = true →
  a +:+ "#" +:+ n = b +:+ "#" +:+ m → a = b ∧ n = m.
Proof.
  intros Hp Hn Hm. revert b. induction a as [|c a IH]; intros [|c' b]; simpl.
  - by intros [= ->].
  - intros [= <- ->]. rewrite str_all_app in Hn. simpl in Hn. rewrite Hp, andb_false_r in Hn. discriminate.
  - intros [= -> <-]. rewrite str_all_app in Hm. simpl in Hm. rewrite Hp, andb_false_r in Hm. discriminate.
  - intros [= -> Heq]. by destruct (IH b Heq) as [-> ->].
Qed.

Lemma event_key_inj s v s' v' : event_key s v = event_key s' v' → s = s' ∧ v = v'.
Proof.
  intros Heq. apply (split_last_hash is_int_char) in Heq as [-> Hv];
    [|reflexivity | apply str_of_int_chars..].
  split; [done|]. pose proof (py_int_str v) as H1. rewrite Hv, py_int_str in H1. congruence.
Qed.

Section EventStoreSpec.
Context {C M : Type} `{!Collection C (doc M)} `{!CollectionSpec C (doc M) event_clash}
  `{!MongoDuplicate C (doc M) event_clash} (no_metadata : M) (now : Z).
Implicit Types (c : C) (evs events : list (StoredEvent M)).

#[local] Abbreviation to_doc := MongoEventStore_to_doc.

Lemma from_to_doc e : MongoEventStore_from_doc no_metadata now (to_doc e) = Return e.
Proof. by destruct e. Qed.

Lemma map_from_to_doc evs :
  map_outcome (MongoEventStore_from_doc no_metadata now) (map to_doc evs) = Return evs.
Proof. induction evs as [|e evs IH]; [done|]. cbn [map map_outcome]. by rewrite from_to_doc, IH. Qed.

Lemma event_clash_spec (a b : StoredEvent M) : event_clash (to_doc a) (to_doc b) = true ↔ ekey a = ekey b.
Proof.
  unfold event_clash, ekey. simpl. rewrite orb_true_iff, andb_true_iff, !String.eqb_eq, Z.eqb_eq. split.
  - intros [H|[-> ->]]; [|done]. apply event_key_inj in H as [-> ->]. done.
  - intros [= -> ->]. by left.
Qed.

(** The rows of the collection are events, in each stream in the order of their versions. *)
Definition holds_events c evs : Prop := col_rows c = map to_doc evs ∧ ∀ sid, stream_wf (stream_of sid evs).

Lemma count_stream c evs sid :
  holds_events c evs → col_count (stream_is sid) c = (Return (Z.of_nat (length (stream_of sid evs))), c).
Proof.
  intros [Hrows _]. rewrite col_count_spec, Hrows.
  rewrite (filter_to_row to_doc (stream_is sid) (λ e, se_stream_id e = sid)).
  - by rewrite length_map.
  - intros e. unfold stream_is. simpl. apply String.eqb_eq.
Qed.

(** Writing events that continue their stream. *)
Lemma write_in_step c evs sid events n :
  holds_events c evs → numbered sid (Z.of_nat (length (stream_of sid evs))) events →
  ∃ c', MongoEventStore_write sid events n c = (Return tt, c') ∧ holds_events c' (evs ++ events).
Proof.
  intros [Hrows Hwf] Hnum. pose proof (holds_append evs sid events Hwf Hnum) as Hwf'.
  unfold MongoEventStore_write, try_except, try_base.
  destruct (col_insert_many_spec (clash := event_clash) (map to_doc events) c) as (c' & -> & Hrows').
  rewrite Hrows, (insert_continues to_doc event_clash event_clash_spec evs sid) in * by done.
  by exists c'.
Qed.

(** Writing events numbered after an earlier state of their stream. *)
Lemma write_stale c evs sid events n :
  holds_events c evs → events ≠ [] → (0 <= n < Z.of_nat (length (stream_of sid evs)))%Z →
  numbered sid n events →
  ∃ c', MongoEventStore_write sid events n c =
      (Raise (OptimisticConcurrencyError sid n (Z.of_nat (length (stream_of sid evs)))), c') ∧
    holds_events c' evs.
Proof.
  intros [Hrows Hwf] Hne Hn Hnum. unfold MongoEventStore_write, try_except, try_base.
  destruct (col_insert_many_spec (clash := event_clash) (map to_doc events) c) as (c' & -> & Hrows').
  rewrite Hrows, (insert_stale to_doc event_clash event_clash_spec evs sid events n) in * by done.
  cbn [fst snd] in *. rewrite dup_error_exn, dup_error_text, orb_true_r.
  unfold mbind, PyM_bind. rewrite (count_stream c' evs) by done. exists c'. done.
Qed.

Lemma load_stream c evs sid v :
  holds_events c evs →
  MongoEventStore_load no_metadata now sid v c =
    (Return (filter (λ e, (v < se_version e)%Z) (stream_of sid evs)), c).
Proof.
  intros [Hrows Hwf]. unfold MongoEventStore_load, mbind, PyM_bind.
  edestruct (col_find_spec (clash := event_clash)) as (l & -> & Hperm & Hsort); [done|].
  specialize (Hsort _ eq_refl). unfold with_limit. cbn [Z.eqb]. rewrite Hrows in Hperm.
  assert (∀ e : StoredEvent M, stream_is sid (to_doc e) && version_gt v (to_doc e) = true
            ↔ (v < se_version e)%Z ∧ se_stream_id e = sid) as Hp.
  { intros e. unfold stream_is, version_gt. simpl. rewrite andb_true_iff, String.eqb_eq, Z.ltb_lt. tauto. }
  rewrite (select_stream to_doc doc_version (λ _, eq_refl) (λ d, stream_is sid d && version_gt v d) evs sid v l
             Hwf Hp Hperm Hsort).
  by rewrite map_from_to_doc.
Qed.

#[local] Instance Mongo_EventStore : EventStore M C := {
  es_append := MongoEventStore_append;
  es_load := MongoEventStore_load no_metadata now;
}.

Definition parsed_events c : list (StoredEvent M) :=
  omap (λ d, match MongoEventStore_from_doc no_metadata now d with Return e => Some e | Raise _ => None end)
    (col_rows c).

Lemma parsed_holds c evs : holds_events c evs → parsed_events c = evs.
Proof.
  intros [Hrows _]. unfold parsed_events. rewrite Hrows. clear Hrows. induction evs as [|e evs IH]; [done|].
  cbn [map omap list_omap]. by rewrite from_to_doc, IH.
Qed.

#[export] Instance Mongo_EventStoreSpec : EventStoreSpec M C.
Proof.
  unshelve refine {| es_stream := λ sid c, stream_of sid (parsed_events c);
                     es_ok := λ c, ∃ evs, holds_events c evs |}.
  - intros sid events n c [evs Hc] Hn Hne Hnum. rewrite (parsed_holds c evs Hc) in *. subst n.
    destruct (write_in_step c evs sid events (Z.of_nat (length (stream_of sid evs))) Hc Hnum) as (c' & Hw & Hc').
    exists c'. rewrite (parsed_holds c' _ Hc'). split_and!.
    + unfold es_append; simpl. destruct events as [|e events]; [done|].
      unfold MongoEventStore_append, mbind, PyM_bind. by rewrite (count_stream c evs sid Hc), Z.eqb_refl.
    + eauto.
    + by rewrite stream_of_app, (stream_of_numbered sid _ events sid Hnum), decide_True.
    + intros sid' Hne'. rewrite stream_of_app, (stream_of_numbered sid _ events sid' Hnum), decide_False by done.
      by rewrite app_nil_r.
  - intros sid events n c [evs Hc] Hn Hne. rewrite (parsed_holds c evs Hc) in *. exists c.
    split_and!; [|by eauto|by rewrite (parsed_holds c evs Hc)].
    unfold es_append; simpl. destruct events as [|e events]; [done|].
    unfold MongoEventStore_append, mbind, PyM_bind.
    by rewrite (count_stream c evs sid Hc), (proj2 (Z.eqb_neq _ _)) by congruence.
  - intros sid v c [evs Hc]. unfold es_load; simpl. rewrite (parsed_holds c evs Hc). by apply load_stream.
Defined.

End EventStoreSpec.

(** ** Lemmas: the outbox store *)

Section OutboxStoreSpec.
Context {C : Type} `{!Collection C (doc unit)} `{!CollectionSpec C (doc unit) id_clash} (now : Z).
Implicit Types (c : C) (rs : list OutboxRecord).

#[local] Abbreviation to_doc := MongoOutboxStore_to_doc.

Lemma outbox_from_to_doc r : MongoOutboxStore_from_doc now (to_doc r) = Return r.
Proof. destruct r as [i ai aty ety tp p h [] ca [da|] rc [le|]]; reflexivity. Qed.

Lemma outbox_map_docs rs : map_outcome (MongoOutboxStore_from_doc now) (map to_doc rs) = Return rs.
Proof. induction rs as [|r rs IH]; [done|]. cbn [map map_outcome]. by rewrite outbox_from_to_doc, IH. Qed.

Definition holds_records c rs : Prop := col_rows c = map to_doc rs ∧ NoDup (or_id <$> rs).

(** The records as the dictionary the in-memory repository would have. *)
Definition by_id rs : list (string * OutboxRecord) := map (λ r, (or_id r, r)) rs.

Lemma by_id_keys rs : (by_id rs).*1 = or_id <$> rs.
Proof. induction rs as [|r rs IH]; [done|]. cbn. f_equal. exact IH. Qed.

Lemma by_id_values rs : (by_id rs).*2 = rs.
Proof. induction rs as [|r rs IH]; [done|]. cbn. f_equal. exact IH. Qed.

Lemma by_id_ok rs : NoDup (or_id <$> rs) → memory_ok (by_id rs).
Proof.
  intros Hnd. unfold memory_ok. by rewrite by_id_keys, by_id_values.
Qed.

(** Setting fields of the document of a record, in terms of the record. *)
Definition dispatched_at (t : Z) (r : OutboxRecord) : OutboxRecord :=
  mkOutbox (or_id r) (or_aggregate_id r) (or_aggregate_type r) (or_event_type r) (or_topic r)
    (or_payload r) (or_headers r) DISPATCHED (or_created_at r) (Some t) (or_retry_count r) (or_last_error r).
Definition failed_with (error : string) (r : OutboxRecord) : OutboxRecord :=
  mkOutbox (or_id r) (or_aggregate_id r) (or_aggregate_type r) (or_event_type r) (or_topic r)
    (or_payload r) (or_headers r) FAILED (or_created_at r) (or_dispatched_at r) 1 (Some error).

Lemma update_docs i (g : doc unit → doc unit) (f : OutboxRecord → OutboxRecord) rs :
  (∀ r, g (to_doc r) = to_doc (f r)) →
  update_first (id_is i) g (map to_doc rs) =
    map to_doc (update_first (λ r, String.eqb (or_id r) i) f rs).
Proof.
  intros Hg. induction rs as [|r rs IH]; [done|]. cbn [map update_first].
  change (id_is i (to_doc r)) with (String.eqb (or_id r) i). destruct (String.eqb (or_id r) i); cbn [map].
  - by rewrite Hg.
  - by rewrite IH.
Qed.

Lemma update_ids i (f : OutboxRecord → OutboxRecord) rs :
  (∀ r, or_id (f r) = or_id r) → or_id <$> update_first (λ r, String.eqb (or_id r) i) f rs = or_id <$> rs.
Proof.
  intros Hf. induction rs as [|r rs IH]; [done|]. simpl. destruct (String.eqb (or_id r) i); simpl; f_equal; auto.
Qed.

Lemma update_by_id i (f : OutboxRecord → OutboxRecord) rs r :
  (∀ r, or_id (f r) = or_id r) → od_get i (by_id rs) = Some r →
  by_id (update_first (λ r, String.eqb (or_id r) i) f rs) = od_set i (f r) (by_id rs).
Proof.
  intros Hf. induction rs as [|r0 rs IH]; [done|]. simpl.
  destruct (String.eqb_spec (or_id r0) i) as [<-|Hne].
  - rewrite !decide_True by done. intros [= ->]. simpl. by rewrite Hf.
  - rewrite !decide_False by congruence. intros Hr. simpl. by rewrite IH.
Qed.

Lemma mark_spec c rs i g (f : OutboxRecord → OutboxRecord) st :
  holds_records c rs → is_Some (memory_statuses (by_id rs) !! i) →
  (∀ r, g (to_doc r) = to_doc (f r)) → (∀ r, or_id (f r) = or_id r) → (∀ r, or_status (f r) = st) →
  ∃ c' rs', col_update_one (id_is i) g c = (Return tt, c') ∧ holds_records c' rs' ∧
    memory_statuses (by_id rs') = <[i := st]> (memory_statuses (by_id rs)).
Proof.
  intros [Hrows Hnd] [st0 Hi] Hg Hf Hst. destruct (col_update_one_spec (id_is i) g c) as (c' & Hup & Hrows').
  rewrite memory_statuses_lookup in Hi. destruct (od_get i (by_id rs)) as [r|] eqn:Hr; [|done].
  exists c', (update_first (λ r, String.eqb (or_id r) i) f rs). split_and!; [done|..].
  - split; [by rewrite Hrows', Hrows, (update_docs i g f)|]. by rewrite update_ids.
  - rewrite (update_by_id i f rs r) by done.
    destruct (memory_set (by_id rs) i r (f r) (by_id_ok rs Hnd) Hr (Hf r)) as [_ ->]. by rewrite Hst.
Qed.

#[local] Instance Mongo_OutboxRepository : OutboxRepository C := {
  ob_save := MongoOutboxStore_save;
  ob_get_pending := MongoOutboxStore_get_pending now;
  ob_mark_dispatched := MongoOutboxStore_mark_dispatched now;
  ob_mark_failed := MongoOutboxStore_mark_failed;
}.

Definition parsed_records c : list OutboxRecord :=
  omap (λ d, match MongoOutboxStore_from_doc now d with Return r => Some r | Raise _ => None end) (col_rows c).

Lemma parsed_records_holds c rs : holds_records c rs → parsed_records c = rs.
Proof.
  intros [Hrows _]. unfold parsed_records. rewrite Hrows. clear Hrows. induction rs as [|r rs IH]; [done|].
  cbn [map omap list_omap]. by rewrite outbox_from_to_doc, IH.
Qed.

Lemma get_pending_docs c rs limit :
  holds_records c rs → (0 < limit)%Z →
  ∃ l, MongoOutboxStore_get_pending now limit c = (Return (take (Z.to_nat limit) l), c) ∧
    l ≡ₚ filter (λ r, or_status r = PENDING) rs.
Proof.
  intros [Hrows _] Hlim. unfold MongoOutboxStore_get_pending, mbind, PyM_bind.
  edestruct (col_find_spec (clash := id_clash)) as (l & -> & Hperm & _); [lia|].
  unfold with_limit. rewrite (proj2 (Z.eqb_neq _ _)) by lia.
  assert (filter (λ d, status_is PENDING d = true) (map to_doc rs)
    = map to_doc (filter (λ r, or_status r = PENDING) rs)) as Hf.
  { clear. induction rs as [|r rs IH]; [done|]. cbn [map]. rewrite !filter_cons, IH.
    assert (status_is PENDING (to_doc r) = true ↔ or_status r = PENDING) as Hp
      by (unfold status_is; simpl; by destruct (or_status r)).
    destruct (decide (or_status r = PENDING)) as [Hr|Hr].
    - by rewrite decide_True by by apply Hp.
    - by rewrite decide_False by by rewrite Hp. }
  rewrite Hrows, Hf in Hperm. apply Permutation_map_inv in Hperm as (l' & -> & Hl').
  exists l'. rewrite firstn_map, outbox_map_docs. by split.
Qed.

#[export] Instance Mongo_OutboxRepositorySpec : OutboxRepositorySpec C.
Proof.
  unshelve refine {| ob_statuses := λ c, memory_statuses (by_id (parsed_records c));
                     ob_ok := λ c, ∃ rs, holds_records c rs |}.
  - intros limit c [rs Hc] Hlim. destruct (get_pending_docs c rs limit Hc Hlim) as (l & Hget & Hl).
    exists (take (Z.to_nat limit) l). split; [exact Hget|]. rewrite (parsed_records_holds c rs Hc).
    pose proof (by_id_ok rs (proj2 Hc)) as Hok. pose proof (memory_pending_ids _ Hok) as Hnd.
    rewrite by_id_values, <- Hl in Hnd. split_and!.
    + rewrite fmap_take. eapply sublist_NoDup; [exact Hnd | apply sublist_take].
    + intros r Hr. apply memory_pending_elem; [done|]. rewrite by_id_values, <- Hl.
      apply elem_of_take in Hr as (j & Hj & _). apply list_elem_of_lookup. eauto.
    + destruct (decide (Z.to_nat limit ≤ length l)%nat) as [Hlen|Hlen].
      * left. rewrite length_take. lia.
      * right. rewrite take_ge by lia. intros i Hi.
        pose proof (memory_pending_all _ i Hok Hi) as Hin. by rewrite by_id_values, <- Hl in Hin.
  - intros i c [rs Hc] Hi. rewrite (parsed_records_holds c rs Hc) in *.
    destruct (mark_spec c rs i (set_fields [("status", DStr (status_text DISPATCHED)); ("dispatched_at", DTime now)])
      (dispatched_at now) DISPATCHED Hc Hi (λ _, eq_refl) (λ _, eq_refl) (λ _, eq_refl))
      as (c' & rs' & Hup & Hc' & Hst).
    exists c'. rewrite (parsed_records_holds c' rs' Hc'). eauto.
  - intros i err c [rs Hc] Hi. rewrite (parsed_records_holds c rs Hc) in *.
    destruct (mark_spec c rs i (set_fields
      [("status", DStr (status_text FAILED)); ("last_error", DStr err); ("retry_count", DInt 1)])
      (failed_with err) FAILED Hc Hi (λ _, eq_refl) (λ _, eq_refl) (λ _, eq_refl))
      as (c' & rs' & Hup & Hc' & Hst).
    exists c'. rewrite (parsed_records_holds c' rs' Hc'). eauto.
Defined.

End OutboxStoreSpec.

(** ** Theorems *)

(** C26: two writers race on one stream of the Mongo event store.  Both have counted
    [expected] events; the first writes its events, any number of further appends may
    follow; then the write of the second fails with [OptimisticConcurrencyError], because
    the unique index refuses its first event, and the collection keeps exactly the events
    it had. *)
Theorem mongo_append_race {C M} `{!Collection C (doc M)} `{!CollectionSpec C (doc M) event_clash}
    `{!MongoDuplicate C (doc M) event_clash} c sid n
    evs more1 (events1 events2 : list (StoredEvent M)) :
  holds_events c evs → n = Z.of_nat (length (stream_of sid evs)) →
  events1 ≠ [] → events2 ≠ [] → numbered sid n events1 → numbered sid n events2 →
  ∃ c1, MongoEventStore_write sid events1 n c = (Return tt, c1) ∧ holds_events c1 (evs ++ events1) ∧
    ∀ c2, holds_events c2 ((evs ++ events1) ++ more1) →
      ∃ c3 actual, MongoEventStore_write sid events2 n c2 =
          (Raise (OptimisticConcurrencyError sid n actual), c3) ∧
        holds_events c3 ((evs ++ events1) ++ more1).
Proof.
  intros Hc -> Hne1 Hne2 Hn1 Hn2.
  destruct (write_in_step c evs sid events1 (Z.of_nat (length (stream_of sid evs))) Hc Hn1) as (c1 & Hw & Hc1).
  exists c1. split_and!; [done..|]. intros c2 Hc2.
  destruct (write_stale c2 _ sid events2 (Z.of_nat (length (stream_of sid evs))) Hc2 Hne2) as (c3 & Hw2 & Hc3);
    [|done|by eauto].
  rewrite !stream_of_app, !length_app, (stream_of_numbered sid _ events1 sid Hn1), decide_True by done.
  destruct events1; [done|]. simpl. lia.
Qed.

(** what the Mongo stores write they read back: a stored event and an outbox record in
    any state survive the translation to a document and back unchanged. *)
Theorem mongo_documents_roundtrip {M} (no_metadata : M) now (e : StoredEvent M) (r : OutboxRecord) :
  MongoEventStore_from_doc no_metadata now (MongoEventStore_to_doc e) = Return e ∧
  MongoOutboxStore_from_doc now (MongoOutboxStore_to_doc r) = Return r.
Proof. split; [apply from_to_doc | apply outbox_from_to_doc]. Qed.

(** however often a record fails, the Mongo outbox stores a retry count of one. *)
Theorem mongo_retry_count_constant {C} `{!Collection C (doc unit)} `{!CollectionSpec C (doc unit) id_clash}
    c r errors :
  col_rows c = [MongoOutboxStore_to_doc r] → errors ≠ [] →
  ∃ c', for_each errors (MongoOutboxStore_mark_failed (or_id r)) c = (Return tt, c') ∧
    col_rows c' = [MongoOutboxStore_to_doc (failed_with (default "" (last errors)) r)].
Proof.
  intros Hrows Hne. assert (∀ c r0, or_id r0 = or_id r → col_rows c = [MongoOutboxStore_to_doc r0] →
    (∀ err, failed_with err r0 = failed_with err r) →
    ∃ c', for_each errors (MongoOutboxStore_mark_failed (or_id r)) c = (Return tt, c') ∧
    col_rows c' = [MongoOutboxStore_to_doc (if errors is [] then r0 else failed_with (default "" (last errors)) r)])
    as Hgen; [clear c Hrows Hne|destruct (Hgen c r eq_refl Hrows (λ _, eq_refl)) as (c' & ? & ?); exists c'; by destruct errors].
  induction errors as [|err errors IH]; intros c r0 Hid Hrows Hf; [by exists c|].
  cbn [for_each]. unfold mbind, PyM_bind, MongoOutboxStore_mark_failed at 1.
  edestruct col_update_one_spec as (c1 & -> & Hrows1).
  destruct (IH c1 (failed_with err r)) as (c' & Hrun & Hc'); [done| |done|].
  - rewrite Hrows1, Hrows. cbn [update_first].
    change (id_is (or_id r) (MongoOutboxStore_to_doc r0)) with (String.eqb (or_id r0) (or_id r)).
    rewrite Hid, String.eqb_refl, <- Hf. done.
  - exists c'. split; [exact Hrun|]. rewrite Hc'. destruct errors as [|e errors]; [done|]. by rewrite !default_last_cons.
Qed.

(** a unit of work always ends its session, after committing if the body returned and
    after aborting if it raised; the caller gets the body's result unless committing fails. *)
Theorem mongo_uow_ends {A} (body : PyM (list string) A) (commit_ok : bool) log :
  let op s : PyM (list string) unit := updates (λ l, l ++ [s]) in
  let commit : PyM (list string) unit :=
    op "commit" ;; if commit_ok then mret tt else raise (ValueError "conflict") in
  let '(o, log1) := body (log ++ ["start"; "begin"]) in
  MongoUnitOfWork_with (op "start") (op "begin") commit (op "abort") (op "end") body log =
    match o with
    | Return a => ((if commit_ok then Return a else Raise (ValueError "conflict")), log1 ++ ["commit"; "end"])
    | Raise e => (Raise e, log1 ++ ["abort"; "end"])
    end.
Proof.
  intros op commit. destruct (body (log ++ ["start"; "begin"])) as [o log1] eqn:E.
  unfold MongoUnitOfWork_with, uow_body, MongoUnitOfWork_aexit, try_finally, mbind, PyM_bind, op, commit, updates.
  rewrite <- app_assoc. simpl. rewrite E.
  destruct o as [a|e]; [destruct commit_ok|]; simpl; by rewrite <- app_assoc.
Qed.

(** ** Witnesses *)

Definition demo_event (v : Z) : StoredEvent unit := mkStored "acc-1" v "Deposited" "x" tt 0.

#[local] Instance demo_events_collection : Collection (list (doc unit)) (doc unit) := list_Collection event_clash.
#[local] Instance demo_events_spec : CollectionSpec (list (doc unit)) (doc unit) event_clash :=
  list_CollectionSpec event_clash.

#[local] Instance demo_events_dup : MongoDuplicate (list (doc unit)) (doc unit) event_clash.
Proof. reflexivity. Qed.

Lemma demo_holds : holds_events ([] : list (doc unit)) [].
Proof. split; [reflexivity|]. intros sid j e Hj. by destruct j. Qed.

Lemma demo_numbered : numbered "acc-1" 0 [demo_event 1].
Proof. intros [|j] e Hj; [by injection Hj as <- | by destruct j]. Qed.

Lemma mongo_append_race_witness :
  ∃ c1 c3 actual, MongoEventStore_write "acc-1" [demo_event 1] 0 ([] : list (doc unit)) = (Return tt, c1) ∧
    MongoEventStore_write "acc-1" [demo_event 1] 0 c1 =
      (Raise (OptimisticConcurrencyError "acc-1" 0 actual), c3).
Proof.
  destruct (mongo_append_race ([] : list (doc unit)) "acc-1" 0 [] [] [demo_event 1] [demo_event 1])
    as (c1 & Hw & Hc1 & Hrace).
  - exact demo_holds.
  - reflexivity.
  - discriminate.
  - discriminate.
  - exact demo_numbered.
  - exact demo_numbered.
  - destruct (Hrace c1 Hc1) as (c3 & actual & Hw2 & _). exists c1, c3, actual. split; assumption.
Defined.

#[local] Instance demo_outbox_collection : Collection (list (doc unit)) (doc unit) := list_Collection id_clash.
#[local] Instance demo_outbox_spec : CollectionSpec (list (doc unit)) (doc unit) id_clash :=
  list_CollectionSpec id_clash.

Lemma mongo_retry_count_constant_witness :
  ∃ c', for_each ["timeout"; "refused"] (MongoOutboxStore_mark_failed "a")
      [MongoOutboxStore_to_doc (demo_record "a" "orders" PENDING)] = (Return tt, c') ∧
    col_rows (clash := id_clash) c' =
      [MongoOutboxStore_to_doc (failed_with "refused" (demo_record "a" "orders" PENDING))].
Proof.
  apply (mongo_retry_count_constant [MongoOutboxStore_to_doc (demo_record "a" "orders" PENDING)]
    (demo_record "a" "orders" PENDING) ["timeout"; "refused"]).
  - reflexivity.
  - discriminate.
Defined.
