(* ===== verification/Sql.v ===== *)
(** * The SQLAlchemy adapters over a table

    [adapters/sqlalchemy/event_store.py], [audit.py], [outbox.py], [idempotency.py],
    [repository.py], [uow.py].  A session is a type with the statements the adapters
    execute on one table ([Session]) and what they do to its rows ([SessionSpec]); a WHERE
    clause is the predicate it stands for, a LIKE pattern is matched by the database
    ([SqlText]).  [list_Session] and [ansi_SqlText] are implementations.  The event store
    keeps the contract of [EventSourcing], the outbox that of [Outbox], and an audit query
    returns what the in-memory audit store returns. *)
From S2P Require Import Prelude PyString OrderedDict Errors ValueObjects EventSourcing Security Pipeline Outbox EventRows Mongo.

(** ** Sessions *)

Class Session (S Row : Type) := {
  db_select : (Row → bool) → option (Row → Z) → option Z → PyM S (list Row);
  db_count : (Row → bool) → PyM S Z;
  db_insert : Row → PyM S unit;
  db_update : (Row → bool) → (Row → Row) → PyM S unit;
  db_add : Row → PyM S unit;
  db_get : (Row → bool) → PyM S (option Row);
  db_delete : (Row → bool) → PyM S unit;
}.

Definition take_opt {A} (n : option Z) (l : list A) : list A :=
  match n with None => l | Some n => take (Z.to_nat n) l end.

Definition update_where {Row} (p : Row → bool) (f : Row → Row) (rows : list Row) : list Row :=
  map (λ r, if p r then f r else r) rows.

(** [clash] says which rows the unique constraints keep apart.  A violation is an error of
    the database; nothing is said of the session after it.  [add] is flushed before the
    next statement of the session. *)
Class SessionSpec (S Row : Type) `{Session S Row} (clash : Row → Row → bool) := {
  db_rows : S → list Row;
  integrity_error : pyexn;
  db_select_spec p sort n s : from_option (λ n, (0 <= n)%Z) True n →
    ∃ l, db_select p sort n s = (Return (take_opt n l), s) ∧
      l ≡ₚ filter (λ r, p r = true) (db_rows s) ∧
      ∀ key, sort = Some key → Sorted (λ a b, (key a <= key b)%Z) l;
  db_count_spec p s :
    db_count p s = (Return (Z.of_nat (length (filter (λ r, p r = true) (db_rows s)))), s);
  db_insert_spec r s : existsb (clash r) (db_rows s) = false →
    ∃ s', db_insert r s = (Return tt, s') ∧ db_rows s' = db_rows s ++ [r];
  db_insert_clash r s : existsb (clash r) (db_rows s) = true →
    ∃ s', db_insert r s = (Raise integrity_error, s');
  db_update_spec p f s :
    ∃ s', db_update p f s = (Return tt, s') ∧ db_rows s' = update_where p f (db_rows s);
  db_add_spec r s : existsb (clash r) (db_rows s) = false →
    ∃ s', db_add r s = (Return tt, s') ∧ db_rows s' = db_rows s ++ [r];
  db_get_spec p s :
    db_get p s = (Return (head (filter (λ r, p r = true) (db_rows s))), s);
  db_delete_spec p s :
    ∃ s', db_delete p s = (Return tt, s') ∧ db_rows s' = filter (λ r, p r = false) (db_rows s);
}.

Definition IntegrityError : pyexn :=
  exn_of ["IntegrityError"; "DatabaseError"; "DBAPIError"; "SQLAlchemyError"] "UNIQUE constraint failed".

(** A table kept as a list. *)
Definition list_Session {Row} (clash : Row → Row → bool) : Session (list Row) Row := {|
  db_select p sort n := reads (λ rows, take_opt n
    (let l := filter (λ r, p r = true) rows in match sort with Some key => sorted_by key l | None => l end));
  db_count p := reads (λ rows, Z.of_nat (length (filter (λ r, p r = true) rows)));
  db_insert r := λ rows, if existsb (clash r) rows then (Raise IntegrityError, rows) else (Return tt, rows ++ [r]);
  db_update p f := updates (update_where p f);
  db_add r := λ rows, if existsb (clash r) rows then (Raise IntegrityError, rows) else (Return tt, rows ++ [r]);
  db_get p := reads (λ rows, head (filter (λ r, p r = true) rows));
  db_delete p := updates (filter (λ r, p r = false));
|}.

Definition list_SessionSpec {Row} (clash : Row → Row → bool) :
  @SessionSpec (list Row) Row (list_Session clash) clash.
Proof.
  unshelve eapply (@Build_SessionSpec (list Row) Row (list_Session clash) clash id IntegrityError);
    unfold id; try done.
  - intros p sort n c _. eexists. split; [done|]. destruct sort as [key|].
    + split; [apply sorted_by_perm|]. intros key' [= <-]. apply (sorted_by_sorted key).
    + done.
  - intros r c Hc. simpl. rewrite Hc. by eexists.
  - intros r c Hc. simpl. rewrite Hc. by eexists.
  - intros p f c. by eexists.
  - intros r c Hc. simpl. rewrite Hc. by eexists.
  - intros p c. by eexists.
Defined.

(** ** Text patterns *)

(** [column LIKE pattern], and how the database folds the case of letters in it: not at all (PostgreSQL), or
    ASCII letters to lower case (SQLite). *)
Class SqlText := { like : string → string → bool; like_fold : string → string }.

Definition wildcard (c : ascii) : bool := Ascii.eqb c "%" || Ascii.eqb c "_" || Ascii.eqb c "\".
Definition plain (s : string) : bool := str_all (λ c, negb (wildcard c)) s.

(** A pattern without wildcards between two [%] is a substring test, up to the folding. *)
Class SqlTextSpec `{SqlText} : Prop :=
  like_plain x s : plain x = true → like ("%" +:+ x +:+ "%") s = contains (like_fold x) (like_fold s).

(** [column.contains(x)]: the wildcards of [x] are not escaped. *)
Definition sql_contains `{SqlText} (x s : string) : bool := like ("%" +:+ x +:+ "%") s.

(** Standard LIKE: [%] is any text, [_] any character. *)
Fixpoint like_ansi (p s : string) : bool :=
  match p with
  | "" => String.eqb s ""
  | String c p' =>
      if Ascii.eqb c "%" then
        (fix any (s : string) : bool :=
           like_ansi p' s || match s with "" => false | String _ s' => any s' end) s
      else match s with
           | "" => false
           | String d s' => (Ascii.eqb c "_" || Ascii.eqb c d) && like_ansi p' s'
           end
  end.

#[export] Instance ansi_SqlText : SqlText := {| like := like_ansi; like_fold := id |}.

(** LIKE of SQLite, which does not tell the case of ASCII letters. *)
Definition sqlite_SqlText : SqlText := {| like := λ p s, like_ansi (lower p) (lower s); like_fold := lower |}.

(** ** The event store ([event_store.py]) *)

Record EventRow := mkEventRow {
  er_stream_id : string;
  er_version : Z;
  er_event_type : string;
  er_payload : string;
  er_metadata_json : string;
  er_occurred_at : Z;
}.

(** UNIQUE (stream_id, version), in [create_table]. *)
Definition SQLAlchemyEventStore_clash (a b : EventRow) : bool :=
  String.eqb (er_stream_id a) (er_stream_id b) && (er_version a =? er_version b)%Z.

Section EventStore.
Context {S M : Type} `{!Session S EventRow} (dumps : M → string) (loads : string → outcome M) (no_metadata : M).

Definition er_values (ev : StoredEvent M) : EventRow :=
  mkEventRow (se_stream_id ev) (se_version ev) (se_event_type ev) (se_payload ev)
    (dumps (se_metadata ev)) (se_occurred_at ev).

(** The loop of [append]. *)
Definition SQLAlchemyEventStore_write (events : list (StoredEvent M)) : PyM S unit :=
  for_each events (λ ev, db_insert (er_values ev)).

Definition SQLAlchemyEventStore_append (stream_id : string) (events : list (StoredEvent M))
    (expected_version : Z) : PyM S unit :=
  actual_version ← db_count (λ r, String.eqb (er_stream_id r) stream_id);
  if negb (actual_version =? expected_version)%Z
  then raise (OptimisticConcurrencyError stream_id expected_version actual_version)
  else SQLAlchemyEventStore_write events.

(** [json.loads(row.metadata_json) if row.metadata_json else {}]. *)
Definition metadata_of (empty : M) (text : string) : outcome M :=
  if String.eqb text "" then Return empty else loads text.

Definition stored_event (row : EventRow) : outcome (StoredEvent M) :=
  match metadata_of no_metadata (er_metadata_json row) with
  | Raise e => Raise e
  | Return m => Return (mkStored (er_stream_id row) (er_version row) (er_event_type row) (er_payload row) m
                          (er_occurred_at row))
  end.

Definition SQLAlchemyEventStore_load (stream_id : string) (from_version : Z) : PyM S (list (StoredEvent M)) :=
  rows ← db_select (λ r, String.eqb (er_stream_id r) stream_id && (from_version <? er_version r)%Z)
           (Some er_version) None;
  from_outcome (map_outcome stored_event rows).

End EventStore.

(** ** The audit store ([audit.py]) *)

Record AuditRow := mkAuditRow {
  ar_event_id : string;
  ar_principal_id : string;
  ar_action : string;
  ar_resource_type : string;
  ar_resource_id : string;
  ar_outcome : string;
  ar_occurred_at : Z;
  ar_metadata_json : string;
}.

(** The primary key, in [create_table]. *)
Definition SQLAlchemyAuditStore_clash (a b : AuditRow) : bool := String.eqb (ar_event_id a) (ar_event_id b).

Section AuditStore.
Context {S : Type} `{!Session S AuditRow} `{!SqlText}.
Context (dumps : gmap string string → string) (loads : string → outcome (gmap string string)).

Definition ar_values (e : AuditEvent) : AuditRow :=
  mkAuditRow (ae_event_id e) (ae_principal_id e) (ae_action e) (ae_resource_type e) (ae_resource_id e)
    (ae_outcome e) (ae_occurred_at e) (dumps (ae_metadata e)).

Definition SQLAlchemyAuditStore_record (e : AuditEvent) : PyM S unit := db_insert (ar_values e).

Definition audit_event (row : AuditRow) : outcome AuditEvent :=
  match StrId_init "EntityId" (ar_event_id row) with
  | Raise e => Raise e
  | Return i =>
      match metadata_of loads ∅ (ar_metadata_json row) with
      | Raise e => Raise e
      | Return m => Return (mkAudit (ar_principal_id row) (ar_action row) (ar_resource_type row)
                              (ar_resource_id row) (ar_outcome row) i (ar_occurred_at row) m)
      end
  end.

(** [stmt = stmt.where(test(x))] when the argument [x] is given. *)
Definition where_opt {X : Type} (o : option X) (test : X → AuditRow → bool) (stmt : AuditRow → bool)
    : AuditRow → bool :=
  match o with None => stmt | Some x => λ r, stmt r && test x r end.

Definition SQLAlchemyAuditStore_query (principal_id : option string) (from_dt to_dt : option Z)
    (action_filter outcome : option string) (limit : Z) : PyM S (list AuditEvent) :=
  let stmt := λ _, true in
  let stmt := where_opt principal_id (λ x r, String.eqb (ar_principal_id r) x) stmt in
  let stmt := where_opt from_dt (λ x r, (x <=? ar_occurred_at r)%Z) stmt in
  let stmt := where_opt to_dt (λ x r, (ar_occurred_at r <=? x)%Z) stmt in
  let stmt := where_opt action_filter (λ x r, sql_contains x (ar_action r)) stmt in
  let stmt := where_opt outcome (λ x r, String.eqb (ar_outcome r) x) stmt in
  rows ← db_select stmt (Some ar_occurred_at) (Some limit);
  from_outcome (map_outcome audit_event rows).

End AuditStore.

(** ** The outbox repository ([outbox.py]) *)

(** The columns of the application's model that the adapter reads or writes. *)
Record OutboxRow := mkOutboxRow {
  ow_id : string;
  ow_aggregate_id : string;
  ow_aggregate_type : string;
  ow_event_type : string;
  ow_topic : string;
  ow_payload : list Z;
  ow_headers : option (list (string * string));
  ow_status : string;
  ow_created_at : Z;
  ow_dispatched_at : option Z;
  ow_last_error : option string;
}.

Definition OutboxRow_clash (a b : OutboxRow) : bool := String.eqb (ow_id a) (ow_id b).

Section OutboxRepository.
Context {S : Type} `{!Session S OutboxRow}.

(** The model object built from [_record_to_dict]; its other columns are NULL. *)
Definition SqlAlchemyOutboxRepository_record_to_dict (r : OutboxRecord) : OutboxRow :=
  mkOutboxRow (or_id r) (or_aggregate_id r) (or_aggregate_type r) (or_event_type r) (or_topic r)
    (or_payload r) (Some (or_headers r)) (status_text (or_status r)) (or_created_at r) None None.

(** [row.headers or {}]; the fields that are not passed take the record's defaults. *)
Definition SqlAlchemyOutboxRepository_row_to_record (row : OutboxRow) : outcome OutboxRecord :=
  match status_of_text (ow_status row) with
  | Raise e => Raise e
  | Return st =>
      Return (mkOutbox (ow_id row) (ow_aggregate_id row) (ow_aggregate_type row) (ow_event_type row)
        (ow_topic row) (ow_payload row) (default [] (ow_headers row)) st (ow_created_at row) None 0 None)
  end.

Definition model_missing {A} : PyM S A :=
  raise (exn_of ["RuntimeError"] "OutboxRecordModel not configured").

(** [configured] is [self._model is not None]. *)
Definition SqlAlchemyOutboxRepository_save (configured : bool) (r : OutboxRecord) : PyM S unit :=
  if configured then db_add (SqlAlchemyOutboxRepository_record_to_dict r) else model_missing.

Definition SqlAlchemyOutboxRepository_get_pending (configured : bool) (limit : Z) : PyM S (list OutboxRecord) :=
  if configured then
    rows ← db_select (λ r, String.eqb (ow_status r) (status_text PENDING)) None (Some limit);
    from_outcome (map_outcome SqlAlchemyOutboxRepository_row_to_record rows)
  else model_missing.

Definition SqlAlchemyOutboxRepository_update (record_id : string) (values : OutboxRow → OutboxRow) : PyM S unit :=
  db_update (λ r, String.eqb (ow_id r) record_id) values.

Definition dispatched_values (now : Z) (r : OutboxRow) : OutboxRow :=
  mkOutboxRow (ow_id r) (ow_aggregate_id r) (ow_aggregate_type r) (ow_event_type r) (ow_topic r)
    (ow_payload r) (ow_headers r) (status_text DISPATCHED) (ow_created_at r) (Some now) (ow_last_error r).

Definition failed_values (error : string) (r : OutboxRow) : OutboxRow :=
  mkOutboxRow (ow_id r) (ow_aggregate_id r) (ow_aggregate_type r) (ow_event_type r) (ow_topic r)
    (ow_payload r) (ow_headers r) (status_text FAILED) (ow_created_at r) (ow_dispatched_at r) (Some error).

Definition SqlAlchemyOutboxRepository_mark_dispatched (now : Z) (record_id : string) : PyM S unit :=
  SqlAlchemyOutboxRepository_update record_id (dispatched_values now).

Definition SqlAlchemyOutboxRepository_mark_failed (record_id error : string) : PyM S unit :=
  SqlAlchemyOutboxRepository_update record_id (failed_values error).

End OutboxRepository.

(** ** The idempotency store ([idempotency.py]) *)

(** The columns the adapter writes. *)
Record IdempotencyRow := mkIdemRow {
  iw_key : string;
  iw_response : option string;
  iw_status : string;
}.

Section IdempotencyStore.
Context {S : Type} `{!Session S IdempotencyRow}.

Definition idempotency_missing {A} : PyM S A :=
  raise (exn_of ["RuntimeError"] "IdempotencyModel not configured").

(** [get] hands out the row itself. *)
Definition SqlAlchemyIdempotencyStore_get (configured : bool) (key : IdempotencyKey)
    : PyM S (option IdempotencyRow) :=
  if configured then db_get (λ r, String.eqb (iw_key r) (IdempotencyKey_str key)) else mret None.

Definition SqlAlchemyIdempotencyStore_save (configured : bool) (key : IdempotencyKey) (r : IdempotencyRecord)
    : PyM S unit :=
  if configured then db_add (mkIdemRow (IdempotencyKey_str key) (idr_response r) (idr_status r))
  else idempotency_missing.

Definition SqlAlchemyIdempotencyStore_complete (configured : bool) (key : IdempotencyKey) (response : string)
    : PyM S unit :=
  if configured then
    db_update (λ r, String.eqb (iw_key r) (IdempotencyKey_str key))
      (λ r, mkIdemRow (iw_key r) (Some response) "COMPLETED")
  else idempotency_missing.

End IdempotencyStore.

(** ** The repository ([repository.py]); an aggregate is its own row *)

Section Repository.
Context {S A : Type} `{!Session S A} (pk : A → string) (cls : string).

Definition SqlAlchemyRepositoryBase_get (i : string) : PyM S (option A) := db_get (λ a, String.eqb (pk a) i).

Definition SqlAlchemyRepositoryBase_get_or_raise (i : string) : PyM S A :=
  obj ← SqlAlchemyRepositoryBase_get i;
  match obj with
  | None => raise (NotFoundError cls (Some i))
  | Some a => mret a
  end.

Definition SqlAlchemyRepositoryBase_save (a : A) : PyM S unit := db_add a.

Definition SqlAlchemyRepositoryBase_delete (i : string) : PyM S unit :=
  obj ← SqlAlchemyRepositoryBase_get_or_raise i;
  db_delete (λ a, String.eqb (pk a) (pk obj)).

Definition SqlAlchemyRepositoryBase_find_all : PyM S (list A) := db_select (λ _, true) None None.

(** [[item for item in l if f(item)]] whose test may raise. *)
Fixpoint filter_outcome {X} (f : X → outcome bool) (l : list X) : outcome (list X) :=
  match l with
  | [] => Return []
  | x :: l' =>
      match f x with
      | Raise e => Raise e
      | Return b =>
          match filter_outcome f l' with
          | Raise e => Raise e
          | Return r => Return (if b then x :: r else r)
          end
      end
  end.

Definition SqlAlchemyRepositoryBase_find_by (is_satisfied_by : A → outcome bool) : PyM S (list A) :=
  all_items ← SqlAlchemyRepositoryBase_find_all;
  from_outcome (filter_outcome is_satisfied_by all_items).

End Repository.

(** ** The unit of work ([uow.py]) *)

Section UnitOfWork.
Context {W A : Type} (factory commit rollback close : PyM W unit).

(** [close] follows [commit] or [rollback]; it is not in a [finally]. *)
Definition SqlAlchemyUnitOfWork_aexit (failed : bool) : PyM W unit :=
  (if failed then rollback else commit) ;; close.

(** The body of [async with SqlAlchemyUnitOfWork(factory) as uow], and the statement. *)
Definition SqlAlchemyUnitOfWork_body (body : PyM W A) : PyM W A := λ w,
  match body w with
  | (Return a, w') => (SqlAlchemyUnitOfWork_aexit false ;; mret a) w'
  | (Raise e, w') => (SqlAlchemyUnitOfWork_aexit true ;; raise e) w'
  end.

Definition SqlAlchemyUnitOfWork_with (body : PyM W A) : PyM W A :=
  factory ;; SqlAlchemyUnitOfWork_body body.

End UnitOfWork.

(** ** Lemmas: LIKE *)

#[local] Arguments String.append !_ _ / : simpl nomatch.

Lemma like_any (p s : string) :
  like_ansi (String "%" p) s = like_ansi p s || match s with "" => false | String _ s' => like_ansi (String "%" p) s' end.
Proof. by destruct s. Qed.

Lemma like_percent s : like_ansi "%" s = true.
Proof. induction s as [|c s IH]; [done|]. rewrite like_any, IH. by rewrite orb_true_r. Qed.

Lemma like_prefix x s : plain x = true → like_ansi (x +:+ "%") s = startswith x s.
Proof.
  revert s. induction x as [|c x IH]; intros s Hx; [rewrite like_percent; by destruct s|].
  unfold plain in Hx. simpl in Hx. apply andb_true_iff in Hx as [Hc Hx].
  unfold wildcard in Hc. rewrite !negb_orb, !andb_true_iff, !negb_true_iff in Hc. destruct Hc as [[Hp Hu] _].
  simpl. rewrite Hp, Hu. unfold startswith in *. destruct s as [|d s]; [done|]. simpl.
  rewrite IH by done. destruct (ascii_dec c d) as [->|Hne]; [by rewrite Ascii.eqb_refl|].
  by rewrite (proj2 (Ascii.eqb_neq _ _)).
Qed.

Lemma like_contains x s : plain x = true → like_ansi ("%" +:+ x +:+ "%") s = contains x s.
Proof.
  intros Hx. change ("%" +:+ x +:+ "%") with (String "%" (x +:+ "%")).
  induction s as [|c s IH]; rewrite like_any, like_prefix by done; [by destruct x|].
  rewrite IH. done.
Qed.

#[export] Instance ansi_SqlTextSpec : SqlTextSpec.
Proof. intros x s Hx. by apply like_contains. Qed.

Lemma sqlite_SqlTextSpec : SqlTextSpec (H := sqlite_SqlText).
Proof.
  intros x s Hx. cbn [like like_fold sqlite_SqlText].
  assert (Happ : ∀ a b, lower (a +:+ b) = lower a +:+ lower b).
  { intros a b. unfold lower. induction a as [|c a IH]; [done|]. simpl. by rewrite IH. }
  rewrite !Happ. change (lower "%") with "%". apply like_contains. clear s.
  unfold plain, lower in *. induction x as [|c x IH]; [done|]. simpl in *. apply andb_true_iff in Hx as [Hc Hx].
  rewrite IH, andb_true_r by done. by destruct c as [[] [] [] [] [] [] [] []].
Qed.

(** ** Lemmas: the event store *)

Section EventStoreSpec.
Context {S M : Type} `{!Session S EventRow} `{!SessionSpec S EventRow SQLAlchemyEventStore_clash}.
Context (dumps : M → string) (loads : string → outcome M) (no_metadata : M).
(** [json.loads] reads what [json.dumps] writes, which is never empty. *)
Context (loads_dumps : ∀ m, loads (dumps m) = Return m) (dumps_text : ∀ m, dumps m ≠ "").
Implicit Types (s : S) (evs events : list (StoredEvent M)).

#[local] Abbreviation clash := SQLAlchemyEventStore_clash.
#[local] Abbreviation to_row := (er_values dumps).

Lemma sql_clash_spec e e' : clash (to_row e) (to_row e') = true ↔ ekey e = ekey e'.
Proof.
  unfold clash, ekey. simpl. rewrite andb_true_iff, String.eqb_eq, Z.eqb_eq. split; [by intros [-> ->]|by intros [= -> ->]].
Qed.

Lemma stored_event_values e : stored_event loads no_metadata (to_row e) = Return e.
Proof.
  unfold stored_event, metadata_of. simpl. rewrite (proj2 (String.eqb_neq _ _)) by apply dumps_text.
  rewrite loads_dumps. by destruct e.
Qed.

Lemma map_stored_event evs : map_outcome (stored_event loads no_metadata) (map to_row evs) = Return evs.
Proof. induction evs as [|e evs IH]; [done|]. cbn [map map_outcome]. by rewrite stored_event_values, IH. Qed.

(** The loop of inserts is [insert_rows]. *)
Lemma insert_loop_ok s events rows :
  insert_rows clash (db_rows s) (map to_row events) = (true, rows) →
  ∃ s', SQLAlchemyEventStore_write dumps events s = (Return tt, s') ∧ db_rows s' = rows.
Proof.
  unfold SQLAlchemyEventStore_write. revert s. induction events as [|e events IH]; intros s; cbn [map insert_rows for_each].
  { intros [= <-]. by exists s. }
  destruct (existsb _ _) eqn:E; [done|]. destruct (db_insert_spec _ s E) as (s1 & Hins & Hrows).
  rewrite <- Hrows. intros Hr. destruct (IH s1 Hr) as (s' & Hrun & Hs'). exists s'.
  unfold mbind, PyM_bind. by rewrite Hins.
Qed.

Lemma insert_loop_clash s events rows :
  insert_rows clash (db_rows s) (map to_row events) = (false, rows) →
  ∃ s', SQLAlchemyEventStore_write dumps events s = (Raise (integrity_error (clash := clash)), s').
Proof.
  unfold SQLAlchemyEventStore_write. revert s. induction events as [|e events IH]; intros s; cbn [map insert_rows for_each]; [done|].
  unfold mbind, PyM_bind. destruct (existsb _ _) eqn:E.
  - intros _. destruct (db_insert_clash _ s E) as (s1 & ->). by exists s1.
  - destruct (db_insert_spec _ s E) as (s1 & -> & Hrows). rewrite <- Hrows. apply IH.
Qed.

Definition sql_events s evs : Prop := db_rows s = map to_row evs ∧ ∀ sid, stream_wf (stream_of sid evs).

Lemma sql_count s evs sid :
  sql_events s evs →
  db_count (λ r, String.eqb (er_stream_id r) sid) s = (Return (Z.of_nat (length (stream_of sid evs))), s).
Proof.
  intros [Hrows _]. rewrite db_count_spec, Hrows.
  rewrite (filter_to_row to_row (λ r, String.eqb (er_stream_id r) sid) (λ e, se_stream_id e = sid)).
  - by rewrite length_map.
  - intros e. apply String.eqb_eq.
Qed.

Lemma sql_write_continues s evs sid events :
  sql_events s evs → numbered sid (Z.of_nat (length (stream_of sid evs))) events →
  ∃ s', SQLAlchemyEventStore_write dumps events s = (Return tt, s') ∧ sql_events s' (evs ++ events).
Proof.
  intros [Hrows Hwf] Hnum. destruct (insert_loop_ok s events (map to_row (evs ++ events))) as (s' & Hrun & Hs').
  - rewrite Hrows. by apply (insert_continues to_row clash sql_clash_spec evs sid).
  - exists s'. split; [done|]. split; [done|]. by apply (holds_append evs sid).
Qed.

Lemma sql_load s evs sid v :
  sql_events s evs →
  SQLAlchemyEventStore_load loads no_metadata sid v s =
    (Return (filter (λ e, (v < se_version e)%Z) (stream_of sid evs)), s).
Proof.
  intros [Hrows Hwf]. unfold SQLAlchemyEventStore_load, mbind, PyM_bind.
  edestruct (db_select_spec (clash := clash)) as (l & -> & Hperm & Hsort); [done|].
  specialize (Hsort _ eq_refl). cbn [take_opt]. rewrite Hrows in Hperm.
  assert (∀ e, String.eqb (er_stream_id (to_row e)) sid && (v <? er_version (to_row e))%Z = true
            ↔ (v < se_version e)%Z ∧ se_stream_id e = sid) as Hp.
  { intros e. simpl. rewrite andb_true_iff, String.eqb_eq, Z.ltb_lt. tauto. }
  rewrite (select_stream to_row er_version (λ _, eq_refl)
    (λ r, String.eqb (er_stream_id r) sid && (v <? er_version r)%Z) evs sid v l Hwf Hp Hperm Hsort).
  by rewrite map_stored_event.
Qed.

#[local] Instance Sql_EventStore : EventStore M S := {
  es_append := SQLAlchemyEventStore_append dumps;
  es_load := SQLAlchemyEventStore_load loads no_metadata;
}.

Definition sql_parsed s : list (StoredEvent M) :=
  omap (λ r, match stored_event loads no_metadata r with Return e => Some e | Raise _ => None end) (db_rows s).

Lemma sql_parsed_events s evs : sql_events s evs → sql_parsed s = evs.
Proof.
  intros [Hrows _]. unfold sql_parsed. rewrite Hrows. clear Hrows. induction evs as [|e evs IH]; [done|].
  cbn [map omap list_omap]. by rewrite stored_event_values, IH.
Qed.

#[export] Instance Sql_EventStoreSpec : EventStoreSpec M S.
Proof.
  unshelve refine {| es_stream := λ sid s, stream_of sid (sql_parsed s);
                     es_ok := λ s, ∃ evs, sql_events s evs |}.
  - intros sid events n s [evs Hs] Hn _ Hnum. rewrite (sql_parsed_events s evs Hs) in *. subst n.
    destruct (sql_write_continues s evs sid events Hs Hnum) as (s' & Hw & Hs').
    exists s'. rewrite (sql_parsed_events s' _ Hs'). split_and!.
    + unfold es_append; simpl. unfold SQLAlchemyEventStore_append, mbind, PyM_bind.
      by rewrite (sql_count s evs sid Hs), Z.eqb_refl.
    + eauto.
    + by rewrite stream_of_app, (stream_of_numbered sid _ events sid Hnum), decide_True.
    + intros sid' Hne'. rewrite stream_of_app, (stream_of_numbered sid _ events sid' Hnum), decide_False by done.
      by rewrite app_nil_r.
  - intros sid events n s [evs Hs] Hn _. rewrite (sql_parsed_events s evs Hs) in *. exists s.
    split_and!; [|by eauto|by rewrite (sql_parsed_events s evs Hs)].
    unfold es_append; simpl. unfold SQLAlchemyEventStore_append, mbind, PyM_bind.
    by rewrite (sql_count s evs sid Hs), (proj2 (Z.eqb_neq _ _)) by congruence.
  - intros sid v s [evs Hs]. unfold es_load; simpl. rewrite (sql_parsed_events s evs Hs). by apply sql_load.
Defined.

End EventStoreSpec.

(** ** Lemmas: the audit store *)

Section AuditStoreSpec.
Context {S : Type} `{!Session S AuditRow} `{!SessionSpec S AuditRow SQLAlchemyAuditStore_clash}.
Context `{!SqlText} `{!SqlTextSpec}.
Context (dumps : gmap string string → string) (loads : string → outcome (gmap string string)).
Context (loads_dumps : ∀ m, loads (dumps m) = Return m) (dumps_text : ∀ m, dumps m ≠ "").
Implicit Types (s : S) (events : list AuditEvent).

#[local] Abbreviation clash := SQLAlchemyAuditStore_clash.
#[local] Abbreviation to_row := (ar_values dumps).

Definition has_id (e : AuditEvent) : Prop := ae_event_id e ≠ "".

Lemma audit_event_values e : has_id e → audit_event loads (to_row e) = Return e.
Proof.
  intros Hid. unfold audit_event, metadata_of, StrId_init. simpl.
  rewrite !(proj2 (String.eqb_neq _ _)), loads_dumps by (done || apply dumps_text). by destruct e.
Qed.

Lemma map_audit_event events : Forall has_id events → map_outcome (audit_event loads) (map to_row events) = Return events.
Proof.
  induction 1 as [|e events He _ IH]; [done|]. cbn [map map_outcome]. by rewrite audit_event_values, IH.
Qed.

Lemma audit_clash e events :
  existsb (clash (to_row e)) (map to_row events) = true ↔ ae_event_id e ∈ ae_event_id <$> events.
Proof.
  rewrite existsb_exists, list_elem_of_fmap. split.
  - intros (r & Hr & Hc). apply in_map_iff in Hr as (e' & <- & He'). exists e'.
    apply String.eqb_eq in Hc. split; [done|]. by apply list_elem_of_In.
  - intros (e' & Hk & He'). exists (to_row e'). split; [apply in_map, list_elem_of_In, He'|].
    by apply String.eqb_eq.
Qed.

Lemma record_all s recs events :
  db_rows s = map to_row recs → NoDup (ae_event_id <$> recs ++ events) →
  ∃ s', for_each events (SQLAlchemyAuditStore_record dumps) s = (Return tt, s') ∧
    db_rows s' = map to_row (recs ++ events).
Proof.
  revert s recs. induction events as [|e events IH]; intros s recs Hrows Hnd; cbn [for_each].
  { exists s. by rewrite app_nil_r. }
  unfold mbind, PyM_bind, SQLAlchemyAuditStore_record at 1.
  destruct (db_insert_spec (clash := clash) (to_row e) s) as (s1 & -> & Hrows1).
  { rewrite Hrows. apply not_true_iff_false. rewrite audit_clash. intros Hin.
    rewrite fmap_app, NoDup_app in Hnd. destruct Hnd as (_ & Hd & _). apply (Hd _ Hin), list_elem_of_here. }
  replace (recs ++ e :: events) with ((recs ++ [e]) ++ events) in * by by rewrite <- app_assoc.
  apply IH; [|done]. by rewrite Hrows1, Hrows, map_app.
Qed.

Lemma memory_record_all recs events :
  for_each events InMemoryAuditStore_record recs = (Return tt, recs ++ events).
Proof.
  revert recs. induction events as [|e events IH]; intros recs; cbn [for_each]; [by rewrite app_nil_r|].
  unfold mbind, PyM_bind, InMemoryAuditStore_record at 1, updates. by rewrite IH, <- app_assoc.
Qed.

Lemma filter_rows (p : AuditRow → bool) (q : AuditEvent → bool) events :
  (∀ e, e ∈ events → p (to_row e) = q e) →
  filter (λ r, p r = true) (map to_row events) = map to_row (List.filter q events).
Proof.
  induction events as [|e events IH]; intros Hpq; [done|]. cbn [map List.filter].
  rewrite filter_cons, IH, (Hpq e) by set_solver. by destruct (q e).
Qed.

Lemma map_sorted (l : list AuditEvent) :
  Sorted (λ a b, (ae_occurred_at a <= ae_occurred_at b)%Z) l →
  Sorted (λ a b, (ar_occurred_at a <= ar_occurred_at b)%Z) (map to_row l).
Proof. induction 1 as [|e l Hs IH Hhd]; cbn [map]; constructor; [done|]. by destruct Hhd; constructor. Qed.

Lemma rows_times (l : list AuditEvent) : ar_occurred_at <$> map to_row l = ae_occurred_at <$> l.
Proof. induction l as [|e l IH]; [done|]. cbn. by rewrite IH. Qed.

(** An action filter without wildcards for which the folding of the database makes no difference on the recorded actions. *)
Definition plain_filter events (act : option string) : Prop :=
  ∀ x, act = Some x → plain x = true ∧
    ∀ e, e ∈ events → contains (like_fold x) (like_fold (ae_action e)) = contains x (ae_action e).

(** The WHERE clause of a query is the filter of the in-memory store. *)
Lemma audit_where pid from to act out events e :
  plain_filter events act → e ∈ events →
  where_opt out (λ x r, String.eqb (ar_outcome r) x)
    (where_opt act (λ x r, sql_contains x (ar_action r))
    (where_opt to (λ x r, (ar_occurred_at r <=? x)%Z)
    (where_opt from (λ x r, (x <=? ar_occurred_at r)%Z)
    (where_opt pid (λ x r, String.eqb (ar_principal_id r) x) (λ _, true))))) (to_row e)
  = audit_matches pid from to act out e.
Proof.
  intros Hact He. unfold audit_matches, where_opt.
  destruct act as [x|]; [destruct (Hact x eq_refl) as [Hx Hfold]; pose proof (like_plain x (ae_action e) Hx) as Hlike;
    fold (sql_contains x (ae_action e)) in Hlike; rewrite Hfold in Hlike by done|];
    destruct pid, from, to, out; cbn; by rewrite ?Hlike, ?andb_true_r, ?andb_assoc.
Qed.

Lemma filter_sublist_bool {A} (q : A → bool) (l : list A) : List.filter q l `sublist_of` l.
Proof. induction l as [|x l IH]; [done|]. simpl. destruct (q x); by constructor. Qed.

Lemma sql_query_agrees s recs pid from to act out limit :
  db_rows s = map to_row recs → Forall has_id recs → NoDup (ae_occurred_at <$> recs) → (0 <= limit)%Z →
  plain_filter recs act →
  SQLAlchemyAuditStore_query loads pid from to act out limit s =
    (fst (InMemoryAuditStore_query pid from to act out limit recs), s).
Proof.
  intros Hrows Hid Htimes Hlim Hact. unfold SQLAlchemyAuditStore_query, mbind, PyM_bind. cbv zeta.
  edestruct (db_select_spec (clash := clash)) as (l & -> & Hperm & Hsort); [exact Hlim|].
  specialize (Hsort _ eq_refl). rewrite Hrows in Hperm.
  rewrite (filter_rows _ (audit_matches pid from to act out)) in Hperm by (intros e He; by apply (audit_where _ _ _ _ _ recs)).
  set (L := List.filter (audit_matches pid from to act out) recs) in *.
  assert (map to_row (sorted_by ae_occurred_at L) = l) as <-.
  { apply (sorted_unique ar_occurred_at); [|apply map_sorted, sorted_by_sorted|done|].
    - rewrite rows_times, sorted_by_perm. eapply sublist_NoDup; [exact Htimes|].
      apply fmap_sublist, filter_sublist_bool.
    - rewrite Hperm. apply Permutation_map. apply sorted_by_perm. }
  unfold InMemoryAuditStore_query, reads, slice_to. cbv zeta. cbn [fst take_opt].
  rewrite (proj2 (Z.ltb_ge _ _)), !filter_opt_filter, !filter_filter_andb by done.
  change (List.filter _ recs) with L. rewrite firstn_map, map_audit_event; [done|].
  apply Forall_take. rewrite sorted_by_perm. rewrite Forall_forall in Hid |- *. intros e [He _]%list_elem_of_In%filter_In. by apply Hid, list_elem_of_In.
Qed.

End AuditStoreSpec.

(** ** Lemmas: the outbox *)

Section OutboxSpec.
Context {S : Type} `{!Session S OutboxRow} `{!SessionSpec S OutboxRow OutboxRow_clash} (now : Z).
Implicit Types (s : S) (rows : list OutboxRow).

Definition valid_row (r : OutboxRow) : Prop := ∃ st, ow_status r = status_text st.
Definition rows_ok rows : Prop := NoDup (ow_id <$> rows) ∧ Forall valid_row rows.

Definition row_status (r : OutboxRow) : OutboxStatus :=
  match status_of_text (ow_status r) with Return st => st | Raise _ => PENDING end.
Definition row_statuses rows : gmap string OutboxStatus := list_to_map ((λ r, (ow_id r, row_status r)) <$> rows).

Lemma status_of_status_text st : status_of_text (status_text st) = Return st.
Proof. by destruct st. Qed.

Lemma row_statuses_keys rows : ((λ r, (ow_id r, row_status r)) <$> rows).*1 = ow_id <$> rows.
Proof. by rewrite <- list_fmap_compose. Qed.

Lemma row_statuses_elem rows r :
  NoDup (ow_id <$> rows) → r ∈ rows → row_statuses rows !! ow_id r = Some (row_status r).
Proof.
  intros Hnd Hr. apply elem_of_list_to_map_1; [by rewrite row_statuses_keys|].
  apply list_elem_of_fmap. by exists r.
Qed.

Lemma row_statuses_inv rows i st :
  row_statuses rows !! i = Some st → ∃ r, r ∈ rows ∧ ow_id r = i ∧ row_status r = st.
Proof. intros (r & [= -> ->] & Hr)%elem_of_list_to_map_2%list_elem_of_fmap. eauto. Qed.

(** A status change of one row. *)
Lemma row_statuses_update rows i f st :
  (∀ r, ow_id (f r) = ow_id r) → (∀ r, ow_status (f r) = status_text st) →
  rows_ok rows → is_Some (row_statuses rows !! i) →
  let rows' := update_where (λ r, String.eqb (ow_id r) i) f rows in
  rows_ok rows' ∧ row_statuses rows' = <[i := st]> (row_statuses rows).
Proof.
  intros Hid Hst [Hnd Hok] [st0 Hi] rows'.
  assert (ow_id <$> rows' = ow_id <$> rows) as Hids.
  { subst rows'. clear -Hid. induction rows as [|r rows IH]; [done|].
    cbn [update_where map]. rewrite !fmap_cons. f_equal; [|exact IH]. by destruct (String.eqb _ _). }
  assert (rows_ok rows') as Hok'.
  { split; [by rewrite Hids|]. apply Forall_forall. intros r' Hr'.
    apply list_elem_of_In, in_map_iff in Hr' as (r & <- & Hr). rewrite <- list_elem_of_In in Hr.
    destruct (String.eqb _ _); [by exists st|]. by eapply (proj1 (Forall_forall _ _) Hok). }
  split; [done|]. apply map_eq. intros j. destruct (decide (i = j)) as [<-|Hne].
  - rewrite lookup_insert_eq. destruct (row_statuses_inv _ _ _ Hi) as (r & Hr & Hri & _).
    assert (f r ∈ rows') as Hin.
    { apply list_elem_of_In, in_map_iff. exists r. rewrite Hri, String.eqb_refl. by rewrite <- list_elem_of_In. }
    pose proof (row_statuses_elem rows' (f r) (proj1 Hok') Hin) as Hl. rewrite Hid, Hri in Hl. rewrite Hl.
    unfold row_status. by rewrite Hst, status_of_status_text.
  - rewrite lookup_insert_ne by done. unfold row_statuses. subst rows'. clear -Hne Hid.
    induction rows as [|r rows IH]; [done|]. cbn [update_where map fmap list_fmap list_to_map foldr uncurry].
    destruct (String.eqb_spec (ow_id r) i) as [Hr|Hr].
    + rewrite !Hid, Hr, !lookup_insert_ne by done. exact IH.
    + destruct (decide (ow_id r = j)) as [->|Hj]; [by rewrite !lookup_insert_eq|].
      rewrite !lookup_insert_ne by done. exact IH.
Qed.

Definition row_record (r : OutboxRow) : OutboxRecord :=
  mkOutbox (ow_id r) (ow_aggregate_id r) (ow_aggregate_type r) (ow_event_type r) (ow_topic r) (ow_payload r)
    (default [] (ow_headers r)) (row_status r) (ow_created_at r) None 0 None.

Lemma map_row_record rows :
  Forall valid_row rows →
  map_outcome SqlAlchemyOutboxRepository_row_to_record rows = Return (map row_record rows).
Proof.
  induction 1 as [|r rows [st Hst] _ IH]; [done|]. cbn [map map_outcome].
  unfold SqlAlchemyOutboxRepository_row_to_record at 1, row_record at 1, row_status. by rewrite IH, Hst, status_of_status_text.
Qed.

Lemma pending_status r : valid_row r → String.eqb (ow_status r) "PENDING" = true ↔ row_status r = PENDING.
Proof. intros [st Hst]. unfold row_status. rewrite Hst, status_of_status_text. by destruct st. Qed.

Lemma row_record_ids rows : or_id <$> map row_record rows = ow_id <$> rows.
Proof. induction rows as [|r rows IH]; [done|]. cbn. by rewrite IH. Qed.

#[local] Instance Sql_OutboxRepository : OutboxRepository S := {
  ob_save := SqlAlchemyOutboxRepository_save true;
  ob_get_pending := SqlAlchemyOutboxRepository_get_pending true;
  ob_mark_dispatched := SqlAlchemyOutboxRepository_mark_dispatched now;
  ob_mark_failed := SqlAlchemyOutboxRepository_mark_failed;
}.

Lemma sql_get_pending s limit :
  rows_ok (db_rows s) → (0 < limit)%Z →
  ∃ l, SqlAlchemyOutboxRepository_get_pending true limit s = (Return (map row_record l), s) ∧
    NoDup (ow_id <$> l) ∧ (∀ r, r ∈ l → r ∈ db_rows s ∧ row_status r = PENDING) ∧
    (length l = Z.to_nat limit ∨ ∀ r, r ∈ db_rows s → row_status r = PENDING → r ∈ l).
Proof.
  intros [Hnd Hok] Hlim. unfold SqlAlchemyOutboxRepository_get_pending, mbind, PyM_bind.
  edestruct (db_select_spec (clash := OutboxRow_clash)) as (l & -> & Hperm & _); [simpl; lia|].
  cbn [take_opt]. set (L := take (Z.to_nat limit) l).
  assert (∀ r, r ∈ l ↔ r ∈ db_rows s ∧ row_status r = PENDING) as Hl.
  { intros r. rewrite Hperm, list_elem_of_filter. split.
    - intros [Hp Hr]. split; [done|]. apply pending_status; [|done]. by eapply (proj1 (Forall_forall _ _) Hok).
    - intros [Hr Hp]. split; [|done]. apply pending_status; [|done]. by eapply (proj1 (Forall_forall _ _) Hok). }
  assert (∀ r, r ∈ L → r ∈ db_rows s ∧ row_status r = PENDING) as HL.
  { intros r (j & Hj & _)%elem_of_take. apply Hl, list_elem_of_lookup. eauto. }
  exists L. split_and!.
  - unfold from_outcome. rewrite map_row_record; [done|]. apply Forall_forall. intros r Hr.
    eapply (proj1 (Forall_forall _ _) Hok). by apply HL.
  - eapply sublist_NoDup; [|apply fmap_sublist, sublist_take]. rewrite Hperm.
    eapply sublist_NoDup; [exact Hnd|]. apply fmap_sublist, sublist_filter.
  - exact HL.
  - destruct (decide (Z.to_nat limit ≤ length l)%nat) as [Hlen|Hlen].
    + left. subst L. rewrite length_take. lia.
    + right. intros r Hr Hp. subst L. rewrite take_ge by lia. by apply Hl.
Qed.

#[export] Instance Sql_OutboxRepositorySpec : OutboxRepositorySpec S.
Proof.
  unshelve refine {| ob_statuses := λ s, row_statuses (db_rows s); ob_ok := λ s, rows_ok (db_rows s) |}.
  - intros limit s Hok Hlim. destruct (sql_get_pending s limit Hok Hlim) as (l & Hget & Hnd & Hl & Hall).
    exists (map row_record l). rewrite row_record_ids, length_map. split_and!; [exact Hget|done| |].
    + intros r0 Hr0. apply list_elem_of_In, in_map_iff in Hr0 as (r & <- & Hr). rewrite <- list_elem_of_In in Hr.
      destruct (Hl r Hr) as [Hr' Hp]. rewrite <- Hp. apply row_statuses_elem; [apply Hok|done].
    + destruct Hall as [Hlen|Hall]; [by left|right]. intros i Hi.
      destruct (row_statuses_inv _ _ _ Hi) as (r & Hr & <- & Hp). apply list_elem_of_fmap. eauto.
  - intros i s Hok Hi. destruct (db_update_spec (clash := OutboxRow_clash) (λ r, String.eqb (ow_id r) i)
      (dispatched_values now) s) as (s' & Hup & Hrows).
    exists s'. split; [exact Hup|]. rewrite Hrows. by apply row_statuses_update.
  - intros i err s Hok Hi. destruct (db_update_spec (clash := OutboxRow_clash) (λ r, String.eqb (ow_id r) i)
      (failed_values err) s) as (s' & Hup & Hrows).
    exists s'. split; [exact Hup|]. rewrite Hrows. by apply row_statuses_update.
Defined.

End OutboxSpec.

(** ** Theorems *)


(** two writers race on one stream of the SQL event store: the second, whose count was
    taken before the first wrote, is stopped by the unique constraint - with the database's
    own error, which is not turned into [OptimisticConcurrencyError]. *)
Theorem sql_append_race {S M} `{!Session S EventRow} `{!SessionSpec S EventRow SQLAlchemyEventStore_clash}
    (dumps : M → string) s sid n evs events1 events2 :
  sql_events dumps s evs → n = Z.of_nat (length (stream_of sid evs)) →
  events1 ≠ [] → events2 ≠ [] → numbered sid n events1 → numbered sid n events2 →
  ∃ s1, SQLAlchemyEventStore_append dumps sid events1 n s = (Return tt, s1) ∧
    sql_events dumps s1 (evs ++ events1) ∧
    (∃ s2, SQLAlchemyEventStore_write dumps events2 s1 =
       (Raise (integrity_error (clash := SQLAlchemyEventStore_clash)), s2)) ∧
    SQLAlchemyEventStore_append dumps sid events2 n s1 =
      (Raise (OptimisticConcurrencyError sid n (n + Z.of_nat (length events1))), s1).
Proof.
  intros Hs -> Hne1 Hne2 Hn1 Hn2.
  destruct (sql_write_continues dumps s evs sid events1 Hs Hn1) as (s1 & Hw & Hs1). exists s1.
  assert (length (stream_of sid (evs ++ events1)) = length (stream_of sid evs) + length events1)%nat as Hlen.
  { by rewrite stream_of_app, length_app, (stream_of_numbered sid _ events1 sid Hn1), decide_True. }
  assert (0 < length events1)%nat by (destruct events1; [done | simpl; lia]).
  split_and!; [|done| |].
  - unfold SQLAlchemyEventStore_append, mbind, PyM_bind. by rewrite (sql_count dumps s evs sid Hs), Z.eqb_refl.
  - eapply insert_loop_clash. rewrite (proj1 Hs1).
    eapply (insert_stale (er_values dumps) _ (sql_clash_spec dumps) _ sid); [apply Hs1|done| |done]. lia.
  - unfold SQLAlchemyEventStore_append, mbind, PyM_bind.
    rewrite (sql_count dumps s1 _ sid Hs1), Hlen, (proj2 (Z.eqb_neq _ _)) by lia. simpl. unfold raise.
    do 3 f_equal. lia.
Qed.

(** the SQL outbox keeps of a record what it was created with.  A record survives being
    written and read back exactly when it has not been tried: the time of dispatch, the
    retry count and the last error are not read back, whatever the row holds. *)
Theorem sql_outbox_roundtrip r :
  SqlAlchemyOutboxRepository_row_to_record (SqlAlchemyOutboxRepository_record_to_dict r) = Return r ↔
  or_dispatched_at r = None ∧ or_retry_count r = 0%Z ∧ or_last_error r = None.
Proof.
  unfold SqlAlchemyOutboxRepository_row_to_record. cbn [ow_status SqlAlchemyOutboxRepository_record_to_dict].
  rewrite status_of_status_text. destruct r; simpl. split; [by intros [= <- <- <-] | by intros (-> & -> & ->)].
Qed.

(** the unit of work closes its session after a commit that succeeds and after a
    rollback, but a commit that raises leaves the session open. *)
Theorem sql_uow_leaks {A} (body : PyM (list string) A) (commit_ok : bool) log :
  let op s : PyM (list string) unit := updates (λ l, l ++ [s]) in
  let commit : PyM (list string) unit :=
    op "commit" ;; if commit_ok then mret tt else raise (ValueError "conflict") in
  let '(o, log1) := body (log ++ ["open"]) in
  SqlAlchemyUnitOfWork_with (op "open") commit (op "rollback") (op "close") body log =
    match o with
    | Return a => if commit_ok then (Return a, log1 ++ ["commit"; "close"])
                  else (Raise (ValueError "conflict"), log1 ++ ["commit"])
    | Raise e => (Raise e, log1 ++ ["rollback"; "close"])
    end.
Proof.
  intros op commit. destruct (body (log ++ ["open"])) as [o log1] eqn:E.
  unfold SqlAlchemyUnitOfWork_with, SqlAlchemyUnitOfWork_body, SqlAlchemyUnitOfWork_aexit, mbind, PyM_bind,
    op, commit, updates.
  rewrite E. destruct o as [a|e]; [destruct commit_ok|]; simpl; by rewrite <- ?app_assoc.
Qed.

(** an aggregate saved under a fresh key is found, deleting it removes it and nothing
    else, and deleting it again is a [NotFoundError]. *)
Theorem sql_repository_lifecycle {S A} `{!Session S A} (pk : A → string) cls
    `{!SessionSpec S A (λ a b, String.eqb (pk a) (pk b))} s a :
  (∀ b, b ∈ db_rows s → pk b ≠ pk a) →
  ∃ s1 s2, SqlAlchemyRepositoryBase_save a s = (Return tt, s1) ∧
    SqlAlchemyRepositoryBase_get_or_raise pk cls (pk a) s1 = (Return a, s1) ∧
    SqlAlchemyRepositoryBase_delete pk cls (pk a) s1 = (Return tt, s2) ∧ db_rows s2 = db_rows s ∧
    SqlAlchemyRepositoryBase_delete pk cls (pk a) s2 = (Raise (NotFoundError cls (Some (pk a))), s2).
Proof.
  intros Hfresh.
  assert (filter (λ b, String.eqb (pk b) (pk a) = true) (db_rows s) = []) as Hnone.
  { apply filter_none. intros b Hb.  rewrite String.eqb_eq. by apply Hfresh. }
  assert (filter (λ b, String.eqb (pk b) (pk a) = false) (db_rows s) = db_rows s) as Hrest.
  { apply filter_every. intros b Hb. apply String.eqb_neq. by apply Hfresh. }
  edestruct (db_add_spec (clash := λ a b, String.eqb (pk a) (pk b)) a s) as (s1 & Hadd & Hrows1).
  { apply not_true_iff_false. rewrite existsb_exists. intros (b & Hb & Heq). apply String.eqb_eq in Heq.
    apply (Hfresh b); [by apply list_elem_of_In|done]. }
  assert (SqlAlchemyRepositoryBase_get_or_raise pk cls (pk a) s1 = (Return a, s1)) as Hget.
  { unfold SqlAlchemyRepositoryBase_get_or_raise, SqlAlchemyRepositoryBase_get, mbind, PyM_bind. rewrite db_get_spec, Hrows1.
    rewrite filter_app, Hnone, filter_cons, decide_True; [done|]. apply String.eqb_refl. }
  edestruct (db_delete_spec (λ b, String.eqb (pk b) (pk a)) s1) as (s2 & Hdel & Hrows2).
  assert (db_rows s2 = db_rows s) as Hback.
  { rewrite Hrows2, Hrows1, filter_app, Hrest, filter_cons, decide_False, app_nil_r; [done|].
     by rewrite String.eqb_refl. }
  exists s1, s2. split_and!; [done..| |done|].
  - unfold SqlAlchemyRepositoryBase_delete, mbind, PyM_bind. by rewrite Hget.
  - unfold SqlAlchemyRepositoryBase_delete, SqlAlchemyRepositoryBase_get_or_raise, SqlAlchemyRepositoryBase_get, mbind, PyM_bind.
    rewrite db_get_spec, Hback. by rewrite Hnone.
Qed.

(** a request filed under a fresh key of a configured store is completed once and its
    response is replayed; a store without a model never finds anything and refuses to file. *)
Theorem sql_idempotency_lifecycle {S} `{!Session S IdempotencyRow}
    `{!SessionSpec S IdempotencyRow (λ a b, String.eqb (iw_key a) (iw_key b))} s key r response :
  (∀ b, b ∈ db_rows s → iw_key b ≠ IdempotencyKey_str key) →
  (∃ s1 s2, SqlAlchemyIdempotencyStore_save true key r s = (Return tt, s1) ∧
    SqlAlchemyIdempotencyStore_complete true key response s1 = (Return tt, s2) ∧
    SqlAlchemyIdempotencyStore_get true key s2 =
      (Return (Some (mkIdemRow (IdempotencyKey_str key) (Some response) "COMPLETED")), s2)) ∧
  SqlAlchemyIdempotencyStore_get false key s = (Return None, s) ∧
  ∃ e, SqlAlchemyIdempotencyStore_save false key r s = (Raise e, s) ∧
       SqlAlchemyIdempotencyStore_complete false key response s = (Raise e, s).
Proof.
  intros Hfresh. split; [|by eauto]. set (k := IdempotencyKey_str key) in *.
  edestruct (db_add_spec (clash := λ a b, String.eqb (iw_key a) (iw_key b))
    (mkIdemRow k (idr_response r) (idr_status r)) s) as (s1 & Hadd & Hrows1).
  { apply not_true_iff_false. rewrite existsb_exists. intros (b & Hb & Heq). apply String.eqb_eq in Heq.
    apply (Hfresh b); [by apply list_elem_of_In|done]. }
  edestruct (db_update_spec (λ r, String.eqb (iw_key r) k) (λ r, mkIdemRow (iw_key r) (Some response) "COMPLETED") s1)
    as (s2 & Hup & Hrows2).
  exists s1, s2. split_and!; [done..|]. unfold SqlAlchemyIdempotencyStore_get. fold k.
  rewrite db_get_spec, Hrows2, Hrows1. unfold update_where. rewrite map_app, filter_app. cbn [map iw_key].
  rewrite String.eqb_refl. do 2 f_equal.
  assert (filter (λ b, String.eqb (iw_key b) k = true)
    (map (λ r, if String.eqb (iw_key r) k then mkIdemRow (iw_key r) (Some response) "COMPLETED" else r) (db_rows s)) = [])
    as ->.
  { apply filter_none. intros b Hb. apply list_elem_of_In, in_map_iff in Hb as (b0 & <- & Hb0).
    rewrite <- list_elem_of_In in Hb0. specialize (Hfresh b0 Hb0). apply String.eqb_neq in Hfresh.
    rewrite Hfresh. by rewrite Hfresh. }
  rewrite filter_cons, decide_True; [done|]. apply String.eqb_refl.
Qed.

(** ** Witnesses *)

#[local] Instance demo_audit_session : Session (list AuditRow) AuditRow := list_Session SQLAlchemyAuditStore_clash.
#[local] Instance demo_audit_spec : SessionSpec (list AuditRow) AuditRow SQLAlchemyAuditStore_clash :=
  list_SessionSpec SQLAlchemyAuditStore_clash.

(** A serialisation of metadata and its inverse. *)
Definition demo_dumps (m : gmap string string) : string := str_of_int (Zpos (encode m)).
Definition demo_loads (s : string) : outcome (gmap string string) :=
  match py_int s with
  | Return (Zpos p) => match decode p with Some m => Return m | None => Raise (ValueError "JSON") end
  | Return _ => Raise (ValueError "JSON")
  | Raise e => Raise e
  end.

Lemma demo_loads_dumps m : demo_loads (demo_dumps m) = Return m.
Proof. unfold demo_loads, demo_dumps. by rewrite py_int_str, decode_encode. Qed.

Lemma demo_dumps_text m : demo_dumps m ≠ "".
Proof. intros H. pose proof (demo_loads_dumps m) as Hm. rewrite H in Hm. discriminate. Qed.


(** On SQLite the action filter finds other cases of letters too. *)
Example sqlite_case_differs :
  sql_contains (H := sqlite_SqlText) "order" "ORDER:read" = true ∧ contains "order" "ORDER:read" = false.
Proof. split; reflexivity. Qed.

(** The action filter is a pattern: a wildcard in it matches more than in memory. *)
Example sql_wildcard_differs :
  sql_contains "order_read" "order-read" = true ∧ contains "order_read" "order-read" = false.
Proof. split; reflexivity. Qed.

#[local] Instance demo_event_session : Session (list EventRow) EventRow := list_Session SQLAlchemyEventStore_clash.
#[local] Instance demo_event_spec : SessionSpec (list EventRow) EventRow SQLAlchemyEventStore_clash :=
  list_SessionSpec SQLAlchemyEventStore_clash.

Definition demo_stored (v : Z) : StoredEvent unit := mkStored "acc-1" v "Deposited" "x" tt 0.

Lemma sql_append_race_witness :
  ∃ s1 s2, SQLAlchemyEventStore_append (λ _, "{}") "acc-1" [demo_stored 1] 0 [] = (Return tt, s1) ∧
    SQLAlchemyEventStore_write (λ _, "{}") [demo_stored 1] s1 = (Raise IntegrityError, s2).
Proof.
  destruct (sql_append_race (λ _ : unit, "{}") [] "acc-1" 0 [] [demo_stored 1] [demo_stored 1])
    as (s1 & Happ & _ & (s2 & Hw) & _).
  - split; [done|]. intros sid j e He. done.
  - reflexivity.
  - discriminate.
  - discriminate.
  - intros [|j] e He; [injection He as <-; done | discriminate].
  - intros [|j] e He; [injection He as <-; done | discriminate].
  - exists s1, s2. split; [exact Happ | exact Hw].
Defined.

#[local] Instance demo_rows_session : Session (list string) string := list_Session (λ a b, String.eqb (id a) (id b)).
#[local] Instance demo_rows_spec : SessionSpec (list string) string (λ a b, String.eqb (id a) (id b)) :=
  list_SessionSpec (λ a b, String.eqb (id a) (id b)).

Lemma sql_repository_lifecycle_witness :
  ∃ s1 s2, SqlAlchemyRepositoryBase_save "b" ["a"] = (Return tt, s1) ∧
    SqlAlchemyRepositoryBase_delete id "Order" "b" s1 = (Return tt, s2) ∧ s2 = ["a"].
Proof.
  destruct (sql_repository_lifecycle id "Order" ["a"] "b") as (s1 & s2 & Hadd & _ & Hdel & Hrows & _).
  - intros b ->%list_elem_of_singleton. discriminate.
  - exists s1, s2. split; [exact Hadd|]. split; [exact Hdel | exact Hrows].
Defined.

#[local] Instance demo_idem_session : Session (list IdempotencyRow) IdempotencyRow :=
  list_Session (λ a b, String.eqb (iw_key a) (iw_key b)).
#[local] Instance demo_idem_spec :
  SessionSpec (list IdempotencyRow) IdempotencyRow (λ a b, String.eqb (iw_key a) (iw_key b)) :=
  list_SessionSpec (λ a b, String.eqb (iw_key a) (iw_key b)).

Lemma sql_idempotency_lifecycle_witness :
  ∃ s1 s2, SqlAlchemyIdempotencyStore_save true (mkIKey "c" "op") (mkIRecord "op:c" None "PENDING" 0 None) []
      = (Return tt, s1) ∧
    SqlAlchemyIdempotencyStore_complete true (mkIKey "c" "op") "done" s1 = (Return tt, s2) ∧
    SqlAlchemyIdempotencyStore_get true (mkIKey "c" "op") s2 =
      (Return (Some (mkIdemRow "op:c" (Some "done") "COMPLETED")), s2).
Proof.
  destruct (sql_idempotency_lifecycle [] (mkIKey "c" "op") (mkIRecord "op:c" None "PENDING" 0 None) "done")
    as [(s1 & s2 & Hsave & Hdone & Hget) _].
  - intros b Hb. by apply not_elem_of_nil in Hb.
  - exists s1, s2. split_and!; [exact Hsave | exact Hdone | exact Hget].
Defined.
