(* ===== verification/SqlQuery.v ===== *)
(** * SQLAlchemy queries

    [adapters/sqlalchemy/specification.py], [tenant_filter.py], [mixins.py] and the file
    generator of [migrations.py].  A WHERE clause is a tree over column expressions, with
    the three-valued logic of SQL; a specification is a tree of the classes of
    [kernel/ddd/specification.py] and their SQL-aware subclasses. *)
From S2P Require Import Prelude PyString OrderedDict DomainKernel.

(** ** WHERE clauses *)

Inductive ColumnElement (T : Type) :=
| ELeaf (value : T → option bool)
| EAnd (l r : ColumnElement T)
| EOr (l r : ColumnElement T)
| ENot (e : ColumnElement T).
Arguments ELeaf {T} value.
Arguments EAnd {T} l r.
Arguments EOr {T} l r.
Arguments ENot {T} e.

(** SQL's connectives; [None] is NULL. *)
Definition sql_and (a b : option bool) : option bool :=
  match a, b with
  | Some false, _ | _, Some false => Some false
  | Some true, Some true => Some true
  | _, _ => None
  end.
Definition sql_not (a : option bool) : option bool := negb <$> a.
Definition sql_or (a b : option bool) : option bool :=
  match a, b with
  | Some true, _ | _, Some true => Some true
  | Some false, Some false => Some false
  | _, _ => None
  end.

Fixpoint sql_value {T} (e : ColumnElement T) (row : T) : option bool :=
  match e with
  | ELeaf v => v row
  | EAnd l r => sql_and (sql_value l row) (sql_value r row)
  | EOr l r => sql_or (sql_value l row) (sql_value r row)
  | ENot e => sql_not (sql_value e row)
  end.

(** [SELECT ... WHERE e] keeps the rows for which [e] is true. *)
Definition selected {T} (e : ColumnElement T) (row : T) : bool := bool_decide (sql_value e row = Some true).

(** ** Specifications *)

(** A specification of the application: its class name, whether the class is a subclass of
    [SQLAlchemySpecification], its [is_satisfied_by], and what its [to_expression] does, if the object has
    one ([hasattr] asks for nothing more); or a composite, [aware] when it is the SQL-aware class. *)
Inductive sspec (T : Type) :=
| Leaf (cls : string) (sql_class : bool) (is_satisfied_by : T → outcome bool)
    (to_expression : option (outcome (T → option bool)))
| AndSpec (aware : bool) (left right : sspec T)
| OrSpec (aware : bool) (left right : sspec T)
| NotSpec (aware : bool) (spec : sspec T).
Arguments Leaf {T} cls sql_class is_satisfied_by to_expression.
Arguments AndSpec {T} aware left right.
Arguments OrSpec {T} aware left right.
Arguments NotSpec {T} aware spec.

Section Specifications.
Context {T : Type}.
Implicit Types (s : sspec T).

(** Whether the operators of [s] are those of the SQL-aware classes. *)
Definition sql_aware s : bool :=
  match s with Leaf _ c _ _ => c | AndSpec a _ _ | OrSpec a _ _ | NotSpec a _ => a end.

(** [a & b], [a | b], [~a]: the class of the left operand decides. *)
Definition spec_and s1 s2 : sspec T := AndSpec (sql_aware s1) s1 s2.
Definition spec_or s1 s2 : sspec T := OrSpec (sql_aware s1) s1 s2.
Definition spec_invert s : sspec T := NotSpec (sql_aware s) s.

Fixpoint satisfied s : Specification T :=
  match s with
  | Leaf _ _ f _ => f
  | AndSpec _ l r => AndSpecification (satisfied l) (satisfied r)
  | OrSpec _ l r => OrSpecification (satisfied l) (satisfied r)
  | NotSpec _ s => NotSpecification (satisfied s)
  end.

Definition unsupported (cls : string) : outcome (ColumnElement T) :=
  Raise (TypeError ("Specification " +:+ py_repr cls +:+ " does not implement to_expression(). "
    +:+ "Wrap it in an SQLAlchemySpecification subclass.")).

(** The [to_expression] of the composites, over the expressions of their operands, which
    are computed from left to right. *)
Definition SQLAlchemyAndSpecification_to_expression (left_expr right_expr : outcome (ColumnElement T))
    : outcome (ColumnElement T) :=
  match left_expr with
  | Raise e => Raise e
  | Return l => match right_expr with Raise e => Raise e | Return r => Return (EAnd l r) end
  end.
Definition SQLAlchemyOrSpecification_to_expression (left_expr right_expr : outcome (ColumnElement T))
    : outcome (ColumnElement T) :=
  match left_expr with
  | Raise e => Raise e
  | Return l => match right_expr with Raise e => Raise e | Return r => Return (EOr l r) end
  end.
Definition SQLAlchemyNotSpecification_to_expression (inner_expr : outcome (ColumnElement T))
    : outcome (ColumnElement T) :=
  match inner_expr with Raise e => Raise e | Return i => Return (ENot i) end.

Fixpoint get_expression s : outcome (ColumnElement T) :=
  match s with
  | Leaf _ _ _ (Some (Return v)) => Return (ELeaf v)
  | Leaf _ _ _ (Some (Raise e)) => Raise e
  | Leaf cls _ _ None => unsupported cls
  | AndSpec true l r => SQLAlchemyAndSpecification_to_expression (get_expression l) (get_expression r)
  | AndSpec false _ _ => unsupported "AndSpecification"
  | OrSpec true l r => SQLAlchemyOrSpecification_to_expression (get_expression l) (get_expression r)
  | OrSpec false _ _ => unsupported "OrSpecification"
  | NotSpec true s => SQLAlchemyNotSpecification_to_expression (get_expression s)
  | NotSpec false _ => unsupported "NotSpecification"
  end.

End Specifications.

(** ** The tenant filter *)

Section TenantFilter.
(** A query and a mapped class; [Query] objects are immutable: [filter] makes a new one. *)
Context {Query Entity : Type}.
(** [query.column_descriptions], the [entity] of each. *)
Context (column_descriptions : Query → list (option Entity)).
(** [issubclass(entity, TenantAware)], and the keys of [inspect(entity).mapper.column_attrs]. *)
Context (tenant_aware : Entity → bool) (column_attrs : Entity → outcome (list string)).
(** [query.enable_assertions(False).filter(entity.tenant_id == literal(t))]. *)
Context (filter_tenant : Query → Entity → string → outcome Query).

(** [_before_compile_handler]: the last line rebinds the local variable [query]; every path
    returns [None]. *)
Definition before_compile_handler (tenant_id : option string) (query : Query) : outcome (option Query) :=
  match tenant_id with
  | None => Return None
  | Some t =>
      match column_descriptions query with
      | [] | None :: _ => Return None
      | Some entity :: _ =>
          match column_attrs entity with
          | Raise _ => Return None
          | Return attrs =>
              if negb (tenant_aware entity) then Return None
              else if negb (str_in "tenant_id" attrs) then Return None
              else match filter_tenant query entity t with
                   | Raise e => Raise e
                   | Return query' => Return None
                   end
          end
      end
  end.

(** A listener of [before_compile]: this handler or another, and its [retval] flag. *)
Record Listener := mkListener {
  ln_tenant : bool;
  ln_call : option string → Query → outcome (option Query);
  ln_retval : bool;
}.

Definition tenant_listener : Listener := mkListener true before_compile_handler false.

(** The module's [_installed] and the listeners of [Query]. *)
Definition TenantFilter_install : PyM (bool * list Listener) unit := λ '(installed, ls),
  if installed then (Return tt, (installed, ls)) else (Return tt, (true, ls ++ [tenant_listener])).

Definition TenantFilter_uninstall : PyM (bool * list Listener) unit := λ '(installed, ls),
  if installed then (Return tt, (false, List.filter (λ l, negb (ln_tenant l)) ls)) else (Return tt, (installed, ls)).

Definition TenantFilter_is_installed : PyM (bool * list Listener) bool := reads fst.

End TenantFilter.
Arguments mkListener {Query} _ _ _.
Arguments ln_tenant {Query} _.
Arguments ln_call {Query} _ _ _.
Arguments ln_retval {Query} _.
Arguments Listener Query : clear implicits.

(** ** Soft deletion ([mixins.py]); the rest of the row is [A] *)

Record SoftDeleteMixin (A : Type) := mkSoft { deleted_at : option Z; soft_row : A }.
Arguments mkSoft {A} _ _.
Arguments deleted_at {A} _.
Arguments soft_row {A} _.

(** [deleted_at IS NULL] is never NULL itself. *)
Definition SoftDeleteMixin_not_deleted_filter {A} : ColumnElement (SoftDeleteMixin A) :=
  ELeaf (λ r, Some (match deleted_at r with None => true | Some _ => false end)).

Definition SoftDeleteMixin_soft_delete {A} (now : Z) : PyM (SoftDeleteMixin A) unit :=
  updates (λ r, mkSoft (Some now) (soft_row r)).

Definition SoftDeleteMixin_is_deleted {A} (r : SoftDeleteMixin A) : bool :=
  match deleted_at r with None => false | Some _ => true end.

(** ** Alembic files ([migrations.py]); the file system is a map from paths to contents *)

Section Alembic.
Context (ALEMBIC_INI_TEMPLATE ALEMBIC_ENV_TEMPLATE ALEMBIC_SCRIPT_MAKO : string).

Definition FileExistsError (path : string) : pyexn :=
  exn_of ["FileExistsError"; "OSError"] (path +:+ " already exists. Pass overwrite=True to replace it.").

Definition alembic_files (root : string) : list (string * string) :=
  [(root +:+ "/alembic.ini", ALEMBIC_INI_TEMPLATE);
   (root +:+ "/migrations/env.py", ALEMBIC_ENV_TEMPLATE);
   (root +:+ "/migrations/script.py.mako", ALEMBIC_SCRIPT_MAKO)].

Definition exists_file (path : string) (fs : gmap string string) : bool := bool_decide (is_Some (fs !! path)).

Fixpoint write_files (overwrite : bool) (files : list (string * string)) : PyM (gmap string string) (list string) :=
  match files with
  | [] => mret []
  | (path, content) :: files' =>
      taken ← reads (exists_file path);
      if taken && negb overwrite then raise (FileExistsError path)
      else
        updates (λ fs, <[path := content]> fs) ;;
        created ← write_files overwrite files';
        mret (path :: created)
  end.

(** [root] is the resolved destination. *)
Definition generate_alembic_files (root : string) (overwrite : bool) : PyM (gmap string string) (list string) :=
  let gitkeep := root +:+ "/migrations/versions/.gitkeep" in
  created ← write_files overwrite (alembic_files root);
  taken ← reads (exists_file gitkeep);
  if (taken : bool) then mret created
  else updates (λ fs, <[gitkeep := ""]> fs) ;; mret (created ++ [gitkeep]).

End Alembic.

(** ** Lemmas *)

Section SpecLemmas.
Context {T : Type}.
Implicit Types (s : sspec T) (row : T).

(** Specifications written with the operators. *)
Inductive operator_built : sspec T → Prop :=
| ob_leaf cls c f te : operator_built (Leaf cls c f te)
| ob_and s1 s2 : operator_built s1 → operator_built s2 → operator_built (spec_and s1 s2)
| ob_or s1 s2 : operator_built s1 → operator_built s2 → operator_built (spec_or s1 s2)
| ob_not s : operator_built s → operator_built (spec_invert s).

(** A property of all the leaves. *)
Fixpoint leaves (P : sspec T → Prop) s : Prop :=
  match s with
  | Leaf _ _ _ _ => P s
  | AndSpec _ l r | OrSpec _ l r => leaves P l ∧ leaves P r
  | NotSpec _ s => leaves P s
  end.

(** The two methods of a leaf agree: the row is accepted when the expression is true. *)
Definition agreeing s : Prop :=
  match s with Leaf _ _ f (Some (Return v)) => ∀ row, f row = Return (bool_decide (v row = Some true)) | _ => False end.
(** The expression is never NULL. *)
Definition two_valued s : Prop :=
  match s with Leaf _ _ _ (Some (Return v)) => ∀ row, is_Some (v row) | _ => False end.
(** The leaf's own [to_expression], if it has one, does not raise. *)
Definition no_raise s : Prop :=
  match s with Leaf _ _ _ (Some (Raise _)) => False | _ => True end.

Fixpoint negation_free s : bool :=
  match s with
  | Leaf _ _ _ _ => true
  | AndSpec _ l r | OrSpec _ l r => negation_free l && negation_free r
  | NotSpec _ _ => false
  end.

(** The leaf an expression in infix notation begins with is a subclass of [SQLAlchemySpecification]. *)
Fixpoint sql_first s : bool :=
  match s with
  | Leaf _ c _ _ => c
  | AndSpec _ l _ | OrSpec _ l _ => sql_first l
  | NotSpec _ s => sql_first s
  end.

(** Every leaf has an expression, and every operator begins with an [SQLAlchemySpecification]. *)
Fixpoint expressible s : bool :=
  match s with
  | Leaf _ _ _ (Some (Return _)) => true
  | Leaf _ _ _ _ => false
  | AndSpec _ l r | OrSpec _ l r => sql_first l && expressible l && expressible r
  | NotSpec _ s => sql_first s && expressible s
  end.

Lemma built_aware s : operator_built s → sql_aware s = sql_first s.
Proof. by induction 1. Qed.

Lemma built_expression s : operator_built s → expressible s = true → ∃ e, get_expression s = Return e.
Proof.
  induction 1 as [cls c f te|s1 s2 H1 IH1 H2 IH2|s1 s2 H1 IH1 H2 IH2|s H IH]; simpl; intros Hl.
  - destruct te as [[v|e]|]; by eauto.
  - apply andb_true_iff in Hl as [[Hf Hl1]%andb_true_iff Hl2]. rewrite built_aware, Hf by done.
    destruct (IH1 Hl1) as [e1 ->], (IH2 Hl2) as [e2 ->]. by eexists.
  - apply andb_true_iff in Hl as [[Hf Hl1]%andb_true_iff Hl2]. rewrite built_aware, Hf by done.
    destruct (IH1 Hl1) as [e1 ->], (IH2 Hl2) as [e2 ->]. by eexists.
  - apply andb_true_iff in Hl as [Hf Hl]. rewrite built_aware, Hf by done. destruct (IH Hl) as [e ->]. by eexists.
Qed.

(** Otherwise it raises: an error that names a class without [to_expression], or that of a leaf. *)
Lemma built_raises s : operator_built s → expressible s = false →
  ∃ e, get_expression s = Raise e ∧ (leaves no_raise s → ∃ cls, Raise e = unsupported (T := T) cls).
Proof.
  induction 1 as [cls c f te|s1 s2 H1 IH1 H2 IH2|s1 s2 H1 IH1 H2 IH2|s H IH]; simpl; intros Hl.
  - destruct te as [[v|e]|]; [done | eexists; split; [done|]; done | eexists; split; [done|]; by exists cls].
  - rewrite built_aware by done. destruct (sql_first s1); [|eexists; split; [done|]; intros _; by eexists]. simpl in *.
    destruct (expressible s1) eqn:E1.
    + destruct (built_expression s1 H1 E1) as [e1 ->], (IH2 Hl) as (e & -> & He). exists e. split; [done|]. intros [_ Hr]. auto.
    + destruct (IH1 eq_refl) as (e & -> & He). exists e. split; [done|]. intros [Hr _]. auto.
  - rewrite built_aware by done. destruct (sql_first s1); [|eexists; split; [done|]; intros _; by eexists]. simpl in *.
    destruct (expressible s1) eqn:E1.
    + destruct (built_expression s1 H1 E1) as [e1 ->], (IH2 Hl) as (e & -> & He). exists e. split; [done|]. intros [_ Hr]. auto.
    + destruct (IH1 eq_refl) as (e & -> & He). exists e. split; [done|]. intros [Hr _]. auto.
  - rewrite built_aware by done. destruct (sql_first s); [|eexists; split; [done|]; intros _; by eexists]. simpl in *.
    destruct (IH Hl) as (e & -> & He). by exists e.
Qed.

Lemma selected_and (e1 e2 : ColumnElement T) row : selected (EAnd e1 e2) row = selected e1 row && selected e2 row.
Proof. unfold selected. simpl. by destruct (sql_value e1 row) as [[]|], (sql_value e2 row) as [[]|]. Qed.
Lemma selected_or (e1 e2 : ColumnElement T) row : selected (EOr e1 e2) row = selected e1 row || selected e2 row.
Proof. unfold selected. simpl. by destruct (sql_value e1 row) as [[]|], (sql_value e2 row) as [[]|]. Qed.
Lemma selected_not (e : ColumnElement T) row :
  is_Some (sql_value e row) → selected (ENot e) row = negb (selected e row).
Proof. unfold selected. simpl. intros [[] ->]; done. Qed.

Lemma two_valued_expression s e row :
  leaves two_valued s → get_expression s = Return e → is_Some (sql_value e row).
Proof.
  revert e. induction s as [cls c f [[v|e0]|]|[] l IHl r IHr|[] l IHl r IHr|[] s IH]; simpl; intros e Hl He; try done.
  - injection He as <-. apply Hl.
  - destruct Hl as [Hl Hr], (get_expression l) as [el|], (get_expression r) as [er|]; try done. injection He as <-.
    simpl. destruct (IHl el Hl eq_refl) as [b1 ->], (IHr er Hr eq_refl) as [b2 ->]. destruct b1, b2; by eexists.
  - destruct Hl as [Hl Hr], (get_expression l) as [el|], (get_expression r) as [er|]; try done. injection He as <-.
    simpl. destruct (IHl el Hl eq_refl) as [b1 ->], (IHr er Hr eq_refl) as [b2 ->]. destruct b1, b2; by eexists.
  - destruct (get_expression s) as [e0|]; [|done]. injection He as <-. simpl.
    destruct (IH e0 Hl eq_refl) as [b ->]. by eexists.
Qed.

Lemma exact_operands (l r : sspec T) :
  (leaves two_valued l ∧ leaves two_valued r) ∨ negation_free l && negation_free r = true →
  (leaves two_valued l ∨ negation_free l = true) ∧ (leaves two_valued r ∨ negation_free r = true).
Proof. rewrite andb_true_iff. tauto. Qed.

Lemma satisfied_selected s e row :
  leaves agreeing s → leaves two_valued s ∨ negation_free s = true → get_expression s = Return e →
  satisfied s row = Return (selected e row).
Proof.
  revert e. induction s as [cls c f [[v|e0]|]|[] l IHl r IHr|[] l IHl r IHr|[] s IH]; simpl; intros e Ha Hn He; try done.
  - injection He as <-. apply Ha.
  - apply exact_operands in Hn as [Hnl Hnr]. destruct Ha as [Hal Har].
    destruct (get_expression l) as [el|], (get_expression r) as [er|]; try done. injection He as <-.
    unfold AndSpecification. rewrite (IHl el), (IHr er), selected_and by done. by destruct (selected el row).
  - apply exact_operands in Hn as [Hnl Hnr]. destruct Ha as [Hal Har].
    destruct (get_expression l) as [el|], (get_expression r) as [er|]; try done. injection He as <-.
    unfold OrSpecification. rewrite (IHl el), (IHr er), selected_or by done. by destruct (selected el row).
  - destruct Hn as [Hn|Hn]; [|done]. destruct (get_expression s) as [e0|] eqn:E0; [|done]. injection He as <-.
    unfold NotSpecification. rewrite (IH e0) by auto. by rewrite selected_not by by eapply two_valued_expression.
Qed.

End SpecLemmas.

(** ** Theorems *)

(** C28: a specification written with [&], [|] and [~] and translated to SQL selects the rows
    it accepts in memory.  The translation succeeds exactly when every leaf has a [to_expression] that returns an expression and
    every operator is applied to an operand that begins with an [SQLAlchemySpecification];
    otherwise it raises: a [TypeError] that names a class, unless a leaf's own method raised.
    When the two methods of each
    leaf agree - a row is accepted exactly when the leaf's expression is true on it - and no
    leaf's expression is NULL or the specification has no negation, the
    WHERE clause selects a row exactly when [is_satisfied_by] accepts it. *)
Theorem specification_expression {T} (s : sspec T) :
  operator_built s →
  (expressible s = false → ∃ e, get_expression s = Raise e ∧ (leaves no_raise s → ∃ cls, Raise e = unsupported (T := T) cls)) ∧
  (expressible s = true → ∃ e, get_expression s = Return e ∧
    (leaves agreeing s → leaves two_valued s ∨ negation_free s = true →
     ∀ row, satisfied s row = Return (selected e row))).
Proof.
  intros Hb. split; intros Hl; [by apply built_raises|].
  destruct (built_expression s Hb Hl) as [e He]. exists e. split; [done|]. intros Ha Hn row.
  by apply satisfied_selected.
Qed.

(** once installed, the tenant filter changes no query.  Its handler assigns the filtered
    query to a local variable, returns [None] and is registered with [retval=False]; so,
    with SQLAlchemy ignoring the result of such a listener, a query compiled under any
    tenant is the query that was written, for every entity, tenant-aware or not. *)
Theorem tenant_filter_inert {Query Entity} column_descriptions tenant_aware column_attrs
    (filter_tenant : Query → Entity → string → outcome Query)
    (compile : list (Listener Query) → option string → Query → outcome Query) tenant q :
  (∀ t q, compile [] t q = Return q) →
  (∀ l ls t q, compile (l :: ls) t q =
     match ln_call l t q with
     | Raise e => Raise e
     | Return r => compile ls t (if ln_retval l then default q r else q)
     end) →
  (∀ q e t, ∃ q', filter_tenant q e t = Return q') →
  let '(_, (_, listeners)) :=
    TenantFilter_install column_descriptions tenant_aware column_attrs filter_tenant (false, []) in
  compile listeners tenant q = Return q.
Proof.
  intros Hnil Hcons Hfilter. simpl. rewrite Hcons. simpl.
  assert (before_compile_handler column_descriptions tenant_aware column_attrs filter_tenant tenant q = Return None)
    as ->; [|by rewrite Hnil].
  unfold before_compile_handler. destruct tenant as [t|]; [|done].
  destruct (column_descriptions q) as [|[entity|] ?]; try done.
  destruct (column_attrs entity) as [attrs|]; [|done].
  destruct (negb (tenant_aware entity)), (negb (str_in "tenant_id" attrs)); try done.
  by destruct (Hfilter q entity t) as [q' ->].
Qed.

(** [install] and [uninstall] in any order keep the module's flag true to the listeners:
    the filter's handler is registered once when the flag is set and not at all otherwise,
    and the listeners of others stay. *)
Theorem tenant_filter_lifecycle {Query Entity} column_descriptions tenant_aware column_attrs
    (filter_tenant : Query → Entity → string → outcome Query) (calls : list bool) (others : list (Listener Query)) :
  Forall (λ l, ln_tenant l = false) others →
  let '(_, (installed, ls)) :=
    for_each calls (λ b : bool, if b then TenantFilter_install column_descriptions tenant_aware column_attrs filter_tenant
                                else TenantFilter_uninstall) (false, others) in
  installed = default false (last calls) ∧
  ls = others ++ (if installed then [tenant_listener column_descriptions tenant_aware column_attrs filter_tenant] else []).
Proof.
  intros Hothers. set (tl := tenant_listener _ _ _ _). set (step := λ b : bool, if b then _ else _).
  assert (∀ i : bool, ∃ i' : bool,
    for_each calls step (i, others ++ (if i then [tl] else [])) = (Return tt, (i', others ++ (if i' then [tl] else []))) ∧
    i' = default i (last calls)) as Hgen.
  2:{ destruct (Hgen false) as (i' & Hrun & Hi'). rewrite app_nil_r in Hrun. by rewrite Hrun. }
  assert (List.filter (λ l, negb (ln_tenant l)) others = others) as Hrest.
  { clear -Hothers. induction Hothers as [|l others Hl _ IH]; [done|]. simpl. by rewrite Hl, IH. }
  induction calls as [|b calls IH]; intros i; cbn [for_each]; [by exists i|]. unfold mbind, PyM_bind.
  assert (step b (i, others ++ (if i then [tl] else [])) = (Return tt, (b, others ++ (if b then [tl] else [])))) as ->.
  { destruct b, i; simpl; try done; [by rewrite app_nil_r|]. by rewrite List.filter_app, Hrest. }
  destruct (IH b) as (i' & Hrun & Hi'). exists i'. split; [exact Hrun|]. rewrite Hi'. by rewrite default_last_cons.
Qed.

(** the filter of soft-deleted rows selects the rows that are not deleted, and a row
    that has been soft-deleted is not selected, also inside a conjunction. *)
Theorem soft_delete_filtered {A} (r : SoftDeleteMixin A) now e :
  selected SoftDeleteMixin_not_deleted_filter r = negb (SoftDeleteMixin_is_deleted r) ∧
  let r' := snd (SoftDeleteMixin_soft_delete now r) in
  SoftDeleteMixin_is_deleted r' = true ∧ soft_row r' = soft_row r ∧
  selected (EAnd e SoftDeleteMixin_not_deleted_filter) r' = false.
Proof.
  split; [by destruct r as [[] a]|]. split; [done|]. split; [done|]. rewrite selected_and. simpl.
  by rewrite andb_false_r.
Qed.

Lemma write_files_keeps files fs p c :
  fs !! p = Some c → snd (write_files false files fs) !! p = Some c.
Proof.
  revert fs. induction files as [|[path content] files IH]; intros fs Hp; cbn [write_files]; [done|].
  unfold mbind, PyM_bind, reads, exists_file. destruct (fs !! path) as [c0|] eqn:E.
  - rewrite bool_decide_true by by eexists. done.
  - rewrite bool_decide_false by by intros []. simpl.
    specialize (IH (<[path := content]> fs)). destruct (write_files false files (<[path := content]> fs)) as [[] fs'];
      apply IH; rewrite lookup_insert_ne; congruence.
Qed.

(** the Alembic generator never replaces a file unless it is told to: without
    [overwrite], every file that was there is there with the same content, whether the call
    returns or raises. *)
Theorem alembic_no_clobber ini env mako root fs p c :
  fs !! p = Some c → snd (generate_alembic_files ini env mako root false fs) !! p = Some c.
Proof.
  intros Hp. unfold generate_alembic_files, mbind, PyM_bind.
  pose proof (write_files_keeps (alembic_files ini env mako root) fs p c Hp) as Hw.
  destruct (write_files _ _ fs) as [[created|e] fs']; [|done]. unfold reads, exists_file. simpl in *.
  destruct (fs' !! (root +:+ "/migrations/versions/.gitkeep")) as [c0|] eqn:E.
  - rewrite bool_decide_true by by eexists. done.
  - rewrite bool_decide_false by by intros []. simpl. rewrite lookup_insert_ne; congruence.
Qed.

(** ** Witnesses *)

Definition demo_leaf (n : Z) : sspec Z :=
  Leaf "MoreThan" true (λ row, Return (bool_decide (Some (n <? row)%Z = Some true))) (Some (Return (λ row, Some (n <? row)%Z))).

Lemma specification_expression_witness :
  ∃ e, get_expression (spec_and (demo_leaf 3) (spec_invert (demo_leaf 5))) = Return e ∧
    ∀ row, satisfied (spec_and (demo_leaf 3) (spec_invert (demo_leaf 5))) row = Return (selected e row).
Proof.
  destruct (specification_expression (spec_and (demo_leaf 3) (spec_invert (demo_leaf 5)))) as [_ H].
  - repeat constructor.
  - destruct (H eq_refl) as (e & He & Hrow). exists e. split; [exact He|]. apply Hrow; [done|].
    left. split; intros row; by eexists.
Defined.

(** A NULL under a negation: accepted in memory, not selected. *)
Example specification_null :
  let s := spec_invert (Leaf "Unknown" true (λ _ : unit, Return false) (Some (Return (λ _, None)))) in
  leaves agreeing s ∧ satisfied s tt = Return true ∧
  get_expression s = Return (ENot (ELeaf (λ _, None))) ∧ selected (ENot (ELeaf (λ _, None))) tt = false.
Proof. repeat split. Qed.

(** A class of its own with [to_expression] translates, but its operators do not. *)
Example duck_typed_leaf :
  let duck := Leaf "Duck" false (λ _ : Z, Return true) (Some (Return (λ _, Some true))) in
  get_expression (spec_and (demo_leaf 3) duck) = Return (EAnd (ELeaf (λ row, Some (3 <? row)%Z)) (ELeaf (λ _, Some true))) ∧
  get_expression (spec_and duck (demo_leaf 3)) = unsupported "AndSpecification".
Proof. split; reflexivity. Qed.

Fixpoint demo_compile (ls : list (Listener (list string))) (t : option string) (q : list string)
    : outcome (list string) :=
  match ls with
  | [] => Return q
  | l :: ls =>
      match ln_call l t q with
      | Raise e => Raise e
      | Return r => demo_compile ls t (if ln_retval l then default q r else q)
      end
  end.

Lemma tenant_filter_inert_witness :
  let '(_, (_, listeners)) :=
    TenantFilter_install (λ _, [Some "Order"]) (λ _, true) (λ _, Return ["id"; "tenant_id"])
      (λ q e t, Return (q ++ [e +:+ ".tenant_id = " +:+ t])) (false, []) in
  demo_compile listeners (Some "acme") ["SELECT orders"] = Return ["SELECT orders"].
Proof.
  apply (tenant_filter_inert (λ _, [Some "Order"]) (λ _, true) (λ _, Return ["id"; "tenant_id"])
    (λ q e t, Return (q ++ [e +:+ ".tenant_id = " +:+ t])) demo_compile).
  - reflexivity.
  - reflexivity.
  - intros q e t. by eexists.
Defined.

Lemma tenant_filter_lifecycle_witness :
  let tl := tenant_listener (λ _ : unit, [None : option unit]) (λ _, true) (λ _, Return []) (λ q _ _, Return q) in
  for_each [true; true; false; true]
    (λ b : bool, if b then TenantFilter_install (λ _ : unit, [None : option unit]) (λ _, true) (λ _, Return []) (λ q _ _, Return q)
                 else TenantFilter_uninstall) (false, []) = (Return tt, (true, [tl])).
Proof.
  pose proof (tenant_filter_lifecycle (λ _ : unit, [None : option unit]) (λ _, true) (λ _, Return []) (λ q _ _, Return q)
    [true; true; false; true] [] ltac:(constructor)) as H.
  simpl in *. done.
Defined.

Lemma alembic_no_clobber_witness :
  snd (generate_alembic_files "ini" "env" "mako" "/app" false {["/app/migrations/env.py" := "mine"]})
    !! "/app/migrations/env.py" = Some "mine".
Proof. apply alembic_no_clobber. reflexivity. Defined.
