(* ===== verification/Jwt.v ===== *)
(** * JSON web tokens ([security/jwt/decoder.py])

    The claims of a token, decoding with the errors of PyJWT turned into
    [JwtValidationError], and issuing.  PyJWT itself is a pair of parameters. *)
From S2P Require Import Prelude PyString OrderedDict ValueObjects.

(** The values of a payload; times are seconds. *)
Inductive jval :=
| JStr (s : string)
| JNum (n : Z)
| JList (l : list string)
| JTime (t : Z).

#[export] Instance jval_eq_dec : EqDecision jval.
Proof. solve_decision. Defined.

Definition payload : Type := list (string * jval).

Definition JwtValidationError (msg : string) : pyexn := exn_of ["JwtValidationError"] msg.

Record JwtClaims := mkClaims {
  jc_sub : jval;
  jc_iss : jval;
  jc_aud : jval;
  jc_exp : Z;
  jc_iat : Z;
  jc_jti : jval;
  jc_extra : payload;
}.

Definition JwtClaims_is_expired (now : Z) (c : JwtClaims) : bool := (jc_exp c <=? now)%Z.

(** [_dt]: a datetime, or anything [int] accepts. *)
Definition claim_time (v : jval) : outcome Z :=
  match v with
  | JTime t => Return t
  | JNum n => Return n
  | JStr s => py_int s
  | JList _ => Raise (TypeError "int() argument must be a string, a bytes-like object or a real number, not 'list'")
  end.

Definition known_claims : list string := ["sub"; "iss"; "aud"; "exp"; "iat"; "jti"].

Definition time_or_now (now : Z) (k : string) (p : payload) : outcome Z :=
  match od_get k p with Some v => claim_time v | None => Return now end.

Definition extra_claims (p : payload) : payload := List.filter (λ e, negb (str_in (fst e) known_claims)) p.

Definition JwtClaims_from_payload (now : Z) (p : payload) : outcome JwtClaims :=
  let extra := extra_claims p in
  let get k := default (JStr "") (od_get k p) in
  match time_or_now now "exp" p with
  | Raise e => Raise e
  | Return exp =>
      match time_or_now now "iat" p with
      | Raise e => Raise e
      | Return iat => Return (mkClaims (get "sub") (get "iss") (get "aud") exp iat (get "jti") extra)
      end
  end.

Section Jwt.
Context {K : Type}.
(** [jwt.decode(token, key, algorithms, audience, verify_aud)] and [jwt.encode]. *)
Context (pyjwt_decode : string → K → list string → option (list string) → bool → outcome payload).
Context (pyjwt_encode : payload → K → string → outcome string).

(** [algorithms or ["HS256"]]. *)
Definition algs_or_default (algorithms : list string) : list string :=
  match algorithms with [] => ["HS256"] | l => l end.

Definition JwtDecoder_decode (now : Z) (token : string) (key : K) (algorithms : list string)
    (audience : option (list string)) : outcome JwtClaims :=
  let verify_aud := match audience with None => false | Some _ => true end in
  match pyjwt_decode token key (algs_or_default algorithms) audience verify_aud with
  | Raise exc =>
      if isinstance exc "ExpiredSignatureError" then Raise (JwtValidationError "Token has expired")
      else if isinstance exc "InvalidAudienceError" then Raise (JwtValidationError "Invalid audience")
      else if isinstance exc "PyJWTError" then Raise (JwtValidationError (exn_msg exc))
      else Raise exc
  | Return p => JwtClaims_from_payload now p
  end.

(** [d.setdefault(k, v)]. *)
Definition set_default (k : string) (v : jval) (p : payload) : payload :=
  match od_get k p with Some _ => p | None => od_set k v p end.

Definition JwtIssuer_payload (issuer : string) (now : Z) (expires_in : option Z) (claims : payload) : payload :=
  let p := set_default "iat" (JTime now) claims in
  let p := if String.eqb issuer "" then p else set_default "iss" (JStr issuer) p in
  match expires_in with None => p | Some d => od_set "exp" (JTime (now + d)) p end.

Definition JwtIssuer_issue (issuer : string) (now : Z) (claims : payload) (key : K) (algorithm : string)
    (expires_in : option Z) : outcome string :=
  pyjwt_encode (JwtIssuer_payload issuer now expires_in claims) key algorithm.

End Jwt.

(** ** Lemmas *)

(** PyJWT writes the datetimes of [exp] and [iat] as numbers. *)
Definition numeric_time (v : jval) : jval := match v with JTime t => JNum t | v => v end.
Definition wire (p : payload) : payload := (λ e, (fst e, numeric_time (snd e))) <$> p.

Lemma wire_get k p : od_get k (wire p) = numeric_time <$> od_get k p.
Proof.
  induction p as [|[k' v] p IH]; [done|]. cbn. by case_decide.
Qed.

Lemma time_of_wire now k p : time_or_now now k (wire p) = time_or_now now k p.
Proof. unfold time_or_now. rewrite wire_get. by destruct (od_get k p) as [[]|]. Qed.

Lemma set_default_other k k' v p : k ≠ k' → od_get k' (set_default k v p) = od_get k' p.
Proof. intros Hne. unfold set_default. destruct (od_get k p); [done|]. by apply od_get_set_ne. Qed.

Lemma set_default_same k v p : od_get k (set_default k v p) = Some (default v (od_get k p)).
Proof. unfold set_default. destruct (od_get k p) eqn:E; [by rewrite E|]. by rewrite od_get_set_eq. Qed.

Lemma wire_extra p : extra_claims (wire p) = wire (extra_claims p).
Proof.
  induction p as [|[k v] p IH]; [done|]. unfold wire, extra_claims in *. rewrite fmap_cons. cbn [List.filter fst snd].
  destruct (negb (str_in k known_claims)); [by rewrite fmap_cons, IH | done].
Qed.

Lemma extra_set k v p : str_in k known_claims = true → extra_claims (od_set k v p) = extra_claims p.
Proof.
  intros Hk. unfold extra_claims. induction p as [|[k' v'] p IH]; cbn [od_set]; [cbn [List.filter fst]; by rewrite Hk|].
  case_decide as H; [subst k'; cbn [List.filter fst]; by rewrite Hk|]. cbn [List.filter fst].
  destruct (negb (str_in k' known_claims)); by rewrite IH.
Qed.

Lemma extra_default k v p : str_in k known_claims = true → extra_claims (set_default k v p) = extra_claims p.
Proof. intros Hk. unfold set_default. destruct (od_get k p); [done|]. by apply extra_set. Qed.

Lemma extra_issued issuer now d claims : extra_claims (JwtIssuer_payload issuer now d claims) = extra_claims claims.
Proof.
  unfold JwtIssuer_payload. destruct d; rewrite ?extra_set by done; destruct (String.eqb issuer "");
    by rewrite !extra_default by done.
Qed.

Lemma issued_get issuer now d claims k :
  k ≠ "iat" → k ≠ "iss" → k ≠ "exp" → od_get k (JwtIssuer_payload issuer now d claims) = od_get k claims.
Proof.
  intros H1 H2 H3. unfold JwtIssuer_payload. destruct d; rewrite ?od_get_set_ne by done;
    destruct (String.eqb issuer ""); by rewrite !set_default_other by done.
Qed.

Lemma issued_exp issuer now d claims :
  od_get "exp" (JwtIssuer_payload issuer now (Some d) claims) = Some (JTime (now + d)).
Proof. unfold JwtIssuer_payload. by rewrite od_get_set_eq. Qed.

Lemma issued_iat issuer now d claims :
  od_get "iat" (JwtIssuer_payload issuer now d claims) = Some (default (JTime now) (od_get "iat" claims)).
Proof.
  unfold JwtIssuer_payload. destruct d; rewrite ?od_get_set_ne by done;
    destruct (String.eqb issuer ""); rewrite ?set_default_other by done; apply set_default_same.
Qed.

Lemma issued_iss issuer now d claims :
  od_get "iss" (JwtIssuer_payload issuer now d claims) =
    if String.eqb issuer "" then od_get "iss" claims else Some (default (JStr issuer) (od_get "iss" claims)).
Proof.
  unfold JwtIssuer_payload. destruct d; rewrite ?od_get_set_ne by done; destruct (String.eqb issuer "");
    by rewrite ?set_default_same, set_default_other by done.
Qed.

(** ** Theorems *)

(** a token issued with a lifetime decodes to what was issued: the subject, the token id
    and the other claims as given, the issuer of the claims or else of the [JwtIssuer], the
    time of issue, and the expiry [expires_in] after it, so that it is expired exactly from
    then on.  PyJWT is only assumed to read back what it wrote, with times as numbers. *)
Theorem jwt_issue_decode {K} (dec : string → K → list string → option (list string) → bool → outcome payload)
    enc issuer now later claims key alg d token :
  (∀ p t, enc p key alg = Return t → dec t key [alg] None false = Return (wire p)) →
  od_get "iat" claims = None →
  JwtIssuer_issue enc issuer now claims key alg (Some d) = Return token →
  ∃ c, JwtDecoder_decode dec later token key [alg] None = Return c ∧
    jc_sub c = numeric_time (default (JStr "") (od_get "sub" claims)) ∧
    jc_jti c = numeric_time (default (JStr "") (od_get "jti" claims)) ∧
    jc_iss c = numeric_time (default (JStr issuer) (od_get "iss" claims)) ∧
    jc_iat c = now ∧ jc_exp c = (now + d)%Z ∧ jc_extra c = wire (extra_claims claims) ∧
    ∀ t, JwtClaims_is_expired t c = true ↔ (now + d <= t)%Z.
Proof.
  intros Hrt Hiat Hissue. unfold JwtDecoder_decode. cbn [algs_or_default]. rewrite (Hrt _ _ Hissue).
  set (p := JwtIssuer_payload issuer now (Some d) claims).
  assert (time_or_now later "exp" (wire p) = Return (now + d)%Z) as Hexp
    by (rewrite time_of_wire; unfold time_or_now, p; by rewrite issued_exp).
  assert (time_or_now later "iat" (wire p) = Return now) as Hi
    by (rewrite time_of_wire; unfold time_or_now, p; by rewrite issued_iat, Hiat).
  unfold JwtClaims_from_payload. rewrite Hexp, Hi. eexists. split; [done|].
  cbn [jc_sub jc_iss jc_iat jc_exp jc_jti jc_extra].
  rewrite !wire_get, wire_extra. subst p. rewrite !issued_get, issued_iss, extra_issued by done.
  split_and!; try done; [by destruct (od_get "sub" claims)|by destruct (od_get "jti" claims)| |].
  - destruct (String.eqb_spec issuer "") as [->|]; by destruct (od_get "iss" claims).
  - intros t. apply Z.leb_le.
Qed.

(** decoding reports every failure of PyJWT as [JwtValidationError]; a payload whose
    [exp] and [iat] are times, or absent, becomes claims, and one whose [exp] or [iat] is
    something else raises the error of the conversion. *)
Theorem jwt_decode_errors {K} (dec : string → K → list string → option (list string) → bool → outcome payload)
    now token key algs aud :
  match dec token key (algs_or_default algs) aud (match aud with None => false | Some _ => true end) with
  | Raise e =>
      if isinstance e "ExpiredSignatureError" || isinstance e "InvalidAudienceError" || isinstance e "PyJWTError"
      then ∃ msg, JwtDecoder_decode dec now token key algs aud = Raise (JwtValidationError msg)
      else JwtDecoder_decode dec now token key algs aud = Raise e
  | Return p =>
      match time_or_now now "exp" p, time_or_now now "iat" p with
      | Return exp, Return iat =>
          ∃ c, JwtDecoder_decode dec now token key algs aud = Return c ∧ jc_exp c = exp ∧ jc_iat c = iat
      | Raise e, _ | Return _, Raise e => JwtDecoder_decode dec now token key algs aud = Raise e
      end
  end.
Proof.
  unfold JwtDecoder_decode. destruct (dec _ _ _ _ _) as [p|e].
  - unfold JwtClaims_from_payload. destruct (time_or_now now "exp" p), (time_or_now now "iat" p); by eauto.
  - destruct (isinstance e "ExpiredSignatureError"), (isinstance e "InvalidAudienceError"), (isinstance e "PyJWTError");
      simpl; by eauto.
Qed.

(** ** Witnesses *)

Definition demo_payload : payload :=
  [("sub", JStr "ann"); ("role", JStr "admin"); ("iat", JTime 100); ("iss", JStr "me"); ("exp", JTime 160)].
(** A codec that knows one payload. *)
Definition demo_encode (p : payload) (key alg : string) : outcome string :=
  if decide (p = demo_payload) then Return "header.payload.signature" else Raise (TypeError "payload").
Definition demo_decode (token key : string) (algs : list string) (aud : option (list string)) (verify : bool)
    : outcome payload :=
  if String.eqb token "header.payload.signature" then Return (wire demo_payload)
  else Raise (exn_of ["PyJWTError"] "Not enough segments").

Lemma jwt_issue_decode_witness :
  ∃ c, JwtDecoder_decode demo_decode 120 "header.payload.signature" "k" ["HS256"] None = Return c ∧
    jc_exp c = 160%Z ∧ jc_extra c = [("role", JStr "admin")].
Proof.
  destruct (jwt_issue_decode demo_decode demo_encode "me" 100 120 [("sub", JStr "ann"); ("role", JStr "admin")] "k"
    "HS256" 60 "header.payload.signature") as (c & Hdec & _ & _ & _ & _ & Hexp & Hextra & _).
  - intros p t. unfold demo_encode. case_decide as Hp; [|discriminate]. rewrite Hp. intros [= <-]. reflexivity.
  - reflexivity.
  - reflexivity.
  - exists c. split; [exact Hdec|]. split; [exact Hexp | exact Hextra].
Defined.
