(* ===== verification/Grpc.v ===== *)
(** * The gRPC adapter ([adapters/grpc/server.py], [channel.py])

    Server interceptors as wrappers of a method handler, client interceptors, the channel
    factory and the health check.  A handler's unary methods return a response; its
    streaming methods are generators, written as functions of what consumes their items,
    so that a consumer that stops early raises in the generator. *)
From S2P Require Import Prelude PyString OrderedDict Observability Retry Jwt.

(** ** Metadata *)

Inductive mvalue := MText (s : string) | MBytes (b : list Z).
Definition Metadata : Type := list (string * mvalue).

(** [decode] is [bytes.decode("utf-8", errors="replace")]. *)
Definition metadata_value (decode : list Z → string) (metadata : option Metadata) (key : string) : option string :=
  match metadata with
  | None => None
  | Some m =>
      match List.find (λ e, String.eqb (lower (fst e)) (lower key)) m with
      | None => None
      | Some (_, MText s) => Some s
      | Some (_, MBytes b) => Some (decode b)
      end
  end.

(** ** Servers *)

(** What a handler sees of the call, and what it sets on it. *)
Record ServicerContext := mkServicer {
  invocation_metadata : option Metadata;
  sc_code : option string;
  sc_details : option string;
}.

Section Server.
(** [U]: the rest of the world. *)
Context {U : Type} (decode : list Z → string) (uuid4 : PyM U string).

(** The call's context, the ambient request context, and the rest. *)
Definition World : Type := ServicerContext * (option RequestContext * U).

Definition Unary (Req Res : Type) : Type := Req → PyM World Res.
Definition Streaming (Req Item : Type) : Type := Req → (Item → PyM World unit) → PyM World unit.

(** An RPC method handler; a response may be [None]. *)
Record RpcHandler (Req Res Item : Type) := mkHandler {
  unary_unary : Unary Req (option Res);
  unary_stream : Streaming Req Item;
  stream_unary : Unary (list Req) (option Res);
  stream_stream : Streaming (list Req) Item;
}.
Arguments mkHandler {Req Res Item} _ _ _ _.
Arguments unary_unary {Req Res Item} _ _.
Arguments unary_stream {Req Res Item} _ _ _.
Arguments stream_unary {Req Res Item} _ _.
Arguments stream_stream {Req Res Item} _ _ _.

Section Wrappers.
Context {Req Res Item : Type}.
Implicit Types (h : RpcHandler Req Res Item).

(** *** Correlation *)

Definition CorrelationIdWrapper_inject : PyM World unit :=
  metadata ← on_fst (reads invocation_metadata);
  correlation_id ←
    match metadata_value decode metadata "x-correlation-id" with
    | None | Some "" => on_snd (on_snd uuid4)
    | Some i => mret i
    end;
  on_snd (CorrelationContext_set (mkReqCtx correlation_id None None None None)).

Definition CorrelationIdWrapper_unary_unary h : Unary Req (option Res) := λ request,
  CorrelationIdWrapper_inject ;; unary_unary h request.
Definition CorrelationIdWrapper_unary_stream h : Streaming Req Item := λ request yield,
  CorrelationIdWrapper_inject ;; unary_stream h request yield.
Definition CorrelationIdWrapper_stream_unary h : Unary (list Req) (option Res) := λ requests,
  CorrelationIdWrapper_inject ;; stream_unary h requests.
Definition CorrelationIdWrapper_stream_stream h : Streaming (list Req) Item := λ requests yield,
  CorrelationIdWrapper_inject ;; stream_stream h requests yield.

Definition CorrelationIdWrapper h : RpcHandler Req Res Item :=
  mkHandler (CorrelationIdWrapper_unary_unary h) (CorrelationIdWrapper_unary_stream h)
    (CorrelationIdWrapper_stream_unary h) (CorrelationIdWrapper_stream_stream h).

(** [intercept_service]; the method's name is [handler_call_details.method]. *)
Definition CorrelationIdServerInterceptor_intercept_service (continuation : string → PyM World (RpcHandler Req Res Item))
    (method : string) : PyM World (RpcHandler Req Res Item) :=
  h ← continuation method;
  mret (CorrelationIdWrapper h).

(** *** Authentication *)

Section Auth.
(** [decoder.decode(token, secret_or_key, algorithms=..., audience=...)]. *)
Context {K : Type} (decoder : string → K → list string → option (list string) → outcome JwtClaims) (secret_or_key : K).

Record AuthServerInterceptor := mkAuth {
  ai_algorithms : list string;
  ai_audience : option (list string);
  ai_public_methods : gset string;
}.

Definition AuthServerInterceptor_init (algorithms : option (list string)) (audience : option (list string))
    (public_methods : option (gset string)) : AuthServerInterceptor :=
  mkAuth (algs_or_default (default [] algorithms)) audience (default ∅ public_methods).

Definition set_rpc_status (code details : string) : PyM World unit :=
  on_fst (updates (λ c, mkServicer (invocation_metadata c) (Some code) (Some details))).

Definition bearer (header : option string) : option string :=
  match header with
  | None | Some "" => None
  | Some h => if startswith "bearer " (lower h)
              then Some (strip (String.substring 7 (String.length h - 7) h)) else None
  end.

Definition AuthWrapper_validate (self : AuthServerInterceptor) : PyM World bool :=
  metadata ← on_fst (reads invocation_metadata);
  match bearer (metadata_value decode metadata "authorization") with
  | None => set_rpc_status "UNAUTHENTICATED" "Missing or malformed authorization header" ;; mret false
  | Some token =>
      match decoder token secret_or_key (ai_algorithms self) (ai_audience self) with
      | Return _ => mret true
      | Raise exc =>
          if isinstance exc "JwtValidationError"
          then set_rpc_status "UNAUTHENTICATED" (exn_msg exc) ;; mret false
          else raise exc
      end
  end.

Definition AuthWrapper_unary_unary (self : AuthServerInterceptor) h : Unary Req (option Res) := λ request,
  ok ← AuthWrapper_validate self;
  if negb ok then mret None else unary_unary h request.
Definition AuthWrapper_unary_stream (self : AuthServerInterceptor) h : Streaming Req Item := λ request yield,
  ok ← AuthWrapper_validate self;
  if negb ok then mret tt else unary_stream h request yield.
Definition AuthWrapper_stream_unary (self : AuthServerInterceptor) h : Unary (list Req) (option Res) := λ requests,
  ok ← AuthWrapper_validate self;
  if negb ok then mret None else stream_unary h requests.
Definition AuthWrapper_stream_stream (self : AuthServerInterceptor) h : Streaming (list Req) Item := λ requests yield,
  ok ← AuthWrapper_validate self;
  if negb ok then mret tt else stream_stream h requests yield.

Definition AuthWrapper (self : AuthServerInterceptor) h : RpcHandler Req Res Item :=
  mkHandler (AuthWrapper_unary_unary self h) (AuthWrapper_unary_stream self h)
    (AuthWrapper_stream_unary self h) (AuthWrapper_stream_stream self h).

Definition AuthServerInterceptor_intercept_service (self : AuthServerInterceptor)
    (continuation : string → PyM World (RpcHandler Req Res Item)) (method : string) : PyM World (RpcHandler Req Res Item) :=
  h ← continuation method;
  mret (if decide (method ∈ ai_public_methods self) then h else AuthWrapper self h).

End Auth.

(** *** Metrics *)

(** The registry's two methods and the clock. *)
Context (increment : string → list (string * string) → PyM U unit)
        (histogram : string → Q → list (string * string) → PyM U unit) (monotonic : PyM U Q).

Definition MetricsWrapper_record (method status : string) (elapsed : Q) : PyM World unit :=
  let labels := [("method", method); ("status", status)] in
  try_except
    (on_snd (on_snd (increment "grpc_server_requests_total" labels ;;
                     histogram "grpc_server_request_duration_seconds" elapsed labels)))
    (λ _, mret tt).

(** [status], "ERROR" after an [Exception]. *)
Definition rpc_status {A} (o : outcome A) : string :=
  match o with Raise e => if is_Exception e then "ERROR" else "OK" | Return _ => "OK" end.

(** [try: ... except Exception: status = "ERROR"; raise finally: self._record(...)]. *)
Definition measured_from {A} (method : string) (start : Q) (m : PyM World A) : PyM World A := λ w,
  let '(o, w1) := m w in
  (stop ← on_snd (on_snd monotonic);
   MetricsWrapper_record method (rpc_status o) (stop - start) ;;
   from_outcome o) w1.

Definition measured {A} (method : string) (m : PyM World A) : PyM World A :=
  start ← on_snd (on_snd monotonic);
  measured_from method start m.

Definition MetricsWrapper_unary_unary (method : string) h : Unary Req (option Res) := λ request,
  measured method (unary_unary h request).
Definition MetricsWrapper_unary_stream (method : string) h : Streaming Req Item := λ request yield,
  measured method (unary_stream h request yield).
Definition MetricsWrapper_stream_unary (method : string) h : Unary (list Req) (option Res) := λ requests,
  measured method (stream_unary h requests).
Definition MetricsWrapper_stream_stream (method : string) h : Streaming (list Req) Item := λ requests yield,
  measured method (stream_stream h requests yield).

Definition MetricsWrapper (method : string) h : RpcHandler Req Res Item :=
  mkHandler (MetricsWrapper_unary_unary method h) (MetricsWrapper_unary_stream method h)
    (MetricsWrapper_stream_unary method h) (MetricsWrapper_stream_stream method h).

Definition MetricsServerInterceptor_intercept_service (continuation : string → PyM World (RpcHandler Req Res Item))
    (method : string) : PyM World (RpcHandler Req Res Item) :=
  h ← continuation method;
  mret (MetricsWrapper method h).

End Wrappers.
End Server.
Arguments World : clear implicits.
Arguments RpcHandler : clear implicits.
Arguments mkHandler {U Req Res Item} _ _ _ _.
Arguments unary_unary {U Req Res Item} _ _.
Arguments unary_stream {U Req Res Item} _ _ _.
Arguments stream_unary {U Req Res Item} _ _.
Arguments stream_stream {U Req Res Item} _ _ _.

(** ** Clients *)

Section Client.
Context {U : Type}.

(** [_get_correlation_id]; reading a context variable does not fail. *)
Definition CorrelationIdClientInterceptor_get_correlation_id : PyM (option RequestContext * U) (option string) :=
  ctx ← CorrelationContext_get;
  mret (rc_correlation_id <$> ctx).

(** [_inject]: the metadata of a copy of the call details; [None] is missing metadata. *)
Definition CorrelationIdClientInterceptor_inject (metadata : option Metadata)
    : PyM (option RequestContext * U) (option Metadata) :=
  correlation_id ← CorrelationIdClientInterceptor_get_correlation_id;
  match correlation_id with
  | None | Some "" => mret metadata
  | Some i => mret (Some (default [] metadata ++ [("x-correlation-id", MText i)]))
  end.

Definition CorrelationIdClientInterceptor_intercept {Req Call : Type}
    (continuation : option Metadata → Req → PyM (option RequestContext * U) Call) (metadata : option Metadata)
    (request : Req) : PyM (option RequestContext * U) Call :=
  m ← CorrelationIdClientInterceptor_inject metadata;
  continuation m request.

(** [RetryClientInterceptor.intercept_unary_unary]: [_call] returns what [continuation]
    returns. *)
Definition RetryClientInterceptor_intercept_unary_unary `{RetryEnv U} {Req Call : Type} (policy : RetryPolicy U)
    (continuation : option Metadata → Req → PyM U Call) (metadata : option Metadata) (request : Req) : PyM U Call :=
  let call := response ← continuation metadata request; mret response in
  RetryPolicy_execute_async policy call.

(** *** The health check *)

Inductive GrpcHealthStatus := SERVING | NOT_SERVING | UNKNOWN | SERVICE_UNKNOWN.

(** The protocol's enumeration. *)
Inductive ServingStatus := HC_UNKNOWN | HC_SERVING | HC_NOT_SERVING | HC_SERVICE_UNKNOWN.

Definition GrpcHealthChecker_check (check : string → PyM U ServingStatus) (service : string)
    : PyM U GrpcHealthStatus := λ u,
  match check service u with
  | (Return s, u') =>
      (Return (match s with
               | HC_SERVING => SERVING
               | HC_NOT_SERVING => NOT_SERVING
               | HC_SERVICE_UNKNOWN => SERVICE_UNKNOWN
               | HC_UNKNOWN => UNKNOWN
               end), u')
  | (Raise e, u') => if isinstance e "RpcError" then (Return UNKNOWN, u') else (Raise e, u')
  end.

(** *** Channels *)

(** How [create] opens a channel: with given credentials, with default ones, or without. *)
Inductive ChannelCall (Creds : Type) :=
| SecureChannel (target : string) (credentials : Creds) (options : list (string * string))
| InsecureChannel (target : string) (options : list (string * string)).
Arguments SecureChannel {Creds} _ _ _.
Arguments InsecureChannel {Creds} _ _.

Definition GrpcChannelFactory_create {Creds} (ssl_channel_credentials : Creds) (target : string) (tls : bool)
    (credentials : option Creds) (options : option (list (string * string))) : ChannelCall Creds :=
  let opts := default [] options in
  match credentials with
  | Some c => SecureChannel target c opts
  | None => if tls then SecureChannel target ssl_channel_credentials opts else InsecureChannel target opts
  end.

End Client.

(** ** Lemmas *)

Section ServerLemmas.
Context {U Req Res Item K : Type} (decode : list Z → string) (uuid4 : PyM U string).
Context (decoder : string → K → list string → option (list string) → outcome JwtClaims) (key : K).
Implicit Types (w : World U) (c : ServicerContext) (self : AuthServerInterceptor).

(** What [_validate] decides of a call. *)
Inductive verdict := Accept | Reject (details : string) | Fail (e : pyexn).

Definition judge self c : verdict :=
  match bearer (metadata_value decode (invocation_metadata c) "authorization") with
  | None => Reject "Missing or malformed authorization header"
  | Some token =>
      match decoder token key (ai_algorithms self) (ai_audience self) with
      | Return _ => Accept
      | Raise e => if isinstance e "JwtValidationError" then Reject (exn_msg e) else Fail e
      end
  end.

Definition rejected (details : string) c : ServicerContext :=
  mkServicer (invocation_metadata c) (Some "UNAUTHENTICATED") (Some details).

Lemma validate_judge self c (x : option RequestContext * U) :
  AuthWrapper_validate decode decoder key self (c, x) =
    match judge self c with
    | Accept => (Return true, (c, x))
    | Reject d => (Return false, (rejected d c, x))
    | Fail e => (Raise e, (c, x))
    end.
Proof.
  unfold AuthWrapper_validate, judge, mbind, PyM_bind. simpl.
  destruct (bearer _) as [token|]; [|done].
  destruct (decoder _ _ _ _) as [cl|e]; [done|]. by destruct (isinstance e "JwtValidationError").
Qed.

(** A rejected call, per kind of method: no response, or no items. *)
Definition gated {A} (none : A) self (m : PyM (World U) A) : PyM (World U) A := λ '(c, x),
  match judge self c with
  | Accept => m (c, x)
  | Reject d => (Return none, (rejected d c, x))
  | Fail e => (Raise e, (c, x))
  end.

Lemma auth_gated {A} (none : A) self (m : PyM (World U) A) w :
  (ok ← AuthWrapper_validate decode decoder key self; if negb ok then mret none else m) w = gated none self m w.
Proof.
  destruct w as [c x]. unfold mbind, PyM_bind. rewrite validate_judge. unfold gated.
  by destruct (judge self c).
Qed.

(** The id a call brings, or a fresh one. *)
Definition call_id c (u : U) : outcome string * U :=
  match metadata_value decode (invocation_metadata c) "x-correlation-id" with
  | None | Some "" => uuid4 u
  | Some i => (Return i, u)
  end.

Lemma inject_call_id c r u :
  CorrelationIdWrapper_inject decode uuid4 (c, (r, u)) =
    match call_id c u with
    | (Return i, u') => (Return tt, (c, (Some (mkReqCtx i None None None None), u')))
    | (Raise e, u') => (Raise e, (c, (r, u')))
    end.
Proof.
  unfold CorrelationIdWrapper_inject, call_id, mbind, PyM_bind. simpl.
  destruct (metadata_value _ _ _) as [[|ch i]|]; simpl; [| done |]; unfold on_snd; simpl;
    by destruct (uuid4 u) as [[] u'].
Qed.

Context (increment : string → list (string * string) → PyM U unit)
        (histogram : string → Q → list (string * string) → PyM U unit) (monotonic : PyM U Q).

Definition rpc_metrics (method status : string) (elapsed : Q) : PyM U unit :=
  let labels := [("method", method); ("status", status)] in
  increment "grpc_server_requests_total" labels ;;
  histogram "grpc_server_request_duration_seconds" elapsed labels.

Lemma record_swallows method status elapsed c r u :
  (∀ e, fst (rpc_metrics method status elapsed u) = Raise e → is_Exception e = true) →
  MetricsWrapper_record increment histogram method status elapsed (c, (r, u)) =
    (Return tt, (c, (r, snd (rpc_metrics method status elapsed u)))).
Proof.
  intros He. unfold MetricsWrapper_record, try_except, try_base, on_snd. cbv zeta. cbn [fst snd].
  fold (rpc_metrics method status elapsed). destruct (rpc_metrics method status elapsed u) as [[[]|e] u']; [done|].
  simpl in *. by rewrite (He e).
Qed.

Lemma measured_spec {A} method (m : PyM (World U) A) c r u0 t0 u1 o c' r' u2 t1 u3 :
  monotonic u0 = (Return t0, u1) → m (c, (r, u1)) = (o, (c', (r', u2))) → monotonic u2 = (Return t1, u3) →
  (∀ e, fst (rpc_metrics method (rpc_status o) (t1 - t0) u3) = Raise e → is_Exception e = true) →
  measured increment histogram monotonic method m (c, (r, u0)) =
    (o, (c', (r', snd (rpc_metrics method (rpc_status o) (t1 - t0) u3)))).
Proof.
  intros H0 Hm H1 He. unfold measured, measured_from, mbind, PyM_bind, on_snd. cbn [fst snd]. rewrite H0.
  cbn [fst snd]. rewrite Hm. cbn [fst snd]. rewrite H1. cbn [fst snd]. by rewrite record_swallows.
Qed.

End ServerLemmas.

(** ** Theorems *)

(** an RPC of a method that is not public reaches its handler exactly when its metadata
    has a bearer token the decoder accepts.  Otherwise, when the token is missing, malformed
    or refused, the call ends with code UNAUTHENTICATED, without a response and without
    items, and the handler has not run; an error of the decoder that is not about the token
    propagates.  Public methods are served as they are. *)
Theorem grpc_auth_gate {U Req Res Item K} decode
    (decoder : string → K → list string → option (list string) → outcome JwtClaims) key self
    (h : RpcHandler U Req Res Item) method :
  let serve := AuthServerInterceptor_intercept_service decode decoder key self (λ _, mret h) method in
  ∀ w, ∃ h', serve w = (Return h', w) ∧
    if decide (method ∈ ai_public_methods self) then h' = h
    else ∀ w' r rs yield,
      unary_unary h' r w' = gated decode decoder key None self (unary_unary h r) w' ∧
      unary_stream h' r yield w' = gated decode decoder key tt self (unary_stream h r yield) w' ∧
      stream_unary h' rs w' = gated decode decoder key None self (stream_unary h rs) w' ∧
      stream_stream h' rs yield w' = gated decode decoder key tt self (stream_stream h rs yield) w'.
Proof.
  intros serve w. eexists. split; [done|]. case_decide; [done|]. intros w' r rs yield.
  split_and!; apply auth_gated.
Qed.

(** with the interceptors [metrics, correlation, auth] around a unary method, an accepted
    call runs the handler under the caller's correlation id (a fresh one if it sent none),
    and one observation is recorded, "ERROR" if the handler raised.  A rejected call does
    not run the handler and still counts as "OK".  Failures of the registry change nothing
    for the caller. *)
Theorem grpc_server_chain {U Req Res Item K} decode uuid4
    (decoder : string → K → list string → option (list string) → outcome JwtClaims) key self
    increment histogram monotonic (h : RpcHandler U Req Res Item) method request c r u0 i u2 :
  (∀ u, ∃ t, monotonic u = (Return t, u)) →
  (∀ m s t u e, fst (rpc_metrics increment histogram m s t u) = Raise e → is_Exception e = true) →
  call_id decode uuid4 c u0 = (Return i, u2) →
  let ctx := Some (mkReqCtx i None None None None) in
  let wrapped := MetricsWrapper increment histogram monotonic method
    (CorrelationIdWrapper decode uuid4 (AuthWrapper decode decoder key self h)) in
  let metrics status w := ∃ elapsed u', unary_unary wrapped request (c, (r, u0)) =
    (fst w, (fst (snd w), (fst (snd (snd w)),
       snd (rpc_metrics increment histogram method status elapsed u')))) ∧ u' = snd (snd (snd w)) in
  match judge decode decoder key self c with
  | Accept => let w := unary_unary h request (c, (ctx, u2)) in metrics (rpc_status (fst w)) w
  | Reject d => metrics "OK" (Return None, (rejected d c, (ctx, u2)))
  | Fail e => metrics (rpc_status (Raise (A := option Res) e)) (Raise e, (c, (ctx, u2)))
  end.
Proof.
  intros Hclock Hreg Hid ctx wrapped metrics. destruct (Hclock u0) as [t0 H0].
  assert (unary_unary (CorrelationIdWrapper decode uuid4 (AuthWrapper decode decoder key self h)) request (c, (r, u0)) =
    gated decode decoder key None self (unary_unary h request) (c, (ctx, u2))) as Hin.
  { simpl. unfold CorrelationIdWrapper_unary_unary, mbind, PyM_bind. rewrite inject_call_id, Hid.
    exact (auth_gated decode decoder key None self (unary_unary h request) (c, (ctx, u2))). }
  assert (∀ w : outcome (option Res) * World U,
    unary_unary (CorrelationIdWrapper decode uuid4 (AuthWrapper decode decoder key self h)) request (c, (r, u0)) = w →
    metrics (rpc_status (fst w)) w) as Hmet.
  { intros [o [c' [r' u3]]] Hw. destruct (Hclock u3) as [t1 H1]. exists (t1 - t0)%Q, u3. split; [|done].
    unfold wrapped. simpl. unfold MetricsWrapper_unary_unary. eapply measured_spec; [exact H0 | exact Hw | exact H1 | intros e; apply Hreg]. }
  unfold gated in Hin. destruct (judge decode decoder key self c) as [|d|e]; by apply (Hmet _ Hin).
Qed.

(** a correlation id crosses the wire: a client with an ambient request context adds its
    id to the call's metadata, and the server's interceptor makes it the ambient id of the
    handler; unless the caller had put its own id in the metadata, which comes first. *)
Theorem grpc_correlation_propagates {U V} decode (uuid4 : PyM V string) ctx (u : U) metadata code details r v :
  rc_correlation_id ctx ≠ "" →
  ∃ sent, CorrelationIdClientInterceptor_inject metadata (Some ctx, u) = (Return sent, (Some ctx, u)) ∧
    let own := metadata_value decode metadata "x-correlation-id" in
    own ≠ Some "" →
    CorrelationIdWrapper_inject decode uuid4 (mkServicer sent code details, (r, v)) =
      (Return tt, (mkServicer sent code details,
         (Some (mkReqCtx (default (rc_correlation_id ctx) own) None None None None), v))).
Proof.
  intros Hne. unfold CorrelationIdClientInterceptor_inject, CorrelationIdClientInterceptor_get_correlation_id,
    mbind, PyM_bind. simpl. destruct (rc_correlation_id ctx) as [|ch i] eqn:Ei; [done|].
  eexists. split; [done|]. simpl. intros Hown. rewrite inject_call_id. unfold call_id. simpl.
  assert (∀ m : Metadata, List.find (λ e, String.eqb (lower e.1) (lower "x-correlation-id"))
      (m ++ [("x-correlation-id", MText (String ch i))]) =
    match List.find (λ e, String.eqb (lower e.1) (lower "x-correlation-id")) m with
    | Some e => Some e | None => Some ("x-correlation-id", MText (String ch i)) end) as Hfind.
  { intros m. induction m as [|[k x] m IH]; [done|]. cbn [app List.find fst].
    destruct (String.eqb (lower k) _); [done | exact IH]. }
  unfold metadata_value in *. rewrite Hfind. destruct metadata as [m|]; [|done]. simpl in *.
  destruct (List.find _ m) as [[k [s|b]]|]; simpl in *; [| |done].
  - by destruct s.
  - by destruct (decode b).
Qed.

(** the retry interceptor does not see the status of a call.  When [continuation] hands
    back a call object, as it does in grpc.aio whatever the RPC's fate, the policy makes one
    attempt and returns that object. *)
Theorem grpc_retry_single {U Req Call} `{RetryEnv U} (policy : RetryPolicy U) continuation metadata (request : Req) u
    (call : Call) u' :
  (1 <= max_attempts policy)%Z → continuation metadata request u = (Return call, u') →
  RetryClientInterceptor_intercept_unary_unary policy continuation metadata request u = (Return call, u').
Proof.
  intros Hn Hc. unfold RetryClientInterceptor_intercept_unary_unary, RetryPolicy_execute_async.
  destruct (Z.to_nat (max_attempts policy)) as [|n] eqn:E; [lia|]. cbn [retry_loop].
  unfold try_except, try_base, mbind, PyM_bind. by rewrite Hc.
Qed.

(** ** Witnesses *)

Definition demo_jwt (token : string) (key : string) (algs : list string) (aud : option (list string)) : outcome JwtClaims :=
  if String.eqb token "good" then Return (mkClaims (JStr "ann") (JStr "") (JStr "") 0 0 (JStr "") [])
  else Raise (JwtValidationError "Signature verification failed").
Definition demo_rpc : RpcHandler (list (list (string * string))) string string string :=
  mkHandler (λ r, mret (Some r)) (λ r yield, yield r) (λ rs, mret (head rs)) (λ rs yield, for_each rs yield).
Definition demo_call (token : string) : ServicerContext :=
  mkServicer (Some [("Authorization", MText ("Bearer " +:+ token)); ("x-correlation-id", MText "c-1")]) None None.

#[local] Abbreviation demo_log := (list (list (string * string))).
Definition demo_increment (name : string) (labels : list (string * string)) : PyM demo_log unit :=
  updates (λ log, log ++ [labels]).
Definition demo_histogram (name : string) (elapsed : Q) (labels : list (string * string)) : PyM demo_log unit := mret tt.
Definition demo_clock : PyM demo_log Q := mret (5 # 2)%Q.
Definition demo_uuid : PyM demo_log string := mret "fresh".

Lemma grpc_server_chain_witness :
  ∃ elapsed, unary_unary (MetricsWrapper demo_increment demo_histogram demo_clock "/pkg/Get"
      (CorrelationIdWrapper (λ _, "") demo_uuid
        (AuthWrapper (λ _, "") demo_jwt "k" (AuthServerInterceptor_init None None None) demo_rpc)))
      "ping" (demo_call "stale", (None, [])) =
    (Return None, (rejected "Signature verification failed" (demo_call "stale"),
      (Some (mkReqCtx "c-1" None None None None),
       snd (rpc_metrics demo_increment demo_histogram "/pkg/Get" "OK" elapsed [])))).
Proof.
  destruct (grpc_server_chain (λ _, "") demo_uuid demo_jwt "k" (AuthServerInterceptor_init None None None)
    demo_increment demo_histogram demo_clock demo_rpc "/pkg/Get" "ping" (demo_call "stale")
    None [] "c-1" []) as (elapsed & u' & Hrun & Hu').
  - intros u. by eexists.
  - intros m s t u e. discriminate.
  - reflexivity.
  - exists elapsed. rewrite Hrun, Hu'. reflexivity.
Defined.

Lemma grpc_correlation_propagates_witness :
  ∃ sent, CorrelationIdClientInterceptor_inject (Some [("k", MText "v")]) (Some (mkReqCtx "c-9" None None None None), tt) =
      (Return sent, (Some (mkReqCtx "c-9" None None None None), tt)) ∧
    fst (snd (snd (CorrelationIdWrapper_inject (λ _, "") demo_uuid (mkServicer sent None None, (None, []))))) =
      Some (mkReqCtx "c-9" None None None None).
Proof.
  destruct (grpc_correlation_propagates (λ _, "") demo_uuid (mkReqCtx "c-9" None None None None) tt
    (Some [("k", MText "v")]) None None None []) as (sent & Hs & Hrun).
  - discriminate.
  - exists sent. split; [exact Hs|]. rewrite Hrun; [reflexivity | discriminate].
Defined.

Lemma grpc_retry_single_witness :
  RetryClientInterceptor_intercept_unary_unary retry_policy0 (λ _ _, mret "call") None "ping" retry_world0 =
    (Return "call", retry_world0).
Proof. apply grpc_retry_single; [vm_compute; discriminate | reflexivity]. Defined.
