(* ===== verification/Dynamo.v ===== *)
(** * The DynamoDB adapter ([adapters/dynamodb/repository.py])

    A table is a type with the calls the adapters make ([DynamoTable]) and what DynamoDB
    documents of them ([DynamoTableSpec]): items under keys, conditional puts, updates that
    create a missing item, and queries that return one page.  [PageTable] implements it. *)
From S2P Require Import Prelude PyString OrderedDict Errors Pipeline Outbox Mongo.

(** ** Tables *)

Inductive aval :=
| AStr (s : string)
| ANum (n : Z)
| ABytes (b : list Z)
| AMap (m : list (string * string))
| ANull.

Definition Item : Type := list (string * aval).
(** A partition key and, in a table that has one, a sort key. *)
Definition Key : Type := string * option string.

(** A query returns the items of a page and whether there are more. *)
Record QueryPage := mkQueryPage { pg_items : list Item; pg_more : bool }.

Class DynamoTable (T : Type) := {
  get_item : Key → PyM T (option Item);
  put_item : Key → Item → PyM T unit;
  put_item_if_absent : Key → Item → PyM T unit;
  update_item : Key → Item → list (string * aval) → PyM T unit;
  delete_item : Key → PyM T unit;
  query_items : (Key → Item → bool) → option Z → PyM T QueryPage;
}.

Definition set_attributes (sets : list (string * aval)) (item : Item) : Item :=
  fold_left (λ d e, od_set (fst e) (snd e) d) sets item.

Class DynamoTableSpec (T : Type) `{DynamoTable T} := {
  t_items : T → gmap Key Item;
  condition_failed : pyexn;
  condition_failed_exn : is_Exception condition_failed = true;
  condition_failed_text : contains "ConditionalCheckFailed" (exn_msg condition_failed) = true;
  get_item_spec k t : get_item k t = (Return (t_items t !! k), t);
  put_item_spec k i t :
    ∃ t', put_item k i t = (Return tt, t') ∧ t_items t' = <[k := i]> (t_items t);
  put_new_spec k i t : t_items t !! k = None →
    ∃ t', put_item_if_absent k i t = (Return tt, t') ∧ t_items t' = <[k := i]> (t_items t);
  put_old_spec k i t : is_Some (t_items t !! k) →
    ∃ t', put_item_if_absent k i t = (Raise condition_failed, t') ∧ t_items t' = t_items t;
  update_item_spec k fresh sets t :
    ∃ t', update_item k fresh sets t = (Return tt, t') ∧
      t_items t' = <[k := set_attributes sets (default fresh (t_items t !! k))]> (t_items t);
  delete_item_spec k t :
    ∃ t', delete_item k t = (Return tt, t') ∧ t_items t' = delete k (t_items t);
  query_items_spec p limit t :
    ∃ pg rest, query_items p limit t = (Return pg, t) ∧
      pg_items pg ++ rest ≡ₚ snd <$> map_to_list (filter (λ e, p e.1 e.2 = true) (t_items t)) ∧
      (pg_more pg = false → rest = []);
}.

(** A table that hands out pages of at most [n] items, and at most [limit]. *)
Record PageTable := mkPageTable { pt_size : nat; pt_items : gmap Key Item }.

Definition ConditionalCheckFailedException : pyexn :=
  exn_of ["ClientError"] "An error occurred (ConditionalCheckFailedException) when calling the PutItem operation".

Definition page_limit (n : nat) (limit : option Z) : nat :=
  match limit with None => n | Some l => Nat.min n (Z.to_nat l) end.

#[export] Instance Page_DynamoTable : DynamoTable PageTable := {
  get_item k := reads (λ t, pt_items t !! k);
  put_item k i := updates (λ t, mkPageTable (pt_size t) (<[k := i]> (pt_items t)));
  put_item_if_absent k i := λ t,
    match pt_items t !! k with
    | Some _ => (Raise ConditionalCheckFailedException, t)
    | None => (Return tt, mkPageTable (pt_size t) (<[k := i]> (pt_items t)))
    end;
  update_item k fresh sets := updates (λ t,
    mkPageTable (pt_size t) (<[k := set_attributes sets (default fresh (pt_items t !! k))]> (pt_items t)));
  delete_item k := updates (λ t, mkPageTable (pt_size t) (delete k (pt_items t)));
  query_items p limit := reads (λ t,
    let l := snd <$> map_to_list (filter (λ e, p e.1 e.2 = true) (pt_items t)) in
    let n := page_limit (pt_size t) limit in
    mkQueryPage (take n l) (negb (Nat.leb (length l) n)));
}.

#[export] Instance Page_DynamoTableSpec : DynamoTableSpec PageTable.
Proof.
  unshelve refine {| t_items := pt_items; condition_failed := ConditionalCheckFailedException |}; try done.
  - intros k i t. by eexists.
  - intros k i t Hk. simpl. rewrite Hk. by eexists.
  - intros k i t [i0 Hk]. simpl. rewrite Hk. by eexists.
  - intros k f s t. by eexists.
  - intros k t. by eexists.
  - intros p limit t. eexists _, (drop _ _). split; [done|]. cbn [pg_items pg_more]. rewrite take_drop. split; [done|].
    intros Hm. apply drop_ge. apply negb_false_iff, Nat.leb_le in Hm. exact Hm.
Defined.

(** ** The repository *)

Record DynamoDBTable := mkDynamoTable { pk_field : string; sk_field : option string }.

Section Repository.
Context {T A : Type} `{!DynamoTable T} (config : DynamoDBTable).
(** The model's constructor on an item's attributes, and [_to_dict]; [key_of] reads the key
    attributes of an item, as the service does. *)
Context (model : Item → outcome A) (to_dict : A → Item) (key_of : Item → Key).

(** The key of [get] and [delete]. *)
Definition item_key (pk : string) (sk : option string) : Key :=
  (pk, match sk_field config with None | Some "" => None | Some _ => sk end).

Definition DynamoDBRepository_get (pk : string) (sk : option string) : PyM T (option A) :=
  item ← get_item (item_key pk sk);
  match item with
  | None => mret None
  | Some i => a ← from_outcome (model i); mret (Some a)
  end.

Definition DynamoDBRepository_put (a : A) : PyM T unit :=
  let body := to_dict a in put_item (key_of body) body.

Definition DynamoDBRepository_delete (pk : string) (sk : option string) : PyM T unit := delete_item (item_key pk sk).

(** [Key(pk).eq(pk)] and, given a prefix and a sort key, [begins_with]. *)
Definition key_condition (pk : string) (sk_prefix : option string) (k : Key) (_ : Item) : bool :=
  String.eqb (fst k) pk &&
  match sk_prefix, sk_field config with
  | None, _ | Some "", _ | _, None | _, Some "" => true
  | Some p, Some _ => match snd k with Some s => startswith p s | None => false end
  end.

Fixpoint models (items : list Item) : outcome (list A) :=
  match items with
  | [] => Return []
  | i :: items' =>
      match model i with
      | Raise e => Raise e
      | Return a => match models items' with Raise e => Raise e | Return l => Return (a :: l) end
      end
  end.

(** [resp.get("Items", [])]: the page is all that is looked at. *)
Definition DynamoDBRepository_query (pk : string) (sk_prefix : option string) : PyM T (list A) :=
  resp ← query_items (key_condition pk sk_prefix) None;
  from_outcome (models (pg_items resp)).

Definition DynamoDBRepository_scan (filter_expr : option (Key → Item → bool)) : PyM T (list A) :=
  resp ← query_items (default (λ _ _, true) filter_expr) None;
  from_outcome (models (pg_items resp)).

End Repository.

(** ** The outbox store *)

Section OutboxStore.
Context {T : Type} `{!DynamoTable T}.
(** [datetime.isoformat()]. *)
Context (isoformat : Z → string).

(** [asdict(record)], with the times as text. *)
Definition outbox_item (r : OutboxRecord) : Item :=
  [("id", AStr (or_id r)); ("aggregate_id", AStr (or_aggregate_id r)); ("aggregate_type", AStr (or_aggregate_type r));
   ("event_type", AStr (or_event_type r)); ("topic", AStr (or_topic r)); ("payload", ABytes (or_payload r));
   ("headers", AMap (or_headers r)); ("status", AStr (status_text (or_status r)));
   ("created_at", AStr (isoformat (or_created_at r)));
   ("dispatched_at", match or_dispatched_at r with Some t => AStr (isoformat t) | None => ANull end);
   ("retry_count", ANum (or_retry_count r));
   ("last_error", match or_last_error r with Some e => AStr e | None => ANull end)].

Definition DynamoDBOutboxStore_save (r : OutboxRecord) : PyM T unit := put_item (or_id r, None) (outbox_item r).

Definition status_equals (st : OutboxStatus) (_ : Key) (i : Item) : bool :=
  match od_get "status" i with Some (AStr s) => String.eqb s (status_text st) | _ => false end.

(** The records are built from the attributes of the items as they are. *)
Definition DynamoDBOutboxStore_get_pending (limit : Z) : PyM T (list Item) :=
  resp ← query_items (status_equals PENDING) (Some limit);
  mret (pg_items resp).

Definition DynamoDBOutboxStore_mark_dispatched (now : Z) (record_id : string) : PyM T unit :=
  update_item (record_id, None) [("id", AStr record_id)]
    [("status", AStr (status_text DISPATCHED)); ("dispatched_at", AStr (isoformat now))].

Definition DynamoDBOutboxStore_mark_failed (record_id error : string) : PyM T unit :=
  update_item (record_id, None) [("id", AStr record_id)]
    [("status", AStr (status_text FAILED)); ("last_error", AStr error)].

End OutboxStore.

(** ** The idempotency store *)

(** [type(exc).__name__]. *)
Definition class_name (e : pyexn) : string := default "" (head (exn_mro e)).

Section IdempotencyStore.
Context {T : Type} `{!DynamoTable T} (now : Z).

Definition idempotency_item (key : IdempotencyKey) (r : IdempotencyRecord) : Item :=
  [("key", AStr (IdempotencyKey_str key)); ("status", AStr (idr_status r))] ++
  match idr_response r with Some b => [("response", AStr b)] | None => [] end ++
  match idr_expires_at r with Some t => [("expires_at", ANum t)] | None => [] end.

(** [Key={"key": str(key)}]. *)
Definition idem_key (key : IdempotencyKey) : Key := (IdempotencyKey_str key, None).

(** [created_at] is the record's default, the time of the call. *)
Definition DynamoDBIdempotencyStore_get (key : IdempotencyKey) : PyM T (option IdempotencyRecord) :=
  item ← get_item (idem_key key);
  match item with
  | None => mret None
  | Some i =>
      match od_get "key" i with
      | Some (AStr k) =>
          mret (Some (mkIRecord k (match od_get "response" i with Some (AStr b) => Some b | _ => None end)
            (match od_get "status" i with Some (AStr s) => s | _ => "PROCESSING" end) now None))
      | _ => raise (KeyError "'key'")
      end
  end.

Definition DynamoDBIdempotencyStore_save (key : IdempotencyKey) (r : IdempotencyRecord) : PyM T unit :=
  try_except (put_item_if_absent (idem_key key) (idempotency_item key r)) (λ exc,
    if contains "ConditionalCheckFailed" (class_name exc) || contains "ConditionalCheckFailed" (exn_msg exc)
    then raise (ConflictError ("Idempotency key " +:+ IdempotencyKey_str key +:+ " already exists"))
    else raise exc).

Definition DynamoDBIdempotencyStore_complete (key : IdempotencyKey) (response : string) : PyM T unit :=
  update_item (idem_key key) [("key", AStr (IdempotencyKey_str key))]
    [("status", AStr "COMPLETED"); ("response", AStr response)].

End IdempotencyStore.

(** ** Lemmas *)

Section IdempotencyLemmas.
Context {T : Type} `{!DynamoTable T} `{!DynamoTableSpec T}.
Implicit Types (t : T).

Lemma save_new key r t :
  t_items t !! (idem_key key) = None →
  ∃ t', DynamoDBIdempotencyStore_save key r t = (Return tt, t') ∧
    t_items t' = <[(idem_key key) := idempotency_item key r]> (t_items t).
Proof.
  intros Hk. destruct (put_new_spec _ (idempotency_item key r) t Hk) as (t' & Hput & Ht').
  exists t'. unfold DynamoDBIdempotencyStore_save, try_except, try_base. by rewrite Hput.
Qed.

Definition already_exists (key : IdempotencyKey) : pyexn :=
  ConflictError ("Idempotency key " +:+ IdempotencyKey_str key +:+ " already exists").

Lemma save_old key r t :
  is_Some (t_items t !! (idem_key key)) →
  ∃ t', DynamoDBIdempotencyStore_save key r t = (Raise (already_exists key), t') ∧ t_items t' = t_items t.
Proof.
  intros Hk. destruct (put_old_spec _ (idempotency_item key r) t Hk) as (t' & Hput & Ht').
  exists t'. unfold DynamoDBIdempotencyStore_save, try_except, try_base.
  by rewrite Hput, condition_failed_exn, condition_failed_text, orb_true_r.
Qed.

Lemma get_saved now key r t :
  t_items t !! (idem_key key) = Some (idempotency_item key r) →
  DynamoDBIdempotencyStore_get now key t =
    (Return (Some (mkIRecord (IdempotencyKey_str key) (idr_response r) (idr_status r) now None)), t).
Proof.
  intros Hk. unfold DynamoDBIdempotencyStore_get, mbind, PyM_bind. rewrite get_item_spec, Hk.
  unfold idempotency_item. by destruct (idr_response r), (idr_expires_at r).
Qed.

(** Requests one after the other: whether each saved its record. *)
Fixpoint save_all (reqs : list (IdempotencyKey * IdempotencyRecord)) t : list bool * T :=
  match reqs with
  | [] => ([], t)
  | (key, r) :: reqs' =>
      let '(o, t1) := DynamoDBIdempotencyStore_save key r t in
      let '(bs, t2) := save_all reqs' t1 in
      ((match o with Return _ => true | Raise _ => false end) :: bs, t2)
  end.

(** Nobody else saves the key: all are told it exists. *)
Lemma save_all_old key rs t :
  is_Some (t_items t !! (idem_key key)) →
  ∃ t', save_all (map (pair key) rs) t = (replicate (length rs) false, t') ∧ t_items t' = t_items t.
Proof.
  revert t. induction rs as [|r rs IH]; intros t Hk; [by exists t|]. cbn [map save_all].
  destruct (save_old key r t Hk) as (t1 & -> & Ht1). destruct (IH t1) as (t2 & -> & Ht2); [by rewrite Ht1|].
  exists t2. split; [done | by rewrite Ht2].
Qed.

End IdempotencyLemmas.

(** ** Theorems *)

(** of any number of requests that file a record under one key, the first alone
    succeeds; every other gets [ConflictError], and the record that is read back is the
    first one's. *)
Theorem dynamo_save_once {T} `{!DynamoTable T} `{!DynamoTableSpec T} now key r rs t :
  t_items t !! (idem_key key) = None →
  ∃ t', save_all (map (pair key) (r :: rs)) t = (true :: replicate (length rs) false, t') ∧
    DynamoDBIdempotencyStore_get now key t' =
      (Return (Some (mkIRecord (IdempotencyKey_str key) (idr_response r) (idr_status r) now None)), t').
Proof.
  intros Hk. cbn [map save_all]. destruct (save_new key r t Hk) as (t1 & -> & Ht1).
  destruct (save_all_old key rs t1) as (t2 & -> & Ht2); [rewrite Ht1, lookup_insert_eq; by eexists|].
  exists t2. split; [done|]. apply get_saved. by rewrite Ht2, Ht1, lookup_insert_eq.
Qed.

(** completing a key nobody filed creates a completed record, which is then replayed. *)
Theorem dynamo_complete_creates {T} `{!DynamoTable T} `{!DynamoTableSpec T} now key response t :
  ∃ t', DynamoDBIdempotencyStore_complete key response t = (Return tt, t') ∧
    (t_items t !! (idem_key key) = None →
     DynamoDBIdempotencyStore_get now key t' =
       (Return (Some (mkIRecord (IdempotencyKey_str key) (Some response) "COMPLETED" now None)), t')).
Proof.
  destruct (update_item_spec (idem_key key) [("key", AStr (IdempotencyKey_str key))]
    [("status", AStr "COMPLETED"); ("response", AStr response)] t) as (t' & Hup & Ht').
  exists t'. split; [done|]. intros Hk. unfold DynamoDBIdempotencyStore_get, mbind, PyM_bind.
  by rewrite get_item_spec, Ht', lookup_insert_eq, Hk.
Qed.

(** a scan or a query returns one page.  In a table of more items than a page holds,
    a scan without a filter returns a page's worth and drops the rest, with no error. *)
Theorem dynamo_scan_first_page {A} (model : Item → outcome A) (f : Item → A) t :
  (∀ i, model i = Return (f i)) →
  DynamoDBRepository_scan model None t =
    (Return (f <$> take (pt_size t) (snd <$> map_to_list (pt_items t))), t).
Proof.
  intros Hm. unfold DynamoDBRepository_scan, mbind, PyM_bind. simpl. unfold reads.
  assert (∀ l, models model l = Return (f <$> l)) as Hmodels.
  { induction l as [|i l IH]; [done|]. cbn [models]. by rewrite Hm, IH. }
  unfold from_outcome. rewrite Hmodels. do 5 f_equal.
  f_equal. apply map_filter_id. by intros k i _.
Qed.

(** an aggregate that is put is got back under its key until it is deleted, and the other
    items are not touched. *)
Theorem dynamo_repository_lifecycle {T A} `{!DynamoTable T} `{!DynamoTableSpec T} config
    (model : Item → outcome A) to_dict key_of a pk sk t :
  model (to_dict a) = Return a → key_of (to_dict a) = item_key config pk sk →
  ∃ t1 t2, DynamoDBRepository_put to_dict key_of a t = (Return tt, t1) ∧
    DynamoDBRepository_get config model pk sk t1 = (Return (Some a), t1) ∧
    DynamoDBRepository_delete config pk sk t1 = (Return tt, t2) ∧
    DynamoDBRepository_get config model pk sk t2 = (Return None, t2) ∧
    ∀ k, k ≠ item_key config pk sk → t_items t2 !! k = t_items t !! k.
Proof.
  intros Hm Hk. destruct (put_item_spec (key_of (to_dict a)) (to_dict a) t) as (t1 & Hput & Ht1).
  destruct (delete_item_spec (item_key config pk sk) t1) as (t2 & Hdel & Ht2). rewrite Hk in Ht1.
  exists t1, t2. split_and!; [done| |done| |].
  - unfold DynamoDBRepository_get, mbind, PyM_bind. by rewrite get_item_spec, Ht1, lookup_insert_eq, Hm.
  - unfold DynamoDBRepository_get, mbind, PyM_bind. by rewrite get_item_spec, Ht2, lookup_delete_eq.
  - intros k Hne. by rewrite Ht2, lookup_delete_ne, Ht1, lookup_insert_ne.
Qed.

(** a pending outbox record comes back with its times and its status as text: reading
    does not undo what [save] wrote. *)
Theorem dynamo_pending_text isoformat r :
  or_status r = PENDING →
  ∃ i, DynamoDBOutboxStore_get_pending 100 (snd (DynamoDBOutboxStore_save isoformat r (mkPageTable 10 ∅))) =
      (Return [i], snd (DynamoDBOutboxStore_save isoformat r (mkPageTable 10 ∅))) ∧
    od_get "created_at" i = Some (AStr (isoformat (or_created_at r))) ∧ od_get "status" i = Some (AStr "PENDING").
Proof.
  intros Hst. exists (outbox_item isoformat r). split; [|unfold outbox_item; by rewrite Hst].
  unfold DynamoDBOutboxStore_get_pending, mbind, PyM_bind. simpl. unfold reads. rewrite insert_empty.
  rewrite map_filter_singleton_True; [by rewrite map_to_list_singleton|].
  unfold status_equals. simpl. by rewrite Hst.
Qed.

(** ** Witnesses *)

Lemma dynamo_save_once_witness :
  ∃ t', save_all (map (pair (mkIKey "c" "op")) [mkIRecord "op:c" None "PROCESSING" 0 None; mkIRecord "op:c" None "OTHER" 1 None])
      (mkPageTable 10 ∅) = ([true; false], t') ∧
    DynamoDBIdempotencyStore_get 5 (mkIKey "c" "op") t' = (Return (Some (mkIRecord "op:c" None "PROCESSING" 5 None)), t').
Proof.
  destruct (dynamo_save_once 5 (mkIKey "c" "op") (mkIRecord "op:c" None "PROCESSING" 0 None)
    [mkIRecord "op:c" None "OTHER" 1 None] (mkPageTable 10 ∅)) as (t' & Hrun & Hget).
  - reflexivity.
  - exists t'. split; [exact Hrun | exact Hget].
Defined.

Lemma dynamo_scan_first_page_witness :
  let t := mkPageTable 1 {[("a", None) := [("pk", AStr "a")]; ("b", None) := [("pk", AStr "b")]]} in
  ∃ i, DynamoDBRepository_scan Return None t = (Return [i], t).
Proof.
  intros t. eexists. rewrite (dynamo_scan_first_page Return id t) by reflexivity. reflexivity.
Defined.

Lemma dynamo_repository_lifecycle_witness :
  let cfg := mkDynamoTable "pk" None in
  ∃ t1 t2, DynamoDBRepository_put (λ s, [("pk", AStr s)]) (λ i, match i with (_, AStr s) :: _ => (s, None) | _ => ("", None) end)
      "a" (mkPageTable 10 ∅) = (Return tt, t1) ∧
    DynamoDBRepository_delete cfg "a" None t1 = (Return tt, t2) ∧ t_items t2 !! ("b", None) = None.
Proof.
  intros cfg. destruct (dynamo_repository_lifecycle cfg
    (λ i, match i with (_, AStr s) :: _ => Return s | _ => Raise (TypeError "model") end) (λ s, [("pk", AStr s)])
    (λ i, match i with (_, AStr s) :: _ => (s, None) | _ => ("", None) end) "a" "a" None (mkPageTable 10 ∅))
    as (t1 & t2 & Hput & _ & Hdel & _ & Hrest).
  - reflexivity.
  - reflexivity.
  - exists t1, t2. split; [exact Hput|]. split; [exact Hdel|]. rewrite Hrest; [reflexivity | discriminate].
Defined.

Lemma dynamo_pending_text_witness :
  ∃ i, fst (DynamoDBOutboxStore_get_pending 100
      (snd (DynamoDBOutboxStore_save str_of_int (mkOutbox "1" "" "" "" "" [] [] PENDING 7 None 0 None) (mkPageTable 10 ∅)))) =
      Return [i] ∧ od_get "created_at" i = Some (AStr "7").
Proof.
  destruct (dynamo_pending_text str_of_int (mkOutbox "1" "" "" "" "" [] [] PENDING 7 None 0 None)) as (i & Hget & Hc & _).
  - reflexivity.
  - exists i. split; [rewrite Hget; reflexivity | exact Hc].
Defined.
