(* ===== verification/Masking.v ===== *)
(** * Masking and redaction

    [application/masking/] (rules, the masker, the log filter), [kernel/security/pii.py]
    and [observability/logging/filters.py].  Documents are the values of [PyValue];
    [fnmatch] and [str] are modelled and SHA-256 is computed; the printing of floats and
    the regular expressions of [pii.py] are parameters. *)
From S2P Require Import Prelude PyString OrderedDict PyValue Sha256.

(** ** [fnmatch] on POSIX *)

Inductive glob_token :=
| GStar
| GAny
| GChar (c : ascii)
| GSet (negated : bool) (ranges : list (ascii * ascii)).

(** The characters and ranges between brackets. *)
Fixpoint glob_ranges (s : string) : list (ascii * ascii) :=
  match s with
  | String c (String "-" (String d s')) => (c, d) :: glob_ranges s'
  | String c s' => (c, c) :: glob_ranges s'
  | "" => []
  end.

(** The text up to the next closing bracket, and what follows it. *)
Fixpoint until_bracket (s : string) : option (string * string) :=
  match s with
  | "" => None
  | String "]" s' => Some ("", s')
  | String c s' => match until_bracket s' with Some (a, r) => Some (String c a, r) | None => None end
  end.

(** A closing bracket right after the opening one (or after [!]) is a member. *)
Definition bracket_body (s : string) : option (string * string) :=
  match s with
  | String "]" s' => match until_bracket s' with Some (a, r) => Some (String "]" a, r) | None => None end
  | _ => until_bracket s
  end.

Fixpoint glob_parse (fuel : nat) (s : string) : list glob_token :=
  match fuel with
  | O => []
  | S fuel' =>
      match s with
      | "" => []
      | String "*" s' => GStar :: glob_parse fuel' s'
      | String "?" s' => GAny :: glob_parse fuel' s'
      | String "[" s' =>
          let '(neg, body) := match s' with String "!" s'' => (true, s'') | _ => (false, s') end in
          match bracket_body body with
          | Some (a, r) => GSet neg (glob_ranges a) :: glob_parse fuel' r
          | None => GChar "[" :: glob_parse fuel' s'
          end
      | String c s' => GChar c :: glob_parse fuel' s'
      end
  end.

Definition in_ranges (rs : list (ascii * ascii)) (c : ascii) : bool :=
  existsb (λ r, Nat.leb (code (fst r)) (code c) && Nat.leb (code c) (code (snd r))) rs.

Fixpoint glob_match (p : list glob_token) (s : string) : bool :=
  match p with
  | [] => String.eqb s ""
  | GStar :: p' =>
      (fix any (s : string) : bool :=
         glob_match p' s || match s with "" => false | String _ s' => any s' end) s
  | GAny :: p' => match s with "" => false | String _ s' => glob_match p' s' end
  | GChar c :: p' => match s with "" => false | String d s' => Ascii.eqb c d && glob_match p' s' end
  | GSet neg rs :: p' =>
      match s with "" => false | String d s' => xorb neg (in_ranges rs d) && glob_match p' s' end
  end.

(** Every token takes a character of the pattern, so its length is fuel enough. *)
Definition fnmatch (name pat : string) : bool := glob_match (glob_parse (String.length pat) pat) name.

(** *** What a pattern matches

    The rules of the documentation: [*] matches any text, [?] any character, [[seq]] a
    character of the sequence, [[!seq]] one that is not; anything else, an opening bracket that is never closed too,
    matches itself. *)

(** What follows an opening bracket: whether the set is negated, its members, the rest of the pattern. *)
Definition set_body (s : string) : option (bool * string * string) :=
  let '(neg, body) := match s with String "!" s'' => (true, s'') | _ => (false, s) end in
  match bracket_body body with Some (a, r) => Some (neg, a, r) | None => None end.

Definition literal (c : ascii) : Prop := c ≠ "*"%char ∧ c ≠ "?"%char ∧ c ≠ "["%char.

Inductive globs : string → string → Prop :=
| globs_end : globs "" ""
| globs_star p s t : globs p t → globs (String "*" p) (s +:+ t)
| globs_any p c s : globs p s → globs (String "?" p) (String c s)
| globs_char c p s : literal c → globs p s → globs (String c p) (String c s)
| globs_set p neg a r c s :
    set_body p = Some (neg, a, r) → in_ranges (glob_ranges a) c = negb neg → globs r s → globs (String "[" p) (String c s)
| globs_bracket p s : set_body p = None → globs p s → globs (String "[" p) (String "[" s).

(** ** [str] *)

Section Text.
Context (float_repr : Q → string).

Fixpoint repr (v : pyval) : string :=
  match v with
  | VNone => "None"
  | VBool b => if b then "True" else "False"
  | VInt z => str_of_int z
  | VFloat q => float_repr q
  | VStr s => py_repr s
  | VList l => "[" +:+ join ", " (map repr l) +:+ "]"
  | VDict d => "{" +:+ join ", " (map (λ e, py_repr (fst e) +:+ ": " +:+ repr (snd e)) d) +:+ "}"
  end.

Definition doc_str (v : pyval) : string := match v with VStr s => s | v => repr v end.

End Text.

(** ** The masker ([rules.py], [masker.py]) *)

Inductive MaskingStrategy := MaskRedact | MaskHash | MaskPartial | MaskTokenize.

#[export] Instance MaskingStrategy_eq_dec : EqDecision MaskingStrategy.
Proof. solve_decision. Defined.

Record MaskingRule := mkRule {
  field_pattern : string;
  strategy : MaskingStrategy;
  salt : string;
  partial_show_start : nat;
  partial_show_end : nat;
}.

Section Masker.
(** [repr] of a float. *)
Context (float_repr : Q → string).

(** [hashlib.sha256(s.encode()).hexdigest()]. *)
Definition sha256_hex (s : string) : string := hexdigest (sha256 (encode s)).

Definition mask_redact (value : pyval) (rule : MaskingRule) : string := "***".

Definition mask_hash (value : pyval) (rule : MaskingRule) : string :=
  String.substring 0 8 (sha256_hex (salt rule +:+ doc_str float_repr value)).

Fixpoint stars (n : nat) : string := match n with O => "" | S n' => String "*" (stars n') end.

Definition partial_text (start stop : nat) (s : string) : string :=
  let length := String.length s in
  if Nat.leb length (start + stop) then stars length
  else String.substring 0 start s +:+ stars (length - start - stop) +:+
       (if Nat.eqb stop 0 then "" else String.substring (length - stop) stop s).

Definition mask_partial (value : pyval) (rule : MaskingRule) : string :=
  partial_text (partial_show_start rule) (partial_show_end rule) (doc_str float_repr value).

(** [str(uuid.UUID(digest[:32]))]. *)
Definition uuid_of_hex (h : string) : string :=
  String.substring 0 8 h +:+ "-" +:+ String.substring 8 4 h +:+ "-" +:+ String.substring 12 4 h +:+ "-" +:+
  String.substring 16 4 h +:+ "-" +:+ String.substring 20 12 h.

Definition mask_tokenize (value : pyval) (rule : MaskingRule) : string :=
  uuid_of_hex (sha256_hex (salt rule +:+ doc_str float_repr value)).

Definition strategy_fn (rule : MaskingRule) (value : pyval) : string :=
  match strategy rule with
  | MaskRedact => mask_redact value rule
  | MaskHash => mask_hash value rule
  | MaskPartial => mask_partial value rule
  | MaskTokenize => mask_tokenize value rule
  end.

(** The first rule whose pattern matches a key. *)
Definition first_rule (rules : list MaskingRule) (key : string) : option MaskingRule :=
  List.find (λ r, fnmatch key (field_pattern r)) rules.

(** [_walk] and, on each entry of a dictionary, [_apply_rules]. *)
Fixpoint DataMasker_walk (rules : list MaskingRule) (node : pyval) : pyval :=
  match node with
  | VDict d => VDict (map (λ e, (fst e,
      match first_rule rules (fst e) with
      | Some rule => VStr (strategy_fn rule (snd e))
      | None => DataMasker_walk rules (snd e)
      end)) d)
  | VList l => VList (map (DataMasker_walk rules) l)
  | v => v
  end.

Definition DataMasker_mask (data : pyval) (rules : list MaskingRule) : pyval := DataMasker_walk rules data.

(** ** The log filter ([log_filter.py]): a record's message and arguments *)

Record LogRecord := mkLogRecord { lr_msg : pyval; lr_args : pyval }.

Definition is_dict (v : pyval) : bool := match v with VDict _ => true | _ => false end.

Definition mask_if_dict (rules : list MaskingRule) (v : pyval) : pyval :=
  if is_dict v then DataMasker_mask v rules else v.

Definition PiiLogFilter_filter (rules : list MaskingRule) (r : LogRecord) : bool * LogRecord :=
  (true, mkLogRecord (mask_if_dict rules (lr_msg r))
     (match lr_args r with
      | VDict d => DataMasker_mask (VDict d) rules
      | VList l => VList (map (mask_if_dict rules) l)
      | v => v
      end)).

End Masker.

(** ** Redaction by field name ([pii.py], [filters.py]) *)

Definition DEFAULT_SENSITIVE_FIELDS : gset string :=
  list_to_set ["password"; "passwd"; "secret"; "token"; "api_key"; "apikey"; "authorization"; "credit_card";
               "card_number"; "cvv"; "ssn"; "cpf"; "cnpj"].

Definition is_sensitive (fields : gset string) (k : string) : bool := bool_decide (lower k ∈ fields).

(** [RegexPIIRedactor.redact]; [patterns] are the substitutions of [_TEXT_PATTERNS]. *)
Definition RegexPIIRedactor_redact_text (patterns : list (string → string)) (text : string) : string :=
  fold_left (λ t sub, sub t) patterns text.

Fixpoint redact_value (fields : gset string) (on_text : string → string) (mark : string) (v : pyval) : pyval :=
  match v with
  | VDict d => VDict (map (λ e, (fst e,
      if is_sensitive fields (fst e) then VStr mark else redact_value fields on_text mark (snd e))) d)
  | VStr s => VStr (on_text s)
  | v => v
  end.

Definition RegexPIIRedactor_redact (fields : gset string) (patterns : list (string → string))
    (data : list (string * pyval)) : pyval :=
  redact_value fields (RegexPIIRedactor_redact_text patterns) "***" (VDict data).

(** [sensitive_fields or DEFAULT_SENSITIVE_FIELDS]. *)
Definition SensitiveFieldsFilter_init (sensitive_fields : option (gset string)) : gset string :=
  match sensitive_fields with
  | None => DEFAULT_SENSITIVE_FIELDS
  | Some s => if decide (s = ∅) then DEFAULT_SENSITIVE_FIELDS else s
  end.

Definition SensitiveFieldsFilter_redact (fields : gset string) (data : list (string * pyval)) : pyval :=
  VDict (map (λ e, (fst e, if is_sensitive fields (fst e) then VStr "[REDACTED]" else snd e)) data).

Definition SensitiveFieldsFilter_redact_deep (fields : gset string) (data : list (string * pyval)) : pyval :=
  redact_value fields id "[REDACTED]" (VDict data).

(** ** Lemmas *)

(** Induction through lists and dictionaries. *)
Lemma pyval_nested (P : pyval → Prop) :
  P VNone → (∀ b, P (VBool b)) → (∀ z, P (VInt z)) → (∀ q, P (VFloat q)) → (∀ s, P (VStr s)) →
  (∀ l, Forall P l → P (VList l)) → (∀ d, Forall (λ e, P (snd e)) d → P (VDict d)) → ∀ v, P v.
Proof.
  intros HN HB HI HF HS HL HD. fix IH 1. intros [ |b|z|q|s|l|d]; [done | auto..| |].
  - apply HL. induction l as [|v l IHl]; constructor; [apply IH | exact IHl].
  - apply HD. induction d as [|[k v] d IHd]; constructor; [apply IH | exact IHd].
Qed.

Lemma map_ext_Forall {A B} (f g : A → B) l : Forall (λ x, f x = g x) l → map f l = map g l.
Proof. induction 1 as [|x l Hx _ IH]; [done|]. simpl. by rewrite Hx, IH. Qed.

#[local] Arguments String.append !_ _ / : simpl nomatch.

(** *** Patterns *)

Lemma glob_star_match p s : glob_match (GStar :: p) s = true ↔ ∃ a t, s = a +:+ t ∧ glob_match p t = true.
Proof.
  induction s as [|c s IH].
  - simpl. rewrite orb_false_r. split; [intros H; by exists "", "" | intros (a & t & E & H); destruct a; simplify_eq/=; done].
  - change (glob_match (GStar :: p) (String c s)) with (glob_match p (String c s) || glob_match (GStar :: p) s).
    rewrite orb_true_iff, IH. split.
    + intros [H|(a & t & -> & H)]; [by exists "", (String c s) | by exists (String c a), t].
    + intros (a & t & E & H). destruct a as [|c' a]; simplify_eq/=; [by left | right; by exists a, t].
Qed.

Lemma glob_parse_literal fuel c p : literal c → glob_parse (S fuel) (String c p) = GChar c :: glob_parse fuel p.
Proof. intros (H1 & H2 & H3). destruct c as [[] [] [] [] [] [] [] []]; try reflexivity; done. Qed.

Lemma glob_parse_set fuel p :
  glob_parse (S fuel) (String "[" p) =
    match set_body p with
    | Some (neg, a, r) => GSet neg (glob_ranges a) :: glob_parse fuel r
    | None => GChar "[" :: glob_parse fuel p
    end.
Proof.
  simpl. unfold set_body. destruct (match p with String "!" s'' => (true, s'') | _ => (false, p) end) as [neg body].
  by destruct (bracket_body body) as [[a r]|].
Qed.

Lemma until_bracket_length s a r : until_bracket s = Some (a, r) → (String.length r < String.length s)%nat.
Proof.
  revert a. induction s as [|c s IH]; intros a; [done|]. simpl.
  destruct (ascii_dec c "]") as [->|Hc]; [intros [= _ ->]; lia|].
  assert (match c with "]"%char => Some ("", s) | _ => match until_bracket s with Some (a, r) => Some (String c a, r) | None => None end end =
    match until_bracket s with Some (a, r) => Some (String c a, r) | None => None end) as ->
    by (destruct c as [[] [] [] [] [] [] [] []]; try reflexivity; done).
  destruct (until_bracket s) as [[a' r']|]; [|done]. intros [= <- ->]. specialize (IH a' eq_refl). lia.
Qed.

Lemma set_body_length p neg a r : set_body p = Some (neg, a, r) → (String.length r < String.length p)%nat.
Proof.
  unfold set_body. destruct (match p with String "!" s'' => (true, s'') | _ => (false, p) end) as [n body] eqn:E.
  assert (String.length body ≤ String.length p)%nat as Hle.
  { destruct p as [|c p]; [by simplify_eq/=|]. destruct c as [[] [] [] [] [] [] [] []]; simplify_eq/=; lia. }
  destruct (bracket_body body) as [[a' r']|] eqn:Hb; [|done]. intros [= _ _ ->].
  assert (String.length r < String.length body)%nat; [|lia].
  unfold bracket_body in Hb. destruct body as [|c body]; [done|]. destruct (ascii_dec c "]") as [->|Hc].
  - destruct (until_bracket body) as [[a'' r'']|] eqn:Hu; [|done]. injection Hb as _ ->. apply until_bracket_length in Hu. simpl. lia.
  - apply (until_bracket_length _ a'). destruct c as [[] [] [] [] [] [] [] []]; try exact Hb; done.
Qed.

Lemma globs_spec fuel p s : (String.length p ≤ fuel)%nat → glob_match (glob_parse fuel p) s = true ↔ globs p s.
Proof.
  revert p s. induction fuel as [|fuel IH]; intros p s Hf.
  { destruct p as [|c p]; [|simpl in Hf; lia]. simpl. rewrite String.eqb_eq. split; [intros ->; constructor | by inversion 1]. }
  destruct p as [|c p]; [simpl; rewrite String.eqb_eq; split; [intros ->; constructor | by inversion 1]|]. simpl in Hf.
  destruct (ascii_dec c "*") as [->|N1]; [|destruct (ascii_dec c "?") as [->|N2]; [|destruct (ascii_dec c "[") as [->|N3]]].
  - change (glob_parse (S fuel) (String "*" p)) with (GStar :: glob_parse fuel p). rewrite glob_star_match. split.
    + intros (a & t & -> & H). constructor. apply IH; [lia | done].
    + inversion 1 as [|? a t Ht| |? ? ? (Hl & _) _| |]; simplify_eq; try done. exists a, t. split; [done|]. apply IH; [lia | done].
  - change (glob_parse (S fuel) (String "?" p)) with (GAny :: glob_parse fuel p). destruct s as [|d s]; simpl; [by split; [|inversion 1]|].
    rewrite IH by lia. split; [by constructor|]. inversion 1 as [| | |? ? ? (_ & Hl & _) _| |]; simplify_eq; done.
  - rewrite glob_parse_set. destruct (set_body p) as [[[neg a] r]|] eqn:E.
    + pose proof (set_body_length _ _ _ _ E). destruct s as [|d s]; simpl; [by split; [|inversion 1]|]. rewrite andb_true_iff, IH by lia. split.
      * intros [Hx Hr]. eapply globs_set; [exact E | | exact Hr]. by destruct neg, (in_ranges _ _).
      * inversion 1 as [| | |? ? ? (_ & _ & Hl) _|? ? ? ? ? ? E' Hin Hr|? ? E']; simplify_eq; try done. rewrite Hin. split; [by destruct neg | done].
    + destruct s as [|d s]; cbn [glob_match]; [by split; [|inversion 1]|]. rewrite andb_true_iff, Ascii.eqb_eq, IH by lia. split.
      * intros [<- Hr]. by constructor.
      * inversion 1 as [| | |? ? ? (_ & _ & Hl) _|? ? ? ? ? ? E'|]; simplify_eq; done.
  - rewrite glob_parse_literal by done. destruct s as [|d s]; cbn [glob_match]; [by split; [|inversion 1]|].
    rewrite andb_true_iff, Ascii.eqb_eq, IH by lia. split; [intros [<- Hr]; by constructor | inversion 1; simplify_eq; done].
Qed.

Lemma fnmatch_globs name pat : fnmatch name pat = true ↔ globs pat name.
Proof. by apply globs_spec. Qed.

(** *** Rules *)

(** The first rule, in the order given, whose pattern matches the key; or none does. *)
Definition first_matching (rules : list MaskingRule) (key : string) (r : MaskingRule) : Prop :=
  ∃ before after, rules = before ++ r :: after ∧ globs (field_pattern r) key ∧ Forall (λ r', ¬ globs (field_pattern r') key) before.

Definition unmatched (rules : list MaskingRule) (key : string) : Prop := Forall (λ r, ¬ globs (field_pattern r) key) rules.

Lemma first_rule_cases rules key :
  (∃ r, first_rule rules key = Some r ∧ first_matching rules key r) ∨ first_rule rules key = None ∧ unmatched rules key.
Proof.
  induction rules as [|r rules IH]; [right; by repeat constructor|]. assert (first_rule (r :: rules) key = if fnmatch key (field_pattern r) then Some r else first_rule rules key) as -> by done.
  destruct (fnmatch key (field_pattern r)) eqn:E.
  - left. exists r. split; [done|]. exists [], rules. split_and!; [done | by apply fnmatch_globs | constructor].
  - assert (¬ globs (field_pattern r) key) as Hno by (intros H%fnmatch_globs; congruence).
    destruct IH as [(r' & -> & before & after & -> & Hg & Hb)|[-> Hu]]; [left|right; split; [done | by constructor]].
    exists r'. split; [done|]. exists (r :: before), after. split_and!; [done | done | by constructor].
Qed.

Lemma first_matching_unique rules key r r' : first_matching rules key r → first_matching rules key r' → r = r'.
Proof.
  intros (b & a & E & Hg & Hb) (b' & a' & E' & Hg' & Hb'). revert b' E' Hb'. rewrite E. clear E rules.
  induction Hb as [|x b Hx Hb IH]; intros b' E' Hb'.
  - destruct b' as [|y b']; [by injection E' | ]. injection E' as -> ->. by apply Forall_cons in Hb' as [Hy _].
  - destruct b' as [|y b']; injection E' as -> E'; [done|]. apply Forall_cons in Hb' as [_ Hb']. by apply (IH b').
Qed.

Lemma first_matching_rule rules key r : first_matching rules key r → first_rule rules key = Some r.
Proof.
  intros Hr. destruct (first_rule_cases rules key) as [(r' & -> & Hr')|[_ Hu]]; [f_equal; by eapply first_matching_unique|].
  destruct Hr as (b & a & -> & Hg & _). unfold unmatched in Hu. rewrite Forall_app, Forall_cons in Hu. tauto.
Qed.

Lemma unmatched_rule rules key : unmatched rules key → first_rule rules key = None.
Proof.
  intros Hu. destruct (first_rule_cases rules key) as [(r' & _ & b & a & -> & Hg & _)|[-> _]]; [|done].
  unfold unmatched in Hu. rewrite Forall_app, Forall_cons in Hu. tauto.
Qed.

(** *** What masking is to do *)

(** Under a key with a rule the value is replaced as the rule says, under any other it is masked itself. *)
Inductive masked (mask_value : MaskingRule → pyval → string) (rules : list MaskingRule) : pyval → pyval → Prop :=
| masked_dict d d' :
    Forall2 (λ e e', fst e' = fst e ∧
      ((∃ r, first_matching rules (fst e) r ∧ snd e' = VStr (mask_value r (snd e))) ∨
       unmatched rules (fst e) ∧ masked mask_value rules (snd e) (snd e'))) d d' →
    masked mask_value rules (VDict d) (VDict d')
| masked_list l l' : Forall2 (masked mask_value rules) l l' → masked mask_value rules (VList l) (VList l')
| masked_other v : (∀ d, v ≠ VDict d) → (∀ l, v ≠ VList l) → masked mask_value rules v v.

(** Documents that differ at most in the values under keys that a redacting rule applies to. *)
Inductive alike (rules : list MaskingRule) : pyval → pyval → Prop :=
| alike_dict d1 d2 :
    Forall2 (λ e1 e2, fst e2 = fst e1 ∧
      ((∃ r, first_matching rules (fst e1) r ∧ (strategy r = MaskRedact ∨ snd e2 = snd e1)) ∨
       unmatched rules (fst e1) ∧ alike rules (snd e1) (snd e2))) d1 d2 →
    alike rules (VDict d1) (VDict d2)
| alike_list l1 l2 : Forall2 (alike rules) l1 l2 → alike rules (VList l1) (VList l2)
| alike_other v : (∀ d, v ≠ VDict d) → (∀ l, v ≠ VList l) → alike rules v v.

Section MaskLemmas.
Context (float_repr : Q → string) (rules : list MaskingRule).

Lemma walk_masked v : masked (strategy_fn float_repr) rules v (DataMasker_walk float_repr rules v).
Proof.
  induction v as [ |b|z|q|s|l IH|d IH] using pyval_nested; try (by constructor); constructor.
  - induction IH as [|v l Hv _ IHl]; constructor; done.
  - induction IH as [|[k v] d Hv _ IHd]; constructor; [|done]. simpl in *. split; [done|].
    destruct (first_rule_cases rules k) as [(r & -> & Hr)|[-> Hu]]; [left; by exists r | by right].
Qed.

Lemma walk_alike v1 v2 : alike rules v1 v2 → DataMasker_walk float_repr rules v1 = DataMasker_walk float_repr rules v2.
Proof.
  revert v2. induction v1 as [ |b|z|q|s|l IH|d IH] using pyval_nested; intros v2 Hv;
    inversion Hv as [d1 d2 Hd|l1 l2 Hl|v H1 H2]; subst; try done; simpl; f_equal.
  - clear Hv. revert IH. induction Hl as [|x y l l2 Hxy _ IHl]; intros IH; [done|]. apply Forall_cons in IH as [Hx IH]. simpl.
    by rewrite (Hx y Hxy), IHl.
  - clear Hv. revert IH. induction Hd as [|[k x] [k' y] d d2 [Hk Hxy] _ IHd]; intros IH; [done|].
    apply Forall_cons in IH as [Hx IH]. simpl in *. subst k'. rewrite IHd by done. do 2 f_equal.
    destruct Hxy as [(r & Hr & Hs)|[Hu Ha]].
    + rewrite (first_matching_rule _ _ _ Hr). unfold strategy_fn. destruct Hs as [->| ->]; done.
    + rewrite (unmatched_rule _ _ Hu). by apply Hx.
Qed.

Lemma walk_idempotent v :
  Forall (λ r, strategy r = MaskRedact) rules →
  DataMasker_walk float_repr rules (DataMasker_walk float_repr rules v) =
  DataMasker_walk float_repr rules v.
Proof.
  intros Hall. induction v as [ |b|z|q|s|l IH|d IH] using pyval_nested; try done; simpl; f_equal; rewrite map_map.
  - by apply map_ext_Forall.
  - apply map_ext_Forall. eapply Forall_impl; [exact IH|]. intros [k v] Hv. simpl in *. f_equal.
    destruct (first_rule rules k) as [r|] eqn:E; [|exact Hv]. apply find_some in E as [Hr _].
    rewrite Forall_forall in Hall. specialize (Hall r (proj2 (list_elem_of_In _ _) Hr)).
    unfold strategy_fn. by rewrite Hall.
Qed.

End MaskLemmas.

Section RedactLemmas.
Context (fields : gset string) (on_text : string → string) (mark : string).

Fixpoint blank_fields (v : pyval) : pyval :=
  match v with
  | VDict d => VDict (map (λ e, (fst e, if is_sensitive fields (fst e) then VNone else blank_fields (snd e))) d)
  | v => v
  end.

Lemma redact_blank v : redact_value fields on_text mark (blank_fields v) = redact_value fields on_text mark v.
Proof.
  induction v as [ |b|z|q|s|l IH|d IH] using pyval_nested; try done. simpl. f_equal. rewrite map_map.
  apply map_ext_Forall. eapply Forall_impl; [exact IH|]. intros [k v] Hv. simpl in *. f_equal.
  by destruct (is_sensitive fields k).
Qed.

End RedactLemmas.

Lemma stars_length n : String.length (stars n) = n.
Proof. induction n as [|n IH]; [done|]. simpl. by rewrite IH. Qed.

Lemma get_stars n i : (i < n)%nat → String.get i (stars n) = Some "*"%char.
Proof. revert i. induction n as [|n IH]; intros [|i] Hi; [lia | lia | done |]. simpl. apply IH. lia. Qed.

Lemma get_append_l a b i : (i < String.length a)%nat → String.get i (a +:+ b) = String.get i a.
Proof. revert i. induction a as [|c a IH]; intros [|i] Hi; simpl in *; [lia..|done|]. apply IH. lia. Qed.

Lemma get_append_r a b i : String.get (String.length a + i) (a +:+ b) = String.get i b.
Proof. induction a as [|c a IH]; [done | exact IH]. Qed.

Lemma substring_length n m s : (n + m <= String.length s)%nat → String.length (String.substring n m s) = m.
Proof.
  revert n m. induction s as [|c s IH]; intros [|n] [|m] Hle; simpl in *; try lia; try done.
  - rewrite (IH 0%nat m) by lia. done.
  - apply (IH n 0%nat). lia.
  - apply (IH n (S m)). lia.
Qed.

(** ** Theorems *)

(** C30: masking does what the rules say, and what is redacted is gone.  At every depth, through dictionaries
    and lists, the keys stay in order; a value whose key is matched by the pattern of a
    rule ([*], [?], [[...]] as documented) is replaced by what the first such rule makes of it, any other is masked itself.
    Two documents that differ only in values under keys that a redacting rule
    applies to are masked to the same document.  With redacting rules only, masking again changes nothing. *)
Theorem mask_noninterference float_repr rules v1 v2 :
  alike rules v1 v2 →
  DataMasker_mask float_repr v1 rules = DataMasker_mask float_repr v2 rules ∧
  masked (strategy_fn float_repr) rules v1 (DataMasker_mask float_repr v1 rules) ∧
  (Forall (λ r, strategy r = MaskRedact) rules →
   DataMasker_mask float_repr (DataMasker_mask float_repr v1 rules) rules =
   DataMasker_mask float_repr v1 rules).
Proof.
  intros Heq. split_and!; [by apply walk_alike | apply walk_masked | apply walk_idempotent].
Qed.

(** partial masking shows at most the first [start] and the last [stop] characters: the
    length stays, every other character is a star, and a text that is not longer than what
    would be shown is all stars. *)
Theorem partial_reveals start stop s :
  String.length (partial_text start stop s) = String.length s ∧
  (∀ i, (i < String.length s)%nat →
    (String.length s <= start + stop ∨ start <= i < String.length s - stop)%nat →
    String.get i (partial_text start stop s) = Some "*"%char).
Proof.
  unfold partial_text. destruct (Nat.leb_spec (String.length s) (start + stop)) as [Hle|Hgt].
  - split; [apply stars_length|]. intros i Hi _. by apply get_stars.
  - set (tail := if Nat.eqb stop 0 then "" else _).
    assert (String.length tail = stop) as Htail.
    { subst tail. destruct (Nat.eqb_spec stop 0) as [->|]; [done|]. apply substring_length. lia. }
    assert (String.length (String.substring 0 start s) = start) as Hpre by (apply substring_length; lia).
    split; [rewrite !length_app_str, stars_length, Htail, Hpre; lia|].
    intros i Hi [H|H]; [lia|]. replace i with (String.length (String.substring 0 start s) + (i - start))%nat by lia.
    rewrite get_append_r, get_append_l by (rewrite stars_length; lia). apply get_stars. lia.
Qed.

(** the values of sensitive fields do not survive redaction, by [RegexPIIRedactor] or by
    [SensitiveFieldsFilter.redact_deep], in dictionaries nested to any depth: documents that
    differ only in such values are redacted alike. *)
Theorem redaction_noninterference fields patterns d1 d2 :
  blank_fields fields (VDict d1) = blank_fields fields (VDict d2) →
  RegexPIIRedactor_redact fields patterns d1 = RegexPIIRedactor_redact fields patterns d2 ∧
  SensitiveFieldsFilter_redact_deep fields d1 = SensitiveFieldsFilter_redact_deep fields d2.
Proof.
  intros Heq. unfold RegexPIIRedactor_redact, SensitiveFieldsFilter_redact_deep.
  split; by rewrite <- (redact_blank _ _ _ (VDict d1)), <- (redact_blank _ _ _ (VDict d2)), Heq.
Qed.

(** a list is a way around redaction: dictionaries inside lists are logged as they are,
    whatever fields they have. *)
Theorem redaction_misses_lists fields patterns k (l : list pyval) :
  is_sensitive fields k = false →
  RegexPIIRedactor_redact fields patterns [(k, VList l)] = VDict [(k, VList l)] ∧
  SensitiveFieldsFilter_redact_deep fields [(k, VList l)] = VDict [(k, VList l)].
Proof.
  intros Hk. unfold RegexPIIRedactor_redact, SensitiveFieldsFilter_redact_deep. simpl. by rewrite Hk.
Qed.

(** ** Witnesses *)

Definition demo_rules : list MaskingRule := [mkRule "*password*" MaskRedact "" 2 2; mkRule "card" MaskPartial "" 0 4].
Definition demo_doc (pw : string) : pyval :=
  VDict [("user", VList [VDict [("db_password", VStr pw); ("name", VStr "ann")]]); ("card", VStr "4111111111111111")].

Example mask_demo :
  DataMasker_mask (λ _, "") (demo_doc "hunter2") demo_rules =
  VDict [("user", VList [VDict [("db_password", VStr "***"); ("name", VStr "ann")]]); ("card", VStr "************1111")].
Proof. reflexivity. Qed.

Example fnmatch_demo :
  (λ p, fnmatch "user_id2" p) <$> ["user_*"; "*[0-9]"; "*[!0-9]"; "????_id[2]"; "user"; "[!u]*"] =
  [true; true; false; true; false; false].
Proof. reflexivity. Qed.

Lemma demo_alike pw1 pw2 : alike demo_rules (demo_doc pw1) (demo_doc pw2).
Proof.
  assert (Hpw : first_matching demo_rules "db_password" (mkRule "*password*" MaskRedact "" 2 2)).
  { exists [], [mkRule "card" MaskPartial "" 0 4]. split_and!; [done | by apply fnmatch_globs | constructor]. }
  assert (Hcard : first_matching demo_rules "card" (mkRule "card" MaskPartial "" 0 4)).
  { exists [mkRule "*password*" MaskRedact "" 2 2], []. split_and!; [done | by apply fnmatch_globs |].
    repeat constructor. intros H%fnmatch_globs. done. }
  assert (Hno : ∀ k, first_rule demo_rules k = None → unmatched demo_rules k).
  { intros k Hk. destruct (first_rule_cases demo_rules k) as [(r & Hr & _)|[_ Hu]]; [congruence | done]. }
  apply alike_dict. constructor; [split; [done|]; right; split; [by apply Hno|] |constructor; [|constructor]].
  - apply alike_list. constructor; [|constructor]. apply alike_dict. constructor; [|constructor; [|constructor]].
    + split; [done|]. left. exists (mkRule "*password*" MaskRedact "" 2 2). split; [exact Hpw | by left].
    + split; [done|]. right. split; [by apply Hno | by apply alike_other].
  - split; [done|]. left. exists (mkRule "card" MaskPartial "" 0 4). split; [exact Hcard | by right].
Qed.

Lemma mask_noninterference_witness :
  DataMasker_mask (λ _, "") (demo_doc "hunter2") demo_rules = DataMasker_mask (λ _, "") (demo_doc "s3cret") demo_rules.
Proof.
  destruct (mask_noninterference (λ _, "") demo_rules (demo_doc "hunter2") (demo_doc "s3cret")) as (H & _).
  - apply demo_alike.
  - exact H.
Defined.

Lemma redaction_noninterference_witness :
  RegexPIIRedactor_redact DEFAULT_SENSITIVE_FIELDS [] [("auth", VDict [("Token", VStr "a")])] =
  RegexPIIRedactor_redact DEFAULT_SENSITIVE_FIELDS [] [("auth", VDict [("Token", VStr "b")])].
Proof.
  destruct (redaction_noninterference DEFAULT_SENSITIVE_FIELDS [] [("auth", VDict [("Token", VStr "a")])]
    [("auth", VDict [("Token", VStr "b")])]) as [H _].
  - reflexivity.
  - exact H.
Defined.

Lemma redaction_misses_lists_witness :
  SensitiveFieldsFilter_redact_deep (SensitiveFieldsFilter_init None) [("users", VList [VDict [("password", VStr "p")]])] =
  VDict [("users", VList [VDict [("password", VStr "p")]])].
Proof.
  destruct (redaction_misses_lists (SensitiveFieldsFilter_init None) [] "users" [VDict [("password", VStr "p")]]) as [_ H].
  - reflexivity.
  - exact H.
Defined.
