(* ===== verification/LogTools.v ===== *)
(** * Logging and structured events

    [observability/logging/async_handler.py], [sampled.py], [processors.py], [audit.py] and
    [observability/events/emitter.py].  The asynchronous handler is a state machine: callers
    enqueue records while a task drains the queue. *)
From S2P Require Import Prelude PyString OrderedDict PyValue ValueObjects Observability Masking.

(** ** The asynchronous handler ([async_handler.py]) *)

Section AsyncHandler.
Context {R : Type}.

(** The queue with its count of unfinished items; [_task] is [None] before [start] and then
    runs or has ended; [al_out] is what the delegate has emitted. *)
Inductive TaskState := NotStarted | Running | Ended.

Record AsyncLogHandler := mkHandler {
  al_maxsize : Z;
  al_queue : list (option R);
  al_unfinished : Z;
  al_started : bool;
  al_task : TaskState;
  al_out : list R;
}.
Implicit Types (h : AsyncLogHandler).

Definition AsyncLogHandler_init (maxsize : Z) : AsyncLogHandler := mkHandler maxsize [] 0 false NotStarted [].

(** [Queue.put_nowait]: [None] is [QueueFull]. *)
Definition put_nowait (x : option R) h : option AsyncLogHandler :=
  if (0 <? al_maxsize h)%Z && (al_maxsize h <=? Z.of_nat (length (al_queue h)))%Z then None
  else Some (mkHandler (al_maxsize h) (al_queue h ++ [x]) (al_unfinished h + 1) (al_started h) (al_task h) (al_out h)).

Definition AsyncLogHandler_emit (record : R) h : AsyncLogHandler := default h (put_nowait (Some record) h).
Definition AsyncLogHandler_close h : AsyncLogHandler := default h (put_nowait None h).

Definition AsyncLogHandler_start h : AsyncLogHandler :=
  if al_started h then h
  else mkHandler (al_maxsize h) (al_queue h) (al_unfinished h) true Running (al_out h).

(** One round of [_drain]: [delegate] says whether [emit] raises. *)
Definition AsyncLogHandler_drain_round (delegate : R → bool) h : AsyncLogHandler :=
  match al_task h, al_queue h with
  | Running, None :: q =>
      mkHandler (al_maxsize h) q (al_unfinished h - 1) (al_started h) Ended (al_out h)
  | Running, Some r :: q =>
      if delegate r
      then mkHandler (al_maxsize h) q (al_unfinished h - 1) (al_started h) Running (al_out h ++ [r])
      else mkHandler (al_maxsize h) q (al_unfinished h - 1) (al_started h) Ended (al_out h)
  | _, _ => h
  end.

(** The loop of [drain_sync].  An exception of the delegate leaves the rest queued, and the
    record it was raised for is not marked done. *)
Fixpoint drain_all (delegate : R → bool) (q : list (option R)) (unfinished : Z) (out : list R)
    : list (option R) * (Z * list R) :=
  match q with
  | [] => ([], (unfinished, out))
  | Some r :: q' => if delegate r then drain_all delegate q' (unfinished - 1) (out ++ [r]) else (q', (unfinished, out))
  | None :: q' => drain_all delegate q' (unfinished - 1) out
  end.

Definition AsyncLogHandler_drain_sync (delegate : R → bool) h : AsyncLogHandler :=
  let '(q, (unfinished, out)) := drain_all delegate (al_queue h) (al_unfinished h) (al_out h) in
  mkHandler (al_maxsize h) q unfinished (al_started h) (al_task h) out.

(** [self._task.cancel()] of [stop]: the task is cancelled while it waits for a record, and has taken none. *)
Definition AsyncLogHandler_cancel h : AsyncLogHandler :=
  match al_task h with
  | Running => mkHandler (al_maxsize h) (al_queue h) (al_unfinished h) (al_started h) Ended (al_out h)
  | _ => h
  end.

(** What can happen to a handler, [stop] being a [close] and a cancellation; [accepted] grows with each record the queue takes. *)
Inductive handler_step (delegate : R → bool) : AsyncLogHandler * list R → AsyncLogHandler * list R → Prop :=
| step_emit h acc r h' : put_nowait (Some r) h = Some h' → handler_step delegate (h, acc) (AsyncLogHandler_emit r h, acc ++ [r])
| step_drop h acc r : put_nowait (Some r) h = None → handler_step delegate (h, acc) (AsyncLogHandler_emit r h, acc)
| step_start h acc : handler_step delegate (h, acc) (AsyncLogHandler_start h, acc)
| step_close h acc : handler_step delegate (h, acc) (AsyncLogHandler_close h, acc)
| step_drain h acc : handler_step delegate (h, acc) (AsyncLogHandler_drain_round delegate h, acc)
| step_cancel h acc : handler_step delegate (h, acc) (AsyncLogHandler_cancel h, acc)
| step_sync h acc : handler_step delegate (h, acc) (AsyncLogHandler_drain_sync delegate h, acc).

(** [await self._queue.join()] goes on when nothing is unfinished. *)
Definition join_returns h : bool := (al_unfinished h =? 0)%Z.

End AsyncHandler.
Arguments AsyncLogHandler : clear implicits.

(** ** Sampling ([sampled.py]) *)

Record SampledLogger := mkSampled {
  sl_rates : list (string * Z);
  sl_default_rate : Z;
  sl_counters : gmap string Z;
}.

Definition SampledLogger_init (sample_rates : list (string * Z)) (default_rate : Z) : SampledLogger :=
  mkSampled (fold_left (λ d e, od_set (upper (fst e)) (snd e) d) sample_rates []) (Z.max 1 default_rate) ∅.

Definition sample_rate (l : SampledLogger) (level : string) : Z :=
  default (sl_default_rate l) (od_get (upper level) (sl_rates l)).

Definition SampledLogger_should_emit (level : string) : PyM SampledLogger bool := λ l,
  let rate := sample_rate l level in
  if (rate <=? 1)%Z then (Return true, l)
  else
    let n := (default 0 (sl_counters l !! level) + 1)%Z in
    (Return (n mod rate =? 1)%Z, mkSampled (sl_rates l) (sl_default_rate l) (<[level := n]> (sl_counters l))).

(** [_delegate], over the calls made of the wrapped logger; every level has its method. *)
Definition SampledLogger_delegate {E} (level : string) (event : E) : PyM (SampledLogger * list (string * E)) unit :=
  emit ← on_fst (SampledLogger_should_emit level);
  if (emit : bool) then on_snd (updates (λ log, log ++ [(lower level, event)])) else mret tt.

(** [bind]: the counters of the new logger start afresh. *)
Definition SampledLogger_bind (l : SampledLogger) : SampledLogger := SampledLogger_init (sl_rates l) (sl_default_rate l).

Definition SampledLogger_reset_counters (l : SampledLogger) : SampledLogger := mkSampled (sl_rates l) (sl_default_rate l) ∅.

(** ** Processors ([processors.py]) *)

(** [d.setdefault(k, v)]. *)
Definition put_default (k : string) (v : pyval) (d : list (string * pyval)) : list (string * pyval) :=
  match od_get k d with Some _ => d | None => od_set k v d end.

Definition put_optional (k : string) (o : option string) (d : list (string * pyval)) : list (string * pyval) :=
  match o with Some s => put_default k (VStr s) d | None => d end.

Definition CorrelationProcessor_call (ctx : option RequestContext) (event_dict : list (string * pyval))
    : list (string * pyval) :=
  match ctx with
  | None => event_dict
  | Some c =>
      put_optional "trace_id" (rc_trace_id c)
        (put_optional "user_id" (rc_user_id c)
          (put_optional "tenant_id" (rc_tenant_id c)
            (put_default "correlation_id" (VStr (rc_correlation_id c)) event_dict)))
  end.

(** ** The audit logger ([audit.py]) *)

(** A line of the log: an event with fields, or a formatted message. *)
Inductive audit_line :=
| Structured (event : string) (fields : list (string * pyval))
| Formatted (event msg : string).

(** The wrapped logger takes keyword fields (structlog) or refuses them (the standard one). *)
Inductive audit_sink := StructlogSink | StdlibSink.

Section Audit.
Context (float_repr : Q → string) (structlog_installed : bool) (sink : audit_sink) (service : string).

(** [" ".join(f"{k}={v!r}" ...)]. *)
Definition key_values (d : list (string * pyval)) : string :=
  join " " (map (λ e, fst e +:+ "=" +:+ repr float_repr (snd e)) d).

(** [entry.pop("event", "audit")]. *)
Definition pop_event (entry : list (string * pyval)) : string * list (string * pyval) :=
  (match od_get "event" entry with Some v => doc_str float_repr v | None => "audit" end, od_del "event" entry).

(** [_emit]: the entry is a shared dictionary, so the handler's [pop] sees the first one. *)
Definition AuditLogger_emit (entry : list (string * pyval)) : PyM (list audit_line) unit :=
  let fallback (entry : list (string * pyval)) :=
    let '(event, rest) := pop_event entry in
    updates (λ log, log ++ [Formatted event (key_values rest)]) in
  if structlog_installed then
    let '(event, rest) := pop_event entry in
    match sink with
    | StructlogSink => updates (λ log, log ++ [Structured event rest])
    | StdlibSink => fallback rest
    end
  else fallback entry.

(** [{**base, **extra}]. *)
Definition merged (base extra : list (string * pyval)) : list (string * pyval) :=
  fold_left (λ d e, od_set (fst e) (snd e) d) extra base.

(** [now] is the time of the call as text; [principal_id] is [principal.id] or its text. *)
Definition AuditLogger_log_access (now principal_id resource action outcome : string) (extra : list (string * pyval))
    : PyM (list audit_line) unit :=
  AuditLogger_emit (merged
    [("event", VStr "audit.access"); ("service", VStr service); ("principal_id", VStr principal_id);
     ("resource", VStr resource); ("action", VStr action); ("outcome", VStr outcome); ("timestamp", VStr now)] extra).

Definition AuditLogger_log_security_event (now event_type : string) (principal_id : option string) (description : string)
    (extra : list (string * pyval)) : PyM (list audit_line) unit :=
  let entry := merged
    [("event", VStr ("audit." +:+ event_type)); ("service", VStr service); ("event_type", VStr event_type);
     ("description", VStr description); ("timestamp", VStr now)] extra in
  AuditLogger_emit (match principal_id with Some p => od_set "principal_id" (VStr p) entry | None => entry end).

End Audit.

(** ** Structured events ([emitter.py]) *)

Inductive event_time := TimeOf (t : Z) | RawTime (v : pyval).

Record StructuredEvent := mkEvent {
  sv_name : pyval;
  sv_service : pyval;
  sv_timestamp : event_time;
  sv_trace_id : pyval;
  sv_duration_ms : pyval;
  sv_fields : list (string * pyval);
  sv_schema_version : Z;
}.

Definition CURRENT_SCHEMA_VERSION : Z := 1.
Definition reserved_keys : list string := ["schema_version"; "name"; "service"; "timestamp"; "trace_id"; "duration_ms"].

Definition SchemaVersionError (version : Z) : pyexn :=
  exn_of ["SchemaVersionError"; "ValueError"]
    ("Cannot deserialize StructuredEvent with schema_version=" +:+ str_of_int version +:+
     "; this library only supports up to version " +:+ str_of_int CURRENT_SCHEMA_VERSION +:+
     ". Upgrade mp-commons to process this event.").

Section Events.
(** [datetime.isoformat] and [datetime.fromisoformat]; [int(v)] of a document's value. *)
Context (isoformat : Z → string) (fromisoformat : string → outcome Z) (int_of : pyval → outcome Z).

Definition StructuredEvent_to_dict (e : StructuredEvent) : list (string * pyval) :=
  merged
    [("schema_version", VInt (sv_schema_version e)); ("name", sv_name e); ("service", sv_service e);
     ("timestamp", match sv_timestamp e with TimeOf t => VStr (isoformat t) | RawTime v => v end);
     ("trace_id", sv_trace_id e); ("duration_ms", sv_duration_ms e)] (sv_fields e).

Definition timestamp_of (now : Z) (raw : option pyval) : outcome event_time :=
  match raw with
  | Some (VStr s) => match fromisoformat s with Return t => Return (TimeOf t) | Raise e => Raise e end
  | Some v => Return (if truthy v then RawTime v else TimeOf now)
  | None => Return (TimeOf now)
  end.

Definition required (k : string) (d : list (string * pyval)) : outcome pyval :=
  match od_get k d with Some v => Return v | None => Raise (KeyError (py_repr k)) end.

Definition StructuredEvent_from_dict (now : Z) (data : list (string * pyval)) : outcome StructuredEvent :=
  match int_of (default (VInt 1) (od_get "schema_version" data)) with
  | Raise e => Raise e
  | Return version =>
      if (CURRENT_SCHEMA_VERSION <? version)%Z then Raise (SchemaVersionError version)
      else
        match timestamp_of now (od_get "timestamp" data) with
        | Raise e => Raise e
        | Return timestamp =>
            match required "name" data with
            | Raise e => Raise e
            | Return name =>
                match required "service" data with
                | Raise e => Raise e
                | Return service =>
                    Return (mkEvent name service timestamp (default VNone (od_get "trace_id" data))
                      (default VNone (od_get "duration_ms" data))
                      (List.filter (λ e, negb (str_in (fst e) reserved_keys)) data) version)
                end
            end
        end
  end.

End Events.

(** The emitter's buffer. *)
Definition EventEmitter_emit (event : StructuredEvent) : PyM (list StructuredEvent) unit := updates (λ b, b ++ [event]).
Definition EventEmitter_flush : PyM (list StructuredEvent) Z := λ b, (Return (Z.of_nat (length b)), []).
Definition EventEmitter_buffered (b : list StructuredEvent) : list StructuredEvent := b.

(** [instrument]: the wrapper of [fn]; the clock is in seconds. *)
Definition instrument {W A} (monotonic : PyM W Q) (utcnow : PyM W Z) (event_name service : string) (fn : PyM W A)
    : PyM (list StructuredEvent * W) A :=
  start ← on_snd monotonic;
  try_finally (on_snd fn)
    (stop ← on_snd monotonic;
     now ← on_snd utcnow;
     on_fst (EventEmitter_emit (mkEvent (VStr event_name) (VStr service) (TimeOf now) VNone
       (VFloat ((stop - start) * 1000)) [] CURRENT_SCHEMA_VERSION))).

(** ** Lemmas: the asynchronous handler *)

Section AsyncLemmas.
Context {R : Type} (delegate : R → bool).
Implicit Types (h : AsyncLogHandler R) (acc : list R).

Definition queued h : list R := omap id (al_queue h).

(** The delegate's output and the queue, in this order, are the accepted records less those
    it refused; what is queued is unfinished; the queue keeps its bound. *)
Definition log_inv (s : AsyncLogHandler R * list R) : Prop :=
  let '(h, acc) := s in
  al_out h ++ List.filter delegate (queued h) = List.filter delegate acc ∧
  (Z.of_nat (length (al_queue h)) <= al_unfinished h)%Z ∧
  ((0 < al_maxsize h)%Z → (Z.of_nat (length (al_queue h)) <= al_maxsize h)%Z).

Lemma put_nowait_spec x h h' :
  put_nowait x h = Some h' →
  al_queue h' = al_queue h ++ [x] ∧ al_unfinished h' = (al_unfinished h + 1)%Z ∧ al_out h' = al_out h ∧
  al_maxsize h' = al_maxsize h ∧ al_started h' = al_started h ∧ al_task h' = al_task h ∧
  ((0 < al_maxsize h)%Z → (Z.of_nat (length (al_queue h)) < al_maxsize h)%Z).
Proof.
  unfold put_nowait. destruct (andb _ _) eqn:E; [done|]. intros [= <-]. simpl. split_and!; try done.
  intros Hm. apply andb_false_iff in E as [E|E]; [apply Z.ltb_ge in E; lia | apply Z.leb_gt in E; lia].
Qed.

Lemma put_keeps_inv x h h' acc :
  log_inv (h, acc) → put_nowait x h = Some h' → log_inv (h', acc ++ from_option (λ r, [r]) [] x).
Proof.
  intros (Hout & Hun & Hcap) Hput. destruct (put_nowait_spec _ _ _ Hput) as (Hq & Hu & Ho & Hm & _ & _ & Hlt).
  unfold log_inv, queued in *. rewrite Hq, Hu, Ho, Hm, omap_app, length_app. simpl length. split_and!.
  - rewrite !List.filter_app, app_assoc, Hout. by destruct x.
  - lia.
  - intros H. specialize (Hlt H). lia.
Qed.

Lemma drain_all_spec q n out :
  let '(q', (n', out')) := drain_all delegate q n out in
  out' ++ List.filter delegate (omap id q') = out ++ List.filter delegate (omap id q) ∧
  (Z.of_nat (length q') - n' <= Z.of_nat (length q) - n)%Z ∧ (length q' <= length q)%nat.
Proof.
  revert n out. induction q as [|[r|] q IH]; intros n out; cbn [drain_all]; [done| |].
  - destruct (delegate r) eqn:Er; simpl; rewrite Er.
    + specialize (IH (n - 1)%Z (out ++ [r])). destruct (drain_all _ _ _ _) as [q' [n' out']].
      destruct IH as (-> & Hn & Hl). rewrite <- app_assoc. split_and!; [done | lia | lia].
    + split_and!; [done | lia | lia].
  - specialize (IH (n - 1)%Z out). destruct (drain_all _ _ _ _) as [q' [n' out']].
    destruct IH as (-> & Hn & Hl). simpl. split_and!; [done | lia | lia].
Qed.

Lemma handler_step_inv s s' : handler_step delegate s s' → log_inv s → log_inv s'.
Proof.
  intros Hstep Hinv. destruct Hstep as [h acc r h' Hput|h acc r Hput|h acc|h acc|h acc|h acc|h acc].
  - unfold AsyncLogHandler_emit. rewrite Hput. by apply (put_keeps_inv (Some r) h).
  - unfold AsyncLogHandler_emit. by rewrite Hput.
  - unfold AsyncLogHandler_start. by destruct (al_started h).
  - unfold AsyncLogHandler_close. destruct (put_nowait None h) as [h'|] eqn:Hput; [|done].
    pose proof (put_keeps_inv None h h' acc Hinv Hput) as H. simpl in H. by rewrite app_nil_r in H.
  - unfold AsyncLogHandler_drain_round. destruct (al_task h); try done.
    destruct Hinv as (Hout & Hun & Hcap). unfold queued in *.
    destruct (al_queue h) as [|[r|] q] eqn:Hq; [unfold log_inv, queued; by rewrite Hq| |].
    + simpl in Hout, Hun, Hcap. destruct (delegate r) eqn:Er; unfold log_inv, queued; simpl; split_and!; try lia.
      * by rewrite <- app_assoc.
      * done.
    + simpl in Hout, Hun, Hcap. unfold log_inv, queued. simpl. split_and!; [done | lia | lia].
  - unfold AsyncLogHandler_cancel. by destruct (al_task h).
  - destruct Hinv as (Hout & Hun & Hcap). unfold AsyncLogHandler_drain_sync.
    pose proof (drain_all_spec (al_queue h) (al_unfinished h) (al_out h)) as Hspec.
    destruct (drain_all _ _ _ _) as [q [n out]]. destruct Hspec as (Ho & Hn & Hl).
    unfold log_inv, queued in *. simpl. rewrite Ho. split_and!; [done | lia | lia].
Qed.

Lemma log_reachable_inv m s : rtc (handler_step delegate) (AsyncLogHandler_init m, []) s → log_inv s.
Proof.
  intros Hrtc. assert (log_inv (AsyncLogHandler_init m, [])) as H0
    by (unfold log_inv, queued; simpl; split_and!; [done | done | lia]).
  revert H0. induction Hrtc as [s|s1 s2 s3 Hs _ IH]; [done|]. intros H1. apply IH. by apply (handler_step_inv s1).
Qed.

(** What callers and the event loop do. *)
Inductive log_op := OpEmit (r : R) | OpStart | OpClose | OpRound.

Definition run_op (h : AsyncLogHandler R) (op : log_op) : AsyncLogHandler R :=
  match op with
  | OpEmit r => AsyncLogHandler_emit r h
  | OpStart => AsyncLogHandler_start h
  | OpClose => AsyncLogHandler_close h
  | OpRound => AsyncLogHandler_drain_round delegate h
  end.

Lemma run_op_dead h op :
  al_started h = true → al_task h = Ended →
  al_started (run_op h op) = true ∧ al_task (run_op h op) = Ended ∧ al_out (run_op h op) = al_out h.
Proof.
  intros Hs Ht. destruct op as [r| | |]; simpl.
  - unfold AsyncLogHandler_emit. destruct (put_nowait _ h) as [h'|] eqn:E; [|done].
    simpl. apply put_nowait_spec in E as (_ & _ & -> & _ & -> & -> & _). done.
  - unfold AsyncLogHandler_start. by rewrite Hs.
  - unfold AsyncLogHandler_close. destruct (put_nowait _ h) as [h'|] eqn:E; [|done].
    simpl. apply put_nowait_spec in E as (_ & _ & -> & _ & -> & -> & _). done.
  - unfold AsyncLogHandler_drain_round. by rewrite Ht.
Qed.

End AsyncLemmas.

(** ** Lemmas: sampling *)

Definition calls_at (L : string) (calls : list string) : Z := Z.of_nat (length (filter (λ l, l = L) calls)).

(** One call in [rate], the first of each group. *)
Definition sampled_count (rate n : Z) : Z := if (rate <=? 1)%Z then n else ((n + rate - 1) / rate)%Z.

Lemma sampled_step rate n :
  (1 < rate)%Z → (0 <= n)%Z →
  ((n + 1 + rate - 1) / rate = (n + rate - 1) / rate + (if (n + 1) mod rate =? 1 then 1 else 0))%Z.
Proof.
  intros Hr Hn. pose proof (Z.div_mod n rate ltac:(lia)) as Hdm. pose proof (Z.mod_pos_bound n rate ltac:(lia)) as Hb.
  set (q := (n / rate)%Z) in *. set (m := (n mod rate)%Z) in *.
  replace (n + 1 + rate - 1)%Z with (m + (q + 1) * rate)%Z by lia. rewrite Z.div_add, (Z.div_small m) by lia.
  destruct (Z.eq_dec m 0) as [Hm|Hm].
  - replace ((n + 1) mod rate)%Z with 1%Z.
    2:{ replace (n + 1)%Z with (1 + q * rate)%Z by lia. rewrite Z.mod_add by lia. symmetry. apply Z.mod_small. lia. }
    replace (n + rate - 1)%Z with ((rate - 1) + q * rate)%Z by lia. rewrite Z.div_add, (Z.div_small (rate - 1)) by lia.
    simpl. lia.
  - replace (n + rate - 1)%Z with ((m - 1) + (q + 1) * rate)%Z by lia. rewrite Z.div_add, (Z.div_small (m - 1)) by lia.
    assert ((n + 1) mod rate ≠ 1)%Z as Hne.
    { replace (n + 1)%Z with ((m + 1) + q * rate)%Z by lia. rewrite Z.mod_add by lia.
      destruct (Z.eq_dec (m + 1) rate) as [->|]; [rewrite Z.mod_same by lia; lia|]. rewrite Z.mod_small by lia. lia. }
    rewrite (proj2 (Z.eqb_neq _ _) Hne). lia.
Qed.

Section SamplingLemmas.
Context (l0 : SampledLogger).

Definition sampling_inv (done_calls : list string) (s : SampledLogger * list (string * string)) : Prop :=
  let '(l, log) := s in
  sl_rates l = sl_rates l0 ∧ sl_default_rate l = sl_default_rate l0 ∧
  ∀ L, ((1 < sample_rate l0 L)%Z → default 0%Z (sl_counters l !! L) = calls_at L done_calls) ∧
    Z.of_nat (length (filter (λ e, e.1 = L) log)) = sampled_count (sample_rate l0 L) (calls_at L done_calls).

Lemma calls_at_snoc L calls l : calls_at L (calls ++ [l]) = (calls_at L calls + if decide (l = L) then 1 else 0)%Z.
Proof.
  unfold calls_at. rewrite filter_app, length_app, filter_cons, filter_nil. case_decide; simpl; lia.
Qed.

Lemma sampling_step calls level event s :
  lower level = level → sampling_inv calls s →
  sampling_inv (calls ++ [level]) (snd (SampledLogger_delegate level event s)).
Proof.
  destruct s as [l log]. intros Hlow (Hr & Hd & Hinv).
  assert (sample_rate l level = sample_rate l0 level) as Hrate by (unfold sample_rate; by rewrite Hr, Hd).
  unfold SampledLogger_delegate, mbind, PyM_bind, on_fst, SampledLogger_should_emit. cbv zeta. cbn [fst snd]. rewrite Hrate, Hlow.
  destruct (Z.leb_spec (sample_rate l0 level) 1) as [Hle|Hgt]; simpl.
  - split_and!; [done..|]. intros L. destruct (Hinv L) as [Hc Hn]. rewrite calls_at_snoc. split.
    + intros HL. rewrite decide_False, Z.add_0_r by (intros ->; lia). by apply Hc.
    + rewrite filter_app, length_app, filter_cons, filter_nil. simpl. unfold sampled_count in *.
      case_decide as HL; simpl; [subst L; rewrite (proj2 (Z.leb_le _ _) Hle) in *; lia|]. rewrite Z.add_0_r. lia.
  - pose proof (proj1 (Hinv level) Hgt) as Hcount. rewrite Hcount.
    assert (0 <= calls_at level calls)%Z as Hpos by (unfold calls_at; lia).
    pose proof (sampled_step (sample_rate l0 level) (calls_at level calls) Hgt Hpos) as Hstep.
    assert (∀ L, (1 < sample_rate l0 L)%Z →
      default 0%Z (<[level := (calls_at level calls + 1)%Z]> (sl_counters l) !! L) = calls_at L (calls ++ [level])) as Hcnt.
    { intros L HL. rewrite calls_at_snoc. case_decide as Hcase.
      - subst L. by rewrite lookup_insert_eq.
      - rewrite lookup_insert_ne, Z.add_0_r by done. by apply Hinv. }
    assert (∀ L, L ≠ level → sampled_count (sample_rate l0 L) (calls_at L (calls ++ [level])) =
      sampled_count (sample_rate l0 L) (calls_at L calls)) as Hother.
    { intros L HL. by rewrite calls_at_snoc, decide_False, Z.add_0_r. }
    destruct ((calls_at level calls + 1) mod sample_rate l0 level =? 1)%Z eqn:E; simpl;
      (split_and!; [done..|]); intros L; (split; [apply Hcnt|]); destruct (decide (L = level)) as [->|HL].
    + rewrite filter_app, length_app, filter_cons, decide_True, filter_nil by done. simpl.
      rewrite calls_at_snoc, decide_True by done. destruct (Hinv level) as [_ Hn]. unfold sampled_count in *.
      rewrite (proj2 (Z.leb_gt _ _) Hgt) in *. lia.
    + rewrite filter_app, length_app, filter_cons, decide_False, filter_nil by done. rewrite Hother by done.
      simpl. destruct (Hinv L) as [_ Hn]. lia.
    + rewrite calls_at_snoc, decide_True by done. destruct (Hinv level) as [_ Hn]. unfold sampled_count in *.
      rewrite (proj2 (Z.leb_gt _ _) Hgt) in *. lia.
    + rewrite Hother by done. apply Hinv.
Qed.

Lemma sampling_run calls rest s :
  Forall (λ l, lower l = l) rest → sampling_inv calls s →
  ∃ s', for_each rest (λ l, SampledLogger_delegate l "event") s = (Return tt, s') ∧ sampling_inv (calls ++ rest) s'.
Proof.
  intros Hall. revert calls s. induction Hall as [|l rest Hl _ IH]; intros calls s Hs; cbn [for_each].
  { exists s. by rewrite app_nil_r. }
  pose proof (sampling_step calls l "event" s Hl Hs) as Hs'. unfold mbind, PyM_bind.
  destruct (SampledLogger_delegate l "event" s) as [o s1] eqn:E.
  assert (o = Return tt) as ->.
  { revert E. destruct s as [lg log]. unfold SampledLogger_delegate, mbind, PyM_bind, on_fst, SampledLogger_should_emit.
    cbv zeta. destruct (_ <=? 1)%Z; simpl; [by intros [= <- <-]|]. destruct (_ =? 1)%Z; simpl; by intros [= <- <-]. }
  simpl in Hs'. destruct (IH (calls ++ [l]) s1 Hs') as (s' & Hrun & Hinv). exists s'.
  split; [exact Hrun|]. by rewrite <- app_assoc in Hinv.
Qed.

End SamplingLemmas.

(** ** Theorems *)

(** C31: the asynchronous handler delivers.  In every state that emits, starts, closes, rounds
    of the drain task and synchronous drains can lead to, in any interleaving, what the
    delegate has written followed by what is queued is exactly what the queue accepted, in
    order and once each, less the records the delegate itself refused; a bounded queue never
    exceeds its bound; and when [join] returns, everything accepted has been handed over. *)
Theorem async_log_delivery {R} (delegate : R → bool) m h acc :
  rtc (handler_step delegate) (AsyncLogHandler_init m, []) (h, acc) →
  al_out h ++ List.filter delegate (queued h) = List.filter delegate acc ∧
  ((0 < al_maxsize h)%Z → (Z.of_nat (length (al_queue h)) <= al_maxsize h)%Z) ∧
  (join_returns h = true → al_out h = List.filter delegate acc).
Proof.
  intros (Hout & Hun & Hcap)%log_reachable_inv. split_and!; [done | done |].
  unfold join_returns. rewrite Z.eqb_eq. intros H0. rewrite <- Hout. unfold queued.
  destruct (al_queue h); [by rewrite app_nil_r | simpl in Hun; lia].
Qed.

(** a delegate that raises ends the handler for good: once the drain task has ended, no
    emit, [start], [close] or turn of the event loop delivers another record. *)
Theorem async_log_dies {R} (delegate : R → bool) h ops :
  al_started h = true → al_task h = Ended →
  al_out (foldl (run_op delegate) h ops) = al_out h.
Proof.
  revert h. induction ops as [|op ops IH]; intros h Hs Ht; [done|].
  destruct (run_op_dead delegate h op Hs Ht) as (Hs' & Ht' & Ho'). simpl. by rewrite IH.
Qed.

(** sampling is exact.  After any sequence of calls at any levels, a level with rate [n]
    has emitted one record for each started group of [n] of its own calls - the first of
    each group - and a level with rate one all of them, whatever the other levels did. *)
Theorem sampling_exact rates dflt calls L :
  Forall (λ l, lower l = l) calls →
  let l0 := SampledLogger_init rates dflt in
  ∃ l log, for_each calls (λ l, SampledLogger_delegate l "event") (l0, []) = (Return tt, (l, log)) ∧
    Z.of_nat (length (filter (λ e, e.1 = L) log)) = sampled_count (sample_rate l0 L) (calls_at L calls).
Proof.
  intros Hall l0. destruct (sampling_run l0 [] calls (l0, [])) as ([l log] & Hrun & _ & _ & Hinv); [done| |].
  - split_and!; [done..|]. intros L'. split; [done|]. unfold sampled_count, calls_at. simpl.
    destruct (Z.leb_spec (sample_rate l0 L') 1) as [|Hgt]; [done|]. symmetry. apply Z.div_small. lia.
  - exists l, log. split; [exact Hrun | apply Hinv].
Qed.

(** a bound logger samples anew: whatever its parent has counted, its first record at any
    level is emitted. *)
Theorem bind_resets_sampling l level : fst (SampledLogger_should_emit level (SampledLogger_bind l)) = Return true.
Proof.
  unfold SampledLogger_should_emit. destruct (Z.leb_spec (sample_rate (SampledLogger_bind l) level) 1) as [|Hgt]; [done|].
  cbn [SampledLogger_bind SampledLogger_init sl_counters]. rewrite lookup_empty. simpl.
  rewrite Z.mod_small by lia. done.
Qed.

(** the audit logger forgets the event's name when structlog is installed and the logger is
    the standard one: the line says "audit" where it would say "audit.access" without
    structlog. *)
Theorem audit_event_lost float_repr service now pid resource action outcome log :
  let rest := [("service", VStr service); ("principal_id", VStr pid); ("resource", VStr resource);
               ("action", VStr action); ("outcome", VStr outcome); ("timestamp", VStr now)] in
  AuditLogger_log_access float_repr true StdlibSink service now pid resource action outcome [] log =
    (Return tt, log ++ [Formatted "audit" (key_values float_repr rest)]) ∧
  AuditLogger_log_access float_repr false StdlibSink service now pid resource action outcome [] log =
    (Return tt, log ++ [Formatted "audit.access" (key_values float_repr rest)]) ∧
  AuditLogger_log_access float_repr true StructlogSink service now pid resource action outcome [] log =
    (Return tt, log ++ [Structured "audit.access" rest]).
Proof. split_and!; reflexivity. Qed.

Lemma od_set_app_fresh {V} (k : string) (v : V) (d1 d2 : list (string * V)) :
  k ∉ (d1 ++ d2).*1 → od_set k v (d1 ++ d2) = d1 ++ od_set k v d2.
Proof.
  induction d1 as [|[k' v'] d1 IH]; intros Hk; [done|]. simpl in *. apply not_elem_of_cons in Hk as [Hne Hk].
  rewrite decide_False by done. by rewrite IH.
Qed.

Lemma merged_fresh base extra : NoDup (base ++ extra).*1 → merged base extra = base ++ extra.
Proof.
  unfold merged. revert base. induction extra as [|[k v] extra IH]; intros base Hnd; [by rewrite app_nil_r|].
  simpl. rewrite od_set_keys_new.
  - rewrite IH by by rewrite <- app_assoc. by rewrite <- app_assoc.
  - rewrite fmap_app, NoDup_app in Hnd. destruct Hnd as (_ & Hd & _). intros Hin. apply (Hd k Hin). apply list_elem_of_here.
Qed.

(** a structured event survives being written as a dictionary and read back, provided its
    own fields are distinct and do not use the reserved names; and an event of a newer
    schema is refused, whatever else it holds. *)
Theorem structured_event_roundtrip isoformat fromisoformat int_of now e t :
  (∀ t, fromisoformat (isoformat t) = Return t) → (∀ n, int_of (VInt n) = Return n) →
  NoDup (sv_fields e).*1 → (∀ k, k ∈ (sv_fields e).*1 → str_in k reserved_keys = false) →
  sv_timestamp e = TimeOf t →
  StructuredEvent_from_dict fromisoformat int_of now (StructuredEvent_to_dict isoformat e) =
    if (CURRENT_SCHEMA_VERSION <? sv_schema_version e)%Z
    then Raise (SchemaVersionError (sv_schema_version e)) else Return e.
Proof.
  intros Hiso Hint Hnd Hres Ht. unfold StructuredEvent_to_dict. rewrite Ht, merged_fresh.
  - set (D := _ ++ sv_fields e).
    assert (od_get "schema_version" D = Some (VInt (sv_schema_version e)) ∧
            od_get "timestamp" D = Some (VStr (isoformat t)) ∧ od_get "name" D = Some (sv_name e) ∧
            od_get "service" D = Some (sv_service e) ∧ od_get "trace_id" D = Some (sv_trace_id e) ∧
            od_get "duration_ms" D = Some (sv_duration_ms e)) as (Hv & Hts & Hn & Hs & Htr & Hd) by by split_and!.
    unfold StructuredEvent_from_dict, required. rewrite Hv, Hts, Hn, Hs, Htr, Hd. cbn [from_option id timestamp_of]. rewrite Hint.
    destruct (CURRENT_SCHEMA_VERSION <? sv_schema_version e)%Z; [done|]. rewrite Hiso.
    assert (List.filter (λ e, negb (str_in (fst e) reserved_keys)) D = sv_fields e) as ->;
      [|by destruct e; simpl in *; subst].
    change (List.filter (λ e, negb (str_in (fst e) reserved_keys)) (sv_fields e) = sv_fields e).
    clear -Hres. induction (sv_fields e) as [|[k v] fs IH]; [done|]. cbn [List.filter fst].
    rewrite (Hres k) by (simpl; apply list_elem_of_here). simpl. f_equal. apply IH. intros k' Hk'. apply Hres. simpl.
    by apply list_elem_of_further.
  - rewrite fmap_app. apply NoDup_app. split_and!; [|intros k Hk Hin|done].
    + apply (bool_decide_unpack _). reflexivity.
    + specialize (Hres k Hin). cbn in Hk. unfold reserved_keys, str_in in Hres. apply not_true_iff_false in Hres.
      apply Hres, existsb_exists. exists k. split; [by apply list_elem_of_In | apply String.eqb_refl].
Qed.

(** [instrument] emits one event for each call, whether the function returns or raises,
    and passes its outcome through. *)
Theorem instrument_once {W A} (monotonic : PyM W Q) utcnow name service (fn : PyM W A) b w :
  (∀ w, ∃ t, monotonic w = (Return t, w)) → (∀ w, ∃ t, utcnow w = (Return t, w)) →
  let '(o, w') := fn w in
  ∃ e, instrument monotonic utcnow name service fn (b, w) = (o, (b ++ [e], w')) ∧
    sv_name e = VStr name ∧ sv_service e = VStr service ∧ sv_schema_version e = CURRENT_SCHEMA_VERSION.
Proof.
  intros Hm Hu. destruct (fn w) as [o w'] eqn:E. destruct (Hm w) as [t0 H0], (Hm w') as [t1 H1], (Hu w') as [t2 H2].
  unfold instrument, try_finally, mbind, PyM_bind, on_snd, on_fst. cbn [fst snd]. rewrite H0. cbn [fst snd]. rewrite E.
  destruct o as [a|e0]; cbn [fst snd]; rewrite H1; cbn [fst snd]; rewrite H2; cbn [fst snd]; by eexists.
Qed.

(** log events carry the request's context: each of the four keys has the event's own
    value if it has one, and otherwise the context's, if that is set; no other key changes. *)
Theorem correlation_processor_fields c d k :
  od_get k (CorrelationProcessor_call (Some c) d) =
    match od_get k d with
    | Some v => Some v
    | None =>
        if String.eqb k "correlation_id" then Some (VStr (rc_correlation_id c))
        else if String.eqb k "tenant_id" then VStr <$> rc_tenant_id c
        else if String.eqb k "user_id" then VStr <$> rc_user_id c
        else if String.eqb k "trace_id" then VStr <$> rc_trace_id c
        else None
    end.
Proof.
  assert (∀ k' v d, od_get k (put_default k' v d) =
    match od_get k d with Some v => Some v | None => if String.eqb k k' then Some v else None end) as Hput.
  { intros k' v d'. unfold put_default. destruct (String.eqb_spec k k') as [->|Hne].
    - destruct (od_get k' d') eqn:E; [by rewrite E | by rewrite od_get_set_eq].
    - destruct (od_get k' d') eqn:E; [by destruct (od_get k d')|]. rewrite od_get_set_ne by done. by destruct (od_get k d'). }
  assert (∀ k' o d, od_get k (put_optional k' o d) =
    match od_get k d with Some v => Some v | None => if String.eqb k k' then VStr <$> o else None end) as Hopt.
  { intros k' [s|] d'; simpl; [apply Hput|]. destruct (od_get k d'); [done|]. by destruct (String.eqb k k'). }
  simpl. rewrite !Hopt, Hput. destruct (od_get k d); [done|].
  destruct (String.eqb_spec k "correlation_id") as [->|]; [done|].
  destruct (String.eqb_spec k "tenant_id") as [->|]; [by destruct (rc_tenant_id c)|].
  destruct (String.eqb_spec k "user_id") as [->|]; [by destruct (rc_user_id c)|]. done.
Qed.

(** ** Witnesses *)

Lemma async_log_delivery_witness :
  let h := AsyncLogHandler_drain_round (λ _, true)
    (AsyncLogHandler_start (AsyncLogHandler_emit "b" (AsyncLogHandler_emit "a" (AsyncLogHandler_init 1)))) in
  al_out h = ["a"] ∧ join_returns h = true.
Proof.
  intros h. split; [|reflexivity].
  destruct (async_log_delivery (λ _ : string, true) 1 h ["a"]) as (_ & _ & H).
  - eapply rtc_l; [eapply step_emit; reflexivity|]. eapply rtc_l; [apply step_drop; reflexivity|].
    eapply rtc_l; [apply step_start|]. eapply rtc_l; [apply step_drain|]. apply rtc_refl.
  - apply H. reflexivity.
Defined.

Lemma async_log_dies_witness :
  let h := AsyncLogHandler_drain_round (λ r, negb (String.eqb r "bad"))
    (AsyncLogHandler_start (AsyncLogHandler_emit "bad" (AsyncLogHandler_init 0))) in
  al_out (foldl (run_op (λ r, negb (String.eqb r "bad"))) h [OpEmit "good"; OpStart; OpRound; OpRound]) = [].
Proof. intros h. apply (async_log_dies (λ r, negb (String.eqb r "bad")) h); reflexivity. Defined.

Lemma sampling_exact_witness :
  ∃ l log, for_each ["debug"; "info"; "debug"; "debug"; "debug"; "info"] (λ l, SampledLogger_delegate l "event")
      (SampledLogger_init [("DEBUG", 3%Z)] 1, []) = (Return tt, (l, log)) ∧
    Z.of_nat (length (filter (λ e, e.1 = "debug") log)) = 2%Z.
Proof.
  destruct (sampling_exact [("DEBUG", 3%Z)] 1 ["debug"; "info"; "debug"; "debug"; "debug"; "info"] "debug")
    as (l & log & Hrun & Hn).
  - repeat constructor.
  - exists l, log. split; [exact Hrun | exact Hn].
Defined.

Lemma structured_event_roundtrip_witness :
  let e := mkEvent (VStr "login") (VStr "auth") (TimeOf 7) VNone (VInt 3) [("user", VStr "ann")] 1 in
  StructuredEvent_from_dict py_int (λ v, match v with VInt n => Return n | _ => Raise (TypeError "int") end) 0
    (StructuredEvent_to_dict str_of_int e) = Return e.
Proof.
  intros e. apply (structured_event_roundtrip str_of_int py_int
    (λ v, match v with VInt n => Return n | _ => Raise (TypeError "int") end) 0 e 7).
  - exact py_int_str.
  - reflexivity.
  - apply (bool_decide_unpack _). reflexivity.
  - intros k Hk. apply list_elem_of_singleton in Hk as ->. reflexivity.
  - reflexivity.
Defined.

Definition demo_monotonic : PyM unit Q := mret 0%Q.
Definition demo_utcnow : PyM unit Z := mret 5%Z.

Lemma instrument_once_witness :
  ∃ e, instrument demo_monotonic demo_utcnow "f" "svc" (raise (A := unit) (ValueError "x")) ([], tt) =
    (Raise (ValueError "x"), ([e], tt)) ∧ sv_name e = VStr "f".
Proof.
  destruct (instrument_once demo_monotonic demo_utcnow "f" "svc" (raise (A := unit) (ValueError "x")) [] tt)
    as (e & Hrun & Hname & _).
  - intros w. by eexists.
  - intros w. by eexists.
  - exists e. split; [exact Hrun | exact Hname].
Defined.
