(* ===== verification/Graphql.v ===== *)
(** * GraphQL pagination and errors ([adapters/graphql/pagination.py])

    Opaque cursors (base64 of a prefixed offset), Relay connections, and the mapping of
    domain errors.  [base64.urlsafe_b64decode] is modelled as the C routine works: it skips
    characters outside the alphabet and stops at the padding. *)
From S2P Require Import Prelude PyString Errors ValueObjects PyValue Sha256 Utf8 Credentials.

(** ** Decoding base64 *)

(** The six bits of a character; [-] and [_] are translated to [+] and [/] first. *)
Definition b64_value (c : ascii) : option Z :=
  let n := Z.of_nat (code c) in
  if is_upper c then Some (n - 65)%Z
  else if is_lower c then Some (n - 71)%Z
  else if is_digit c then Some (n + 4)%Z
  else if Ascii.eqb c "-" || Ascii.eqb c "+" then Some 62%Z
  else if Ascii.eqb c "_" || Ascii.eqb c "/" then Some 63%Z
  else None.

Definition Error_binascii (msg : string) : pyexn := exn_of ["Error"; "ValueError"] msg.

(** [binascii.a2b_base64], not strict: the position in the quad, the padding characters seen,
    the bits left over. *)
Fixpoint a2b (s : string) (quad pads : nat) (left : Z) (out : list Z) : outcome (list Z) :=
  match s with
  | "" =>
      match quad with
      | O => Return out
      | 1%nat => Raise (Error_binascii "Invalid base64-encoded string: number of data characters cannot be 1 more than a multiple of 4")
      | _ => Raise (Error_binascii "Incorrect padding")
      end
  | String c s' =>
      if Ascii.eqb c "=" then
        if Nat.leb 2 quad then
          if Nat.leb 4 (quad + S pads) then Return out else a2b s' quad (S pads) left out
        else a2b s' quad pads left out
      else
        match b64_value c with
        | None => a2b s' quad pads left out
        | Some v =>
            match quad with
            | O => a2b s' 1 0 v out
            | 1%nat => a2b s' 2 0 (Z.land v 15) (out ++ [Z.lor (Z.shiftl left 2) (Z.shiftr v 4)])
            | 2%nat => a2b s' 3 0 (Z.land v 3) (out ++ [Z.lor (Z.shiftl left 4) (Z.shiftr v 2)])
            | _ => a2b s' 0 0 0 (out ++ [Z.lor (Z.shiftl left 6) v])
            end
        end
  end.

Definition urlsafe_b64decode (s : string) : outcome (list Z) := a2b s 0 0 0 [].

(** ** Cursors *)

Definition PREFIX : string := "cursor:".

Definition encode_cursor (offset : Z) : string := urlsafe_b64encode (encode (PREFIX +:+ str_of_int offset)).

Section Cursor.
(** [int(text)] of a text with other than ASCII characters, which may be digits of other scripts. *)
Context (unicode_int : list Z → outcome Z).

Definition invalid_cursor (cursor : string) : pyexn := ValueError ("Invalid cursor: " +:+ py_repr cursor).

(** The body of the [try]. *)
Definition decode_body (cursor : string) : outcome Z :=
  if negb (is_ascii cursor) then Raise (exn_of ["UnicodeEncodeError"; "UnicodeError"; "ValueError"] "ascii")
  else
    bytes ← urlsafe_b64decode cursor;
    raw ← bytes_decode bytes;
    if negb (startswith_points (encode PREFIX) raw) then Raise (invalid_cursor cursor)
    else
      let rest := drop (String.length PREFIX) raw in
      if points_ascii rest then py_int (points_text rest) else unicode_int rest.

Definition decode_cursor (cursor : string) : outcome Z :=
  match decode_body cursor with
  | Raise e => if is_Exception e then Raise (invalid_cursor cursor) else Raise e
  | Return n => Return n
  end.

End Cursor.

(** ** Connections *)

Record PageInfo := mkPageInfo {
  has_next_page : bool;
  has_previous_page : bool;
  start_cursor : option string;
  end_cursor : option string;
}.

Record Edge (T : Type) := mkEdge { node : T; cursor : string }.
Arguments mkEdge {T} _ _.
Arguments node {T} _.
Arguments cursor {T} _.

Record CursorConnection (T : Type) := mkConnection {
  edges : list (Edge T);
  page_info : PageInfo;
  total_count : Z;
}.
Arguments mkConnection {T} _ _ _.
Arguments edges {T} _.
Arguments page_info {T} _.
Arguments total_count {T} _.

Fixpoint edges_from {T} (offset : Z) (items : list T) : list (Edge T) :=
  match items with
  | [] => []
  | x :: items' => mkEdge x (encode_cursor offset) :: edges_from (offset + 1) items'
  end.

Definition CursorConnection_from_list {T} (items : list T) (total offset : Z) : CursorConnection T :=
  let es := edges_from offset items in
  mkConnection es
    (mkPageInfo (offset + Z.of_nat (length items) <? total)%Z (0 <? offset)%Z (cursor <$> head es) (cursor <$> last es))
    total.

(** ** Errors *)

(** [hasattr(exc, "fields")] is [fields]. *)
Definition graphql_error_handler (fields : pyexn → option pyval) (exc : pyexn) : string * (string * option pyval) :=
  (exn_msg exc,
   if isinstance exc "NotFoundError" then ("NOT_FOUND", None)
   else if isinstance exc "ConflictError" then ("CONFLICT", None)
   else if isinstance exc "ValidationError" then ("VALIDATION_ERROR", fields exc)
   else ("INTERNAL_ERROR", None)).

(** ** Lemmas *)

Definition is_byte (b : Z) : Prop := (0 <= b < 256)%Z.

(** A decidable fact about bytes, checked on all of them. *)
Lemma byte_check (p : Z → bool) :
  forallb (λ n, p (Z.of_nat n)) (seq 0 256) = true → ∀ b, is_byte b → p b = true.
Proof.
  intros H b [Hlo Hhi]. rewrite forallb_forall in H. rewrite <- (Z2Nat.id b) by done. apply H, in_seq. lia.
Qed.

Lemma byte_check2 (p : Z → Z → bool) :
  forallb (λ m, forallb (λ n, p (Z.of_nat m) (Z.of_nat n)) (seq 0 256)) (seq 0 256) = true →
  ∀ a b, is_byte a → is_byte b → p a b = true.
Proof.
  intros H a b Ha. apply (byte_check (p a)). revert a Ha.
  apply (byte_check (λ a, forallb (λ n, p a (Z.of_nat n)) (seq 0 256))). exact H.
Qed.

#[local] Abbreviation six_1 a := (Z.shiftr a 2).
#[local] Abbreviation six_2 a b := (Z.lor (Z.shiftl (Z.land a 3) 4) (Z.shiftr b 4)).
#[local] Abbreviation six_3 b c := (Z.lor (Z.shiftl (Z.land b 15) 2) (Z.shiftr c 6)).
#[local] Abbreviation six_4 c := (Z.land c 63).

Definition six (v : Z) : bool := (0 <=? v)%Z && (v <? 64)%Z.

Lemma six_pairs a b :
  is_byte a → is_byte b →
  six (six_1 a) && six (six_2 a b) && six (six_3 a b) && six (six_4 b) &&
  (Z.lor (Z.shiftl (six_1 a) 2) (Z.shiftr (six_2 a b) 4) =? a)%Z &&
  (Z.land (six_2 a b) 15 =? Z.shiftr b 4)%Z && (Z.shiftr (six_3 a b) 2 =? Z.land a 15)%Z &&
  (Z.lor (Z.shiftl (Z.shiftr b 4) 4) (Z.land b 15) =? b)%Z &&
  (Z.lor (Z.shiftl (Z.land (six_3 a b) 3) 6) (six_4 b) =? b)%Z = true.
Proof.
  apply (byte_check2 (λ a b,
    six (six_1 a) && six (six_2 a b) && six (six_3 a b) && six (six_4 b) &&
    (Z.lor (Z.shiftl (six_1 a) 2) (Z.shiftr (six_2 a b) 4) =? a)%Z &&
    (Z.land (six_2 a b) 15 =? Z.shiftr b 4)%Z && (Z.shiftr (six_3 a b) 2 =? Z.land a 15)%Z &&
    (Z.lor (Z.shiftl (Z.shiftr b 4) 4) (Z.land b 15) =? b)%Z &&
    (Z.lor (Z.shiftl (Z.land (six_3 a b) 3) 6) (six_4 b) =? b)%Z)).
  vm_compute. reflexivity.
Qed.

Lemma six_facts a b :
  is_byte a → is_byte b →
  six (six_1 a) = true ∧ six (six_2 a b) = true ∧ six (six_3 a b) = true ∧ six (six_4 b) = true ∧
  Z.lor (Z.shiftl (six_1 a) 2) (Z.shiftr (six_2 a b) 4) = a ∧
  Z.land (six_2 a b) 15 = Z.shiftr b 4 ∧ Z.shiftr (six_3 a b) 2 = Z.land a 15 ∧
  Z.lor (Z.shiftl (Z.shiftr b 4) 4) (Z.land b 15) = b ∧
  Z.lor (Z.shiftl (Z.land (six_3 a b) 3) 6) (six_4 b) = b.
Proof.
  intros Ha Hb. pose proof (six_pairs a b Ha Hb) as H. rewrite !andb_true_iff, !Z.eqb_eq in H. tauto.
Qed.

Lemma b64_value_char v : six v = true → b64_value (b64url_char v) = Some v ∧ Ascii.eqb (b64url_char v) "=" = false.
Proof.
  intros Hv. unfold six in Hv. rewrite andb_true_iff, Z.leb_le, Z.ltb_lt in Hv.
  assert (forallb (λ n, match b64_value (b64url_char (Z.of_nat n)) with Some w => (w =? Z.of_nat n)%Z | None => false end
    && negb (Ascii.eqb (b64url_char (Z.of_nat n)) "=")) (seq 0 64) = true) as H by (vm_compute; reflexivity).
  rewrite forallb_forall in H. specialize (H (Z.to_nat v)). rewrite Z2Nat.id in H by lia.
  rewrite andb_true_iff, negb_true_iff in H. destruct H as [H1 H2]; [apply in_seq; lia|].
  destruct (b64_value _) as [w|]; [|done]. apply Z.eqb_eq in H1. by subst w.
Qed.

(** A character of the alphabet is read as its value. *)
Lemma a2b_char v s quad left out :
  six v = true →
  a2b (String (b64url_char v) s) quad 0 left out =
    match quad with
    | O => a2b s 1 0 v out
    | 1%nat => a2b s 2 0 (Z.land v 15) (out ++ [Z.lor (Z.shiftl left 2) (Z.shiftr v 4)])
    | 2%nat => a2b s 3 0 (Z.land v 3) (out ++ [Z.lor (Z.shiftl left 4) (Z.shiftr v 2)])
    | _ => a2b s 0 0 0 (out ++ [Z.lor (Z.shiftl left 6) v])
    end.
Proof. intros Hv. destruct (b64_value_char v Hv) as [H1 H2]. cbn [a2b]. by rewrite H1, H2. Qed.

#[local] Arguments String.append !_ _ / : simpl nomatch.

Definition padding (n : nat) : string := match Nat.modulo n 3 with O => "" | 1%nat => "==" | _ => "=" end.

Lemma encode_1 a :
  b64_chars [a] +:+ padding 1 = String (b64url_char (six_1 a)) (String (b64url_char (six_2 a 0)) "==").
Proof. unfold b64_chars. by rewrite Z.shiftr_0_l, Z.lor_0_r. Qed.

Lemma encode_2 a b :
  b64_chars [a; b] +:+ padding 2 =
  String (b64url_char (six_1 a)) (String (b64url_char (six_2 a b)) (String (b64url_char (six_3 b 0)) "=")).
Proof. unfold b64_chars. by rewrite Z.shiftr_0_l, Z.lor_0_r. Qed.

Lemma encode_3 a b c bs :
  b64_chars (a :: b :: c :: bs) +:+ padding (length (a :: b :: c :: bs)) =
  String (b64url_char (six_1 a)) (String (b64url_char (six_2 a b)) (String (b64url_char (six_3 b c))
    (String (b64url_char (six_4 c)) (b64_chars bs +:+ padding (length bs))))).
Proof.
  unfold padding. replace (Nat.modulo (length (a :: b :: c :: bs)) 3) with (Nat.modulo (length bs) 3); [done|].
  simpl length. replace (S (S (S (length bs)))) with (length bs + 1 * 3)%nat by lia. by rewrite Nat.Div0.mod_add.
Qed.

Lemma a2b_pad1 left out : a2b "==" 2 0 left out = Return out.
Proof. done. Qed.
Lemma a2b_pad2 left out : a2b "=" 3 0 left out = Return out.
Proof. done. Qed.

Lemma a2b_encode bs out :
  Forall is_byte bs → a2b (b64_chars bs +:+ padding (length bs)) 0 0 0 out = Return (out ++ bs).
Proof.
  assert (is_byte 0) as H0 by done.
  revert out. induction bs as [|a|a b|a b c bs IH] using list_ind3; intros out Hall.
  - by rewrite app_nil_r.
  - apply Forall_cons in Hall as [Ha _]. destruct (six_facts a 0 Ha H0) as (Ha1 & Ha2 & _ & _ & Hv & _).
    rewrite encode_1, a2b_char, a2b_char by done. by rewrite Hv.
  - apply Forall_cons in Hall as [Ha [Hb _]%Forall_cons].
    destruct (six_facts a b Ha Hb) as (Ha1 & Hb1 & _ & _ & Hv & Hl & _ & Hvb & _).
    destruct (six_facts b 0 Hb H0) as (_ & _ & Hb2 & _ & _ & _ & Hs & _).
    rewrite encode_2, a2b_char, a2b_char, a2b_char by done. rewrite Hv, Hl, Hs, Hvb, a2b_pad2. by rewrite <- app_assoc.
  - apply Forall_cons in Hall as [Ha [Hb [Hc Hbs]%Forall_cons]%Forall_cons].
    destruct (six_facts a b Ha Hb) as (Ha1 & Hb1 & _ & _ & Hv & Hl & _ & Hvb & _).
    destruct (six_facts b c Hb Hc) as (_ & _ & Hb2 & Hc1 & _ & _ & Hs & _ & Hvc).
    rewrite encode_3, a2b_char, a2b_char, a2b_char, a2b_char by done. rewrite Hv, Hl, Hs, Hvb, Hvc, IH by done.
    by rewrite <- !app_assoc.
Qed.

Lemma b64_roundtrip bs : Forall is_byte bs → urlsafe_b64decode (urlsafe_b64encode bs) = Return bs.
Proof. apply (a2b_encode bs []). Qed.

Lemma encode_bytes s : Forall is_byte (encode s).
Proof.
  induction s as [|c s IH]; constructor; [|done]. unfold is_byte, code. pose proof (nat_ascii_bounded c). lia.
Qed.

(** The alphabet and the padding are ASCII. *)
Lemma b64_char_ascii v : six v = true → Nat.ltb (code (b64url_char v)) 128 = true.
Proof.
  intros Hv. unfold six in Hv. rewrite andb_true_iff, Z.leb_le, Z.ltb_lt in Hv.
  assert (forallb (λ n, Nat.ltb (code (b64url_char (Z.of_nat n))) 128) (seq 0 64) = true) as H by (vm_compute; reflexivity).
  rewrite forallb_forall in H. specialize (H (Z.to_nat v)). rewrite Z2Nat.id in H by lia. apply H, in_seq. lia.
Qed.

Lemma encode_ascii bs : Forall is_byte bs → is_ascii (b64_chars bs +:+ padding (length bs)) = true.
Proof.
  assert (is_byte 0) as H0 by done. unfold is_ascii.
  induction bs as [|a|a b|a b c bs IH] using list_ind3; intros Hall; [done|..].
  - apply Forall_cons in Hall as [Ha _]. destruct (six_facts a 0 Ha H0) as (Ha1 & Ha2 & _).
    rewrite encode_1. cbn [str_all]. by rewrite !b64_char_ascii.
  - apply Forall_cons in Hall as [Ha [Hb _]%Forall_cons].
    destruct (six_facts a b Ha Hb) as (Ha1 & Hb1 & _). destruct (six_facts b 0 Hb H0) as (_ & _ & Hb2 & _).
    rewrite encode_2. cbn [str_all]. by rewrite !b64_char_ascii.
  - apply Forall_cons in Hall as [Ha [Hb [Hc Hbs]%Forall_cons]%Forall_cons].
    destruct (six_facts a b Ha Hb) as (Ha1 & Hb1 & _). destruct (six_facts b c Hb Hc) as (_ & _ & Hb2 & Hc1 & _).
    rewrite encode_3. cbn [str_all]. rewrite !b64_char_ascii by done. by apply IH.
Qed.

Lemma int_char_ascii c : is_int_char c = true → Nat.ltb (code c) 128 = true.
Proof. destruct c as [[] [] [] [] [] [] [] []]; vm_compute; done. Qed.

Lemma py_int_raises s e : py_int s = Raise e → is_Exception e = true.
Proof. unfold py_int. cbv zeta. destruct (match strip s with "" => _ | _ => _ end); [done|]. by intros [= <-]. Qed.

Lemma a2b_raises s quad pads left out e : a2b s quad pads left out = Raise e → is_Exception e = true.
Proof.
  revert quad pads left out. induction s as [|c s IH]; intros quad pads left out; cbn [a2b].
  - destruct quad as [|[|q]]; [done | by intros [= <-] | by intros [= <-]].
  - destruct (Ascii.eqb c "="); [destruct (Nat.leb 2 quad); [destruct (Nat.leb 4 _); [done|]|]; apply IH|].
    destruct (b64_value c); [|apply IH]. destruct quad as [|[|[|q]]]; apply IH.
Qed.

Lemma decode_encode_cursor unicode_int n : decode_cursor unicode_int (encode_cursor n) = Return n.
Proof.
  unfold decode_cursor, decode_body, encode_cursor. set (raw := PREFIX +:+ str_of_int n).
  assert (is_ascii (urlsafe_b64encode (encode raw)) = true) as -> by apply encode_ascii, encode_bytes.
  unfold mbind, outcome_bind. cbn [negb]. rewrite b64_roundtrip by apply encode_bytes.
  assert (is_ascii (str_of_int n) = true) as Hn.
  { unfold is_ascii. eapply str_all_impl; [|apply str_of_int_chars]. intros c Hc. by apply int_char_ascii. }
  rewrite bytes_decode_ascii by (unfold raw; by rewrite is_ascii_app, Hn). unfold raw. rewrite encode_app, startswith_points_app.
  cbn [negb]. cbv zeta. assert (drop (String.length PREFIX) (encode PREFIX ++ encode (str_of_int n)) = encode (str_of_int n)) as -> by reflexivity.
  rewrite encode_points_ascii, points_text_encode by done. by rewrite py_int_str.
Qed.

(** ** Theorems *)

(** a cursor decodes to the offset it was made from, for every offset; and whatever text a
    client sends instead, decoding gives a number or a [ValueError], nothing else. *)
Theorem cursor_roundtrip unicode_int :
  (∀ ps e, unicode_int ps = Raise e → is_Exception e = true) →
  (∀ n, decode_cursor unicode_int (encode_cursor n) = Return n) ∧
  ∀ text, (∃ n, decode_cursor unicode_int text = Return n) ∨
    decode_cursor unicode_int text = Raise (invalid_cursor text).
Proof.
  intros Hexn. split.
  - intros n. apply decode_encode_cursor.
  - intros text. unfold decode_cursor. destruct (decode_body unicode_int text) as [n|e] eqn:E; [left; by exists n|].
    right. assert (is_Exception e = true) as ->; [|done].
    unfold decode_body in E. destruct (is_ascii text); cbn [negb] in E; [|by injection E as <-].
    unfold mbind, outcome_bind in E. destruct (urlsafe_b64decode text) as [bs|e1] eqn:E1.
    + unfold bytes_decode in E. destruct (utf8_points bs) as [raw|]; [|by injection E as <-].
      destruct (startswith_points _ raw); cbn [negb] in E; [|by injection E as <-]. cbv zeta in E.
      destruct (points_ascii _); [by apply py_int_raises in E | by eapply Hexn].
    + injection E as <-. by apply a2b_raises in E1.
Qed.

Lemma edges_from_lookup {T} offset (items : list T) i e :
  edges_from offset items !! i = Some e →
  cursor e = encode_cursor (offset + Z.of_nat i) ∧ items !! i = Some (node e).
Proof.
  revert offset i. induction items as [|x items IH]; intros offset i; [done|]. destruct i as [|i]; simpl.
  - intros [= <-]. by rewrite Z.add_0_r.
  - intros H. apply IH in H as [-> H]. split; [f_equal; lia | done].
Qed.

Lemma edges_from_nodes {T} offset (items : list T) : node <$> edges_from offset items = items.
Proof. revert offset. induction items as [|x items IH]; intros offset; [done|]. simpl. by rewrite IH. Qed.

(** Following [end_cursor]: the pages a client sees that asks for the page after each cursor; [None] if it cannot
    go on, or has not come to a last page within [n] requests. *)
Fixpoint crawl {T} (unicode_int : list Z → outcome Z) (all : list T) (limit : nat) (offset : Z) (n : nat) : option (list (list T)) :=
  match n with
  | O => None
  | S n' =>
      let page := CursorConnection_from_list (take limit (drop (Z.to_nat offset) all)) (Z.of_nat (length all)) offset in
      if has_next_page (page_info page) then
        match end_cursor (page_info page) with
        | Some c =>
            match decode_cursor unicode_int c with
            | Return o => cons (node <$> edges page) <$> crawl unicode_int all limit (o + 1) n'
            | Raise _ => None
            end
        | None => None
        end
      else Some [node <$> edges page]
  end.

Lemma last_edge {T} offset (items : list T) :
  items ≠ [] → cursor <$> last (edges_from offset items) = Some (encode_cursor (offset + Z.of_nat (length items) - 1)).
Proof.
  revert offset. induction items as [|x items IH]; intros offset Hne; [done|]. destruct items as [|y items].
  - simpl. do 2 f_equal. lia.
  - change (edges_from offset (x :: y :: items)) with (mkEdge x (encode_cursor offset) :: edges_from (offset + 1) (y :: items)).
    change (last (mkEdge x (encode_cursor offset) :: edges_from (offset + 1) (y :: items)))
      with (last (edges_from (offset + 1) (y :: items))).
    rewrite IH by done. do 2 f_equal. simpl length. lia.
Qed.

Lemma crawl_pages {T} unicode_int (all : list T) limit : (0 < limit)%nat → ∀ n k, (k <= length all)%nat → (length all - k < n)%nat →
  ∃ pages, crawl unicode_int all limit (Z.of_nat k) n = Some pages ∧ concat pages = drop k all ∧
    Forall (λ p, (length p <= limit)%nat) pages ∧ (pages = [[]] ∨ Forall (λ p, p ≠ []) pages).
Proof.
  intros Hlim. induction n as [|n IH]; intros k Hk Hn; [lia|]. cbn [crawl]. rewrite Nat2Z.id.
  set (page := take limit (drop k all)).
  assert (length page = Nat.min limit (length all - k)) as Hlen by (subst page; by rewrite length_take, length_drop).
  unfold CursorConnection_from_list. cbn [edges page_info has_next_page end_cursor]. rewrite edges_from_nodes.
  destruct (Z.ltb_spec (Z.of_nat k + Z.of_nat (length page)) (Z.of_nat (length all))) as [Hmore|Hend].
  - assert (page ≠ []) as Hne by (intros Hp; rewrite Hp in Hlen; simpl in Hlen; lia).
    rewrite last_edge, decode_encode_cursor by done.
    replace (Z.of_nat k + Z.of_nat (length page) - 1 + 1)%Z with (Z.of_nat (k + length page)) by lia.
    assert (1 <= length page)%nat by (destruct page; [done | simpl; lia]).
    destruct (IH (k + length page)%nat) as (pages & -> & Hall & Hsize & Hpages); [lia | lia|].
    exists (page :: pages). split; [done|]. split_and!.
    + cbn [concat]. rewrite Hall. subst page. assert (length (take limit (drop k all)) = limit) as -> by lia.
      by rewrite <- drop_drop, take_drop.
    + constructor; [lia | done].
    + right. constructor; [done|]. destruct Hpages as [->|Hpages]; [|done]. exfalso.
      apply (f_equal length) in Hall. rewrite length_drop in Hall. simpl in Hall. lia.
  - exists [page]. split; [done|]. split_and!.
    + simpl. rewrite app_nil_r. subst page. apply take_ge. rewrite length_drop. lia.
    + repeat constructor. lia.
    + destruct page as [|x page]; [by left | right; by repeat constructor].
Qed.

(** C32: a client that follows cursors sees everything and stops: from the first page on, asking each time
    for the page after [end_cursor], which decodes to the offset it was made from, it comes to a page without a next one
    within one request more than there are items; its pages are the items, each
    once and in order, none longer than the limit, and none empty unless there are no items, for every page size. *)
Theorem connection_complete {T} unicode_int (all : list T) limit :
  (0 < limit)%nat →
  ∃ pages, crawl unicode_int all limit 0 (S (length all)) = Some pages ∧ concat pages = all ∧
    Forall (λ p, (length p <= limit)%nat) pages ∧ (pages = [[]] ∨ Forall (λ p, p ≠ []) pages).
Proof.
  intros Hlim. change 0%Z with (Z.of_nat 0). apply (crawl_pages unicode_int all limit Hlim (S (length all)) 0); lia.
Qed.

(** domain errors keep their kind: the code of the error decides the GraphQL code, with
    everything else an internal error; the message is the error's own.  A [ValidationError]
    has no [fields], so that extension is never there. *)
Theorem graphql_codes fields :
  (∀ e, fields e = None) →
  (∀ name i, snd (graphql_error_handler fields (NotFoundError name i)) = ("NOT_FOUND", None)) ∧
  (∀ msg, graphql_error_handler fields (ConflictError msg) = (msg, ("CONFLICT", None))) ∧
  (∀ msg, graphql_error_handler fields (ValidationError msg) = (msg, ("VALIDATION_ERROR", None))) ∧
  (∀ e, isinstance_any e ["NotFoundError"; "ConflictError"; "ValidationError"] = false →
    graphql_error_handler fields e = (exn_msg e, ("INTERNAL_ERROR", None))).
Proof.
  intros Hf. split_and!; [done|done|intros msg; unfold graphql_error_handler; simpl; by rewrite Hf|].
  intros e He. unfold isinstance_any in He. simpl in He. rewrite !orb_false_iff in He. destruct He as (H1 & H2 & H3 & _).
  unfold graphql_error_handler. by rewrite H1, H2, H3.
Qed.

(** ** Witnesses *)

Definition no_unicode_int (ps : list Z) : outcome Z := Raise (ValueError "invalid literal for int()").

Lemma cursor_roundtrip_witness :
  decode_cursor no_unicode_int (encode_cursor 42) = Return 42%Z ∧
  decode_cursor no_unicode_int "junk" = Raise (invalid_cursor "junk").
Proof.
  destruct (cursor_roundtrip no_unicode_int) as [H1 H2].
  - by intros ps e [= <-].
  - split; [apply H1|]. destruct (H2 "junk") as [[n Hn]|H]; [|exact H]. vm_compute in Hn. discriminate.
Defined.

Lemma connection_complete_witness :
  crawl no_unicode_int ["a"; "b"; "c"] 2 0 4 = Some [["a"; "b"]; ["c"]] ∧
  ∃ pages, crawl no_unicode_int ["a"; "b"; "c"] 2 0 4 = Some pages ∧ concat pages = ["a"; "b"; "c"].
Proof.
  split; [vm_compute; reflexivity|].
  destruct (connection_complete no_unicode_int ["a"; "b"; "c"] 2) as (pages & H1 & H2 & _); [lia|].
  exists pages. split; [exact H1 | exact H2].
Defined.

Lemma graphql_codes_witness :
  graphql_error_handler (λ _, None) (ValidationError "bad") = ("bad", ("VALIDATION_ERROR", None)).
Proof. apply (graphql_codes (λ _, None)). reflexivity. Defined.
