(* ===== verification/WebSocket.v ===== *)
(** * WebSockets ([adapters/websocket/hub.py])

    The registry of connections with broadcasting, group membership, and the ASGI
    middleware.  A connection object is a location; sending to it may raise. *)
From S2P Require Import Prelude PyString OrderedDict Observability Asgi.

(** ** The hub *)

Section Hub.
(** [W]: the world the sends act on; [Data]: what is sent. *)
Context {W Data : Type} (send : nat → Data → PyM W unit).

(** [_connections]: an insertion-ordered dict from ids to connection objects. *)
Definition ConnectionHub : Type := list (string * nat).

Definition ConnectionHub_register (cid : string) (conn : nat) : PyM (ConnectionHub * W) unit :=
  on_fst (updates (od_set cid conn)).
Definition ConnectionHub_unregister (cid : string) : PyM (ConnectionHub * W) unit :=
  on_fst (updates (od_del cid)).

(** [asyncio.gather( *[c.send(data) for c in conns], return_exceptions=True)]: the sends run,
    their exceptions are results. *)
Fixpoint gather_sends (data : Data) (conns : list nat) : PyM W unit := λ w,
  match conns with
  | [] => (Return tt, w)
  | c :: conns' => gather_sends data conns' (snd (send c data w))
  end.

Definition ConnectionHub_broadcast (data : Data) : PyM (ConnectionHub * W) unit :=
  conns ← on_fst (reads (λ hub, hub.*2));
  on_snd (gather_sends data conns).

Definition ConnectionHub_send_to (cid : string) (data : Data) : PyM (ConnectionHub * W) unit :=
  conn ← on_fst (reads (od_get cid));
  match conn with
  | Some c => on_snd (send c data)
  | None => mret tt
  end.

(** ** Groups *)

(** [_groups]. *)
#[local] Abbreviation Groups := (gmap string (gset string)).

Definition GroupManager_join (conn_id group_id : string) (g : Groups) : Groups :=
  <[group_id := {[conn_id]} ∪ default ∅ (g !! group_id)]> g.
Definition GroupManager_leave (conn_id group_id : string) (g : Groups) : Groups :=
  match g !! group_id with Some s => <[group_id := s ∖ {[conn_id]}]> g | None => g end.
Definition GroupManager_members (group_id : string) (g : Groups) : gset string := default ∅ (g !! group_id).
Definition GroupManager_groups_for (conn_id : string) (g : Groups) : gset string :=
  dom (filter (λ e, conn_id ∈ e.2) g).

(** [member_ids] is iterated in some order. *)
Definition ConnectionHub_group_broadcast (data : Data) (member_ids : list string) : PyM (ConnectionHub * W) unit :=
  conns ← on_fst (reads (λ hub, omap (λ cid, od_get cid hub) member_ids));
  on_snd (gather_sends data conns).

Definition ConnectionHub_connection_count (hub : ConnectionHub) : Z := Z.of_nat (length hub).

End Hub.

(** ** The middleware *)

(** [headers.get(b"x-correlation-id", b"").decode("utf-8", errors="ignore")]. *)
Definition websocket_correlation (scope : Scope) : string :=
  let headers := fold_left (λ d e, od_set (fst e) (snd e) d) (default [] (s_headers scope)) [] in
  default "" (od_get "x-correlation-id" headers).

(** [token = CorrelationContext.set(ctx)] is [None], so that the [finally] resets nothing. *)
Definition WebSocketMiddleware_call {U} (app : ASGIApp (Ambient U)) : ASGIApp (Ambient U) :=
  λ W lift scope receive send,
  if negb (String.eqb (s_type scope) "websocket") then app W lift scope receive send
  else
    let correlation_id_raw := websocket_correlation scope in
    (if String.eqb correlation_id_raw "" then mret tt
     else lift _ (CorrelationContext_set (mkReqCtx correlation_id_raw None None None None))) ;;
    app W lift scope receive send.

(** ** Lemmas *)

Section HubLemmas.
Context {Data : Type} (fails : nat → bool).

(** A world that logs every send and fails some. *)
Definition log_send (c : nat) (data : Data) : PyM (list (nat * Data)) unit := λ log,
  ((if fails c then Raise (exn_of ["ConnectionClosed"] "closed") else Return tt), log ++ [(c, data)]).

Lemma gather_log data conns log :
  gather_sends log_send data conns log = (Return tt, log ++ ((λ c, (c, data)) <$> conns)).
Proof.
  revert log. induction conns as [|c conns IH]; intros log; simpl; [by rewrite app_nil_r|].
  by rewrite IH, <- app_assoc.
Qed.

(** Registrations and unregistrations, and the dict they leave. *)
Inductive hub_op := Register (cid : string) (conn : nat) | Unregister (cid : string).

Definition run_hub_op (op : hub_op) : PyM (ConnectionHub * list (nat * Data)) unit :=
  match op with
  | Register cid conn => ConnectionHub_register cid conn
  | Unregister cid => ConnectionHub_unregister cid
  end.

(** The connection an id stands for after some operations: the last one registered since the
    id was last unregistered. *)
Fixpoint hub_registered (ops : list hub_op) (cid : string) : option nat :=
  match ops with
  | [] => None
  | Register c conn :: ops' => if String.eqb c cid then Some conn else hub_registered ops' cid
  | Unregister c :: ops' => if String.eqb c cid then None else hub_registered ops' cid
  end.

Definition hub_of (ops : list hub_op) : ConnectionHub :=
  foldr (λ op hub, match op with Register cid conn => od_set cid conn hub | Unregister cid => od_del cid hub end) [] ops.

Lemma hub_of_ok ops : NoDup (hub_of ops).*1 ∧ ∀ cid, od_get cid (hub_of ops) = hub_registered ops cid.
Proof.
  induction ops as [|[c conn|c] ops [Hnd IH]]; simpl; [by split; [constructor|]|..].
  - split; [by apply od_set_NoDup|]. intros cid. destruct (String.eqb_spec c cid) as [->|Hne].
    + apply od_get_set_eq.
    + by rewrite od_get_set_ne.
  - split.
    + rewrite od_del_keys. by apply NoDup_filter.
    + intros cid. destruct (String.eqb_spec c cid) as [->|Hne]; [apply od_get_del_eq | by rewrite od_get_del_ne].
Qed.

Lemma run_hub ops hub log :
  for_each (rev ops) run_hub_op (hub, log) =
  (Return tt, (foldr (λ op hub, match op with Register cid conn => od_set cid conn hub | Unregister cid => od_del cid hub end)
     hub ops, log)).
Proof.
  revert hub. induction ops as [|op ops IH] using rev_ind; intros hub; [done|].
  rewrite rev_app_distr, foldr_app. cbn [rev app for_each]. unfold mbind, PyM_bind.
  destruct op; apply IH.
Qed.

End HubLemmas.

(** ** Theorems *)

(** a broadcast reaches every connection.  After any registrations and unregistrations, it
    sends the data exactly once to each connection that is registered - for an id that was
    registered again, to the newer one - and to no other, and returns normally even when
    sends fail. *)
Theorem broadcast_exact {Data} (fails : nat → bool) (ops : list hub_op) (data : Data) :
  ∃ hub conns, (for_each (rev ops) run_hub_op ;; ConnectionHub_broadcast (log_send fails) data) ([], []) =
      (Return tt, (hub, (λ c, (c, data)) <$> conns)) ∧
    NoDup hub.*1 ∧ conns = hub.*2 ∧ (∀ cid, od_get cid hub = hub_registered ops cid) ∧
    ∀ cid conn, hub_registered ops cid = Some conn → conn ∈ conns.
Proof.
  destruct (hub_of_ok ops) as [Hnd Hget]. exists (hub_of ops), (hub_of ops).*2.
  split_and!; [|done|done|done|].
  - unfold mbind, PyM_bind. rewrite run_hub. unfold ConnectionHub_broadcast, mbind, PyM_bind. simpl.
    unfold on_snd. cbn [fst snd]. by rewrite gather_log.
  - intros cid conn Hreg. rewrite <- Hget in Hreg. apply od_get_elem in Hreg. apply list_elem_of_fmap. by exists (cid, conn).
Qed.

(** membership is symmetric: in any state of the group manager, a connection is among the
    members of a group exactly when the group is among the connection's groups; joining adds
    and leaving removes that one membership. *)
Theorem groups_consistent (g : gmap string (gset string)) c gr c' gr' :
  (c ∈ GroupManager_members gr g ↔ gr ∈ GroupManager_groups_for c g) ∧
  (c' ∈ GroupManager_members gr' (GroupManager_join c gr g) ↔
    (c' = c ∧ gr' = gr) ∨ c' ∈ GroupManager_members gr' g) ∧
  (c' ∈ GroupManager_members gr' (GroupManager_leave c gr g) ↔
    ¬ (c' = c ∧ gr' = gr) ∧ c' ∈ GroupManager_members gr' g).
Proof.
  unfold GroupManager_members, GroupManager_groups_for, GroupManager_join, GroupManager_leave in *.
  split_and!.
  - etransitivity; [|symmetry; apply elem_of_dom]. split.
    + destruct (g !! gr) as [s|] eqn:E; simpl; [|set_solver]. intros Hc. exists s. by apply map_lookup_filter_Some.
    + intros [s Hs]. apply map_lookup_filter_Some in Hs as [Hs Hc]. by rewrite Hs.
  - destruct (decide (gr' = gr)) as [->|Hne].
    + rewrite lookup_insert_eq. simpl. set_solver.
    + rewrite lookup_insert_ne by done. set_solver.
  - destruct (g !! gr) as [s|] eqn:E.
    + destruct (decide (gr' = gr)) as [->|Hne].
      * rewrite lookup_insert_eq, E. simpl. set_solver.
      * rewrite lookup_insert_ne by done. set_solver.
    + split; [|by intros [_ ?]]. intros Hc. split; [|done]. intros [-> ->]. rewrite E in Hc. simpl in Hc. set_solver.
Qed.

(** the correlation id of a websocket outlives it: when the application that served the
    connection does not touch the context, the id is still the ambient one afterwards. *)
Theorem websocket_context_leaks {U} (app : ASGIApp (Ambient U)) scope inbox b :
  s_type scope = "websocket" → websocket_correlation scope ≠ "" →
  (∀ b, fst (snd (snd (serve app scope inbox b))) = fst b) →
  fst (snd (snd (serve (WebSocketMiddleware_call app) scope inbox b))) =
    Some (mkReqCtx (websocket_correlation scope) None None None None).
Proof.
  intros Ht Hne Happ. unfold serve in *. unfold WebSocketMiddleware_call. rewrite Ht. cbn [negb String.eqb].
  rewrite (proj2 (String.eqb_neq _ _) Hne). unfold mbind, PyM_bind. destruct b as [ctx b'].
  specialize (Happ (Some (mkReqCtx (websocket_correlation scope) None None None None), b')). exact Happ.
Qed.

(** ** Witnesses *)

Definition demo_scope : Scope :=
  mkScope "websocket" None None None (Some [("x-correlation-id", "ws-1")]) None.

Lemma websocket_context_leaks_witness :
  fst (snd (snd (serve (WebSocketMiddleware_call (app_of (λ _, PDone (Return tt)))) demo_scope []
    (None, (None, (None, tt)))))) = Some (mkReqCtx "ws-1" None None None None).
Proof.
  apply (websocket_context_leaks (app_of (λ _, PDone (Return tt))) demo_scope []).
  - reflexivity.
  - discriminate.
  - reflexivity.
Defined.
