(* ===== verification/HttpClients.v ===== *)
(** * The HTTP clients ([adapters/http/])

    [HttpxHttpClient] sends a request with the headers of the current request context and
    translates the exceptions of httpx; [RetryingHttpClient] and [CircuitBreakingHttpClient]
    wrap it in the retry policy and the circuit breaker.  The httpx client, its
    [raise_for_status] and the status of its exceptions are parameters; exceptions of httpx
    are recognised by their classes. *)
From Stdlib Require Import Qpower.
From S2P Require Import Prelude PyString OrderedDict Errors ValueObjects Observability Asgi Retry CircuitBreaker.

#[local] Abbreviation headers := (list (string * string)).

(** ** Headers *)

(** [if value: headers[name] = value]. *)
Definition put_header (name : string) (value : option string) (hs : headers) : headers :=
  match value with
  | None | Some "" => hs
  | Some v => od_set name v hs
  end.

Definition correlation_headers (ctx : option RequestContext) : headers :=
  match ctx with
  | None => []
  | Some c =>
      put_header "X-Trace-ID" (rc_trace_id c)
        (put_header "X-User-ID" (rc_user_id c)
          (put_header "X-Tenant-ID" (rc_tenant_id c)
            (put_header "X-Correlation-ID" (Some (rc_correlation_id c)) [])))
  end.

(** What [_request] makes of [kwargs.get("headers")]. *)
Definition with_correlation (ctx : option RequestContext) (hs : option headers) : option headers :=
  match correlation_headers ctx with
  | [] => hs
  | corr => Some (od_update corr (default [] hs))
  end.

(** ** The clients *)

Section Clients.
(** [X] are the other keyword arguments of a request, [R] its responses. *)
Context {W R X : Type} (current : W → option RequestContext).
Context (client_request : string → string → option headers → X → PyM W R)
  (raise_for_status : R → outcome unit) (status_code : pyexn → Z).

(** The [except] clauses, in their order; anything else propagates. *)
Definition http_error (method url : string) (exc : pyexn) : pyexn :=
  if isinstance exc "TimeoutException" then
    AppTimeoutError ("HTTP request timed out: " +:+ method +:+ " " +:+ url)
  else if isinstance exc "HTTPStatusError" then
    ExternalServiceError url
      (Some ("HTTP " +:+ str_of_int (status_code exc) +:+ " from " +:+ method +:+ " " +:+ url))
  else if isinstance exc "HTTPError" then ExternalServiceError url (Some (exn_msg exc))
  else exc.

Definition HttpxHttpClient_request (method url : string) (hs : option headers) (kwargs : X) : PyM W R :=
  ctx ← reads current;
  try_base
    (response ← client_request method url (with_correlation ctx hs) kwargs;
     from_outcome (raise_for_status response) ;;
     mret response)
    (λ exc, raise (http_error method url exc)).

Definition HttpxHttpClient_get (url : string) : option headers → X → PyM W R := HttpxHttpClient_request "GET" url.
Definition HttpxHttpClient_post (url : string) : option headers → X → PyM W R := HttpxHttpClient_request "POST" url.
Definition HttpxHttpClient_put (url : string) : option headers → X → PyM W R := HttpxHttpClient_request "PUT" url.
Definition HttpxHttpClient_patch (url : string) : option headers → X → PyM W R := HttpxHttpClient_request "PATCH" url.
Definition HttpxHttpClient_delete (url : string) : option headers → X → PyM W R := HttpxHttpClient_request "DELETE" url.

(** The policy [RetryingHttpClient] makes. *)
Definition RetryingHttpClient_init `{RetryEnv W} (max_attempts : Z) : RetryPolicy W :=
  RetryPolicy_init max_attempts (Some (ExponentialBackoff (1 # 10) 30)) (Some FullJitter)
    ["ExternalServiceError"; "TimeoutError"].

Definition RetryingHttpClient_request `{RetryEnv W} (max_attempts : Z) (method url : string)
    (hs : option headers) (kwargs : X) : PyM W R :=
  RetryPolicy_execute_async (RetryingHttpClient_init max_attempts) (HttpxHttpClient_request method url hs kwargs).

(** [CircuitBreaker(cb_name, cb_policy)] is the first component of the state. *)
Definition CircuitBreakingHttpClient_request (monotonic : W → Q) (method url : string)
    (hs : option headers) (kwargs : X) : PyM (CircuitBreaker * W) R :=
  CircuitBreaker_call monotonic (on_snd (HttpxHttpClient_request method url hs kwargs)).

End Clients.

(** ** Lemmas *)

Lemma put_header_get name v hs k :
  od_get k (put_header name v hs) =
  match v with
  | None | Some "" => od_get k hs
  | Some x => if decide (k = name) then Some x else od_get k hs
  end.
Proof.
  destruct v as [[|a s]|]; simpl; try done.
  case_decide as E; [subst; by rewrite od_get_set_eq | by rewrite od_get_set_ne].
Qed.

Section DictLemmas.
Context {V : Type}.
Implicit Types (d : list (string * V)).

Lemma od_update_elem d extra k v : (k, v) ∈ od_update d extra → (k, v) ∈ d ∨ (k, v) ∈ extra.
Proof.
  unfold od_update. revert d. induction extra as [|[k0 v0] extra IH]; intros d; simpl; [by left|].
  intros [[[-> ->]|Hd]%od_set_elem|Hx]%IH; set_solver.
Qed.

Lemma od_get_unique d l k v :
  (k, v) ∈ l → (∀ v', (k, v') ∈ l → v' = v) → od_get k (od_update d l) = Some v.
Proof.
  unfold od_update. induction l as [|[k0 v0] l IH] using rev_ind; intros Hin Hu; [by apply elem_of_nil in Hin|].
  rewrite fold_left_app. simpl. destruct (decide (k0 = k)) as [->|Hne].
  - rewrite od_get_set_eq. f_equal. apply Hu. set_solver.
  - rewrite od_get_set_ne by done. apply IH; [set_solver|]. intros v' Hv'. apply Hu. set_solver.
Qed.

End DictLemmas.

Lemma correlation_header_names c k v :
  (k, v) ∈ correlation_headers (Some c) →
  k = "X-Correlation-ID" ∧ v = rc_correlation_id c ∨ lower k ≠ "x-correlation-id".
Proof.
  assert (∀ name o hs, (k, v) ∈ put_header name o hs → k = name ∧ o = Some v ∨ (k, v) ∈ hs) as Hput.
  { intros name [[|a s]|] hs; simpl; [by right| |by right]. intros [[-> ->]|Hin]%od_set_elem; auto. }
  intros [[-> _]|[[-> _]|[[-> _]|[[-> [= ->]]|[]%elem_of_nil]%Hput]%Hput]%Hput]%Hput;
    [right; vm_compute; discriminate..|by left].
Qed.

Lemma correlation_headers_get c :
  rc_correlation_id c ≠ "" →
  od_get "X-Correlation-ID" (correlation_headers (Some c)) = Some (rc_correlation_id c).
Proof.
  intros Hne. unfold correlation_headers.
  assert (∀ name o hs, name ≠ "X-Correlation-ID" →
    od_get "X-Correlation-ID" (put_header name o hs) = od_get "X-Correlation-ID" hs) as Hother.
  { intros name o hs Hn. rewrite put_header_get. destruct o as [[|a s]|]; [done| |done].
    by rewrite decide_False by done. }
  rewrite !Hother by done. rewrite put_header_get. by destruct (rc_correlation_id c).
Qed.

(** *** A client over a scripted network *)

Section RetryLemmas.
Context {R X : Type} (raise_for_status : R → outcome unit) (status_code : pyexn → Z).

(** What [_request] makes of an outcome of the network. *)
Definition http_result (method url : string) (o : outcome R) : outcome R :=
  match o with
  | Return r =>
      match raise_for_status r with
      | Return _ => Return r
      | Raise e => Raise (http_error status_code method url e)
      end
  | Raise e => Raise (http_error status_code method url e)
  end.

Lemma request_result {W} current (client : string → string → option headers → X → PyM W R) method url hs x w :
  HttpxHttpClient_request current client raise_for_status status_code method url hs x w =
  let '(o, w') := client method url (with_correlation (current w) hs) x w in (http_result method url o, w').
Proof.
  unfold HttpxHttpClient_request, mbind, PyM_bind, reads, try_base, from_outcome, http_result, mret, PyM_ret, raise.
  destruct (client _ _ _ _ w) as [[r|e] w']; [|done]. by destruct (raise_for_status r).
Qed.

Lemma retry_loop_ext {W A} `{RetryEnv W} (p : RetryPolicy W) sleep (f g : PyM W A) n attempt last w :
  (∀ w, f w = g w) → retry_loop p sleep f n attempt last w = retry_loop p sleep g n attempt last w.
Proof.
  intros Hfg. revert attempt last w. induction n as [|n IH]; intros attempt last w; [done|].
  cbn [retry_loop]. unfold try_except, try_base. rewrite Hfg. destruct (g w) as [[a|e] w']; [done|].
  destruct (is_Exception e); [|done]. destruct (_ || _); [done|].
  unfold mbind, PyM_bind, from_outcome. destruct (compute _ _); [|done].
  destruct (apply _ _ _) as [[d|e'] w1]; [|done]. destruct (sleep d w1) as [[[]|e'] w2]; [|done]. apply IH.
Qed.

(** An error of httpx is translated to one that the client retries. *)
Lemma http_error_retried {W} `{RetryEnv W} m method url e :
  isinstance e "HTTPError" = true →
  is_Exception (http_error status_code method url e) = true ∧
  should_retry (RetryingHttpClient_init (W := W) m) (http_error status_code method url e) = true.
Proof.
  intros He. unfold http_error. rewrite He.
  destruct (isinstance e "TimeoutException"), (isinstance e "HTTPStatusError"); by split.
Qed.

End RetryLemmas.

(** *** A server that fails *)

(** How a request can fail: it times out, its answer has an error status, or the
    transport breaks down with some other exception of httpx. *)
Inductive fault := TimedOut (cls : string) | ErrorStatus (status : Z) | Broken (cls msg : string).

(** The exceptions, by the classes httpx documents. *)
Definition timeout_exn (cls : string) : pyexn :=
  exn_of [cls; "TimeoutException"; "TransportError"; "RequestError"; "HTTPError"] "".
Definition status_exn (status : Z) : pyexn :=
  exn_of ["HTTPStatusError"; "HTTPError"] ("status " +:+ str_of_int status).
Definition broken_exn (cls msg : string) : pyexn := exn_of [cls; "TransportError"; "RequestError"; "HTTPError"] msg.

Definition fault_ok (f : fault) : Prop :=
  match f with Broken cls _ => str_in cls ["TimeoutException"; "HTTPStatusError"] = false | _ => True end.

(** The error the caller of the client is to see. *)
Definition caller_error (method url : string) (f : fault) : pyexn :=
  match f with
  | TimedOut _ => AppTimeoutError ("HTTP request timed out: " +:+ method +:+ " " +:+ url)
  | ErrorStatus status => ExternalServiceError url (Some ("HTTP " +:+ str_of_int status +:+ " from " +:+ method +:+ " " +:+ url))
  | Broken _ msg => ExternalServiceError url (Some msg)
  end.

(** A request: the pause before it, its method and url, its headers and other arguments, and how it will fail. *)
Record HttpCall (X : Type) := mkHttpCall {
  hc_gap : Q; hc_method : string; hc_url : string; hc_headers : option headers; hc_kwargs : X; hc_fault : fault;
}.
Arguments mkHttpCall {X} _ _ _ _ _ _.
Arguments hc_gap {X} _.
Arguments hc_method {X} _.
Arguments hc_url {X} _.
Arguments hc_headers {X} _.
Arguments hc_kwargs {X} _.
Arguments hc_fault {X} _.

(** Requests that reach the network are recorded and take [latency]. *)
Record NetWorld := mkNet { net_sent : list (string * string); net_now : Q }.

Definition faulty_server {R X} (response : Z → R) (latency : Q) (f : fault) (method url : string)
    (_ : option headers) (_ : X) : PyM NetWorld R := λ w,
  (match f with
   | TimedOut cls => Raise (timeout_exn cls)
   | ErrorStatus status => Return (response status)
   | Broken cls msg => Raise (broken_exn cls msg)
   end, mkNet (net_sent w ++ [(method, url)]) (net_now w + latency)).

Definition total (gaps : list Q) : Q := foldr Qplus 0 gaps.

Lemma total_nonneg gaps : Forall (λ g, (0 <= g)%Q) gaps → (0 <= total gaps)%Q.
Proof. induction 1; simpl in *; lra. Qed.

Section BreakerLemmas.
Context {R X : Type} (raise_for_status : R → outcome unit) (status_code : pyexn → Z) (response : Z → R).
Context (Hresponse : ∀ status, raise_for_status (response status) = Raise (status_exn status)).
Context (Hstatus : ∀ status, status_code (status_exn status) = status).
Context (current : NetWorld → option RequestContext) (latency : Q).

(** A request of the client, after its pause. *)
Definition breaking_call (c : HttpCall X) : PyM (CircuitBreaker * NetWorld) R :=
  on_snd (updates (λ w, mkNet (net_sent w) (net_now w + hc_gap c))) ;;
  CircuitBreakingHttpClient_request current (faulty_server response latency (hc_fault c)) raise_for_status status_code net_now
    (hc_method c) (hc_url c) (hc_headers c) (hc_kwargs c).

#[local] Abbreviation failure c := (caller_error (hc_method c) (hc_url c) (hc_fault c)).

(** The [except] clauses give the caller's error. *)
Lemma http_error_of_fault method url f : fault_ok f →
  http_error status_code method url
    (match f with TimedOut cls => timeout_exn cls | ErrorStatus st => status_exn st | Broken cls msg => broken_exn cls msg end) =
  caller_error method url f.
Proof using Hresponse Hstatus.
  intros Hf. unfold http_error. destruct f as [cls|st|cls msg]; cbn [caller_error].
  - assert (isinstance (timeout_exn cls) "TimeoutException" = true) as ->; [|done].
    apply bool_decide_eq_true. cbn [timeout_exn exn_of exn_mro app]. set_solver.
  - change (isinstance (status_exn st) "TimeoutException") with false. change (isinstance (status_exn st) "HTTPStatusError") with true.
    cbv iota. by rewrite Hstatus.
  - unfold fault_ok, str_in in Hf. cbn [existsb] in Hf. rewrite !orb_false_iff in Hf. destruct Hf as (H1 & H2 & _).
    apply String.eqb_neq in H1, H2.
    assert (isinstance (broken_exn cls msg) "TimeoutException" = false) as -> by (apply bool_decide_eq_false; cbn [broken_exn exn_of exn_mro app]; rewrite !elem_of_cons, elem_of_nil; intuition congruence).
    assert (isinstance (broken_exn cls msg) "HTTPStatusError" = false) as -> by (apply bool_decide_eq_false; cbn [broken_exn exn_of exn_mro app]; rewrite !elem_of_cons, elem_of_nil; intuition congruence).
    assert (isinstance (broken_exn cls msg) "HTTPError" = true) as ->; [|done].
    apply bool_decide_eq_true. cbn [broken_exn exn_of exn_mro app]. set_solver.
Qed.

Lemma call_closed c name p fc sc op sent now :
  fault_ok (hc_fault c) → counted p (failure c) = true →
  let t := (now + hc_gap c + latency)%Q in
  breaking_call c (mkBreaker name p CLOSED fc sc op, mkNet sent now) =
  (Raise (failure c), (on_failure t (mkBreaker name p CLOSED fc sc op), mkNet (sent ++ [(hc_method c, hc_url c)]) t)).
Proof using Hresponse Hstatus.
  intros Hf Hc t. unfold breaking_call, mbind, PyM_bind, on_snd at 1, updates, CircuitBreakingHttpClient_request, CircuitBreaker_call.
  cbn [fst snd net_sent net_now]. rewrite admit_call_not_open by done. unfold on_snd. cbn [fst snd]. rewrite request_result.
  pose proof (http_error_of_fault (hc_method c) (hc_url c) (hc_fault c) Hf) as Herr.
  unfold faulty_server. cbn [net_sent net_now]. unfold http_result.
  destruct (hc_fault c) as [cls|st|cls msg]; cbn [fst snd]; rewrite ?Hresponse, Herr; by rewrite settle_call_counted.
Qed.

Lemma calls_open name p sc t sent now (cs : list (HttpCall X)) :
  (now + total (map hc_gap cs) - t < timeout_seconds p)%Q → Forall (λ c, (0 <= hc_gap c)%Q) cs →
  let b := mkBreaker name p OPEN 0 sc (Some t) in
  ∃ now', run_each breaking_call cs (b, mkNet sent now) = (map (λ _, Raise (CircuitOpenError name)) cs, (b, mkNet sent now')).
Proof.
  intros Hlt Hpos b. revert now Hlt. induction Hpos as [|c cs Hg Hpos IH]; intros now Hlt; [by eexists|].
  cbn [map total foldr] in Hlt. fold (total (map hc_gap cs)) in Hlt.
  assert (0 <= total (map hc_gap cs))%Q by (apply total_nonneg; by apply Forall_map).
  destruct (IH (now + hc_gap c)%Q) as [now' Hrun]; [lra|]. exists now'. cbn [run_each map].
  assert (breaking_call c (b, mkNet sent now) = (Raise (CircuitOpenError name), (b, mkNet sent (now + hc_gap c)))) as ->; [|by rewrite Hrun].
  unfold breaking_call, mbind, PyM_bind, on_snd at 1, updates, CircuitBreakingHttpClient_request, CircuitBreaker_call. cbn [fst snd net_now net_sent].
  by rewrite (admit_call_early _ b t) by (simpl; done || lra).
Qed.

Lemma calls_closed name p fc sc op sent now (cs : list (HttpCall X)) :
  Forall (λ c, (0 <= hc_gap c)%Q ∧ fault_ok (hc_fault c) ∧ counted p (failure c) = true) cs →
  (0 <= fc < failure_threshold p)%Z → (total (map hc_gap cs) < timeout_seconds p)%Q →
  let n := Z.to_nat (failure_threshold p - fc) in
  ∃ b now', run_each breaking_call cs (mkBreaker name p CLOSED fc sc op, mkNet sent now) =
    (map (λ c, Raise (failure c)) (take n cs) ++ map (λ _, Raise (CircuitOpenError name)) (drop n cs),
     (b, mkNet (sent ++ map (λ c, (hc_method c, hc_url c)) (take n cs)) now')).
Proof using Hresponse Hstatus.
  intros Hall. revert fc op sent now. induction Hall as [|c cs (Hg & Hf & Hc) Hall IH]; intros fc op sent now Hfc Hlt n.
  { eexists _, now. rewrite take_nil, drop_nil. simpl. by rewrite app_nil_r. }
  cbn [map total foldr] in Hlt. fold (total (map hc_gap cs)) in Hlt.
  assert (Hgaps : Forall (λ c : HttpCall X, (0 <= hc_gap c)%Q) cs) by (eapply Forall_impl; [exact Hall | naive_solver]).
  assert (0 <= total (map hc_gap cs))%Q by (apply total_nonneg; by apply Forall_map).
  pose proof (call_closed c name p fc sc op sent now Hf Hc) as Hreq. cbv zeta in Hreq. unfold on_failure in Hreq.
  cbn [cb_failure_count cb_policy cb_name cb_state cb_success_count cb_opened_at] in Hreq. cbn [run_each]. rewrite Hreq.
  set (t := (now + hc_gap c + latency)%Q). destruct (Z.leb_spec (failure_threshold p) (fc + 1)) as [Hge|Hlt'].
  - destruct (calls_open name p sc t (sent ++ [(hc_method c, hc_url c)]) t cs) as [now' ->]; [lra|done|].
    eexists _, now'. assert (n = 1%nat) as -> by lia. done.
  - destruct (IH (fc + 1)%Z op (sent ++ [(hc_method c, hc_url c)]) t) as (b & now' & ->); [lia|lra|].
    eexists _, now'. replace n with (S (Z.to_nat (failure_threshold p - (fc + 1)))) by lia. cbn [take drop map app]. by rewrite <- app_assoc.
Qed.

End BreakerLemmas.

(** ** Theorems *)

(** a correlation id crosses a hop between services.  A request made under a request
    context is sent with the headers of its caller, each as given, and with the context's
    id; the correlation middleware of the called service takes exactly that id from them,
    unless the caller itself named an id. *)
Theorem correlation_hop c hs fallbacks path :
  rc_correlation_id c ≠ "" → str_all (λ ch, negb (is_space ch)) (rc_correlation_id c) = true →
  NoDup hs.*1 → Forall (λ e, lower (fst e) ≠ "x-correlation-id") hs →
  ∃ sent,
    (∀ W R X current client rfs st method url (x : X) (w : W), current w = Some c →
       HttpxHttpClient_request (R := R) current client rfs st method url (Some hs) x w =
       HttpxHttpClient_request (λ _, None) client rfs st method url (Some sent) x w) ∧
    (∀ k v, (k, v) ∈ hs → od_get k sent = Some v) ∧
    resolve_correlation (cm_request_headers (FastAPICorrelationIdMiddleware_init "X-Correlation-ID" fallbacks))
      (http_scope path (map (λ e, (lower (fst e), snd e)) sent)) = Some (rc_correlation_id c).
Proof.
  intros Hne Hsp Hnd Hother. set (corr := correlation_headers (Some c)).
  assert (corr ≠ []) as Hcorr.
  { intros E. pose proof (correlation_headers_get c Hne) as H. fold corr in H. by rewrite E in H. }
  exists (od_update corr hs). split_and!.
  - intros W R X current client rfs st method url x w Hw. rewrite !request_result, Hw.
    unfold with_correlation at 1. fold corr. by destruct corr.
  - intros k v Hin. rewrite od_get_update by done. by rewrite (od_get_NoDup k v).
  - cbn [FastAPICorrelationIdMiddleware_init cm_request_headers resolve_correlation].
    change (lower "X-Correlation-ID") with "x-correlation-id". set (scope := http_scope _ _).
    assert (header_value "x-correlation-id" scope = rc_correlation_id c) as ->.
    { unfold header_value, scope. cbn [http_scope s_headers default from_option id]. fold (od_update [] (map (λ e, (lower (fst e), snd e)) (od_update corr hs))).
      rewrite (od_get_unique _ _ _ (rc_correlation_id c)); [by apply strip_none| |].
      - change "x-correlation-id" with (lower "X-Correlation-ID").
        apply (list_elem_of_fmap_2 (λ e : string * string, (lower e.1, e.2)) _ ("X-Correlation-ID", _)).
        apply od_get_elem. rewrite od_get_update by done.
        destruct (od_get "X-Correlation-ID" hs) as [v|] eqn:E; [|by apply correlation_headers_get].
        apply od_get_elem in E. rewrite Forall_forall in Hother. by destruct (Hother _ E).
      - intros v ([k v'] & [= Hk ->] & Hin)%list_elem_of_fmap.
        apply od_update_elem in Hin as [Hin|Hin].
        + apply correlation_header_names in Hin as [[_ ->]|Hn]; [done|by destruct Hn].
        + rewrite Forall_forall in Hother. by destruct (Hother _ Hin). }
    rewrite (proj2 (String.eqb_neq _ _) Hne). by destruct (rc_correlation_id c).
Qed.

(** the retrying client sends a request until the first answer that is not an error, or
    [max_attempts] times: timeouts, connection errors and error statuses, of the client as
    well as of the server, are repeated alike and for every method; the result is that of
    the last request, and the pauses are at most 30 seconds each. *)
Theorem retrying_client_exact {R X} (raise_for_status : R → outcome unit) status_code ctx
    (script : nat → outcome R) m method url hs (x : X) w :
  (∀ i e, script i = Raise e → isinstance e "HTTPError" = true) →
  (∀ i r e, script i = Return r → raise_for_status r = Raise e → isinstance e "HTTPError" = true) →
  (1 <= m <= 1024)%Z → draws_ok w → sw_calls w = 0%nat →
  let result i := http_result raise_for_status status_code method url (script i) in
  ∃ k w' l,
    RetryingHttpClient_request (λ _, ctx) (λ _ _ _ _, scripted script) raise_for_status status_code m
      method url hs x w = (result k, w') ∧
    (1 <= Z.of_nat k <= m)%Z ∧ sw_calls w' = k ∧
    (∀ i, (0 < i < k)%nat → ∃ e, result i = Raise e) ∧
    ((∃ r, result k = Return r) ∨ Z.of_nat k = m) ∧
    sw_sleeps w' = sw_sleeps w ++ l ∧ (length l <= k - 1)%nat ∧ Forall (λ d, (0 <= d <= 30)%Q) l.
Proof.
  intros Hreq Hrfs Hm Hw Hc result. set (p := RetryingHttpClient_init (W := ScriptWorld) m).
  assert (∀ i e, result i = Raise e → final_outcome p (result i) = false) as Hfail.
  { intros i e Hi. rewrite Hi. unfold result, http_result in Hi.
    assert (∃ e0, isinstance e0 "HTTPError" = true ∧ e = http_error status_code method url e0) as (e0 & He0 & ->).
    { destruct (script i) as [r|e0] eqn:Es; [|injection Hi as <-; eauto].
      destruct (raise_for_status r) as [|e0] eqn:Er; [done|]. injection Hi as <-. eauto. }
    destruct (http_error_retried status_code (W := ScriptWorld) m method url e0 He0) as [H1 H2].
    simpl. fold p in H2. by rewrite H1, H2. }
  destruct (retry_loop_spec p result (λ _, 0%Q) 30) with (sleep := asyncio_sleep (W := ScriptWorld))
    (n := pred (Z.to_nat m)) (c := 0%nat) (w := w) (last := @None pyexn)
    as (k & w' & l & Hrun & Hk & Hbefore & Hstop & Hcalls & Hsl & Hlen & Hall).
  - apply jitter_full_within.
  - intros d _. lra.
  - intros i Hi. exists (py_min ((1 # 10) * (2 # 1) ^ i) 30). simpl in Hi |- *.
    destruct (Z.leb_spec 1024 i) as [|_]; [lia|]. split; [done|].
    pose proof (Qpower_pos (2 # 1) i ltac:(discriminate)) as Hp.
    destruct (py_min_spec ((1 # 10) * (2 # 1) ^ i) 30) as [[-> ?]|[-> ?]]; lra.
  - apply asyncio_sleep_ok.
  - done.
  - done.
  - simpl. lia.
  - exists k, w', l. split_and!; try done; try lia.
    + unfold RetryingHttpClient_request, RetryPolicy_execute_async. fold p. rewrite <- Hrun.
      change (max_attempts p) with m. replace (Z.to_nat m) with (S (pred (Z.to_nat m))) by lia.
      apply retry_loop_ext. intros w0. by rewrite request_result.
    + intros i Hi. specialize (Hbefore i Hi). destruct (result i); [done|by eexists].
    + destruct Hstop as [Hf| ->]; [left|right; lia]. destruct (result k) as [r|e] eqn:E; [by eexists|].
      by rewrite <- E, (Hfail k e E) in Hf.
Qed.


(** ** Witnesses *)

Definition demo_ctx : RequestContext := mkReqCtx "req-7" (Some "acme") None None None.

Lemma correlation_hop_witness :
  ∃ sent, od_get "Accept" sent = Some "text/html" ∧
    resolve_correlation ["x-correlation-id"; "traceparent"]
      (http_scope "/" (map (λ e, (lower (fst e), snd e)) sent)) = Some "req-7".
Proof.
  destruct (correlation_hop demo_ctx [("Accept", "text/html")] ["traceparent"] "/")
    as (sent & _ & Hget & Hres); [done|reflexivity| | |].
  - apply NoDup_singleton.
  - repeat constructor. done.
  - exists sent. split; [apply Hget; set_solver|exact Hres].
Defined.

Definition demo_timeout : pyexn := exn_of ["ReadTimeout"; "TimeoutException"; "TransportError"; "RequestError"; "HTTPError"] "".

Lemma retrying_client_exact_witness :
  ∃ k w', RetryingHttpClient_request (λ _, None)
      (λ _ _ _ _, scripted (λ i, if (i <? 2)%nat then Raise demo_timeout else Return 200%Z))
      (λ _, Return tt) (λ _, 0%Z) 3 "POST" "/pay" None tt retry_world0 = (Return 200%Z, w') ∧
    sw_calls w' = k ∧ k = 2%nat.
Proof.
  destruct (retrying_client_exact (λ _ : Z, Return tt) (λ _, 0%Z) None
    (λ i, if (i <? 2)%nat then Raise demo_timeout else Return 200%Z) 3 "POST" "/pay" None tt retry_world0)
    as (k & w' & l & Hrun & Hk & Hcalls & Hbefore & Hstop & _).
  - intros i e. destruct (i <? 2)%nat; [intros [= <-]; reflexivity|done].
  - done.
  - lia.
  - intros i. simpl. split; [discriminate|reflexivity].
  - reflexivity.
  - assert (k = 2%nat) as ->.
    { destruct (decide (k < 2)%nat) as [Hlt|Hge].
      - assert (k = 1%nat) as -> by lia. destruct Hstop as [[r [=]]|[=]].
      - destruct (decide (k = 3%nat)) as [->|]; [|lia]. destruct (Hbefore 2%nat) as [e [=]]; lia. }
    exists 2%nat, w'. by split_and!.
Defined.

Definition demo_status (e : pyexn) : Z :=
  match py_int (String.substring 7 (String.length (exn_msg e) - 7) (exn_msg e)) with Return n => n | Raise _ => 0%Z end.

Lemma demo_status_exn n : demo_status (status_exn n) = n.
Proof.
  unfold demo_status, status_exn. cbn [exn_msg exn_of].
  replace (String.length ("status " +:+ str_of_int n) - 7)%nat with (String.length (str_of_int n)) by (rewrite length_app_str; simpl; lia).
  by rewrite (substring_drop "status "), py_int_str.
Qed.

