(* ===== verification/Keycloak.v ===== *)
(** * The Keycloak adapter ([adapters/keycloak/])

    Verification of bearer tokens against the signing keys of a realm, the principal that is
    made of their claims, and the policy adapter that decides by it.  PyJWT - its key client
    and [decode] - is a parameter; claims are JSON values. *)
From S2P Require Import Prelude PyString OrderedDict PyValue Errors Security.

(** ** [str.split()]: the maximal runs of characters that are not white space *)

Fixpoint words_from (word : string) (s : string) : list string :=
  match s with
  | "" => if String.eqb word "" then [] else [word]
  | String c s' =>
      if is_space c then (if String.eqb word "" then words_from "" s' else word :: words_from "" s')
      else words_from (word +:+ String c "") s'
  end.
Definition words (s : string) : list string := words_from "" s.

(** ** Signing keys ([jwks.py]): the state is [self._client] and the rest *)

Section Jwks.
Context {C Key W : Type} (PyJWKClient : string → Z → PyM W C) (get_signing_key_from_jwt : C → string → PyM W Key).

Record JWKSClient := mkJwks { jwks_uri : string; cache_ttl : Q }.

Definition JWKSClient_get_client (self : JWKSClient) : PyM (option C * W) C :=
  client ← on_fst (reads id);
  match client with
  | Some c => mret c
  | None =>
      c ← on_snd (PyJWKClient (jwks_uri self) (Z.quot (Qnum (cache_ttl self)) (Zpos (Qden (cache_ttl self)))));
      on_fst (updates (λ _, Some c)) ;;
      mret c
  end.

Definition JWKSClient_get_signing_key (self : JWKSClient) (token : string) : PyM (option C * W) Key :=
  client ← JWKSClient_get_client self;
  on_snd (get_signing_key_from_jwt client token).

Definition JWKSClient_invalidate : PyM (option C * W) unit := on_fst (updates (λ _, None)).

End Jwks.

(** ** The verifier ([verifier.py]) *)

Record OIDCTokenVerifier := mkVerifier {
  ov_audience : option string;
  ov_algorithms : list string;
  ov_realm_roles_claim : string;
  ov_permissions_claim : string;
}.

Definition OIDCTokenVerifier_init (audience : option string) (algorithms : option (list string))
    (realm_roles_claim permissions_claim : string) : OIDCTokenVerifier :=
  mkVerifier audience (match algorithms with None | Some [] => ["RS256"] | Some l => l end)
    realm_roles_claim permissions_claim.

(** Walk down the parts of the path; [None] of an absent key ends the walk. *)
Fixpoint claim_at (parts : list string) (node : pyval) : pyval :=
  match parts with
  | [] => node
  | part :: parts' =>
      match node with
      | VDict d => claim_at parts' (default VNone (od_get part d))
      | _ => VList []
      end
  end.

(** [[r for r in node if isinstance(r, str)]]. *)
Definition strings_of (node : pyval) : list string :=
  match node with
  | VList l => omap (λ v, match v with VStr s => Some s | _ => None end) l
  | _ => []
  end.

Definition OIDCTokenVerifier_extract_roles (self : OIDCTokenVerifier) (claims : list (string * pyval)) : list string :=
  strings_of (claim_at (split_on "." (ov_realm_roles_claim self)) (VDict claims)).

Definition OIDCTokenVerifier_extract_permissions (self : OIDCTokenVerifier) (claims : list (string * pyval))
    : outcome (list string) :=
  let v := default (VStr "") (od_get (ov_permissions_claim self) claims) in
  match (if truthy v then v else VStr "") with
  | VStr scope => Return (List.filter (λ s, negb (String.eqb s "")) (words scope))
  | other => Raise (AttributeError ("'" +:+ type_name other +:+ "' object has no attribute 'split'"))
  end.

(** A text claim; PyJWT and Keycloak have [sub] and [tenant_id] as text. *)
Definition text_claim (k : string) (claims : list (string * pyval)) : option string :=
  match od_get k claims with Some (VStr s) => Some s | _ => None end.

(** The claims a [Principal] keeps, those that are text. *)
Definition text_claims (claims : list (string * pyval)) : gmap string string :=
  list_to_map (omap (λ e, match snd e with VStr s => Some (fst e, s) | _ => None end) claims).

Definition oidc_principal (roles permissions : list string) (claims : list (string * pyval)) : Principal :=
  mkPrincipal (default "" (text_claim "sub" claims)) (text_claim "tenant_id" claims)
    (list_to_set roles) (list_to_set permissions) (text_claims claims) false.

Section Verify.
Context {W Key : Type} (get_signing_key : string → PyM W Key).
(** [jwt.decode(token, key, algorithms, audience, verify_aud)]. *)
Context (decode : string → Key → list string → option string → bool → PyM W (list (string * pyval))).

(** The two [except] clauses. *)
Definition unverified (exc : pyexn) : pyexn :=
  UnauthorizedError ((if isinstance exc "InvalidTokenError" then "Invalid token: " else "Token verification failed: ")
    +:+ exn_msg exc).

Definition OIDCTokenVerifier_verify (self : OIDCTokenVerifier) (token : string) : PyM W Principal :=
  claims ← try_except
    (signing_key ← get_signing_key token;
     decode token signing_key (ov_algorithms self) (ov_audience self) (bool_decide (is_Some (ov_audience self))))
    (λ exc, raise (unverified exc));
  let roles := OIDCTokenVerifier_extract_roles self claims in
  permissions ← from_outcome (OIDCTokenVerifier_extract_permissions self claims);
  mret (oidc_principal roles permissions claims).

End Verify.

(** ** The policy adapter ([policy.py]) *)

Definition KeycloakPolicyEngineAdapter_evaluate (context : PolicyContext) : PolicyDecision :=
  let resource := pc_resource context +:+ ":" +:+ pc_action context in
  if Principal_has_permission (pc_principal context) resource then ALLOW
  else if Principal_has_role (pc_principal context) "admin" then ALLOW
  else DENY.

(** ** Lemmas *)

Definition scope_word (s : string) : bool := negb (String.eqb s "") && str_all (λ c, negb (is_space c)) s.

Lemma words_from_word word w s :
  str_all (λ c, negb (is_space c)) w = true → words_from word (w +:+ s) = words_from (word +:+ w) s.
Proof.
  revert word. induction w as [|c w IH]; intros word; [by rewrite app_nil_r_str|].
  simpl. intros [Hc%negb_true_iff Hw]%andb_true_iff. by rewrite Hc, IH, app_assoc_str.
Qed.

Lemma words_join ws : Forall (λ w, scope_word w = true) ws → words (join " " ws) = ws.
Proof.
  unfold words. induction 1 as [|w ws Hw Hws IH]; [done|].
  apply andb_true_iff in Hw as [Hne%negb_true_iff Hw].
  destruct ws as [|w' ws]; cbn [join].
  - rewrite <- (app_nil_r_str w) at 1. rewrite words_from_word by done. cbn [words_from]. change ("" +:+ w) with w. by rewrite Hne.
  - rewrite words_from_word by done. change ("" +:+ w) with w. change (" " +:+ ?s) with (String " " s).
    cbn [words_from]. change (is_space " ") with true. cbv iota. rewrite Hne. f_equal. exact IH.
Qed.

Lemma words_nonempty word s : Forall (λ w, w ≠ "") (words_from word s).
Proof.
  revert word. induction s as [|c s IH]; intros word; simpl.
  - destruct (String.eqb_spec word ""); by repeat constructor.
  - destruct (is_space c); [|apply IH]. destruct (String.eqb_spec word ""); [apply IH|]. by constructor.
Qed.

Lemma words_kept s : List.filter (λ w, negb (String.eqb w "")) (words s) = words s.
Proof.
  pose proof (words_nonempty "" s) as H. fold (words s) in H.
  induction H as [|w ws Hw _ IH]; [done|]. simpl. apply String.eqb_neq in Hw. by rewrite Hw, IH.
Qed.

Lemma has_spec (s : list string) x :
  set_any (λ r, String.eqb r x) (list_to_set s : gset string) = true ↔ x ∈ s.
Proof.
  rewrite set_any_spec. split.
  - intros (y & Hy & ->%String.eqb_eq). by apply elem_of_list_to_set in Hy.
  - intros Hx. exists x. by rewrite elem_of_list_to_set, String.eqb_refl.
Qed.

Lemma extract_permissions_cases self claims :
  match OIDCTokenVerifier_extract_permissions self claims with
  | Return _ => ∀ v, od_get (ov_permissions_claim self) claims = Some v → truthy v = false ∨ ∃ s, v = VStr s
  | Raise e => isinstance e "AttributeError" = true ∧
      ∃ v, od_get (ov_permissions_claim self) claims = Some v ∧ truthy v = true ∧ ∀ s, v ≠ VStr s
  end.
Proof.
  unfold OIDCTokenVerifier_extract_permissions.
  destruct (od_get (ov_permissions_claim self) claims) as [v|]; cbn [default from_option id]; [|done].
  destruct (truthy v) eqn:Et; [|intros v' [= <-]; by left].
  destruct v as [| | | |s| |]; cbv iota;
    try (split; [reflexivity|eexists; split_and!; [reflexivity|exact Et|intros s [=]]]).
  intros v' [= <-]. right. by exists s.
Qed.

(** ** Theorems *)

(** a Keycloak token authorises what it says.  When the token verifies, the principal is
    its subject, and the policy adapter allows an action on a resource exactly if the scope
    lists the permission [resource:action] or the realm roles include [admin]. *)
Theorem keycloak_authorises {W Key} (get_signing_key : string → PyM W Key) decode audience algorithms token
    w key w1 claims w2 access rs perms :
  let self := OIDCTokenVerifier_init audience algorithms "realm_access.roles" "scope" in
  get_signing_key token w = (Return key, w1) →
  decode token key (ov_algorithms self) audience (bool_decide (is_Some audience)) w1 = (Return claims, w2) →
  od_get "realm_access" claims = Some (VDict access) → od_get "roles" access = Some (VList (map VStr rs)) →
  od_get "scope" claims = Some (VStr (join " " perms)) → Forall (λ p, scope_word p = true) perms →
  ∃ p, OIDCTokenVerifier_verify get_signing_key decode self token w = (Return p, w2) ∧
    subject p = default "" (text_claim "sub" claims) ∧ tenant_id p = text_claim "tenant_id" claims ∧
    ∀ resource action attrs,
      KeycloakPolicyEngineAdapter_evaluate (mkPolicyContext p resource action attrs) = ALLOW ↔
      resource +:+ ":" +:+ action ∈ perms ∨ "admin" ∈ rs.
Proof.
  intros self Hkey Hdec Hacc Hroles Hscope Hperms. exists (oidc_principal rs perms claims).
  assert (OIDCTokenVerifier_extract_roles self claims = rs) as Er.
  { unfold OIDCTokenVerifier_extract_roles. change (split_on "." (ov_realm_roles_claim self)) with ["realm_access"; "roles"].
    cbn [claim_at]. rewrite Hacc. cbn [default from_option id]. rewrite Hroles. cbn [default from_option id claim_at strings_of].
    clear. induction rs as [|r rs IH]; [done|]. cbn. by f_equal. }
  assert (OIDCTokenVerifier_extract_permissions self claims = Return perms) as Ep.
  { unfold OIDCTokenVerifier_extract_permissions. cbn [self OIDCTokenVerifier_init ov_permissions_claim].
    rewrite Hscope. cbn [default from_option id truthy].
    assert ((if negb (String.eqb (join " " perms) "") then VStr (join " " perms) else VStr "") = VStr (join " " perms)) as ->
      by (destruct (String.eqb_spec (join " " perms) "") as [->|]; done).
    by rewrite words_kept, words_join. }
  split_and!; [|done|done|].
  - unfold OIDCTokenVerifier_verify, try_except, try_base, mbind, PyM_bind.
    rewrite Hkey. cbn [self OIDCTokenVerifier_init ov_audience]. rewrite Hdec. by rewrite Er, Ep.
  - intros resource action attrs. unfold KeycloakPolicyEngineAdapter_evaluate, Principal_has_permission, Principal_has_role.
    cbn [pc_principal pc_resource pc_action oidc_principal permissions roles].
    destruct (set_any _ (list_to_set perms)) eqn:E1; [apply has_spec in E1; tauto|].
    destruct (set_any _ (list_to_set rs)) eqn:E2; [apply has_spec in E2; tauto|].
    split; [done|]. intros [Hin%has_spec|Hin%has_spec]; congruence.
Qed.

(** verification fails closed.  Whatever exception the key client or PyJWT raises, the
    caller gets [UnauthorizedError]; cancellation passes through; and a verified token whose
    scope is neither text nor empty ends in [AttributeError], which is not one. *)
Theorem oidc_errors {W Key} (get_signing_key : string → PyM W Key) decode self token w :
  let attempt := get_signing_key token ≫= λ key,
    decode token key (ov_algorithms self) (ov_audience self) (bool_decide (is_Some (ov_audience self))) in
  match attempt w with
  | (Raise e, w') =>
      OIDCTokenVerifier_verify get_signing_key decode self token w =
        (Raise (if is_Exception e then unverified e else e), w') ∧
      (is_Exception e = true → isinstance (unverified e) "UnauthorizedError" = true)
  | (Return claims, w') =>
      snd (OIDCTokenVerifier_verify get_signing_key decode self token w) = w' ∧
      ((∃ p, fst (OIDCTokenVerifier_verify get_signing_key decode self token w) = Return p) ↔
       ∀ v, od_get (ov_permissions_claim self) claims = Some v → truthy v = false ∨ ∃ s, v = VStr s) ∧
      ∀ e, fst (OIDCTokenVerifier_verify get_signing_key decode self token w) = Raise e → isinstance e "AttributeError" = true
  end.
Proof.
  intros attempt.
  assert (OIDCTokenVerifier_verify get_signing_key decode self token w =
    match attempt w with
    | (Return claims, w') =>
        (match OIDCTokenVerifier_extract_permissions self claims with
         | Return perms => Return (oidc_principal (OIDCTokenVerifier_extract_roles self claims) perms claims)
         | Raise e => Raise e
         end, w')
    | (Raise e, w') => (Raise (if is_Exception e then unverified e else e), w')
    end) as ->.
  { unfold OIDCTokenVerifier_verify, try_except, try_base. fold attempt. unfold mbind at 1, PyM_bind at 1.
    destruct (attempt w) as [[claims|e] w']; [|by destruct (is_Exception e)].
    unfold mbind, PyM_bind, from_outcome. by destruct (OIDCTokenVerifier_extract_permissions self claims). }
  destruct (attempt w) as [[claims|e] w']; [|by split].
  pose proof (extract_permissions_cases self claims) as Hc.
  destruct (OIDCTokenVerifier_extract_permissions self claims) as [perms|e]; simpl.
  - split_and!; [done| |by intros e [=]]. split; [intros _; exact Hc|by eexists].
  - destruct Hc as (He & v & Hv & Ht & Hs). split_and!; [done| |by intros e' [= <-]].
    split; [by intros [p [=]]|]. intros H. destruct (H v Hv) as [|[s ->]]; [congruence|by destruct (Hs s)].
Qed.

(** ** Witnesses *)

Definition demo_claims : list (string * pyval) :=
  [("sub", VStr "u1"); ("realm_access", VDict [("roles", VList [VStr "viewer"])]); ("scope", VStr "orders:read orders:write")].

Lemma keycloak_authorises_witness :
  ∃ p, OIDCTokenVerifier_verify (λ _ u, (Return "key", u)) (λ _ _ _ _ _ u, (Return demo_claims, u))
      (OIDCTokenVerifier_init None None "realm_access.roles" "scope") "token" tt = (Return p, tt) ∧
    KeycloakPolicyEngineAdapter_evaluate (mkPolicyContext p "orders" "write" ∅) = ALLOW ∧
    KeycloakPolicyEngineAdapter_evaluate (mkPolicyContext p "orders" "delete" ∅) ≠ ALLOW.
Proof.
  destruct (keycloak_authorises (λ _ u, (Return "key", u)) (λ _ _ _ _ _ u, (Return demo_claims, u)) None None "token" tt "key" tt
    demo_claims tt [("roles", VList [VStr "viewer"])] ["viewer"] ["orders:read"; "orders:write"])
    as (p & Hp & _ & _ & Hdec); [done..|repeat constructor|].
  exists p. split_and!; [exact Hp| |].
  - apply Hdec. left. simpl. set_solver.
  - rewrite Hdec. simpl. set_solver.
Defined.
