(* ===== verification/Search.v ===== *)
(** * The in-memory search engine ([application/search/])

    Items are dictionaries of values ([key_fn] has been applied).  Values of unlike types
    cannot be compared: such a filter or sort raises [TypeError].  Which pairs a sort
    compares is that of an insertion sort; the result of a sort that does not raise does
    not depend on it, since Python's sort is stable as well. *)
From S2P Require Import Prelude PyString OrderedDict PyValue Masking.

(** ** Comparison of values *)

Definition not_supported (op : string) (a b : pyval) : pyexn :=
  TypeError ("'" +:+ op +:+ "' not supported between instances of '" +:+ type_name a +:+ "' and '"
    +:+ type_name b +:+ "'").

(** [a < b], or another of the four order comparisons [op] with the meaning [num] on
    numbers and [str] on strings; lists compare at the first difference. *)
Section Compare.
Context (op : string) (num : Q → Q → bool) (str : string → string → bool) (len : nat → nat → bool).

Fixpoint py_cmp (a b : pyval) {struct a} : outcome bool :=
  match a, b with
  | VStr s, VStr t => Return (str s t)
  | VList l, VList m =>
      (fix go l m := match l, m with
                     | x :: l', y :: m' => if py_eq x y then go l' m' else py_cmp x y
                     | _, _ => Return (len (length l) (length m))
                     end) l m
  | _, _ =>
      match number_of a, number_of b with
      | Some x, Some y => Return (num x y)
      | _, _ => Raise (not_supported op a b)
      end
  end.

End Compare.

Definition str_ltb (s t : string) : bool := negb (str_leb t s).

Definition py_lt : pyval → pyval → outcome bool := py_cmp "<" Qltb str_ltb Nat.ltb.
Definition py_le : pyval → pyval → outcome bool := py_cmp "<=" Qle_bool str_leb Nat.leb.
Definition py_gt : pyval → pyval → outcome bool :=
  py_cmp ">" (λ x y, Qltb y x) (λ s t, str_ltb t s) (λ m n, Nat.ltb n m).
Definition py_ge : pyval → pyval → outcome bool :=
  py_cmp ">=" (λ x y, Qle_bool y x) (λ s t, str_leb t s) (λ m n, Nat.leb n m).

(** [a in b]. *)
Definition py_in (a b : pyval) : outcome bool :=
  match b with
  | VList l => Return (existsb (py_eq a) l)
  | VDict d =>
      match a with
      | VList _ | VDict _ => Raise (TypeError ("unhashable type: '" +:+ type_name a +:+ "'"))
      | VStr s => Return (od_mem s d)
      | _ => Return false
      end
  | VStr t =>
      match a with
      | VStr s => Return (contains s t)
      | _ => Raise (TypeError ("'in <string>' requires string as left operand, not " +:+ type_name a))
      end
  | _ => Raise (TypeError ("argument of type '" +:+ type_name b +:+ "' is not iterable"))
  end.

(** ** Queries and results ([query.py], [result.py]) *)

Inductive FilterOp := OpEq | OpNeq | OpGt | OpGte | OpLt | OpLte | OpIn | OpContains.

Record Filter := mkFilter { f_field : string; f_value : pyval; f_op : FilterOp }.

Record SortField := mkSort { so_field : string; so_desc : bool }.

Record SearchQuery := mkQuery {
  q_terms : string;
  q_filters : list Filter;
  q_sort : list SortField;
  q_page : Z;
  q_page_size : Z;
}.

Record SearchResult (T : Type) := mkSearchResult {
  sr_items : list T;
  sr_total : Z;
  sr_page : Z;
  sr_page_size : Z;
  sr_took_ms : Z;
}.
Arguments mkSearchResult {T}.
Arguments sr_items {T}. Arguments sr_total {T}. Arguments sr_page {T}. Arguments sr_page_size {T}. Arguments sr_took_ms {T}.

Definition SearchResult_total_pages {T} (r : SearchResult T) : Z :=
  if (sr_page_size r =? 0)%Z then 0%Z else ((sr_total r + sr_page_size r - 1) / sr_page_size r)%Z.

Definition SearchResult_has_next {T} (r : SearchResult T) : bool := (sr_page r <? SearchResult_total_pages r)%Z.

(** ** The engine ([service.py]) *)

(** [l[a:b]]. *)
Definition py_index (n i : Z) : Z := if (i <? 0)%Z then Z.max 0 (i + n) else Z.min i n.
Definition py_slice {T} (a b : Z) (l : list T) : list T :=
  let n := Z.of_nat (length l) in
  let i := py_index n a in let j := py_index n b in
  take (Z.to_nat (j - i)) (drop (Z.to_nat i) l).

Section Engine.
Context {T W : Type} (key_fn : T → list (string * pyval)) (float_repr : Q → string) (monotonic : PyM W Q).

Definition field_of (name : string) (d : list (string * pyval)) : pyval := default VNone (od_get name d).

(** [val is not None and cmp(val, value)]. *)
Definition if_some (v : pyval) (o : outcome bool) : outcome bool :=
  match v with VNone => Return false | _ => o end.

Definition InMemorySearchEngine_matches_filter (d : list (string * pyval)) (f : Filter) : outcome bool :=
  let val := field_of (f_field f) d in
  match f_op f with
  | OpEq => Return (py_eq val (f_value f))
  | OpNeq => Return (negb (py_eq val (f_value f)))
  | OpGt => if_some val (py_gt val (f_value f))
  | OpGte => if_some val (py_ge val (f_value f))
  | OpLt => if_some val (py_lt val (f_value f))
  | OpLte => if_some val (py_le val (f_value f))
  | OpIn => py_in val (f_value f)
  | OpContains => py_in (f_value f) (VStr (if truthy val then doc_str float_repr val else ""))
  end.

(** [any(terms.lower() in str(v).lower() for v in d.values())]. *)
Definition text_match (terms : string) (d : list (string * pyval)) : bool :=
  existsb (λ e, contains (lower terms) (lower (doc_str float_repr (snd e)))) d.

(** [all(...)] stops at the first false. *)
Fixpoint all_filters (d : list (string * pyval)) (fs : list Filter) : outcome bool :=
  match fs with
  | [] => Return true
  | f :: fs' =>
      match InMemorySearchEngine_matches_filter d f with
      | Raise e => Raise e
      | Return true => all_filters d fs'
      | Return false => Return false
      end
  end.

Definition query_matches (q : SearchQuery) (d : list (string * pyval)) : outcome bool :=
  if negb (String.eqb (q_terms q) "") && negb (text_match (q_terms q) d) then Return false
  else all_filters d (q_filters q).

(** The loop over the items. *)
Fixpoint matching (q : SearchQuery) (items : list T) : outcome (list T) :=
  match items with
  | [] => Return []
  | x :: items' =>
      match query_matches q (key_fn x) with
      | Raise e => Raise e
      | Return m =>
          match matching q items' with
          | Raise e => Raise e
          | Return rest => Return (if m then x :: rest else rest)
          end
      end
  end.

(** [key_fn(x).get(field) or ""]. *)
Definition sort_key (name : string) (x : T) : pyval :=
  let v := field_of name (key_fn x) in if truthy v then v else VStr "".

(** Put [x], which came first, before the elements that are not less. *)
Fixpoint insert_sorted (before : T → T → outcome bool) (x : T) (l : list T) : outcome (list T) :=
  match l with
  | [] => Return [x]
  | y :: l' =>
      match before y x with
      | Raise e => Raise e
      | Return true =>
          match insert_sorted before x l' with
          | Raise e => Raise e
          | Return r => Return (y :: r)
          end
      | Return false => Return (x :: l)
      end
  end.

Fixpoint stable_sort (before : T → T → outcome bool) (l : list T) : outcome (list T) :=
  match l with
  | [] => Return []
  | x :: l' =>
      match stable_sort before l' with
      | Raise e => Raise e
      | Return s => insert_sorted before x s
      end
  end.

(** [y] must come before [x]; with [reverse=True] equal elements keep their order too. *)
Definition sorts_before (sf : SortField) (y x : T) : outcome bool :=
  if so_desc sf then py_lt (sort_key (so_field sf) x) (sort_key (so_field sf) y)
  else py_lt (sort_key (so_field sf) y) (sort_key (so_field sf) x).

(** [for sf in reversed(query.sort): results.sort(...)]. *)
Fixpoint sort_all (sort : list SortField) (results : list T) : outcome (list T) :=
  match sort with
  | [] => Return results
  | sf :: sort' =>
      match sort_all sort' results with
      | Raise e => Raise e
      | Return r => stable_sort (sorts_before sf) r
      end
  end.

(** Everything the query finds, in order. *)
Definition found (q : SearchQuery) (items : list T) : outcome (list T) :=
  match matching q items with
  | Raise e => Raise e
  | Return results => sort_all (q_sort q) results
  end.

Definition InMemorySearchEngine_search (items : list T) (q : SearchQuery) : PyM W (SearchResult T) :=
  t0 ← monotonic;
  results ← from_outcome (found q items);
  let start := ((q_page q - 1) * q_page_size q)%Z in
  let page_items := py_slice start (start + q_page_size q) results in
  t1 ← monotonic;
  let ms := ((t1 - t0) * 1000)%Q in
  mret (mkSearchResult page_items (Z.of_nat (length results)) (q_page q) (q_page_size q)
          (Z.quot (Qnum ms) (Zpos (Qden ms)))).

(** [str(key_fn(item).get(field, ""))]. *)
Definition suggestion (name : string) (x : T) : string :=
  doc_str float_repr (default (VStr "") (od_get name (key_fn x))).

Fixpoint suggest_loop (prefix name : string) (items : list T) (out : list string) : list string :=
  match items with
  | [] => out
  | x :: items' =>
      let val := suggestion name x in
      suggest_loop prefix name items'
        (if startswith (lower prefix) (lower val) && negb (str_in val out) then out ++ [val] else out)
  end.

Definition InMemorySearchEngine_suggest (items : list T) (prefix name : string) : list string :=
  suggest_loop prefix name items [].

End Engine.

(** ** Lemmas: order *)

Section SortLemmas.
Context {T : Type} (before : T → T → outcome bool) (le : T → T → bool) (P : T → Prop).
Context (Htot : ∀ x y, le x y = true ∨ le y x = true).
Context (Htrans : ∀ x y z, le x y = true → le y z = true → le x z = true).
Context (Hbefore : ∀ x y, P x → P y → before y x = Return (negb (le x y))).

(** Sorted by [le], and by [R] where [le] does not decide. *)
Definition refined (R : T → T → Prop) (x y : T) : Prop := le y x = false ∨ le x y = true ∧ le y x = true ∧ R x y.

Lemma insert_refined R x l :
  P x → Forall P l → Forall (R x) l → StronglySorted (refined R) l →
  ∃ r, insert_sorted before x l = Return r ∧ r ≡ₚ x :: l ∧ StronglySorted (refined R) r.
Proof.
  intros Hx Hall HR Hs. induction Hs as [|y l Hs IH Hy]; [by exists [x]; repeat constructor|].
  apply Forall_cons in Hall as [HPy Hall], HR as [HRy HR]. cbn [insert_sorted]. rewrite Hbefore by done.
  destruct (le x y) eqn:E; simpl.
  - exists (x :: y :: l). split_and!; [done|done|]. constructor; [by constructor|].
    assert (∀ z, le x z = true → R x z → refined R x z) as Hcase
      by (intros z Hz HRz; unfold refined; destruct (le z x) eqn:E'; [by right|by left]).
    constructor; [by apply Hcase|]. rewrite Forall_forall in Hy, HR |- *. intros z Hz. apply Hcase; [|by apply HR].
    apply (Htrans x y z); [done|]. destruct (Hy z Hz) as [H|(H & _)]; [|done].
    destruct (Htot y z); congruence.
  - destruct (IH Hall HR) as (r & -> & Hperm & Hr). exists (y :: r). split_and!; [done| |].
    + rewrite Hperm. apply Permutation_swap.
    + constructor; [done|]. rewrite Hperm. constructor; [by left|done].
Qed.

Lemma sort_refined R l :
  Forall P l → StronglySorted R l →
  ∃ r, stable_sort before l = Return r ∧ r ≡ₚ l ∧ StronglySorted (refined R) r.
Proof.
  intros Hall Hs. induction Hs as [|x l Hs IH Hx]; [by exists []; repeat constructor|].
  apply Forall_cons in Hall as [HPx Hall]. destruct (IH Hall) as (s & Hs' & Hperm & Hsorted).
  cbn [stable_sort]. rewrite Hs'.
  destruct (insert_refined R x s) as (r & Hr & Hp & Hsr); [done|by rewrite Hperm|by rewrite Hperm|done|].
  exists r. split_and!; [done| |done]. by rewrite Hp, Hperm.
Qed.

End SortLemmas.

Section OrderLemmas.
Context {T : Type} (key_fn : T → list (string * pyval)).
Implicit Types (sf : SortField) (ms : list T).

(** The keys of a sort field are all text or all numbers. *)
Definition comparable sf ms : Prop :=
  (∀ x, x ∈ ms → ∃ s, sort_key key_fn (so_field sf) x = VStr s) ∨
  (∀ x, x ∈ ms → ∃ n, number_of (sort_key key_fn (so_field sf) x) = Some n).

(** Sorted by the first field, then by the second where the first does not decide, and so
    on; last comes the order [R] the items had. *)
Fixpoint lexicographic (sort : list SortField) (R : T → T → Prop) (x y : T) : Prop :=
  match sort with
  | [] => R x y
  | sf :: sort' =>
      sorts_before key_fn sf x y = Return true ∨
      sorts_before key_fn sf x y = Return false ∧ sorts_before key_fn sf y x = Return false ∧
      lexicographic sort' R x y
  end.

Lemma py_lt_numbers a b x y : number_of a = Some x → number_of b = Some y → py_lt a b = Return (Qltb x y).
Proof.
  intros Ha Hb. unfold py_lt.
  destruct a as [| | | | | |], b as [| | | | | |]; simpl in *; try discriminate; congruence.
Qed.

Lemma comparable_order sf ms :
  comparable sf ms →
  ∃ le : T → T → bool,
    (∀ x y, le x y = true ∨ le y x = true) ∧ (∀ x y z, le x y = true → le y z = true → le x z = true) ∧
    ∀ x y, x ∈ ms → y ∈ ms → sorts_before key_fn sf y x = Return (negb (le x y)).
Proof.
  intros [Htext|Hnum].
  - set (text x := match sort_key key_fn (so_field sf) x with VStr s => s | _ => "" end).
    exists (λ x y, if so_desc sf then str_leb (text y) (text x) else str_leb (text x) (text y)). split_and!.
    + intros x y. destruct (so_desc sf); apply str_leb_total.
    + intros x y z. destruct (so_desc sf); eauto using str_leb_trans.
    + intros x y Hx Hy. unfold sorts_before, text. destruct (Htext x Hx) as [s ->], (Htext y Hy) as [t ->].
      by destruct (so_desc sf).
  - set (num x := default 0%Q (number_of (sort_key key_fn (so_field sf) x))).
    exists (λ x y, if so_desc sf then Qle_bool (num y) (num x) else Qle_bool (num x) (num y)). split_and!.
    + intros x y. destruct (so_desc sf); rewrite !Qle_bool_iff; destruct (Qlt_le_dec (num x) (num y)); lra.
    + intros x y z. destruct (so_desc sf); rewrite !Qle_bool_iff; lra.
    + intros x y Hx Hy. unfold sorts_before, num. destruct (Hnum x Hx) as [n Hn], (Hnum y Hy) as [m Hm].
      rewrite Hn, Hm. destruct (so_desc sf); by erewrite py_lt_numbers by done.
Qed.

Lemma comparable_perm sf ms ms' : ms ≡ₚ ms' → comparable sf ms → comparable sf ms'.
Proof. intros Hp. unfold comparable. by setoid_rewrite Hp. Qed.

Lemma StronglySorted_impl_in {A} (R S : A → A → Prop) l :
  (∀ x y, x ∈ l → y ∈ l → R x y → S x y) → StronglySorted R l → StronglySorted S l.
Proof.
  intros H Hs. induction Hs as [|x l Hs IH Hx]; [constructor|]. constructor.
  - apply IH. intros a b Ha Hb. apply H; by right.
  - rewrite Forall_forall in Hx |- *. intros y Hy. apply H; [by left|by right|by apply Hx].
Qed.

Lemma sort_all_lexicographic sort R ms :
  Forall (λ sf, comparable sf ms) sort → StronglySorted R ms →
  ∃ rs, sort_all key_fn sort ms = Return rs ∧ rs ≡ₚ ms ∧ StronglySorted (lexicographic sort R) rs.
Proof.
  intros Hcmp Hs. induction Hcmp as [|sf sort Hsf _ (r & Hr & Hperm & Hsr)]; [by exists ms|].
  apply (comparable_perm sf ms r) in Hsf; [|done]. destruct (comparable_order _ _ Hsf) as (le & Htot & Htrans & Hle).
  destruct (sort_refined (sorts_before key_fn sf) le (.∈ r) Htot Htrans) with (R := lexicographic sort R) (l := r)
    as (rs & Hrs & Hp & Hss); [done|by apply Forall_forall|done|].
  exists rs. cbn [sort_all]. rewrite Hr. split_and!; [done|by rewrite Hp|].
  revert Hss. apply StronglySorted_impl_in. intros x y Hx Hy. rewrite Hp in Hx, Hy.
  unfold refined. cbn [lexicographic]. rewrite !Hle by done. intros [->|(-> & -> & HR)]; [by left|by right].
Qed.

End OrderLemmas.

(** ** Lemmas: pages *)

Lemma py_slice_page {T} (start size : Z) (l : list T) :
  (0 <= start)%Z → (0 <= size)%Z →
  py_slice start (start + size) l = take (Z.to_nat size) (drop (Z.to_nat start) l).
Proof.
  intros Hs Hn. unfold py_slice, py_index. set (n := Z.of_nat (length l)).
  rewrite !(proj2 (Z.ltb_ge _ _)) by lia.
  destruct (Z.le_gt_cases n start) as [Hle|Hgt].
  - rewrite !drop_ge by lia. by rewrite !take_nil.
  - replace (Z.min start n) with start by lia. destruct (Z.le_gt_cases (start + size) n).
    + f_equal. lia.
    + rewrite !take_ge; [done|rewrite length_drop; lia|rewrite length_drop; lia].
Qed.

Lemma pages_join {T} (size k : nat) (l : list T) :
  mjoin ((λ i, take size (drop (i * size) l)) <$> seq 0 k) = take (k * size) l.
Proof.
  induction k as [|k IH]; [done|]. rewrite seq_S, fmap_app. rewrite join_app, IH. simpl.
  rewrite app_nil_r. replace (size + k * size)%nat with (k * size + size)%nat by lia. apply take_take_drop.
Qed.

Definition at_page (q : SearchQuery) (n : Z) : SearchQuery :=
  mkQuery (q_terms q) (q_filters q) (q_sort q) n (q_page_size q).

Lemma found_page {T} (key_fn : T → list (string * pyval)) float_repr q n items :
  found key_fn float_repr (at_page q n) items = found key_fn float_repr q items.
Proof.
  unfold found. assert (matching key_fn float_repr (at_page q n) items = matching key_fn float_repr q items) as ->; [|done].
  induction items as [|x items IH]; [done|]. cbn [matching]. by rewrite IH.
Qed.

(** ** Theorems *)

(** the pages of a search make up what it finds.  When the query finds [rs], every page
    number answers without error with the total and at most [page_size] items; pages 1 to
    [total_pages] in order are [rs], each item once; and there is a next page exactly while
    items remain. *)
Theorem search_pages {T W} key_fn float_repr (monotonic : PyM W Q) (items : list T) q rs w :
  (∀ w, ∃ t, monotonic w = (Return t, w)) →
  found key_fn float_repr q items = Return rs → (1 <= q_page_size q)%Z →
  ∃ page : Z → SearchResult T,
    (∀ n, (1 <= n)%Z →
       InMemorySearchEngine_search key_fn float_repr monotonic items (at_page q n) w = (Return (page n), w) ∧
       sr_total (page n) = Z.of_nat (length rs) ∧ (Z.of_nat (length (sr_items (page n))) <= q_page_size q)%Z ∧
       (SearchResult_has_next (page n) = true ↔ (n * q_page_size q < Z.of_nat (length rs))%Z)) ∧
    ∀ n, (1 <= n)%Z →
      mjoin ((λ i, sr_items (page (Z.of_nat i + 1)%Z)) <$> seq 0 (Z.to_nat (SearchResult_total_pages (page n)))) = rs.
Proof.
  intros Hclock Hfound Hsize. set (size := q_page_size q) in *. set (total := Z.of_nat (length rs)).
  destruct (Hclock w) as [t Ht].
  exists (λ n, mkSearchResult (take (Z.to_nat size) (drop (Z.to_nat ((n - 1) * size)) rs)) total n size
    (Z.quot (Qnum ((t - t) * 1000)) (Zpos (Qden ((t - t) * 1000))))).
  split.
  - intros n Hn. cbn [sr_total sr_items]. split_and!; [|done|rewrite length_take; lia|].
    + unfold InMemorySearchEngine_search, mbind, PyM_bind, from_outcome. rewrite Ht. rewrite found_page, Hfound, Ht.
      cbn [at_page q_page q_page_size]. fold size. rewrite py_slice_page by nia. done.
    + unfold SearchResult_has_next, SearchResult_total_pages. cbn [sr_page sr_page_size sr_total].
      rewrite (proj2 (Z.eqb_neq size 0)) by lia. rewrite Z.ltb_lt. split; intros H.
      * pose proof (Z.mul_div_le (total + size - 1) size). nia.
      * apply Z.lt_le_trans with (n + 1)%Z; [lia|]. apply Z.div_le_lower_bound; nia.
  - intros n Hn. cbn [sr_items]. unfold SearchResult_total_pages. cbn [sr_page_size sr_total].
    rewrite (proj2 (Z.eqb_neq size 0)) by lia.
    assert (∀ i : nat, Z.to_nat ((Z.of_nat i + 1 - 1) * size) = (i * Z.to_nat size)%nat) as Hi by (intros i; nia).
    rewrite (list_fmap_ext _ (λ i, take (Z.to_nat size) (drop (i * Z.to_nat size) rs))) by (intros i ? _; by rewrite Hi).
    rewrite pages_join. apply take_ge.
    pose proof (Z.mul_succ_div_gt (total + size - 1) size). nia.
Qed.

(** results come in the order the query asks for.  When the keys of each sort field are
    all text or all numbers among the matching items, the search does not fail, finds
    exactly the matching items, and has them sorted by the first field, then by the second
    where the first ties, and so on; items that tie in all fields stay in the order they
    had. *)
Theorem search_order {T} key_fn float_repr (items : list T) q ms R :
  matching key_fn float_repr q items = Return ms →
  Forall (λ sf, comparable key_fn sf ms) (q_sort q) → StronglySorted R ms →
  ∃ rs, found key_fn float_repr q items = Return rs ∧ rs ≡ₚ ms ∧
    StronglySorted (lexicographic key_fn (q_sort q) R) rs.
Proof. intros Hms Hcmp Hs. unfold found. rewrite Hms. by apply sort_all_lexicographic. Qed.

(** zero does not sort.  The sort key takes a zero for an empty text, so sorting items by a
    number fails with [TypeError] as soon as one has the value 0 and another does not. *)
Theorem search_zero_unsortable {T} (key_fn : T → list (string * pyval)) name desc x y n :
  field_of name (key_fn x) = VInt 0 → field_of name (key_fn y) = VInt n → n ≠ 0%Z →
  ∃ msg, sort_all key_fn [mkSort name desc] [x; y] = Raise (TypeError msg).
Proof.
  intros Hx Hy Hn. cbn [sort_all stable_sort insert_sorted]. unfold sorts_before, sort_key. cbn [so_desc so_field].
  rewrite Hx, Hy. cbn [truthy]. rewrite (proj2 (Z.eqb_neq _ _) Hn). destruct desc; simpl; by eexists.
Qed.

(** suggestions are the distinct values that start with the prefix, in any case of
    letters. *)
Theorem suggest_exact {T} key_fn float_repr (items : list T) prefix name :
  let out := InMemorySearchEngine_suggest key_fn float_repr items prefix name in
  NoDup out ∧
  ∀ v, v ∈ out ↔ startswith (lower prefix) (lower v) = true ∧
    ∃ x, x ∈ items ∧ suggestion key_fn float_repr name x = v.
Proof.
  intros out. unfold out, InMemorySearchEngine_suggest. set (ok v := startswith (lower prefix) (lower v) = true).
  assert (∀ acc, NoDup acc → NoDup (suggest_loop key_fn float_repr prefix name items acc) ∧
    ∀ v, v ∈ suggest_loop key_fn float_repr prefix name items acc ↔
      v ∈ acc ∨ ok v ∧ ∃ x, x ∈ items ∧ suggestion key_fn float_repr name x = v) as Hloop.
  { induction items as [|x items IH]; intros acc Hnd; cbn [suggest_loop].
    - split; [done|]. intros v. set_solver.
    - set (s := suggestion key_fn float_repr name x). fold (ok s).
      assert (str_in s acc = true ↔ s ∈ acc) as Hin.
      { unfold str_in. rewrite existsb_exists. setoid_rewrite <- list_elem_of_In. split.
        - by intros (y & Hy & ->%String.eqb_eq).
        - intros Hs. exists s. by rewrite String.eqb_refl. }
      destruct (startswith (lower prefix) (lower s)) eqn:Eok, (str_in s acc) eqn:Es; cbn [andb negb].
      2: { destruct (IH (acc ++ [s])) as [HN HE].
           { apply NoDup_app. split_and!; [done| |apply NoDup_singleton]. intros y Hy. set_solver by naive_solver. }
           split; [done|]. intros v. rewrite HE. set_solver. }
      all: destruct (IH acc Hnd) as [HN HE]; split; [done|]; intros v; rewrite HE; unfold ok; set_solver. }
  destruct (Hloop [] (NoDup_nil_2)) as [HN HE]. split; [done|]. intros v. rewrite HE. set_solver.
Qed.

(** ** Witnesses *)

Definition demo_items : list (list (string * pyval)) :=
  [[("name", VStr "b"); ("age", VInt 2)]; [("name", VStr "a"); ("age", VInt 2)]; [("name", VStr "c"); ("age", VInt 1)]].
Definition demo_query : SearchQuery := mkQuery "" [] [mkSort "age" true; mkSort "name" false] 1 2.
Definition no_floats (q : Q) : string := "".

Lemma search_pages_witness :
  ∃ page : Z → SearchResult (list (string * pyval)),
    InMemorySearchEngine_search id no_floats (λ w : unit, (Return 0%Q, w)) demo_items (at_page demo_query 2) tt
      = (Return (page 2%Z), tt) ∧
    mjoin ((λ i, sr_items (page (Z.of_nat i + 1)%Z)) <$> seq 0 (Z.to_nat (SearchResult_total_pages (page 1%Z)))) =
      [[("name", VStr "a"); ("age", VInt 2)]; [("name", VStr "b"); ("age", VInt 2)]; [("name", VStr "c"); ("age", VInt 1)]].
Proof.
  destruct (search_pages id no_floats (λ w : unit, (Return 0%Q, w)) demo_items demo_query
    [[("name", VStr "a"); ("age", VInt 2)]; [("name", VStr "b"); ("age", VInt 2)]; [("name", VStr "c"); ("age", VInt 1)]] tt)
    as (page & Hpage & Hjoin).
  - intros w. by exists 0%Q.
  - reflexivity.
  - simpl. lia.
  - exists page. split; [apply Hpage; lia|apply Hjoin; lia].
Defined.

Lemma search_order_witness :
  ∃ rs, found id no_floats demo_query demo_items = Return rs ∧ rs ≡ₚ demo_items ∧
    StronglySorted (lexicographic id (q_sort demo_query) (λ _ _, True)) rs.
Proof.
  apply (search_order id no_floats demo_items demo_query demo_items (λ _ _, True)).
  - reflexivity.
  - apply Forall_forall. intros sf Hsf. unfold demo_query in Hsf. simpl in Hsf.
    apply list_elem_of_In in Hsf. destruct Hsf as [<-|[<-|[]]]; [right|left]; intros x Hx;
      apply list_elem_of_In in Hx; destruct Hx as [<-|[<-|[<-|[]]]]; by eexists.
  - repeat constructor.
Defined.

Lemma search_zero_unsortable_witness :
  ∃ msg, sort_all id [mkSort "age" false] [[("age", VInt 0)]; [("age", VInt 7)]] = Raise (TypeError msg).
Proof. by apply (search_zero_unsortable id "age" false [("age", VInt 0)] [("age", VInt 7)] 7). Defined.
