(* ===== verification/Export.v ===== *)
(** * Data export ([application/export/])

    The CSV exporter writes with [csv.writer] in its default dialect (fields separated by
    the delimiter, lines ended by CR LF, quotes doubled inside quoted fields); the export
    service chooses the format.  Text is ASCII, so that encoding it changes nothing; the
    byte order mark is its three bytes.  The spreadsheet exporter and [json.dumps] are
    parameters. *)
From S2P Require Import Prelude PyString OrderedDict PyValue Masking.

#[local] Abbreviation row := (list (string * pyval)).

(** ** [csv.writer] *)

Definition CR : ascii := "013".
Definition LF : ascii := "010".
Definition QUOTE : ascii := "034".
Definition CRLF : string := String CR (String LF "").

Inductive quoting := QUOTE_MINIMAL | QUOTE_ALL | QUOTE_NONNUMERIC | QUOTE_NONE | QUOTE_STRINGS | QUOTE_NOTNULL.

(** The constants of the module; any other number is refused. *)
Definition quoting_of_int (n : Z) : option quoting :=
  match n with
  | 0 => Some QUOTE_MINIMAL | 1 => Some QUOTE_ALL | 2 => Some QUOTE_NONNUMERIC | 3 => Some QUOTE_NONE
  | 4 => Some QUOTE_STRINGS | 5 => Some QUOTE_NOTNULL | _ => None
  end%Z.

Definition csv_Error (msg : string) : pyexn := exn_of ["Error"] msg.

(** Characters that make [QUOTE_MINIMAL] quote a field. *)
Definition special (delimiter c : ascii) : bool :=
  Ascii.eqb c delimiter || Ascii.eqb c QUOTE || Ascii.eqb c CR || Ascii.eqb c LF.

Fixpoint double_quotes (s : string) : string :=
  match s with
  | "" => ""
  | String c s' => if Ascii.eqb c QUOTE then String QUOTE (String QUOTE (double_quotes s')) else String c (double_quotes s')
  end.

Definition quoted (s : string) : string := String QUOTE (double_quotes s +:+ String QUOTE "").

Section Writer.
Context (float_repr : Q → string) (delimiter : ascii) (mode : quoting).

(** [None] is written as the empty text, a float by its [repr], anything else by [str]. *)
Definition field_text (v : pyval) : string := match v with VNone => "" | v => doc_str float_repr v end.

Definition has_special (v : pyval) : bool := negb (str_all (λ c, negb (special delimiter c)) (field_text v)).

Definition needs_quotes (v : pyval) : bool :=
  match mode with
  | QUOTE_ALL => true
  | QUOTE_NONNUMERIC => match number_of v with None => true | Some _ => false end
  | QUOTE_STRINGS => match v with VStr _ => true | _ => false end
  | QUOTE_NOTNULL => match v with VNone => false | _ => true end
  | QUOTE_MINIMAL | QUOTE_NONE => false
  end || has_special v.

Definition csv_field (v : pyval) : string := if needs_quotes v then quoted (field_text v) else field_text v.

(** The line of a row; a row of a single empty field is written with quotes. *)
Definition csv_line (fields : list pyval) : string :=
  let line := join (String delimiter "") (map csv_field fields) in
  (if String.eqb line "" && negb (Nat.eqb (length fields) 0) then quoted "" else line) +:+ CRLF.

(** Whether quotes, which a single empty field needs, are ruled out. *)
Definition no_quotes (fields : list pyval) : bool :=
  match mode with
  | QUOTE_NONE => true
  | QUOTE_STRINGS | QUOTE_NOTNULL => match last fields with Some VNone => true | _ => false end
  | _ => false
  end.

(** [writerow]: without quotes there is no way to write a special character (there is no escape character) or a row of a single empty field. *)
Definition writerow (fields : list pyval) : outcome string :=
  match mode with
  | QUOTE_NONE => if existsb has_special fields then Raise (csv_Error "need to escape, but no escapechar set") else Return tt
  | _ => Return tt
  end ≫= λ _,
  if String.eqb (join (String delimiter "") (map csv_field fields)) "" && negb (Nat.eqb (length fields) 0) && no_quotes fields
  then Raise (csv_Error "single empty field record must be quoted")
  else Return (csv_line fields).

(** Rows one after the other. *)
Fixpoint writerows (rows : list (list pyval)) : outcome string :=
  match rows with
  | [] => Return ""
  | r :: rows' => line ← writerow r; rest ← writerows rows'; Return (line +:+ rest)
  end.

End Writer.

(** ** Requests ([request.py]) and exporters *)

Record ColumnDef := mkColumn { col_key : string; col_header : string }.

(** [rows] is an asynchronous iterator: what it yields, and how it ends. *)
Record ExportRequest := mkExport {
  ex_columns : list ColumnDef;
  ex_rows : list row;
  ex_end : outcome unit;
  ex_format : string;
  ex_filename : string;
}.

Record CsvExporter := mkCsv { csv_delimiter : ascii; csv_quoting : Z; csv_bom : bool }.

Definition BOM : string := String "239" (String "187" (String "191" "")).

(** [[row.get(col.key, "") for col in columns]]. *)
Definition csv_row (columns : list ColumnDef) (r : row) : list pyval :=
  map (λ c, default (VStr "") (od_get (col_key c) r)) columns.

(** The rows are written as the iterator yields them, so an error of a row comes before that of the iterator. *)
Definition CsvExporter_export (float_repr : Q → string) (self : CsvExporter) (request : ExportRequest) : outcome string :=
  match quoting_of_int (csv_quoting self) with
  | None => Raise (exn_of ["TypeError"] "bad quoting value")
  | Some mode =>
      let write := writerows float_repr (csv_delimiter self) mode in
      text ← write (map (λ c, VStr (col_header c)) (ex_columns request) :: map (csv_row (ex_columns request)) (ex_rows request));
      ex_end request ;;
      Return ((if csv_bom self then BOM else "") +:+ text)
  end.

Section Service.
Context {W : Type} (float_repr : Q → string) (json_dumps : pyval → outcome string).
Context (ExcelExporter_export : ExportRequest → PyM W string).

(** [{col.key: row.get(col.key) for col in columns}]. *)
Definition json_row (columns : list ColumnDef) (r : row) : pyval :=
  VDict (od_update [] (map (λ c, (col_key c, default VNone (od_get (col_key c) r))) columns)).

Definition ExportService_export_json (request : ExportRequest) : outcome string :=
  match ex_end request with
  | Raise e => Raise e
  | Return _ => json_dumps (VList (map (json_row (ex_columns request)) (ex_rows request)))
  end.

Definition ExportService_export (bom : bool) (request : ExportRequest) : PyM W string :=
  if String.eqb (ex_format request) "csv" then
    from_outcome (CsvExporter_export float_repr (mkCsv "," 0 bom) request)
  else if String.eqb (ex_format request) "xlsx" then ExcelExporter_export request
  else if String.eqb (ex_format request) "json" then from_outcome (ExportService_export_json request)
  else raise (ValueError ("Unsupported export format: " +:+ py_repr (ex_format request))).

End Service.

(** ** A reader

    RFC 4180 as a machine on characters: the lines read so far, the fields of the current
    line, and where in a field the machine is.  A line without characters has no fields. *)

Inductive csv_state :=
| StartRecord
| StartField
| InField (s : string)
| InQuoted (s : string)
| QuoteInQuoted (s : string)
| EatLF.

Definition snoc (s : string) (c : ascii) : string := s +:+ String c "".

Section Reader.
Context (delimiter : ascii).

(** Outside quotes, after the field [s]: the delimiter, the end of the line, or more text. *)
Definition after_field (s : string) (c : ascii) (done : list (list string)) (fields : list string)
    : list (list string) * (list string * csv_state) :=
  if Ascii.eqb c delimiter then (done, (fields ++ [s], StartField))
  else if Ascii.eqb c CR then (done ++ [fields ++ [s]], ([], EatLF))
  else (done, (fields, InField (snoc s c))).

Definition csv_step (st : list (list string) * (list string * csv_state)) (c : ascii)
    : list (list string) * (list string * csv_state) :=
  let '(done, (fields, state)) := st in
  match state with
  | StartRecord =>
      if Ascii.eqb c CR then (done ++ [[]], ([], EatLF))
      else if Ascii.eqb c QUOTE then (done, (fields, InQuoted ""))
      else after_field "" c done fields
  | StartField => if Ascii.eqb c QUOTE then (done, (fields, InQuoted "")) else after_field "" c done fields
  | InField s => after_field s c done fields
  | InQuoted s => (done, (fields, if Ascii.eqb c QUOTE then QuoteInQuoted s else InQuoted (snoc s c)))
  | QuoteInQuoted s =>
      if Ascii.eqb c QUOTE then (done, (fields, InQuoted (snoc s QUOTE))) else after_field s c done fields
  | EatLF => (done, ([], StartRecord))
  end.

Fixpoint csv_run st (s : string) :=
  match s with
  | "" => st
  | String c s' => csv_run (csv_step st c) s'
  end.

Definition csv_read (s : string) : list (list string) := fst (csv_run ([], ([], StartRecord)) s).

End Reader.

(** ** Lemmas *)

Section RoundTrip.
Context (float_repr : Q → string) (delimiter : ascii) (mode : quoting).
Context (Hdelim : Ascii.eqb delimiter QUOTE = false ∧ Ascii.eqb delimiter CR = false).
#[local] Abbreviation run := (csv_run delimiter).
#[local] Abbreviation text := (field_text float_repr).

Lemma run_app st a b : run st (a +:+ b) = run (run st a) b.
Proof. revert st. induction a as [|c a IH]; intros st; [done|]. apply IH. Qed.

Lemma snoc_app s c t : snoc s c +:+ t = s +:+ String c t.
Proof. unfold snoc. by rewrite app_assoc_str. Qed.

Lemma run_quoted done fields s : ∀ s0,
  run (done, (fields, InQuoted s0)) (double_quotes s) = (done, (fields, InQuoted (s0 +:+ s))).
Proof.
  induction s as [|c s IH]; intros s0; [by rewrite app_nil_r_str|]. cbn [double_quotes].
  destruct (Ascii.eqb_spec c QUOTE) as [->|Hne].
  - change (run (done, (fields, InQuoted s0)) (String QUOTE (String QUOTE (double_quotes s))))
      with (run (done, (fields, InQuoted (snoc s0 QUOTE))) (double_quotes s)). by rewrite IH, snoc_app.
  - cbn [csv_run csv_step]. apply Ascii.eqb_neq in Hne. by rewrite Hne, IH, snoc_app.
Qed.

Lemma run_plain done fields s : ∀ s0,
  str_all (λ c, negb (special delimiter c)) s = true →
  run (done, (fields, InField s0)) s = (done, (fields, InField (s0 +:+ s))).
Proof.
  induction s as [|c s IH]; intros s0; [by rewrite app_nil_r_str|]. simpl str_all.
  intros [Hc Hs]%andb_true_iff. unfold special in Hc. rewrite !negb_orb, !andb_true_iff, !negb_true_iff in Hc.
  destruct Hc as [[[H1 H2] H3] H4]. cbn [csv_run csv_step]. unfold after_field. by rewrite H1, H3, IH, snoc_app.
Qed.

(** Where a written field leaves the machine that was at the start of it. *)
Definition field_state (start : csv_state) (v : pyval) : csv_state :=
  if needs_quotes float_repr delimiter mode v then QuoteInQuoted (text v)
  else if String.eqb (text v) "" then start else InField (text v).

Definition at_start (st : csv_state) : Prop := st = StartRecord ∨ st = StartField.

Lemma run_field done fields start v :
  at_start start →
  run (done, (fields, start)) (csv_field float_repr delimiter mode v) = (done, (fields, field_state start v)).
Proof.
  intros Hst. unfold csv_field, field_state. destruct (needs_quotes _ _ _ v) eqn:Eq.
  - unfold quoted. cbn [csv_run].
    assert (csv_step delimiter (done, (fields, start)) QUOTE = (done, (fields, InQuoted ""))) as -> by by destruct Hst as [->| ->].
    rewrite run_app, run_quoted. reflexivity.
  - unfold needs_quotes, has_special in Eq. apply orb_false_iff in Eq as [_ Hs%negb_false_iff].
    destruct (text v) as [|c s] eqn:Et; [done|]. cbn [String.eqb]. simpl in Hs. apply andb_true_iff in Hs as [Hc Hs].
    unfold special in Hc. rewrite !negb_orb, !andb_true_iff, !negb_true_iff in Hc. destruct Hc as [[[H1 H2] H3] H4].
    cbn [csv_run]. assert (csv_step delimiter (done, (fields, start)) c = (done, (fields, InField (String c "")))) as ->.
    { destruct Hst as [->| ->]; cbn [csv_step]; unfold after_field; by rewrite ?H3, H2, H1, ?H3. }
    by rewrite run_plain.
Qed.

Lemma step_delimiter done fields start v :
  at_start start →
  csv_step delimiter (done, (fields, field_state start v)) delimiter = (done, (fields ++ [text v], StartField)).
Proof.
  intros Hst. destruct Hdelim as [Hq Hcr]. unfold field_state.
  destruct (needs_quotes _ _ _ v); cbn [csv_step]; [unfold after_field; by rewrite Hq, Ascii.eqb_refl|].
  destruct (String.eqb_spec (text v) "") as [Ht|_]; [rewrite Ht|by cbn [csv_step]; unfold after_field; rewrite Ascii.eqb_refl].
  destruct Hst as [->| ->]; cbn [csv_step]; unfold after_field; by rewrite ?Hcr, Hq, Ascii.eqb_refl.
Qed.

Lemma step_end done fields start v :
  at_start start → start = StartField ∨ csv_field float_repr delimiter mode v ≠ "" →
  run (done, (fields, field_state start v)) CRLF = (done ++ [fields ++ [text v]], ([], StartRecord)).
Proof.
  intros Hst Hne. destruct Hdelim as [Hq Hcr]. rewrite Ascii.eqb_sym in Hcr. unfold field_state, CRLF.
  destruct (needs_quotes _ _ _ v) eqn:En; [cbn [csv_run csv_step]; unfold after_field; by rewrite Hcr|].
  destruct (String.eqb_spec (text v) "") as [Ht|_];
    [rewrite Ht|by cbn [csv_run csv_step]; unfold after_field; rewrite Hcr].
  assert (start = StartField) as ->.
  { destruct Hne as [|Hne]; [done|]. exfalso. apply Hne. unfold csv_field. by rewrite En. }
  cbn [csv_run csv_step]. unfold after_field. by rewrite Hcr.
Qed.

Lemma run_fields v vs : ∀ done fields start,
  at_start start →
  start = StartField ∨ join (String delimiter "") (map (csv_field float_repr delimiter mode) (v :: vs)) ≠ "" →
  run (done, (fields, start))
    (join (String delimiter "") (map (csv_field float_repr delimiter mode) (v :: vs)) +:+ CRLF) =
  (done ++ [fields ++ map text (v :: vs)], ([], StartRecord)).
Proof.
  revert v. induction vs as [|v' vs IH]; intros v done fields start Hst Hne.
  - cbn [map join] in *. rewrite run_app, run_field by done. by apply step_end.
  - assert (∀ f : pyval → string, join (String delimiter "") (map f (v :: v' :: vs)) =
      f v +:+ String delimiter (join (String delimiter "") (map f (v' :: vs)))) as -> by reflexivity.
    rewrite app_assoc_str, run_app, run_field by done. change (String delimiter ?s +:+ CRLF) with (String delimiter (s +:+ CRLF)).
    cbn [csv_run]. rewrite step_delimiter by done.
    rewrite IH by ((by right) || (by left)). by rewrite <- app_assoc.
Qed.

Lemma run_row done vs :
  run (done, ([], StartRecord)) (csv_line float_repr delimiter mode vs) = (done ++ [map text vs], ([], StartRecord)).
Proof using Hdelim.
  unfold csv_line. destruct vs as [|v vs]; [reflexivity|]. set (line := join _ _).
  destruct (String.eqb_spec line "") as [Hl|Hl]; cbn [andb negb length Nat.eqb]; [|by apply run_fields; [left|right]].
  assert (vs = [] ∧ text v = "") as [-> Ht].
  { destruct vs as [|v' vs]; unfold line in Hl; cbn [map join] in Hl.
    - split; [done|]. unfold csv_field, quoted in Hl. by destruct (needs_quotes _ _ _ _).
    - by destruct (csv_field float_repr delimiter mode v). }
  destruct Hdelim as [_ Hcr]. rewrite Ascii.eqb_sym in Hcr.
  cbn [map]. rewrite Ht. unfold quoted, CRLF. simpl. unfold after_field. by rewrite Hcr.
Qed.

(** What can be written: with quotes at hand everything; without, no special characters and no row of one
    empty field, which in the modes that tell [None] from text is a row of one [None]. *)
Definition writable (vs : list pyval) : Prop :=
  match mode with
  | QUOTE_MINIMAL | QUOTE_ALL | QUOTE_NONNUMERIC => True
  | QUOTE_NONE => Forall (λ v, str_all (λ c, negb (special delimiter c)) (text v) = true) vs ∧ map text vs ≠ [""]
  | QUOTE_STRINGS | QUOTE_NOTNULL => vs ≠ [VNone]
  end.

Lemma single_empty vs :
  String.eqb (join (String delimiter "") (map (csv_field float_repr delimiter mode) vs)) "" && negb (Nat.eqb (length vs) 0) = true ↔
  ∃ v, vs = [v] ∧ csv_field float_repr delimiter mode v = "".
Proof.
  rewrite andb_true_iff, String.eqb_eq, negb_true_iff, Nat.eqb_neq. split.
  - intros [Hl Hn]. destruct vs as [|v [|v' vs]]; [done | by exists v|]. cbn [map join] in Hl.
    by destruct (csv_field float_repr delimiter mode v).
  - intros (v & -> & Hv). by rewrite <- Hv.
Qed.

Lemma field_empty v : csv_field float_repr delimiter mode v = "" ↔ needs_quotes float_repr delimiter mode v = false ∧ text v = "".
Proof. unfold csv_field, quoted. destruct (needs_quotes _ _ _ v); [split; [done | by intros []]|]. naive_solver. Qed.

(** A writable row is written as its line; any other is an error of the writer. *)
Lemma writerow_spec vs :
  (writable vs ∧ writerow float_repr delimiter mode vs = Return (csv_line float_repr delimiter mode vs)) ∨
  (¬ writable vs ∧ ∃ msg, writerow float_repr delimiter mode vs = Raise (csv_Error msg)).
Proof.
  unfold writerow, mbind, outcome_bind. pose proof (single_empty vs) as Hs. pose proof field_empty as Hfe.
  set (empty := _ && negb (Nat.eqb (length vs) 0)) in *.
  assert (Hlast : ∀ v, vs = [v] → last vs = Some v) by (by intros v ->).
  assert (Hspecial : existsb (has_special float_repr delimiter) vs = false ↔
    Forall (λ v, str_all (λ c, negb (special delimiter c)) (text v) = true) vs).
  { clear. induction vs as [|v vs IH]; [done|]. cbn [existsb]. rewrite orb_false_iff, Forall_cons, IH. unfold has_special. by rewrite negb_false_iff. }
  unfold no_quotes, writable. destruct mode; rewrite ?andb_false_r; try (by left).
  - destruct (existsb _ vs) eqn:Ee; [right; split; [intros [H _]; apply Hspecial in H; congruence | by eexists]|].
    assert (Hplain := proj1 Hspecial eq_refl). rewrite andb_true_r.
    assert (Hiff : empty = true ↔ map text vs = [""]).
    { rewrite Hs. split.
      - intros (v & -> & [_ Hv]%Hfe). simpl. by rewrite Hv.
      - destruct vs as [|v [|v' vs]]; try done. intros [= Hv]. exists v. split; [done|]. apply Hfe. split; [|done].
        unfold needs_quotes, has_special. by rewrite Hv. }
    destruct empty; [right; split; [intros [_ H]; by apply H, Hiff | by eexists] | left; split; [split; [done | intros H; by apply Hiff in H] | done]].
  - destruct empty; cbn [andb].
    + destruct (proj1 Hs eq_refl) as (v & -> & [Hq Ht]%Hfe). cbn [last].
      destruct v; try (by left); right; split; [auto | by eexists].
    + left. split; [|done]. intros ->. assert (false = true) as H; [|done]. apply Hs. exists VNone. split; [done|]. apply Hfe.
      done.
  - destruct empty; cbn [andb].
    + destruct (proj1 Hs eq_refl) as (v & -> & [Hq Ht]%Hfe). cbn [last].
      destruct v; try (by left); right; split; [auto | by eexists].
    + left. split; [|done]. intros ->. assert (false = true) as H; [|done]. apply Hs. exists VNone. split; [done|]. apply Hfe.
      done.
Qed.

Lemma run_rows rows : ∀ done, Forall writable rows →
  ∃ text', writerows float_repr delimiter mode rows = Return text' ∧
    run (done, ([], StartRecord)) text' = (done ++ map (map text) rows, ([], StartRecord)).
Proof using Hdelim.
  induction rows as [|r rows IH]; intros done Hw; [exists ""; simpl; by rewrite app_nil_r|].
  apply Forall_cons in Hw as [Hr Hw]. destruct (IH (done ++ [map text r]) Hw) as (rest & Hrest & Hrun).
  destruct (writerow_spec r) as [[_ Hline]|[Hno _]]; [|done]. cbn [writerows]. unfold mbind, outcome_bind. rewrite Hline, Hrest.
  eexists. split; [reflexivity|]. rewrite run_app, run_row, Hrun. by rewrite <- app_assoc.
Qed.

Lemma writerows_error rows : ¬ Forall writable rows → ∃ msg, writerows float_repr delimiter mode rows = Raise (csv_Error msg).
Proof.
  induction rows as [|r rows IH]; intros Hno; [by destruct Hno|]. cbn [writerows]. unfold mbind, outcome_bind.
  destruct (writerow_spec r) as [[Hr ->]|[_ [msg ->]]]; [|by exists msg].
  destruct IH as [msg ->]; [|by exists msg]. intros Hw. apply Hno. by constructor.
Qed.

End RoundTrip.

(** ** Theorems *)

(** C35: an exported CSV file reads back as what was exported, or the export raises.  For every delimiter other
    than the quote and the carriage return and in every quoting mode: if the rows, the headers first, can be written in
    the mode, a reader that follows
    RFC 4180 gets the headers and then, row for row, the text of each column's value - with
    delimiters, quotes and line breaks in them, empty fields, and rows of one empty field.
    With [QUOTE_MINIMAL], [QUOTE_ALL] and [QUOTE_NONNUMERIC] everything can be written; with [QUOTE_NONE] what has no delimiter, quote
    or line break and is not a row of one empty field; with [QUOTE_STRINGS] and
    [QUOTE_NOTNULL] all but a row of one [None].  Otherwise the export raises [csv.Error], and for a
    number that is no quoting mode [TypeError]. *)
Theorem csv_roundtrip float_repr self request :
  csv_delimiter self ≠ QUOTE → csv_delimiter self ≠ CR → ex_end request = Return tt →
  let rows := map (λ c, VStr (col_header c)) (ex_columns request) ::
    map (λ r, map (λ c, default (VStr "") (od_get (col_key c) r)) (ex_columns request)) (ex_rows request) in
  match quoting_of_int (csv_quoting self) with
  | None => ∃ msg, CsvExporter_export float_repr self request = Raise (exn_of ["TypeError"] msg)
  | Some mode =>
      (Forall (writable float_repr (csv_delimiter self) mode) rows →
         ∃ text, CsvExporter_export float_repr self request = Return ((if csv_bom self then BOM else "") +:+ text) ∧
           csv_read (csv_delimiter self) text = map (map (field_text float_repr)) rows) ∧
      (¬ Forall (writable float_repr (csv_delimiter self) mode) rows →
         ∃ msg, CsvExporter_export float_repr self request = Raise (csv_Error msg))
  end.
Proof.
  intros Hq Hcr Hend rows. unfold CsvExporter_export. destruct (quoting_of_int _) as [mode|]; [|by eexists].
  assert (Ascii.eqb (csv_delimiter self) QUOTE = false ∧ Ascii.eqb (csv_delimiter self) CR = false) as Hd
    by (split; by apply Ascii.eqb_neq).
  change (map (csv_row (ex_columns request)) (ex_rows request)) with (tail rows).
  change (map (λ c, VStr (col_header c)) (ex_columns request) :: tail rows) with rows.
  unfold mbind, outcome_bind. rewrite Hend. split; intros Hw.
  - destruct (run_rows float_repr (csv_delimiter self) mode Hd rows [] Hw) as (text & -> & Hrun). exists text. split; [done|].
    unfold csv_read. by rewrite Hrun.
  - destruct (writerows_error float_repr (csv_delimiter self) mode Hd rows Hw) as [msg ->]. by exists msg.
Qed.

(** the export service knows three formats: each goes to its exporter, any other name is a
    [ValueError], and rows that fail while they are read make the CSV and the JSON export
    fail with the same error. *)
Theorem export_formats {W} float_repr json_dumps (excel : ExportRequest → PyM W string) bom request w :
  let result := ExportService_export float_repr json_dumps excel bom request w in
  (ex_format request = "csv" →
     result = (CsvExporter_export float_repr (mkCsv "," 0 bom) request, w)) ∧
  (ex_format request = "xlsx" → result = excel request w) ∧
  (ex_format request = "json" → ex_end request = Return tt →
     result = (json_dumps (VList (map (json_row (ex_columns request)) (ex_rows request))), w)) ∧
  (ex_format request ∉ ["csv"; "xlsx"; "json"] → ∃ msg, result = (Raise (ValueError msg), w)) ∧
  ∀ e, ex_format request ∈ ["csv"; "json"] → ex_end request = Raise e → result = (Raise e, w).
Proof.
  intros result. unfold result, ExportService_export, ExportService_export_json, CsvExporter_export. split_and!.
  - by intros ->.
  - by intros ->.
  - by intros -> ->.
  - rewrite !not_elem_of_cons. intros (H1 & H2 & H3 & _).
    rewrite !(proj2 (String.eqb_neq _ _)) by done. by eexists.
  - intros e Hf ->. rewrite !elem_of_cons in Hf. destruct Hf as [->|[->|[]%elem_of_nil]]; [|reflexivity].
    cbn [String.eqb Ascii.eqb Bool.eqb csv_quoting csv_delimiter quoting_of_int].
    match goal with |- context [writerows _ _ _ ?rows] =>
      destruct (run_rows float_repr "," QUOTE_MINIMAL (conj eq_refl eq_refl) rows []) as (text & -> & _) end;
      [by apply Forall_true | reflexivity].
Qed.

(** ** Witness *)

Definition demo_export : ExportRequest :=
  mkExport [mkColumn "a" "A"; mkColumn "b" "B"]
    [[("a", VStr "x,y"); ("b", VInt 3)]; [("b", VStr (String QUOTE "")); ("a", VNone)]] (Return tt) "csv" "demo".

Lemma csv_roundtrip_witness :
  (∃ text, CsvExporter_export (λ _, "") (mkCsv "," 0 true) demo_export = Return (BOM +:+ text) ∧
    csv_read "," text = [["A"; "B"]; ["x,y"; "3"]; [""; String QUOTE ""]]) ∧
  ∃ msg, CsvExporter_export (λ _, "") (mkCsv "," 3 true) demo_export = Raise (csv_Error msg).
Proof.
  split.
  - destruct (csv_roundtrip (λ _, "") (mkCsv "," 0 true) demo_export) as [H _]; [done | done | done|]. apply H. by repeat constructor.
  - destruct (csv_roundtrip (λ _, "") (mkCsv "," 3 true) demo_export) as [_ H]; [done | done | done|]. apply H.
    intros Hw. apply Forall_cons in Hw as [_ [[Hr _] _]%Forall_cons]. apply Forall_cons in Hr as [Hx _]. vm_compute in Hx. discriminate.
Defined.
