(* ===== verification/ObjectStores.v ===== *)
(** * Object stores and file uploads

    [application/files] - uploaded files, their validation, the upload service and its
    in-memory store - and the stores of [adapters/s3], [adapters/gcs] and
    [adapters/azure_blob], over a client of the provider whose documented behaviour is a
    class of laws. *)
From S2P Require Import Prelude PyString OrderedDict PyValue Sha256.

#[local] Abbreviation bytes := (list Z).

(** ** What a store promises *)

Class ObjectStore (X : Type) := {
  os_put : string → bytes → string → PyM X (option string);
  os_delete : string → PyM X unit;
  os_exists : string → PyM X bool;
}.

Class ObjectStoreSpec (X : Type) `{ObjectStore X} := {
  os_view : X → gmap string bytes;
  os_put_spec key data ct x : ∃ url x', os_put key data ct x = (Return url, x') ∧ os_view x' = <[key := data]> (os_view x);
  os_delete_spec key x : ∃ x', os_delete key x = (Return tt, x') ∧ os_view x' = delete key (os_view x);
  os_exists_spec key x : os_exists key x = (Return (bool_decide (is_Some (os_view x !! key))), x);
}.

(** ** Uploaded files ([upload.py]) *)

(** [bytes], or an asynchronous iterator: its chunks and how it ends. *)
Inductive file_data := FileBytes (b : bytes) | FileStream (chunks : list bytes) (ending : outcome unit).

Record UploadedFile := mkFile {
  uf_filename : string;
  uf_content_type : string;
  uf_size_bytes : Z;
  uf_data : file_data;
  uf_checksum_sha256 : string;
}.

(** The constructor with [__post_init__]. *)
Definition UploadedFile_init (filename content_type : string) (size_bytes : Z) (data : file_data) (checksum : string)
    : UploadedFile :=
  mkFile filename content_type size_bytes data
    (match data with
     | FileBytes b => if String.eqb checksum "" then hexdigest (sha256 b) else checksum
     | FileStream _ _ => checksum
     end).

Definition UploadedFile_from_bytes (filename content_type : string) (data : bytes) : UploadedFile :=
  UploadedFile_init filename content_type (Z.of_nat (length data)) (FileBytes data) "".

(** ** Validation ([validator.py]) *)

Record ValidationResult := mkValidation { vr_valid : bool; vr_errors : list string }.

Definition ValidationResult_ok : ValidationResult := mkValidation true [].
Definition ValidationResult_fail (errors : list string) : ValidationResult := mkValidation false errors.

(** The errors are kept as the message, joined. *)
Definition FileValidationError (errors : list string) : pyexn :=
  exn_of ["FileValidationError"; "ValueError"] (join "; " errors).

Record FileValidator := mkValidator {
  fv_max_size_bytes : option Z;
  fv_allowed_content_types : option (gset string);
}.

Definition size_error (size max : Z) : string :=
  "File size " +:+ str_of_int size +:+ " bytes exceeds maximum of " +:+ str_of_int max +:+ " bytes".
Definition type_error (content_type : string) (allowed : gset string) : string :=
  "Content type '" +:+ content_type +:+ "' is not allowed. Allowed: "
  +:+ join ", " (sorted_strings (elements allowed)).

Definition FileValidator_validate (v : FileValidator) (file : UploadedFile) : ValidationResult :=
  let errors :=
    match fv_max_size_bytes v with
    | Some m => if (m <? uf_size_bytes file)%Z then [size_error (uf_size_bytes file) m] else []
    | None => []
    end ++
    match fv_allowed_content_types v with
    | Some allowed => if bool_decide (uf_content_type file ∈ allowed) then [] else [type_error (uf_content_type file) allowed]
    | None => []
    end in
  match errors with [] => ValidationResult_ok | _ => ValidationResult_fail errors end.

Definition FileValidator_validate_or_raise (v : FileValidator) (file : UploadedFile) : outcome unit :=
  let result := FileValidator_validate v file in
  if vr_valid result then Return tt else Raise (FileValidationError (vr_errors result)).

(** ** The upload service ([service.py]): the state is the store and [self.events] *)

Record FileUploadedEvent := mkUploaded {
  fe_destination_key : string;
  fe_url : option string;
  fe_filename : string;
  fe_content_type : string;
  fe_size_bytes : Z;
  fe_checksum_sha256 : string;
}.

(** Read all of it; an iterator that raises ends the upload. *)
Definition file_bytes (d : file_data) : outcome bytes :=
  match d with
  | FileBytes b => Return b
  | FileStream chunks (Return _) => Return (mjoin chunks)
  | FileStream _ (Raise e) => Raise e
  end.

Definition FileUploadService_upload {X} `{ObjectStore X} (validator : option FileValidator) (file : UploadedFile)
    (destination_key : string) : PyM (X * list FileUploadedEvent) (option string) :=
  from_outcome (match validator with None => Return tt | Some v => FileValidator_validate_or_raise v file end) ;;
  data ← from_outcome (file_bytes (uf_data file));
  url ← on_fst (os_put destination_key data (uf_content_type file));
  on_snd (updates (λ events, events ++
    [mkUploaded destination_key url (uf_filename file) (uf_content_type file) (uf_size_bytes file)
       (uf_checksum_sha256 file)])) ;;
  mret url.

(** ** The in-memory store of the application *)

Record InMemoryObjectStore := mkMemory {
  mem_base_url : string;
  mem_store : gmap string bytes;
  mem_content_types : gmap string string;
}.

Definition InMemoryObjectStore_init (base_url : string) : InMemoryObjectStore :=
  mkMemory (rstrip_by (Ascii.eqb "/") base_url) ∅ ∅.

Definition InMemoryObjectStore_put (key : string) (data : bytes) (content_type : string)
    : PyM InMemoryObjectStore (option string) := λ m,
  (Return (Some (mem_base_url m +:+ "/" +:+ key)),
   mkMemory (mem_base_url m) (<[key := data]> (mem_store m)) (<[key := content_type]> (mem_content_types m))).

Definition InMemoryObjectStore_delete (key : string) : PyM InMemoryObjectStore unit :=
  updates (λ m, mkMemory (mem_base_url m) (delete key (mem_store m)) (delete key (mem_content_types m))).

Definition InMemoryObjectStore_exists (key : string) : PyM InMemoryObjectStore bool :=
  reads (λ m, bool_decide (is_Some (mem_store m !! key))).

Definition InMemoryObjectStore_get (key : string) (m : InMemoryObjectStore) : option bytes := mem_store m !! key.

#[export] Instance memory_ObjectStore : ObjectStore InMemoryObjectStore := {
  os_put := InMemoryObjectStore_put;
  os_delete := InMemoryObjectStore_delete;
  os_exists := InMemoryObjectStore_exists;
}.

#[export] Instance memory_ObjectStoreSpec : ObjectStoreSpec InMemoryObjectStore.
Proof.
  refine {| os_view := mem_store |}.
  - intros key data ct m. by eexists _, _.
  - intros key m. by eexists.
  - done.
Defined.

(** ** Clients of the providers *)

(** [client_list prefix] is one answer of the service: the keys and whether there are more;
    [client_list_all] goes through all of them. *)
Class BlobClient (C : Type) := {
  client_put : string → bytes → string → PyM C unit;
  client_get : string → PyM C bytes;
  client_head : string → PyM C unit;
  client_delete : string → PyM C unit;
  client_list : string → PyM C (list string * bool);
  client_list_all : string → PyM C (list string);
}.

(** What the providers document: objects are read back as written; a missing object is an
    error that [gone] recognises, for [delete] as well when [strict] is set. *)
Class BlobClientSpec (C : Type) `{BlobClient C} (gone : pyexn → bool) (strict : bool) := {
  client_view : C → gmap string (bytes * string);
  client_put_spec key data ct c :
    ∃ c', client_put key data ct c = (Return tt, c') ∧ client_view c' = <[key := (data, ct)]> (client_view c);
  client_get_spec key c :
    match client_view c !! key with
    | Some (data, _) => client_get key c = (Return data, c)
    | None => ∃ e, client_get key c = (Raise e, c) ∧ is_Exception e = true ∧ gone e = true
    end;
  client_head_spec key c :
    match client_view c !! key with
    | Some _ => client_head key c = (Return tt, c)
    | None => ∃ e, client_head key c = (Raise e, c) ∧ is_Exception e = true
    end;
  client_delete_spec key c :
    match client_view c !! key with
    | None => client_delete key c = (Return tt, c) ∧ strict = false ∨
        ∃ e, client_delete key c = (Raise e, c) ∧ is_Exception e = true ∧ gone e = true ∧ strict = true
    | Some _ => ∃ c', client_delete key c = (Return tt, c') ∧ client_view c' = delete key (client_view c)
    end;
  client_list_spec prefix c :
    ∃ keys more, client_list prefix c = (Return (keys, more), c) ∧ NoDup keys ∧
      (∀ k, k ∈ keys → k ∈ dom (client_view c) ∧ startswith prefix k = true) ∧
      (more = false → ∀ k, k ∈ dom (client_view c) → startswith prefix k = true → k ∈ keys);
  client_list_all_spec prefix c :
    ∃ keys, client_list_all prefix c = (Return keys, c) ∧ NoDup keys ∧
      ∀ k, k ∈ keys ↔ k ∈ dom (client_view c) ∧ startswith prefix k = true;
}.

Section Adapters.
Context {C : Type} `{BlobClient C}.

Definition exn_class (e : pyexn) : string := default "" (head (exn_mro e)).

(** [raise KeyError(key)] when [gone] says so, else re-raise. *)
Definition get_or_key_error (gone : pyexn → bool) (key : string) : PyM C bytes :=
  try_except (client_get key) (λ exc, if gone exc then raise (KeyError (py_repr key)) else raise exc).

(** *** S3 *)

Definition no_such_key (exc : pyexn) : bool := contains "NoSuchKey" (exn_class exc) || contains "NoSuchKey" (exn_msg exc).

Definition S3ObjectStore_put (key : string) (data : bytes) (content_type : string) : PyM C (option string) :=
  client_put key data content_type ;; mret None.
Definition S3ObjectStore_get (key : string) : PyM C bytes := get_or_key_error no_such_key key.
Definition S3ObjectStore_delete (key : string) : PyM C unit := client_delete key.
Definition S3ObjectStore_exists (key : string) : PyM C bool :=
  try_except (client_head key ;; mret true) (λ _, mret false).
Definition S3ObjectStore_list_keys (prefix : string) : PyM C (list string) :=
  resp ← client_list prefix; mret (fst resp).

(** *** Google Cloud Storage *)

Definition gcs_gone (exc : pyexn) : bool :=
  contains "NotFound" (exn_class exc) || contains "404" (exn_msg exc) || contains "No such object" (exn_msg exc).

Definition GCSObjectStore_put (key : string) (data : bytes) (content_type : string) : PyM C (option string) :=
  client_put key data content_type ;; mret None.
Definition GCSObjectStore_get (key : string) : PyM C bytes := get_or_key_error gcs_gone key.
Definition GCSObjectStore_delete (key : string) : PyM C unit :=
  try_except (client_delete key) (λ exc, if gcs_gone exc then mret tt else raise exc).

Definition GCSObjectStore_list (prefix : string) : PyM C (list string) := client_list_all prefix.

(** *** Azure Blob Storage *)

Definition azure_gone (exc : pyexn) : bool :=
  contains "BlobNotFound" (exn_class exc) || contains "404" (exn_msg exc) || contains "BlobNotFound" (exn_msg exc).

Definition AzureBlobObjectStore_put (key : string) (data : bytes) (content_type : string) : PyM C (option string) :=
  client_put key data content_type ;; mret None.
Definition AzureBlobObjectStore_get (key : string) : PyM C bytes := get_or_key_error azure_gone key.
Definition AzureBlobObjectStore_delete (key : string) : PyM C unit :=
  try_except (client_delete key) (λ exc, if azure_gone exc then mret tt else raise exc).
Definition AzureBlobObjectStore_list (prefix : string) : PyM C (list string) := client_list_all prefix.

End Adapters.

(** *** The fake store of the S3 module *)

(** [_store] in its insertion order, which [list_keys] shows, and [_metadata]. *)
Record S3InMemoryObjectStore := mkS3Memory { s3m_store : list (string * bytes); s3m_metadata : gmap string string }.

Definition S3InMemoryObjectStore_put (key : string) (data : bytes) (content_type : string)
    : PyM S3InMemoryObjectStore (option string) := λ m,
  (Return None, mkS3Memory (od_set key data (s3m_store m)) (<[key := content_type]> (s3m_metadata m))).

Definition S3InMemoryObjectStore_get (key : string) : PyM S3InMemoryObjectStore bytes := λ m,
  (match od_get key (s3m_store m) with Some data => Return data | None => Raise (KeyError (py_repr key)) end, m).

Definition S3InMemoryObjectStore_delete (key : string) : PyM S3InMemoryObjectStore unit :=
  updates (λ m, mkS3Memory (od_del key (s3m_store m)) (delete key (s3m_metadata m))).

Definition S3InMemoryObjectStore_exists (key : string) : PyM S3InMemoryObjectStore bool :=
  reads (λ m, match od_get key (s3m_store m) with Some _ => true | None => false end).

Definition S3InMemoryObjectStore_list_keys (prefix : string) : PyM S3InMemoryObjectStore (list string) :=
  reads (λ m, filter (λ k, startswith prefix k = true) (s3m_store m).*1).

(** *** A client in memory, whose answers hold at most [pg] keys *)

Record PagedClient := mkPaged { pg : nat; pg_objects : gmap string (bytes * string) }.

Definition NoSuchKey : pyexn := exn_of ["NoSuchKey"; "ClientError"] "An error occurred (NoSuchKey)".

Definition matching_keys (prefix : string) (c : PagedClient) : list string :=
  filter (λ k, startswith prefix k = true) (elements (dom (pg_objects c))).

#[export] Instance paged_BlobClient : BlobClient PagedClient := {
  client_put key data ct := λ c, (Return tt, mkPaged (pg c) (<[key := (data, ct)]> (pg_objects c)));
  client_get key := λ c, (match pg_objects c !! key with Some (d, _) => Return d | None => Raise NoSuchKey end, c);
  client_head key := λ c, (match pg_objects c !! key with Some _ => Return tt | None => Raise NoSuchKey end, c);
  client_delete key := λ c, (Return tt, mkPaged (pg c) (delete key (pg_objects c)));
  client_list prefix := λ c,
    let keys := matching_keys prefix c in (Return (take (pg c) keys, Nat.ltb (pg c) (length keys)), c);
  client_list_all prefix := λ c, (Return (matching_keys prefix c), c);
}.

Lemma matching_keys_spec prefix c k :
  k ∈ matching_keys prefix c ↔ k ∈ dom (pg_objects c) ∧ startswith prefix k = true.
Proof. unfold matching_keys. rewrite list_elem_of_filter, elem_of_elements. tauto. Qed.

#[export] Instance paged_BlobClientSpec : BlobClientSpec PagedClient no_such_key false.
Proof.
  refine {| client_view := pg_objects |}.
  - intros key data ct c. by eexists.
  - intros key c. simpl. destruct (pg_objects c !! key) as [[d ct]|]; [done|]. by eexists.
  - intros key c. simpl. destruct (pg_objects c !! key) as [[d ct]|]; [done|]. by eexists.
  - intros key c. destruct (pg_objects c !! key) as [[d ct]|] eqn:E; [by eexists|].
    left. simpl. rewrite delete_id by done. by destruct c.
  - intros prefix c. assert (NoDup (matching_keys prefix c)) as Hnd by apply NoDup_filter, NoDup_elements.
    eexists _, _. split; [reflexivity|]. split_and!.
    + by eapply sublist_NoDup, sublist_take.
    + intros k Hk. apply matching_keys_spec. by eapply elem_of_sublist, sublist_take.
    + intros Hmore%Nat.ltb_ge k Hk Hp. rewrite take_ge by done. by apply matching_keys_spec.
  - intros prefix c. eexists. split; [reflexivity|]. split; [apply NoDup_filter, NoDup_elements|].
    intros k. apply matching_keys_spec.
Defined.

(** ** Lemmas *)

Section StoreLemmas.
Context {C : Type} `{!BlobClient C}.

Lemma get_translated gone strict `{!BlobClientSpec C gone strict} key c :
  get_or_key_error gone key c =
  (match client_view c !! key with Some (d, _) => Return d | None => Raise (KeyError (py_repr key)) end, c).
Proof.
  unfold get_or_key_error, try_except, try_base. pose proof (client_get_spec key c) as Hget.
  destruct (client_view c !! key) as [[d ct]|]; [by rewrite Hget|].
  destruct Hget as (e & -> & He & Hg). by rewrite He, Hg.
Qed.

(** Deletion, once the error for a missing object is dropped. *)
Lemma delete_translated gone strict `{!BlobClientSpec C gone strict} key c :
  ∃ c', try_except (client_delete key) (λ exc, if gone exc then mret tt else raise exc) c = (Return tt, c') ∧
    client_view c' = delete key (client_view c).
Proof.
  unfold try_except, try_base. pose proof (client_delete_spec key c) as Hdel.
  destruct (client_view c !! key) as [[d ct]|] eqn:E.
  - destruct Hdel as (c' & -> & Hc'). by exists c'.
  - exists c. rewrite delete_id by done. destruct Hdel as [[-> _]|(e & -> & He & Hg & _)]; [done|]. by rewrite He, Hg.
Qed.

(** What the store adapters have in common: objects read back as put, until they are
    deleted; reading a missing one is a [KeyError] and deleting it is no error. *)
Definition store_keeps gone strict `{!BlobClientSpec C gone strict} (put : string → bytes → string → PyM C (option string))
    (get : string → PyM C bytes) (del : string → PyM C unit) : Prop :=
  ∀ key data ct c,
    (∃ c', put key data ct c = (Return None, c') ∧ get key c' = (Return data, c') ∧
       ∀ k, k ≠ key → fst (get k c') = fst (get k c)) ∧
    (∃ c', del key c = (Return tt, c') ∧ get key c' = (Raise (KeyError (py_repr key)), c') ∧
       ∀ k, k ≠ key → fst (get k c') = fst (get k c)).

Lemma keeps_by_translation gone strict `{!BlobClientSpec C gone strict} del :
  (∀ key c, ∃ c', del key c = (Return tt, c') ∧ client_view c' = delete key (client_view c)) →
  store_keeps gone strict (λ key data ct, client_put key data ct ;; mret None) (get_or_key_error gone) del.
Proof.
  intros Hdel key data ct c. split.
  - destruct (client_put_spec key data ct c) as (c' & Hput & Hc'). exists c'.
    unfold mbind, PyM_bind. rewrite Hput. split_and!; [done| |].
    + by rewrite (get_translated gone strict), Hc', lookup_insert_eq.
    + intros k Hk. by rewrite !(get_translated gone strict), Hc', lookup_insert_ne.
  - destruct (Hdel key c) as (c' & -> & Hc'). exists c'. split_and!; [done| |].
    + by rewrite (get_translated gone strict), Hc', lookup_delete_eq.
    + intros k Hk. by rewrite !(get_translated gone strict), Hc', lookup_delete_ne.
Qed.

Lemma s3_delete `{!BlobClientSpec C no_such_key false} key c :
  ∃ c', S3ObjectStore_delete key c = (Return tt, c') ∧ client_view c' = delete key (client_view c).
Proof.
  unfold S3ObjectStore_delete. pose proof (client_delete_spec key c) as Hdel.
  destruct (client_view c !! key) as [[d ct]|] eqn:E; [done|].
  destruct Hdel as [[-> _]|(e & _ & _ & _ & [=])]. exists c. by rewrite delete_id.
Qed.

(** S3 is a store for the upload service. *)
#[local] Instance S3_ObjectStore : ObjectStore C := {
  os_put := S3ObjectStore_put;
  os_delete := S3ObjectStore_delete;
  os_exists := S3ObjectStore_exists;
}.

#[export] Instance S3_ObjectStoreSpec `{!BlobClientSpec C no_such_key false} : ObjectStoreSpec C.
Proof.
  refine {| os_view c := fst <$> client_view c |}.
  - intros key data ct c. destruct (client_put_spec key data ct c) as (c' & Hput & Hc'). exists None, c'.
    simpl. unfold S3ObjectStore_put, mbind, PyM_bind. rewrite Hput. split; [done|]. by rewrite Hc', fmap_insert.
  - intros key c. destruct (s3_delete key c) as (c' & Hdel & Hc'). exists c'. split; [done|]. by rewrite Hc', fmap_delete.
  - intros key c. simpl. unfold S3ObjectStore_exists, try_except, try_base, mbind, PyM_bind.
    pose proof (client_head_spec key c) as Hhead. rewrite lookup_fmap. destruct (client_view c !! key) as [[d ct]|]; simpl.
    + by rewrite Hhead.
    + destruct Hhead as (e & -> & He). by rewrite He.
Defined.

(** *** Simulation: the S3 store and its fake *)

Inductive store_op :=
  | OpPut (key : string) (data : bytes) (content_type : string) | OpGet (key : string)
  | OpDelete (key : string) | OpExists (key : string).

Inductive store_answer := Stored (url : option string) | Data (data : bytes) | Deleted | Existing (b : bool).

Definition S3ObjectStore_do (op : store_op) : PyM C store_answer :=
  match op with
  | OpPut key data ct => url ← S3ObjectStore_put key data ct; mret (Stored url)
  | OpGet key => data ← S3ObjectStore_get key; mret (Data data)
  | OpDelete key => S3ObjectStore_delete key ;; mret Deleted
  | OpExists key => b ← S3ObjectStore_exists key; mret (Existing b)
  end.

Definition S3InMemoryObjectStore_do (op : store_op) : PyM S3InMemoryObjectStore store_answer :=
  match op with
  | OpPut key data ct => url ← S3InMemoryObjectStore_put key data ct; mret (Stored url)
  | OpGet key => data ← S3InMemoryObjectStore_get key; mret (Data data)
  | OpDelete key => S3InMemoryObjectStore_delete key ;; mret Deleted
  | OpExists key => b ← S3InMemoryObjectStore_exists key; mret (Existing b)
  end.

(** The answers of a sequence of calls, errors included, and the last state. *)
Fixpoint answers {S} (step : store_op → PyM S store_answer) (ops : list store_op) (s : S) : list (outcome store_answer) * S :=
  match ops with
  | [] => ([], s)
  | op :: ops' => let '(a, s1) := step op s in let '(rest, s2) := answers step ops' s1 in (a :: rest, s2)
  end.

(** The fake holds the objects of the bucket. *)
Definition mirrors `{!BlobClientSpec C no_such_key false} (c : C) (m : S3InMemoryObjectStore) : Prop :=
  NoDup (s3m_store m).*1 ∧ ∀ k, od_get k (s3m_store m) = fst <$> client_view c !! k.

Lemma s3_simulates `{!BlobClientSpec C no_such_key false} op c m :
  mirrors c m →
  fst (S3ObjectStore_do op c) = fst (S3InMemoryObjectStore_do op m) ∧
  mirrors (snd (S3ObjectStore_do op c)) (snd (S3InMemoryObjectStore_do op m)).
Proof.
  intros [Hnd Hm]. destruct op as [key data ct|key|key|key]; simpl.
  - destruct (client_put_spec key data ct c) as (c' & Hput & Hc').
    unfold S3ObjectStore_put, mbind, PyM_bind. rewrite Hput. split; [done|]. split; [by apply od_set_NoDup|].
    intros k. simpl. rewrite Hc'. destruct (decide (k = key)) as [->|Hk].
    + by rewrite od_get_set_eq, lookup_insert_eq.
    + by rewrite od_get_set_ne, lookup_insert_ne, Hm.
  - unfold S3ObjectStore_get, mbind, PyM_bind. rewrite (get_translated no_such_key false).
    unfold S3InMemoryObjectStore_get. rewrite Hm. by destruct (client_view c !! key) as [[d ct]|].
  - destruct (s3_delete key c) as (c' & Hdel & Hc'). unfold mbind, PyM_bind. rewrite Hdel. split; [done|].
    split; [simpl; rewrite od_del_keys; by apply NoDup_filter|].
    intros k. simpl. rewrite Hc'. destruct (decide (k = key)) as [->|Hk].
    + by rewrite od_get_del_eq, lookup_delete_eq.
    + by rewrite od_get_del_ne, lookup_delete_ne, Hm.
  - unfold S3ObjectStore_exists, S3InMemoryObjectStore_exists, try_except, try_base, mbind, PyM_bind, reads.
    rewrite Hm. pose proof (client_head_spec key c) as Hhead. destruct (client_view c !! key) as [[d ct]|]; [by rewrite Hhead|].
    destruct Hhead as (e & -> & He). by rewrite He.
Qed.

Lemma s3_answers `{!BlobClientSpec C no_such_key false} ops c m :
  mirrors c m →
  fst (answers S3ObjectStore_do ops c) = fst (answers S3InMemoryObjectStore_do ops m) ∧
  mirrors (snd (answers S3ObjectStore_do ops c)) (snd (answers S3InMemoryObjectStore_do ops m)).
Proof.
  revert c m. induction ops as [|op ops IH]; intros c m Hm; [done|]. simpl.
  destruct (s3_simulates op c m Hm) as [Ha Hm'].
  destruct (S3ObjectStore_do op c) as [a c1], (S3InMemoryObjectStore_do op m) as [a' m1]. simpl in *. subst a'.
  destruct (IH c1 m1 Hm') as [Hr Hm2].
  destruct (answers _ ops c1), (answers _ ops m1). simpl in *. by subst.
Qed.

End StoreLemmas.

(** ** Theorems *)

(** an upload is all or nothing.  Over any store that keeps its promise: a file the
    validator rejects, or whose stream fails, raises and leaves store and events alone;
    any other is stored under its key - a stream as its chunks joined - with everything else
    kept, one event is added, and the store's URL is returned. *)
Theorem upload_exact {X} `{ObjectStoreSpec X} validator file key (x : X) events :
  let check := match validator with None => Return tt | Some v => FileValidator_validate_or_raise v file end in
  match check, file_bytes (uf_data file) with
  | Raise e, _ | Return _, Raise e => FileUploadService_upload validator file key (x, events) = (Raise e, (x, events))
  | Return _, Return data =>
      ∃ url x', FileUploadService_upload validator file key (x, events) =
        (Return url, (x', events ++ [mkUploaded key url (uf_filename file) (uf_content_type file)
                                       (uf_size_bytes file) (uf_checksum_sha256 file)])) ∧
        os_view x' = <[key := data]> (os_view x)
  end.
Proof.
  intros check. unfold FileUploadService_upload, mbind, PyM_bind, from_outcome. fold check.
  destruct check as [[]|e]; [|done]. destruct (file_bytes (uf_data file)) as [data|e]; [|done].
  unfold on_fst. cbn [fst snd]. destruct (os_put_spec key data (uf_content_type file) x) as (url & x' & -> & Hx').
  by exists url, x'.
Qed.

(** the validator accepts exactly the files within the declared size and the allowed types,
    and names every violated limit.  It goes by what the file declares: a stream may be of
    any length. *)
Theorem validation_exact v file :
  let too_big := ∃ m, fv_max_size_bytes v = Some m ∧ (m < uf_size_bytes file)%Z in
  let bad_type := ∃ a, fv_allowed_content_types v = Some a ∧ uf_content_type file ∉ a in
  (FileValidator_validate_or_raise v file = Return tt ↔ ¬ too_big ∧ ¬ bad_type) ∧
  (too_big ∧ bad_type → length (vr_errors (FileValidator_validate v file)) = 2%nat) ∧
  ∀ chunks e, FileValidator_validate v file = FileValidator_validate v
    (mkFile (uf_filename file) (uf_content_type file) (uf_size_bytes file) (FileStream chunks e) (uf_checksum_sha256 file)).
Proof.
  intros too_big bad_type. unfold FileValidator_validate_or_raise, FileValidator_validate.
  set (e1 := match fv_max_size_bytes v with Some m => _ | None => [] end).
  set (e2 := match fv_allowed_content_types v with Some a => _ | None => [] end).
  assert (e1 = [] ∧ ¬ too_big ∨ length e1 = 1%nat ∧ too_big) as H1.
  { unfold e1, too_big. destruct (fv_max_size_bytes v) as [m|]; [|left; split; [done|]; by intros (? & [=] & _)].
    destruct (Z.ltb_spec m (uf_size_bytes file)); [right; split; [done|by eexists]|].
    left. split; [done|]. intros (? & [= <-] & ?). lia. }
  assert (e2 = [] ∧ ¬ bad_type ∨ length e2 = 1%nat ∧ bad_type) as H2.
  { unfold e2, bad_type. destruct (fv_allowed_content_types v) as [a|]; [|left; split; [done|]; by intros (? & [=] & _)].
    case_bool_decide; [|right; split; [done|by eexists]]. left. split; [done|]. by intros (? & [= <-] & ?). }
  split_and!; [| |done].
  - destruct H1 as [[-> ?]|[Hl ?]].
    + destruct H2 as [[-> ?]|[Hl ?]]; [by simpl|]. destruct e2; [done|]. simpl. split; [done|tauto].
    + destruct e1; [done|]. simpl. split; [done|tauto].
  - intros [? ?]. destruct H1 as [[_ ?]|[Hl1 _]]; [done|]. destruct H2 as [[_ ?]|[Hl2 _]]; [done|].
    destruct e1 as [|x1 e1']; [done|]. simpl in *. rewrite length_app. lia.
Qed.

(** the cloud stores keep objects.  Over clients that behave as documented, what is put
    into S3, Google Cloud Storage or Azure Blob Storage is got back until it is deleted, the
    other objects are not touched, a missing object is a [KeyError], and deleting a missing
    one is no error - whether or not the provider says it was missing. *)
Theorem cloud_stores_keep {C} `{!BlobClient C} :
  (∀ `{!BlobClientSpec C no_such_key false},
     store_keeps no_such_key false S3ObjectStore_put S3ObjectStore_get S3ObjectStore_delete) ∧
  (∀ strict `{!BlobClientSpec C gcs_gone strict},
     store_keeps gcs_gone strict GCSObjectStore_put GCSObjectStore_get GCSObjectStore_delete) ∧
  (∀ strict `{!BlobClientSpec C azure_gone strict},
     store_keeps azure_gone strict AzureBlobObjectStore_put AzureBlobObjectStore_get AzureBlobObjectStore_delete).
Proof.
  split_and!.
  - intros ?. apply keeps_by_translation. intros key c. apply s3_delete.
  - intros strict ?. apply keeps_by_translation. intros key c. apply (delete_translated gcs_gone strict).
  - intros strict ?. apply keeps_by_translation. intros key c. apply (delete_translated azure_gone strict).
Qed.

(** listing in S3 returns one answer of the service: nothing that is not there, but all of
    it only when the answer was complete. *)
Theorem s3_list_partial :
  (∀ C `{!BlobClient C} `{!BlobClientSpec C no_such_key false} prefix (c : C),
     ∃ keys, S3ObjectStore_list_keys prefix c = (Return keys, c) ∧
       ∀ k, k ∈ keys → k ∈ dom (client_view c) ∧ startswith prefix k = true) ∧
  ∀ c : PagedClient, (pg c < size (pg_objects c))%nat →
    ∃ keys, S3ObjectStore_list_keys "" c = (Return keys, c) ∧ length keys = pg c.
Proof.
  split.
  - intros C HC HS prefix c. destruct (client_list_spec prefix c) as (keys & more & Hlist & _ & Hin & _).
    exists keys. unfold S3ObjectStore_list_keys, mbind, PyM_bind. by rewrite Hlist.
  - intros c Hlt. eexists. split; [reflexivity|]. simpl. rewrite length_take.
    assert (matching_keys "" c = elements (dom (pg_objects c))) as ->.
    { unfold matching_keys. induction (elements _) as [|k ks IH]; [done|]. rewrite filter_cons_True by by destruct k.
      by rewrite IH. }
    rewrite <- size_dom in Hlt. unfold size, set_size in Hlt. simpl in Hlt. lia.
Qed.

(** C34: the fake store stands for S3.  From an empty bucket, any calls of put, get, delete and
    exists are answered alike by both, errors included.  Afterwards, for every prefix, the keys the S3
    store lists are, without repetition, keys the fake lists, and exactly those when the
    answer of the service to the one request the store makes was not truncated. *)
Theorem s3_refines_fake {C} `{!BlobClient C} `{!BlobClientSpec C no_such_key false} ops (c : C) :
  client_view c = ∅ →
  let real := answers S3ObjectStore_do ops c in
  let fake := answers S3InMemoryObjectStore_do ops (mkS3Memory [] ∅) in
  fst real = fst fake ∧
  ∀ prefix, ∃ keys keys',
    S3ObjectStore_list_keys prefix (snd real) = (Return keys, snd real) ∧
    S3InMemoryObjectStore_list_keys prefix (snd fake) = (Return keys', snd fake) ∧
    NoDup keys ∧ keys ⊆ keys' ∧
    (∀ page, client_list prefix (snd real) = (Return (page, false), snd real) → keys ≡ₚ keys').
Proof.
  intros Hempty real fake.
  assert (mirrors c (mkS3Memory [] ∅)) as Hm by (split; [constructor|]; intros k; by rewrite Hempty).
  destruct (s3_answers ops c _ Hm) as [Ha [Hnd Hview]]. split; [done|]. fold fake in Hview. fold real in Hview.
  intros prefix. destruct (client_list_spec prefix (snd real)) as (ks & more & Hl & Hnd' & Hin & Hall).
  assert (Hsub : ∀ k, k ∈ filter (λ k, startswith prefix k = true) ((s3m_store (snd fake)).*1) ↔
    startswith prefix k = true ∧ k ∈ dom (client_view (snd real))).
  { intros k. rewrite list_elem_of_filter, <- od_get_is_Some, Hview, fmap_is_Some, <- elem_of_dom. done. }
  exists ks. eexists. split_and!; [|reflexivity|done| |].
  - unfold S3ObjectStore_list_keys, mbind, PyM_bind. by rewrite Hl.
  - intros k Hk%Hin. apply Hsub. tauto.
  - rewrite Hl. intros page [= _ ->]. apply NoDup_Permutation; [done|by apply NoDup_filter|]. intros k.
    rewrite Hsub. split; [intros Hk; apply Hin in Hk; tauto|]. intros [Hp Hk]. by apply Hall.
Qed.

(** [exists] of the S3 store takes every failure for an absence: when the request fails,
    for whatever reason, the answer is false. *)
Theorem s3_exists_hides_errors {C} `{!BlobClient C} key (c c' : C) e :
  client_head key c = (Raise e, c') → is_Exception e = true → S3ObjectStore_exists key c = (Return false, c').
Proof.
  intros Hhead He. unfold S3ObjectStore_exists, try_except, try_base, mbind, PyM_bind. by rewrite Hhead, He.
Qed.

(** ** Witnesses *)

Lemma upload_exact_witness :
  ∃ url x', FileUploadService_upload (Some (mkValidator (Some 10%Z) (Some {["text/plain"]})))
      (UploadedFile_init "a.txt" "text/plain" 3 (FileStream [[1; 2]%Z; [3]%Z] (Return tt)) "") "docs/a"
      (InMemoryObjectStore_init "https://s/", []) =
    (Return url, (x', [mkUploaded "docs/a" url "a.txt" "text/plain" 3 ""])) ∧
    os_view x' = {["docs/a" := [1; 2; 3]%Z]}.
Proof.
  pose proof (upload_exact (Some (mkValidator (Some 10%Z) (Some {["text/plain"]})))
    (UploadedFile_init "a.txt" "text/plain" 3 (FileStream [[1; 2]%Z; [3]%Z] (Return tt)) "") "docs/a"
    (InMemoryObjectStore_init "https://s/") []) as H.
  assert (FileValidator_validate_or_raise (mkValidator (Some 10%Z) (Some {["text/plain"]}))
    (UploadedFile_init "a.txt" "text/plain" 3 (FileStream [[1; 2]%Z; [3]%Z] (Return tt)) "") = Return tt) as E
    by reflexivity.
  cbv zeta iota in H. rewrite E in H. exact H.
Defined.

Lemma s3_exists_hides_errors_witness :
  ∃ c : PagedClient, S3ObjectStore_exists "k" c = (Return false, c).
Proof. exists (mkPaged 2 ∅). by apply (s3_exists_hides_errors "k" (mkPaged 2 ∅) (mkPaged 2 ∅) NoSuchKey). Defined.

Lemma s3_refines_fake_witness :
  let c := mkPaged 2 ∅ in let ops := [OpPut "a" [1%Z] "text/plain"; OpGet "a"; OpDelete "a"; OpExists "a"; OpGet "a"; OpPut "b" [] "x"] in
  client_view c = ∅ ∧
  fst (answers S3ObjectStore_do ops c) = fst (answers S3InMemoryObjectStore_do ops (mkS3Memory [] ∅)) ∧
  ∃ keys, S3ObjectStore_list_keys "b" (snd (answers S3ObjectStore_do ops c)) = (Return keys, snd (answers S3ObjectStore_do ops c)) ∧
    keys ≡ₚ ["b"].
Proof.
  intros c ops. destruct (s3_refines_fake (C := PagedClient) ops c) as [H1 H2]; [reflexivity|]. split; [reflexivity|]. split; [exact H1|].
  destruct (H2 "b") as (keys & keys' & Hl & Hl' & _ & _ & Hp). exists keys. split; [exact Hl|].
  vm_compute in Hl'. injection Hl' as <-. eapply Hp. vm_compute. reflexivity.
Defined.
