(* ===== verification/Settings.v ===== *)
(** * Settings

    [config/settings] - the loaders from the environment and from a [.env] file, the factory
    that merges loaders, the validator - and the errors of [config/validation].  A settings
    class is a dataclass: its prefix, its fields with their types and defaults, and the
    [_validate] hook; an instance is its attributes in the order of the fields. *)
From S2P Require Import Prelude PyString OrderedDict PyValue Errors ValueObjects.

#[local] Abbreviation settings := (list (string * pyval)).
#[local] Abbreviation environ := (gmap string string).

(** ** Errors ([config/validation/errors.py]) *)

Definition ConfigError (msg : string) : pyexn := ApplicationError_of "ConfigError" "config_error" msg.

Definition MissingRequiredSettingError (setting_name : string) : pyexn :=
  let e := BaseError_init ["MissingRequiredSettingError"; "ConfigError"; "ApplicationError"]
             "missing_required_setting" ("Required setting '" +:+ setting_name +:+ "' is missing") None None in
  PyExn (exn_mro e) (exn_msg e) (exn_attrs e ++ [("setting_name", setting_name)]) (exn_causes e).

(** ** Settings classes ([base.py]) *)

(** What the loader looks at in an annotation; [HText] is one that was postponed
    ([from __future__ import annotations]) and is the text of the source. *)
Inductive type_hint := HBool | HInt | HFloat | HList | HOther | HText (s : string).

Inductive field_default := MISSING | Default (v : pyval) | DefaultFactory (v : pyval).

Record SettingsField := mkField { fd_name : string; fd_type : type_hint; fd_default : field_default }.

Record SettingsClass := mkClass {
  sc_name : string;
  sc_prefix : string;
  sc_fields : list SettingsField;
  sc_validate : settings → outcome unit;
}.

Definition default_of (f : SettingsField) : option pyval :=
  match fd_default f with MISSING => None | Default v | DefaultFactory v => Some v end.

Definition field_names (cls : SettingsClass) : list string := map fd_name (sc_fields cls).

(** The names of missing arguments in the message of a [TypeError]. *)
Fixpoint and_list (names : list string) : string :=
  match names with
  | [] => ""
  | [a] => py_repr a
  | [a; b] => py_repr a +:+ ", and " +:+ py_repr b
  | a :: l => py_repr a +:+ ", " +:+ and_list l
  end.

Definition missing_arguments (cls : SettingsClass) (names : list string) : pyexn :=
  TypeError (sc_name cls +:+ ".__init__() missing " +:+ str_of_int (Z.of_nat (length names))
    +:+ (match names with [_] => " required positional argument: " | _ => " required positional arguments: " end)
    +:+ (match names with [a; b] => py_repr a +:+ " and " +:+ py_repr b | _ => and_list names end)).

(** [settings_class] called with keyword arguments: the generated constructor, then [__post_init__]. *)
Definition Settings_init (cls : SettingsClass) (kwargs : settings) : outcome settings :=
  match List.find (λ k, negb (str_in k (field_names cls))) kwargs.*1 with
  | Some k => Raise (TypeError (sc_name cls +:+ ".__init__() got an unexpected keyword argument " +:+ py_repr k))
  | None =>
      match List.filter (λ f, match default_of f with
                              | None => negb (str_in (fd_name f) kwargs.*1)
                              | Some _ => false
                              end) (sc_fields cls) with
      | [] =>
          let inst := map (λ f, (fd_name f, default (default VNone (default_of f)) (od_get (fd_name f) kwargs)))
                        (sc_fields cls) in
          match sc_validate cls inst with Return _ => Return inst | Raise e => Raise e end
      | missing => Raise (missing_arguments cls (map fd_name missing))
      end
  end.

(** The two constructions are wrapped alike: [except Exception as exc: raise ConfigError(...)]. *)
Definition or_config_error {A} (what : string) (o : outcome A) : outcome A :=
  match o with
  | Return a => Return a
  | Raise e => if is_Exception e then Raise (ConfigError ("Failed to " +:+ what +:+ ": " +:+ exn_msg e)) else Raise e
  end.

(** ** Loaders ([loaders.py]) *)

Definition is_hint (h : type_hint) (name : string) (hint : type_hint) : bool :=
  match h, hint with
  | HBool, HBool | HInt, HInt | HFloat, HFloat => true
  | _, HText s => String.eqb s name
  | _, _ => false
  end.

Definition EnvSettingsLoader_coerce (value : string) (hint : type_hint) : outcome pyval :=
  if is_hint HBool "bool" hint then Return (VBool (str_in (lower value) ["1"; "true"; "yes"; "on"]))
  else if is_hint HInt "int" hint then n ← py_int value; Return (VInt n)
  else if is_hint HFloat "float" hint then q ← py_float (VStr value); Return (VFloat q)
  else match hint with
       | HList => Return (VList (map (λ v, VStr (strip v))
                    (List.filter (λ v, negb (String.eqb (strip v) "")) (split_on "," value))))
       | _ => Return (VStr value)
       end.

(** [f"{prefix}_{field.name}".upper().lstrip("_")]. *)
Definition env_key (cls : SettingsClass) (f : SettingsField) : string :=
  lstrip_by (Ascii.eqb "_") (upper (upper (sc_prefix cls) +:+ "_" +:+ fd_name f)).

(** What the loop puts in [kwargs] for one field. *)
Definition env_field (cls : SettingsClass) (env : environ) (f : SettingsField) : outcome (option pyval) :=
  match env !! env_key cls f with
  | None =>
      match default_of f with
      | None => Raise (MissingRequiredSettingError (env_key cls f))
      | Some _ => Return None
      end
  | Some raw => v ← EnvSettingsLoader_coerce raw (fd_type f); Return (Some v)
  end.

Fixpoint env_kwargs (cls : SettingsClass) (env : environ) (fields : list SettingsField) (kwargs : settings) : outcome settings :=
  match fields with
  | [] => Return kwargs
  | f :: fields' =>
      o ← env_field cls env f;
      env_kwargs cls env fields' (match o with Some v => od_set (fd_name f) v kwargs | None => kwargs end)
  end.

(** The state is [os.environ]. *)
Definition EnvSettingsLoader_load (cls : SettingsClass) : PyM environ settings := λ env,
  (kwargs ← env_kwargs cls env (sc_fields cls) [];
   or_config_error "load settings" (Settings_init cls kwargs), env).

(** [load_dotenv] is a parameter. *)
Definition DotenvSettingsLoader_load (load_dotenv : string → bool → PyM environ unit) (env_file : string)
    (override : bool) (cls : SettingsClass) : PyM environ settings :=
  try_base (load_dotenv env_file override)
    (λ exc, if isinstance exc "ImportError"
            then raise (exn_of ["ImportError"] "Install 'python-dotenv' to use DotenvSettingsLoader")
            else raise exc) ;;
  EnvSettingsLoader_load cls.

(** ** The factory ([factory.py]) *)

Section Factory.
Context {W : Type}.

Fixpoint merge_loaders (cls : SettingsClass) (loaders : list (SettingsClass → PyM W settings)) (merged : settings)
    : PyM W settings :=
  match loaders with
  | [] => mret merged
  | load :: loaders' =>
      merged' ← try_except (instance ← load cls; mret (od_update merged instance)) (λ _, mret merged);
      merge_loaders cls loaders' merged'
  end.

(** The first required field that is absent. *)
Definition first_missing (cls : SettingsClass) (merged : settings) : option string :=
  fd_name <$> List.find (λ f, negb (str_in (fd_name f) merged.*1) &&
                          match default_of f with None => true | Some _ => false end) (sc_fields cls).

(** From the merged dictionary on. *)
Definition build_settings (cls : SettingsClass) (merged : settings) : outcome settings :=
  match first_missing cls merged with
  | Some name => Raise (MissingRequiredSettingError name)
  | None => or_config_error ("construct " +:+ sc_name cls) (Settings_init cls merged)
  end.

Definition SettingsFactory_create (cls : SettingsClass) (loaders : list (SettingsClass → PyM W settings))
    (overrides : settings) : PyM W settings :=
  merged ← merge_loaders cls loaders [];
  from_outcome (build_settings cls (od_update merged overrides)).

End Factory.

(** ** The validator ([validator.py]): [default_factory] is not looked at *)

Definition SettingsValidator_validate (cls : SettingsClass) (s : settings) : list string :=
  omap (λ f, match od_get (fd_name f) s, fd_default f with
             | Some VNone, (MISSING | DefaultFactory _) => Some (fd_name f +:+ " is required but None")
             | _, _ => None
             end) (sc_fields cls).

(** ** Lemmas: loading *)

Lemma str_in_spec s l : str_in s l = true ↔ s ∈ l.
Proof.
  unfold str_in. rewrite existsb_exists. split.
  - intros (x & Hx & ->%String.eqb_eq). by apply list_elem_of_In.
  - intros H. exists s. split; [by apply list_elem_of_In|apply String.eqb_refl].
Qed.

Lemma filter_all_false {A} (p : A → bool) l : (∀ x, x ∈ l → p x = false) → List.filter p l = [].
Proof.
  induction l as [|x l IH]; intros H; [done|]. simpl. rewrite H by constructor. apply IH. intros y Hy. apply H. by constructor.
Qed.

Section LoadLemmas.
Context (cls : SettingsClass) (env : environ).

(** The attribute a field gets from the environment. *)
Definition env_entry (f : SettingsField) : outcome (string * pyval) :=
  o ← env_field cls env f; Return (fd_name f, default (default VNone (default_of f)) o).

(** The keyword arguments of the fields that are set. *)
Fixpoint given (fields : list SettingsField) (os : list (option pyval)) : settings :=
  match fields, os with
  | f :: fields', Some v :: os' => (fd_name f, v) :: given fields' os'
  | _ :: fields', None :: os' => given fields' os'
  | _, _ => []
  end.

Lemma given_keys fields os k : k ∈ (given fields os).*1 → k ∈ map fd_name fields.
Proof.
  revert os. induction fields as [|f fields IH]; intros [|[v|] os]; simpl; try set_solver.
Qed.

Lemma given_elem fields os i f v :
  fields !! i = Some f → os !! i = Some (Some v) → fd_name f ∈ (given fields os).*1.
Proof.
  revert os i. induction fields as [|g fields IH]; intros [|o os] [|i] Hf Ho; try done; simpl in *; simplify_eq.
  - constructor.
  - destruct o; [constructor|]; by eapply IH.
Qed.

Lemma env_kwargs_given fields kwargs :
  NoDup (map fd_name fields) → (∀ k, k ∈ map fd_name fields → k ∉ kwargs.*1) →
  env_kwargs cls env fields kwargs = (os ← mapM (env_field cls env) fields; Return (kwargs ++ given fields os)).
Proof.
  revert kwargs. induction fields as [|f fields IH]; intros kwargs Hnd Hdis; cbn [env_kwargs mapM given map] in *.
  { unfold mbind, outcome_bind. simpl. by rewrite app_nil_r. }
  apply NoDup_cons in Hnd as [Hf Hnd]. unfold mbind, outcome_bind in *. cbn.
  destruct (env_field cls env f) as [o|e]; [|done].
  assert (f.(fd_name) ∉ kwargs.*1) as Hnew by (apply Hdis; constructor).
  rewrite IH; [| done |].
  - destruct (mapM (env_field cls env) fields) as [os|]; [|done]. destruct o as [v|]; [|done].
    by rewrite od_set_keys_new, <- app_assoc.
  - intros k Hk. destruct o as [v|]; [|by apply Hdis; constructor].
    rewrite od_set_keys_new, fmap_app by done. simpl. set_solver.
Qed.

Lemma od_get_given fields os :
  NoDup (map fd_name fields) → length os = length fields →
  map (λ f, (fd_name f, default (default VNone (default_of f)) (od_get (fd_name f) (given fields os)))) fields =
  zip_with (λ f o, (fd_name f, default (default VNone (default_of f)) o)) fields os.
Proof.
  revert os. induction fields as [|f fields IH]; intros [|o os] Hnd Hlen; try done.
  cbn [map] in Hnd. apply NoDup_cons in Hnd as [Hf Hnd]. cbn [map zip_with]. injection Hlen as Hlen. f_equal.
  - f_equal. destruct o as [v|]; cbn [given od_get]; [by rewrite decide_True|].
    destruct (od_get (fd_name f) (given fields os)) eqn:E; [|done].
    exfalso. apply Hf, (given_keys fields os), od_get_is_Some. by eexists.
  - rewrite <- IH by done. apply map_ext_in. intros g Hg. f_equal. destruct o as [v|]; [|done].
    cbn [given od_get]. rewrite decide_False; [done|]. intros Heq. apply Hf. rewrite <- Heq.
    apply list_elem_of_In, in_map, Hg.
Qed.

Lemma mapM_env_entry fields :
  mapM env_entry fields =
  (os ← mapM (env_field cls env) fields;
   Return (zip_with (λ f o, (fd_name f, default (default VNone (default_of f)) o)) fields os)).
Proof.
  induction fields as [|f fields IH]; [done|]. cbn [mapM]. rewrite IH. unfold env_entry, mbind, outcome_bind.
  destruct (env_field cls env f) as [o|e]; [|done]. cbn. unfold mret, outcome_ret. by destruct (mapM (env_field cls env) fields).
Qed.

Lemma mapM_env_field fields os : mapM (env_field cls env) fields = Return os → Forall2 (λ f o, env_field cls env f = Return o) fields os.
Proof.
  revert os. induction fields as [|f fields IH]; intros os H; cbn in H; [by injection H as <-|].
  destruct (env_field cls env f) as [o|] eqn:E; [|done]. cbn in H.
  destruct (mapM (env_field cls env) fields); [|done]. injection H as <-. constructor; [done|by apply IH].
Qed.

Lemma mapM_Forall2 fields os :
  Forall2 (λ f o, env_field cls env f = Return o) fields os → mapM (env_field cls env) fields = Return os.
Proof. induction 1 as [|f o fields os Ho H IH]; [done|]. cbn [mapM]. by rewrite Ho, IH. Qed.

(** What is given is accepted by the constructor: no name is unknown, none is missing. *)
Lemma Settings_init_given os :
  NoDup (field_names cls) → Forall2 (λ f o, env_field cls env f = Return o) (sc_fields cls) os →
  let inst := zip_with (λ f o, (fd_name f, default (default VNone (default_of f)) o)) (sc_fields cls) os in
  Settings_init cls (given (sc_fields cls) os) = match sc_validate cls inst with Return _ => Return inst | Raise e => Raise e end.
Proof.
  intros Hnd Hos inst. unfold Settings_init. unfold field_names in *.
  destruct (List.find _ _) as [k|] eqn:Hfind.
  { apply find_some in Hfind as [Hk Hin]. apply list_elem_of_In, given_keys in Hk.
    apply str_in_spec in Hk. by rewrite Hk in Hin. }
  assert (List.filter (λ f, match default_of f with
                            | None => negb (str_in (fd_name f) (given (sc_fields cls) os).*1)
                            | Some _ => false end) (sc_fields cls) = []) as ->.
  { apply filter_all_false. intros f Hf. destruct (default_of f) eqn:Hd; [done|].
    apply negb_false_iff, str_in_spec. apply list_elem_of_lookup in Hf as [i Hi].
    destruct (Forall2_lookup_l _ _ _ _ _ Hos Hi) as (o & Ho & He).
    unfold env_field in He. rewrite Hd in He. destruct (env !! env_key cls f) as [raw|]; [|done].
    destruct (EnvSettingsLoader_coerce raw (fd_type f)) as [v|]; [|done]. injection He as <-.
    by eapply given_elem. }
  rewrite od_get_given; [done|done|]. symmetry. by eapply Forall2_length.
Qed.

End LoadLemmas.

(** ** Lemmas: text of settings *)

(** The text a setting is written as in the environment. *)
Definition env_text (v : pyval) : string :=
  match v with
  | VBool b => if b then "true" else "false"
  | VInt n => str_of_int n
  | VStr s => s
  | VList l => join "," (map (λ v, match v with VStr s => s | _ => "" end) l)
  | _ => ""
  end.

(** An element a list can have: not empty, without commas, without blanks around it. *)
Definition list_item (s : string) : Prop :=
  s ≠ "" ∧ strip s = s ∧ str_all (λ c, negb (Ascii.eqb c ",")) s = true.

(** The value has the type of the field. *)
Definition fits (hint : type_hint) (v : pyval) : Prop :=
  match v with
  | VBool _ => is_hint HBool "bool" hint = true
  | VInt _ => is_hint HInt "int" hint = true
  | VStr _ => match hint with HOther => True | HText s => s ∉ ["bool"; "int"; "float"] | _ => False end
  | VList l => hint = HList ∧ ∃ items, l = map VStr items ∧ Forall list_item items
  | _ => False
  end.

Lemma split_join_items items :
  Forall list_item items → split_on "," (join "," items) = match items with [] => [""] | _ => items end.
Proof.
  induction 1 as [|s items (_ & _ & Hs) Hl IH]; [done|]. destruct items as [|t items].
  - by apply split_on_single.
  - change (join "," (s :: t :: items)) with (s +:+ String "," (join "," (t :: items))).
    rewrite split_on_app by done. by rewrite IH.
Qed.

Lemma coerce_text hint v : fits hint v → EnvSettingsLoader_coerce (env_text v) hint = Return v.
Proof.
  unfold EnvSettingsLoader_coerce. destruct v as [|b|n|q|s|l|d]; cbn [fits]; try done.
  - intros ->. by destruct b.
  - intros H. assert (is_hint HBool "bool" hint = false) as ->.
    { destruct hint as [| | | | |t]; try done. simpl in *. apply String.eqb_eq in H as ->. done. }
    rewrite H. cbn [env_text]. by rewrite py_int_str.
  - destruct hint as [| | | | |t]; try done. intros Ht. simpl.
    assert (∀ n, n ∈ ["bool"; "int"; "float"] → String.eqb t n = false) as Hn
      by (intros n Hn; apply String.eqb_neq; by intros ->).
    by rewrite !Hn by set_solver.
  - intros (-> & items & -> & Hi). simpl. rewrite map_map, map_id, split_join_items by done. do 2 f_equal.
    destruct items as [|i0 items0]; [done|]. revert Hi. generalize (i0 :: items0) as l. clear.
    induction 1 as [|s l (Hne & Hst & _) Hl IH]; [done|]. simpl. rewrite Hst, (proj2 (String.eqb_neq _ _) Hne). simpl.
    by rewrite Hst, IH.
Qed.

(** The environment that has the settings and nothing else. *)
Definition settings_environ (cls : SettingsClass) (s : settings) : environ :=
  list_to_map (zip_with (λ f e, (env_key cls f, env_text (snd e))) (sc_fields cls) s).

Lemma settings_environ_lookup cls s i f e :
  NoDup (map (env_key cls) (sc_fields cls)) → length s = length (sc_fields cls) →
  sc_fields cls !! i = Some f → s !! i = Some e → settings_environ cls s !! env_key cls f = Some (env_text (snd e)).
Proof.
  intros Hnd Hlen Hf He. apply elem_of_list_to_map_1.
  - assert ((zip_with (λ f e, (env_key cls f, env_text (snd e))) (sc_fields cls) s).*1 = map (env_key cls) (sc_fields cls))
      as ->; [|done].
    clear -Hlen. revert s Hlen. induction (sc_fields cls) as [|g l IH]; intros [|x s] Hlen; try done.
    simpl. f_equal. apply IH. by injection Hlen.
  - apply list_elem_of_lookup. exists i. by rewrite lookup_zip_with, Hf, He.
Qed.

Lemma zip_back cls s :
  s.*1 = field_names cls →
  zip_with (λ f o, (fd_name f, default (default VNone (default_of f)) o)) (sc_fields cls) (Some ∘ snd <$> s) = s.
Proof.
  unfold field_names. revert s. induction (sc_fields cls) as [|f fields IH]; intros [|[n v] s] Hs; try done.
  injection Hs as -> Hs. simpl. by rewrite IH.
Qed.

(** ** Lemmas: merging *)

Lemma od_update_same_keys (d d' : settings) :
  NoDup d'.*1 → d = [] ∨ d.*1 = d'.*1 → od_update d d' = d'.
Proof.
  intros Hnd Hd.
  assert (∀ pre d d', NoDup (pre ++ d').*1 → d = [] ∨ d.*1 = d'.*1 →
            fold_left (λ (d : settings) e, od_set (fst e) (snd e) d) d' (pre ++ d) = pre ++ d') as H.
  { clear. intros pre d d'. revert pre d. induction d' as [|[k v] d' IH]; intros pre d Hnd Hd.
    - destruct Hd as [-> | Hd]; [done|]. by destruct d.
    - simpl. rewrite fmap_app in Hnd. simpl in Hnd. assert (k ∉ pre.*1) as Hk by (apply NoDup_app in Hnd; set_solver).
      assert (od_set k v (pre ++ d) = (pre ++ [(k, v)]) ++ tail d) as ->.
      { destruct Hd as [-> | Hd].
        - rewrite !app_nil_r. by rewrite od_set_keys_new.
        - destruct d as [|[k' v'] d]; [done|]. injection Hd as -> Hd. clear -Hk.
          induction pre as [|[k0 v0] pre IHp]; simpl; [by rewrite decide_True|].
          simpl in Hk. rewrite not_elem_of_cons in Hk. destruct Hk as [Hne Hk].
          rewrite decide_False by congruence. simpl. f_equal. by apply IHp. }
      rewrite IH.
      + by rewrite <- app_assoc.
      + rewrite <- app_assoc, fmap_app. done.
      + destruct Hd as [-> | Hd]; [by left|]. destruct d; [done|]. injection Hd as _ Hd. by right. }
  apply (H [] d d'); [done|done].
Qed.

Section MergeLemmas.
Context {W : Type} (cls : SettingsClass).

(** A loader gives a whole instance or raises an [Exception]. *)
Definition whole (load : SettingsClass → PyM W settings) : Prop :=
  ∀ w, match fst (load cls w) with Return s => s.*1 = field_names cls | Raise e => is_Exception e = true end.

Definition failing (load : SettingsClass → PyM W settings) : Prop :=
  ∀ w, ∃ e, fst (load cls w) = Raise e ∧ is_Exception e = true.

(** One round of the loop. *)
Lemma merge_round load merged w :
  whole load → NoDup (field_names cls) → merged = [] ∨ merged.*1 = field_names cls →
  ∃ merged', try_except (instance ← load cls; mret (od_update merged instance)) (λ _, mret merged) w =
      (Return merged', snd (load cls w)) ∧
    merged' = match fst (load cls w) with Return s => s | Raise _ => merged end ∧
    (merged' = [] ∨ merged'.*1 = field_names cls).
Proof.
  intros Hload Hnd Hm. specialize (Hload w). unfold try_except, try_base, mbind, PyM_bind.
  destruct (load cls w) as [[s|e] w'] eqn:E; simpl in *.
  - exists s. rewrite od_update_same_keys; [by auto|by rewrite Hload|]. rewrite Hload. tauto.
  - rewrite Hload. by exists merged.
Qed.

Lemma merge_before loaders merged w :
  Forall whole loaders → NoDup (field_names cls) → merged = [] ∨ merged.*1 = field_names cls →
  ∃ merged' w', merge_loaders cls loaders merged w = (Return merged', w') ∧
    (merged' = [] ∨ merged'.*1 = field_names cls).
Proof.
  intros Hl Hnd. revert merged w. induction Hl as [|load loaders Hload Hl IH]; intros merged w Hm; [by eexists _, _|].
  cbn [merge_loaders]. destruct (merge_round load merged w) as (m' & Hround & _ & Hm'); [done..|].
  unfold mbind, PyM_bind in *. rewrite Hround. by apply IH.
Qed.

Lemma merge_after loaders merged w :
  Forall failing loaders → ∃ w', merge_loaders cls loaders merged w = (Return merged, w').
Proof.
  intros Hl. revert w. induction Hl as [|load loaders Hload Hl IH]; intros w; [by eexists|].
  cbn [merge_loaders]. destruct (Hload w) as (e & He & Hexc). unfold try_except, try_base, mbind, PyM_bind in *.
  destruct (load cls w) as [o w']. simpl in He. subst o. rewrite Hexc. apply IH.
Qed.

Lemma merge_app (ls ls' : list (SettingsClass → PyM W settings)) merged w :
  merge_loaders cls (ls ++ ls') merged w = (m ← merge_loaders cls ls merged; merge_loaders (W := W) cls ls' m) w.
Proof.
  revert merged w. induction ls as [|l ls IH]; intros merged w; [done|]. cbn [merge_loaders app]. unfold mbind, PyM_bind in *.
  destruct (try_except _ _ w) as [[m|e] w']; [|done]. apply IH.
Qed.

End MergeLemmas.

(** The loader from the environment is one of these. *)
Lemma coerce_raises value hint e : EnvSettingsLoader_coerce value hint = Raise e → is_Exception e = true.
Proof.
  unfold EnvSettingsLoader_coerce. destruct (is_hint HBool "bool" hint); [done|].
  destruct (is_hint HInt "int" hint).
  { unfold py_int. destruct (match strip value with "" => _ | _ => _ end); [done|]. by intros [= <-]. }
  destruct (is_hint HFloat "float" hint); [|by destruct hint].
  simpl. destruct (parse_float value); [done|]. by intros [= <-].
Qed.

Lemma env_loader_whole cls :
  NoDup (field_names cls) → (∀ s e, sc_validate cls s = Raise e → is_Exception e = true) →
  whole cls EnvSettingsLoader_load.
Proof.
  intros Hnd Hexc env. unfold EnvSettingsLoader_load. cbn [fst].
  rewrite env_kwargs_given by (done || (intros; apply not_elem_of_nil)).
  destruct (mapM (env_field cls env) (sc_fields cls)) as [os|e] eqn:E; cbn.
  - apply mapM_env_field in E. rewrite (Settings_init_given cls env) by done.
    destruct (sc_validate cls _) as [u|e] eqn:Ev; cbn.
    + apply Forall2_length in E. clear -E. unfold field_names. revert os E.
      induction (sc_fields cls) as [|f l IH]; intros [|o os] E; try done. simpl. f_equal. apply IH. by injection E.
    + by rewrite (Hexc _ _ Ev).
  - revert E. induction (sc_fields cls) as [|f l IH]; [done|]. cbn [mapM]. unfold mbind, outcome_bind in *.
    destruct (env_field cls env f) as [o|e'] eqn:Ef.
    + destruct (mapM _ l); [done|]. cbn. intros [= ->]. by apply IH.
    + cbn. intros [= ->]. unfold env_field in Ef. destruct (env !! _) as [raw|].
      * destruct (EnvSettingsLoader_coerce raw (fd_type f)) eqn:Ec; [done|]. injection Ef as ->. by eapply coerce_raises.
      * destruct (default_of f); [done|]. by injection Ef as <-.
Qed.

(** The overrides put over an instance. *)
Definition overridden (inst overrides : settings) : settings :=
  map (λ e, (fst e, default (snd e) (od_get (fst e) overrides))) inst.

Lemma od_update_keys (d d' : settings) k : k ∈ (od_update d d').*1 ↔ k ∈ d.*1 ∨ k ∈ d'.*1.
Proof.
  unfold od_update. revert d. induction d' as [|[k' v] d' IH]; intros d; simpl; [set_solver|].
  rewrite IH, <- (od_get_is_Some k (od_set _ _ _)). destruct (decide (k = k')) as [->|Hne].
  - rewrite od_get_set_eq. set_solver.
  - rewrite od_get_set_ne, od_get_is_Some by done. set_solver.
Qed.

(** A class whose overrides name fields is built from the instance and the overrides. *)
Lemma build_overridden cls inst overrides :
  NoDup (field_names cls) → inst.*1 = field_names cls →
  NoDup overrides.*1 → overrides.*1 ⊆ field_names cls →
  build_settings cls (od_update inst overrides) =
  or_config_error ("construct " +:+ sc_name cls)
    (match sc_validate cls (overridden inst overrides) with Return _ => Return (overridden inst overrides) | Raise e => Raise e end).
Proof.
  intros Hnd Hinst Hov Hsub. unfold build_settings, first_missing.
  assert (∀ f, f ∈ sc_fields cls → str_in (fd_name f) (od_update inst overrides).*1 = true) as Hin.
  { intros f Hf. apply str_in_spec, od_update_keys. left. rewrite Hinst. apply list_elem_of_In, in_map. by apply list_elem_of_In. }
  destruct (List.find _ (sc_fields cls)) as [f|] eqn:E; simpl.
  { apply find_some in E as [Hf Hm]. rewrite Hin in Hm by by apply list_elem_of_In. done. }
  f_equal. unfold Settings_init. destruct (List.find _ (od_update inst overrides).*1) as [k|] eqn:E2.
  { apply find_some in E2 as [Hk%list_elem_of_In%od_update_keys Hm].
    rewrite (proj2 (str_in_spec _ _)) in Hm; [done|]. rewrite Hinst in Hk. destruct Hk; [done|by apply Hsub]. }
  rewrite filter_all_false.
  2:{ intros f Hf. destruct (default_of f); [done|]. by rewrite Hin. }
  assert (map (λ f, (fd_name f, default (default VNone (default_of f)) (od_get (fd_name f) (od_update inst overrides))))
            (sc_fields cls) = overridden inst overrides) as ->; [|done].
  unfold overridden. apply list_eq. intros i. rewrite !list_lookup_fmap.
  assert (fst <$> inst !! i = fd_name <$> sc_fields cls !! i) as Hi
    by (rewrite <- !list_lookup_fmap; by apply (f_equal (.!! i)) in Hinst).
  destruct (sc_fields cls !! i) as [f|] eqn:Hf, (inst !! i) as [[n v]|] eqn:Hv; try done. simpl in *. injection Hi as ->.
  rewrite od_get_update by done. do 2 f_equal. destruct (od_get (fd_name f) overrides); [done|].
  rewrite (od_get_NoDup (fd_name f) v); [done|by rewrite Hinst|]. by eapply list_elem_of_lookup_2.
Qed.

(** ** Theorems *)

(** loading from the environment is exact.  Field by field, in order, the attribute is the
    variable's text converted to the type of the field, or the default when the variable is
    not set; the first field that has neither raises [MissingRequiredSettingError] with the
    variable's name, the first text that does not convert raises its [ValueError], and an
    instance the class rejects is a [ConfigError].  The environment is not changed. *)
Theorem env_load_exact cls env :
  NoDup (field_names cls) →
  EnvSettingsLoader_load cls env =
  (inst ← mapM (env_entry cls env) (sc_fields cls);
   or_config_error "load settings" (match sc_validate cls inst with Return _ => Return inst | Raise e => Raise e end),
   env).
Proof.
  intros Hnd. unfold EnvSettingsLoader_load. f_equal.
  rewrite env_kwargs_given by (done || (intros; apply not_elem_of_nil)). rewrite mapM_env_entry.
  destruct (mapM (env_field cls env) (sc_fields cls)) as [os|e] eqn:E; [|done]. cbn.
  apply mapM_env_field in E. by rewrite (Settings_init_given cls env).
Qed.

(** settings survive the environment.  The settings of a class whose variables are
    distinct, written as text - numbers in decimal, lists with commas - and set beside
    whatever else the environment has, are what is loaded. *)
Theorem settings_env_roundtrip cls s env u :
  NoDup (field_names cls) → NoDup (map (env_key cls) (sc_fields cls)) →
  s.*1 = field_names cls → Forall2 (λ f e, fits (fd_type f) (snd e)) (sc_fields cls) s →
  sc_validate cls s = Return u → settings_environ cls s ⊆ env →
  EnvSettingsLoader_load cls env = (Return s, env).
Proof.
  intros Hnd Hkeys Hs Hfits Hvalid Henv.
  unfold EnvSettingsLoader_load. f_equal.
  rewrite env_kwargs_given by (done || (intros; apply not_elem_of_nil)).
  assert (Forall2 (λ f o, env_field cls env f = Return o) (sc_fields cls) (Some ∘ snd <$> s)) as Hos.
  { apply Forall2_fmap_r, Forall2_same_length_lookup. split; [by eapply Forall2_length|].
    intros i f e Hf He. unfold env_field. pose proof (Forall2_lookup_lr _ _ _ _ _ _ Hfits Hf He) as Hfit.
    rewrite (lookup_weaken _ _ _ _ (settings_environ_lookup cls s i f e Hkeys (eq_sym (Forall2_length _ _ _ Hfits)) Hf He) Henv).
    by rewrite coerce_text. }
  rewrite (mapM_Forall2 cls env _ _ Hos). cbn. rewrite (Settings_init_given cls env) by done.
  rewrite (zip_back cls s) by done. by rewrite Hvalid.
Qed.

(** the factory takes all values from the last loader that succeeds.  Its instance has a
    value for every field, defaults included, so whatever the loaders before it found is
    overwritten, and the result is that instance with the overrides put over it, if the
    class accepts it. *)
Theorem factory_last_loader {W} cls before load after overrides inst (w w1 w2 : W) m :
  NoDup (field_names cls) → Forall (whole cls) before →
  merge_loaders cls before [] w = (Return m, w1) → load cls w1 = (Return inst, w2) →
  inst.*1 = field_names cls → Forall (failing cls) after →
  NoDup overrides.*1 → overrides.*1 ⊆ field_names cls →
  fst (SettingsFactory_create cls (before ++ load :: after) overrides w) =
  or_config_error ("construct " +:+ sc_name cls)
    (match sc_validate cls (overridden inst overrides) with
     | Return _ => Return (overridden inst overrides)
     | Raise e => Raise e
     end).
Proof.
  intros Hnd Hb Hm Hload Hinst Ha Hov Hsub. unfold SettingsFactory_create, mbind, PyM_bind. rewrite merge_app.
  unfold mbind, PyM_bind. rewrite Hm. cbn [merge_loaders].
  destruct (merge_before cls before [] w Hb Hnd (or_introl eq_refl)) as (m' & w' & Hm' & Hkeys).
  rewrite Hm in Hm'. injection Hm' as <- <-.
  unfold mbind, PyM_bind, try_except, try_base. rewrite Hload. unfold mret, PyM_ret.
  rewrite od_update_same_keys; [|by rewrite Hinst|by rewrite Hinst].
  destruct (merge_after cls after inst w2 Ha) as (w3 & ->). simpl. by apply build_overridden.
Qed.

(** how the factory ends.  Either with an instance that has every field and that the class
    accepts, or with [MissingRequiredSettingError] for a field that has no default and that
    neither the loaders nor the overrides gave, or with [ConfigError]. *)
Theorem factory_outcomes {W} cls loaders overrides (w : W) :
  NoDup (field_names cls) → Forall (whole cls) loaders →
  (∀ s e, sc_validate cls s = Raise e → is_Exception e = true) →
  match fst (SettingsFactory_create cls loaders overrides w) with
  | Return s => s.*1 = field_names cls ∧ ∃ u, sc_validate cls s = Return u
  | Raise e =>
      (∃ f, f ∈ sc_fields cls ∧ default_of f = None ∧ fd_name f ∉ overrides.*1 ∧
         fst (merge_loaders cls loaders [] w) = Return [] ∧ e = MissingRequiredSettingError (fd_name f)) ∨
      ∃ msg, e = ConfigError msg
  end.
Proof.
  intros Hnd Hl Hexc. unfold SettingsFactory_create, mbind, PyM_bind.
  destruct (merge_before cls loaders [] w Hl Hnd (or_introl eq_refl)) as (m & w' & -> & Hm). simpl.
  unfold build_settings, first_missing. destruct (List.find _ (sc_fields cls)) as [f|] eqn:E; simpl.
  - apply find_some in E as [Hf%list_elem_of_In Hmiss]. apply andb_true_iff in Hmiss as [Hk Hd].
    left. exists f. destruct (default_of f) eqn:Ed; [done|].
    assert (fd_name f ∉ (od_update m overrides).*1) as Hn.
    { intros Hin%str_in_spec. by rewrite Hin in Hk. }
    rewrite od_update_keys in Hn. split_and!; [done|done|tauto| |done]. f_equal. destruct Hm as [|Hm]; [done|].
    destruct Hn. left. rewrite Hm. apply list_elem_of_In, in_map. by apply list_elem_of_In.
  - unfold or_config_error, Settings_init.
    destruct (List.find _ (od_update m overrides).*1); [right; by eexists|].
    destruct (List.filter _ (sc_fields cls)); [|right; by eexists].
    set (inst := map _ _). destruct (sc_validate cls inst) as [u|e] eqn:Ev.
    + split; [|by eexists]. unfold inst, field_names. by rewrite <- list_fmap_compose.
    + rewrite (Hexc _ _ Ev). right. by eexists.
Qed.

(** ** Witnesses *)

Definition demo_class : SettingsClass :=
  mkClass "AppSettings" "app" [mkField "port" HInt (Default (VInt 80)); mkField "debug" (HText "bool") MISSING;
    mkField "hosts" HList (DefaultFactory (VList []))] (λ _, Return tt).

Definition demo_settings : settings := [("port", VInt 9000); ("debug", VBool true); ("hosts", VList [VStr "a"; VStr "b"])].

Lemma env_load_exact_witness :
  EnvSettingsLoader_load demo_class {["APP_DEBUG" := "yes"]} =
  (Return [("port", VInt 80); ("debug", VBool true); ("hosts", VList [])], {["APP_DEBUG" := "yes"]}).
Proof. rewrite env_load_exact; [reflexivity|]. by apply (bool_decide_unpack _). Defined.

Lemma settings_env_roundtrip_witness :
  EnvSettingsLoader_load demo_class (settings_environ demo_class demo_settings) =
  (Return demo_settings, settings_environ demo_class demo_settings).
Proof.
  apply (settings_env_roundtrip demo_class demo_settings _ tt);
    [by apply (bool_decide_unpack _)|by apply (bool_decide_unpack _)|reflexivity| |reflexivity|reflexivity].
  repeat constructor. exists ["a"; "b"]. split; [reflexivity|]. by repeat constructor.
Defined.

Lemma factory_last_loader_witness :
  fst (SettingsFactory_create demo_class ([λ _, mret demo_settings] ++ EnvSettingsLoader_load :: []) [("debug", VBool false)]
    {["APP_DEBUG" := "1"]}) =
  Return [("port", VInt 80); ("debug", VBool false); ("hosts", VList [])].
Proof.
  apply (factory_last_loader demo_class [λ _, mret demo_settings] EnvSettingsLoader_load [] [("debug", VBool false)]
    [("port", VInt 80); ("debug", VBool true); ("hosts", VList [])] {["APP_DEBUG" := "1"]} {["APP_DEBUG" := "1"]}
    {["APP_DEBUG" := "1"]} demo_settings);
    [by apply (bool_decide_unpack _)|by repeat constructor|reflexivity|reflexivity|reflexivity|constructor| |].
  - by apply (bool_decide_unpack _).
  - intros k Hk. simpl in Hk. apply list_elem_of_singleton in Hk as ->. by apply (bool_decide_unpack _).
Defined.

Lemma factory_outcomes_witness :
  match fst (SettingsFactory_create demo_class [EnvSettingsLoader_load] [] {["APP_DEBUG" := "1"]}) with
  | Return s => s.*1 = field_names demo_class
  | Raise _ => False
  end.
Proof.
  pose proof (factory_outcomes demo_class [EnvSettingsLoader_load] [] {["APP_DEBUG" := "1"]}) as H.
  assert (∃ s, fst (SettingsFactory_create demo_class [EnvSettingsLoader_load] [] {["APP_DEBUG" := "1"]}) = Return s) as [s E]
    by (by eexists).
  rewrite E in *. apply H; [by apply (bool_decide_unpack _)| |done].
  constructor; [|constructor]. apply env_loader_whole; [by apply (bool_decide_unpack _)|done].
Defined.
