(* ===== verification/Secrets.v ===== *)
(** * Secret stores

    [config/secrets] (references, the port, the store on mounted files),
    [testing/fakes/secrets.py], [adapters/vault/store.py] with the renewal of its token, and
    [adapters/azure_keyvault/store.py].  File system, Vault and Key Vault are arguments. *)
From Stdlib Require Import Qround.
From S2P Require Import Prelude PyString OrderedDict PyValue.

#[local] Open Scope Q_scope.

(** ** References and the port ([port.py]) *)

Record SecretRef := mkRef { sr_path : string; sr_key : string; sr_version : option string }.

Definition SecretRef_str (ref : SecretRef) : string := sr_path ref +:+ "/" +:+ sr_key ref.

Class SecretStore (W : Type) := {
  ss_get : SecretRef → PyM W string;
  ss_get_all : string → PyM W (list (string * string));
}.

(** ** The fake ([testing/fakes/secrets.py]) *)

#[local] Abbreviation secrets := (list (string * string)).

Definition FakeSecretStore_get (ref : SecretRef) : PyM secrets string := λ store,
  (match od_get (SecretRef_str ref) store with
   | Some v => Return v
   | None => Raise (KeyError (py_repr ("Secret not found: " +:+ SecretRef_str ref)))
   end, store).

(** The entries below a prefix, under the rest of their names. *)
Definition below (prefix : string) (store : secrets) : secrets :=
  omap (λ e, if startswith prefix (fst e)
             then Some (String.substring (String.length prefix) (String.length (fst e) - String.length prefix) (fst e), snd e)
             else None) store.

Definition FakeSecretStore_get_all (path : string) : PyM secrets secrets :=
  reads (λ store, od_update [] (below (rstrip_by (Ascii.eqb "/") path +:+ "/") store)).

Definition FakeSecretStore_seed (key value : string) : PyM secrets unit := updates (od_set key value).
Definition FakeSecretStore_seed_ref (ref : SecretRef) (value : string) : PyM secrets unit :=
  updates (od_set (SecretRef_str ref) value).
Definition FakeSecretStore_reset : PyM secrets unit := updates (λ _, []).

#[export] Instance fake_SecretStore : SecretStore secrets := {
  ss_get := FakeSecretStore_get;
  ss_get_all := FakeSecretStore_get_all;
}.

(** ** Mounted files ([kubernetes.py]) *)

(** [pathlib]'s [a / b]: an absolute [b] replaces [a], an empty one changes nothing. *)
Definition path_join (a b : string) : string :=
  if startswith "/" b then b
  else if String.eqb b "" then a
  else if endswith "/" a then a +:+ b
  else a +:+ "/" +:+ b.

Section Kubernetes.
Context {W : Type} (exists_ : string → PyM W bool) (read_text : string → PyM W string)
  (iterdir : string → PyM W (list string)) (is_file : string → PyM W bool).

Definition KubernetesSecretStore_get (mount_root : string) (ref : SecretRef) : PyM W string :=
  let secret_path := path_join (path_join mount_root (sr_path ref)) (sr_key ref) in
  found ← exists_ secret_path;
  if found : bool then text ← read_text secret_path; mret (strip text)
  else raise (exn_of ["FileNotFoundError"; "OSError"] ("Secret not found: " +:+ secret_path)).

(** The comprehension over the entries of the directory. *)
Fixpoint read_files (base : string) (names : list string) : PyM W secrets :=
  match names with
  | [] => mret []
  | n :: names' =>
      file ← is_file (path_join base n);
      if file : bool then
        text ← read_text (path_join base n);
        rest ← read_files base names';
        mret ((n, strip text) :: rest)
      else read_files base names'
  end.

Definition KubernetesSecretStore_get_all (mount_root path : string) : PyM W secrets :=
  let base := path_join mount_root path in
  names ← iterdir base;
  read_files base names.

End Kubernetes.

(** ** HashiCorp Vault ([adapters/vault/store.py]) *)

Section Vault.
(** [read_secret_version(path, mount_point)["data"]["data"]]. *)
Context {W : Type} (read_secret_version : string → string → PyM W secrets).

Definition VaultSecretStore_sync_get (mount : string) (ref : SecretRef) : PyM W string :=
  data ← read_secret_version (sr_path ref) mount;
  match od_get (sr_key ref) data with
  | Some v => mret v
  | None => raise (KeyError (py_repr ("Key '" +:+ sr_key ref +:+ "' not found at path '" +:+ sr_path ref +:+ "'")))
  end.

Definition VaultSecretStore_get : string → SecretRef → PyM W string := VaultSecretStore_sync_get.

Definition VaultSecretStore_sync_get_all (mount path : string) : PyM W secrets := read_secret_version path mount.

Definition VaultSecretStore_get_all : string → string → PyM W secrets := VaultSecretStore_sync_get_all.

End Vault.

(** *** Renewal of the token *)

Record VaultTokenRenewer := mkRenewer { vr_renew_before : Z; vr_interval : Q }.

Section Renewer.
Context {W : Type} (lookup_ttl : PyM W Z) (renew_self : PyM W unit) (sleep : Q → PyM W unit).

(** The body of [while self._running]. *)
Definition VaultTokenRenewer_round (self : VaultTokenRenewer) : PyM W unit :=
  try_except
    (ttl ← lookup_ttl; if (ttl <=? vr_renew_before self)%Z then renew_self else mret tt)
    (λ _, mret tt) ;;
  sleep (vr_interval self).

(** The loop, stopped after [n] rounds. *)
Fixpoint VaultTokenRenewer_renew_loop (self : VaultTokenRenewer) (n : nat) : PyM W unit :=
  match n with
  | O => mret tt
  | S n' => VaultTokenRenewer_round self ;; VaultTokenRenewer_renew_loop self n'
  end.

End Renewer.

(** ** Azure Key Vault ([adapters/azure_keyvault/store.py]) *)

Definition hyphenate (s : string) : string :=
  str_map (λ c, if Ascii.eqb c "/" || Ascii.eqb c "_" then "-"%char else c) s.

(** [_secret_name]. *)
Definition secret_name (path key : string) : string :=
  hyphenate (if String.eqb path "" then key else path +:+ "-" +:+ key).

Section KeyVault.
(** [client.get_secret(name, version).value] and the names and states of
    [list_properties_of_secrets]. *)
Context {W : Type} (get_secret : string → option string → PyM W string)
  (list_properties : PyM W (list (option string * bool))).

Definition secret_not_found (exc : pyexn) : bool :=
  contains "SecretNotFound" (default "" (head (exn_mro exc))) || contains "404" (exn_msg exc)
  || contains "SecretNotFound" (exn_msg exc).

Definition AzureKeyVaultSecretStore_get (ref : SecretRef) : PyM W string :=
  let name := secret_name (sr_path ref) (sr_key ref) in
  try_except (get_secret name (sr_version ref))
    (λ exc, if secret_not_found exc
            then raise (KeyError (py_repr ("Secret '" +:+ name +:+ "' not found in vault")))
            else raise exc).

(** The loop over the listed secrets. *)
Fixpoint collect (prefix : string) (props : list (option string * bool)) (result : secrets) : PyM W secrets :=
  match props with
  | [] => mret result
  | (Some name, true) :: props' =>
      if negb (String.eqb name "") && startswith prefix name then
        value ← get_secret name None;
        collect prefix props' (od_set name value result)
      else collect prefix props' result
  | _ :: props' => collect prefix props' result
  end.

Definition AzureKeyVaultSecretStore_get_all (path : string) : PyM W secrets :=
  props ← list_properties;
  collect (hyphenate path) props [].

End KeyVault.

(** ** Lemmas *)

(** *** A Vault server

    The token has [vw_left] seconds left; [vw_rounds] says of the coming rounds whether the
    lookup and whether the renewal fail (the rounds after these succeed).  An expired token
    is refused.  The time to live is given in whole seconds. *)
Record VaultWorld := mkVault { vw_left : Q; vw_lease : Q; vw_rounds : list (bool * bool) }.

Definition vault_down : pyexn := exn_of ["VaultDown"; "VaultError"] "".
Definition vault_forbidden : pyexn := exn_of ["Forbidden"; "VaultError"] "permission denied".

Definition faults (w : VaultWorld) : bool * bool := default (false, false) (head (vw_rounds w)).

Definition vault_call {A} (fault : VaultWorld → bool) (m : PyM VaultWorld A) : PyM VaultWorld A := λ w,
  if fault w then (Raise vault_down, w)
  else if Qle_bool (vw_left w) 0 then (Raise vault_forbidden, w) else m w.

Definition vault_lookup : PyM VaultWorld Z := vault_call (λ w, fst (faults w)) (reads (λ w, Qfloor (vw_left w))).
Definition vault_renew : PyM VaultWorld unit :=
  vault_call (λ w, snd (faults w)) (updates (λ w, mkVault (vw_lease w) (vw_lease w) (vw_rounds w))).
Definition vault_sleep (d : Q) : PyM VaultWorld unit :=
  updates (λ w, mkVault (vw_left w - d) (vw_lease w) (tail (vw_rounds w))).

(** No more than [k] rounds fail in a row, [j] at first. *)
Fixpoint tolerable (k j : nat) (rounds : list (bool * bool)) : Prop :=
  match rounds with
  | [] => True
  | (a, b) :: rounds' =>
      if a || b then match j with O => False | S j' => tolerable k j' rounds' end
      else tolerable k k rounds'
  end.

#[local] Abbreviation times n d := (inject_Z (Z.of_nat n) * d)%Q.

Lemma times_S n d : times (S n) d == times n d + d.
Proof. rewrite Nat2Z.inj_succ, <- Z.add_1_r, inject_Z_plus. ring. Qed.

Lemma times_nonneg n d : 0 < d → 0 <= times n d.
Proof. intros Hd. apply Qmult_le_0_compat; [|lra]. change 0 with (inject_Z 0). rewrite <- Zle_Qle. lia. Qed.

(** What a check does to a living token: it is renewed, or kept; if no call failed it is kept
    only when it has longer to live than the margin. *)
Lemma renewal_check before w :
  0 < vw_left w →
  ∃ left, try_except (ttl ← vault_lookup; if (ttl <=? before)%Z then vault_renew else mret tt) (λ _, mret tt) w =
      (Return tt, mkVault left (vw_lease w) (vw_rounds w)) ∧
    (left = vw_lease w ∧ faults w = (false, false) ∨ left = vw_left w ∧ (faults w = (false, false) → inject_Z before < left)).
Proof.
  intros Hpos. assert (Qle_bool (vw_left w) 0 = false) as Hle by (apply not_true_iff_false; rewrite Qle_bool_iff; lra).
  pose proof (Qfloor_le (vw_left w)) as Hfl.
  unfold try_except, try_base, mbind, PyM_bind, vault_lookup, vault_renew, vault_call, reads, updates, mret, PyM_ret.
  assert (w = mkVault (vw_left w) (vw_lease w) (vw_rounds w)) as Hw by (by destruct w).
  destruct (faults w) as [a b] eqn:Ef. rewrite Hle. destruct a; cbn.
  { exists (vw_left w). rewrite <- Hw. split; [done|]. by right. }
  destruct (Z.leb_spec (Qfloor (vw_left w)) before) as [Ht|Ht].
  - rewrite Ef, Hle. destruct b; cbn.
    + exists (vw_left w). rewrite <- Hw. split; [done|]. by right.
    + exists (vw_lease w). split; [done|]. by left.
  - exists (vw_left w). rewrite <- Hw. split; [done|]. right. split; [done|]. intros _.
    eapply Qlt_le_trans; [|exact Hfl]. by rewrite <- Zlt_Qlt.
Qed.

(** A token with more than [j] intervals left survives a round. *)
Lemma renewal_round self w k j :
  0 < vr_interval self → times (S k) (vr_interval self) <= inject_Z (vr_renew_before self) →
  times (S k) (vr_interval self) < vw_lease w →
  tolerable k j (vw_rounds w) → times j (vr_interval self) < vw_left w →
  ∃ w' j', VaultTokenRenewer_round vault_lookup vault_renew vault_sleep self w = (Return tt, w') ∧
    vw_lease w' = vw_lease w ∧ tolerable k j' (vw_rounds w') ∧ times j' (vr_interval self) < vw_left w'.
Proof.
  intros Hi Hrb Hlease Htol Hleft. pose proof (times_nonneg j (vr_interval self) Hi) as H0.
  destruct (renewal_check (vr_renew_before self) w) as (left & Hcheck & Hl); [lra|].
  unfold VaultTokenRenewer_round, mbind at 1, PyM_bind at 1. rewrite Hcheck. unfold vault_sleep, updates. cbn [vw_left vw_lease vw_rounds].
  rewrite times_S in Hrb, Hlease. unfold faults in Hl.
  assert (left = vw_lease w ∨ inject_Z (vr_renew_before self) < left → times k (vr_interval self) < left - vr_interval self) as Hgood
    by (intros [->|?]; lra).
  destruct (vw_rounds w) as [|[a b] rounds]; cbn [tolerable tail head default fst snd] in *.
  - eexists _, k. split_and!; [done..|]. apply Hgood. tauto.
  - destruct (a || b) eqn:Hab.
    + destruct j as [|j']; [done|]. rewrite times_S in Hleft, H0. destruct Hl as [[_ Hl]|[Hl _]].
      * by injection Hl as -> ->.
      * eexists _, j'. split_and!; [done..|]. subst left. simpl vw_left. lra.
    + apply orb_false_iff in Hab as [-> ->]. eexists _, k. split_and!; [done..|]. apply Hgood. tauto.
Qed.

(** *** Stores *)

(** [get] finds exactly what [get_all] lists under the path. *)
Class SecretStoreCoherent (W : Type) `{SecretStore W} (ok : string → W → Prop) := {
  ss_coherent path w : ok path w →
    ∃ all, ss_get_all path w = (Return all, w) ∧
      ∀ key version, match od_get key all with
                     | Some v => ss_get (mkRef path key version) w = (Return v, w)
                     | None => ∃ msg, ss_get (mkRef path key version) w = (Raise (KeyError msg), w)
                     end;
}.

Lemma below_elem prefix store k v : (k, v) ∈ below prefix store ↔ (prefix +:+ k, v) ∈ store.
Proof.
  unfold below. rewrite list_elem_of_omap. split.
  - intros ([n x] & Hin & Hs). simpl in Hs. destruct (startswith prefix n) eqn:E; [|done].
    apply startswith_spec in E as [r ->]. rewrite substring_after in Hs. by injection Hs as -> ->.
  - intros Hin. exists (prefix +:+ k, v). split; [done|]. simpl.
    rewrite (proj2 (startswith_spec _ _)) by by eexists. by rewrite substring_after.
Qed.

Lemma below_NoDup prefix store : NoDup store.*1 → NoDup (below prefix store).*1.
Proof.
  induction store as [|[n v] store IH]; intros Hnd; [constructor|]. simpl in Hnd. apply NoDup_cons in Hnd as [Hn Hnd].
  unfold below. simpl. destruct (startswith prefix n) eqn:E; [|by apply IH]. simpl. apply NoDup_cons. split; [|by apply IH].
  apply startswith_spec in E as [r ->]. rewrite substring_after. intros Hin.
  apply list_elem_of_fmap in Hin as ([k x] & -> & Hin). apply below_elem in Hin. apply Hn.
  apply list_elem_of_fmap. by exists (prefix +:+ k, x).
Qed.

Lemma od_get_below prefix store k : NoDup store.*1 → od_get k (below prefix store) = od_get (prefix +:+ k) store.
Proof.
  intros Hnd. apply option_eq. intros v. split; intros Hv.
  - apply od_get_NoDup; [done|]. by apply below_elem, od_get_elem.
  - apply od_get_NoDup; [by apply below_NoDup|]. by apply below_elem, od_get_elem.
Qed.

Lemma rstrip_no_slash s : endswith "/" s = false → rstrip_by (Ascii.eqb "/") s = s.
Proof.
  induction s as [|c s IH]; intros He; [done|]. cbn [rstrip_by]. destruct s as [|c' s].
  - destruct (Ascii.eqb_spec "/" c) as [<-|]; [done|]. cbn [rstrip_by]. done.
  - rewrite IH; [done|]. apply not_true_iff_false. intros [r Hr]%endswith_spec. apply not_true_iff_false in He. apply He.
    apply endswith_spec. exists (String c r). by rewrite Hr.
Qed.

#[export] Instance fake_coherent :
  SecretStoreCoherent secrets (λ path store, NoDup store.*1 ∧ endswith "/" path = false).
Proof.
  constructor. intros path store [Hnd Hpath]. eexists. split; [reflexivity|]. intros key version.
  assert (rstrip_by (Ascii.eqb "/") path = path) as -> by by apply rstrip_no_slash.
  rewrite od_get_update by by apply below_NoDup. rewrite od_get_below by done. simpl.
  rewrite app_assoc_str. unfold ss_get, fake_SecretStore, FakeSecretStore_get, SecretRef_str. cbn [sr_path sr_key].
  destruct (od_get (path +:+ "/" +:+ key) store); [done|]. by eexists.
Qed.

Section Coherence.
Context {W : Type} (read_secret_version : string → string → PyM W secrets) (mount : string).

#[local] Instance vault_SecretStore : SecretStore W := {
  ss_get := VaultSecretStore_get read_secret_version mount;
  ss_get_all := VaultSecretStore_get_all read_secret_version mount;
}.

(** Where the read succeeds without changing anything. *)
#[export] Instance vault_coherent :
  SecretStoreCoherent W (λ path w, ∃ data, read_secret_version path mount w = (Return data, w)).
Proof.
  constructor. intros path w [data Hr]. exists data. split; [done|]. intros key version.
  cbn [ss_get vault_SecretStore]. unfold VaultSecretStore_get, VaultSecretStore_sync_get, mbind, PyM_bind. cbn [sr_path sr_key].
  rewrite Hr. destruct (od_get key data); [done|]. by eexists.
Qed.

End Coherence.

(** *** Names in a Key Vault *)

Lemma hyphenate_app a b : hyphenate (a +:+ b) = hyphenate a +:+ hyphenate b.
Proof. unfold hyphenate. induction a as [|c a IH]; [done|]. simpl. by rewrite IH. Qed.

Lemma secret_name_prefix path key : startswith (hyphenate path) (secret_name path key) = true.
Proof.
  unfold secret_name. destruct (String.eqb_spec path "") as [->|_]; [by destruct (hyphenate key)|].
  rewrite hyphenate_app. apply startswith_spec. by eexists.
Qed.

Definition is_name_char (c : ascii) : bool := is_alnum c || Ascii.eqb c "-".

Lemma hyphenate_valid s :
  str_all (λ c, is_name_char c || Ascii.eqb c "/" || Ascii.eqb c "_") s = true → str_all is_name_char (hyphenate s) = true.
Proof.
  unfold hyphenate. induction s as [|c s IH]; [done|]. simpl. rewrite !andb_true_iff. intros [Hc Hs]. split; [|by apply IH].
  destruct (Ascii.eqb c "/" || Ascii.eqb c "_") eqn:E; [done|]. by rewrite <- orb_assoc, E, orb_false_r in Hc.
Qed.

(** The secrets a listing has under a prefix, and their values. *)
Definition listed (prefix : string) (props : list (option string * bool)) (n : string) : Prop :=
  (Some n, true) ∈ props ∧ n ≠ "" ∧ startswith prefix n = true.

#[local] Instance listed_dec prefix props n : Decision (listed prefix props n).
Proof. unfold listed. apply _. Defined.

Lemma collect_spec {W} (get_secret : string → option string → PyM W string) (value : string → string) w prefix props result :
  (∀ n, listed prefix props n → get_secret n None w = (Return (value n), w)) →
  ∃ r, collect get_secret prefix props result w = (Return r, w) ∧
    ∀ n v, od_get n r = Some v ↔ listed prefix props n ∧ v = value n ∨ ¬ listed prefix props n ∧ od_get n result = Some v.
Proof.
  revert result. induction props as [|[o b] props IH]; intros result Hget.
  { exists result. split; [done|]. intros n v. unfold listed. set_solver. }
  assert (∀ n, listed prefix props n → listed prefix ((o, b) :: props) n) as Hmono by (unfold listed; set_solver).
  assert (∀ result, ∃ r, collect get_secret prefix props result w = (Return r, w) ∧
    ∀ n v, od_get n r = Some v ↔ listed prefix props n ∧ v = value n ∨ ¬ listed prefix props n ∧ od_get n result = Some v) as IH'
    by (intros; apply IH; auto). clear IH.
  assert ((∃ n, o = Some n ∧ b = true ∧ n ≠ "" ∧ startswith prefix n = true) ∨
          ¬ ∃ n, o = Some n ∧ b = true ∧ n ≠ "" ∧ startswith prefix n = true) as [(n & -> & -> & Hne & Hp)|Hno].
  { destruct o as [n|]; [|right; by intros (? & [=] & _)].
    destruct (decide (b = true ∧ n ≠ "" ∧ startswith prefix n = true)); [left; eauto|right; by intros (? & [= <-] & ?)]. }
  - cbn [collect]. rewrite (proj2 (String.eqb_neq _ _) Hne), Hp. cbn [negb andb]. unfold mbind, PyM_bind.
    assert (listed prefix ((Some n, true) :: props) n) as Hn by (split; [constructor|done]).
    rewrite (Hget n Hn). destruct (IH' (od_set n (value n) result)) as (r & Hr & Hspec). exists r. split; [done|].
    intros n' v. rewrite Hspec. destruct (decide (n' = n)) as [->|Hd].
    + rewrite od_get_set_eq. destruct (decide (listed prefix props n)); naive_solver.
    + rewrite od_get_set_ne by done.
      assert (listed prefix ((Some n, true) :: props) n' ↔ listed prefix props n') as -> by (unfold listed; set_solver). done.
  - destruct (IH' result) as (r & Hr & Hspec). exists r. split.
    + cbn [collect]. destruct o as [n|]; [|done]. destruct b; [|done].
      destruct (String.eqb_spec n "") as [|Hne]; [done|]. destruct (startswith prefix n) eqn:Hp; [|done].
      destruct Hno. eauto.
    + intros n' v. rewrite Hspec.
      assert (listed prefix ((o, b) :: props) n' ↔ listed prefix props n') as ->; [|done].
      unfold listed. rewrite elem_of_cons. split; [|tauto]. intros ([Heq|Hin] & Hne & Hp); [|done].
      injection Heq as <- <-. destruct Hno. eauto.
Qed.

(** ** Theorems *)

(** the renewal keeps the token alive.  With a check interval of which [k + 1] fit into the
    renewal margin and into the lease, and while no more than [k] rounds in a row fail -
    lookup or renewal -, a token that has more than [k] intervals left at the start is alive
    after every number of rounds, and no error leaves the loop. *)
Theorem vault_token_kept self w k n :
  0 < vr_interval self → times (S k) (vr_interval self) <= inject_Z (vr_renew_before self) →
  times (S k) (vr_interval self) < vw_lease w → tolerable k k (vw_rounds w) → times k (vr_interval self) < vw_left w →
  ∃ w', VaultTokenRenewer_renew_loop vault_lookup vault_renew vault_sleep self n w = (Return tt, w') ∧ 0 < vw_left w'.
Proof.
  intros Hi Hrb. generalize k at 3 4 as j. revert w. induction n as [|n IH]; intros w j Hlease Htol Hleft.
  - exists w. split; [done|]. eapply Qle_lt_trans; [by apply (times_nonneg j)|done].
  - destruct (renewal_round self w k j) as (w' & j' & Hround & Hl & Htol' & Hleft'); [done..|].
    cbn [VaultTokenRenewer_renew_loop]. unfold mbind, PyM_bind. rewrite Hround. apply (IH w' j'); [by rewrite Hl|done..].
Qed.

(** over a store whose listing and lookup agree - the fake and Vault are such stores -
    reading a key gives what the listing of its path has under it, whatever version is
    asked for, and [KeyError] when it has none. *)
Theorem secret_lookup {W} ok `{SecretStoreCoherent W ok} path key v1 v2 w :
  ok path w →
  ∃ all, ss_get_all path w = (Return all, w) ∧
    (∀ v, od_get key all = Some v ↔ fst (ss_get (mkRef path key v1) w) = Return v) ∧
    (od_get key all = None ↔ ∃ msg, fst (ss_get (mkRef path key v1) w) = Raise (KeyError msg)) ∧
    ∀ v, fst (ss_get (mkRef path key v1) w) = Return v → fst (ss_get (mkRef path key v2) w) = Return v.
Proof.
  intros Hok. destruct (ss_coherent path w Hok) as (all & Hall & Hget). exists all. split; [done|].
  pose proof (Hget key v1) as H1. pose proof (Hget key v2) as H2. destruct (od_get key all) as [x|].
  - rewrite H1, H2. simpl. split_and!; [split; congruence| |congruence]. split; [done|]. by intros [msg [=]].
  - destruct H1 as [m1 ->], H2 as [m2 ->]. simpl. split_and!; [split; congruence| |congruence]. split; [by eexists|done].
Qed.

(** names in a Key Vault are admissible, and different references share one: a slash moved
    from the path into the key, or written as a hyphen or an underscore, names the same
    secret, so reading either gives the other's value. *)
Theorem keyvault_names {W} (get_secret : string → option string → PyM W string) a b c v :
  let admitted := str_all (λ ch, is_name_char ch || Ascii.eqb ch "/" || Ascii.eqb ch "_") in
  (admitted a = true → admitted b = true → str_all is_name_char (secret_name a b) = true) ∧
  (a ≠ "" → AzureKeyVaultSecretStore_get get_secret (mkRef (a +:+ "/" +:+ b) c v) =
            AzureKeyVaultSecretStore_get get_secret (mkRef a (b +:+ "_" +:+ c) v)).
Proof.
  intros admitted. split.
  - intros Ha Hb. unfold secret_name. destruct (String.eqb a ""); [by apply hyphenate_valid|].
    rewrite hyphenate_app, str_all_app. apply andb_true_iff. split; [by apply hyphenate_valid|].
    change (is_name_char "-" && str_all is_name_char (hyphenate b) = true). by rewrite hyphenate_valid.
  - intros Ha. unfold AzureKeyVaultSecretStore_get. cbn [sr_path sr_key sr_version].
    assert (secret_name (a +:+ "/" +:+ b) c = secret_name a (b +:+ "_" +:+ c)) as ->; [|done].
    unfold secret_name. rewrite (proj2 (String.eqb_neq a "") Ha).
    destruct (String.eqb_spec (a +:+ "/" +:+ b) "") as [E|_]; [by destruct a|].
    rewrite !hyphenate_app. simpl. by rewrite !app_assoc_str.
Qed.

(** listing a path of a Key Vault gives exactly the enabled secrets whose name starts with
    it: every secret of the path, by the name [get] reads, but those of any path that
    continues it as well. *)
Theorem keyvault_listing {W} get_secret list_properties props value path (w : W) :
  list_properties w = (Return props, w) →
  (∀ n, listed (hyphenate path) props n → get_secret n None w = (Return (value n), w)) →
  ∃ all, AzureKeyVaultSecretStore_get_all get_secret list_properties path w = (Return all, w) ∧
    (∀ n v, od_get n all = Some v ↔ listed (hyphenate path) props n ∧ v = value n) ∧
    ∀ more key, (Some (secret_name (path +:+ more) key), true) ∈ props → secret_name (path +:+ more) key ≠ "" →
      od_get (secret_name (path +:+ more) key) all = Some (value (secret_name (path +:+ more) key)).
Proof.
  intros Hprops Hget. unfold AzureKeyVaultSecretStore_get_all, mbind, PyM_bind. rewrite Hprops.
  destruct (collect_spec get_secret value w (hyphenate path) props [] Hget) as (all & Hr & Hspec).
  exists all. split; [done|].
  assert (∀ n v, od_get n all = Some v ↔ listed (hyphenate path) props n ∧ v = value n) as Hall
    by (intros n v; rewrite Hspec; simpl; naive_solver).
  split; [done|]. intros more key Hin Hne. apply Hall. split; [|done]. split_and!; [done..|].
  pose proof (secret_name_prefix (path +:+ more) key) as [r Hr']%startswith_spec. rewrite Hr', hyphenate_app, app_assoc_str.
  apply startswith_spec. by eexists.
Qed.

(** the store on mounted files does not stay below its root: a reference with an absolute
    path reads the same file whatever the root is. *)
Theorem kubernetes_escapes {W} exists_ (read_text : string → PyM W string) root root' path key v :
  KubernetesSecretStore_get exists_ read_text root (mkRef (String "/" path) key v) =
  KubernetesSecretStore_get exists_ read_text root' (mkRef (String "/" path) key v).
Proof.
  assert (∀ r, path_join r (String "/" path) = String "/" path) as Hj.
  { intros r. unfold path_join. rewrite (proj2 (startswith_spec _ _)); [done|]. by exists path. }
  unfold KubernetesSecretStore_get. cbn [sr_path sr_key]. by rewrite !Hj.
Qed.

(** ** Witnesses *)

Lemma vault_token_kept_witness :
  let w := mkVault 400 3600 [(true, false); (false, true); (false, false); (true, true)] in
  ∃ w', VaultTokenRenewer_renew_loop vault_lookup vault_renew vault_sleep (mkRenewer 300 60) 100 w = (Return tt, w') ∧
    0 < vw_left w'.
Proof. by apply (vault_token_kept (mkRenewer 300 60) _ 4 100). Defined.

Lemma secret_lookup_witness :
  ∃ all, ss_get_all "db" [("db/user", "u"); ("db/pw", "p"); ("x/pw", "q")] =
      (Return all : outcome secrets, [("db/user", "u"); ("db/pw", "p"); ("x/pw", "q")]) ∧ od_get "pw" all = Some "p".
Proof.
  destruct (secret_lookup (λ path store, NoDup store.*1 ∧ endswith "/" path = false) "db" "pw" None None
    [("db/user", "u"); ("db/pw", "p"); ("x/pw", "q")]) as (all & Hall & Hget & _).
  - split; [by apply (bool_decide_unpack _)|reflexivity].
  - exists all. split; [exact Hall|]. apply Hget. reflexivity.
Defined.

Lemma keyvault_names_witness :
  str_all is_name_char (secret_name "my/db" "user_name") = true ∧
  secret_name "my/db" "pw" = secret_name "my" "db_pw".
Proof.
  split; [|reflexivity]. by apply (keyvault_names (W := unit) (λ n _, mret n) "my/db" "user_name" "" None).
Defined.

Definition demo_props : list (option string * bool) :=
  [(Some "db-pw", true); (Some "db2-pw", true); (Some "db-old", false); (None, true); (Some "x", true)].

Lemma keyvault_listing_witness :
  ∃ all, AzureKeyVaultSecretStore_get_all (W := unit) (λ n _ w, (Return ("v-" +:+ n), w)) (λ w, (Return demo_props, w)) "db" tt =
    (Return all, tt) ∧ od_get "db2-pw" all = Some "v-db2-pw".
Proof.
  destruct (keyvault_listing (W := unit) (λ n _ w, (Return ("v-" +:+ n), w)) (λ w, (Return demo_props, w)) demo_props
    (λ n, "v-" +:+ n) "db" tt) as (all & Hall & Hget & _); [reflexivity|done|].
  exists all. split; [exact Hall|]. apply Hget. split; [|done]. split_and!; [by apply (bool_decide_unpack _)|done|done].
Defined.
