(* ===== verification/Brokers.v ===== *)
(** * Message brokers and task queues

    [adapters/nats/bus.py], [adapters/rabbitmq/bus.py], [adapters/gcp_pubsub/messaging.py],
    [adapters/azure_servicebus/bus.py], [adapters/sqs/task_bus.py],
    [adapters/celery/task_bus.py], the publishing and the consumer of
    [adapters/pulsar/messaging.py], and the fake of [testing/fakes/message_bus.py].  The
    clients of the brokers, [json.dumps] and [json.loads] are arguments.

    A consumer is an asynchronous generator that runs in turns with the body of the loop over
    it.  The body says whether the loop goes on; when it stops, or raises, the generator is
    closed where it is suspended, which its [except Exception] does not catch. *)
From S2P Require Import Prelude PyString OrderedDict PyValue Outbox Retry.

#[local] Abbreviation bytes := (list Z).

(** [Message] of [kernel/messaging/message.py]. *)
Record Message (V : Type) := mkMsg { msg_id : string; msg_topic : string; msg_payload : V; msg_headers : MessageHeaders }.
Arguments mkMsg {V}. Arguments msg_id {V}. Arguments msg_topic {V}. Arguments msg_payload {V}. Arguments msg_headers {V}.

(** ** The fake ([testing/fakes/message_bus.py]) *)

Section Fake.
Context {V : Type}.

Definition InMemoryMessageBus_publish (m : Message V) : PyM (list (Message V)) unit := updates (λ l, l ++ [m]).
Definition InMemoryMessageBus_publish_batch (ms : list (Message V)) : PyM (list (Message V)) unit := updates (λ l, l ++ ms).
Definition InMemoryMessageBus_clear : PyM (list (Message V)) unit := updates (λ _, []).
Definition InMemoryMessageBus_of_topic (topic : string) (l : list (Message V)) : list (Message V) :=
  filter (λ m, msg_topic m = topic) l.

End Fake.

(** ** NATS *)

Section Nats.
Context {V W Conn Js : Type} (nats_connect : PyM W Conn) (jetstream : Conn → Js)
  (nc_close : Conn → PyM W unit) (js_publish : Js → string → bytes → PyM W unit) (json_dumps : V → outcome bytes).

(** [self._nc], [self._js]. *)
Definition Nats_state : Type := option Conn * option Js.

Definition NatsMessageBus_init : Nats_state := (None, None).

Definition NatsMessageBus_connect : PyM (Nats_state * W) unit :=
  nc ← on_snd nats_connect;
  on_fst (updates (λ _, (Some nc, Some (jetstream nc)))).

Definition NatsMessageBus_close : PyM (Nats_state * W) unit :=
  nc ← on_fst (reads fst);
  match nc with Some c => on_snd (nc_close c) | None => mret tt end.

Definition NatsMessageBus_publish (m : Message V) : PyM (Nats_state * W) unit :=
  js ← on_fst (reads snd);
  (match js with None => NatsMessageBus_connect | Some _ => mret tt end) ;;
  payload ← from_outcome (json_dumps (msg_payload m));
  js ← on_fst (reads snd);
  match js with
  | Some j => on_snd (js_publish j (msg_topic m) payload)
  | None => raise (AttributeError "'NoneType' object has no attribute 'publish'")
  end.

Definition NatsMessageBus_publish_batch (ms : list (Message V)) : PyM (Nats_state * W) unit :=
  for_each ms NatsMessageBus_publish.

End Nats.

(** ** RabbitMQ *)

Section Rabbit.
Context {V W Conn Ch : Type} `{RetryEnv W} (connect_robust : PyM W Conn) (conn_channel : Conn → PyM W Ch)
  (conn_close : Conn → PyM W unit) (exchange_publish : Ch → bytes → list (string * string) → string → PyM W unit)
  (json_dumps : V → outcome bytes) (retry : option (RetryPolicy W)).

(** [self._connection], [self._channel]. *)
Definition Rabbit_state : Type := option Conn * option Ch.

Definition RabbitMQMessageBus_connect : PyM (Rabbit_state * W) unit :=
  conn ← on_snd (match retry with
                 | Some p => RetryPolicy_execute_async p connect_robust
                 | None => connect_robust
                 end);
  on_fst (updates (λ s, (Some conn, snd s))) ;;
  ch ← on_snd (conn_channel conn);
  on_fst (updates (λ s, (fst s, Some ch))).

Definition RabbitMQMessageBus_close : PyM (Rabbit_state * W) unit :=
  conn ← on_fst (reads fst);
  match conn with Some c => on_snd (conn_close c) | None => mret tt end.

Definition RabbitMQMessageBus_publish (m : Message V) : PyM (Rabbit_state * W) unit :=
  ch ← on_fst (reads snd);
  (match ch with None => RabbitMQMessageBus_connect | Some _ => mret tt end) ;;
  body ← from_outcome (json_dumps (msg_payload m));
  ch ← on_fst (reads snd);
  match ch with
  | Some c => on_snd (exchange_publish c body (mh_extra (msg_headers m)) (msg_topic m))
  | None => raise (AttributeError "'NoneType' object has no attribute 'default_exchange'")
  end.

Definition RabbitMQMessageBus_publish_batch (ms : list (Message V)) : PyM (Rabbit_state * W) unit :=
  for_each ms RabbitMQMessageBus_publish.

End Rabbit.

(** ** Pulsar *)

Section PulsarBus.
Context {W Pr : Type} (client_connect : PyM W unit) (create_producer : string → PyM W Pr)
  (producer_send : Pr → bytes → PyM W unit) (producer_flush producer_close : Pr → PyM W unit) (client_close : PyM W unit)
  (json_dumps : pyval → outcome bytes).

(** The document that is sent; a payload that is not a dictionary is left out. *)
Definition pulsar_document (m : Message pyval) : pyval :=
  VDict [("id", VStr (msg_id m)); ("type", VStr "Message");
         ("correlation_id", match mh_correlation_id (msg_headers m) with Some c => VStr c | None => VNone end);
         ("payload", match msg_payload m with VDict d => VDict d | _ => VDict [] end)].

Definition PulsarProducer_publish (m : Message pyval) : PyM (Pulsar_state (Pr := Pr) * W) unit :=
  connected ← on_fst (reads fst);
  (if negb connected then PulsarProducer_connect client_connect else mret tt) ;;
  payload ← from_outcome (json_dumps (pulsar_document m));
  p ← PulsarProducer_get_producer create_producer (msg_topic m);
  on_snd (producer_send p payload).

Definition swallow {S} (m : PyM S unit) : PyM S unit := try_except m (λ _, mret tt).

Definition PulsarProducer_close : PyM (Pulsar_state (Pr := Pr) * W) unit :=
  ps ← on_fst (reads snd);
  for_each ps (λ e : string * Pr, on_snd (swallow (producer_flush (snd e) ;; producer_close (snd e)))) ;;
  on_fst (updates (λ s, (fst s, []))) ;;
  connected ← on_fst (reads fst);
  if connected : bool then on_snd (swallow client_close) ;; on_fst (updates (λ s, (false, snd s))) else mret tt.

End PulsarBus.

Section PulsarConsumer.
Context {W M : Type} (receive : PyM W M).

Definition is_timeout (exc : pyexn) : bool :=
  contains "Timeout" (default "" (head (exn_mro exc))) || contains "timeout" (lower (exn_msg exc)).

(** [None] is [StopAsyncIteration]. *)
Definition PulsarConsumer_anext (connected : bool) : PyM W (option M) :=
  if connected then
    try_except (msg ← receive; mret (Some msg)) (λ exc, if is_timeout exc then mret None else raise exc)
  else mret None.

End PulsarConsumer.

(** ** Google Cloud Pub/Sub *)

Section PubSub.
Context {V W B : Type} (publish : string → bytes → list (string * string) → PyM W string)
  (pull : Z → PyM W (list (string * bytes))) (acknowledge : list string → PyM W unit)
  (json_dumps : V → outcome bytes) (json_loads : bytes → outcome V).

Definition PubSubProducer_send (topic_path : string) (payload : V) (attributes : list (string * string)) : PyM W string :=
  data ← from_outcome (json_dumps payload);
  publish topic_path data attributes.

Fixpoint PubSubProducer_send_batch (topic_path : string) (payloads : list V) : PyM W (list string) :=
  match payloads with
  | [] => mret []
  | p :: rest =>
      mid ← PubSubProducer_send topic_path p [];
      ids ← PubSubProducer_send_batch topic_path rest;
      mret (mid :: ids)
  end.

(** The loop over the received messages, with the body of the consumer; [None] when the
    consumer left it. *)
Fixpoint pull_loop (body : V → PyM B bool) (received : list (string * bytes)) (ack_ids : list string)
    : PyM B (option (list string)) :=
  match received with
  | [] => mret (Some ack_ids)
  | (ack_id, data) :: rest =>
      match json_loads data with
      | Return payload =>
          more ← body payload;
          if more : bool then pull_loop body rest (ack_ids ++ [ack_id]) else mret None
      | Raise e => if is_Exception e then pull_loop body rest ack_ids else raise e
      end
  end.

(** [async for payload in subscriber.pull(): body]. *)
Definition PubSubSubscriber_pull (max_messages : Z) (body : V → PyM B bool) : PyM (B * W) unit :=
  received ← on_snd (pull max_messages);
  acks ← on_fst (pull_loop body received []);
  match acks with
  | None | Some [] => mret tt
  | Some ids => on_snd (acknowledge ids)
  end.

End PubSub.

(** ** Azure Service Bus *)

Section ServiceBus.
Context {V W B Batch M : Type} (send_messages : list string → PyM W unit) (create_message_batch : PyM W Batch)
  (add_message : Batch → string → outcome Batch) (batch_messages : Batch → list string)
  (receive : PyM W (list M)) (msg_body : M → bytes)
  (complete_message abandon_message : M → PyM W unit)
  (json_dumps : V → outcome string) (json_loads : bytes → outcome V).

Definition AzureServiceBusProducer_send (payload : V) : PyM W unit :=
  body ← from_outcome (json_dumps payload);
  send_messages [body].

Fixpoint fill_batch (batch : Batch) (payloads : list V) : outcome Batch :=
  match payloads with
  | [] => Return batch
  | p :: rest =>
      match json_dumps p with
      | Raise e => Raise e
      | Return s => match add_message batch s with Raise e => Raise e | Return batch' => fill_batch batch' rest end
      end
  end.

Definition AzureServiceBusProducer_send_batch (payloads : list V) : PyM W unit :=
  batch ← create_message_batch;
  full ← from_outcome (fill_batch batch payloads);
  send_messages (batch_messages full).

(** The messages of a batch window, with the body of the consumer. *)
Fixpoint receive_loop (body : V → PyM B bool) (msgs : list M) : PyM (B * W) unit :=
  match msgs with
  | [] => mret tt
  | m :: rest =>
      match json_loads (msg_body m) with
      | Return payload =>
          more ← on_fst (body payload);
          if more : bool then
            try_except (on_snd (complete_message m)) (λ _, on_snd (abandon_message m)) ;;
            receive_loop body rest
          else mret tt
      | Raise e => if is_Exception e then on_snd (abandon_message m) ;; receive_loop body rest else raise e
      end
  end.

(** [async for payload in consumer.receive(): body]. *)
Definition AzureServiceBusConsumer_receive (body : V → PyM B bool) : PyM (B * W) unit :=
  msgs ← on_snd receive;
  receive_loop body msgs.

End ServiceBus.

(** ** Task queues *)

(** [send_message(...)] of SQS. *)
Record SqsMessage := mkSqs {
  sq_queue_url : string;
  sq_body : string;
  sq_task_name : string;
  sq_delay : option Z;
  sq_fifo : option (string * string);
}.

Record SQSTaskBus := mkSqsBus { sb_queue_url : string; sb_default_group : string; sb_is_fifo : bool }.

Definition SQSTaskBus_init (queue_url default_message_group_id : string) : SQSTaskBus :=
  mkSqsBus queue_url default_message_group_id (endswith ".fifo" queue_url).

(** [a or b]. *)
Definition text_or (a : option string) (b : string) : string := match a with None | Some "" => b | Some s => s end.

Section Sqs.
Context {W : Type} (json_dumps : pyval → outcome string) (uuid4 : PyM W string) (send_message : SqsMessage → PyM W string).

(** [str(uuid.uuid4())] is computed only when no id is given. *)
Definition deduplication_id (given : option string) : PyM W string :=
  match given with None | Some "" => uuid4 | Some s => mret s end.

Definition SQSTaskBus_dispatch (self : SQSTaskBus) (task_name : string) (payload : list (string * pyval)) (countdown : Z)
    (message_group_id message_deduplication_id : option string) : PyM W string :=
  body ← from_outcome (json_dumps (VDict [("task", VStr task_name); ("payload", VDict payload)]));
  fifo ← (if sb_is_fifo self
          then dedup ← deduplication_id message_deduplication_id;
               mret (Some (text_or message_group_id (sb_default_group self), dedup))
          else mret None);
  send_message (mkSqs (sb_queue_url self) body task_name
    (if (countdown =? 0)%Z then None else Some (Z.min countdown 900)) fifo).

End Sqs.

Inductive TaskStatus := TPENDING | TSTARTED | TSUCCESS | TFAILURE | TREVOKED | TRETRY.

(** [TaskStatus(value)]. *)
Definition TaskStatus_of (value : string) : outcome TaskStatus :=
  if String.eqb value "PENDING" then Return TPENDING
  else if String.eqb value "STARTED" then Return TSTARTED
  else if String.eqb value "SUCCESS" then Return TSUCCESS
  else if String.eqb value "FAILURE" then Return TFAILURE
  else if String.eqb value "REVOKED" then Return TREVOKED
  else if String.eqb value "RETRY" then Return TRETRY
  else Raise (ValueError (py_repr value +:+ " is not a valid TaskStatus")).

Record TaskResult (R : Type) := mkTaskResult { tr_task_id : string; tr_status : TaskStatus; tr_result : option R; tr_error : option string }.
Arguments mkTaskResult {R}. Arguments tr_task_id {R}. Arguments tr_status {R}. Arguments tr_result {R}. Arguments tr_error {R}.

Record DispatchedTask := mkTask { dt_task_name : string; dt_payload : list (string * pyval); dt_queue : string; dt_countdown : Z }.

Definition InMemoryTaskBus_dispatch (task_name : string) (payload : list (string * pyval)) (queue : string) (countdown : Z)
    : PyM (list DispatchedTask) string := λ tasks,
  (Return ("memory-" +:+ str_of_int (Z.of_nat (length tasks) + 1)), tasks ++ [mkTask task_name payload queue countdown]).

Definition InMemoryTaskBus_clear : PyM (list DispatchedTask) unit := updates (λ _, []).

Section Celery.
(** [AsyncResult(task_id).status] and [.result]; [str] of a result. *)
Context {W R : Type} (send_task : string → list (string * pyval) → string → Z → PyM W string)
  (task_status : string → PyM W string) (task_result : string → PyM W R) (ready : string → PyM W bool)
  (control_revoke : string → bool → PyM W unit) (str_of : R → string).

Definition CeleryTaskBus_dispatch (task_name : string) (payload : list (string * pyval)) (queue : string) (countdown : Z)
    : PyM W string :=
  send_task task_name payload queue countdown.

Definition CeleryResultBackend_get_result (task_id : string) : PyM W (TaskResult R) :=
  value ← task_status task_id;
  status ← from_outcome (TaskStatus_of value);
  match status with
  | TSUCCESS => r ← task_result task_id; mret (mkTaskResult task_id status (Some r) None)
  | TFAILURE => r ← task_result task_id; mret (mkTaskResult task_id status None (Some (str_of r)))
  | _ => mret (mkTaskResult task_id status None None)
  end.

Definition CeleryResultBackend_is_ready (task_id : string) : PyM W bool := ready task_id.
Definition CeleryResultBackend_revoke (task_id : string) (terminate : bool) : PyM W unit := control_revoke task_id terminate.

End Celery.

(** ** A broker

    Connections are numbered; publishing on a closed one fails, and [accept] says what the
    broker does with a message. *)
Record Broker := mkBroker { br_opened : nat; br_closed : list nat; br_sent : list (string * bytes) }.

Definition ConnectionClosed : pyexn := exn_of ["ConnectionClosedError"] "connection closed".

Definition broker_connect : PyM Broker nat := λ w,
  (Return (br_opened w), mkBroker (S (br_opened w)) (br_closed w) (br_sent w)).

Definition broker_close (c : nat) : PyM Broker unit :=
  updates (λ w, mkBroker (br_opened w) (c :: br_closed w) (br_sent w)).

Definition broker_publish (accept : string → bytes → outcome unit) (c : nat) (topic : string) (data : bytes)
    : PyM Broker unit := λ w,
  if decide (c ∈ br_closed w) then (Raise ConnectionClosed, w)
  else match accept topic data with
       | Return _ => (Return tt, mkBroker (br_opened w) (br_closed w) (br_sent w ++ [(topic, data)]))
       | Raise e => (Raise e, w)
       end.

#[local] Instance broker_env : RetryEnv Broker := {| env_random := mret 0%Q; env_sleep := λ _, mret tt |}.

(** ** Lemmas *)

Section BusLemmas.
Context {V : Type} (accept : string → bytes → outcome unit) (json_dumps : V → outcome bytes).

(** What becomes of a message on an open connection. *)
Definition attempt (m : Message V) : outcome (string * bytes) :=
  data ← json_dumps (msg_payload m); accept (msg_topic m) data ;; Return (msg_topic m, data).

Definition nats_publish := NatsMessageBus_publish (V := V) broker_connect id (broker_publish accept) json_dumps.
Definition rabbit_publish :=
  RabbitMQMessageBus_publish (V := V) broker_connect (mret (M := PyM Broker)) (λ c body _ topic, broker_publish accept c topic body)
    json_dumps None.

(** A bus on the open connection [c]. *)
Definition open_bus (c : nat) (s : (option nat * option nat) * Broker) : Prop :=
  fst s = (Some c, Some c) ∧ c ∉ br_closed (snd s).

Definition sends (s : (option nat * option nat) * Broker) (l : list (string * bytes)) : (option nat * option nat) * Broker :=
  (fst s, mkBroker (br_opened (snd s)) (br_closed (snd s)) (br_sent (snd s) ++ l)).

Definition publishes (publish : Message V → PyM ((option nat * option nat) * Broker) unit) : Prop :=
  ∀ c m s, open_bus c s →
    publish m s = match attempt m with Return x => (Return tt, sends s [x]) | Raise e => (Raise e, s) end.

Lemma nats_publishes : publishes nats_publish.
Proof.
  intros c m [[nc js] w] [[= -> ->] Hc]. unfold nats_publish, NatsMessageBus_publish, attempt, mbind, PyM_bind, outcome_bind, on_fst, reads.
  cbn. destruct (json_dumps (msg_payload m)) as [data|e]; [|done]. cbn. unfold on_snd, broker_publish. cbn.
  rewrite decide_False by done. by destruct (accept (msg_topic m) data) as [[]|e].
Qed.

Lemma rabbit_publishes : publishes rabbit_publish.
Proof.
  intros c m [[nc js] w] [[= -> ->] Hc]. unfold rabbit_publish, RabbitMQMessageBus_publish, attempt, mbind, PyM_bind, outcome_bind, on_fst, reads.
  cbn. destruct (json_dumps (msg_payload m)) as [data|e]; [|done]. cbn. unfold on_snd, broker_publish. cbn.
  rewrite decide_False by done. by destruct (accept (msg_topic m) data) as [[]|e].
Qed.

Lemma sends_nil s : sends s [] = s.
Proof. destruct s as [b [o c l]]. unfold sends. simpl. by rewrite app_nil_r. Qed.

(** A batch on an open connection: the messages up to the first that fails. *)
Lemma batch_prefix publish c ms s :
  publishes publish → open_bus c s →
  ∃ n xs, Forall2 (λ m x, attempt m = Return x) (take n ms) xs ∧
    ((n = length ms ∧ for_each ms publish s = (Return tt, sends s xs)) ∨
     ∃ m e, ms !! n = Some m ∧ attempt m = Raise e ∧ for_each ms publish s = (Raise e, sends s xs)).
Proof.
  intros Hpub. revert s. induction ms as [|m ms IH]; intros s Hs.
  { exists 0%nat, []. split; [constructor|]. left. split; [done|]. by rewrite sends_nil. }
  cbn [for_each]. unfold mbind, PyM_bind. rewrite (Hpub c) by done. destruct (attempt m) as [x|e] eqn:Em.
  - destruct (IH (sends s [x])) as (n & xs & Hxs & Hrun); [by destruct Hs|].
    assert (sends (sends s [x]) xs = sends s (x :: xs)) as Hsends by (unfold sends; cbn; by rewrite <- app_assoc).
    rewrite Hsends in Hrun. exists (S n), (x :: xs). split; [by constructor|].
    destruct Hrun as [[-> ?]|(m' & e & ? & ? & ?)]; [by left|right; by exists m', e].
  - exists 0%nat, []. split; [constructor|]. right. exists m, e. by rewrite sends_nil.
Qed.

(** The first message opens the connection. *)
Definition opens (publish : Message V → PyM ((option nat * option nat) * Broker) unit) : Prop :=
  ∀ m w, publish m ((None, None), w) =
    publish m ((Some (br_opened w), Some (br_opened w)), mkBroker (S (br_opened w)) (br_closed w) (br_sent w)).

Lemma nats_opens : opens nats_publish.
Proof. done. Qed.

Lemma rabbit_opens : opens rabbit_publish.
Proof. done. Qed.

End BusLemmas.

(** *** Consumers *)

(** The body run on payloads in turn, until it leaves the loop. *)
Fixpoint run_bodies {V B} (body : V → PyM B bool) (ps : list V) : PyM B bool :=
  match ps with
  | [] => mret true
  | p :: ps' => more ← body p; if more : bool then run_bodies body ps' else mret false
  end.

Section ConsumerLemmas.
Context {V B : Type} (json_loads : bytes → outcome V).
Context (loads_raises : ∀ d e, json_loads d = Raise e → is_Exception e = true).

Definition decoded (d : bytes) : option V := match json_loads d with Return p => Some p | Raise _ => None end.

Definition decodes {A} (x : A * bytes) : Prop := is_Some (decoded (snd x)).
#[local] Instance decodes_dec {A} (x : A * bytes) : Decision (decodes x).
Proof. unfold decodes. apply _. Defined.

Lemma pull_loop_spec (body : V → PyM B bool) received acks b :
  pull_loop json_loads body received acks b =
  match run_bodies body (omap (λ x, decoded (snd x)) received) b with
  | (Return true, b') => (Return (Some (acks ++ (filter decodes received).*1)), b')
  | (Return false, b') => (Return None, b')
  | (Raise e, b') => (Raise e, b')
  end.
Proof using loads_raises.
  revert acks b. induction received as [|[i d] received IH]; intros acks b; simpl; [by rewrite app_nil_r|].
  rewrite filter_cons. unfold decoded at 1. destruct (json_loads d) as [p|e] eqn:E.
  - rewrite decide_True by (unfold decodes, decoded; simpl; by rewrite E).
    cbn [run_bodies]. unfold mbind, PyM_bind. destruct (body p b) as [[[]|e] b']; [|done..].
    rewrite IH. cbn. by rewrite <- app_assoc.
  - rewrite decide_False by (unfold decodes, decoded; simpl; rewrite E; by intros []).
    rewrite (loads_raises _ _ E). apply IH.
Qed.

End ConsumerLemmas.

(** *** A subscription: the messages not acknowledged yet *)

Definition sub_pull (n : Z) : PyM (list (string * bytes)) (list (string * bytes)) := reads (take (Z.to_nat n)).
Definition sub_acknowledge (ids : list string) : PyM (list (string * bytes)) unit :=
  updates (filter (λ x, x.1 ∉ ids)).

(** *** A queue: what was completed and what was abandoned *)

Record Settled (M : Type) := mkSettled { st_completed : list M; st_abandoned : list M }.
Arguments mkSettled {M}. Arguments st_completed {M}. Arguments st_abandoned {M}.

Section SettleLemmas.
Context {V B M : Type} (json_loads : bytes → outcome V) (msg_body : M → bytes).
Context (loads_raises : ∀ d e, json_loads d = Raise e → is_Exception e = true).

Definition settle_complete (m : M) : PyM (Settled M) unit :=
  updates (λ q, mkSettled (st_completed q ++ [m]) (st_abandoned q)).
Definition settle_abandon (m : M) : PyM (Settled M) unit :=
  updates (λ q, mkSettled (st_completed q) (st_abandoned q ++ [m])).

Definition readable (m : M) : Prop := is_Some (decoded json_loads (msg_body m)).
#[local] Instance readable_dec m : Decision (readable m).
Proof. unfold readable. apply _. Defined.

Definition settle (q : Settled M) (ms : list M) : Settled M :=
  mkSettled (st_completed q ++ filter readable ms) (st_abandoned q ++ filter (λ m, ¬ readable m) ms).

Lemma settle_app q l l' : settle (settle q l) l' = settle q (l ++ l').
Proof. unfold settle. cbn [st_completed st_abandoned]. by rewrite !filter_app, !app_assoc. Qed.

Lemma settle_nil q : settle q [] = q.
Proof. destruct q as [c a]. unfold settle. simpl. by rewrite !app_nil_r. Qed.

(** How the loop ends: the messages before the one it was left at are settled. *)
Lemma receive_loop_spec (body : V → PyM B bool) ms b q :
  ∃ n b1, run_bodies body (omap (λ m, decoded json_loads (msg_body m)) (take n ms)) b = (Return true, b1) ∧
    ((n = length ms ∧ receive_loop msg_body settle_complete settle_abandon json_loads body ms (b, q) =
        (Return tt, (b1, settle q ms))) ∨
     ∃ m p b2 o, ms !! n = Some m ∧ json_loads (msg_body m) = Return p ∧ body p b1 = (o, b2) ∧ o ≠ Return true ∧
       receive_loop msg_body settle_complete settle_abandon json_loads body ms (b, q) =
         (match o with Return _ => Return tt | Raise e => Raise e end, (b2, settle q (take n ms)))).
Proof using loads_raises.
  revert b q. induction ms as [|m ms IH]; intros b q.
  { exists 0%nat, b. split; [done|]. left. split; [done|]. by rewrite settle_nil. }
  cbn [receive_loop]. unfold decoded at 1. destruct (json_loads (msg_body m)) as [p|e] eqn:E.
  - assert (readable m) as Hm by (unfold readable, decoded; by rewrite E).
    unfold mbind, PyM_bind, on_fst. cbn [fst snd]. destruct (body p b) as [[[]|e] b'] eqn:Eb.
    + destruct (IH b' (settle q [m])) as (n & b1 & Hrun & Hend).
      assert (settle_complete m q = (Return tt, settle q [m])) as Hset.
      { unfold settle_complete, settle, updates. rewrite !filter_cons, !filter_nil, decide_True, decide_False by tauto.
        by rewrite app_nil_r. }
      exists (S n), b1. split.
      { cbn [take omap list_omap]. rewrite E. cbn. unfold mbind, PyM_bind. by rewrite Eb. }
      unfold try_except, try_base, on_snd. cbn [fst snd]. rewrite Hset.
      destruct Hend as [[-> Hend]|(m' & p' & b2 & o & ? & ? & ? & ? & Hend)].
      * left. split; [done|]. rewrite Hend. by rewrite settle_app.
      * right. exists m', p', b2, o. split_and!; try done. rewrite Hend. cbn [take]. by rewrite settle_app.
    + exists 0%nat, b. split; [done|]. right. exists m, p, b', (Return false). cbn [take]. by rewrite settle_nil.
    + exists 0%nat, b. split; [done|]. right. exists m, p, b', (Raise e). cbn [take]. by rewrite settle_nil.
  - assert (¬ readable m) as Hm by (unfold readable, decoded; rewrite E; by intros []).
    rewrite (loads_raises _ _ E). unfold mbind, PyM_bind, on_snd. cbn [fst snd].
    assert (settle_abandon m q = (Return tt, settle q [m])) as Hset.
    { unfold settle_abandon, settle, updates. rewrite !filter_cons, !filter_nil, decide_False, decide_True by tauto.
      by rewrite app_nil_r. }
    rewrite Hset. destruct (IH b (settle q [m])) as (n & b1 & Hrun & Hend). exists (S n), b1. split.
    { rewrite <- Hrun. cbn [take]. unfold omap, list_omap, decoded. by rewrite E. }
    destruct Hend as [[-> Hend]|(m' & p' & b2 & o & ? & ? & ? & ? & Hend)].
    + left. split; [done|]. rewrite Hend. by rewrite settle_app.
    + right. exists m', p', b2, o. split_and!; try done. rewrite Hend. cbn [take]. by rewrite settle_app.
Qed.

End SettleLemmas.

(** *** Batches of the Service Bus *)

Lemma fill_batch_spec {V Batch} (add_message : Batch → string → outcome Batch) batch_messages (json_dumps : V → outcome string)
    batch payloads full :
  (∀ b s b', add_message b s = Return b' → batch_messages b' = batch_messages b ++ [s]) →
  fill_batch add_message json_dumps batch payloads = Return full →
  ∃ texts, Forall2 (λ p s, json_dumps p = Return s) payloads texts ∧ batch_messages full = batch_messages batch ++ texts.
Proof.
  intros Hadd. revert batch. induction payloads as [|p rest IH]; intros batch; simpl.
  - intros [= <-]. exists []. split; [constructor|]. by rewrite app_nil_r.
  - destruct (json_dumps p) as [s|] eqn:E; [|done]. destruct (add_message batch s) as [b'|] eqn:Ea; [|done].
    intros (texts & Ht & ->)%IH. exists (s :: texts). split; [by constructor|]. by rewrite (Hadd _ _ _ Ea), <- app_assoc.
Qed.

(** *** Closing Pulsar *)

Lemma swallow_ok {S} (m : PyM S unit) s :
  (∀ e s', m s = (Raise e, s') → is_Exception e = true) → ∃ s', swallow m s = (Return tt, s').
Proof.
  intros Hm. unfold swallow, try_except, try_base. destruct (m s) as [[[]|e] s'] eqn:E; [by eexists|].
  rewrite (Hm e s' eq_refl). by eexists.
Qed.

(** ** Theorems *)

(** a batch through a NATS or a RabbitMQ bus that is not connected opens one connection and
    delivers the messages in order, up to the first that does not serialise or that the
    broker refuses; that error is raised, and what was delivered before it stays. *)
Theorem bus_batch_exact {V} accept (json_dumps : V → outcome bytes) m ms w :
  br_opened w ∉ br_closed w →
  Forall (λ publish,
    ∃ n xs o, for_each (m :: ms) publish ((None, None), w) =
        (o, ((Some (br_opened w), Some (br_opened w)), mkBroker (S (br_opened w)) (br_closed w) (br_sent w ++ xs))) ∧
      Forall2 (λ m x, attempt accept json_dumps m = Return x) (take n (m :: ms)) xs ∧
      ((n = length (m :: ms) ∧ o = Return tt) ∨
       ∃ m' e, (m :: ms) !! n = Some m' ∧ attempt accept json_dumps m' = Raise e ∧ o = Raise e))
    [nats_publish accept json_dumps; rabbit_publish accept json_dumps].
Proof.
  intros Hc. assert (∀ publish, publishes accept json_dumps publish → opens publish →
    ∃ n xs o, for_each (m :: ms) publish ((None, None), w) =
        (o, ((Some (br_opened w), Some (br_opened w)), mkBroker (S (br_opened w)) (br_closed w) (br_sent w ++ xs))) ∧
      Forall2 (λ m x, attempt accept json_dumps m = Return x) (take n (m :: ms)) xs ∧
      ((n = length (m :: ms) ∧ o = Return tt) ∨
       ∃ m' e, (m :: ms) !! n = Some m' ∧ attempt accept json_dumps m' = Raise e ∧ o = Raise e)) as H.
  { intros publish Hp Ho. set (s := ((Some (br_opened w), Some (br_opened w)), mkBroker (S (br_opened w)) (br_closed w) (br_sent w))).
    destruct (batch_prefix accept json_dumps publish (br_opened w) (m :: ms) s Hp) as (n & xs & Hxs & Hend); [done|].
    assert (for_each (m :: ms) publish ((None, None), w) = for_each (m :: ms) publish s) as ->.
    { cbn [for_each]. unfold mbind, PyM_bind. by rewrite Ho. }
    exists n, xs. destruct Hend as [[-> ->]|(m' & e & ? & ? & ->)]; eexists; (split; [reflexivity|]); (split; [done|]);
      [by left|right; by exists m', e]. }
  repeat constructor; apply H; auto using nats_publishes, rabbit_publishes, nats_opens, rabbit_opens.
Qed.

(** a bus that was closed cannot be used again: it keeps its handle, so publishing does not
    connect anew and fails with the error of the closed connection. *)
Theorem closed_bus_stays_closed {V} accept (json_dumps : V → outcome bytes) c w m data :
  json_dumps (msg_payload m) = Return data →
  let bus := ((Some c, Some c), w) in
  let closed := ((Some c, Some c), mkBroker (br_opened w) (c :: br_closed w) (br_sent w)) in
  NatsMessageBus_close (Js := nat) broker_close bus = (Return tt, closed) ∧
  RabbitMQMessageBus_close (Ch := nat) broker_close bus = (Return tt, closed) ∧
  nats_publish accept json_dumps m closed = (Raise ConnectionClosed, closed) ∧
  rabbit_publish accept json_dumps m closed = (Raise ConnectionClosed, closed).
Proof.
  intros Hd bus closed. split_and!; [done|done| |].
  - unfold nats_publish, NatsMessageBus_publish, mbind, PyM_bind, on_fst, reads. cbn. rewrite Hd. cbn.
    unfold on_snd, broker_publish. cbn. by rewrite decide_True by constructor.
  - unfold rabbit_publish, RabbitMQMessageBus_publish, mbind, PyM_bind, on_fst, reads. cbn. rewrite Hd. cbn.
    unfold on_snd, broker_publish. cbn. by rewrite decide_True by constructor.
Qed.

(** a Pub/Sub batch is acknowledged as a whole or not at all.  When the consumer goes
    through the batch, the messages that decode are acknowledged and the others stay; when it
    leaves the loop, or raises, nothing is acknowledged: all messages, also those it has
    handled, will be delivered again. *)
Theorem pubsub_pull_exact {V B} (json_loads : bytes → outcome V) n (body : V → PyM B bool) b queue :
  (∀ d e, json_loads d = Raise e → is_Exception e = true) →
  let batch := take (Z.to_nat n) queue in
  PubSubSubscriber_pull sub_pull sub_acknowledge json_loads n body (b, queue) =
  match run_bodies body (omap (λ x, decoded json_loads (snd x)) batch) b with
  | (Return true, b') => (Return tt, (b', filter (λ x, x.1 ∉ (filter (decodes json_loads) batch).*1) queue))
  | (Return false, b') => (Return tt, (b', queue))
  | (Raise e, b') => (Raise e, (b', queue))
  end.
Proof.
  intros Hl batch. unfold PubSubSubscriber_pull, mbind, PyM_bind, on_snd, on_fst. cbn [fst snd].
  change (sub_pull n queue) with (Return batch, queue). cbn [fst snd]. rewrite (pull_loop_spec json_loads Hl).
  destruct (run_bodies body _ b) as [[[]|e] b']; [|done..]. cbn [app fst snd].
  destruct (filter (decodes json_loads) batch).*1 as [|i ids] eqn:E; [|done]. cbn. do 2 f_equal.
  clear. induction queue as [|x queue IH]; [done|]. rewrite filter_cons_True by apply not_elem_of_nil. by rewrite <- IH.
Qed.

(** what the Service Bus consumer settles.  It goes through the messages up to some [n];
    those before are settled - completed when they decode and the consumer has handled them,
    abandoned when they do not decode -, and if the consumer stops or fails at the [n]-th,
    this and the later ones are neither completed nor abandoned. *)
Theorem servicebus_settles {V B M} (json_loads : bytes → outcome V) (msg_body : M → bytes) (body : V → PyM B bool) msgs b :
  (∀ d e, json_loads d = Raise e → is_Exception e = true) →
  ∃ n b1, let before := take n msgs in
    run_bodies body (omap (λ m, decoded json_loads (msg_body m)) before) b = (Return true, b1) ∧
    ∃ o b2, AzureServiceBusConsumer_receive (mret msgs) msg_body settle_complete settle_abandon json_loads body (b, mkSettled [] []) =
        (o, (b2, mkSettled (filter (readable json_loads msg_body) before)
                           (filter (λ m, ¬ readable json_loads msg_body m) before))) ∧
      ((n = length msgs ∧ o = Return tt ∧ b2 = b1) ∨
       ∃ m p r, msgs !! n = Some m ∧ json_loads (msg_body m) = Return p ∧ body p b1 = (r, b2) ∧ r ≠ Return true ∧
         o = match r with Return _ => Return tt | Raise e => Raise e end).
Proof.
  intros Hl. destruct (receive_loop_spec json_loads msg_body Hl body msgs b (mkSettled [] [])) as (n & b1 & Hrun & Hend).
  exists n, b1. split; [done|]. unfold AzureServiceBusConsumer_receive, mbind, PyM_bind, on_snd. cbn.
  destruct Hend as [[-> Hend]|(m & p & b2 & r & ? & ? & ? & ? & Hend)]; eexists _, _; rewrite Hend.
  - rewrite take_ge by lia. split; [reflexivity|]. by left.
  - split; [reflexivity|]. right. by exists m, p, r.
Qed.

(** a batch of the Service Bus producer is sent in one call with every payload in order, or,
    when a payload does not serialise or does not fit, not at all. *)
Theorem servicebus_batch_atomic {V W Batch} send_messages (create : PyM W Batch) add_message batch_messages
    (json_dumps : V → outcome string) payloads (w : W) b0 :
  create w = (Return b0, w) → batch_messages b0 = [] →
  (∀ b s b', add_message b s = Return b' → batch_messages b' = batch_messages b ++ [s]) →
  (∃ texts, Forall2 (λ p s, json_dumps p = Return s) payloads texts ∧
     AzureServiceBusProducer_send_batch send_messages create add_message batch_messages json_dumps payloads w = send_messages texts w) ∨
  ∃ e, AzureServiceBusProducer_send_batch send_messages create add_message batch_messages json_dumps payloads w = (Raise e, w).
Proof.
  intros Hc Hb Hadd. unfold AzureServiceBusProducer_send_batch, mbind, PyM_bind. rewrite Hc. unfold from_outcome.
  destruct (fill_batch add_message json_dumps b0 payloads) as [full|e] eqn:E; [left|right; by eexists].
  destruct (fill_batch_spec _ _ _ _ _ _ Hadd E) as (texts & Ht & Hfull). rewrite Hb in Hfull. exists texts. by rewrite Hfull.
Qed.

(** closing a Pulsar producer always succeeds, whatever its producers and the client raise,
    and leaves no client and no producer: the next publish connects again. *)
Theorem pulsar_close_resets {W Pr} (flush close_producer : Pr → PyM W unit) (close_client : PyM W unit) connected ps w :
  (∀ p w e w', flush p w = (Raise e, w') → is_Exception e = true) →
  (∀ p w e w', close_producer p w = (Raise e, w') → is_Exception e = true) →
  (∀ w e w', close_client w = (Raise e, w') → is_Exception e = true) →
  ∃ w', PulsarProducer_close flush close_producer close_client ((connected, ps), w) = (Return tt, ((false, []), w')).
Proof.
  intros Hf Hp Hc. unfold PulsarProducer_close, mbind at 1, PyM_bind at 1. cbn.
  assert (∀ l (s : bool * list (string * Pr)) w, ∃ w', for_each l (λ e : string * Pr, on_snd (swallow (flush (snd e) ;; close_producer (snd e)))) (s, w) =
    (Return tt, (s, w'))) as Hall.
  { induction l as [|[t p] l IH]; intros s w0; [by eexists|]. cbn [for_each]. unfold mbind at 1, PyM_bind at 1, on_snd at 1. cbn [fst snd].
    destruct (swallow_ok (flush p ;; close_producer p) w0) as (w1 & ->); [|apply IH].
    intros e w'. unfold mbind, PyM_bind. destruct (flush p w0) as [[u|e0] w1] eqn:E; [apply Hp|]. intros [= <- <-]. by eapply Hf. }
  destruct (Hall ps (connected, ps) w) as (w1 & H1). unfold mbind, PyM_bind in *. rewrite H1. cbn. unfold on_fst, updates, reads. cbn.
  destruct connected; [|by eexists]. unfold on_snd. cbn. destruct (swallow_ok close_client w1) as (w2 & ->); [apply Hc|]. by eexists.
Qed.

(** what SQS is sent.  One message with the task's name and document; its delay is at most
    900 seconds and absent for a countdown of zero; group and deduplication id are there
    exactly for a queue whose URL ends in ".fifo", as given or else the default group and a
    fresh id - and a FIFO message carries its delay too. *)
Theorem sqs_dispatch_exact {W} json_dumps (uuid4 : PyM W string) send url group task payload countdown g d body w id w1 :
  json_dumps (VDict [("task", VStr task); ("payload", VDict payload)]) = Return body →
  uuid4 w = (Return id, w1) →
  ∃ delay fifo w2,
    SQSTaskBus_dispatch json_dumps uuid4 send (SQSTaskBus_init url group) task payload countdown g d w =
      send (mkSqs url body task delay fifo) w2 ∧
    (delay = None ↔ countdown = 0%Z) ∧ (∀ n, delay = Some n → (n <= 900)%Z ∧ (countdown <= 900 → n = countdown)%Z) ∧
    (fifo = None ↔ endswith ".fifo" url = false) ∧
    (∀ gr de, fifo = Some (gr, de) → gr = text_or g group ∧ de = text_or d id) ∧
    w2 = (if endswith ".fifo" url then match d with None | Some "" => w1 | _ => w end else w).
Proof.
  intros Hbody Hid. unfold SQSTaskBus_dispatch, SQSTaskBus_init, mbind, PyM_bind. cbn. rewrite Hbody. cbn.
  set (delay := if (countdown =? 0)%Z then None else Some (Z.min countdown 900)).
  assert ((delay = None ↔ countdown = 0%Z) ∧ (∀ n, delay = Some n → (n <= 900)%Z ∧ (countdown <= 900 → n = countdown)%Z)) as [H1 H2].
  { unfold delay. destruct (Z.eqb_spec countdown 0); (split; [split; congruence|]); [done|]. intros ? [= <-]. lia. }
  destruct (endswith ".fifo" url) eqn:E; cbn.
  - destruct d as [[|c s]|]; cbn; rewrite ?Hid; cbn; eexists delay, _, _;
      (refine (conj eq_refl (conj H1 (conj H2 (conj _ (conj _ eq_refl))))); [done|by intros ? ? [= <- <-]]).
  - exists delay, None, w. refine (conj eq_refl (conj H1 (conj H2 (conj _ (conj _ eq_refl))))); done.
Qed.

(** the result of a Celery task.  A task in one of the six known states yields its state,
    with the result exactly when it succeeded and the error's text exactly when it failed;
    in any other state - Celery has [RECEIVED], [REJECTED], [IGNORED] and states of the
    user's own - the call raises [ValueError]. *)
Theorem celery_result_exact {W R} status_of (result_of : string → PyM W R) str_of task w value r :
  status_of task w = (Return value, w) → result_of task w = (Return r, w) →
  match TaskStatus_of value with
  | Return st =>
      ∃ t, CeleryResultBackend_get_result status_of result_of str_of task w = (Return t, w) ∧
        tr_task_id t = task ∧ tr_status t = st ∧
        tr_result t = (if decide (value = "SUCCESS") then Some r else None) ∧
        tr_error t = (if decide (value = "FAILURE") then Some (str_of r) else None)
  | Raise e =>
      CeleryResultBackend_get_result status_of result_of str_of task w = (Raise e, w) ∧ isinstance e "ValueError" = true ∧
      value ∉ ["PENDING"; "STARTED"; "SUCCESS"; "FAILURE"; "REVOKED"; "RETRY"]
  end.
Proof.
  intros Hs Hr. unfold CeleryResultBackend_get_result, mbind, PyM_bind. rewrite Hs. unfold from_outcome, TaskStatus_of.
  repeat match goal with
         | |- context [String.eqb value ?t] =>
             destruct (String.eqb_spec value t) as [->|];
             [cbn; rewrite ?Hr; eexists; (split; [reflexivity|]); split_and!; reflexivity|]
         end.
  split; [done|]. split; [done|]. rewrite !not_elem_of_cons. split_and!; try done. apply not_elem_of_nil.
Qed.

(** ** Witnesses *)

Definition demo_dumps (p : bytes) : outcome bytes := match p with [] => Raise (TypeError "no json") | _ => Return p end.
Definition demo_msg (t : string) (p : bytes) : Message bytes := mkMsg "1" t p (mkMsgHeaders None []).

Lemma bus_batch_exact_witness :
  ∃ publish o s, In publish [nats_publish (λ _ _, Return tt) demo_dumps; rabbit_publish (λ _ _, Return tt) demo_dumps] ∧
    for_each [demo_msg "a" [1%Z]; demo_msg "b" [2%Z]] publish ((None, None), mkBroker 0 [] []) = (o, s) ∧ br_opened (snd s) = 1%nat.
Proof.
  pose proof (bus_batch_exact (λ _ _, Return tt) demo_dumps (demo_msg "a" [1%Z]) [demo_msg "b" [2%Z]] (mkBroker 0 [] [])) as H.
  apply Forall_inv in H as (n & xs & o & H & _); [|apply not_elem_of_nil].
  eexists _, _, _. split; [by left|]. split; [exact H|reflexivity].
Defined.

Lemma closed_bus_stays_closed_witness :
  nats_publish (λ _ _, Return tt) demo_dumps (demo_msg "a" [1%Z]) ((Some 0%nat, Some 0%nat), mkBroker 1 [0%nat] []) =
  (Raise ConnectionClosed, ((Some 0%nat, Some 0%nat), mkBroker 1 [0%nat] [])).
Proof. by apply (closed_bus_stays_closed (λ _ _, Return tt) demo_dumps 0 (mkBroker 1 [] []) (demo_msg "a" [1%Z]) [1%Z]). Defined.

(** A consumer that keeps what it is given and stops after two. *)
Definition demo_body (p : bytes) : PyM (list bytes) bool := λ b, (Return (Nat.ltb (length b) 1), b ++ [p]).

Lemma pubsub_pull_exact_witness :
  PubSubSubscriber_pull sub_pull sub_acknowledge demo_dumps 2 demo_body ([], [("i", [1%Z]); ("j", []); ("k", [3%Z])]) =
  (Return tt, ([[1%Z]], [("j", []); ("k", [3%Z])])).
Proof.
  rewrite (pubsub_pull_exact demo_dumps 2 demo_body [] [("i", [1%Z]); ("j", []); ("k", [3%Z])]); [reflexivity|].
  intros d e. destruct d; [|done]. by intros [= <-].
Defined.

Lemma servicebus_settles_witness :
  ∃ n o b2, AzureServiceBusConsumer_receive (mret [[1%Z]; []; [3%Z]; [4%Z]]) id settle_complete settle_abandon demo_dumps demo_body
      ([], mkSettled [] []) =
    (o, (b2, mkSettled (filter (readable demo_dumps id) (take n [[1%Z]; []; [3%Z]; [4%Z]]))
                       (filter (λ m, ¬ readable demo_dumps id m) (take n [[1%Z]; []; [3%Z]; [4%Z]])))).
Proof.
  destruct (servicebus_settles demo_dumps id demo_body [[1%Z]; []; [3%Z]; [4%Z]] []) as (n & b1 & _ & o & b2 & H & _).
  - intros d e. destruct d; [|done]. by intros [= <-].
  - by exists n, o, b2.
Defined.

Lemma servicebus_batch_atomic_witness :
  let add b s := if Nat.leb 2 (length b) then Raise (ValueError "full") else Return (b ++ [s]) in
  let send l := updates (λ w : list (list string), w ++ [l]) in
  (∃ texts, Forall2 (λ p s, Return p = Return s) ["a"; "b"] texts ∧
     AzureServiceBusProducer_send_batch send (mret []) add id Return ["a"; "b"] [] = send texts []) ∨
  ∃ e, AzureServiceBusProducer_send_batch send (mret []) add id Return ["a"; "b"] [] = (Raise e, []).
Proof.
  intros add send. apply (servicebus_batch_atomic send (mret []) add id Return ["a"; "b"] [] []); [done|done|].
  intros b s b'. unfold add. destruct (Nat.leb 2 (length b)); [done|]. by intros [= <-].
Defined.

Lemma pulsar_close_resets_witness :
  ∃ w', PulsarProducer_close (W := unit) (Pr := nat) (λ _, raise (ValueError "x")) (λ _, mret tt) (mret tt)
    ((true, [("t", 0%nat)]), tt) = (Return tt, ((false, []), w')).
Proof. apply pulsar_close_resets; [intros ? ? ? ? [= <- _]; done|done|done]. Defined.

Lemma sqs_dispatch_exact_witness :
  ∃ delay fifo w2,
    SQSTaskBus_dispatch (λ _, Return "{}") (mret "u") (λ m, updates (λ w, w ++ [m]) ;; mret "id")
      (SQSTaskBus_init "https://q.fifo" "default") "t" [] 1000 None None [] =
      (Return "id", [mkSqs "https://q.fifo" "{}" "t" delay fifo]) ∧ w2 = @nil SqsMessage ∧ ∀ n, delay = Some n → (n <= 900)%Z.
Proof.
  destruct (sqs_dispatch_exact (λ _, Return "{}") (mret "u") (λ m, updates (λ w, w ++ [m]) ;; mret "id")
    "https://q.fifo" "default" "t" [] 1000 None None "{}" [] "u" []) as (delay & fifo & w2 & H & _ & Hd & _ & _ & Hw);
    [reflexivity|reflexivity|].
  exists delay, fifo, w2. cbn in Hw. subst w2. split; [exact H|]. split; [done|]. intros n Hn. by apply Hd.
Defined.

Lemma celery_result_exact_witness :
  CeleryResultBackend_get_result (W := unit) (R := string) (λ _, mret "RECEIVED") (λ _, mret "r") id "t" tt =
  (Raise (ValueError "'RECEIVED' is not a valid TaskStatus"), tt).
Proof. by apply (celery_result_exact (W := unit) (R := string) (λ _, mret "RECEIVED") (λ _, mret "r") id "t" tt "RECEIVED" "r"). Defined.
