(* ===== verification/SearchIndex.v ===== *)
(** * Search indexes: Elasticsearch and OpenSearch

    [adapters/elasticsearch/client.py] and [adapters/opensearch/client.py]: the builders of
    query documents, the clients with their index prefix, and the repositories.  The client
    libraries are arguments; what a cluster does with a document of the query language is
    the evaluator [dsl_matches], after the documentation of the language. *)
From S2P Require Import Prelude PyString OrderedDict PyValue Masking Search.

#[local] Abbreviation doc := (list (string * pyval)).

(** ** Query builders *)

(** Both classes keep the same attributes. *)
Record SearchQueryBuilder := mkBuilder {
  qb_must : list pyval;
  qb_should : list pyval;
  qb_sort : list pyval;
  qb_from : Z;
  qb_size : Z;
}.

Definition term_clause (field : string) (value : pyval) : pyval := VDict [("term", VDict [(field, value)])].

(** [if x is not None: conditions[key] = x]. *)
Definition bound (key : string) (x : option pyval) : doc :=
  match x with None | Some VNone => [] | Some v => [(key, v)] end.

Definition range_clause (field : string) (gte lte : option pyval) : pyval :=
  VDict [("range", VDict [(field, VDict (bound "gte" gte ++ bound "lte" lte))])].

Definition sort_clause (field order : string) : pyval := VDict [(field, VDict [("order", VStr order)])].

(** [if l: d[key] = l]. *)
Definition if_any (key : string) (l : list pyval) : doc := match l with [] => [] | _ => [(key, VList l)] end.

(** *** Elasticsearch *)

Definition ElasticsearchSearchQuery_init : SearchQueryBuilder := mkBuilder [] [] [] 0 10.

Definition ElasticsearchSearchQuery_must (field : string) (value : pyval) (q : SearchQueryBuilder) : SearchQueryBuilder :=
  mkBuilder (qb_must q ++ [term_clause field value]) (qb_should q) (qb_sort q) (qb_from q) (qb_size q).

Definition ElasticsearchSearchQuery_should (field : string) (value : pyval) (q : SearchQueryBuilder) : SearchQueryBuilder :=
  mkBuilder (qb_must q) (qb_should q ++ [term_clause field value]) (qb_sort q) (qb_from q) (qb_size q).

Definition ElasticsearchSearchQuery_range (field : string) (gte lte : option pyval) (q : SearchQueryBuilder) : SearchQueryBuilder :=
  mkBuilder (qb_must q ++ [range_clause field gte lte]) (qb_should q) (qb_sort q) (qb_from q) (qb_size q).

Definition ElasticsearchSearchQuery_sort (field order : string) (q : SearchQueryBuilder) : SearchQueryBuilder :=
  mkBuilder (qb_must q) (qb_should q) (qb_sort q ++ [sort_clause field order]) (qb_from q) (qb_size q).

Definition ElasticsearchSearchQuery_paginate (page size : Z) (q : SearchQueryBuilder) : SearchQueryBuilder :=
  mkBuilder (qb_must q) (qb_should q) (qb_sort q) ((page - 1) * size) size.

Definition ElasticsearchSearchQuery_build (q : SearchQueryBuilder) : doc :=
  let bool_clause := if_any "must" (qb_must q) ++ if_any "should" (qb_should q) in
  [("query", match bool_clause with
             | [] => VDict [("match_all", VDict [])]
             | _ => VDict [("bool", VDict bool_clause)]
             end);
   ("from", VInt (qb_from q)); ("size", VInt (qb_size q))] ++ if_any "sort" (qb_sort q).

(** *** OpenSearch *)

Definition OpenSearchSearchQuery_init : SearchQueryBuilder := mkBuilder [] [] [] 0 10.

Definition OpenSearchSearchQuery_must (field : string) (value : pyval) (q : SearchQueryBuilder) : SearchQueryBuilder :=
  mkBuilder (qb_must q ++ [term_clause field value]) (qb_should q) (qb_sort q) (qb_from q) (qb_size q).

Definition OpenSearchSearchQuery_should (field : string) (value : pyval) (q : SearchQueryBuilder) : SearchQueryBuilder :=
  mkBuilder (qb_must q) (qb_should q ++ [term_clause field value]) (qb_sort q) (qb_from q) (qb_size q).

Definition OpenSearchSearchQuery_range (field : string) (gte lte : option pyval) (q : SearchQueryBuilder) : SearchQueryBuilder :=
  mkBuilder (qb_must q ++ [range_clause field gte lte]) (qb_should q) (qb_sort q) (qb_from q) (qb_size q).

Definition OpenSearchSearchQuery_sort (field order : string) (q : SearchQueryBuilder) : SearchQueryBuilder :=
  mkBuilder (qb_must q) (qb_should q) (qb_sort q ++ [sort_clause field order]) (qb_from q) (qb_size q).

Definition OpenSearchSearchQuery_paginate (page size : Z) (q : SearchQueryBuilder) : SearchQueryBuilder :=
  mkBuilder (qb_must q) (qb_should q) (qb_sort q) ((page - 1) * size) size.

Definition OpenSearchSearchQuery_build (q : SearchQueryBuilder) : doc :=
  let bool_clause := if_any "must" (qb_must q) ++ if_any "should" (qb_should q) in
  [("query", match bool_clause with
             | [] => VDict [("match_all", VDict [])]
             | _ => VDict [("bool", VDict bool_clause)]
             end);
   ("from", VInt (qb_from q)); ("size", VInt (qb_size q))] ++ if_any "sort" (qb_sort q).

(** ** Clients *)

(** What the two libraries offer: index, get and delete by index name and id, search. *)
Class IndexClient (W : Type) := {
  ic_index : string → string → doc → PyM W unit;
  ic_get : string → string → PyM W doc;
  ic_delete : string → string → PyM W unit;
  ic_search : string → doc → PyM W (list doc);
}.

Definition not_found (exc : pyexn) : bool :=
  contains "NotFoundError" (default "" (head (exn_mro exc))) || contains "404" (exn_msg exc).

Section Clients.
Context {W : Type} `{IndexClient W}.

(** [f"{prefix}{name}" if prefix else name]. *)
Definition index_name (prefix name : string) : string := if String.eqb prefix "" then name else prefix +:+ name.

Definition ElasticsearchClient_index (prefix doc_id : string) (body : doc) (index : string) : PyM W unit :=
  ic_index (index_name prefix index) doc_id body.

Definition ElasticsearchClient_get (prefix doc_id index : string) : PyM W (option doc) :=
  try_except (source ← ic_get (index_name prefix index) doc_id; mret (Some source))
    (λ exc, if not_found exc then mret None else raise exc).

(** [except NotFoundError]. *)
Definition ElasticsearchClient_delete (prefix doc_id index : string) : PyM W unit :=
  try_base (ic_delete (index_name prefix index) doc_id)
    (λ exc, if isinstance exc "NotFoundError" then mret tt else raise exc).

Definition ElasticsearchClient_search (prefix : string) (query_dsl : doc) (index : string) : PyM W (list doc) :=
  ic_search (index_name prefix index) query_dsl.

Definition OpenSearchClient_index (prefix doc_id : string) (body : doc) (index : string) : PyM W unit :=
  ic_index (index_name prefix index) doc_id body.

Definition OpenSearchClient_get (prefix doc_id index : string) : PyM W (option doc) :=
  try_except (source ← ic_get (index_name prefix index) doc_id; mret (Some source))
    (λ exc, if not_found exc then mret None else raise exc).

(** Here the message is looked at as well. *)
Definition OpenSearchClient_delete (prefix doc_id index : string) : PyM W unit :=
  try_except (ic_delete (index_name prefix index) doc_id)
    (λ exc, if not_found exc || contains "NotFoundError" (exn_msg exc) then mret tt else raise exc).

Definition OpenSearchClient_search (prefix : string) (query_dsl : doc) (index : string) : PyM W (list doc) :=
  ic_search (index_name prefix index) query_dsl.

End Clients.

(** ** Repositories *)

Section Repositories.
(** [to_dict] is [_to_dict] on the caller's models and [model] their constructor. *)
Context {W T : Type} `{IndexClient W} (to_dict : T → doc) (model : doc → outcome T) (float_repr : Q → string)
  (prefix index : string).

Definition from_raw (raw : option doc) : outcome (option T) :=
  match raw with None => Return None | Some d => x ← model d; Return (Some x) end.

(** [body.pop("id")]. *)
Definition pop_id (body : doc) : outcome (string * doc) :=
  match od_get "id" body with
  | Some v => Return (doc_str float_repr v, od_del "id" body)
  | None => Raise (KeyError "'id'")
  end.

Definition ElasticsearchRepository_find_by_id (doc_id : string) : PyM W (option T) :=
  raw ← ElasticsearchClient_get prefix doc_id index; from_outcome (from_raw raw).

Definition ElasticsearchRepository_save (x : T) : PyM W unit :=
  p ← from_outcome (pop_id (to_dict x));
  ElasticsearchClient_index prefix (fst p) (snd p) index.

Definition ElasticsearchRepository_search (query_dsl : doc) : PyM W (list T) :=
  raw_list ← ElasticsearchClient_search prefix query_dsl index; from_outcome (mapM model raw_list).

Definition ElasticsearchRepository_delete (doc_id : string) : PyM W unit := ElasticsearchClient_delete prefix doc_id index.

Definition OpenSearchRepository_find_by_id (doc_id : string) : PyM W (option T) :=
  raw ← OpenSearchClient_get prefix doc_id index; from_outcome (from_raw raw).

Definition OpenSearchRepository_save (x : T) : PyM W unit :=
  p ← from_outcome (pop_id (to_dict x));
  OpenSearchClient_index prefix (fst p) (snd p) index.

Definition OpenSearchRepository_search (query_dsl : doc) : PyM W (list T) :=
  raw_list ← OpenSearchClient_search prefix query_dsl index; from_outcome (mapM model raw_list).

Definition OpenSearchRepository_delete (doc_id : string) : PyM W unit := OpenSearchClient_delete prefix doc_id index.

End Repositories.

(** ** What a cluster does with a query

    A term clause asks for equality, a range clause for the bounds it has; all [must] clauses
    have to match, and of the [should] clauses one, but only when there is no [must]. *)

Definition clause_matches (d : doc) (c : pyval) : bool :=
  match c with
  | VDict [("term", VDict [(f, v)])] => match od_get f d with Some x => py_eq x v | None => false end
  | VDict [("range", VDict [(f, VDict conditions)])] =>
      match od_get f d with
      | None => false
      | Some x =>
          forallb (λ c, match (if String.eqb (fst c) "gte" then py_ge x (snd c) else py_le x (snd c)) with
                        | Return b => b
                        | Raise _ => false
                        end) conditions
      end
  | _ => false
  end.

Definition clauses (key : string) (b : doc) : list pyval := match od_get key b with Some (VList l) => l | _ => [] end.

Definition dsl_matches (dsl d : doc) : bool :=
  match od_get "query" dsl with
  | Some (VDict [("bool", VDict b)]) =>
      forallb (clause_matches d) (clauses "must" b) &&
      match clauses "must" b, clauses "should" b with
      | [], (_ :: _) as l => existsb (clause_matches d) l
      | _, _ => true
      end
  | Some (VDict [("match_all", _)]) => true
  | _ => false
  end.

(** The hits a query asks for. *)
Definition dsl_page (dsl : doc) (hits : list doc) : list doc :=
  match od_get "from" dsl, od_get "size" dsl with
  | Some (VInt a), Some (VInt n) => take (Z.to_nat n) (drop (Z.to_nat a) hits)
  | _, _ => hits
  end.

(** ** The contract of a cluster *)

Class IndexClientSpec (W : Type) `{IndexClient W} := {
  ic_view : W → gmap (string * string) doc;
  ic_index_spec i k d w : ∃ w', ic_index i k d w = (Return tt, w') ∧ ic_view w' = <[(i, k) := d]> (ic_view w);
  ic_get_spec i k w :
    match ic_view w !! (i, k) with
    | Some d => ic_get i k w = (Return d, w)
    | None => ∃ e, ic_get i k w = (Raise e, w) ∧ is_Exception e = true ∧ not_found e = true
    end;
  ic_delete_spec i k w :
    match ic_view w !! (i, k) with
    | Some _ => ∃ w', ic_delete i k w = (Return tt, w') ∧ ic_view w' = delete (i, k) (ic_view w)
    | None => ∃ e, ic_delete i k w = (Raise e, w) ∧ is_Exception e = true ∧ isinstance e "NotFoundError" = true ∧ not_found e = true
    end;
  ic_search_spec i dsl w :
    ∃ hits, ic_search i dsl w = (Return (dsl_page dsl hits), w) ∧
      hits ≡ₚ filter (λ d, dsl_matches dsl d = true) (omap (λ e, if decide (fst (fst e) = i) then Some (snd e) else None) (map_to_list (ic_view w)));
}.

(** *** A cluster in memory *)

Definition Cluster : Type := gmap (string * string) doc.

Definition IndexNotFound : pyexn := exn_of ["NotFoundError"; "ApiError"] "NotFoundError(404, 'not found')".

Definition cluster_docs (i : string) (w : Cluster) : list doc :=
  omap (λ e, if decide (fst (fst e) = i) then Some (snd e) else None) (map_to_list w).

#[export] Instance cluster_client : IndexClient Cluster := {
  ic_index i k d := updates (<[(i, k) := d]>);
  ic_get i k := λ w, (match w !! (i, k) with Some d => Return d | None => Raise IndexNotFound end, w);
  ic_delete i k := λ w,
    match w !! (i, k) with Some _ => (Return tt, delete (i, k) w) | None => (Raise IndexNotFound, w) end;
  ic_search i dsl := reads (λ w, dsl_page dsl (filter (λ d, dsl_matches dsl d = true) (cluster_docs i w)));
}.

#[export] Instance cluster_spec : IndexClientSpec Cluster.
Proof.
  refine {| ic_view := λ w, w |}.
  - intros i k d w. by eexists.
  - intros i k w. change (ic_get i k w) with (match w !! (i, k) with Some d => Return d | None => Raise IndexNotFound end, w).
    destruct (w !! (i, k)); [done|]. eexists. split_and!; reflexivity.
  - intros i k w. change (ic_delete i k w) with
      (match w !! (i, k) with Some _ => (Return tt, delete (i, k) w) | None => (Raise IndexNotFound, w) end).
    destruct (w !! (i, k)); [by eexists|]. eexists. split_and!; reflexivity.
  - intros i dsl w. by eexists.
Defined.

(** ** Calls of a builder *)

Inductive query_op :=
  | QMust (field : string) (value : pyval) | QShould (field : string) (value : pyval)
  | QRange (field : string) (gte lte : option pyval) | QSort (field order : string) | QPaginate (page size : Z).

Definition es_op (op : query_op) : SearchQueryBuilder → SearchQueryBuilder :=
  match op with
  | QMust f v => ElasticsearchSearchQuery_must f v
  | QShould f v => ElasticsearchSearchQuery_should f v
  | QRange f a b => ElasticsearchSearchQuery_range f a b
  | QSort f o => ElasticsearchSearchQuery_sort f o
  | QPaginate p s => ElasticsearchSearchQuery_paginate p s
  end.

Definition os_op (op : query_op) : SearchQueryBuilder → SearchQueryBuilder :=
  match op with
  | QMust f v => OpenSearchSearchQuery_must f v
  | QShould f v => OpenSearchSearchQuery_should f v
  | QRange f a b => OpenSearchSearchQuery_range f a b
  | QSort f o => OpenSearchSearchQuery_sort f o
  | QPaginate p s => OpenSearchSearchQuery_paginate p s
  end.

Definition es_query (ops : list query_op) : SearchQueryBuilder := fold_left (λ q op, es_op op q) ops ElasticsearchSearchQuery_init.
Definition os_query (ops : list query_op) : SearchQueryBuilder := fold_left (λ q op, os_op op q) ops OpenSearchSearchQuery_init.

(** The clauses the calls add. *)
Definition must_of (op : query_op) : option pyval :=
  match op with QMust f v => Some (term_clause f v) | QRange f a b => Some (range_clause f a b) | _ => None end.
Definition should_of (op : query_op) : option pyval :=
  match op with QShould f v => Some (term_clause f v) | _ => None end.
Definition sort_of (op : query_op) : option pyval :=
  match op with QSort f o => Some (sort_clause f o) | _ => None end.

(** What a call says of a document, independently of the query language. *)
Definition within (x : pyval) (gte lte : option pyval) : Prop :=
  (∀ v, gte = Some v → v ≠ VNone → py_ge x v = Return true) ∧ (∀ v, lte = Some v → v ≠ VNone → py_le x v = Return true).

Definition says (d : doc) (op : query_op) : Prop :=
  match op with
  | QMust f v | QShould f v => ∃ x, od_get f d = Some x ∧ py_eq x v = true
  | QRange f a b => ∃ x, od_get f d = Some x ∧ within x a b
  | _ => True
  end.

(** ** Lemmas *)

Lemma es_query_clauses ops :
  qb_must (es_query ops) = omap must_of ops ∧ qb_should (es_query ops) = omap should_of ops ∧
  qb_sort (es_query ops) = omap sort_of ops.
Proof.
  unfold es_query. induction ops as [|op ops IH] using rev_ind; [done|].
  rewrite fold_left_app, !omap_app. cbn [fold_left]. destruct IH as (IH1 & IH2 & IH3).
  destruct op; cbn; rewrite IH1, IH2, IH3, ?app_nil_r; done.
Qed.

Lemma term_matches d f v : clause_matches d (term_clause f v) = true ↔ ∃ x, od_get f d = Some x ∧ py_eq x v = true.
Proof. simpl. destruct (od_get f d) as [x|]; naive_solver. Qed.

Lemma range_matches d f a b :
  clause_matches d (range_clause f a b) = true ↔ ∃ x, od_get f d = Some x ∧ within x a b.
Proof.
  simpl. destruct (od_get f d) as [x|]; [|naive_solver]. rewrite forallb_app, andb_true_iff.
  assert (∀ key o (P : pyval → outcome bool), (key = "gte" ∧ P = py_ge x ∨ key = "lte" ∧ P = py_le x) →
    forallb (λ c : string * pyval, match (if String.eqb (fst c) "gte" then py_ge x (snd c) else py_le x (snd c)) with
                 | Return b => b | Raise _ => false end) (bound key o) = true ↔
    ∀ v, o = Some v → v ≠ VNone → P v = Return true) as Hb.
  { intros key o P HP. assert (∀ v, (if String.eqb key "gte" then py_ge x v else py_le x v) = P v) as HP'
      by (intros v; destruct HP as [[-> ->]|[-> ->]]; done).
    assert (∀ v, forallb (λ c : string * pyval, match (if String.eqb (fst c) "gte" then py_ge x (snd c) else py_le x (snd c)) with
                 | Return b => b | Raise _ => false end) [(key, v)] = true ↔ P v = Return true) as Hone.
    { intros v. simpl. rewrite HP', andb_true_r. destruct (P v) as [[]|]; naive_solver. }
    destruct o as [v|]; [|simpl; naive_solver].
    assert (v = VNone ∨ bound key (Some v) = [(key, v)] ∧ v ≠ VNone) as [->|[-> Hv]] by (destruct v; naive_solver).
    - split; [|done]. by intros _ ? [= <-].
    - rewrite Hone. naive_solver. }
  rewrite (Hb "gte" a (py_ge x)), (Hb "lte" b (py_le x)) by tauto. unfold within. naive_solver.
Qed.

Lemma must_clause d op c : must_of op = Some c → clause_matches d c = true ↔ says d op.
Proof. destruct op; try done; intros [= <-]; [apply term_matches|apply range_matches]. Qed.

Lemma should_clause d op c : should_of op = Some c → clause_matches d c = true ↔ says d op.
Proof. destruct op; try done; intros [= <-]. apply term_matches. Qed.

Section OmapLemmas.
Context {A B : Type} (f : A → option B).

Lemma forallb_omap p l : forallb p (omap f l) = true ↔ ∀ x, x ∈ l → ∀ c, f x = Some c → p c = true.
Proof.
  rewrite forallb_forall. setoid_rewrite <- list_elem_of_In. setoid_rewrite list_elem_of_omap. naive_solver.
Qed.

Lemma existsb_omap p l : existsb p (omap f l) = true ↔ ∃ x, x ∈ l ∧ ∃ c, f x = Some c ∧ p c = true.
Proof.
  rewrite existsb_exists. setoid_rewrite <- list_elem_of_In. setoid_rewrite list_elem_of_omap. naive_solver.
Qed.

Lemma omap_nil l : omap f l = [] ↔ ∀ x, x ∈ l → f x = None.
Proof.
  induction l as [|x l IH]; simpl; [set_solver|]. destruct (f x) eqn:E; simpl.
  - split; [done|]. intros H. rewrite H in E by constructor. done.
  - rewrite IH. setoid_rewrite elem_of_cons. naive_solver.
Qed.

Lemma omap_not_nil l : (∃ x, x ∈ l ∧ is_Some (f x)) ↔ omap f l ≠ [].
Proof.
  split.
  - intros (x & Hx & c & Hc) E. rewrite omap_nil in E. by rewrite (E x Hx) in Hc.
  - intros H. destruct (omap f l) as [|c cs] eqn:E; [done|].
    assert (c ∈ omap f l) as (x & Hx & Hc)%list_elem_of_omap by (rewrite E; constructor). exists x. split; [done|by eexists].
Qed.

End OmapLemmas.

(** Searching, page after page. *)
Definition page_query (ops : list query_op) (size : Z) (n : nat) : doc :=
  ElasticsearchSearchQuery_build (ElasticsearchSearchQuery_paginate (Z.of_nat n) size (es_query ops)).

Lemma page_query_matches ops size n d :
  dsl_matches (page_query ops size n) d = dsl_matches (ElasticsearchSearchQuery_build (es_query ops)) d.
Proof. done. Qed.

(** *** Calls of a client *)

Inductive index_call :=
  | CIndex (k : string) (d : doc) (i : string) | CGet (k i : string) | CDelete (k i : string) | CSearch (dsl : doc) (i : string).

Inductive index_answer := Indexed | Got (d : option doc) | Removed | Hits (l : list doc).

Definition es_call {W} `{IndexClient W} (prefix : string) (c : index_call) : PyM W index_answer :=
  match c with
  | CIndex k d i => ElasticsearchClient_index prefix k d i ;; mret Indexed
  | CGet k i => d ← ElasticsearchClient_get prefix k i; mret (Got d)
  | CDelete k i => ElasticsearchClient_delete prefix k i ;; mret Removed
  | CSearch dsl i => l ← ElasticsearchClient_search prefix dsl i; mret (Hits l)
  end.

Definition os_call {W} `{IndexClient W} (prefix : string) (c : index_call) : PyM W index_answer :=
  match c with
  | CIndex k d i => OpenSearchClient_index prefix k d i ;; mret Indexed
  | CGet k i => d ← OpenSearchClient_get prefix k i; mret (Got d)
  | CDelete k i => OpenSearchClient_delete prefix k i ;; mret Removed
  | CSearch dsl i => l ← OpenSearchClient_search prefix dsl i; mret (Hits l)
  end.

(** The documents of an index that a query matches. *)
Definition matching_docs {W} `{IndexClientSpec W} (i : string) (dsl : doc) (w : W) : list doc :=
  filter (λ d, dsl_matches dsl d = true)
    (omap (λ e, if decide (fst (fst e) = i) then Some (snd e) else None) (map_to_list (ic_view w))).

(** Both clients over one cluster. *)
Section ClientLemmas.
Context {W : Type} `{IndexClientSpec W}.

Lemma client_get prefix k i w :
  ElasticsearchClient_get prefix k i w = (Return (ic_view w !! (index_name prefix i, k)), w) ∧
  OpenSearchClient_get prefix k i w = (Return (ic_view w !! (index_name prefix i, k)), w).
Proof.
  unfold ElasticsearchClient_get, OpenSearchClient_get, try_except, try_base, mbind, PyM_bind.
  pose proof (ic_get_spec (index_name prefix i) k w) as Hg. destruct (ic_view w !! _); [by rewrite Hg|].
  destruct Hg as (e & -> & He & Hn). by rewrite He, Hn.
Qed.

Lemma client_delete prefix k i w :
  ∃ w', ElasticsearchClient_delete prefix k i w = (Return tt, w') ∧ OpenSearchClient_delete prefix k i w = (Return tt, w') ∧
    ic_view w' = delete (index_name prefix i, k) (ic_view w).
Proof.
  unfold ElasticsearchClient_delete, OpenSearchClient_delete, try_except, try_base.
  pose proof (ic_delete_spec (index_name prefix i) k w) as Hd. destruct (ic_view w !! _) eqn:E.
  - destruct Hd as (w' & -> & Hw'). by exists w'.
  - destruct Hd as (e & -> & He & Hi & Hn). exists w. rewrite He, Hi, Hn. split_and!; [done..|]. by rewrite delete_id.
Qed.

End ClientLemmas.

(** ** Theorems *)

(** a built query selects what its calls say.  A document matches exactly when it satisfies
    every [must] and [range] call, and one of the [should] calls if there are any and no
    [must] or [range] call; sorting and paging do not change what matches. *)
Theorem query_selects ops d :
  dsl_matches (ElasticsearchSearchQuery_build (es_query ops)) d = true ↔
  (∀ op, op ∈ ops → is_Some (must_of op) → says d op) ∧
  ((∀ op, op ∈ ops → must_of op = None) → (∃ op, op ∈ ops ∧ is_Some (should_of op)) →
     ∃ op, op ∈ ops ∧ is_Some (should_of op) ∧ says d op).
Proof.
  destruct (es_query_clauses ops) as (Hm & Hs & _).
  assert (dsl_matches (ElasticsearchSearchQuery_build (es_query ops)) d =
    forallb (clause_matches d) (omap must_of ops) &&
    match omap must_of ops, omap should_of ops with [], (_ :: _) as l => existsb (clause_matches d) l | _, _ => true end) as ->.
  { unfold dsl_matches, ElasticsearchSearchQuery_build. rewrite Hm, Hs.
    destruct (omap must_of ops) as [|m ms], (omap should_of ops) as [|s ss]; reflexivity. }
  rewrite andb_true_iff, forallb_omap, <- (omap_nil must_of).
  assert ((∃ op, op ∈ ops ∧ is_Some (should_of op)) ↔ omap should_of ops ≠ []) as -> by apply omap_not_nil.
  assert ((∃ op, op ∈ ops ∧ is_Some (should_of op) ∧ says d op) ↔ existsb (clause_matches d) (omap should_of ops) = true) as ->.
  { rewrite (existsb_omap should_of). split; intros (op & Hop & Hs').
    - destruct Hs' as [[c Hc] Hd]. exists op. split; [done|]. exists c. split; [done|]. by apply (should_clause d op c Hc).
    - destruct Hs' as (c & Hc & Hd). exists op. split_and!; [done|by eexists|]. by apply (should_clause d op c Hc). }
  assert ((∀ op, op ∈ ops → ∀ c, must_of op = Some c → clause_matches d c = true) ↔
          (∀ op, op ∈ ops → is_Some (must_of op) → says d op)) as ->.
  { split; intros H op Hop.
    - intros [c Hc]. apply (must_clause d op c Hc). by eapply H.
    - intros c Hc. apply (must_clause d op c Hc). by apply H. }
  destruct (omap must_of ops), (omap should_of ops); naive_solver.
Qed.

(** OpenSearch is a drop-in replacement.  The same builder calls give the same query
    document, and over one cluster the same sequence of client calls gives the same answers
    and leaves the same documents. *)
Theorem opensearch_drop_in {W} `{IndexClientSpec W} ops calls prefix (w : W) :
  OpenSearchSearchQuery_build (os_query ops) = ElasticsearchSearchQuery_build (es_query ops) ∧
  run_each (os_call prefix) calls w = run_each (es_call prefix) calls w.
Proof.
  split.
  - assert (∀ q, fold_left (λ q op, os_op op q) ops q = fold_left (λ q op, es_op op q) ops q) as Heq.
    { induction ops as [|op ops IH]; intros q; [done|]. simpl. rewrite IH. by destruct op. }
    unfold os_query, es_query. by rewrite Heq.
  - revert w. induction calls as [|c calls IH]; intros w; [done|]. simpl.
    assert (os_call prefix c w = es_call prefix c w) as ->; [|by destruct (es_call prefix c w) as [a w']; rewrite IH].
    destruct c as [k d i|k i|k i|dsl i]; simpl; unfold mbind, PyM_bind; [done| | |done].
    + destruct (client_get prefix k i w) as [-> ->]. done.
    + destruct (client_delete prefix k i w) as (w' & -> & -> & _). done.
Qed.

(** what a repository finds.  A saved document is found under its id, and only it changes;
    a deleted one is not found.  But the id is taken out of the stored document, so the
    model is built without it: a model that requires its id cannot be loaded. *)
Theorem repository_forgets_id {W T} `{IndexClientSpec W} (to_dict : T → doc) (model : doc → outcome T)
    float_repr prefix index x v (w : W) :
  od_get "id" (to_dict x) = Some v →
  let id := doc_str float_repr v in
  ∃ w', ElasticsearchRepository_save to_dict float_repr prefix index x w = (Return tt, w') ∧
    OpenSearchRepository_save to_dict float_repr prefix index x w = (Return tt, w') ∧
    ElasticsearchRepository_find_by_id model prefix index id w' = (from_raw model (Some (od_del "id" (to_dict x))), w') ∧
    (∀ k, k ≠ id → fst (ElasticsearchRepository_find_by_id model prefix index k w') =
                   fst (ElasticsearchRepository_find_by_id model prefix index k w)) ∧
    ((∀ d, od_get "id" d = None → ∃ msg, model d = Raise (TypeError msg)) →
       ∃ msg, fst (ElasticsearchRepository_find_by_id model prefix index id w') = Raise (TypeError msg)) ∧
    ∃ w'', ElasticsearchRepository_delete prefix index id w' = (Return tt, w'') ∧
      ElasticsearchRepository_find_by_id model prefix index id w'' = (Return None, w'').
Proof.
  intros Hid id. destruct (ic_index_spec (index_name prefix index) id (od_del "id" (to_dict x)) w) as (w' & Hidx & Hw').
  assert (∀ k w, ElasticsearchRepository_find_by_id model prefix index k w =
            (from_raw model (ic_view w !! (index_name prefix index, k)), w)) as Hfind.
  { intros k w0. unfold ElasticsearchRepository_find_by_id, mbind, PyM_bind. by rewrite (proj1 (client_get prefix k index w0)). }
  exists w'. unfold ElasticsearchRepository_save, OpenSearchRepository_save, pop_id, mbind, PyM_bind. rewrite Hid. cbn [from_outcome fst snd].
  split; [exact Hidx|]. split; [exact Hidx|].
  assert (ElasticsearchRepository_find_by_id model prefix index id w' = (from_raw model (Some (od_del "id" (to_dict x))), w')) as Hself
    by (rewrite Hfind, Hw'; by rewrite lookup_insert_eq).
  split; [done|]. split_and!.
  - intros k Hk. rewrite !Hfind, Hw'. simpl. rewrite lookup_insert_ne; [done|]. intros [= Heq]. by apply Hk.
  - intros Hreq. rewrite Hself. simpl. destruct (Hreq (od_del "id" (to_dict x))) as [msg ->]; [apply od_get_del_eq|]. by exists msg.
  - destruct (client_delete prefix id index w') as (w'' & Hdel & _ & Hw''). exists w''. split; [done|].
    rewrite Hfind, Hw''. by rewrite lookup_delete_eq.
Qed.

(** pages cover the result.  Whatever the query, the first [k] pages of a size, joined, are the
    first [k * size] matching documents of the index - all of them for [k] large enough. *)
Theorem index_pages ops size k i (w : Cluster) :
  (0 < size)%Z →
  let hits := matching_docs i (ElasticsearchSearchQuery_build (es_query ops)) w in
  mjoin ((λ n, match fst (ic_search i (page_query ops size (S n)) w) with Return l => l | Raise _ => [] end) <$> seq 0 k) =
    take (k * Z.to_nat size) hits ∧
  (length hits <= k * Z.to_nat size → take (k * Z.to_nat size) hits = hits)%nat.
Proof.
  intros Hsize hits. split; [|intros; by apply take_ge].
  rewrite (list_fmap_ext _ (λ n, take (Z.to_nat size) (drop (n * Z.to_nat size) hits))).
  - apply pages_join.
  - intros _ n _. change (ic_search i (page_query ops size (S n)) w) with
      (@Return (list doc) (take (Z.to_nat size) (drop (Z.to_nat ((Z.of_nat (S n) - 1) * size)) hits)), w).
    cbn [fst]. do 2 f_equal. nia.
Qed.

(** ** Witnesses *)

(** A repository of bare documents, whose model requires an id. *)
Definition needs_id (d : doc) : outcome doc :=
  if decide (od_get "id" d = None) then Raise (TypeError "missing a required argument: 'id'") else Return d.

Lemma repository_forgets_id_witness :
  ∃ w', ElasticsearchRepository_save (λ d, d) (λ _, "") "" "orders" [("id", VStr "o1"); ("total", VInt 3)] (∅ : Cluster) = (Return tt, w') ∧
    ∃ msg, fst (ElasticsearchRepository_find_by_id needs_id "" "orders" "o1" w') = Raise (TypeError msg).
Proof.
  destruct (repository_forgets_id (λ d, d) needs_id (λ _, "") "" "orders" [("id", VStr "o1"); ("total", VInt 3)] (VStr "o1") (∅ : Cluster))
    as (w' & H1 & _ & _ & _ & H2 & _); [reflexivity|].
  exists w'. split; [exact H1|]. apply H2. intros d Hd. eexists. unfold needs_id. by rewrite decide_True.
Defined.

Lemma index_pages_witness :
  let w : Cluster := {[ ("a", "1") := [("n", VInt 1)]; ("a", "2") := [("n", VInt 2)]; ("b", "1") := [("n", VInt 1)] ]} in
  mjoin ((λ n, match fst (ic_search "a" (page_query [QRange "n" (Some (VInt 1)) None] 1 (S n)) w) with Return l => l | Raise _ => [] end) <$> seq 0 2) =
    take 2 (matching_docs "a" (ElasticsearchSearchQuery_build (es_query [QRange "n" (Some (VInt 1)) None])) w).
Proof.
  intros w. destruct (index_pages [QRange "n" (Some (VInt 1)) None] 1 2 "a" w) as [H _]; [lia|]. exact H.
Defined.
