(* ===== verification/Cassandra.v ===== *)
(** * The Cassandra adapter

    [adapters/cassandra/repository.py]: the session factory, the repository with its
    prepared statements, and the outbox store, partitioned by topic and hour.  The driver's
    session is an argument: [CqlSession] is what the adapter calls.  The contract [CqlTable]
    of a table says that a statement does what its text, read as CQL, says; the contract of
    the outbox table, [OutboxTable], is about the statements the outbox store writes. *)
From S2P Require Import Prelude PyString OrderedDict PyValue ValueObjects Outbox Mongo.

(** ** Calendar: [datetime.strftime] on an aware time

    Times are microseconds since 1970-01-01T00:00 UTC; an aware time also has the offset of
    its zone.  The date of a day number is found in the 400-year cycle that starts on
    1 March, so that the leap day is the last of its year. *)

Record civil := mkCivil { cv_year : Z; cv_month : Z; cv_day : Z }.

Definition civil_of_days (days : Z) : civil :=
  let z := (days + 719468)%Z in
  let era := (z / 146097)%Z in
  let doe := (z mod 146097)%Z in
  let yoe := ((doe - doe / 1460 + doe / 36524 - doe / 146096) / 365)%Z in
  let doy := (doe - (365 * yoe + yoe / 4 - yoe / 100))%Z in
  let mp := ((5 * doy + 2) / 153)%Z in
  let month := (if (mp <? 10)%Z then mp + 3 else mp - 9)%Z in
  mkCivil (yoe + era * 400 + (if (month <=? 2)%Z then 1 else 0)) month (doy - (153 * mp + 2) / 5 + 1).

Definition us_per_hour : Z := 3600000000.

(** [%m], [%d], [%H]: two digits. *)
Definition two_digits (n : Z) : string := (if (n <? 10)%Z then "0" else "") +:+ str_of_int n.

(** The text of an hour number: [%Y-%m-%dT%H:00:00]. *)
Definition hour_text (hour : Z) : string :=
  let c := civil_of_days (hour / 24) in
  str_of_int (cv_year c) +:+ ("-" +:+ two_digits (cv_month c) +:+ "-" +:+ two_digits (cv_day c) +:+ "T" +:+ two_digits (hour mod 24) +:+ ":00:00").

Definition CassandraOutboxStore_bucket_hour (utcoffset t : Z) : string := hour_text ((t + utcoffset) / us_per_hour).

(** ** The driver *)

Class CqlSession (W Stmt V : Type) := {
  cs_prepare : string → PyM W Stmt;
  cs_execute : Stmt → option (list V) → PyM W (option (list (list (string * V))));
  cs_query_string : Stmt → string;
}.

(** ** The session factory *)

Section Factory.
(** [connect] opens a cluster and a session on it; [shutdown] closes a cluster. *)
Context {W Cl Se : Type} (open_cluster : PyM W Cl) (cluster_connect : Cl → PyM W Se) (cluster_shutdown : Cl → PyM W unit).

Record CassandraSessionFactory := mkFactory { cf_session : option Se; cf_cluster : option Cl }.

Definition CassandraSessionFactory_init : CassandraSessionFactory := mkFactory None None.

Definition CassandraSessionFactory_connect : PyM (CassandraSessionFactory * W) Se :=
  c ← on_snd open_cluster;
  updates (λ s, (mkFactory (cf_session (fst s)) (Some c), snd s)) ;;
  se ← on_snd (cluster_connect c);
  updates (λ s, (mkFactory (Some se) (cf_cluster (fst s)), snd s)) ;;
  mret se.

Definition CassandraSessionFactory_close : PyM (CassandraSessionFactory * W) unit :=
  c ← reads (λ s, cf_cluster (fst s));
  match c with Some c => on_snd (cluster_shutdown c) | None => mret tt end.

Definition CassandraSessionFactory_session (f : CassandraSessionFactory) : outcome Se :=
  match cf_session f with
  | Some se => Return se
  | None => Raise (exn_of ["RuntimeError"] "Call connect() before using the session.")
  end.

End Factory.

(** ** Texts of statements *)

Definition select_cql (table pk : string) : string := "SELECT * FROM " +:+ table +:+ " WHERE " +:+ pk +:+ " = ?".

(** ["?" * n] is iterated character by character. *)
Definition insert_cql (table : string) (columns : list string) : string :=
  "INSERT INTO " +:+ table +:+ " (" +:+ join ", " columns +:+ ") VALUES (" +:+ join ", " (replicate (length columns) "?") +:+ ")".

Definition delete_cql (table pk : string) : string := "DELETE FROM " +:+ table +:+ " WHERE " +:+ pk +:+ " = ?".

Definition find_cql (table column : string) : string :=
  "SELECT * FROM " +:+ table +:+ " WHERE " +:+ column +:+ " = ? ALLOW FILTERING".

Definition pending_cql (table : string) (limit : Z) : string :=
  "SELECT * FROM " +:+ table +:+ " WHERE topic = ? AND bucket_hour = ? " +:+
  "AND status = ? LIMIT " +:+ str_of_int limit +:+ " ALLOW FILTERING".

Definition update_cql (table : string) : string := "UPDATE " +:+ table +:+ " SET status = ? WHERE id = ?".

(** ** The repository *)

Section Repository.
(** The state is the dict of prepared statements, beside the world of the driver. *)
Context {W Stmt V T : Type} `{CqlSession W Stmt V} (table pk : string) (model : list (string * V) → outcome T) (to_dict : T → list (string * V)).

(** [pk_column if pk_column is not None else pk_field]. *)
Definition CassandraRepository_pk (pk_field : string) (pk_column : option string) : string := default pk_field pk_column.

Definition CassandraRepository_prepare (cql : string) : PyM (list (string * Stmt) * W) Stmt :=
  cached ← reads (λ s, od_get cql (fst s));
  match cached with
  | Some stmt => mret stmt
  | None => stmt ← on_snd (cs_prepare cql);
            updates (λ s, (od_set cql stmt (fst s), snd s)) ;;
            mret stmt
  end.

Definition CassandraRepository_exec (cql : string) (params : list V)
    : PyM (list (string * Stmt) * W) (option (list (list (string * V)))) :=
  stmt ← CassandraRepository_prepare cql;
  on_snd (cs_execute stmt (match params with [] => None | _ => Some params end)).

Definition CassandraRepository_get (k : V) : PyM (list (string * Stmt) * W) (option T) :=
  rows ← CassandraRepository_exec (select_cql table pk) [k];
  match rows with
  | Some (row :: _) => x ← from_outcome (model row); mret (Some x)
  | _ => mret None
  end.

Definition CassandraRepository_save (x : T) : PyM (list (string * Stmt) * W) unit :=
  let body := to_dict x in
  CassandraRepository_exec (insert_cql table body.*1) body.*2 ;; mret tt.

Definition CassandraRepository_delete (k : V) : PyM (list (string * Stmt) * W) unit :=
  CassandraRepository_exec (delete_cql table pk) [k] ;; mret tt.

Definition CassandraRepository_find_by (column : string) (value : V) : PyM (list (string * Stmt) * W) (list T) :=
  rows ← CassandraRepository_exec (find_cql table column) [value];
  from_outcome (mapM model (default [] rows)).

End Repository.

(** ** The outbox store *)

Section OutboxStore.
Context {W Stmt : Type} `{CqlSession W Stmt (dval unit)} (table : string).

(** [dataclasses.asdict(record)], a [StrEnum] member being a string. *)
Definition record_fields (r : OutboxRecord) : doc unit :=
  [("id", DStr (or_id r)); ("aggregate_id", DStr (or_aggregate_id r));
   ("aggregate_type", DStr (or_aggregate_type r)); ("event_type", DStr (or_event_type r));
   ("topic", DStr (or_topic r)); ("payload", DBytes (or_payload r)); ("headers", DMap (or_headers r));
   ("status", DStr (status_text (or_status r))); ("created_at", DTime (or_created_at r));
   ("dispatched_at", opt_time (or_dispatched_at r)); ("retry_count", DInt (or_retry_count r));
   ("last_error", opt_text (or_last_error r))].

(** [utcoffset] is that of the record's [created_at], zero unless the caller chose another. *)
Definition outbox_row (utcoffset : Z) (r : OutboxRecord) : doc unit :=
  od_set "bucket_hour" (DStr (CassandraOutboxStore_bucket_hour utcoffset (or_created_at r))) (record_fields r).

Definition CassandraOutboxStore_save (utcoffset : Z) (r : OutboxRecord) : PyM W unit :=
  let body := outbox_row utcoffset r in
  stmt ← cs_prepare (insert_cql table body.*1);
  cs_execute stmt (Some body.*2) ;; mret tt.

(** The loop over the buckets. *)
Fixpoint pending_rows (stmt : Stmt) (topic : string) (buckets : list string) : PyM W (list (doc unit)) :=
  match buckets with
  | [] => mret []
  | bucket :: rest =>
      rows ← cs_execute stmt (Some [DStr topic; DStr bucket; DStr (status_text PENDING)]);
      more ← pending_rows stmt topic rest;
      mret (default [] rows ++ more)
  end.

Definition CassandraOutboxStore_get_pending (now : Z) (topic : string) (limit : Z) : PyM W (list (doc unit)) :=
  let buckets := [CassandraOutboxStore_bucket_hour 0 now; CassandraOutboxStore_bucket_hour 0 (now - us_per_hour)] in
  stmt ← cs_prepare (pending_cql table limit);
  pending_rows stmt topic buckets.

Definition CassandraOutboxStore_mark_dispatched (record_id : string) : PyM W unit :=
  stmt ← cs_prepare (update_cql table);
  cs_execute stmt (Some [DStr (status_text DISPATCHED); DStr record_id]) ;; mret tt.

End OutboxStore.

(** ** CQL

    The statements a client may send, of those the grammar of CQL has with keywords in upper
    case and one column in the condition: their text is cut into words and marks, and read
    by its form.  Names that are not quoted are in lower case and not reserved. *)

Inductive cql :=
| CqlSelect (table column : string) (filtering : bool)
| CqlInsert (table : string) (columns : list string) (markers : nat)
| CqlDelete (table column : string)
| CqlTruncate (table : string).

Definition name_char (c : ascii) : bool :=
  let n := Ascii.nat_of_ascii c in
  ((97 <=? n) && (n <=? 122) || (48 <=? n) && (n <=? 57) || (n =? 95))%nat.

Definition reserved : list string :=
  ["add"; "allow"; "alter"; "and"; "apply"; "asc"; "authorize"; "batch"; "begin"; "by"; "columnfamily"; "create"; "delete"; "desc";
   "describe"; "drop"; "entries"; "execute"; "from"; "full"; "grant"; "if"; "in"; "index"; "infinity"; "insert"; "into"; "is"; "keyspace"; "limit";
   "materialized"; "modify"; "nan"; "norecursive"; "not"; "null"; "of"; "on"; "or"; "order"; "primary"; "rename"; "replace"; "revoke"; "schema";
   "select"; "set"; "table"; "to"; "token"; "truncate"; "unlogged"; "update"; "use"; "using"; "view"; "where"; "with"].

Definition is_name (s : string) : bool :=
  match s with
  | "" => false
  | String c _ => negb (is_digit c) && negb (Ascii.eqb c "_") && str_all name_char s && negb (existsb (String.eqb s) reserved)
  end.

(** [name] or [keyspace.name]. *)
Definition is_table_name (s : string) : bool :=
  str_all (λ c, name_char c || Ascii.eqb c ".") s &&
  match split_on "." s with
  | [t] => is_name t
  | [ks; t] => is_name ks && is_name t
  | _ => false
  end.

Definition flush (word : string) : list string := if String.eqb word "" then [] else [word].

Definition is_mark (c : ascii) : bool := existsb (Ascii.eqb c) ["("; ")"; ","; "="; "?"; "*"; ";"]%char.

Fixpoint lex (word s : string) : list string :=
  match s with
  | "" => flush word
  | String c s' =>
      if Ascii.eqb c " " then flush word ++ lex "" s'
      else if is_mark c then flush word ++ String c "" :: lex "" s'
      else lex (word +:+ String c "") s'
  end.

Fixpoint strip_words (ws ts : list string) : option (list string) :=
  match ws, ts with
  | [], _ => Some ts
  | w :: ws', t :: ts' => if String.eqb w t then strip_words ws' ts' else None
  | _, [] => None
  end.

(** Items between commas, up to the closing parenthesis. *)
Fixpoint parse_items (item : string → bool) (ts : list string) : option (list string * list string) :=
  match ts with
  | t :: mark :: ts' =>
      if item t then
        if String.eqb mark "," then '(l, rest) ← parse_items item ts'; Some (t :: l, rest)
        else if String.eqb mark ")" then Some ([t], ts') else None
      else None
  | _ => None
  end.

Definition parse_table (ts : list string) : option (string * list string) :=
  match ts with t :: ts' => if is_table_name t then Some (t, ts') else None | [] => None end.

Definition parse_where (ts : list string) : option (string * list string) :=
  ts ← strip_words ["WHERE"] ts;
  match ts with
  | c :: ts' => if is_name c then rest ← strip_words ["="; "?"] ts'; Some (c, rest) else None
  | [] => None
  end.

Definition parse_select (ts : list string) : option cql :=
  ts ← strip_words ["SELECT"; "*"; "FROM"] ts;
  '(t, ts) ← parse_table ts;
  '(c, ts) ← parse_where ts;
  match ts with
  | [] => Some (CqlSelect t c false)
  | _ => if decide (ts = ["ALLOW"; "FILTERING"]) then Some (CqlSelect t c true) else None
  end.

Definition parse_insert (ts : list string) : option cql :=
  ts ← strip_words ["INSERT"; "INTO"] ts;
  '(t, ts) ← parse_table ts;
  ts ← strip_words ["("] ts;
  '(columns, ts) ← parse_items is_name ts;
  ts ← strip_words ["VALUES"; "("] ts;
  '(markers, ts) ← parse_items (String.eqb "?") ts;
  match ts with [] => Some (CqlInsert t columns (length markers)) | _ => None end.

Definition parse_delete (ts : list string) : option cql :=
  ts ← strip_words ["DELETE"; "FROM"] ts;
  '(t, ts) ← parse_table ts;
  '(c, ts) ← parse_where ts;
  match ts with [] => Some (CqlDelete t c) | _ => None end.

Definition parse_truncate (ts : list string) : option cql :=
  ts ← strip_words ["TRUNCATE"] ts;
  '(t, ts) ← parse_table ts;
  match ts with [] => Some (CqlTruncate t) | _ => None end.

Definition parse_cql (text : string) : option cql :=
  let ts := lex "" text in
  match parse_select ts with
  | Some st => Some st
  | None => match parse_insert ts with
            | Some st => Some st
            | None => match parse_delete ts with Some st => Some st | None => parse_truncate ts end
            end
  end.

(** ** The contract of a table *)

Section Cql.
Context {V : Type} `{EqDecision V} (null : V) (table pk : string) (columns : list string).
#[local] Abbreviation row := (list (string * V)).

(** The statements that can be prepared for a table of [columns] with the single primary key
    [pk]: a condition on another column is for reading only, and must allow filtering; an
    insert has a column once, the key among them, and a marker for each. *)
Definition valid_cql (st : cql) : Prop :=
  match st with
  | CqlSelect t c filtering => t = table ∧ (c = pk ∨ (c ∈ columns ∧ filtering = true))
  | CqlInsert t cs n => t = table ∧ n = length cs ∧ NoDup cs ∧ cs ⊆ columns ∧ pk ∈ cs
  | CqlDelete t c => t = table ∧ c = pk
  | CqlTruncate t => t = table
  end.

(** As many values as markers; a key is not null, nor what a condition compares with. *)
Definition bound_cql (st : cql) (params : list V) : Prop :=
  match st with
  | CqlSelect _ _ _ | CqlDelete _ _ => ∃ v, params = [v] ∧ v ≠ null
  | CqlInsert _ cs n => length params = n ∧ ∃ k, od_get pk (zip cs params) = Some k ∧ k ≠ null
  | CqlTruncate _ => params = []
  end.

(** An insert writes the columns it names over those of the row there is, which is the null
    row when there is none. *)
Definition upserted (body : row) (old : option row) : row :=
  map (λ c, (c, default (default null (old ≫= od_get c)) (od_get c body))) columns.

(** The rows after a statement; a table is a partial function from keys to rows. *)
Definition cql_apply (st : cql) (params : list V) (f : V → option row) (k' : V) : option row :=
  match st with
  | CqlSelect _ _ _ => f k'
  | CqlInsert _ cs _ =>
      match od_get pk (zip cs params) with
      | Some k => if decide (k' = k) then Some (upserted (zip cs params) (f k)) else f k'
      | None => f k'
      end
  | CqlDelete _ _ => if decide ([k'] = params) then None else f k'
  | CqlTruncate _ => None
  end.

(** The rows a condition selects, each once, in any order. *)
Definition selects (f : V → option row) (column : string) (v : V) (rows : list row) : Prop :=
  NoDup rows ∧ ∀ r, r ∈ rows ↔ ∃ k, f k = Some r ∧ od_get column r = Some v.

Definition cql_answer (st : cql) (params : list V) (f : V → option row) (answer : option (list row)) : Prop :=
  match st, params with
  | CqlSelect _ c _, [v] => ∃ rows, answer = Some rows ∧ selects f c v rows
  | _, _ => True
  end.

End Cql.

(** What a session does with a statement is what its text says. *)
Class CqlTable (W Stmt V : Type) `{CqlSession W Stmt V, EqDecision V} (null : V) (table pk : string) (columns : list string) := {
  ct_rows : W → V → option (list (string * V));
  ct_key w k r : ct_rows w k = Some r → od_get pk r = Some k;
  ct_prepare text st w : parse_cql text = Some st → valid_cql table pk columns st →
    ∃ stmt w', cs_prepare text w = (Return stmt, w') ∧ cs_query_string stmt = text ∧ ∀ k, ct_rows w' k = ct_rows w k;
  ct_execute stmt st params w :
    parse_cql (cs_query_string stmt) = Some st → valid_cql table pk columns st → bound_cql null pk st params →
    ∃ answer w', cs_execute stmt (Some params) w = (Return answer, w') ∧
      cql_answer st params (ct_rows w) answer ∧
      ∀ k, ct_rows w' k = cql_apply null pk columns st params (ct_rows w) k;
}.

#[export] Instance dval_eq_dec : EqDecision (dval unit).
Proof. solve_decision. Defined.

Definition InvalidRequest (msg : string) : pyexn := exn_of ["InvalidRequest"; "RequestExecutionException"] msg.

Definition outbox_columns : list string :=
  ["id"; "aggregate_id"; "aggregate_type"; "event_type"; "topic"; "payload"; "headers"; "status"; "created_at";
   "dispatched_at"; "retry_count"; "last_error"; "bucket_hour"].

(** Rows that agree on the columns of the primary key. *)
Definition same_key (key : list string) (a b : doc unit) : Prop := Forall (λ c, od_get c a = od_get c b) key.

#[export] Instance same_key_dec key a b : Decision (same_key key a b).
Proof. apply Forall_dec. intros c. apply _. Defined.

(** The outbox table with the columns [key] as primary key.  An insert replaces the row of the
    same key; an update must name every column of the key in its [WHERE]. *)
Class OutboxTable (W Stmt : Type) `{CqlSession W Stmt (dval unit)} (table : string) (key : list string) := {
  ot_rows : W → list (doc unit);
  ot_prepare cql w : ∃ stmt w', cs_prepare cql w = (Return stmt, w') ∧ cs_query_string stmt = cql ∧ ot_rows w' = ot_rows w;
  ot_insert stmt row w : cs_query_string stmt = insert_cql table outbox_columns → row.*1 = outbox_columns →
    ∃ a w', cs_execute stmt (Some row.*2) w = (Return a, w') ∧
      ot_rows w' ≡ₚ row :: filter (λ r, ¬ same_key key r row) (ot_rows w);
  ot_select stmt topic bucket status limit w : cs_query_string stmt = pending_cql table limit → (0 < limit)%Z →
    ∃ rows, cs_execute stmt (Some [DStr topic; DStr bucket; DStr status]) w = (Return (Some (take (Z.to_nat limit) rows)), w) ∧
      rows ≡ₚ filter (λ r, od_get "topic" r = Some (DStr topic) ∧ od_get "bucket_hour" r = Some (DStr bucket) ∧
                           od_get "status" r = Some (DStr status)) (ot_rows w);
  ot_update_partial stmt vals w : cs_query_string stmt = update_cql table → (∃ c, c ∈ key ∧ c ≠ "id") →
    ∃ msg, cs_execute stmt (Some vals) w = (Raise (InvalidRequest msg), w);
}.

(** ** Lemmas *)

(** *** The calendar *)

Lemma civil_year_bounds doe :
  (0 <= doe < 146097)%Z →
  let yoe := ((doe - doe / 1460 + doe / 36524 - doe / 146096) / 365)%Z in
  (0 <= yoe < 400)%Z ∧ (0 <= doe - (365 * yoe + yoe / 4 - yoe / 100) <= 365)%Z.
Proof. intros H yoe. subst yoe. split; Z.to_euclidean_division_equations; lia. Qed.

Lemma civil_ranges days : (1 <= cv_month (civil_of_days days) <= 12)%Z ∧ (1 <= cv_day (civil_of_days days) <= 31)%Z.
Proof.
  unfold civil_of_days. cbn [cv_month cv_day].
  pose proof (Z.mod_pos_bound (days + 719468) 146097 ltac:(lia)) as Hdoe.
  destruct (civil_year_bounds _ Hdoe) as [_ Hdoy].
  set (doe := ((days + 719468) mod 146097)%Z) in *. set (yoe := ((doe - doe / 1460 + doe / 36524 - doe / 146096) / 365)%Z) in *.
  set (doy := (doe - (365 * yoe + yoe / 4 - yoe / 100))%Z) in *. clearbody doy. clear Hdoe yoe doe.
  destruct (Z.ltb_spec ((5 * doy + 2) / 153) 10); Z.to_euclidean_division_equations; lia.
Qed.

(** A date is the date of one day. *)
Lemma civil_of_days_inj days days' : civil_of_days days = civil_of_days days' → days = days'.
Proof.
  unfold civil_of_days. intros [= Hy Hm Hd].
  pose proof (Z.mod_pos_bound (days + 719468) 146097 ltac:(lia)) as Hb.
  pose proof (Z.mod_pos_bound (days' + 719468) 146097 ltac:(lia)) as Hb'.
  pose proof (Z.div_mod (days + 719468) 146097 ltac:(lia)) as Hz.
  pose proof (Z.div_mod (days' + 719468) 146097 ltac:(lia)) as Hz'.
  destruct (civil_year_bounds _ Hb) as [Hyoe Hdoy]. destruct (civil_year_bounds _ Hb') as [Hyoe' Hdoy'].
  set (doe := ((days + 719468) mod 146097)%Z) in *. set (doe' := ((days' + 719468) mod 146097)%Z) in *.
  set (era := ((days + 719468) / 146097)%Z) in *. set (era' := ((days' + 719468) / 146097)%Z) in *.
  set (yoe := ((doe - doe / 1460 + doe / 36524 - doe / 146096) / 365)%Z) in *.
  set (yoe' := ((doe' - doe' / 1460 + doe' / 36524 - doe' / 146096) / 365)%Z) in *.
  clearbody yoe yoe' doe doe' era era'.
  set (doy := (doe - (365 * yoe + yoe / 4 - yoe / 100))%Z) in *.
  set (doy' := (doe' - (365 * yoe' + yoe' / 4 - yoe' / 100))%Z) in *.
  rewrite Hm in Hy. set (mp := ((5 * doy + 2) / 153)%Z) in *. set (mp' := ((5 * doy' + 2) / 153)%Z) in *.
  assert (0 <= mp <= 11)%Z by (subst mp; Z.to_euclidean_division_equations; lia).
  assert (0 <= mp' <= 11)%Z by (subst mp'; Z.to_euclidean_division_equations; lia).
  assert (mp = mp') as Hmp by (destruct (Z.ltb_spec mp 10), (Z.ltb_spec mp' 10); lia).
  assert (doy = doy') as Hdd by (rewrite Hmp in Hd; lia).
  assert (yoe = yoe') as Hyy by lia. assert (era = era') as Hee by lia.
  assert (doe = doe') by (subst doy doy'; rewrite Hyy in Hdd; lia). lia.
Qed.

(** *** Texts *)

(** The number two digits stand for. *)
Definition digits_value (s : string) : Z :=
  match s with
  | String a (String b _) => (10 * (Z.of_nat (Ascii.nat_of_ascii a) - 48) + (Z.of_nat (Ascii.nat_of_ascii b) - 48))%Z
  | _ => (-1)%Z
  end.

Lemma two_digits_value n : (0 <= n < 100)%Z → digits_value (two_digits n) = n ∧ String.length (two_digits n) = 2%nat.
Proof.
  intros Hn. assert (Forall (λ n, digits_value (two_digits n) = n ∧ String.length (two_digits n) = 2%nat) (seqZ 0 100)) as H.
  { repeat (apply Forall_cons; split; [by split|]). by apply Forall_nil. }
  rewrite Forall_forall in H. apply H. apply elem_of_seqZ. lia.
Qed.

Lemma two_digits_inj a b : (0 <= a < 100)%Z → (0 <= b < 100)%Z → two_digits a = two_digits b → a = b.
Proof.
  intros Ha Hb Heq. destruct (two_digits_value a Ha) as [<- _], (two_digits_value b Hb) as [<- _]. by rewrite Heq.
Qed.

(** Two hours with the same text are the same hour. *)
Lemma hour_text_inj h h' : hour_text h = hour_text h' → h = h'.
Proof.
  unfold hour_text. destruct (civil_ranges (h / 24)) as [Hm Hd], (civil_ranges (h' / 24)) as [Hm' Hd'].
  pose proof (Z.mod_pos_bound h 24 ltac:(lia)) as Hh. pose proof (Z.mod_pos_bound h' 24 ltac:(lia)) as Hh'.
  destruct (civil_of_days (h / 24)) as [y m d] eqn:E, (civil_of_days (h' / 24)) as [y' m' d'] eqn:E'. simpl in *.
  assert (∀ n, (0 <= n < 100)%Z → String.length (two_digits n) = 2%nat) as Hl by (intros n Hn; apply two_digits_value; lia).
  intros Heq. apply app_split_str in Heq as [Hy Heq]; [|rewrite !length_app_str, !Hl; lia].
  injection Heq as Heq. assert (∀ a b s t, (0 <= a < 100)%Z → (0 <= b < 100)%Z → two_digits a +:+ s = two_digits b +:+ t → a = b ∧ s = t) as Hs.
  { intros a b s t Ha Hb Hab. apply app_pieces_str in Hab as [Hab ->]; [|by rewrite !Hl]. split; [|done]. by apply two_digits_inj. }
  apply Hs in Heq as [-> Heq]; [|lia..]. injection Heq as Heq. apply Hs in Heq as [-> Heq]; [|lia..]. injection Heq as Heq.
  apply Hs in Heq as [Hmod _]; [|lia..]. apply (inj pretty) in Hy as ->. assert (h / 24 = h' / 24)%Z by (apply civil_of_days_inj; congruence).
  pose proof (Z.div_mod h 24 ltac:(lia)). pose proof (Z.div_mod h' 24 ltac:(lia)). lia.
Qed.

(** *** The cache of statements *)

Inductive repo_call (V T : Type) :=
  | RGet (k : V) | RSave (x : T) | RDelete (k : V) | RFind (column : string) (value : V).
Arguments RGet {V T} k.
Arguments RSave {V T} x.
Arguments RDelete {V T} k.
Arguments RFind {V T} column value.

Inductive repo_answer (T : Type) := AFound (x : option T) | ADone | AList (l : list T).
Arguments AFound {T} x.
Arguments ADone {T}.
Arguments AList {T} l.

Section Calls.
Context {W Stmt V T : Type} `{CqlSession W Stmt V} (table pk : string) (model : list (string * V) → outcome T) (to_dict : T → list (string * V)).

Definition repo_step (c : repo_call V T) : PyM (list (string * Stmt) * W) (repo_answer T) :=
  match c with
  | RGet k => x ← CassandraRepository_get table pk model k; mret (AFound x)
  | RSave x => CassandraRepository_save table to_dict x ;; mret ADone
  | RDelete k => CassandraRepository_delete table pk k ;; mret ADone
  | RFind column v => l ← CassandraRepository_find_by table model column v; mret (AList l)
  end.

End Calls.

(** A session that also keeps the texts it has prepared. *)
Definition logged_session {W Stmt V} `{CqlSession W Stmt V} : CqlSession (list string * W) Stmt V := {|
  cs_prepare cql := stmt ← on_snd (cs_prepare cql); updates (λ s, (fst s ++ [cql], snd s)) ;; mret stmt;
  cs_execute stmt params := on_snd (cs_execute stmt params);
  cs_query_string := cs_query_string;
|}.

Section Prepared.
Context {W Stmt V T : Type} `{S : CqlSession W Stmt V}.
#[local] Existing Instance logged_session | 0.

(** The cache holds the statements prepared so far, each once. *)
Definition cache_logged (s : list (string * Stmt) * (list string * W)) : Prop :=
  (fst s).*1 = fst (snd s) ∧ NoDup (fst s).*1.

Lemma exec_logged cql (params : list V) :
  triple cache_logged (CassandraRepository_exec (H := logged_session) cql params) (λ _, cache_logged) (λ _, cache_logged).
Proof.
  eapply (triple_bind _ _ _ (λ _, cache_logged)).
  - intros [cache [log w]] [Hk Hn]. unfold CassandraRepository_prepare. simpl in *. unfold mbind, PyM_bind, reads; simpl.
    destruct (od_get cql cache) as [stmt|] eqn:E; [by split|]. unfold on_snd; simpl. unfold mbind, PyM_bind; simpl.
    destruct (cs_prepare cql w) as [[stmt|e] w'] eqn:Ep; simpl; [|by split].
    apply od_get_None in E. unfold cache_logged. simpl. rewrite od_set_keys_new by done. rewrite fmap_app, Hk. split; [done|].
    rewrite <- Hk. simpl. apply NoDup_app. split_and!; [done| |apply NoDup_singleton]. intros x Hx ->%list_elem_of_singleton. done.
  - intros stmt [cache [log w]] [Hk Hn]. unfold on_snd; simpl. unfold on_snd; simpl.
    match goal with |- context [cs_execute ?st ?ps ?x] => by destruct (cs_execute st ps x) as [[a|e] w'] end.
Qed.

Lemma repo_step_logged table pk (model : list (string * V) → outcome T) to_dict c :
  triple cache_logged (repo_step (H := logged_session) table pk model to_dict c) (λ _, cache_logged) (λ _, cache_logged).
Proof.
  destruct c; (eapply (triple_bind _ _ _ (λ _, cache_logged)); [|intros; by apply triple_ret]);
    (eapply (triple_bind _ _ _ (λ _, cache_logged)); [apply exec_logged|]); intros a; try (by apply triple_ret).
  - destruct a as [[|row rows]|]; [by apply triple_ret| |by apply triple_ret].
    eapply (triple_bind _ _ _ (λ _, cache_logged)); [|intros; by apply triple_ret]. intros s Hs. unfold from_outcome. by destruct (model row).
  - intros s Hs. unfold from_outcome. by destruct (mapM model (default [] a)).
Qed.

End Prepared.

(** *** The texts are read as what they are meant to be *)

Definition word_char (c : ascii) : bool := negb (Ascii.eqb c " ") && negb (is_mark c).

Lemma lex_word w s : ∀ acc, str_all word_char w = true → lex acc (w +:+ s) = lex (acc +:+ w) s.
Proof.
  induction w as [|c w IH]; intros acc; [by rewrite app_nil_r_str|]. simpl str_all. unfold word_char at 1.
  rewrite !andb_true_iff, !negb_true_iff. intros [[Hc Hm] Hw]. change (String c w +:+ s) with (String c (w +:+ s)). cbn [lex].
  rewrite Hc, Hm, IH by done. by rewrite app_assoc_str.
Qed.

Lemma name_word_char c : name_char c = true → word_char c = true.
Proof. destruct c as [[] [] [] [] [] [] [] []]; by vm_compute. Qed.

(** A word and the mark or blank that ends it. *)
Lemma lex_name w c s :
  str_all word_char w = true → w ≠ "" → word_char c = false →
  lex "" (w +:+ String c s) = w :: lex "" (String c s).
Proof.
  intros Hw Hne Hc. rewrite lex_word by done. change ("" +:+ w) with w. cbn [lex].
  unfold word_char in Hc. apply andb_false_iff in Hc. assert (flush w = [w]) as -> by (unfold flush; by destruct (String.eqb_spec w "")).
  destruct (Ascii.eqb c " ") eqn:E; [done|]. destruct Hc as [Hc|Hc]; [done|]. apply negb_false_iff in Hc. by rewrite Hc.
Qed.

Lemma is_name_word s : is_name s = true → str_all word_char s = true ∧ s ≠ "".
Proof.
  unfold is_name. destruct s as [|c s]; [done|]. rewrite !andb_true_iff. intros [[_ H] _]. split; [|done].
  by apply (str_all_impl _ _ _ name_word_char).
Qed.

Lemma is_table_name_word s : is_table_name s = true → str_all word_char s = true ∧ s ≠ "".
Proof.
  unfold is_table_name. rewrite andb_true_iff. intros [H Hs]. split; [|by intros ->].
  apply (str_all_impl _ _ _) with (2 := H). intros c [Hc| ->%Ascii.eqb_eq]%orb_true_iff; [by apply name_word_char|done].
Qed.

Lemma parse_items_lex item xs s :
  (∀ x c s, item x = true → c = ","%char ∨ c = ")"%char → lex "" (x +:+ String c s) = x :: String c "" :: lex "" s) →
  xs ≠ [] → Forall (λ x, item x = true) xs →
  parse_items item (lex "" (join ", " xs +:+ String ")" s)) = Some (xs, lex "" s).
Proof.
  intros Hlex Hne Hxs. induction Hxs as [|x xs Hx Hxs IH]; [done|]. destruct xs as [|x' xs].
  - cbn [join]. rewrite Hlex by auto. simpl. by rewrite Hx.
  - change (join ", " (x :: x' :: xs)) with (x +:+ (String "," (String " " (join ", " (x' :: xs))))). rewrite app_assoc_str.
    change (String "," ?a +:+ ?b) with (String "," (a +:+ b)). rewrite Hlex by auto.
    change (lex "" (String " " (join ", " (x' :: xs)) +:+ String ")" s)) with (lex "" (join ", " (x' :: xs) +:+ String ")" s)).
    cbn [parse_items]. rewrite Hx, IH by done. reflexivity.
Qed.

Section Texts.
Context (table : string) (Htable : is_table_name table = true).

Lemma parse_where_lex c s : is_name c = true → parse_where (lex "" (" WHERE " +:+ c +:+ (" = ?" +:+ s))) = Some (c, lex "" s).
Proof.
  intros Hc. destruct (is_name_word c Hc) as [Hw Hne].
  change (lex "" (" WHERE " +:+ ?x)) with ("WHERE" :: lex "" x). change (" = ?" +:+ s) with (String " " ("= ?" +:+ s)).
  rewrite lex_name by done. change (lex "" (String " " ("= ?" +:+ s))) with ("=" :: "?" :: lex "" s).
  unfold parse_where. simpl. by rewrite Hc.
Qed.

Lemma parse_table_lex s : parse_table (lex "" (table +:+ String " " s)) = Some (table, lex "" (String " " s)).
Proof using Htable. destruct (is_table_name_word table Htable). rewrite lex_name by done. simpl. by rewrite Htable. Qed.

Lemma parse_select_text pk : is_name pk = true → parse_cql (select_cql table pk) = Some (CqlSelect table pk false).
Proof using Htable.
  intros Hpk. unfold parse_cql, select_cql, parse_select.
  change (lex "" ("SELECT * FROM " +:+ ?x)) with ("SELECT" :: "*" :: "FROM" :: lex "" x). cbn [strip_words String.eqb Ascii.eqb Bool.eqb mbind option_bind].
  change (" WHERE " +:+ pk +:+ " = ?") with (String " " ("WHERE " +:+ (pk +:+ " = ?"))). rewrite parse_table_lex. cbn [mbind option_bind].
  change (String " " ("WHERE " +:+ (pk +:+ " = ?"))) with (" WHERE " +:+ pk +:+ (" = ?" +:+ "")). by rewrite parse_where_lex.
Qed.

Lemma parse_find_text c : is_name c = true → parse_cql (find_cql table c) = Some (CqlSelect table c true).
Proof using Htable.
  intros Hc. unfold parse_cql, find_cql, parse_select.
  change (lex "" ("SELECT * FROM " +:+ ?x)) with ("SELECT" :: "*" :: "FROM" :: lex "" x). cbn [strip_words String.eqb Ascii.eqb Bool.eqb mbind option_bind].
  change (" WHERE " +:+ c +:+ " = ? ALLOW FILTERING") with (String " " ("WHERE " +:+ (c +:+ " = ? ALLOW FILTERING"))). rewrite parse_table_lex. cbn [mbind option_bind].
  change (String " " ("WHERE " +:+ (c +:+ " = ? ALLOW FILTERING"))) with (" WHERE " +:+ c +:+ (" = ?" +:+ " ALLOW FILTERING")). by rewrite parse_where_lex.
Qed.

Lemma parse_delete_text pk : is_name pk = true → parse_cql (delete_cql table pk) = Some (CqlDelete table pk).
Proof using Htable.
  intros Hpk. unfold parse_cql, delete_cql, parse_select, parse_insert, parse_delete.
  change (lex "" ("DELETE FROM " +:+ ?x)) with ("DELETE" :: "FROM" :: lex "" x). cbn [strip_words String.eqb Ascii.eqb Bool.eqb mbind option_bind].
  change (" WHERE " +:+ pk +:+ " = ?") with (String " " ("WHERE " +:+ (pk +:+ " = ?"))). rewrite parse_table_lex. cbn [mbind option_bind].
  change (String " " ("WHERE " +:+ (pk +:+ " = ?"))) with (" WHERE " +:+ pk +:+ (" = ?" +:+ "")). by rewrite parse_where_lex.
Qed.

Lemma parse_insert_text cs :
  cs ≠ [] → Forall (λ c, is_name c = true) cs → parse_cql (insert_cql table cs) = Some (CqlInsert table cs (length cs)).
Proof using Htable.
  intros Hne Hcs. unfold parse_cql, insert_cql, parse_select, parse_insert.
  change (lex "" ("INSERT INTO " +:+ ?x)) with ("INSERT" :: "INTO" :: lex "" x). cbn [strip_words String.eqb Ascii.eqb Bool.eqb mbind option_bind].
  change (" (" +:+ ?x) with (String " " (String "(" x)). rewrite parse_table_lex. cbn [mbind option_bind].
  change (lex "" (String " " (String "(" ?x))) with ("(" :: lex "" x). cbn [strip_words String.eqb Ascii.eqb Bool.eqb mbind option_bind].
  change (") VALUES (" +:+ ?x) with (String ")" (" VALUES (" +:+ x)). rewrite parse_items_lex; [|by intros x c s [Hx ?]%is_name_word [->| ->]; rewrite lex_name|done..].
  cbn [mbind option_bind]. change (lex "" (" VALUES (" +:+ ?x)) with ("VALUES" :: "(" :: lex "" x). cbn [strip_words String.eqb Ascii.eqb Bool.eqb mbind option_bind].
  change ")" with (String ")" ""). rewrite parse_items_lex.
  - simpl. by rewrite length_replicate.
  - intros x c s Hx Hc. apply (String.eqb_eq "?" x) in Hx as <-. by destruct Hc as [->| ->].
  - by destruct cs.
  - by apply Forall_replicate.
Qed.

End Texts.

(** *** The repository as a partial function

    What the calls do to the rows, and their answers, with no session in sight. *)
Section Abstract.
Context {V T : Type} `{EqDecision V} (null : V) (pk : string) (columns : list string).
Context (model : list (string * V) → outcome T) (to_dict : T → list (string * V)).
Implicit Types (f : V → option (list (string * V))).

(** The calls that are described: what is saved has columns of the table, the key among them,
    and keys are not null. *)
Definition abs_call (c : repo_call V T) : Prop :=
  match c with
  | RGet k | RDelete k => k ≠ null
  | RSave x => NoDup (to_dict x).*1 ∧ (to_dict x).*1 ⊆ columns ∧ ∃ k, od_get pk (to_dict x) = Some k ∧ k ≠ null
  | RFind column v => column ∈ columns ∧ v ≠ null
  end.

Definition abs_answer (c : repo_call V T) f (o : outcome (repo_answer T)) : Prop :=
  match c with
  | RGet k => o = match f k with Some r => x ← model r; Return (AFound (Some x)) | None => Return (AFound None) end
  | RFind column v => ∃ rows, selects f column v rows ∧ o = (l ← mapM model rows; Return (AList l))
  | _ => o = Return ADone
  end.

Definition abs_after (c : repo_call V T) f : V → option (list (string * V)) :=
  match c with
  | RSave x => λ k', if decide (od_get pk (to_dict x) = Some k') then Some (upserted null columns (to_dict x) (f k')) else f k'
  | RDelete k => λ k', if decide (k' = k) then None else f k'
  | _ => f
  end.

Fixpoint abs_run f (calls : list (repo_call V T)) (answers : list (outcome (repo_answer T))) : Prop :=
  match calls, answers with
  | [], [] => True
  | c :: calls', o :: answers' => abs_answer c f o ∧ abs_run (abs_after c f) calls' answers'
  | _, _ => False
  end.

End Abstract.

(** *** The repository over a table *)

Section TableLemmas.
Context {W Stmt V T : Type} `{CqlTable W Stmt V null table pk columns} (model : list (string * V) → outcome T) (to_dict : T → list (string * V)).
Context (Htable : is_table_name table = true) (Hnames : Forall (λ c, is_name c = true) columns) (Hpk : pk ∈ columns).
Implicit Types (s : list (string * Stmt) * W).

Definition cache_ok s : Prop := ∀ cql stmt, od_get cql (fst s) = Some stmt → cs_query_string stmt = cql.

Lemma repo_prepare_spec text st s :
  parse_cql text = Some st → valid_cql table pk columns st → cache_ok s →
  ∃ stmt s', CassandraRepository_prepare text s = (Return stmt, s') ∧ cs_query_string stmt = text ∧ cache_ok s' ∧
    ∀ k, ct_rows (snd s') k = ct_rows (snd s) k.
Proof.
  intros Hp Hv Hs. unfold CassandraRepository_prepare, mbind, PyM_bind, reads. destruct (od_get text (fst s)) as [stmt|] eqn:E.
  - exists stmt, s. split_and!; [done|by apply Hs|done..].
  - unfold on_snd. destruct (ct_prepare text st (snd s) Hp Hv) as (stmt & w' & -> & Hq & Hr). exists stmt. eexists. split; [done|].
    split_and!; [done| |done]. intros c st'. simpl. destruct (decide (c = text)) as [->|Hne].
    + rewrite od_get_set_eq. by intros [= <-].
    + rewrite od_get_set_ne by done. apply Hs.
Qed.

(** A statement that is valid and bound does what its text says. *)
Lemma repo_exec_spec text st params s f :
  parse_cql text = Some st → valid_cql table pk columns st → bound_cql null pk st params → params ≠ [] →
  cache_ok s → (∀ k, ct_rows (snd s) k = f k) →
  ∃ answer s', CassandraRepository_exec text params s = (Return answer, s') ∧ cache_ok s' ∧ cql_answer st params f answer ∧
    ∀ k, ct_rows (snd s') k = cql_apply null pk columns st params f k.
Proof.
  intros Hp Hv Hb Hne Hs Hf. destruct (repo_prepare_spec text st s Hp Hv Hs) as (stmt & [c w] & Hprep & Hq & Hs' & Hk). cbn [snd] in Hk.
  unfold CassandraRepository_exec, mbind, PyM_bind. rewrite Hprep. unfold on_snd. cbn [snd fst].
  assert ((match params with [] => None | _ => Some params end) = Some params) as -> by by destruct params.
  destruct (ct_execute stmt st params w) as (answer & w' & -> & Ha & Hr); [by rewrite Hq | done..|].
  assert (Hwf : ∀ k, ct_rows w k = f k) by (intros k; by rewrite Hk). exists answer, (c, w'). split_and!; [done..| |].
  - destruct st, params as [|v []]; try done. destruct Ha as (rows & -> & Hn & Hin). exists rows. split; [done|]. split; [done|].
    intros r. rewrite Hin. by setoid_rewrite Hwf.
  - intros k. cbn [snd]. rewrite Hr. destruct st; cbn [cql_apply]; by repeat case_match; rewrite ?Hwf.
Qed.

Lemma names_of c : c ∈ columns → is_name c = true.
Proof using Hnames. rewrite Forall_forall in Hnames. apply Hnames. Qed.

Lemma repo_get_refines k s f :
  k ≠ null → cache_ok s → (∀ k, ct_rows (snd s) k = f k) →
  ∃ o s', repo_step table pk model to_dict (RGet k) s = (o, s') ∧ cache_ok s' ∧ abs_answer model (RGet k) f o ∧
    ∀ k', ct_rows (snd s') k' = f k'.
Proof using Htable Hnames Hpk.
  intros Hk Hs Hf.
  destruct (repo_exec_spec (select_cql table pk) (CqlSelect table pk false) [k] s f) as (a & s' & He & Hs' & Ha & Hr);
    [by apply parse_select_text; [|apply names_of] | by split; [|left] | by exists k | done..|].
  destruct Ha as (rows & -> & _ & Hin). unfold repo_step, CassandraRepository_get, mbind, PyM_bind. rewrite He. cbn [abs_answer].
  assert (Hrow : ∀ r, r ∈ rows ↔ f k = Some r).
  { intros r. rewrite Hin. split; [|intros Hr'; exists k; split; [done|]; by apply (ct_key (snd s)); rewrite Hf].
    intros (k0 & Hk0 & Hg). assert (od_get pk r = Some k0) as Hg' by (by apply (ct_key (snd s)); rewrite Hf). congruence. }
  destruct rows as [|r rows].
  - assert (f k = None) as -> by (destruct (f k) as [r|]; [|done]; by assert (r ∈ []) as ?%elem_of_nil by by apply Hrow). by eexists _, s'.
  - rewrite (proj1 (Hrow r)) by constructor. unfold from_outcome. destruct (model r); by eexists _, s'.
Qed.

Lemma repo_save_refines x s f :
  abs_call null pk columns to_dict (RSave x) → cache_ok s → (∀ k, ct_rows (snd s) k = f k) →
  ∃ s', repo_step table pk model to_dict (RSave x) s = (Return ADone, s') ∧ cache_ok s' ∧
    ∀ k', ct_rows (snd s') k' = abs_after null pk columns to_dict (RSave x) f k'.
Proof using Htable Hnames Hpk.
  intros (Hd & Hsub & k & Hk & Hnull) Hs Hf. set (body := to_dict x) in *.
  assert (Hzip : zip body.*1 body.*2 = body) by apply zip_fst_snd.
  assert (Hin : pk ∈ body.*1) by (destruct (decide (pk ∈ body.*1)) as [|Hno]; [done|]; apply od_get_None in Hno; congruence).
  destruct (repo_exec_spec (insert_cql table body.*1) (CqlInsert table body.*1 (length body.*1)) body.*2 s f) as (a & s' & He & Hs' & _ & Hr).
  - apply parse_insert_text; [done| |]; [by intros Hnil; rewrite Hnil in Hin; apply elem_of_nil in Hin|].
    apply Forall_forall. intros c Hc. by apply names_of, Hsub.
  - done.
  - split; [by rewrite !length_fmap|]. exists k. by rewrite Hzip.
  - intros Hnil. apply fmap_nil_inv in Hnil. rewrite Hnil in Hk. done.
  - done.
  - done.
  - unfold repo_step, CassandraRepository_save, mbind, PyM_bind. fold body. rewrite He. exists s'. split_and!; [done..|].
    intros k'. rewrite Hr. cbn [cql_apply abs_after]. fold body. rewrite Hzip, Hk.
    destruct (decide (k' = k)) as [->|Hne]; [by rewrite decide_True|]. rewrite decide_False; [done|]. congruence.
Qed.

Lemma repo_step_refines c s f :
  abs_call null pk columns to_dict c → cache_ok s → (∀ k, ct_rows (snd s) k = f k) →
  ∃ o s', repo_step table pk model to_dict c s = (o, s') ∧ cache_ok s' ∧ abs_answer model c f o ∧
    ∀ k, ct_rows (snd s') k = abs_after null pk columns to_dict c f k.
Proof using Htable Hnames Hpk.
  intros Hc Hs Hf. destruct c as [k|x|k|column v].
  - destruct (repo_get_refines k s f Hc Hs Hf) as (o & s' & ?). by exists o, s'.
  - destruct (repo_save_refines x s f Hc Hs Hf) as (s' & ? & ? & ?). by exists (Return ADone), s'.
  - destruct (repo_exec_spec (delete_cql table pk) (CqlDelete table pk) [k] s f) as (a & s' & He & Hs' & _ & Hr);
      [by apply parse_delete_text; [|apply names_of] | done | by exists k | done..|].
    unfold repo_step, CassandraRepository_delete, mbind, PyM_bind. rewrite He. exists (Return ADone), s'. split_and!; [done..|].
    intros k'. rewrite Hr. cbn [cql_apply abs_after]. destruct (decide (k' = k)) as [->|Hne]; [by rewrite decide_True|].
    rewrite decide_False; [done|]. congruence.
  - destruct Hc as [Hin Hv]. destruct (repo_exec_spec (find_cql table column) (CqlSelect table column true) [v] s f) as (a & s' & He & Hs' & Ha & Hr);
      [by apply parse_find_text; [|apply names_of] | by split; [|right] | by exists v | done..|].
    destruct Ha as (rows & -> & Hsel). unfold repo_step, CassandraRepository_find_by, mbind, PyM_bind. rewrite He.
    cbn [default]. unfold from_outcome. exists (l ← mapM model rows; Return (AList l)), s'. split_and!; [|done|by exists rows|done].
    simpl; by destruct (mapM model rows).
Qed.

End TableLemmas.

(** *** The outbox *)

Lemma bucket_hour_eq off off' t t' :
  CassandraOutboxStore_bucket_hour off t = CassandraOutboxStore_bucket_hour off' t' ↔ ((t + off) / us_per_hour = (t' + off') / us_per_hour)%Z.
Proof. unfold CassandraOutboxStore_bucket_hour. split; [apply hour_text_inj|by intros ->]. Qed.

Definition pending_in (topic bucket : string) (row : doc unit) : Prop :=
  od_get "topic" row = Some (DStr topic) ∧ od_get "bucket_hour" row = Some (DStr bucket) ∧ od_get "status" row = Some (DStr (status_text PENDING)).

#[export] Instance pending_in_dec topic bucket row : Decision (pending_in topic bucket row).
Proof. unfold pending_in. apply _. Defined.

Section OutboxLemmas.
Context {W Stmt : Type} `{OutboxTable W Stmt table key}.

Lemma get_pending_spec now topic limit w :
  (0 < limit)%Z →
  ∃ l1 l2 w', CassandraOutboxStore_get_pending table now topic limit w =
      (Return (take (Z.to_nat limit) l1 ++ take (Z.to_nat limit) l2), w') ∧ ot_rows w' = ot_rows w ∧
    l1 ≡ₚ filter (pending_in topic (CassandraOutboxStore_bucket_hour 0 now)) (ot_rows w) ∧
    l2 ≡ₚ filter (pending_in topic (CassandraOutboxStore_bucket_hour 0 (now - us_per_hour))) (ot_rows w).
Proof.
  intros Hl. unfold CassandraOutboxStore_get_pending, mbind, PyM_bind.
  destruct (ot_prepare (pending_cql table limit) w) as (stmt & w' & -> & Hq & Hr).
  destruct (ot_select stmt topic (CassandraOutboxStore_bucket_hour 0 now) (status_text PENDING) limit w' Hq Hl) as (l1 & H1 & P1).
  destruct (ot_select stmt topic (CassandraOutboxStore_bucket_hour 0 (now - us_per_hour)) (status_text PENDING) limit w' Hq Hl) as (l2 & H2 & P2).
  exists l1, l2, w'. cbn [pending_rows]. unfold mbind, PyM_bind. rewrite H1, H2. simpl. rewrite app_nil_r. rewrite <- Hr. done.
Qed.

Lemma save_spec off r w :
  ∃ w', CassandraOutboxStore_save table off r w = (Return tt, w') ∧
    ot_rows w' ≡ₚ outbox_row off r :: filter (λ x, ¬ same_key key x (outbox_row off r)) (ot_rows w).
Proof.
  unfold CassandraOutboxStore_save, mbind, PyM_bind.
  destruct (ot_prepare (insert_cql table (outbox_row off r).*1) w) as (stmt & w1 & -> & Hq & Hr).
  destruct (ot_insert stmt (outbox_row off r) w1 Hq) as (a & w2 & -> & Hw2); [done|]. exists w2. by rewrite <- Hr.
Qed.

End OutboxLemmas.

Lemma elem_of_take_all {A} (n : nat) (l l' : list A) x : l ≡ₚ l' → (length l' <= n)%nat → x ∈ take n l ↔ x ∈ l'.
Proof. intros HP Hn. rewrite take_ge by (by rewrite HP). by rewrite HP. Qed.

(** ** Theorems *)

(** C36: the repository refines a table.  Over a session that does with a statement what CQL says of its
    text - and refuses one whose markers do not match its columns or its values - any
    sequence of lookups, saves, deletes and searches by a column has the answers of a partial
    function from keys to rows: a save writes the columns of the object over the row with its
    key, a delete removes the row with the key and no other, a lookup gives the row and a search
    each row with the value once, in some order - whatever the cache of prepared statements
    holds.  Names are those CQL takes without quotes, keys and values searched for are not null. *)
Theorem repository_refines_table {W Stmt V T} `{CqlTable W Stmt V null table pk columns} (model : list (string * V) → outcome T) to_dict
    (calls : list (repo_call V T)) s :
  is_table_name table = true → Forall (λ c, is_name c = true) columns → pk ∈ columns →
  Forall (abs_call null pk columns to_dict) calls → cache_ok s →
  abs_run null pk columns model to_dict (ct_rows (snd s)) calls (fst (run_each (repo_step table pk model to_dict) calls s)).
Proof.
  intros Ht Hn Hpk Hc Hs. remember (ct_rows (snd s)) as f eqn:E. assert (∀ k, ct_rows (snd s) k = f k) as Hf by (by subst). clear E.
  revert s f Hs Hf. induction Hc as [|c calls Hc _ IH]; intros s f Hs Hf; [done|]. cbn [run_each].
  destruct (repo_step_refines model to_dict Ht Hn Hpk c s f Hc Hs Hf) as (o & s' & -> & Hs' & Ho & Hf').
  specialize (IH s' _ Hs' Hf'). destruct (run_each _ calls s') as [os s'']. by split.
Qed.

(** a statement is prepared once.  Whatever the calls and however they fail, no text is
    prepared a second time by the repository once it has been prepared. *)
Theorem statements_prepared_once {W Stmt V T} `{CqlSession W Stmt V} table pk (model : list (string * V) → outcome T) to_dict calls w :
  NoDup (fst (snd (snd (run_each (repo_step (H := logged_session) table pk model to_dict) calls ([], ([], w)))))).
Proof.
  destruct (run_each_invariant (repo_step (H := logged_session) table pk model to_dict) cache_logged calls ([], ([], w))) as [Hk Hn].
  - apply repo_step_logged.
  - split; [done|]. apply NoDup_nil_2.
  - by rewrite <- Hk.
Qed.

(** the window of the outbox.  With a limit that is large enough, a pending record saved
    in the outbox is returned by [get_pending] exactly in the hour of its bucket and in the
    next one: a record that is not dispatched by then is never returned again. *)
Theorem outbox_window {W Stmt} `{OutboxTable W Stmt table key} off r limit (w : W) :
  or_status r = PENDING → (Z.of_nat (S (length (ot_rows w))) <= limit)%Z →
  ∃ w', CassandraOutboxStore_save table off r w = (Return tt, w') ∧
    ∀ now, ∃ rows w'', CassandraOutboxStore_get_pending table now (or_topic r) limit w' = (Return rows, w'') ∧
      let hour := ((or_created_at r + off) / us_per_hour)%Z in
      outbox_row off r ∈ rows ↔ (hour = now / us_per_hour ∨ hour = now / us_per_hour - 1)%Z.
Proof.
  intros Hst Hlim. destruct (save_spec off r w) as (w' & Hsave & Hrows). exists w'. split; [done|]. intros now.
  assert (length (ot_rows w') <= Z.to_nat limit)%nat as Hlen.
  { rewrite Hrows. simpl. pose proof (length_filter (λ x, ¬ same_key key x (outbox_row off r)) (ot_rows w)). lia. }
  destruct (get_pending_spec now (or_topic r) limit w' ltac:(lia)) as (l1 & l2 & w'' & Hget & _ & P1 & P2).
  exists (take (Z.to_nat limit) l1 ++ take (Z.to_nat limit) l2), w''. split; [done|]. cbn zeta.
  rewrite elem_of_app, !(elem_of_take_all _ _ _ _ P1), !(elem_of_take_all _ _ _ _ P2) by (etrans; [apply length_filter|done]).
  rewrite !list_elem_of_filter, Hrows, elem_of_cons.
  assert (∀ b, pending_in (or_topic r) b (outbox_row off r) ↔ CassandraOutboxStore_bucket_hour off (or_created_at r) = b) as Hp.
  { intros b. unfold pending_in. cbn. rewrite Hst. naive_solver. }
  rewrite !Hp, !bucket_hour_eq. replace ((now - us_per_hour + 0) / us_per_hour)%Z with (now / us_per_hour - 1)%Z.
  - rewrite Z.add_0_r. tauto.
  - replace (now - us_per_hour + 0)%Z with (now + (-1) * us_per_hour)%Z by lia. rewrite Z.div_add by done. lia.
Qed.

(** with the documented partition key, dispatching is refused.  When the primary key has a
    column besides [id] - as [(topic, bucket_hour)] - the update of [mark_dispatched] is an
    invalid request, and the rows stay as they are. *)
Theorem mark_dispatched_refused {W Stmt} `{OutboxTable W Stmt table key} record_id (w : W) :
  (∃ c, c ∈ key ∧ c ≠ "id") →
  ∃ msg w', CassandraOutboxStore_mark_dispatched table record_id w = (Raise (InvalidRequest msg), w') ∧ ot_rows w' = ot_rows w.
Proof.
  intros Hkey. unfold CassandraOutboxStore_mark_dispatched, mbind, PyM_bind.
  destruct (ot_prepare (update_cql table) w) as (stmt & w1 & -> & Hq & Hr).
  destruct (ot_update_partial stmt [DStr (status_text DISPATCHED); DStr record_id] w1 Hq Hkey) as [msg Hx]. simpl in Hx |- *. rewrite Hx. by eexists _, _.
Qed.

(** ** Witnesses

    A session in memory for a table [items (id, value)], and one for the outbox; a statement
    is its text. *)

Definition items_columns : list string := ["id"; "value"].
#[local] Abbreviation Items := (gmap string string).
Definition items_row (kv : string * string) : list (string * string) := [("id", kv.1); ("value", kv.2)].

Definition items_run (st : cql) (vals : list string) : PyM Items (option (list (list (string * string)))) := λ w,
  match st, vals with
  | CqlSelect _ c _, [v] => (Return (Some (filter (λ r, od_get c r = Some v) (items_row <$> map_to_list w))), w)
  | CqlInsert _ cs _, _ =>
      let body := zip cs vals in
      (Return None, match od_get "id" body with
                    | Some k => <[k := default (default "" (w !! k)) (od_get "value" body)]> w
                    | None => w
                    end)
  | CqlDelete _ _, [v] => (Return None, delete v w)
  | CqlTruncate _, _ => (Return None, ∅)
  | _, _ => (Raise (InvalidRequest "Invalid amount of bind variables"), w)
  end.

Definition items_execute (stmt : string) (params : option (list string)) : PyM Items (option (list (list (string * string)))) :=
  match parse_cql stmt with
  | Some st => items_run st (default [] params)
  | None => raise (InvalidRequest "unknown statement")
  end.

#[export] Instance items_session : CqlSession Items string string := {|
  cs_prepare cql := mret cql; cs_execute := items_execute; cs_query_string stmt := stmt
|}.

Definition items_rows (w : Items) (k : string) : option (list (string * string)) := (λ v, items_row (k, v)) <$> w !! k.

Lemma items_selects (w : Items) c v : selects (items_rows w) c v (filter (λ r, od_get c r = Some v) (items_row <$> map_to_list w)).
Proof.
  split.
  - apply NoDup_filter, NoDup_fmap_2, NoDup_map_to_list. by intros [a b] [a' b'] [= -> ->].
  - intros r. rewrite list_elem_of_filter, list_elem_of_fmap. unfold items_rows. split.
    + intros [Hc ([k x] & -> & Hx%elem_of_map_to_list)]. exists k. by rewrite Hx.
    + intros (k & (x & Hx & ->)%fmap_Some & Hc). split; [done|]. exists (k, x). split; [done|]. by apply elem_of_map_to_list.
Qed.

#[export] Instance items_table : CqlTable Items string string "" "items" "id" items_columns.
Proof.
  refine {| ct_rows := items_rows |}.
  - by intros w k r (v & _ & ->)%fmap_Some.
  - intros text st w _ _. by exists text, w.
  - intros stmt st params w Hp Hv Hb. change (parse_cql stmt = Some st) in Hp. cbn [cs_execute items_session]. unfold items_execute.
    rewrite Hp. change (default [] (Some params)) with params. destruct st as [t c fl|t cs n|t c|t]; cbn [bound_cql items_run] in *.
    + destruct Hb as (v & -> & _). eexists _, w. split_and!; [done| |done]. eexists. split; [done|]. apply items_selects.
    + destruct Hb as (Hn & k & Hk & _). rewrite Hk. eexists _, _. split_and!; [done..|]. intros k'. cbn [cql_apply]. rewrite Hk.
      unfold items_rows. destruct (decide (k' = k)) as [->|Hne]; [|by rewrite lookup_insert_ne].
      rewrite lookup_insert_eq. cbn. rewrite Hk. by destruct (w !! k).
    + destruct Hb as (v & -> & _). eexists _, _. split_and!; [done..|]. intros k'. cbn [cql_apply]. unfold items_rows.
      destruct (decide (k' = v)) as [->|Hne]; [by rewrite lookup_delete_eq, decide_True|]. rewrite lookup_delete_ne, decide_False; [done| |done]. congruence.
    + subst params. by eexists _, _.
Defined.

Lemma repository_refines_table_witness :
  let calls := [RSave [("id", "1"); ("value", "a")]; RSave [("id", "1")]; RGet "1"; RSave [("value", "b"); ("id", "1")]; RGet "1"; RDelete "1"; RGet "1"] in
  abs_run "" "id" items_columns Return (λ x, x) (ct_rows (∅ : Items)) calls
    (fst (run_each (repo_step "items" "id" Return (λ x, x)) calls ([], (∅ : Items)))) ∧
  fst (run_each (repo_step "items" "id" Return (λ x, x)) calls ([], (∅ : Items))) =
    [Return ADone; Return ADone; Return (AFound (Some [("id", "1"); ("value", "a")])); Return ADone;
     Return (AFound (Some [("id", "1"); ("value", "b")])); Return ADone; Return (AFound None)].
Proof.
  intros calls. split; [|vm_compute; reflexivity].
  apply (repository_refines_table (null := "") (table := "items") (pk := "id") (columns := items_columns) Return (λ x, x) calls ([], (∅ : Items)));
    [reflexivity | by repeat constructor | by constructor | | done].
  assert (∀ x : list (string * string), NoDup x.*1 → x.*1 ⊆ items_columns → (∃ k, od_get "id" x = Some k ∧ k ≠ "") →
    abs_call "" "id" items_columns (λ x, x) (RSave x)) as Hsave by done.
  subst calls. repeat apply Forall_cons_2; try apply Forall_nil_2; try done; apply Hsave;
    first [by apply (bool_decide_unpack _); vm_compute | by exists "1"].
Defined.

(** The outbox; the limit of a query is read back from its text. *)
Definition pending_prefix : string := "SELECT * FROM outbox WHERE topic = ? AND bucket_hour = ? AND status = ? LIMIT ".
Definition pending_suffix : string := " ALLOW FILTERING".

Definition text_limit (stmt : string) : string :=
  String.substring (String.length pending_prefix) (String.length stmt - String.length pending_prefix - String.length pending_suffix) stmt.

Definition outbox_key : list string := ["topic"; "bucket_hour"; "id"].

Definition outbox_execute (stmt : string) (params : option (list (dval unit))) : PyM (list (doc unit)) (option (list (doc unit))) := λ w,
  let vals := default [] params in
  if String.eqb stmt (insert_cql "outbox" outbox_columns) then
    let row := zip outbox_columns vals in (Return None, row :: filter (λ r, ¬ same_key outbox_key r row) w)
  else if String.eqb stmt (update_cql "outbox") then (Raise (InvalidRequest "Some partition key parts are missing: topic, bucket_hour"), w)
  else
    match py_int (text_limit stmt), vals with
    | Return limit, [topic; bucket; status] =>
        (Return (Some (take (Z.to_nat limit)
           (filter (λ r, od_get "topic" r = Some topic ∧ od_get "bucket_hour" r = Some bucket ∧ od_get "status" r = Some status) w))), w)
    | _, _ => (Raise (InvalidRequest "unknown statement"), w)
    end.

#[export] Instance outbox_session : CqlSession (list (doc unit)) string (dval unit) := {|
  cs_prepare cql := mret cql; cs_execute := outbox_execute; cs_query_string stmt := stmt
|}.

Lemma text_limit_pending limit : text_limit (pending_cql "outbox" limit) = str_of_int limit.
Proof.
  change (pending_cql "outbox" limit) with (pending_prefix +:+ (str_of_int limit +:+ pending_suffix)). unfold text_limit.
  rewrite !length_app_str.
  replace (String.length pending_prefix + (String.length (str_of_int limit) + String.length pending_suffix) -
           String.length pending_prefix - String.length pending_suffix)%nat with (String.length (str_of_int limit)) by lia.
  transitivity (String.substring 0 (String.length (str_of_int limit)) (str_of_int limit +:+ pending_suffix)); [|apply substring_take].
  generalize pending_prefix. intros p. induction p as [|c p IH]; [done|]. exact IH.
Qed.

#[export] Instance outbox_table : OutboxTable (list (doc unit)) string "outbox" outbox_key.
Proof.
  refine {| ot_rows w := w |}.
  - intros cql w. by eexists _, _.
  - intros stmt row w Hq Hcol. change (stmt = insert_cql "outbox" outbox_columns) in Hq. subst stmt.
    assert (zip outbox_columns row.*2 = row) as Hz by (rewrite <- Hcol; apply zip_fst_snd).
    exists None, (zip outbox_columns row.*2 :: filter (λ r, ¬ same_key outbox_key r (zip outbox_columns row.*2)) w).
    split; [reflexivity|]. by rewrite Hz.
  - intros stmt topic bucket status limit w Hq _. change (stmt = pending_cql "outbox" limit) in Hq. subst stmt. eexists. split; [|reflexivity].
    change (cs_execute (pending_cql "outbox" limit) (Some [DStr topic; DStr bucket; DStr status]) w) with
      (match py_int (text_limit (pending_cql "outbox" limit)) with
       | Return n => (Return (Some (take (Z.to_nat n)
           (filter (λ r, od_get "topic" r = Some (DStr topic) ∧ od_get "bucket_hour" r = Some (DStr bucket) ∧ od_get "status" r = Some (DStr status)) w))), w)
       | Raise _ => (Raise (InvalidRequest "unknown statement"), w)
       end : outcome (option (list (doc unit))) * list (doc unit)).
    by rewrite text_limit_pending, py_int_str.
  - intros stmt vals w Hq _. change (stmt = update_cql "outbox") in Hq. subst stmt. by eexists.
Defined.

Definition sample_record (t : Z) : OutboxRecord := mkOutbox "r1" "a" "Order" "Placed" "orders" [] [] PENDING t None 0 None.

Lemma outbox_window_witness :
  let t := 1700000000000000%Z in
  ∃ w' rows w'', CassandraOutboxStore_save "outbox" 0 (sample_record t) ([] : list (doc unit)) = (Return tt, w') ∧
    CassandraOutboxStore_get_pending "outbox" (t + 3 * us_per_hour) "orders" 100 w' = (Return rows, w'') ∧
    outbox_row 0 (sample_record t) ∉ rows.
Proof.
  intros t. destruct (outbox_window (table := "outbox") 0 (sample_record t) 100 ([] : list (doc unit))) as (w' & Hs & Hw); [done|done|].
  destruct (Hw (t + 3 * us_per_hour)%Z) as (rows & w'' & Hg & Hin). exists w', rows, w''. split_and!; [done..|].
  intros [Hh|Hh]%Hin; vm_compute in Hh; discriminate.
Defined.

Lemma mark_dispatched_refused_witness :
  ∃ msg w', CassandraOutboxStore_mark_dispatched "outbox" "r1" [outbox_row 0 (sample_record 0)] = (Raise (InvalidRequest msg), w') ∧
    w' = [outbox_row 0 (sample_record 0)].
Proof.
  destruct (mark_dispatched_refused (table := "outbox") "r1" [outbox_row 0 (sample_record 0)]) as (msg & w' & Hm & Hr).
  - exists "topic". split; [by constructor|done].
  - exists msg, w'. split; [exact Hm|exact Hr].
Defined.
