(* ===== verification/Mail.v ===== *)
(** * Mail, push and text messages

    [application/email] with the senders of [adapters/mailgun] and [adapters/sendgrid], and
    [application/notifications].  HTTP responses, the SMTP and SES clients and the template
    engine are arguments; a request is the record of what is sent. *)
From S2P Require Import Prelude PyString OrderedDict PyValue Masking Sha256 Credentials Graphql.

(** ** Messages *)

Record Attachment := mkAttachment { at_filename : string; at_content_type : string; at_data : list Z }.

Record EmailMessage := mkEmail {
  em_to : list string;
  em_subject : string;
  em_html_body : string;
  em_cc : list string;
  em_bcc : list string;
  em_text_body : option string;
  em_attachments : list Attachment;
  em_reply_to : option string;
}.

Definition EmailMessage_all_recipients (m : EmailMessage) : list string := em_to m ++ em_cc m ++ em_bcc m.

(** [if x:] for an optional text and for a list. *)
Definition if_text {A} (x : option string) (f : string → A) : list A :=
  match x with None | Some "" => [] | Some s => [f s] end.
Definition if_list {A B} (l : list A) (x : B) : list B := match l with [] => [] | _ => [x] end.

(** [base64.b64encode], the alphabet with [+] and [/]. *)
Definition std_char (c : ascii) : ascii := if Ascii.eqb c "-" then "+"%char else if Ascii.eqb c "_" then "/"%char else c.
Definition b64encode (bs : list Z) : string := str_map std_char (urlsafe_b64encode bs).

(** [for m in messages: ids.append(await send(m))]. *)
Fixpoint send_each {W A B} (send : A → PyM W B) (messages : list A) : PyM W (list B) :=
  match messages with
  | [] => mret []
  | m :: rest => i ← send m; ids ← send_each send rest; mret (i :: ids)
  end.

(** ** The sender in memory *)

Section InMemory.
Context {W : Type} (uuid4 : PyM W string).

Record InMemoryEmailSender := mkMailbox { mb_sent : list EmailMessage; mb_ids : list string }.

Definition InMemoryEmailSender_send (m : EmailMessage) : PyM (InMemoryEmailSender * W) string :=
  updates (λ s, (mkMailbox (mb_sent (fst s) ++ [m]) (mb_ids (fst s)), snd s)) ;;
  i ← on_snd uuid4;
  updates (λ s, (mkMailbox (mb_sent (fst s)) (mb_ids (fst s) ++ [i]), snd s)) ;;
  mret i.

Definition InMemoryEmailSender_send_bulk : list EmailMessage → PyM (InMemoryEmailSender * W) (list string) := send_each InMemoryEmailSender_send.

Definition InMemoryEmailSender_reset : PyM (InMemoryEmailSender * W) unit := updates (λ s, (mkMailbox [] [], snd s)).

End InMemory.

Definition InMemoryEmailSender_count (s : InMemoryEmailSender) : Z := Z.of_nat (length (mb_sent s)).
Definition InMemoryEmailSender_last (s : InMemoryEmailSender) : option EmailMessage := last (mb_sent s).

(** ** Templates *)

Section Renderer.
(** [env.get_template(name).render(context)]. *)
Context {W C : Type} (render_template : string → C → PyM W string).

Definition Jinja2EmailRenderer_render (template_name : string) (context : C) (to : list string) (subject : option string)
    (cc bcc : option (list string)) (reply_to : option string) : PyM W EmailMessage :=
  html_body ← render_template (template_name +:+ ".html.j2") context;
  text_body ← try_except (t ← render_template (template_name +:+ ".txt.j2") context; mret (Some t)) (λ _, mret None);
  resolved_subject ← try_except (t ← render_template (template_name +:+ ".subject.j2") context; mret (strip t)) (λ _, mret (default "" subject));
  mret (mkEmail to resolved_subject html_body (default [] cc) (default [] bcc) text_body [] reply_to).

End Renderer.

(** ** SMTP *)

Record MimeMessage := mkMime { mm_headers : list (string * string); mm_parts : list (string * string) }.

Definition SmtpEmailSender_build_mime (username : option string) (m : EmailMessage) : MimeMessage :=
  mkMime
    ([("Subject", em_subject m);
      ("From", match username with None | Some "" => "noreply@localhost" | Some u => u end);
      ("To", join ", " (em_to m))] ++
     if_list (em_cc m) ("Cc", join ", " (em_cc m)) ++
     if_text (em_reply_to m) (λ r, ("Reply-To", r)))
    (if_text (em_text_body m) (λ t, ("plain", t)) ++ [("html", em_html_body m)]).

Record SmtpConfig := mkSmtpConfig { sm_username : option string; sm_password : option string; sm_start_tls : bool }.

(** The client of aiosmtplib. *)
Class SmtpClient (W Cl : Type) := {
  smtp_new : PyM W Cl;
  smtp_connect : Cl → PyM W unit;
  smtp_starttls : Cl → PyM W unit;
  smtp_login : Cl → string → string → PyM W unit;
  smtp_quit : Cl → PyM W unit;
  smtp_send_message : Cl → MimeMessage → PyM W unit;
}.

Section Smtp.
(** The state is [_client], beside the world. *)
Context {W Cl : Type} `{SmtpClient W Cl} (uuid4 : PyM W string) (cfg : SmtpConfig).

Definition SmtpEmailSender_connect : PyM (option Cl * W) unit :=
  c ← on_snd smtp_new;
  updates (λ s, (Some c, snd s)) ;;
  on_snd (smtp_connect c) ;;
  (if sm_start_tls cfg then on_snd (smtp_starttls c) else mret tt) ;;
  match sm_username cfg, sm_password cfg with
  | Some u, Some p => if String.eqb u "" || String.eqb p "" then mret tt else on_snd (smtp_login c u p)
  | _, _ => mret tt
  end.

Definition SmtpEmailSender_close : PyM (option Cl * W) unit :=
  c ← reads fst;
  match c with
  | Some c => on_snd (smtp_quit c) ;; updates (λ s, (None, snd s))
  | None => mret tt
  end.

Definition SmtpEmailSender_send (m : EmailMessage) : PyM (option Cl * W) string :=
  c ← reads fst;
  match c with Some _ => mret tt | None => SmtpEmailSender_connect end ;;
  c ← reads fst;
  match c with
  | Some c => on_snd (smtp_send_message c (SmtpEmailSender_build_mime (sm_username cfg) m))
  | None => raise (AttributeError "'NoneType' object has no attribute 'send_message'")
  end ;;
  on_snd uuid4.

Definition SmtpEmailSender_send_bulk : list EmailMessage → PyM (option Cl * W) (list string) := send_each SmtpEmailSender_send.

End Smtp.

(** ** SES *)

Section Ses.
(** [send_email(Source, Destination, Message)], giving [MessageId] if the response has one. *)
Context {W : Type} (send_email : string → pyval → pyval → PyM W (option string)) (uuid4 : PyM W string) (source_email : string).

Definition text_list (l : list string) : pyval := VList (VStr <$> l).
Definition ses_text (s : string) : pyval := VDict [("Data", VStr s); ("Charset", VStr "UTF-8")].

Definition ses_destination (m : EmailMessage) : pyval :=
  VDict ([("ToAddresses", text_list (em_to m))] ++ if_list (em_cc m) ("CcAddresses", text_list (em_cc m)) ++
         if_list (em_bcc m) ("BccAddresses", text_list (em_bcc m))).

Definition ses_message (m : EmailMessage) : pyval :=
  VDict [("Subject", ses_text (em_subject m));
         ("Body", VDict ([("Html", ses_text (em_html_body m))] ++ if_text (em_text_body m) (λ t, ("Text", ses_text t))))].

(** [resp.get("MessageId", str(uuid.uuid4()))]: the default is computed first. *)
Definition SesEmailSender_send (m : EmailMessage) : PyM W string :=
  resp ← send_email source_email (ses_destination m) (ses_message m);
  fallback ← uuid4;
  mret (default fallback resp).

Definition SesEmailSender_send_bulk : list EmailMessage → PyM W (list string) := send_each SesEmailSender_send.

End Ses.

(** ** Services over HTTP *)

(** What the senders look at in a response. *)
Class HttpxResponse (R : Type) := {
  rs_status_code : R → Z;
  rs_raise_for_status : R → outcome unit;
  rs_json : R → outcome pyval;
  rs_text : R → string;
  rs_has_content : R → bool;
  rs_header : R → string → option string;
}.

Record Request := mkRequest {
  rq_url : string;
  rq_headers : list (string * string);
  rq_auth : option (string * string);
  rq_json : option pyval;
  rq_data : list (string * string);
  rq_files : list (string * Attachment);
}.

(** *** Mailgun *)

Record MailgunEmailSender := mkMailgun { mg_api_key : string; mg_from_email : string; mg_from_name : option string; mg_endpoint : string }.

Definition BASE_URLS : list (string * string) := [("us", "https://api.mailgun.net/v3"); ("eu", "https://api.eu.mailgun.net/v3")].

Definition MailgunEmailSender_init (api_key domain from_email : string) (from_name : option string) (region : string)
    (base_url : option string) : outcome MailgunEmailSender :=
  match od_get region BASE_URLS, base_url with
  | None, None => Raise (ValueError ("region must be 'us' or 'eu', got " +:+ py_repr region))
  | known, _ =>
      match (match base_url with None | Some "" => known | Some u => Some u end) with
      | Some base => Return (mkMailgun api_key from_email from_name (base +:+ "/" +:+ domain +:+ "/messages"))
      | None => Raise (KeyError (py_repr region))
      end
  end.

Definition MailgunEmailSender_from_address (s : MailgunEmailSender) : string :=
  match mg_from_name s with
  | None | Some "" => mg_from_email s
  | Some name => name +:+ " <" +:+ mg_from_email s +:+ ">"
  end.

Definition mailgun_data (s : MailgunEmailSender) (m : EmailMessage) : list (string * string) :=
  [("from", MailgunEmailSender_from_address s); ("to", join ", " (em_to m)); ("subject", em_subject m); ("html", em_html_body m)] ++
  if_text (em_text_body m) (λ t, ("text", t)) ++
  if_list (em_cc m) ("cc", join ", " (em_cc m)) ++
  if_list (em_bcc m) ("bcc", join ", " (em_bcc m)) ++
  if_text (em_reply_to m) (λ r, ("h:Reply-To", r)).

Definition mailgun_request (s : MailgunEmailSender) (m : EmailMessage) : Request :=
  mkRequest (mg_endpoint s) [] (Some ("api", mg_api_key s)) None (mailgun_data s m) ((λ a, ("attachment", a)) <$> em_attachments m).

(** *** SendGrid *)

Definition email_field (addr : string) : pyval := VDict [("email", VStr addr)].

Definition sendgrid_personalizations (m : EmailMessage) : pyval :=
  VDict ([("to", VList (email_field <$> em_to m))] ++
         if_list (em_cc m) ("cc", VList (email_field <$> em_cc m)) ++
         if_list (em_bcc m) ("bcc", VList (email_field <$> em_bcc m)) ++
         if_text (Some (em_subject m)) (λ s, ("subject", VStr s))).

Definition content_field (type value : string) : pyval := VDict [("type", VStr type); ("value", VStr value)].

Definition attachment_field (a : Attachment) : pyval :=
  VDict [("filename", VStr (at_filename a)); ("type", VStr (at_content_type a)); ("content", VStr (b64encode (at_data a)));
         ("disposition", VStr "attachment")].

Definition build_payload (m : EmailMessage) (from_email : string) (from_name : option string) : pyval :=
  VDict ([("personalizations", VList [sendgrid_personalizations m]);
          ("from", VDict ([("email", VStr from_email)] ++ if_text from_name (λ n, ("name", VStr n))));
          ("subject", VStr (em_subject m));
          ("content", VList (if_text (em_text_body m) (content_field "text/plain") ++ [content_field "text/html" (em_html_body m)]))] ++
         if_text (em_reply_to m) (λ r, ("reply_to", email_field r)) ++
         if_list (em_attachments m) ("attachments", VList (attachment_field <$> em_attachments m))).

Definition sendgrid_request (api_key api_url from_email : string) (from_name : option string) (m : EmailMessage) : Request :=
  mkRequest api_url [("Authorization", "Bearer " +:+ api_key); ("Content-Type", "application/json")] None
    (Some (build_payload m from_email from_name)) [] [].

(** *** Push and text messages *)

Record PushNotification := mkPush {
  pn_device_tokens : list string;
  pn_title : string;
  pn_body : string;
  pn_data : list (string * pyval);
  pn_badge : option Z;
  pn_sound : option string;
}.

Record SendResult := mkResult { sr_token : string; sr_success : bool; sr_error : option pyval }.

Definition InMemoryPushSender_send (n : PushNotification) : PyM (list PushNotification) (list SendResult) :=
  updates (λ sent, sent ++ [n]) ;; mret ((λ t, mkResult t true None) <$> pn_device_tokens n).
Definition InMemoryPushSender_reset : PyM (list PushNotification) unit := updates (λ _, []).
Definition InMemoryPushSender_count (sent : list PushNotification) : Z := Z.of_nat (length sent).

(** [float_repr] is the text of a float. *)
Definition FCMPushSender_build_payload (float_repr : Q → string) (n : PushNotification) (token : string) : pyval :=
  VDict [("message",
    VDict ([("token", VStr token); ("notification", VDict [("title", VStr (pn_title n)); ("body", VStr (pn_body n))])] ++
           if_list (pn_data n) ("data", VDict ((λ e, (fst e, VStr (doc_str float_repr (snd e)))) <$> pn_data n)) ++
           match pn_badge n with
           | Some b => [("apns", VDict [("payload", VDict [("aps", VDict [("badge", VInt b)])])])]
           | None => []
           end ++
           if_text (pn_sound n) (λ s, ("android", VDict [("notification", VDict [("sound", VStr s)])]))))].

Record SmsMessage := mkSms { sms_to : string; sms_body : string; sms_sender_id : option string }.

Definition InMemorySmsSender_send (m : SmsMessage) : PyM (list SmsMessage) string :=
  updates (λ sent, sent ++ [m]) ;; n ← reads (λ sent, length sent); mret ("mem-sms-" +:+ str_of_int (Z.of_nat n)).
Definition InMemorySmsSender_reset : PyM (list SmsMessage) unit := updates (λ _, []).
Definition InMemorySmsSender_count (sent : list SmsMessage) : Z := Z.of_nat (length sent).
Definition InMemorySmsSender_last (sent : list SmsMessage) : option SmsMessage := last sent.

Record TwilioConfig := mkTwilio { tw_account_sid : string; tw_auth_token : string; tw_from_number : string; tw_max_retries : Z }.

(** The URL is the configured one with the account filled in. *)
Definition twilio_request (cfg : TwilioConfig) (url : string) (m : SmsMessage) : Request :=
  mkRequest url [("Authorization", "Basic " +:+ b64encode (encode (tw_account_sid cfg +:+ ":" +:+ tw_auth_token cfg)))] None None
    [("To", sms_to m); ("From", match sms_sender_id m with None | Some "" => tw_from_number cfg | Some s => s end); ("Body", sms_body m)] [].

Section Http.
Context {W R : Type} `{HttpxResponse R} (post : Request → PyM W R).

(** [response.json().get(key, "")]. *)
Definition json_field (key : string) (r : R) : outcome pyval :=
  body ← rs_json r; v ← py_get key body; Return (default (VStr "") v).

Definition MailgunEmailSender_send (s : MailgunEmailSender) (m : EmailMessage) : PyM W pyval :=
  response ← post (mailgun_request s m);
  from_outcome (rs_raise_for_status response) ;;
  from_outcome (json_field "id" response).

Definition MailgunEmailSender_send_bulk (s : MailgunEmailSender) : list EmailMessage → PyM W (list pyval) := send_each (MailgunEmailSender_send s).

Definition SendGridEmailSender_send (api_key api_url from_email : string) (from_name : option string) (m : EmailMessage) : PyM W string :=
  response ← post (sendgrid_request api_key api_url from_email from_name m);
  from_outcome (rs_raise_for_status response) ;;
  mret (default "" (rs_header response "x-message-id")).

Definition SendGridEmailSender_send_bulk (api_key api_url from_email : string) (from_name : option string) : list EmailMessage → PyM W (list string) :=
  send_each (SendGridEmailSender_send api_key api_url from_email from_name).

(** The error of a failed push: [body.get("error", {}).get("message", resp.text)]. *)
Definition fcm_error (r : R) : outcome pyval :=
  body ← (if rs_has_content r then rs_json r else Return (VDict []));
  error ← py_get "error" body;
  message ← py_get "message" (default (VDict []) error);
  Return (default (VStr (rs_text r)) message).

Definition fcm_attempt (float_repr : Q → string) (url server_key : string) (n : PushNotification) (token : string) : PyM W SendResult :=
  try_except
    (resp ← post (mkRequest url [("Authorization", "key=" +:+ server_key); ("Content-Type", "application/json")] None
                    (Some (FCMPushSender_build_payload float_repr n token)) [] []);
     if Z.eqb (rs_status_code resp) 200 || Z.eqb (rs_status_code resp) 204 then mret (mkResult token true None)
     else error ← from_outcome (fcm_error resp); mret (mkResult token false (Some error)))
    (λ exc, mret (mkResult token false (Some (VStr (exn_msg exc))))).

Definition FCMPushSender_send (float_repr : Q → string) (url server_key : string) (n : PushNotification) : PyM W (list SendResult) :=
  send_each (fcm_attempt float_repr url server_key n) (pn_device_tokens n).

Context (sleep : Z → PyM W unit).

(** [for attempt in range(max_retries)], [n] attempts being left. *)
Fixpoint twilio_attempts (cfg : TwilioConfig) (url : string) (m : SmsMessage) (attempt : Z) (n : nat) : PyM W pyval :=
  match n with
  | O => raise (exn_of ["RuntimeError"] "Twilio: exceeded max retries (rate limited)")
  | S n' =>
      resp ← post (twilio_request cfg url m);
      if Z.eqb (rs_status_code resp) 429 then sleep (2 ^ attempt)%Z ;; twilio_attempts cfg url m (attempt + 1) n'
      else from_outcome (rs_raise_for_status resp) ;; from_outcome (json_field "sid" resp)
  end.

Definition TwilioSmsSender_send (cfg : TwilioConfig) (url : string) (m : SmsMessage) : PyM W pyval :=
  twilio_attempts cfg url m 0 (Z.to_nat (tw_max_retries cfg)).

End Http.

(** ** Who a request reaches

    The providers read the addresses of a joined text with [addresses]. *)

Section Recipients.
Context (addresses : string → list string).

(** [send_message] without recipients takes them from the headers. *)
Definition header_recipients (hs : list (string * string)) (names : list string) : list string :=
  names ≫= λ k, match od_get k hs with Some v => addresses v | None => [] end.

Definition smtp_recipients (mime : MimeMessage) : list string := header_recipients (mm_headers mime) ["To"; "Cc"; "Bcc"].
Definition mailgun_recipients (r : Request) : list string := header_recipients (rq_data r) ["to"; "cc"; "bcc"].

End Recipients.

Definition text_of (v : pyval) : list string := match v with VStr s => [s] | _ => [] end.
Definition items_of (v : option pyval) : list pyval := match v with Some (VList l) => l | _ => [] end.
Definition field_in (k : string) (v : pyval) : option pyval := match v with VDict d => od_get k d | _ => None end.

Definition ses_recipients (dest : pyval) : list string :=
  ["ToAddresses"; "CcAddresses"; "BccAddresses"] ≫= λ k, items_of (field_in k dest) ≫= text_of.

Definition sendgrid_recipients (payload : pyval) : list string :=
  items_of (field_in "personalizations" payload) ≫= λ p,
  ["to"; "cc"; "bcc"] ≫= λ k, items_of (field_in k p) ≫= λ e, match field_in "email" e with Some v => text_of v | None => [] end.

(** The attachments of a SendGrid payload, decoded. *)
Definition sendgrid_attachment (v : pyval) : option Attachment :=
  match field_in "filename" v, field_in "type" v, field_in "content" v with
  | Some (VStr f), Some (VStr t), Some (VStr c) =>
      match urlsafe_b64decode c with Return bs => Some (mkAttachment f t bs) | Raise _ => None end
  | _, _, _ => None
  end.

(** ** Lemmas *)

Lemma std_char_value c : b64_value (std_char c) = b64_value c.
Proof.
  unfold std_char. destruct (Ascii.eqb c "-") eqn:E1; [by apply Ascii.eqb_eq in E1 as ->|].
  destruct (Ascii.eqb c "_") eqn:E2; [by apply Ascii.eqb_eq in E2 as ->|done].
Qed.

Lemma std_char_pad c : Ascii.eqb (std_char c) "=" = Ascii.eqb c "=".
Proof.
  unfold std_char. destruct (Ascii.eqb c "-") eqn:E1; [by apply Ascii.eqb_eq in E1 as ->|].
  destruct (Ascii.eqb c "_") eqn:E2; [by apply Ascii.eqb_eq in E2 as ->|done].
Qed.

(** The decoder reads both alphabets. *)
Lemma b64encode_decodes bs : Forall is_byte bs → urlsafe_b64decode (b64encode bs) = Return bs.
Proof.
  intros Hb. rewrite <- (b64_roundtrip bs Hb). unfold urlsafe_b64decode, b64encode.
  enough (∀ s q p l o, a2b (str_map std_char s) q p l o = a2b s q p l o) as H by apply H.
  intros s. induction s as [|c s IH]; intros q p l o; [done|]. cbn [str_map a2b]. rewrite std_char_pad, std_char_value.
  destruct (Ascii.eqb c "="); [by rewrite !IH|]. destruct (b64_value c); [|apply IH]. destruct q as [|[|[|q]]]; apply IH.
Qed.

Lemma texts_of_list l : (VStr <$> l) ≫= text_of = l.
Proof. induction l as [|a l IH]; [done|]. cbn. f_equal. exact IH. Qed.

Lemma emails_of_list l : (email_field <$> l) ≫= (λ e, match field_in "email" e with Some v => text_of v | None => [] end) = l.
Proof. induction l as [|a l IH]; [done|]. cbn. f_equal. exact IH. Qed.

Lemma py_get_exn k v e : py_get k v = Raise e → is_Exception e = true.
Proof. destruct v; intros [= <-]; reflexivity. Qed.

(** Sending one by one. *)
Lemma send_each_ok {W A B} (send : A → PyM W B) ms w ids w' :
  send_each send ms w = (Return ids, w') → length ids = length ms.
Proof.
  revert w ids. induction ms as [|m ms IH]; intros w ids; cbn; [by intros [= <- <-]|].
  unfold mbind, PyM_bind. destruct (send m w) as [[i|e] w1]; [|done]. destruct (send_each send ms w1) as [[ids2|e] w2] eqn:E; [|done].
  intros [= <- <-]. simpl. f_equal. by eapply IH.
Qed.

(** *** Text messages over a scripted network

    The responses to come and the pauses so far. *)
Definition script_post {R} (_ : Request) : PyM (list R * list Z) R := λ s,
  match fst s with r :: rs => (Return r, (rs, snd s)) | [] => (Raise (exn_of ["ConnectError"] ""), s) end.
Definition script_sleep {R} (n : Z) : PyM (list R * list Z) unit := updates (λ s, (fst s, snd s ++ [n])).

(** What a response that is not a refusal gives. *)
Definition twilio_result {R} `{HttpxResponse R} (r : R) : outcome pyval :=
  match rs_raise_for_status r with Return _ => json_field "sid" r | Raise e => Raise e end.

Definition limited {R} `{HttpxResponse R} (r : R) : Prop := rs_status_code r = 429%Z.

Lemma twilio_attempts_limited {R} `{HttpxResponse R} cfg url m attempt n rs rest sleeps :
  Forall limited rs → (length rs <= n)%nat →
  twilio_attempts script_post script_sleep cfg url m attempt n (rs ++ rest, sleeps) =
  twilio_attempts script_post script_sleep cfg url m (attempt + Z.of_nat (length rs)) (n - length rs)
    (rest, sleeps ++ ((λ i, 2 ^ (attempt + Z.of_nat i))%Z <$> seq 0 (length rs))).
Proof.
  intros Hrs. revert attempt n sleeps. induction Hrs as [|r rs Hr Hrs IH]; intros attempt n sleeps Hn; simpl in *.
  - rewrite app_nil_r, Nat.sub_0_r. f_equal. lia.
  - destruct n as [|n]; [lia|]. cbn [twilio_attempts]. unfold mbind, PyM_bind, script_post; cbn [fst snd].
    rewrite Hr. cbn. rewrite IH by lia. f_equal; [lia|]. rewrite <- app_assoc. f_equal. f_equal. simpl. f_equal; [f_equal; lia|].
    rewrite <- fmap_S_seq, <- list_fmap_compose. apply list_fmap_ext. intros _ i _. simpl. f_equal. lia.
Qed.

Lemma powers_sum n : foldr Z.add 0%Z ((λ i, 2 ^ (0 + Z.of_nat i))%Z <$> seq 0 n) = (2 ^ Z.of_nat n - 1)%Z.
Proof.
  induction n as [|n IH]; [done|]. rewrite seq_S, fmap_app, foldr_app. cbn [fmap list_fmap foldr].
  assert (∀ l (a : Z), foldr Z.add a l = foldr Z.add 0%Z l + a)%Z as Hf.
  { intros l. induction l as [|x l IHl]; intros a; simpl; [lia|]. rewrite (IHl a). lia. }
  rewrite (Hf _ (_ + 0)%Z), IH. replace (Z.of_nat (S n)) with (Z.of_nat n + 1)%Z by lia.
  rewrite !Z.pow_add_r by lia. change (2 ^ 1)%Z with 2%Z. change (2 ^ 0)%Z with 1%Z. rewrite ?Nat.add_0_l. lia.
Qed.

(** ** Theorems *)

(** who is written to.  SES, SendGrid and Mailgun address exactly the recipients of the
    message, copies and blind copies included; over SMTP the blind copies are in no header,
    so those recipients get nothing. *)
Theorem recipients_reached addresses m username mailgun from_email from_name :
  (∀ l, l ∈ [em_to m; em_cc m; em_bcc m] → l ≠ [] → addresses (join ", " l) = l) → em_to m ≠ [] →
  ses_recipients (ses_destination m) = EmailMessage_all_recipients m ∧
  sendgrid_recipients (build_payload m from_email from_name) = EmailMessage_all_recipients m ∧
  mailgun_recipients addresses (mailgun_request mailgun m) = EmailMessage_all_recipients m ∧
  smtp_recipients addresses (SmtpEmailSender_build_mime username m) = em_to m ++ em_cc m.
Proof.
  intros Ha Hto. unfold EmailMessage_all_recipients. destruct m as [to subject html cc bcc text atts reply]. cbn [em_to em_cc em_bcc] in *.
  set (g := λ l, match l with [] => [] | _ => addresses (join ", " l) end).
  assert (∀ l, l ∈ [to; cc; bcc] → g l = l) as Hg by (intros [|? ?] Hl; [done|by apply Ha]).
  split_and!.
  - transitivity (((VStr <$> to) ≫= text_of) ++ ((VStr <$> cc) ≫= text_of) ++ ((VStr <$> bcc) ≫= text_of) ++ []).
    + by destruct cc, bcc.
    + by rewrite !texts_of_list, app_nil_r.
  - set (f := λ e, match field_in "email" e with Some v => text_of v | None => [] end).
    transitivity ((((email_field <$> to) ≫= f) ++ ((email_field <$> cc) ≫= f) ++ ((email_field <$> bcc) ≫= f) ++ []) ++ []).
    + by destruct cc, bcc, subject.
    + subst f. by rewrite !emails_of_list, !app_nil_r.
  - transitivity (addresses (join ", " to) ++ g cc ++ g bcc ++ []).
    + by destruct cc, bcc, text as [[|? ?]|], reply as [[|? ?]|].
    + by rewrite (Ha to), !Hg, app_nil_r by set_solver.
  - transitivity (addresses (join ", " to) ++ g cc ++ []).
    + by destruct cc, reply as [[|? ?]|].
    + by rewrite (Ha to), Hg, app_nil_r by set_solver.
Qed.

(** what becomes of attachments.  Mailgun gets them as they are and SendGrid in a form that
    decodes to them; what is sent over SMTP and SES does not depend on them at all. *)
Theorem attachments_carried m username mailgun from_email from_name atts :
  Forall (λ a, Forall is_byte (at_data a)) (em_attachments m) →
  snd <$> rq_files (mailgun_request mailgun m) = em_attachments m ∧
  omap sendgrid_attachment (items_of (field_in "attachments" (build_payload m from_email from_name))) = em_attachments m ∧
  let m' := mkEmail (em_to m) (em_subject m) (em_html_body m) (em_cc m) (em_bcc m) (em_text_body m) atts (em_reply_to m) in
  SmtpEmailSender_build_mime username m' = SmtpEmailSender_build_mime username m ∧ ses_message m' = ses_message m.
Proof.
  intros Hb. split_and!.
  - simpl. rewrite <- list_fmap_compose. apply list_fmap_id.
  - assert (omap sendgrid_attachment (attachment_field <$> em_attachments m) = em_attachments m) as Ho.
    { induction Hb as [|a l Ha _ IH]; [done|]. rewrite fmap_cons. cbn [omap list_omap].
      assert (sendgrid_attachment (attachment_field a) = Some a) as ->.
      - change (sendgrid_attachment (attachment_field a)) with
          (match urlsafe_b64decode (b64encode (at_data a)) with Return bs => Some (mkAttachment (at_filename a) (at_content_type a) bs) | Raise _ => None end).
        rewrite b64encode_decodes by done. by destruct a.
      - f_equal. exact IH. }
    transitivity (omap sendgrid_attachment (attachment_field <$> em_attachments m)); [|exact Ho].
    destruct m as [to subject html cc bcc text [|a l] reply]; destruct reply as [[|? ?]|]; done.
  - by destruct m.
Qed.

(** a failed connection sticks.  When connecting fails the client that never connected is
    kept, and every later message is handed to it without connecting again. *)
Theorem smtp_failed_connect_sticks {W Cl} `{SmtpClient W Cl} uuid4 cfg m m' (w w1 w2 : W) c e :
  smtp_new w = (Return c, w1) → smtp_connect c w1 = (Raise e, w2) →
  SmtpEmailSender_send uuid4 cfg m (None, w) = (Raise e, (Some c, w2)) ∧
  SmtpEmailSender_send uuid4 cfg m' (Some c, w2) =
    (on_snd (smtp_send_message c (SmtpEmailSender_build_mime (sm_username cfg) m')) ;; on_snd uuid4) (Some c, w2).
Proof.
  intros Hnew Hcon. split.
  - unfold SmtpEmailSender_send, SmtpEmailSender_connect, mbind, PyM_bind, reads, on_snd, updates. simpl. rewrite Hnew. simpl. by rewrite Hcon.
  - done.
Qed.

(** a text message is retried exactly while it is refused.  With [k] refusals (429) before
    another response, the sender pauses 1, 2, 4, ... seconds and takes that response when [k]
    is below the number of attempts; otherwise it gives up, after all the pauses. *)
Theorem twilio_exact {R} `{HttpxResponse R} cfg url m (refused : list R) r rest :
  Forall limited refused → ¬ limited r →
  let n := Z.to_nat (tw_max_retries cfg) in
  let pauses (k : nat) : list Z := ((λ i, 2 ^ (0 + Z.of_nat i))%Z <$> seq 0 k) in
  ((length refused < n)%nat → TwilioSmsSender_send script_post script_sleep cfg url m (refused ++ r :: rest, []) =
     (twilio_result r, (rest, pauses (length refused)))) ∧
  ((n <= length refused)%nat → TwilioSmsSender_send script_post script_sleep cfg url m (refused ++ r :: rest, []) =
     (Raise (exn_of ["RuntimeError"] "Twilio: exceeded max retries (rate limited)"), (drop n refused ++ r :: rest, pauses n)) ∧
     foldr Z.add 0%Z (pauses n) = (2 ^ Z.of_nat n - 1)%Z).
Proof.
  intros Hl Hr n pauses. unfold TwilioSmsSender_send. fold n. split; intros Hn.
  - rewrite twilio_attempts_limited by (done || lia). destruct (n - length refused)%nat as [|k] eqn:E; [lia|].
    cbn [twilio_attempts]. unfold mbind, PyM_bind, script_post; cbn [fst snd]. unfold limited in Hr. destruct (Z.eqb_spec (rs_status_code r) 429); [done|].
    unfold twilio_result, from_outcome. by destruct (rs_raise_for_status r).
  - split; [|apply powers_sum]. rewrite <- (take_drop n refused) at 1. rewrite <- app_assoc.
    assert (length (take n refused) = n) as Hlen by (rewrite length_take; lia).
    rewrite twilio_attempts_limited by (try (by apply Forall_take); lia). rewrite Hlen, Nat.sub_diag. done.
Qed.

(** a push answers for every device.  Whatever the network and the service do short of
    cancelling the call, sending returns one result per device token, in their order, and a
    result is a success exactly when it carries no error. *)
Theorem fcm_answers_every_device {W R} `{HttpxResponse R} (post : Request → PyM W R) float_repr url server_key n (w : W) :
  (∀ rq w e, fst (post rq w) = Raise e → is_Exception e = true) →
  (∀ r e, rs_json r = Raise e → is_Exception e = true) →
  ∃ results w', FCMPushSender_send post float_repr url server_key n w = (Return results, w') ∧
    sr_token <$> results = pn_device_tokens n ∧ ∀ x, x ∈ results → (sr_success x = true ↔ sr_error x = None).
Proof.
  intros Hpost Hjson. unfold FCMPushSender_send. revert w. generalize (pn_device_tokens n). intros tokens.
  assert (∀ t w, ∃ x w', fcm_attempt post float_repr url server_key n t w = (Return x, w') ∧ sr_token x = t ∧
            (sr_success x = true ↔ sr_error x = None)) as Hone.
  { intros t w. unfold fcm_attempt, try_except, try_base, mbind, PyM_bind.
    destruct (post _ w) as [[r|e] w1] eqn:E.
    - destruct (_ || _); [eexists _, _; by split_and!|]. unfold from_outcome.
      assert (∀ e, fcm_error r = Raise e → is_Exception e = true) as He.
      { intros e. unfold fcm_error, mbind, outcome_bind.
        destruct (if rs_has_content r then rs_json r else Return (VDict [])) as [body|e1] eqn:E1.
        - destruct (py_get "error" body) as [v|e2] eqn:E2; [|intros [= <-]; by eapply py_get_exn].
          destruct (py_get "message" _) as [v'|e3] eqn:E3; [done|]. intros [= <-]; by eapply py_get_exn.
        - intros [= <-]. destruct (rs_has_content r); [by eapply Hjson|done]. }
      destruct (fcm_error r) as [v|e]; [|rewrite He by done]; eexists _, _; by split_and!.
    - assert (is_Exception e = true) as -> by (eapply Hpost; by rewrite E). eexists _, _; by split_and!. }
  induction tokens as [|t tokens IH]; intros w; [eexists [], w; split_and!; [done..|set_solver]|].
  destruct (Hone t w) as (x & w1 & Hx & Ht & Hs).
  destruct (IH w1) as (xs & w2 & Hxs & Hts & Hss). exists (x :: xs), w2. cbn [send_each]. unfold mbind, PyM_bind. rewrite Hx, Hxs.
  split_and!; [done|by rewrite fmap_cons, Ht, Hts|]. intros y [->|Hy]%elem_of_cons; auto.
Qed.

(** no template is escaped.  The engine is asked to escape templates whose name ends in
    [.html], and the names the renderer asks for end in [.j2]: whatever the templates, the
    message is that of an engine that never escapes. *)
Theorem templates_not_escaped {W C} (engine : bool → string → C → PyM W string) name (context : C) to subject cc bcc reply_to (w : W) :
  Jinja2EmailRenderer_render (λ n, engine (endswith ".html" (lower n)) n) name context to subject cc bcc reply_to w =
  Jinja2EmailRenderer_render (engine false) name context to subject cc bcc reply_to w.
Proof.
  assert (∀ suffix, endswith ".html" (lower (name +:+ suffix +:+ ".j2")) = false) as H.
  { intros suffix. apply not_true_iff_false. rewrite endswith_spec. intros [r Hr].
    assert (∀ a b, lower (a +:+ b) = lower a +:+ lower b) as Hl.
    { intros a b. induction a as [|c a IH]; [done|].
      change (String (lower_char c) (lower (a +:+ b)) = String (lower_char c) (lower a +:+ lower b)). by rewrite IH. }
    rewrite !Hl in Hr. change ".html" with (".htm" +:+ "l") in Hr. change (lower ".j2") with (".j" +:+ "2") in Hr.
    rewrite <- !app_assoc_str in Hr. by apply app_split_str in Hr as [_ ?]. }
  unfold Jinja2EmailRenderer_render. cbn beta.
  rewrite (H ".html" : endswith ".html" (lower (name +:+ ".html.j2")) = false), (H ".txt" : endswith ".html" (lower (name +:+ ".txt.j2")) = false),
    (H ".subject" : endswith ".html" (lower (name +:+ ".subject.j2")) = false). done.
Qed.

(** what the renderer falls back to.  A missing or failing text template gives a message
    without a plain body, and a missing subject template the subject of the call; a subject
    template that renders replaces the subject the caller gave. *)
Theorem renderer_fallbacks {C} (templates : string → C → outcome string) name (context : C) to subject cc bcc reply_to html :
  templates (name +:+ ".html.j2") context = Return html →
  (∀ n e, templates n context = Raise e → is_Exception e = true) →
  fst (Jinja2EmailRenderer_render (λ n c, from_outcome (templates n c)) name context to subject cc bcc reply_to tt) =
  Return (mkEmail to
    (match templates (name +:+ ".subject.j2") context with Return t => strip t | Raise _ => default "" subject end) html
    (default [] cc) (default [] bcc)
    (match templates (name +:+ ".txt.j2") context with Return t => Some t | Raise _ => None end) [] reply_to).
Proof.
  intros Hh He. unfold Jinja2EmailRenderer_render, mbind, PyM_bind, from_outcome. rewrite Hh.
  unfold try_except, try_base. destruct (templates (name +:+ ".txt.j2") context) as [t|e] eqn:Et; [|rewrite (He _ _ Et)];
    (destruct (templates (name +:+ ".subject.j2") context) as [t'|e'] eqn:Es; [|rewrite (He _ _ Es)]); done.
Qed.

(** ** Witnesses *)

(** Addresses without a comma, joined with a comma and a blank. *)
Definition demo_message : EmailMessage :=
  mkEmail ["a@x"; "b@x"] "hi" "<p>hi</p>" ["c@x"] ["d@x"] None [mkAttachment "f.txt" "text/plain" [104; 105]%Z] None.

Fixpoint split_commas (current s : string) : list string :=
  match s with
  | "" => [current]
  | String "," (String " " s') => current :: split_commas "" s'
  | String c s' => split_commas (current +:+ String c "") s'
  end.

Lemma recipients_reached_witness :
  smtp_recipients (split_commas "") (SmtpEmailSender_build_mime None demo_message) = ["a@x"; "b@x"; "c@x"] ∧
  ses_recipients (ses_destination demo_message) = ["a@x"; "b@x"; "c@x"; "d@x"].
Proof.
  destruct (recipients_reached (split_commas "") demo_message None (mkMailgun "" "" None "") "" None) as (H1 & _ & _ & H4).
  - intros l Hl _. rewrite !elem_of_cons in Hl. destruct Hl as [->|[->|[->|[]%elem_of_nil]]]; reflexivity.
  - done.
  - split; [exact H4|exact H1].
Defined.

Lemma attachments_carried_witness :
  omap sendgrid_attachment (items_of (field_in "attachments" (build_payload demo_message "me@x" None))) = em_attachments demo_message.
Proof.
  apply (attachments_carried demo_message None (mkMailgun "" "" None "") "me@x" None []).
  repeat constructor; unfold is_byte; lia.
Defined.

(** A mail server that refuses connections. *)
#[export] Instance refusing_server : SmtpClient (list string) nat := {|
  smtp_new := mret 7%nat;
  smtp_connect _ := raise (exn_of ["SMTPConnectError"] "refused");
  smtp_starttls _ := mret tt;
  smtp_login _ _ _ := mret tt;
  smtp_quit _ := mret tt;
  smtp_send_message _ _ := raise (exn_of ["SMTPServerDisconnected"] "not connected");
|}.

Lemma smtp_failed_connect_sticks_witness :
  let cfg := mkSmtpConfig None None true in
  SmtpEmailSender_send (mret "id") cfg demo_message (None, []) = (Raise (exn_of ["SMTPConnectError"] "refused"), (Some 7%nat, [])) ∧
  fst (SmtpEmailSender_send (mret "id") cfg demo_message (Some 7%nat, [])) = Raise (exn_of ["SMTPServerDisconnected"] "not connected").
Proof.
  destruct (smtp_failed_connect_sticks (W := list string) (mret "id") (mkSmtpConfig None None true) demo_message demo_message [] [] [] 7%nat
    (exn_of ["SMTPConnectError"] "refused")) as [H1 H2]; [reflexivity..|]. split; [exact H1|]. rewrite H2. reflexivity.
Defined.

(** Responses that are a status and nothing else. *)
#[export] Instance status_response : HttpxResponse Z := {|
  rs_status_code r := r;
  rs_raise_for_status r := if Z.ltb r 400 then Return tt else Raise (exn_of ["HTTPStatusError"; "HTTPError"] (str_of_int r));
  rs_json _ := Return (VDict [("sid", VStr "SM1")]);
  rs_text _ := "";
  rs_has_content _ := false;
  rs_header _ _ := None;
|}.

Definition demo_twilio : TwilioConfig := mkTwilio "AC" "t" "+1" 3.

Lemma twilio_exact_witness :
  TwilioSmsSender_send script_post script_sleep demo_twilio "u" (mkSms "+2" "hi" None) ([429; 429; 201]%Z, []) =
    (Return (VStr "SM1"), ([], [1; 2]%Z)).
Proof.
  destruct (twilio_exact demo_twilio "u" (mkSms "+2" "hi" None) [429; 429]%Z 201%Z []) as [H _]; [by repeat constructor|by unfold limited|].
  apply H. simpl. lia.
Defined.

Lemma fcm_answers_every_device_witness :
  let n := mkPush ["d1"; "d2"] "t" "b" [] None None in
  ∃ results w', FCMPushSender_send (script_post (R := Z)) (λ _, "") "u" "k" n ([200%Z], []) = (Return results, w') ∧ sr_token <$> results = ["d1"; "d2"].
Proof.
  intros n. destruct (fcm_answers_every_device (script_post (R := Z)) (λ _, "") "u" "k" n ([200%Z], [])) as (rs & w' & H1 & H2 & _).
  - intros rq [[|r l] s] e; [|done]. by intros [= <-].
  - done.
  - exists rs, w'. split; [exact H1|exact H2].
Defined.

Lemma renderer_fallbacks_witness :
  let templates (n : string) (_ : unit) : outcome string :=
    if String.eqb n "welcome.html.j2" then Return "<p>hi</p>" else Raise (exn_of ["TemplateNotFound"] n) in
  fst (Jinja2EmailRenderer_render (λ n c, from_outcome (templates n c)) "welcome" tt ["a@x"] (Some "Hello") None None None tt) =
    Return (mkEmail ["a@x"] "Hello" "<p>hi</p>" [] [] None [] None).
Proof.
  intros templates. rewrite (renderer_fallbacks templates "welcome" tt ["a@x"] (Some "Hello") None None None "<p>hi</p>"); [reflexivity..|].
  intros n e. unfold templates. destruct (String.eqb n "welcome.html.j2"); [done|]. by intros [= <-].
Defined.
