(* ===== verification/Metrics.v ===== *)
(** * Metrics and probes

    [observability/metrics] (port, no-op, business metrics), the metrics of
    [adapters/prometheus] and [adapters/opentelemetry], the exporter of health checks, the
    recording fake of [testing/fakes/metrics.py], and the ready-made health checks of
    [observability/health].  The client libraries are arguments; what an instrument of the
    Prometheus client does with labels is the contract [PromSpec]. *)
From S2P Require Import Prelude PyString OrderedDict PyValue Masking Observability Mail.

#[local] Abbreviation labels := (list (string * string)).

(** ** The port *)

Inductive metric_call :=
  | MAdd (value : Q) | MRecord (value : Q) | MSet (value : Q) | MInc | MDec.

(** ** Prometheus *)

Inductive prom_kind := PCounter | PHistogram | PGauge.

#[export] Instance prom_kind_eq_dec : EqDecision prom_kind.
Proof. solve_decision. Defined.

(** The client: creating an instrument in the registry, and an operation on it - on the child
    [labels(v1, ..., vn)] or on the instrument itself. *)
Class PromClient (W I : Type) := {
  pc_new : prom_kind → string → string → list string → option (list Q) → PyM W I;
  pc_op : I → option (list string) → metric_call → PyM W unit;
}.

(** [[labels.get(k, "") for k in sorted(labels)]] when there are labels. *)
Definition label_values (d : option labels) : option (list string) :=
  match d with
  | None | Some [] => None
  | Some d => Some ((λ k, default "" (od_get k d)) <$> sorted_strings d.*1)
  end.

Section Prometheus.
Context {W I : Type} `{PromClient W I}.

Definition PrometheusCounter_add (i : I) (value : Q) (d : option labels) : PyM W unit := pc_op i (label_values d) (MAdd value).
Definition PrometheusHistogram_record (i : I) (value : Q) (d : option labels) : PyM W unit := pc_op i (label_values d) (MRecord value).
Definition PrometheusGauge_set (i : I) (value : Q) (d : option labels) : PyM W unit := pc_op i (label_values d) (MSet value).
Definition PrometheusGauge_inc (i : I) (d : option labels) : PyM W unit := pc_op i (label_values d) MInc.
Definition PrometheusGauge_dec (i : I) (d : option labels) : PyM W unit := pc_op i (label_values d) MDec.

(** The three caches, by the short name. *)
Record PrometheusMetrics := mkProm {
  pm_counters : list (string * I);
  pm_histograms : list (string * I);
  pm_gauges : list (string * I);
}.

Context (namespace : string).

Definition PrometheusMetrics_full_name (name : string) : string := if String.eqb namespace "" then name else namespace +:+ "_" +:+ name.

(** [kwargs["labelnames"] = sorted(labelnames)], only when there are any. *)
Definition declared (labelnames : option (list string)) : list string := sorted_strings (default [] labelnames).

(** [description or name]. *)
Definition described (description name : string) : string := if String.eqb description "" then name else description.

Definition PrometheusMetrics_counter (name description : string) (labelnames : option (list string)) : PyM (PrometheusMetrics * W) I :=
  cached ← reads (λ s, od_get name (pm_counters (fst s)));
  match cached with
  | Some i => mret i
  | None =>
      i ← on_snd (pc_new PCounter (PrometheusMetrics_full_name name) (described description name) (declared labelnames) None);
      updates (λ s, (mkProm (od_set name i (pm_counters (fst s))) (pm_histograms (fst s)) (pm_gauges (fst s)), snd s)) ;;
      mret i
  end.

(** [if boundaries: kwargs["buckets"] = boundaries]. *)
Definition PrometheusMetrics_histogram (name description : string) (boundaries : option (list Q)) (labelnames : option (list string))
    : PyM (PrometheusMetrics * W) I :=
  cached ← reads (λ s, od_get name (pm_histograms (fst s)));
  match cached with
  | Some i => mret i
  | None =>
      i ← on_snd (pc_new PHistogram (PrometheusMetrics_full_name name) (described description name) (declared labelnames)
                    (match boundaries with Some [] => None | b => b end));
      updates (λ s, (mkProm (pm_counters (fst s)) (od_set name i (pm_histograms (fst s))) (pm_gauges (fst s)), snd s)) ;;
      mret i
  end.

Definition PrometheusMetrics_gauge (name description : string) (labelnames : option (list string)) : PyM (PrometheusMetrics * W) I :=
  cached ← reads (λ s, od_get name (pm_gauges (fst s)));
  match cached with
  | Some i => mret i
  | None =>
      i ← on_snd (pc_new PGauge (PrometheusMetrics_full_name name) (described description name) (declared labelnames) None);
      updates (λ s, (mkProm (pm_counters (fst s)) (pm_histograms (fst s)) (od_set name i (pm_gauges (fst s))), snd s)) ;;
      mret i
  end.

(** *** The exporter of health checks *)

Record PrometheusHealthExporter := mkExporter { he_gauge : I; he_latency_gauge : option I }.

Definition PrometheusHealthExporter_init (export_latency : bool) : PyM (PrometheusMetrics * W) PrometheusHealthExporter :=
  g ← PrometheusMetrics_gauge "health_check" "Health check status (1=healthy, 0=unhealthy)" (Some ["name"]);
  if export_latency then
    l ← PrometheusMetrics_gauge "health_check_latency_ms" "Health check latency in milliseconds" (Some ["name"]);
    mret (mkExporter g (Some l))
  else mret (mkExporter g None).

(** The body of the loop over the results. *)
Definition export_result (x : PrometheusHealthExporter) (e : string * HealthStatus) : PyM W unit :=
  PrometheusGauge_set (he_gauge x) (if hs_healthy (snd e) then 1 else 0) (Some [("name", fst e)]) ;;
  match he_latency_gauge x with
  | Some l => PrometheusGauge_set l (hs_latency_ms (snd e)) (Some [("name", fst e)])
  | None => mret tt
  end.

Definition PrometheusHealthExporter_collect (run_all : PyM W HealthReport) (x : PrometheusHealthExporter) : PyM W unit :=
  report ← run_all; for_each report (export_result x).

(** [n] rounds of [while True], logging what a round raises. *)
Fixpoint PrometheusHealthExporter_collect_loop (run_all : PyM W HealthReport) (log_exception : pyexn → PyM W unit) (sleep : PyM W unit)
    (x : PrometheusHealthExporter) (n : nat) : PyM W unit :=
  match n with
  | O => mret tt
  | S n' =>
      try_except (PrometheusHealthExporter_collect run_all x) log_exception ;;
      sleep ;;
      PrometheusHealthExporter_collect_loop run_all log_exception sleep x n'
  end.

(** *** Business metrics, through the port *)

Record BusinessMetric := mkBusiness { bm_name : string; bm_description : string; bm_unit : string; bm_labels : list string }.

Definition BusinessMetric_record (m : BusinessMetric) (value : Q) (label_values : labels) : PyM (PrometheusMetrics * W) unit :=
  hist ← PrometheusMetrics_histogram (bm_name m) (bm_description m) None None;
  on_snd (PrometheusHistogram_record hist value (match label_values with [] => None | d => Some d end)).

End Prometheus.
Arguments PrometheusMetrics I : clear implicits.
Arguments PrometheusHealthExporter I : clear implicits.

(** What the documentation of the client says of labels: an operation needs exactly one value
    per label name, in the order of the names; otherwise it raises [ValueError]. *)
Definition apply_call (c : metric_call) (old : Q) : Q :=
  match c with MAdd v | MRecord v => old + v | MSet v => v | MInc => old + 1 | MDec => old - 1 end.

(** A counter does not accept a negative amount. *)
Definition allowed_call (c : metric_call) : Prop := match c with MAdd v => (0 <= v)%Q | _ => True end.

Class PromSpec (W I : Type) `{PromClient W I, EqDecision I} := {
  pc_labelnames : I → list string;
  pc_value : W → I → list string → Q;
  pc_new_spec k name description names buckets w i w' :
    pc_new k name description names buckets w = (Return i, w') → pc_labelnames i = names;
  pc_op_child i vs c w : length vs = length (pc_labelnames i) → vs ≠ [] → allowed_call c →
    ∃ w', pc_op i (Some vs) c w = (Return tt, w') ∧
      ∀ j us, pc_value w' j us = if decide ((j, us) = (i, vs)) then apply_call c (pc_value w i vs) else pc_value w j us;
  pc_op_mismatch i vs c w : length vs ≠ length (pc_labelnames i) →
    ∃ msg, pc_op i (Some vs) c w = (Raise (ValueError msg), w);
  pc_op_parent i c w : pc_labelnames i ≠ [] → ∃ msg, pc_op i None c w = (Raise (ValueError msg), w);
}.

(** ** OpenTelemetry *)

Section Otel.
Context {W Ins : Type} (create_counter create_histogram : string → string → string → PyM W Ins)
  (ins_add ins_record : Ins → Q → option labels → PyM W unit).

Definition OtelMetrics_counter (name description unit : string) : PyM W Ins := create_counter name description unit.

(** [boundaries] is not passed on. *)
Definition OtelMetrics_histogram (name description unit : string) (boundaries : option (list Q)) : PyM W Ins :=
  create_histogram name description unit.

Definition OtelCounter_add (c : Ins) (value : Q) (d : option labels) : PyM W unit := ins_add c value d.
Definition OtelHistogram_record (h : Ins) (value : Q) (d : option labels) : PyM W unit := ins_record h value d.

(** A gauge is a number of its own; the state is that number beside the world. *)
Definition OtelMetrics_gauge (name description unit : string) : PyM W Q := mret 0%Q.

Definition OtelGauge_set (value : Q) (d : option labels) : PyM (Q * W) unit := updates (λ s, (value, snd s)).
Definition OtelGauge_inc (d : option labels) : PyM (Q * W) unit := updates (λ s, ((fst s + 1)%Q, snd s)).
Definition OtelGauge_dec (d : option labels) : PyM (Q * W) unit := updates (λ s, ((fst s - 1)%Q, snd s)).

End Otel.

(** ** The recording fake *)

Record FakeCounter := mkFakeCounter { fc_calls : list (Q * option labels); fc_total : Q }.
Record FakeGauge := mkFakeGauge { fg_current : Q; fg_calls : list (string * option Q * option labels) }.

(** Instruments are named by their key: the dictionaries hold the only reference the registry has. *)
Record FakeMetricsRegistry := mkFakeMetrics {
  fm_counters : list (string * FakeCounter);
  fm_histograms : list (string * list (Q * option labels));
  fm_gauges : list (string * FakeGauge);
}.

Definition FakeMetricsRegistry_init : FakeMetricsRegistry := mkFakeMetrics [] [] [].

Definition FakeCounter_add (value : Q) (d : option labels) (c : FakeCounter) : FakeCounter :=
  mkFakeCounter (fc_calls c ++ [(value, d)]) (fc_total c + value).

Definition FakeGauge_set (value : Q) (d : option labels) (g : FakeGauge) : FakeGauge :=
  mkFakeGauge value (fg_calls g ++ [("set", Some value, d)]).
Definition FakeGauge_inc (d : option labels) (g : FakeGauge) : FakeGauge := mkFakeGauge (fg_current g + 1) (fg_calls g ++ [("inc", None, d)]).
Definition FakeGauge_dec (d : option labels) (g : FakeGauge) : FakeGauge := mkFakeGauge (fg_current g - 1) (fg_calls g ++ [("dec", None, d)]).

(** [if name not in d: d[name] = new], and what is then there. *)
Definition get_or_create {A} (name : string) (new : A) (d : list (string * A)) : list (string * A) :=
  match od_get name d with Some _ => d | None => od_set name new d end.

Definition FakeMetricsRegistry_counter (name : string) (r : FakeMetricsRegistry) : FakeMetricsRegistry :=
  mkFakeMetrics (get_or_create name (mkFakeCounter [] 0) (fm_counters r)) (fm_histograms r) (fm_gauges r).
Definition FakeMetricsRegistry_histogram (name : string) (r : FakeMetricsRegistry) : FakeMetricsRegistry :=
  mkFakeMetrics (fm_counters r) (get_or_create name [] (fm_histograms r)) (fm_gauges r).
Definition FakeMetricsRegistry_gauge (name : string) (r : FakeMetricsRegistry) : FakeMetricsRegistry :=
  mkFakeMetrics (fm_counters r) (fm_histograms r) (get_or_create name (mkFakeGauge 0 []) (fm_gauges r)).

(** [registry.counter(name).add(value, labels)] and the like. *)
Definition adjust {A} (name : string) (f : A → A) (d : list (string * A)) : list (string * A) :=
  match od_get name d with Some x => od_set name (f x) d | None => d end.

Definition counter_add (name : string) (value : Q) (d : option labels) (r : FakeMetricsRegistry) : FakeMetricsRegistry :=
  let r := FakeMetricsRegistry_counter name r in
  mkFakeMetrics (adjust name (FakeCounter_add value d) (fm_counters r)) (fm_histograms r) (fm_gauges r).
Definition histogram_record (name : string) (value : Q) (d : option labels) (r : FakeMetricsRegistry) : FakeMetricsRegistry :=
  let r := FakeMetricsRegistry_histogram name r in
  mkFakeMetrics (fm_counters r) (adjust name (λ calls, calls ++ [(value, d)]) (fm_histograms r)) (fm_gauges r).

Definition AssertionError (msg : string) : pyexn := exn_of ["AssertionError"] msg.

Definition FakeMetricsRegistry_assert_counter_incremented (name : string) (n : Z) (r : FakeMetricsRegistry) : outcome unit :=
  match od_get name (fm_counters r) with
  | None => Raise (AssertionError ("Counter '" +:+ name +:+ "' was never created"))
  | Some c =>
      if Z.eqb (Z.of_nat (length (fc_calls c))) n then Return tt
      else Raise (AssertionError ("Counter '" +:+ name +:+ "' was incremented " +:+ str_of_int (Z.of_nat (length (fc_calls c))) +:+
                                  " time(s), expected " +:+ str_of_int n))
  end.

Definition FakeMetricsRegistry_assert_counter_total (float_repr : Q → string) (name : string) (total : Q) (r : FakeMetricsRegistry) : outcome unit :=
  match od_get name (fm_counters r) with
  | None => Raise (AssertionError ("Counter '" +:+ name +:+ "' was never created"))
  | Some c =>
      if Qeq_bool (fc_total c) total then Return tt
      else Raise (AssertionError ("Counter '" +:+ name +:+ "' total is " +:+ float_repr (fc_total c) +:+ ", expected " +:+ float_repr total))
  end.

Definition FakeMetricsRegistry_reset (r : FakeMetricsRegistry) : FakeMetricsRegistry := mkFakeMetrics [] [] [].

(** ** Ready-made health checks *)

Definition unhealthy (detail : string) : HealthStatus := mkHealth false (Some detail) 0.
Definition healthy (detail : string) : HealthStatus := mkHealth true (Some detail) 0.

(** [try: ... except Exception: pass] around a call. *)
Definition quietly {W} (m : PyM W unit) : PyM W unit := try_except m (λ _, mret tt).

(** [except Exception as exc: return HealthStatus(healthy=False, detail=str(exc))]. *)
Definition or_unhealthy {W} (m : PyM W HealthStatus) : PyM W HealthStatus := try_except m (λ exc, mret (unhealthy (exn_msg exc))).

Section Probes.
Context {W : Type}.

(** [installed] tells whether the optional library can be imported. *)
Definition KafkaHealthCheck_check {Cl} (installed : bool) (new : PyM W Cl) (start : Cl → PyM W unit)
    (list_topics : Cl → PyM W (list string)) (close : Cl → PyM W unit) : PyM W HealthStatus :=
  if installed then
    client ← new;
    try_finally
      (or_unhealthy
        (start client ;;
         topics ← list_topics client;
         mret (healthy ("connected; " +:+ str_of_int (Z.of_nat (length topics)) +:+ " topic(s)"))))
      (quietly (close client))
  else mret (unhealthy "aiokafka not installed").

(** The connection is drained only if there is one. *)
Definition NatsHealthCheck_check {Cl} (installed : bool) (connect : PyM W Cl) (connected_url : Cl → string) (drain : Cl → PyM W unit)
    : PyM W HealthStatus :=
  if installed then
    λ w, match connect w with
         | (Raise e, w1) => or_unhealthy (raise e) w1
         | (Return nc, w1) =>
             try_finally (or_unhealthy (mret (healthy ("connected to " +:+ connected_url nc)))) (quietly (drain nc)) w1
         end
  else mret (unhealthy "nats-py not installed").

Context {R : Type} `{HttpxResponse R} (http_get : string → PyM W R).

Definition rstrip_slash (url : string) : string := rstrip_by (Ascii.eqb "/") url.

Definition RabbitMQHealthCheck_check (installed : bool) (url : string) : PyM W HealthStatus :=
  if installed then
    or_unhealthy
      (response ← http_get (rstrip_slash url +:+ "/api/aliveness-test/%2F");
       mret (if Z.eqb (rs_status_code response) 200 then healthy "alive"
             else unhealthy ("management API returned " +:+ str_of_int (rs_status_code response))))
  else mret (unhealthy "httpx not installed").

Definition ElasticsearchHealthCheck_check (float_repr : Q → string) (installed : bool) (hosts : string) : PyM W HealthStatus :=
  if installed then
    or_unhealthy
      (response ← http_get (rstrip_slash hosts +:+ "/_cluster/health");
       if Z.eqb (rs_status_code response) 200 then
         data ← from_outcome (rs_json response);
         status ← from_outcome (py_get "status" data);
         let status := default (VStr "unknown") status in
         mret (mkHealth (py_eq status (VStr "green") || py_eq status (VStr "yellow"))
                 (Some ("cluster status: " +:+ doc_str float_repr status)) 0)
       else mret (unhealthy ("health endpoint returned " +:+ str_of_int (rs_status_code response))))
  else mret (unhealthy "httpx not installed").

Definition LambdaHealthCheck_check (fn : PyM W HealthStatus) : PyM W HealthStatus := fn.

(** [async with factory() as session]: leaving the block closes the session and may raise. *)
Definition DatabaseHealthCheck_check {Se} (open : PyM W Se) (select_1 : Se → PyM W unit) (leave : Se → PyM W unit) : PyM W HealthStatus :=
  or_unhealthy (session ← open; try_finally (select_1 session) (leave session) ;; mret (mkHealth true None 0)).

Definition RedisHealthCheck_check (ping : PyM W unit) : PyM W HealthStatus := or_unhealthy (ping ;; mret (mkHealth true None 0)).

Definition HttpEndpointHealthCheck_name (url : string) : string := "http:" +:+ url.

Definition HttpEndpointHealthCheck_check (url : string) (expected : Z) : PyM W HealthStatus :=
  or_unhealthy
    (resp ← http_get url;
     mret (if Z.eqb (rs_status_code resp) expected then mkHealth true None 0
           else unhealthy ("status=" +:+ str_of_int (rs_status_code resp)))).

End Probes.

(** ** Lemmas *)

(** *** Labels *)

Lemma label_values_perm names (d : labels) :
  d.*1 ≡ₚ names → d ≠ [] → label_values (Some d) = Some ((λ k, default "" (od_get k d)) <$> sorted_strings names).
Proof. intros Hp Hd. unfold label_values. destruct d as [|e d]; [done|]. by rewrite (sorted_strings_perm _ names). Qed.

Lemma label_values_length (d : labels) vs : label_values (Some d) = Some vs → length vs = length d ∧ vs ≠ [].
Proof.
  unfold label_values. destruct d as [|e d]; [done|]. intros Hvs.
  assert (length vs = length (e :: d)) as Hl.
  { assert (vs = (λ k, default "" (od_get k (e :: d))) <$> sorted_strings (e :: d).*1) as -> by congruence.
    rewrite length_fmap, (Permutation_length (sorted_strings_elems _)). apply length_fmap. }
  split; [done|]. by intros ->.
Qed.

(** *** Probes *)

Lemma or_unhealthy_returns {W} (m : PyM W HealthStatus) w :
  (∀ e, fst (m w) = Raise e → is_Exception e = true) → ∃ s, or_unhealthy m w = (Return s, snd (m w)) ∧
    (fst (m w) = Return s ∨ ∃ e, fst (m w) = Raise e ∧ s = unhealthy (exn_msg e)).
Proof.
  intros He. unfold or_unhealthy, try_except, try_base. destruct (m w) as [[s|e] w'] eqn:E; simpl in *; [by eexists; auto|].
  rewrite He by done. eexists. split; [done|]. right. by exists e.
Qed.

Lemma quietly_returns {W} (m : PyM W unit) w :
  (∀ e, fst (m w) = Raise e → is_Exception e = true) → quietly m w = (Return tt, snd (m w)).
Proof.
  intros He. unfold quietly, try_except, try_base. destruct (m w) as [[[]|e] w'] eqn:E; simpl in *; [done|]. by rewrite He by done.
Qed.

(** *** Creating instruments *)

Section Creation.
Context {W I : Type} `{PromSpec W I}.

Lemma counter_created ns name description names s i s' :
  od_get name (pm_counters (fst s)) = None → PrometheusMetrics_counter ns name description names s = (Return i, s') →
  pc_labelnames i = declared names ∧ od_get name (pm_counters (fst s')) = Some i.
Proof.
  intros Hn. unfold PrometheusMetrics_counter, mbind, PyM_bind, reads, on_snd. rewrite Hn.
  destruct (pc_new _ _ _ _ _ (snd s)) as [[j|e] w'] eqn:E; [|done]. intros [= <- <-]. simpl.
  split; [by eapply pc_new_spec|apply od_get_set_eq].
Qed.

Lemma histogram_created ns name description boundaries names s i s' :
  od_get name (pm_histograms (fst s)) = None → PrometheusMetrics_histogram ns name description boundaries names s = (Return i, s') →
  pc_labelnames i = declared names.
Proof.
  intros Hn. unfold PrometheusMetrics_histogram, mbind, PyM_bind, reads, on_snd. rewrite Hn.
  destruct (pc_new _ _ _ _ _ (snd s)) as [[j|e] w'] eqn:E; [|done]. intros [= <- <-]. by eapply pc_new_spec.
Qed.

(** An operation with as many labels as the instrument has names. *)
Lemma op_counted i (d : labels) c w :
  d ≠ [] → length d = length (pc_labelnames i) → allowed_call c →
  ∃ vs w', label_values (Some d) = Some vs ∧ pc_op i (label_values (Some d)) c w = (Return tt, w') ∧
    ∀ j us, pc_value w' j us = if decide ((j, us) = (i, vs)) then apply_call c (pc_value w i vs) else pc_value w j us.
Proof.
  intros Hd Hl Hc. destruct (label_values (Some d)) as [vs|] eqn:E; [|by destruct d].
  destruct (label_values_length d vs E) as [Hvs Hne]. destruct (pc_op_child i vs c w) as (w' & Hw & Hv); [congruence|done..|].
  by exists vs, w'.
Qed.

Lemma op_miscounted i (d : labels) c w :
  d ≠ [] → length d ≠ length (pc_labelnames i) → ∃ msg, pc_op i (label_values (Some d)) c w = (Raise (ValueError msg), w).
Proof.
  intros Hd Hl. destruct (label_values (Some d)) as [vs|] eqn:E; [|by destruct d].
  destruct (label_values_length d vs E) as [Hvs _]. apply pc_op_mismatch. congruence.
Qed.

(** Exporting the results one after the other. *)
Lemma export_result_spec x e w :
  pc_labelnames (he_gauge x) = ["name"] → (∀ l, he_latency_gauge x = Some l → pc_labelnames l = ["name"] ∧ l ≠ he_gauge x) →
  ∃ w', export_result x e w = (Return tt, w') ∧
    pc_value w' (he_gauge x) [fst e] = (if hs_healthy (snd e) then 1 else 0) ∧
    (∀ l, he_latency_gauge x = Some l → pc_value w' l [fst e] = hs_latency_ms (snd e)) ∧
    (∀ i n, n ≠ fst e → pc_value w' i [n] = pc_value w i [n]).
Proof.
  intros Hg Hl. unfold export_result, PrometheusGauge_set, mbind, PyM_bind. change (label_values (Some [("name", fst e)])) with (Some [fst e]).
  destruct (pc_op_child (he_gauge x) [fst e] (MSet (if hs_healthy (snd e) then 1 else 0)) w) as (w1 & -> & Hw1); [by rewrite Hg|done..|].
  destruct (he_latency_gauge x) as [l|].
  - destruct (Hl l eq_refl) as [Hln Hne].
    destruct (pc_op_child l [fst e] (MSet (hs_latency_ms (snd e))) w1) as (w2 & -> & Hw2); [by rewrite Hln|done..|].
    exists w2. split; [done|]. split_and!.
    + rewrite Hw2, decide_False by (intros [= ?]; congruence). by rewrite Hw1, decide_True.
    + intros ? [= <-]. by rewrite Hw2, decide_True.
    + intros i n Hn. rewrite Hw2, decide_False by congruence. by rewrite Hw1, decide_False by congruence.
  - exists w1. split; [done|]. split_and!; [by rewrite Hw1, decide_True|done|].
    intros i n Hn. by rewrite Hw1, decide_False by congruence.
Qed.

Lemma export_results_spec x (report : HealthReport) w :
  pc_labelnames (he_gauge x) = ["name"] → (∀ l, he_latency_gauge x = Some l → pc_labelnames l = ["name"] ∧ l ≠ he_gauge x) → NoDup report.*1 →
  ∃ w', for_each report (export_result x) w = (Return tt, w') ∧
    (∀ n s, (n, s) ∈ report → pc_value w' (he_gauge x) [n] = (if hs_healthy s then 1 else 0) ∧
       (∀ l, he_latency_gauge x = Some l → pc_value w' l [n] = hs_latency_ms s)) ∧
    (∀ i n, n ∉ report.*1 → pc_value w' i [n] = pc_value w i [n]).
Proof.
  intros Hg Hl. revert w. induction report as [|[n s] report IH]; intros w Hnd; [exists w; split_and!; set_solver|].
  rewrite fmap_cons, NoDup_cons in Hnd. destruct Hnd as [Hn Hnd].
  destruct (export_result_spec x (n, s) w Hg Hl) as (w1 & Hw1 & Hv & Hlat & Hframe).
  destruct (IH w1 Hnd) as (w2 & Hw2 & Hin & Hout). exists w2. cbn [for_each]. unfold mbind, PyM_bind. rewrite Hw1, Hw2. split; [done|]. split.
  - intros n' s' [[= -> ->]|Hns]%elem_of_cons; [|by apply Hin]. rewrite Hout by done. split; [done|]. intros l Hll. rewrite Hout by done. by apply Hlat.
  - intros i n'. rewrite fmap_cons, not_elem_of_cons. intros [Hne Hnot]. rewrite Hout by done. by apply Hframe.
Qed.

End Creation.

(** *** The fake *)

Definition fake_counts (name : string) (r : FakeMetricsRegistry) : FakeCounter := default (mkFakeCounter [] 0) (od_get name (fm_counters r)).

Lemma counter_add_get name name' v d r :
  od_get name (fm_counters (counter_add name' v d r)) =
    if decide (name = name') then Some (FakeCounter_add v d (fake_counts name r)) else od_get name (fm_counters r).
Proof.
  unfold counter_add, FakeMetricsRegistry_counter, get_or_create, adjust, fake_counts. simpl.
  destruct (od_get name' (fm_counters r)) as [c|] eqn:E.
  - rewrite E. destruct (decide (name = name')) as [->|Hne]; [by rewrite od_get_set_eq, E|by rewrite od_get_set_ne].
  - rewrite od_get_set_eq. destruct (decide (name = name')) as [->|Hne]; [by rewrite od_get_set_eq, E|by rewrite !od_get_set_ne].
Qed.

(** ** Theorems *)

(** labels reach their names.  On a new counter declared with label names, adding with a
    dictionary of those names - in any order on either side - counts in the child in which
    every name has its value from the dictionary, and nowhere else. *)
Theorem labels_reach_names {W I} `{PromSpec W I} ns name description names (d : labels) v s i s1 :
  od_get name (pm_counters (fst s)) = None →
  PrometheusMetrics_counter ns name description (Some names) s = (Return i, s1) →
  d.*1 ≡ₚ names → d ≠ [] → (0 <= v)%Q →
  ∃ w', PrometheusCounter_add i v (Some d) (snd s1) = (Return tt, w') ∧
    let child := (λ k, default "" (od_get k d)) <$> pc_labelnames i in
    ∀ j us, pc_value w' j us = if decide ((j, us) = (i, child)) then (pc_value (snd s1) i child + v)%Q else pc_value (snd s1) j us.
Proof.
  intros Hnew Hc Hp Hd Hv. destruct (counter_created ns name description (Some names) s i s1 Hnew Hc) as [Hi _]. unfold declared in Hi. simpl in Hi.
  destruct (op_counted i d (MAdd v) (snd s1)) as (vs & w' & Hvs & Hw & Hval); [done| |done|].
  - rewrite Hi, (Permutation_length (sorted_strings_elems names)), <- (Permutation_length Hp). symmetry. apply length_fmap.
  - exists w'. split; [exact Hw|]. rewrite (label_values_perm names d Hp Hd) in Hvs. injection Hvs as <-. cbn zeta. rewrite Hi. exact Hval.
Qed.

(** labels are matched by their number, not their names.  An operation with a dictionary is
    accepted exactly when it has as many entries as the instrument has label names, whatever
    the names in it; otherwise it raises [ValueError] and counts nothing. *)
Theorem labels_matched_by_count {W I} `{PromSpec W I} (i : I) (d : labels) v (w : W) :
  d ≠ [] → (0 <= v)%Q →
  (length d = length (pc_labelnames i) → fst (PrometheusCounter_add i v (Some d) w) = Return tt) ∧
  (length d ≠ length (pc_labelnames i) → ∃ msg, PrometheusCounter_add i v (Some d) w = (Raise (ValueError msg), w)).
Proof.
  intros Hd Hv. split; intros Hl.
  - destruct (op_counted i d (MAdd v) w Hd Hl Hv) as (vs & w' & _ & Hw & _). unfold PrometheusCounter_add. by rewrite Hw.
  - by apply op_miscounted.
Qed.

(** a business metric cannot be recorded with labels.  Its histogram is created without label
    names, so the first record with a label - the names it declares included - raises
    [ValueError]. *)
Theorem business_metric_refused {W I} `{PromSpec W I} ns m v (d : labels) s i s1 :
  od_get (bm_name m) (pm_histograms (fst s)) = None →
  PrometheusMetrics_histogram ns (bm_name m) (bm_description m) None None s = (Return i, s1) → d ≠ [] →
  ∃ msg, BusinessMetric_record ns m v d s = (Raise (ValueError msg), s1).
Proof.
  intros Hnew Hc Hd. pose proof (histogram_created _ _ _ _ _ _ _ _ Hnew Hc) as Hi. unfold BusinessMetric_record, mbind, PyM_bind. rewrite Hc.
  unfold on_snd, PrometheusHistogram_record. destruct (op_miscounted i d (MRecord v) (snd s1)) as [msg Hm]; [done|rewrite Hi; by destruct d|].
  exists msg. destruct d as [|e d]; [done|]. rewrite Hm. by destruct s1.
Qed.

(** the exporter shows the report.  After a collection the gauge of every check is 1 or 0 as
    the report says, its latency gauge the latency of the report, and the children of other
    checks are untouched. *)
Theorem exporter_shows_report {W I} `{PromSpec W I} (x : PrometheusHealthExporter I) run_all report (w w1 : W) :
  pc_labelnames (he_gauge x) = ["name"] → (∀ l, he_latency_gauge x = Some l → pc_labelnames l = ["name"] ∧ l ≠ he_gauge x) →
  run_all w = (Return report, w1) → NoDup report.*1 →
  ∃ w', PrometheusHealthExporter_collect run_all x w = (Return tt, w') ∧
    (∀ n s, (n, s) ∈ report → pc_value w' (he_gauge x) [n] = (if hs_healthy s then 1 else 0) ∧
       (∀ l, he_latency_gauge x = Some l → pc_value w' l [n] = hs_latency_ms s)) ∧
    (∀ i n, n ∉ report.*1 → pc_value w' i [n] = pc_value w1 i [n]).
Proof.
  intros Hg Hl Hrun Hnd. unfold PrometheusHealthExporter_collect, mbind, PyM_bind. rewrite Hrun. by apply export_results_spec.
Qed.

(** the fake counts exactly.  After any additions its assertion on the number of increments of
    a counter passes for the number of additions to it and for no other, and its total is the
    sum of what was added. *)
Theorem fake_counts_exactly (adds : list (string * Q * option labels)) name n :
  let r := foldl (λ r a, counter_add (fst (fst a)) (snd (fst a)) (snd a) r) FakeMetricsRegistry_init adds in
  let mine := filter (λ a, fst (fst a) = name) adds in
  (FakeMetricsRegistry_assert_counter_incremented name n r = Return tt ↔ mine ≠ [] ∧ n = Z.of_nat (length mine)) ∧
  fc_total (fake_counts name r) = foldl Qplus 0 ((λ a, snd (fst a)) <$> mine).
Proof.
  cbn zeta. set (step := λ r a, counter_add (fst (fst a)) (snd (fst a)) (snd a) r).
  assert (let r := foldl step FakeMetricsRegistry_init adds in let mine := filter (λ a, fst (fst a) = name) adds in
    (od_get name (fm_counters r) = None ↔ mine = []) ∧ length (fc_calls (fake_counts name r)) = length mine ∧
    fc_total (fake_counts name r) = foldl Qplus 0 ((λ a, snd (fst a)) <$> mine)) as (Hnone & Hlen & Htot).
  { cbn zeta. induction adds as [|[[m v] d] adds IH] using rev_ind; [done|]. rewrite foldl_app, filter_app. cbn [foldl].
    set (r := foldl step FakeMetricsRegistry_init adds) in *. destruct IH as (IH1 & IH2 & IH3). unfold step at 1 2 3. cbn [fst snd].
    unfold fake_counts at 1 2. rewrite !counter_add_get. rewrite filter_cons. cbn [fst]. destruct (decide (name = m)) as [->|Hne].
    - rewrite decide_True by done. cbn [default filter list_filter]. split_and!.
      + split; [done|]. intros Hnil. apply (f_equal length) in Hnil. rewrite length_app in Hnil. simpl in Hnil. lia.
      + simpl. rewrite !length_app. simpl. by rewrite IH2.
      + rewrite fmap_app, foldl_app. simpl. by rewrite IH3.
    - rewrite decide_False by done. rewrite app_nil_r. fold (fake_counts name r). done. }
  split; [|done]. unfold FakeMetricsRegistry_assert_counter_incremented. unfold fake_counts in Hlen. fold step.
  destruct (od_get name (fm_counters (foldl step FakeMetricsRegistry_init adds))) as [c|] eqn:E.
  - simpl in Hlen. rewrite Hlen. assert (filter (λ a, fst (fst a) = name) adds ≠ []) by (intros Hnil; apply Hnone in Hnil; congruence).
    destruct (Z.eqb_spec (Z.of_nat (length (filter (λ a, fst (fst a) = name) adds))) n); naive_solver.
  - split; [done|]. intros [Hne _]. exfalso. apply Hne. by apply Hnone.
Qed.

(** a Kafka probe answers and cleans up.  Once the client object exists, whatever the broker
    does the probe returns a status, healthy exactly when starting and listing succeed, and
    the last thing it does is to close the client. *)
Theorem kafka_probe_closes {W Cl} (new : PyM W Cl) start (list_topics : Cl → PyM W (list string)) close (w w1 : W) c :
  (∀ w e, fst (start c w) = Raise e → is_Exception e = true) → (∀ w e, fst (list_topics c w) = Raise e → is_Exception e = true) →
  (∀ w e, fst (close c w) = Raise e → is_Exception e = true) → new w = (Return c, w1) →
  ∃ s w2, KafkaHealthCheck_check true new start list_topics close w = (Return s, snd (close c w2)) ∧
    (hs_healthy s = true ↔ ∃ topics w', start c w1 = (Return tt, w') ∧ list_topics c w' = (Return topics, w2)).
Proof.
  intros Hstart Hlist Hclose Hnew. unfold KafkaHealthCheck_check. unfold mbind at 1, PyM_bind at 1. rewrite Hnew. unfold try_finally.
  set (m := start c ;; _). destruct (or_unhealthy_returns m w1) as (s & Hs & Hcase).
  - intros e. subst m. unfold mbind, PyM_bind. destruct (start c w1) as [[[]|e'] w2] eqn:E1; simpl.
    + destruct (list_topics c w2) as [[l|e'] w3] eqn:E2; [done|]. simpl. intros [= <-]. apply (Hlist w2). by rewrite E2.
    + intros [= <-]. apply (Hstart w1). by rewrite E1.
  - exists s, (snd (m w1)). rewrite Hs. rewrite quietly_returns by apply Hclose. split; [done|]. subst m. unfold mbind, PyM_bind in *.
    destruct (start c w1) as [[[]|e'] w2]; simpl in *.
    + destruct (list_topics c w2) as [[l|e'] w3] eqn:E2; simpl in *.
      * destruct Hcase as [[= <-]|(e & ? & _)]; [|done]. split; [|done]. intros _. by exists l, w2.
      * destruct Hcase as [?|(e & _ & ->)]; [done|]. split; [done|]. intros (? & ? & [= <-] & ?). congruence.
    + destruct Hcase as [?|(e & _ & ->)]; [done|]. split; [done|]. by intros (? & ? & ? & ?).
Qed.

(** the HTTP probes answer.  If the HTTP client raises ordinary exceptions only, each probe
    returns a status; it is healthy exactly for the response it asks for - 200, the expected
    status, a cluster that is green or yellow. *)
Theorem http_probes_answer {W R} `{HttpxResponse R} (http_get : string → PyM W R) float_repr url expected (w : W) :
  (∀ u w e, fst (http_get u w) = Raise e → is_Exception e = true) → (∀ (r : R) e, rs_json r = Raise e → is_Exception e = true) →
  (∃ s, fst (RabbitMQHealthCheck_check http_get true url w) = Return s ∧
     (hs_healthy s = true ↔ ∃ r, fst (http_get (rstrip_slash url +:+ "/api/aliveness-test/%2F") w) = Return r ∧ rs_status_code r = 200%Z)) ∧
  (∃ s, fst (HttpEndpointHealthCheck_check http_get url expected w) = Return s ∧
     (hs_healthy s = true ↔ ∃ r, fst (http_get url w) = Return r ∧ rs_status_code r = expected)) ∧
  (∃ s, fst (ElasticsearchHealthCheck_check http_get float_repr true url w) = Return s ∧
     (hs_healthy s = true → ∃ r v, fst (http_get (rstrip_slash url +:+ "/_cluster/health") w) = Return r ∧ rs_status_code r = 200%Z ∧
        (rs_json r ≫= py_get "status") = Return (Some v) ∧ (py_eq v (VStr "green") || py_eq v (VStr "yellow")) = true)).
Proof.
  intros Hget Hjson. unfold RabbitMQHealthCheck_check, HttpEndpointHealthCheck_check, ElasticsearchHealthCheck_check, or_unhealthy, try_except, try_base.
  unfold mbind at 1 2 3, PyM_bind at 1 2 3. split_and!.
  - pose proof (Hget (rstrip_slash url +:+ "/api/aliveness-test/%2F") w) as Hg. destruct (http_get _ w) as [[r|e] w1]; simpl in *.
    + eexists. split; [done|]. destruct (Z.eqb_spec (rs_status_code r) 200); naive_solver.
    + rewrite Hg by done. eexists. split; [done|]. naive_solver.
  - pose proof (Hget url w) as Hg. destruct (http_get _ w) as [[r|e] w1]; simpl in *.
    + eexists. split; [done|]. destruct (Z.eqb_spec (rs_status_code r) expected); naive_solver.
    + rewrite Hg by done. eexists. split; [done|]. naive_solver.
  - pose proof (Hget (rstrip_slash url +:+ "/_cluster/health") w) as Hg. destruct (http_get _ w) as [[r|e] w1]; simpl in *.
    + destruct (Z.eqb_spec (rs_status_code r) 200) as [H200|]; [|eexists; split; [done|]; naive_solver].
      unfold mbind, PyM_bind, outcome_bind, from_outcome. pose proof (Hjson r) as Hj. destruct (rs_json r) as [data|e] eqn:Ej; simpl.
      * destruct (py_get "status" data) as [o|e] eqn:Eg; simpl.
        -- eexists. split; [done|]. simpl. intros Hh. destruct o as [v|]; [|by vm_compute in Hh]. exists r, v. by rewrite Ej.
        -- rewrite (py_get_exn _ _ _ Eg). eexists. split; [done|]. naive_solver.
      * rewrite Hj by done. eexists. split; [done|]. naive_solver.
    + rewrite Hg by done. eexists. split; [done|]. naive_solver.
Qed.

(** ** Witnesses

    A registry in memory: an instrument is its number with its label names. *)

Record MemRegistry := mkMem { mr_next : nat; mr_values : list ((nat * list string) * list string * Q) }.

Definition mem_value (w : MemRegistry) (i : nat * list string) (vs : list string) : Q := default 0%Q (od_get (i, vs) (mr_values w)).

Definition mem_op (i : nat * list string) (vs : option (list string)) (c : metric_call) : PyM MemRegistry unit := λ w,
  let vs := default [] vs in
  if Nat.eqb (length vs) (length (snd i)) then
    (Return tt, mkMem (mr_next w) (od_set (i, vs) (apply_call c (mem_value w i vs)) (mr_values w)))
  else (Raise (ValueError "Incorrect label count"), w).

#[export] Instance mem_client : PromClient MemRegistry (nat * list string) := {|
  pc_new _ _ _ names _ := λ w, (Return (mr_next w, names), mkMem (S (mr_next w)) (mr_values w));
  pc_op := mem_op;
|}.

#[export] Instance mem_spec : PromSpec MemRegistry (nat * list string).
Proof.
  refine {| pc_labelnames i := snd i; pc_value := mem_value |}.
  - intros k name description names buckets w i w' Heq. by injection Heq as <- <-.
  - intros i vs c w Hl Hne Hc. change (pc_op i (Some vs) c w) with (mem_op i (Some vs) c w). unfold mem_op. simpl.
    rewrite (proj2 (Nat.eqb_eq _ _) Hl). eexists. split; [done|]. intros j us. unfold mem_value at 1. cbn [mr_values].
    destruct (decide ((j, us) = (i, vs))) as [->|Hne']; [by rewrite od_get_set_eq|]. by rewrite od_get_set_ne by congruence.
  - intros i vs c w Hl. exists "Incorrect label count". change (pc_op i (Some vs) c w) with (mem_op i (Some vs) c w). unfold mem_op. simpl.
    by rewrite (proj2 (Nat.eqb_neq _ _) Hl).
  - intros i c w Hl. exists "Incorrect label count". change (pc_op i None c w) with (mem_op i None c w). unfold mem_op. simpl.
    destruct (snd i); [done|done].
Defined.

Definition no_metrics : PrometheusMetrics (nat * list string) * MemRegistry := (mkProm [] [] [], mkMem 0 []).

Lemma labels_reach_names_witness :
  ∃ w', PrometheusCounter_add (0%nat, ["method"; "status"]) 1 (Some [("status", "200"); ("method", "GET")]) (mkMem 1 []) = (Return tt, w') ∧
    mem_value w' (0%nat, ["method"; "status"]) ["GET"; "200"] = 1%Q.
Proof.
  destruct (labels_reach_names "" "http_requests" "" ["status"; "method"] [("status", "200"); ("method", "GET")] 1 no_metrics
    (0%nat, ["method"; "status"]) (mkProm [("http_requests", (0%nat, ["method"; "status"]))] [] [], mkMem 1 [])) as (w' & Hw & Hv);
    [done|reflexivity|done|done|done|].
  exists w'. split; [exact Hw|]. specialize (Hv (0%nat, ["method"; "status"]) ["GET"; "200"]). exact Hv.
Defined.

Lemma labels_matched_by_count_witness :
  fst (PrometheusCounter_add (0%nat, ["method"]) 1 (Some [("colour", "red")]) (mkMem 1 [])) = Return tt.
Proof. apply (labels_matched_by_count (0%nat, ["method"]) [("colour", "red")] 1 (mkMem 1 [])); done. Defined.

Lemma business_metric_refused_witness :
  ∃ msg s1, BusinessMetric_record "" (mkBusiness "orders" "" "" ["region"]) 1 [("region", "eu")] no_metrics = (Raise (ValueError msg), s1).
Proof.
  destruct (business_metric_refused "" (mkBusiness "orders" "" "" ["region"]) 1 [("region", "eu")] no_metrics (0%nat, [])
    (mkProm [] [("orders", (0%nat, []))] [], mkMem 1 [])) as [msg Hm]; [reflexivity|reflexivity|done|]. eexists _, _. exact Hm.
Defined.

Lemma exporter_shows_report_witness :
  ∃ w', PrometheusHealthExporter_collect (mret [("db", mkHealth true None 3); ("redis", mkHealth false None 7)])
      (mkExporter (0%nat, ["name"]) (Some (1%nat, ["name"]))) (mkMem 2 []) = (Return tt, w') ∧
    mem_value w' (0%nat, ["name"]) ["redis"] = 0%Q ∧ mem_value w' (1%nat, ["name"]) ["redis"] = 7%Q.
Proof.
  destruct (exporter_shows_report (mkExporter (0%nat, ["name"]) (Some (1%nat, ["name"])))
    (mret (M := PyM MemRegistry) [("db", mkHealth true None 3); ("redis", mkHealth false None 7)])
    [("db", mkHealth true None 3); ("redis", mkHealth false None 7)] (mkMem 2 []) (mkMem 2 [])) as (w' & Hw & Hv & _).
  - reflexivity.
  - intros l [= <-]. by split.
  - reflexivity.
  - apply (bool_decide_unpack _). by vm_compute.
  - exists w'. split; [exact Hw|]. destruct (Hv "redis" (mkHealth false None 7)) as [Hg Hl]; [set_solver|].
    split; [exact Hg|]. apply Hl. reflexivity.
Defined.

Lemma kafka_probe_closes_witness :
  ∃ s w2, KafkaHealthCheck_check true (mret tt) (λ _, raise (exn_of ["KafkaConnectionError"] "down")) (λ _, mret [])
    (λ _, updates (λ n, S n)) 0%nat = (Return s, S w2) ∧ hs_healthy s = false.
Proof.
  destruct (kafka_probe_closes (mret (M := PyM nat) tt) (λ _, raise (exn_of ["KafkaConnectionError"] "down")) (λ _, mret []) (λ _, updates (λ n, S n))
    0%nat 0%nat tt) as (s & w2 & Hk & Hh); [by intros w e [= <-]|done|done|done|].
  exists s, w2. split; [exact Hk|]. destruct (hs_healthy s); [|done]. destruct (proj1 Hh eq_refl) as (t & w' & He & _). discriminate He.
Defined.

Lemma http_probes_answer_witness :
  ∃ s, fst (HttpEndpointHealthCheck_check (λ _, mret 204%Z) "http://x" 204 tt) = Return s ∧ hs_healthy s = true.
Proof.
  destruct (http_probes_answer (λ _, mret (M := PyM unit) 204%Z) (λ _, "") "http://x" 204 tt) as (_ & (s & Hs & Hh) & _); [done|done|].
  exists s. split; [exact Hs|]. apply Hh. by exists 204%Z.
Defined.
