(* ===== verification/Tracing.v ===== *)
(** * Tracing

    [observability/tracing] (spans as context managers) and [adapters/opentelemetry]: the span
    and tracer adapters, the stack of spans of an instrumented database connection, the
    carriers that put a trace context into Kafka and NATS headers, the log enricher.  The
    OpenTelemetry SDK is an argument. *)
From S2P Require Import Prelude PyString OrderedDict PyValue ValueObjects Sha256.

(** ** Spans *)

Class SpanOps (W Sp : Type) := {
  sp_set_attribute : Sp → string → pyval → PyM W unit;
  sp_set_status_ok : Sp → PyM W unit;
  sp_record_exception : Sp → pyexn → PyM W unit;
  sp_end : Sp → PyM W unit;
}.

Definition Span_exit {W Sp} `{SpanOps W Sp} (sp : Sp) (exc : option pyexn) : PyM W unit :=
  match exc with
  | Some e => sp_record_exception sp e
  | None => sp_set_status_ok sp
  end ;;
  sp_end sp.

(** [with span: body]. *)
Definition with_span {W Sp A} `{SpanOps W Sp} (sp : Sp) (body : PyM W A) : PyM W A := λ w,
  match body w with
  | (Return a, w1) => (Span_exit sp None ;; mret a) w1
  | (Raise e, w1) => (Span_exit sp (Some e) ;; raise e) w1
  end.

(** The adapter: the SDK span with its status calls. *)
Inductive StatusCode := OK | ERROR.

Section OtelSpan.
Context {W Sp : Type} (set_attribute : Sp → string → pyval → PyM W unit) (set_status : Sp → StatusCode → option string → PyM W unit)
  (record_exception : Sp → pyexn → PyM W unit) (end_span : Sp → PyM W unit).

Definition OtelSpan_set_status_ok (sp : Sp) : PyM W unit := set_status sp OK None.
Definition OtelSpan_record_exception (sp : Sp) (exc : pyexn) : PyM W unit :=
  record_exception sp exc ;; set_status sp ERROR (Some (exn_msg exc)).

Definition OtelSpan : SpanOps W Sp := {|
  sp_set_attribute := set_attribute;
  sp_set_status_ok := OtelSpan_set_status_ok;
  sp_record_exception := OtelSpan_record_exception;
  sp_end := end_span;
|}.

End OtelSpan.

(** ** Statements of a database connection *)

(** *** Sanitising SQL: the three substitutions, over ASCII text *)

Definition starts_with_char (p : ascii → bool) (s : string) : bool := match s with String c _ => p c | "" => false end.

(** [re.sub(mark + p+, "?")]: [skipping] is set while inside a match. *)
Fixpoint sub_marked (mark : ascii) (p : ascii → bool) (skipping : bool) (s : string) : string :=
  match s with
  | "" => ""
  | String c s' =>
      if skipping && p c then sub_marked mark p true s'
      else if Ascii.eqb c mark && starts_with_char p s' then String "?" (sub_marked mark p true s')
      else String c (sub_marked mark p false s')
  end.

Fixpoint word_length (s : string) : nat := match s with String c s' => if is_word c then S (word_length s') else O | "" => O end.

(** The length of [(name)s] at the start of the text. *)
Definition named_length (s : string) : option nat :=
  match s with
  | String "(" s' =>
      let n := word_length s' in
      match n, String.substring n 2 s' with
      | S _, ")s" => Some (n + 3)%nat
      | _, _ => None
      end
  | _ => None
  end.

Fixpoint sub_named (skip : nat) (s : string) : string :=
  match s with
  | "" => ""
  | String c s' =>
      match skip with
      | S k => sub_named k s'
      | O =>
          match (if Ascii.eqb c "%" then named_length s' else None) with
          | Some n => String "?" (sub_named n s')
          | None => String c (sub_named 0 s')
          end
      end
  end.

Definition sanitize_sql (statement : string) : string :=
  let s := sub_marked "$" is_digit false statement in
  let s := sub_marked ":" is_word false s in
  let s := sub_named 0 s in
  if Nat.ltb 2000 (String.length s) then String.substring 0 2000 s else s.

(** The first word of the statement, in capitals. *)
Fixpoint take_until (p : ascii → bool) (s : string) : string :=
  match s with "" => "" | String c s' => if p c then "" else String c (take_until p s') end.

Definition db_operation (statement : string) : string :=
  let s := strip statement in if String.eqb s "" then "QUERY" else upper (take_until is_space s).

(** *** The listeners *)

Section Listeners.
(** The tracer of the SDK, if it is installed: [start_span] gives a span, [enter_span] and
    [exit_span] are [__enter__] and [__exit__]; each may raise. *)
Context {W Sp : Type} (installed : bool) (start_span : string → list (string * string) → PyM W Sp).
Context (enter_span : Sp → PyM W unit) (exit_span : Sp → option pyexn → PyM W unit).

(** The state is the stack [conn._otel_spans], beside the world. *)
Definition before_cursor_execute (dialect statement : string) : PyM (list Sp * W) unit :=
  if negb installed then mret tt else
  let operation := db_operation statement in
  try_except
    (sp ← on_snd (start_span ("db." +:+ operation)
                    [("db.system", dialect); ("db.statement", sanitize_sql statement); ("db.operation", operation)]);
     on_snd (enter_span sp) ;;
     updates (λ s, (fst s ++ [sp], snd s)))
    (λ _, mret tt).

Definition pop_and_end (error : option pyexn) : PyM (list Sp * W) unit := λ s,
  match last (fst s) with
  | None => (Return tt, s)
  | Some sp => try_except (on_snd (exit_span sp error)) (λ _, mret tt) (take (length (fst s) - 1) (fst s), snd s)
  end.

Definition after_cursor_execute : PyM (list Sp * W) unit := pop_and_end None.

(** [has_connection]: the context of an error may have no connection. *)
Definition handle_error (has_connection : bool) (original : pyexn) : PyM (list Sp * W) unit :=
  if has_connection then pop_and_end (Some original) else mret tt.

End Listeners.

(** Listeners are attached once. *)
Definition listeners : list string := ["before_cursor_execute"; "after_cursor_execute"; "handle_error"].

Definition instrument_engine : PyM (list string) unit :=
  attached ← reads (λ ls : list string, ls);
  if str_in "before_cursor_execute" attached then mret tt else for_each listeners (λ l, updates (λ ls : list string, ls ++ [l])).

(** [event.remove] of a listener that is not there raises, and that is ignored. *)
Definition remove_listener (l : string) : PyM (list string) unit := λ ls,
  if str_in l ls then (Return tt, filter (λ x, x ≠ l) ls) else (Raise (exn_of ["InvalidRequestError"] l), ls).

Definition uninstrument_engine : PyM (list string) unit :=
  for_each listeners (λ l, try_except (remove_listener l) (λ _, mret tt)).

(** ** Headers *)

(** A key of a Kafka header: text or bytes; a value: bytes. *)
Inductive hkey := KText (s : string) | KBytes (b : list Z).
#[local] Abbreviation kheaders := (list (hkey * list Z)).

Section Carriers.
(** [bytes.decode()] of a key, and [decode("utf-8", errors="replace")] of a value. *)
Context (decode : list Z → outcome string) (decode_replace : list Z → string).

Definition key_text (k : hkey) : outcome string := match k with KText s => Return s | KBytes b => decode b end.

Fixpoint KafkaHeaderCarrier_get (key : string) (hs : kheaders) : outcome (list string) :=
  match hs with
  | [] => Return []
  | (k, v) :: hs' =>
      header_key ← key_text k;
      rest ← KafkaHeaderCarrier_get key hs';
      Return (if String.eqb (lower header_key) (lower key) then decode_replace v :: rest else rest)
  end.

Definition KafkaHeaderCarrier_set (key value : string) : PyM kheaders unit := updates (λ hs, hs ++ [(KText key, encode value)]).

Definition KafkaHeaderCarrier_keys (hs : kheaders) : outcome (list string) := mapM (λ e, key_text (fst e)) hs.

End Carriers.

Definition NatsHeaderCarrier_get (key : string) (hs : list (string * string)) : list string := option_list (od_get key hs).
Definition NatsHeaderCarrier_keys (hs : list (string * string)) : list string := hs.*1.
Definition NatsHeaderCarrier_set (key value : string) : PyM (list (string * string)) unit := updates (od_set key value).

(** A propagator writes the fields of the current context with a setter, and reads a context
    with a getter.  Called without them it uses the default ones of the SDK: a setter that
    assigns [carrier[key] = value] and a getter that calls [carrier.get(key, None)].  The
    carriers have neither [__setitem__] nor a second argument of [get]. *)
Definition Propagator_inject {H} (fields : list (string * string)) (setter : string → string → PyM H unit) : PyM H unit :=
  for_each fields (λ e, setter (fst e) (snd e)).

Definition default_setter {H} (carrier_class key value : string) : PyM H unit :=
  raise (TypeError ("'" +:+ carrier_class +:+ "' object does not support item assignment")).

Definition default_getter (carrier_class key : string) : outcome (list string) :=
  Raise (TypeError (carrier_class +:+ ".get() takes 2 positional arguments but 3 were given")).

(** [installed]: whether the SDK can be imported; [fields] are those of the active context. *)
Definition kafka_inject_trace_headers (installed : bool) (fields : list (string * string)) : PyM kheaders unit :=
  if installed then try_except (Propagator_inject fields (default_setter "_KafkaHeaderCarrier")) (λ _, mret tt) else mret tt.

Definition nats_inject_trace_headers (installed : bool) (fields : list (string * string)) : PyM (list (string * string)) unit :=
  if installed then try_except (Propagator_inject fields (default_setter "_NatsHeaderCarrier")) (λ _, mret tt) else mret tt.

Section Extraction.
Context {W C Tok : Type} (extract : (string → outcome (list string)) → outcome C) (attach : C → PyM W Tok).

Definition kafka_extract_trace_context (installed : bool) (headers : option kheaders) : PyM W (option Tok) :=
  match headers with
  | None | Some [] => mret None
  | Some _ =>
      if installed then
        try_except (ctx ← from_outcome (extract (default_getter "_KafkaHeaderCarrier")); t ← attach ctx; mret (Some t)) (λ _, mret None)
      else mret None
  end.

Definition nats_extract_trace_context (installed : bool) (headers : option (list (string * string))) : PyM W (option Tok) :=
  match headers with
  | None | Some [] => mret None
  | Some _ =>
      if installed then
        try_except (ctx ← from_outcome (extract (default_getter "_NatsHeaderCarrier")); t ← attach ctx; mret (Some t)) (λ _, mret None)
      else mret None
  end.

End Extraction.

(** ** The log enricher *)

Definition hex_char (n : Z) : ascii := Ascii.ascii_of_nat (Z.to_nat (if (n <? 10)%Z then 48 + n else 87 + n)).

(** [format(n, "0wx")] of a number below [16^w]. *)
Fixpoint hex_padded (w : nat) (n : Z) : string :=
  match w with O => "" | S w' => hex_padded w' (n / 16) +:+ String (hex_char (n mod 16)) "" end.

(** The context of the current span: whether it is valid, and its ids of 128 and 64 bits. *)
Definition OtelLoggingEnricher_call (span_context : outcome (bool * Z * Z)) (event_dict : list (string * pyval)) : list (string * pyval) :=
  match span_context with
  | Return (true, trace_id, span_id) =>
      od_set "span_id" (VStr (hex_padded 16 span_id)) (od_set "trace_id" (VStr (hex_padded 32 trace_id)) event_dict)
  | _ => event_dict
  end.

(** ** Nested statements

    What a connection executes: statements in sequence, each with the statements executed
    inside it and the error it ends with, if any. *)
Inductive script := Done | Exec (sql : string) (error : option pyexn) (inner rest : script).

Section Scripts.
Context {W Sp : Type} (installed : bool) (start_span : string → list (string * string) → PyM W Sp).
Context (enter_span : Sp → PyM W unit) (exit_span : Sp → option pyexn → PyM W unit).

Fixpoint run_script (dialect : string) (p : script) : PyM (list Sp * W) unit :=
  match p with
  | Done => mret tt
  | Exec sql error inner rest =>
      before_cursor_execute installed start_span enter_span dialect sql ;;
      run_script dialect inner ;;
      match error with None => after_cursor_execute exit_span | Some e => handle_error exit_span true e end ;;
      run_script dialect rest
  end.

End Scripts.

(** What is asked of a tracer: spans that are started and entered, and spans that are ended. *)
Inductive span_event (Sp : Type) :=
| Started (sp : Sp) (name : string) (attributes : list (string * string))
| Entered (sp : Sp)
| Ended (sp : Sp) (error : option pyexn).
Arguments Started {Sp} sp name attributes.
Arguments Entered {Sp} sp.
Arguments Ended {Sp} sp error.

(** A tracer with a log of what it did. *)
Section Logged.
Context {W Sp : Type} (start_span : string → list (string * string) → PyM W Sp).
Context (enter_span : Sp → PyM W unit) (exit_span : Sp → option pyexn → PyM W unit).
#[local] Abbreviation world := (list (span_event Sp) * W)%type.

Definition log_start (name : string) (attributes : list (string * string)) : PyM world Sp :=
  sp ← on_snd (start_span name attributes);
  updates (λ s, (fst s ++ [Started sp name attributes], snd s)) ;; mret sp.

Definition log_enter (sp : Sp) : PyM world unit :=
  on_snd (enter_span sp) ;; updates (λ s, (fst s ++ [Entered sp], snd s)).

Definition log_exit (sp : Sp) (error : option pyexn) : PyM world unit :=
  updates (λ s, (fst s ++ [Ended sp error], snd s)) ;; on_snd (exit_span sp error).

End Logged.

(** The events of a script whose spans follow its statements. *)
Fixpoint nested {Sp} (dialect : string) (p : script) (events : list (span_event Sp)) : Prop :=
  match p with
  | Done => events = []
  | Exec sql error inner rest =>
      ∃ sp ei er, nested dialect inner ei ∧ nested dialect rest er ∧
        events = Started sp ("db." +:+ db_operation sql)
                   [("db.system", dialect); ("db.statement", sanitize_sql sql); ("db.operation", db_operation sql)] ::
                 Entered sp :: ei ++ [Ended sp error] ++ er
  end.

(** The spans that are open after the events: one that is ended is the one entered last. *)
Inductive open_after {Sp} : list Sp → list (span_event Sp) → list Sp → Prop :=
| open_nil stack : open_after stack [] stack
| open_started stack sp name attributes events stack' :
    open_after stack events stack' → open_after stack (Started sp name attributes :: events) stack'
| open_entered stack sp events stack' :
    open_after (stack ++ [sp]) events stack' → open_after stack (Entered sp :: events) stack'
| open_ended stack sp error events stack' :
    open_after stack events stack' → open_after (stack ++ [sp]) (Ended sp error :: events) stack'.

(** What a call raises is an [Exception]. *)
Definition excepts {W A} (m : PyM W A) : Prop := ∀ w e w', m w = (Raise e, w') → is_Exception e = true.

(** ** Lemmas *)

Lemma pop_last {W Sp} (exit_span : Sp → option pyexn → PyM W unit) stack sp error w w' :
  exit_span sp error w = (Return tt, w') → pop_and_end exit_span error (stack ++ [sp], w) = (Return tt, (stack, w')).
Proof.
  intros He. unfold pop_and_end. cbn [fst snd]. rewrite last_snoc, length_app. simpl. rewrite Nat.add_sub, take_app_length.
  unfold try_except, try_base, on_snd. cbn [fst snd]. by rewrite He.
Qed.

Lemma sub_marked_id mark p s : str_all (λ c, negb (Ascii.eqb c mark)) s = true → sub_marked mark p false s = s.
Proof.
  induction s as [|c s IH]; [done|]. simpl. intros [Hc Hs]%andb_true_iff. apply negb_true_iff in Hc. rewrite Hc. simpl. by rewrite IH.
Qed.

Lemma sub_named_id s : str_all (λ c, negb (Ascii.eqb c "%")) s = true → sub_named 0 s = s.
Proof.
  induction s as [|c s IH]; [done|]. simpl. intros [Hc Hs]%andb_true_iff. apply negb_true_iff in Hc. rewrite Hc. by rewrite IH.
Qed.

Lemma hex_padded_length w n : String.length (hex_padded w n) = w.
Proof.
  revert n. induction w as [|w IH]; intros n; [done|]. cbn [hex_padded]. rewrite length_app_str, IH. simpl. lia.
Qed.

Lemma hex_char_inj a b : (0 <= a < 16)%Z → (0 <= b < 16)%Z → hex_char a = hex_char b → a = b.
Proof.
  unfold hex_char. intros Ha Hb Heq. apply (f_equal Ascii.nat_of_ascii) in Heq.
  destruct (Z.ltb_spec a 10), (Z.ltb_spec b 10); rewrite !Ascii.nat_ascii_embedding in Heq; lia.
Qed.

Lemma hex_padded_inj w a b : (0 <= a < 16 ^ Z.of_nat w)%Z → (0 <= b < 16 ^ Z.of_nat w)%Z → hex_padded w a = hex_padded w b → a = b.
Proof.
  revert a b. induction w as [|w IH]; intros a b Ha Hb.
  - simpl in Ha, Hb. lia.
  - replace (Z.of_nat (S w)) with (Z.of_nat w + 1)%Z in Ha, Hb by lia. rewrite Z.pow_add_r in Ha, Hb by lia. change (16 ^ 1)%Z with 16%Z in Ha, Hb.
    cbn [hex_padded]. intros Heq. apply app_split_str in Heq as [Hq Hd]; [|done]. injection Hd as Hd.
    apply IH in Hq; [|split; [apply Z.div_pos; lia|apply Z.div_lt_upper_bound; lia]..].
    apply hex_char_inj in Hd; [|apply Z.mod_pos_bound; lia..].
    rewrite (Z.div_mod a 16), (Z.div_mod b 16) by lia. lia.
Qed.

Lemma open_after_app {Sp} (a b c : list Sp) e1 e2 : open_after a e1 b → open_after b e2 c → open_after a (e1 ++ e2) c.
Proof. induction 1; intros Hc; simpl; [done|constructor; auto..]. Qed.

Lemma removelast_prefix {A} (l k : list A) x : l `prefix_of` k ++ [x] → take (length l - 1) l `prefix_of` k.
Proof.
  intros [r Hr]. destruct (last l) as [y|] eqn:E; [|apply last_None in E as ->; apply prefix_nil].
  apply last_Some in E as [l' ->]. rewrite length_app, Nat.add_sub, take_app_length.
  destruct r as [|z r] using rev_ind.
  - rewrite app_nil_r in Hr. by apply app_inj_tail in Hr as [-> ->].
  - rewrite !app_assoc in Hr. apply app_inj_tail in Hr as [-> _]. exists ([y] ++ r). by rewrite !app_assoc.
Qed.

Section LoggedLemmas.
Context {W Sp : Type} (installed : bool) (start_span : string → list (string * string) → PyM W Sp).
Context (enter_span : Sp → PyM W unit) (exit_span : Sp → option pyexn → PyM W unit).
Context (Hstart : ∀ name attributes, excepts (start_span name attributes)) (Henter : ∀ sp, excepts (enter_span sp)).
Context (Hexit : ∀ sp error, excepts (exit_span sp error)).
#[local] Abbreviation before := (before_cursor_execute installed (log_start start_span) (log_enter enter_span)).
#[local] Abbreviation run := (run_script installed (log_start start_span) (log_enter enter_span) (log_exit exit_span)).
#[local] Abbreviation finish := (pop_and_end (log_exit exit_span)).
(** Spans that always start. *)
#[local] Abbreviation starts := (installed = true ∧ (∀ name attributes w, ∃ sp w', start_span name attributes w = (Return sp, w')) ∧
  ∀ sp w, ∃ w', enter_span sp w = (Return tt, w')).

Lemma before_logged dialect sql stack log w :
  ∃ opened events w', before dialect sql (stack, (log, w)) = (Return tt, (stack ++ opened, (log ++ events, w'))) ∧
    open_after stack events (stack ++ opened) ∧ (length opened <= 1)%nat ∧
    (starts → ∃ sp, opened = [sp] ∧
       events = [Started sp ("db." +:+ db_operation sql)
         [("db.system", dialect); ("db.statement", sanitize_sql sql); ("db.operation", db_operation sql)]; Entered sp]).
Proof using Hstart Henter.
  unfold before_cursor_execute. destruct installed; cbn [negb].
  2:{ exists [], [], w. rewrite !app_nil_r. split_and!; [done|constructor|simpl; lia|]. by intros [? _]. }
  set (attrs := [_; _; _]). set (name := "db." +:+ db_operation sql).
  unfold try_except, try_base, mbind, PyM_bind, on_snd, log_start, log_enter, updates, mret, PyM_ret. cbn [fst snd]. unfold mbind, PyM_bind, on_snd. cbn [fst snd].
  destruct (start_span name attrs w) as [[sp|e] w1] eqn:E1; cbn [fst snd].
  - destruct (enter_span sp w1) as [[[]|e] w2] eqn:E2; cbn [fst snd].
    + exists [sp], [Started sp name attrs; Entered sp], w2. rewrite <- app_assoc. split_and!; [done|by repeat constructor|simpl; lia|]. intros _. by exists sp.
    + rewrite (Henter _ _ _ _ E2). exists [], [Started sp name attrs], w2. rewrite app_nil_r. split_and!; [done|by repeat constructor|simpl; lia|].
      intros (_ & _ & Hs). destruct (Hs sp w1) as [? Hr]. congruence.
  - rewrite (Hstart _ _ _ _ _ E1). exists [], [], w1. rewrite !app_nil_r. split_and!; [done|by repeat constructor|simpl; lia|].
    intros (_ & Hs & _). destruct (Hs name attrs w) as (? & ? & Hr). congruence.
Qed.

Lemma finish_logged error stack log w :
  ∃ events w', finish error (stack, (log, w)) = (Return tt, (take (length stack - 1) stack, (log ++ events, w'))) ∧
    open_after stack events (take (length stack - 1) stack) ∧
    ∀ s sp, stack = s ++ [sp] → events = [Ended sp error].
Proof using Hexit.
  unfold pop_and_end. cbn [fst snd]. destruct (last stack) as [sp|] eqn:E.
  - apply last_Some in E as [s ->]. rewrite length_app, Nat.add_sub, take_app_length.
    unfold try_except, try_base, on_snd, log_exit, updates, mbind, PyM_bind, on_snd. cbn [fst snd].
    destruct (exit_span sp error w) as [[[]|e] w'] eqn:Ex; cbn [fst snd]; [|rewrite (Hexit _ _ _ _ _ Ex)];
      (exists [Ended sp error], w'; split_and!; [done|by repeat constructor|by intros s' sp' [-> ->]%app_inj_tail]).
  - apply last_None in E as ->. exists [], w. rewrite app_nil_r. split_and!; [done|constructor|]. by intros [].
Qed.

Lemma run_logged dialect p : ∀ stack log w,
  ∃ stack' events w', run dialect p (stack, (log, w)) = (Return tt, (stack', (log ++ events, w'))) ∧
    open_after stack events stack' ∧ stack' `prefix_of` stack ∧ (starts → stack' = stack ∧ nested dialect p events).
Proof using Hstart Henter Hexit.
  induction p as [|sql error inner IHi rest IHr]; intros stack log w; cbn [run_script].
  - exists stack, [], w. rewrite app_nil_r. split_and!; [done|constructor|done|done].
  - destruct (before_logged dialect sql stack log w) as (op & e1 & w1 & H1 & O1 & L1 & S1). unfold mbind, PyM_bind. rewrite H1.
    destruct (IHi (stack ++ op) (log ++ e1) w1) as (st2 & e2 & w2 & -> & O2 & P2 & S2).
    assert ((match error with None => after_cursor_execute (log_exit exit_span) | Some e => handle_error (log_exit exit_span) true e end) =
      finish error) as -> by by destruct error.
    destruct (finish_logged error st2 ((log ++ e1) ++ e2) w2) as (e3 & w3 & -> & O3 & S3).
    destruct (IHr (take (length st2 - 1) st2) (((log ++ e1) ++ e2) ++ e3) w3) as (st4 & e4 & w4 & -> & O4 & P4 & S4).
    exists st4, (e1 ++ e2 ++ e3 ++ e4), w4. split_and!.
    + by rewrite <- !app_assoc.
    + repeat (eapply open_after_app; [done|]). done.
    + etrans; [done|]. destruct op as [|sp [|]]; simpl in L1; [|by apply (removelast_prefix _ _ sp)|lia].
      rewrite app_nil_r in P2. etrans; [|done]. by apply prefix_take.
    + intros Hs. destruct (S1 Hs) as (sp & -> & ->), (S2 Hs) as [-> N2], (S4 Hs) as [-> N4].
      rewrite length_app, Nat.add_sub, take_app_length. split; [done|]. exists sp, e2, e4. split_and!; [done..|].
      rewrite (S3 stack sp) by done. done.
Qed.

End LoggedLemmas.

Lemma kafka_get_set decode decode_replace fields key hs :
  (∀ e, e ∈ hs → ∃ k, key_text decode (fst e) = Return k ∧ lower k ≠ lower key) →
  KafkaHeaderCarrier_get decode decode_replace key (hs ++ ((λ e, (KText (fst e), encode (snd e))) <$> fields)) =
  Return ((λ e, decode_replace (encode (snd e))) <$> filter (λ e, lower (fst e) = lower key) fields).
Proof.
  intros Hhs. induction hs as [|[k v] hs IH]; simpl.
  - induction fields as [|[f x] fields IH]; [done|]. rewrite fmap_cons. cbn [KafkaHeaderCarrier_get fst snd key_text].
    unfold mbind, outcome_bind in *. rewrite IH. rewrite filter_cons. cbn [fst]. destruct (String.eqb_spec (lower f) (lower key)).
    + by rewrite decide_True.
    + by rewrite decide_False.
  - destruct (Hhs (k, v)) as (t & Ht & Hne); [by constructor|]. simpl in Ht. unfold mbind, outcome_bind in *. rewrite Ht.
    rewrite IH by (intros e He; apply Hhs; by constructor). by rewrite (proj2 (String.eqb_neq _ _) Hne).
Qed.

Lemma for_each_set fields hs :
  for_each fields (λ e, KafkaHeaderCarrier_set (fst e) (snd e)) hs =
  (Return tt, hs ++ ((λ e, (KText (fst e), encode (snd e))) <$> fields)).
Proof.
  revert hs. induction fields as [|e fields IH]; intros hs; [by rewrite app_nil_r|]. cbn [for_each]. unfold mbind, PyM_bind.
  unfold KafkaHeaderCarrier_set at 1, updates. rewrite IH, <- app_assoc. done.
Qed.

(** ** Theorems *)

(** C37: spans follow the statements.  On an instrumented connection on which statements are
    executed one after the other and inside one another, with any tracer, whatever it raises:
    the listeners raise nothing, a span that is ended is always the one last entered of those
    open, and no span entered for a statement is open when the statements are done.  When the
    SDK is installed and its spans start, the events are those of the nesting of the
    statements: a span is started with the operation and the attributes of its statement, and
    ended once, after those inside, with the error of its own statement - and the stack of the
    connection is left as it was, even if ending a span raises. *)
Theorem spans_follow_statements {W Sp} installed start_span enter_span exit_span dialect p stack log (w : W) :
  (∀ name attributes, excepts (start_span name attributes)) → (∀ sp : Sp, excepts (enter_span sp)) → (∀ sp error, excepts (exit_span sp error)) →
  ∃ stack' events w',
    run_script installed (log_start start_span) (log_enter enter_span) (log_exit exit_span) dialect p (stack, (log, w)) =
      (Return tt, (stack', (log ++ events, w'))) ∧
    open_after stack events stack' ∧ stack' `prefix_of` stack ∧
    (installed = true → (∀ name attributes w, ∃ sp w', start_span name attributes w = (Return sp, w')) →
     (∀ sp w, ∃ w', enter_span sp w = (Return tt, w')) → stack' = stack ∧ nested dialect p events).
Proof.
  intros Hs He Hx. destruct (run_logged installed start_span enter_span exit_span Hs He Hx dialect p stack log w) as (st & ev & w' & Hr & Ho & Hp & Hn).
  exists st, ev, w'. split_and!; [done..|]. intros Hi Hstart Henter. by apply Hn.
Qed.

(** a span that does not start takes the span of its parent.  When starting the span of an
    inner statement fails, nothing is pushed for it, yet its end pops the stack: the span of
    the enclosing statement ends with the inner one, and its own end finds nothing. *)
Theorem failed_start_ends_parent {W Sp} (start_span : string → list (string * string) → PyM W Sp) enter_span exit_span dialect inner sp e stack (w w1 w2 : W) :
  (∀ attrs, start_span ("db." +:+ db_operation inner) attrs w = (Raise e, w1)) → is_Exception e = true →
  exit_span sp None w1 = (Return tt, w2) →
  (before_cursor_execute true start_span enter_span dialect inner ;; after_cursor_execute exit_span) (stack ++ [sp], w) = (Return tt, (stack, w2)).
Proof.
  intros Hs He Hx. unfold mbind, PyM_bind, before_cursor_execute. cbn [negb]. unfold try_except, try_base, on_snd. unfold mbind, PyM_bind. cbn [fst snd].
  rewrite Hs, He. by apply pop_last.
Qed.

(** propagation through the default setter and getter is inert.  Whatever the active context
    and the headers, injecting into Kafka or NATS headers leaves them as they are, and with a
    propagator that reads a field extracting returns no token: the error is swallowed. *)
Theorem propagation_inert {W C Tok} installed fields (kh : list (hkey * list Z)) (nh : list (string * string))
    (extract : (string → outcome (list string)) → outcome C) (attach : C → PyM W Tok) okh onh (w : W) :
  (∀ getter e, (∀ k, getter k = Raise e) → extract getter = Raise e) →
  kafka_inject_trace_headers installed fields kh = (Return tt, kh) ∧
  nats_inject_trace_headers installed fields nh = (Return tt, nh) ∧
  kafka_extract_trace_context extract attach installed okh w = (Return None, w) ∧
  nats_extract_trace_context extract attach installed onh w = (Return None, w).
Proof.
  intros Hx. split_and!.
  - unfold kafka_inject_trace_headers. destruct installed, fields; done.
  - unfold nats_inject_trace_headers. destruct installed, fields; done.
  - unfold kafka_extract_trace_context. destruct okh as [[|h okh]|], installed; try done.
    unfold try_except, try_base, mbind, PyM_bind, from_outcome. by erewrite Hx by done.
  - unfold nats_extract_trace_context. destruct onh as [[|h onh]|], installed; try done.
    unfold try_except, try_base, mbind, PyM_bind, from_outcome. by erewrite Hx by done.
Qed.

(** the Kafka carrier itself carries.  Used as setter and getter, what is injected is read back
    under any capitalisation of its name, as long as no header of that name was there. *)
Theorem kafka_carrier_roundtrip decode decode_replace fields key value hs :
  (∀ s, decode_replace (encode s) = s) → NoDup (lower <$> fields.*1) → (key, value) ∈ fields →
  (∀ e, e ∈ hs → ∃ k, key_text decode (fst e) = Return k ∧ lower k ≠ lower key) →
  ∃ hs', Propagator_inject fields KafkaHeaderCarrier_set hs = (Return tt, hs') ∧
    ∀ key', lower key' = lower key → KafkaHeaderCarrier_get decode decode_replace key' hs' = Return [value].
Proof.
  intros Hdec Hnd Hin Hhs. eexists. split; [apply for_each_set|]. intros key' Hk. rewrite kafka_get_set by (intros e He; rewrite Hk; by apply Hhs).
  f_equal. rewrite Hk. clear Hhs hs key' Hk. induction fields as [|[f x] fields IH]; [set_solver|].
  rewrite fmap_cons, fmap_cons, NoDup_cons in Hnd. destruct Hnd as [Hf Hnd]. rewrite filter_cons. simpl in Hf |- *.
  apply elem_of_cons in Hin as [[= -> ->]|Hin].
  - rewrite decide_True by done. rewrite fmap_cons. simpl. rewrite Hdec. f_equal. clear IH Hnd.
    induction fields as [|[f2 x2] fields IH]; [done|]. rewrite filter_cons. rewrite !fmap_cons, not_elem_of_cons in Hf. simpl in Hf |- *.
    rewrite decide_False by (intros Heq; apply (proj1 Hf); congruence). apply IH. tauto.
  - rewrite decide_False; [by apply IH|]. intros Heq. apply Hf. rewrite Heq.
    rewrite list_elem_of_fmap. exists key. split; [done|]. rewrite list_elem_of_fmap. by exists (key, value).
Qed.

(** ids keep apart.  Two events enriched under valid contexts carry the same [trace_id] and
    [span_id] texts only if the ids are the same; the texts have 32 and 16 digits. *)
Theorem enriched_ids_distinct t s t' s' d d' :
  (0 <= t < 2 ^ 128)%Z → (0 <= t' < 2 ^ 128)%Z → (0 <= s < 2 ^ 64)%Z → (0 <= s' < 2 ^ 64)%Z →
  let e := OtelLoggingEnricher_call (Return (true, t, s)) d in
  let e' := OtelLoggingEnricher_call (Return (true, t', s')) d' in
  od_get "trace_id" e = Some (VStr (hex_padded 32 t)) ∧ String.length (hex_padded 32 t) = 32%nat ∧
  (od_get "trace_id" e = od_get "trace_id" e' → t = t') ∧ (od_get "span_id" e = od_get "span_id" e' → s = s').
Proof.
  intros Ht Ht' Hs Hs' e e'.
  assert (∀ t s d, od_get "trace_id" (OtelLoggingEnricher_call (Return (true, t, s)) d) = Some (VStr (hex_padded 32 t)) ∧
                   od_get "span_id" (OtelLoggingEnricher_call (Return (true, t, s)) d) = Some (VStr (hex_padded 16 s))) as H.
  { intros t0 s0 d0. unfold OtelLoggingEnricher_call. rewrite od_get_set_eq. rewrite od_get_set_ne by done. by rewrite od_get_set_eq. }
  subst e e'. destruct (H t s d) as [-> ->], (H t' s' d') as [-> ->]. split_and!; [done|apply hex_padded_length| |].
  - intros Heq. apply (hex_padded_inj 32); [exact Ht|exact Ht'|congruence].
  - intros Heq. apply (hex_padded_inj 16); [exact Hs|exact Hs'|congruence].
Qed.

(** only placeholders are redacted.  A statement without [$], [:] and [%] - one whose values
    are written into its text - is put into the span as it is, up to its length. *)
Theorem literals_not_redacted s :
  str_all (λ c, negb (Ascii.eqb c "$") && negb (Ascii.eqb c ":") && negb (Ascii.eqb c "%")) s = true →
  sanitize_sql s = if Nat.ltb 2000 (String.length s) then String.substring 0 2000 s else s.
Proof.
  intros Hs. assert (∀ c, str_all (λ c, negb (Ascii.eqb c "$") && negb (Ascii.eqb c ":") && negb (Ascii.eqb c "%")) s = true →
    c ∈ ["$"; ":"; "%"]%char → str_all (λ x, negb (Ascii.eqb x c)) s = true) as Hc.
  { intros c. clear Hs. induction s as [|x s IH]; [done|]. simpl. rewrite !andb_true_iff. intros [[[H1 H2] H3] Hs] Hin.
    split; [|by apply IH]. rewrite !elem_of_cons in Hin. destruct Hin as [->|[->|[->|[]%elem_of_nil]]]; done. }
  unfold sanitize_sql. rewrite (sub_marked_id "$") by (apply Hc; [done|set_solver]).
  rewrite (sub_marked_id ":") by (apply Hc; [done|set_solver]). by rewrite sub_named_id by (apply Hc; [done|set_solver]).
Qed.

(** a span ends once, after its body, and says how it went.  Over an SDK span whose calls
    return, the block has the outcome of its body; the status is set from that outcome and
    the span is ended last. *)
Theorem with_span_outcome {W Sp A} set_attribute set_status record_exception end_span (sp : Sp) (body : PyM W A) (w : W) :
  (∀ st m w, fst (set_status sp st m w) = Return tt) → (∀ e w, fst (record_exception sp e w) = Return tt) →
  (∀ w, fst (end_span sp w) = Return tt) →
  let '(o, w1) := body w in
  with_span (H := OtelSpan set_attribute set_status record_exception end_span) sp body w =
    (o, snd (end_span sp (match o with
                          | Return _ => snd (set_status sp OK None w1)
                          | Raise e => snd (set_status sp ERROR (Some (exn_msg e)) (snd (record_exception sp e w1)))
                          end))).
Proof.
  intros Hst Hrec Hend. unfold with_span. destruct (body w) as [[a|e] w1]; unfold Span_exit, mbind, PyM_bind; simpl.
  - unfold OtelSpan_set_status_ok. specialize (Hst OK None w1). destruct (set_status sp OK None w1) as [o1 w2]; simpl in *; subst o1.
    specialize (Hend w2). destruct (end_span sp w2) as [o2 w3]; simpl in *; by subst o2.
  - unfold OtelSpan_record_exception, mbind, PyM_bind. specialize (Hrec e w1). destruct (record_exception sp e w1) as [o1 w2]; simpl in *; subst o1.
    specialize (Hst ERROR (Some (exn_msg e)) w2). destruct (set_status sp ERROR (Some (exn_msg e)) w2) as [o2 w3]; simpl in *; subst o2.
    specialize (Hend w3). destruct (end_span sp w3) as [o3 w4]; simpl in *; by subst o3.
Qed.

(** ** Witnesses *)

(** A tracer that numbers its spans. *)
Definition numbering (name : string) (attributes : list (string * string)) : PyM nat nat := λ n, (Return n, S n).

Definition two_statements : script := Exec "INSERT INTO t" None (Exec "SELECT 1" (Some (ValueError "bad")) Done Done) Done.

Lemma spans_follow_statements_witness :
  ∃ events w', run_script true (log_start numbering) (log_enter (λ _, mret tt)) (log_exit (λ _ _, raise (ValueError "export"))) "sqlite"
    two_statements ([7%nat], ([], 8%nat)) = (Return tt, ([7%nat], (events, w'))) ∧ nested "sqlite" two_statements events.
Proof.
  destruct (spans_follow_statements true numbering (λ _, mret tt) (λ _ _, raise (ValueError "export")) "sqlite" two_statements
    [7%nat] [] 8%nat) as (stack' & events & w' & Hr & _ & _ & Hn).
  - by intros name attributes n e n'.
  - by intros sp n e n'.
  - by intros sp error n e n' [= <- _].
  - destruct Hn as [-> Hn]; [done|by intros name attributes n; exists n, (S n)|by intros sp n; exists n|by exists events, w'].
Defined.

Lemma failed_start_ends_parent_witness :
  (before_cursor_execute true (λ _ _, raise (exn_of ["RuntimeError"] "sampler")) (log_enter (λ _, mret tt)) "sqlite" "SELECT 1" ;;
   after_cursor_execute (log_exit (λ _ _, mret tt))) ([3%nat], ([], tt)) = (Return tt, ([], ([Ended 3%nat None], tt))).
Proof.
  apply (failed_start_ends_parent (λ _ _, raise (exn_of ["RuntimeError"] "sampler")) (log_enter (λ _, mret tt)) (log_exit (λ _ _, mret tt)) "sqlite" "SELECT 1" 3%nat
    (exn_of ["RuntimeError"] "sampler") [] ([], tt) ([], tt) ([Ended 3%nat None], tt)); [done|reflexivity|reflexivity].
Defined.

(** A propagator that reads the parent of the trace. *)
Definition read_parent (getter : string → outcome (list string)) : outcome (list string) := getter "traceparent".

Lemma propagation_inert_witness :
  kafka_inject_trace_headers true [("traceparent", "00-ab-cd-01")] [] = (Return tt, []) ∧
  nats_extract_trace_context read_parent (λ _, mret tt) true (Some [("traceparent", "00-ab-cd-01")]) tt = (Return None, tt).
Proof.
  destruct (propagation_inert (W := unit) true [("traceparent", "00-ab-cd-01")] [] [] read_parent (λ _, mret tt) None
    (Some [("traceparent", "00-ab-cd-01")]) tt) as (H1 & _ & _ & H4); [intros g e Hg; apply Hg|]. split; [exact H1|exact H4].
Defined.

(** Keys and values of one code per character. *)
Fixpoint latin_text (b : list Z) : string := match b with [] => "" | n :: b' => String (Ascii.ascii_of_nat (Z.to_nat n)) (latin_text b') end.

Lemma latin_encode s : latin_text (encode s) = s.
Proof.
  induction s as [|c s IH]; [done|]. simpl. rewrite IH. f_equal. rewrite Nat2Z.id. apply Ascii.ascii_nat_embedding.
Qed.

Lemma kafka_carrier_roundtrip_witness :
  ∃ hs', Propagator_inject [("traceparent", "00-ab-cd-01")] KafkaHeaderCarrier_set [(KText "id", [])] = (Return tt, hs') ∧
    KafkaHeaderCarrier_get (λ b, Return (latin_text b)) latin_text "TraceParent" hs' = Return ["00-ab-cd-01"].
Proof.
  destruct (kafka_carrier_roundtrip (λ b, Return (latin_text b)) latin_text [("traceparent", "00-ab-cd-01")] "traceparent" "00-ab-cd-01" [(KText "id", [])])
    as (hs' & H1 & H2).
  - exact latin_encode.
  - apply NoDup_singleton.
  - by constructor.
  - intros e ->%list_elem_of_singleton. by exists "id".
  - exists hs'. split; [exact H1|]. by apply H2.
Defined.

Lemma enriched_ids_distinct_witness :
  od_get "trace_id" (OtelLoggingEnricher_call (Return (true, 255%Z, 1%Z)) []) = Some (VStr (hex_padded 32 255)) ∧ String.length (hex_padded 32 255) = 32%nat.
Proof.
  destruct (enriched_ids_distinct 255 1 255 1 [] []) as (H1 & H2 & _); [lia..|]. split; [exact H1|exact H2].
Defined.

Lemma literals_not_redacted_witness :
  sanitize_sql "SELECT * FROM users WHERE ssn = '123-45-6789'" = "SELECT * FROM users WHERE ssn = '123-45-6789'".
Proof. rewrite literals_not_redacted; reflexivity. Defined.

Lemma with_span_outcome_witness :
  with_span (H := OtelSpan (λ _ _ _, mret tt) (λ _ st _, updates (λ l, l ++ [match st with OK => "ok" | ERROR => "error" end]))
               (λ _ _, updates (λ l, l ++ ["exception"])) (λ _, updates (λ l, l ++ ["end"]))) tt
    (raise (ValueError "boom") : PyM (list string) unit) [] = (Raise (ValueError "boom"), ["exception"; "error"; "end"]).
Proof.
  apply (with_span_outcome (λ _ _ _, mret tt) (λ _ st _, updates (λ l, l ++ [match st with OK => "ok" | ERROR => "error" end]))
           (λ _ _, updates (λ l, l ++ ["exception"])) (λ _, updates (λ l, l ++ ["end"])) tt (raise (ValueError "boom") : PyM (list string) unit) []); done.
Defined.
