(* ===== verification/TestFakes.v ===== *)
(** * Clocks, transactions and test doubles

    [kernel/time/clock.py], [testing/generators/step_clock.py] and [builder.py],
    [application/uow/decorators.py], the inbox port of [kernel/messaging/inbox.py] with its
    fake, the fakes of feature flags and policies, and the call counts of
    [testing/http/stub_server.py]. *)
From S2P Require Import Prelude PyString OrderedDict Security Flags Pipeline.

(** ** Clocks

    An aware time is a number of microseconds since 1970 UTC; adding a [timedelta] outside the
    years 1 to 9999 raises [OverflowError]. *)

Definition datetime_min : Z := -62135596800000000.
Definition datetime_max : Z := 253402300799999999.

Definition OverflowError (msg : string) : pyexn := exn_of ["OverflowError"; "ArithmeticError"] msg.

Definition datetime_add (t delta : Z) : outcome Z :=
  if ((datetime_min <=? t + delta) && (t + delta <=? datetime_max))%Z then Return (t + delta)%Z
  else Raise (OverflowError "date value out of range").

(** [.date()], as a day number, and [.timestamp()]. *)
Definition date_of (t : Z) : Z := (t / 86400000000)%Z.
Definition posix_timestamp (t : Z) : Q := (inject_Z t / inject_Z 1000000)%Q.

Definition SystemClock_now {W} (utc_now : W → Z) : PyM W Z := reads utc_now.
Definition SystemClock_today {W} (utc_now : W → Z) : PyM W Z := reads (λ w, date_of (utc_now w)).
Definition SystemClock_timestamp {W} (utc_now : W → Z) : PyM W Q := reads (λ w, posix_timestamp (utc_now w)).

Definition FrozenClock_now : PyM Z Z := reads id.
Definition FrozenClock_today : PyM Z Z := reads date_of.
Definition FrozenClock_timestamp : PyM Z Q := reads posix_timestamp.
Definition FrozenClock_advance (delta : Z) : PyM Z unit := λ t,
  match datetime_add t delta with Return t' => (Return tt, t') | Raise e => (Raise e, t) end.

(** Pinned to 2026-01-01T12:00 UTC. *)
Definition new_year_2026 : Z := 1767225600000000.
Definition FakeClock : Z := (new_year_2026 + 43200000000)%Z.

Record StepClock := mkStepClock { sc_current : Z; sc_step : Z; sc_call_count : Z }.

(** [step_kwargs], when given, is the length they make up. *)
Definition StepClock_init (start step step_kwargs : option Z) : StepClock :=
  mkStepClock (default new_year_2026 start)
    (match step, step_kwargs with Some d, _ => d | None, Some d => d | None, None => 1000000%Z end) 0.

Definition StepClock_now : PyM StepClock Z := λ c,
  match datetime_add (sc_current c) (sc_step c) with
  | Return t => (Return (sc_current c), mkStepClock t (sc_step c) (sc_call_count c + 1))
  | Raise e => (Raise e, c)
  end.
Definition StepClock_today : PyM StepClock Z := t ← StepClock_now; mret (date_of t).
Definition StepClock_timestamp : PyM StepClock Q := t ← StepClock_now; mret (posix_timestamp t).
Definition StepClock_peek : PyM StepClock Z := reads sc_current.

Definition StepClock_reset (start : option Z) : PyM StepClock unit :=
  updates (λ c, mkStepClock (default new_year_2026 start) (sc_step c) 0).

(** ** Transactions *)

(** [transactional]: the unit of work of the object, if it has one, around the method. *)
Definition transactional {X A} (uow : option (PyM X unit * PyM X unit)) (func : PyM X A) : PyM X A :=
  match uow with
  | None => func
  | Some (commit, rollback) => UnitOfWork_block commit rollback func
  end.

(** ** Builders *)

Section Builder.
Context {V T : Type}.
#[local] Abbreviation attrs := (list (string * V)).

(** [dict(a, b...)]: a copy with the entries of [kwargs] over it. *)
Definition Builder_with_ (kwargs : attrs) (b : attrs) : attrs := od_update b kwargs.
Definition Builder_override (key : string) (value : V) (b : attrs) : attrs := Builder_with_ [(key, value)] b.
Definition Builder_get (key : string) (dflt : V) (b : attrs) : V := default dflt (od_get key b).

Definition Builder_call (build : attrs → outcome T) (overrides : attrs) (b : attrs) : outcome T :=
  match overrides with [] => build b | _ => build (Builder_with_ overrides b) end.

(** [_cls] is the constructor of the dataclass, called with the attributes. *)
Definition DataclassBuilder_build (cls : attrs → outcome T) (b : attrs) : outcome T := cls b.

End Builder.

(** ** The inbox port and its fake *)

Inductive KernelInboxStatus := RECEIVED | PROCESSED | FAILED.

Record KernelInboxRecord := mkKernelInbox {
  ki_id : string;
  ki_message_id : string;
  ki_topic : string;
  ki_payload : list Z;
  ki_headers : list (string * string);
  ki_status : KernelInboxStatus;
  ki_received_at : Z;
  ki_processed_at : option Z;
  ki_consumer_group : string;
  ki_error : option string;
}.

Class InboxRepository (X : Type) := {
  ib_save : KernelInboxRecord → PyM X unit;
  ib_find_by_message_id : string → PyM X (option KernelInboxRecord);
  ib_mark_processed : string → PyM X unit;
  ib_mark_failed : string → string → PyM X unit;
}.

(** The contract: an upsert by message id, and the two transitions, here of the record with the
    given message id. *)
Definition with_status (st : KernelInboxStatus) (error : option string) (r : KernelInboxRecord) : KernelInboxRecord :=
  mkKernelInbox (ki_id r) (ki_message_id r) (ki_topic r) (ki_payload r) (ki_headers r) st (ki_received_at r) (ki_processed_at r)
    (ki_consumer_group r) error.

Class InboxRepositorySpec (X : Type) `{InboxRepository X} := {
  ib_view : X → gmap string KernelInboxRecord;
  ib_save_spec r x : ∃ x', ib_save r x = (Return tt, x') ∧ ib_view x' = <[ki_message_id r := r]> (ib_view x);
  ib_find_spec m x : ib_find_by_message_id m x = (Return (ib_view x !! m), x);
  ib_processed_spec m x : ∃ x', ib_mark_processed m x = (Return tt, x') ∧
    ib_view x' = alter (λ r, with_status PROCESSED (ki_error r) r) m (ib_view x);
  ib_failed_spec m error x : ∃ x', ib_mark_failed m error x = (Return tt, x') ∧
    ib_view x' = alter (with_status FAILED (Some error)) m (ib_view x);
}.

(** The fake: a dict by message id. *)
Definition InboxRecords : Type := list (string * KernelInboxRecord).

Definition InMemoryInboxRepository_save (r : KernelInboxRecord) : PyM InboxRecords unit := updates (od_set (ki_message_id r) r).
Definition InMemoryInboxRepository_find_by_message_id (m : string) : PyM InboxRecords (option KernelInboxRecord) := reads (od_get m).
Definition InMemoryInboxRepository_get (m : string) : PyM InboxRecords (option KernelInboxRecord) := reads (od_get m).

Definition InMemoryInboxRepository_mark_processed (m : string) : PyM InboxRecords unit :=
  updates (λ rs, match od_get m rs with Some r => od_set m (with_status PROCESSED (ki_error r) r) rs | None => rs end).
Definition InMemoryInboxRepository_mark_failed (m error : string) : PyM InboxRecords unit :=
  updates (λ rs, match od_get m rs with Some r => od_set m (with_status FAILED (Some error) r) rs | None => rs end).
Definition InMemoryInboxRepository_all_records (rs : InboxRecords) : list KernelInboxRecord := rs.*2.

#[export] Instance fake_inbox : InboxRepository InboxRecords := {|
  ib_save := InMemoryInboxRepository_save;
  ib_find_by_message_id := InMemoryInboxRepository_find_by_message_id;
  ib_mark_processed := InMemoryInboxRepository_mark_processed;
  ib_mark_failed := InMemoryInboxRepository_mark_failed;
|}.

(** ** Fakes of flags and policies *)

Record FakeFeatureFlagProvider := mkFakeFlags {
  ff_enabled : list (string * bool);
  ff_variants : list (string * option string);
  ff_default : bool;
}.

Definition FakeFeatureFlagProvider_is_enabled (flag : FeatureFlag) (p : FakeFeatureFlagProvider) : bool :=
  match od_get (flag_key flag) (ff_enabled p) with
  | Some b => b
  | None => if ff_default p then true else flag_default_value flag
  end.
Definition FakeFeatureFlagProvider_get_variant (flag : FeatureFlag) (p : FakeFeatureFlagProvider) : option string :=
  mjoin (od_get (flag_key flag) (ff_variants p)).

(** A flag is given by its key or as an object. *)
Definition key_of (flag : string + FeatureFlag) : string := match flag with inl k => k | inr f => flag_key f end.

Definition FakeFeatureFlagProvider_enable (flag : string + FeatureFlag) (p : FakeFeatureFlagProvider) : FakeFeatureFlagProvider :=
  mkFakeFlags (od_set (key_of flag) true (ff_enabled p)) (ff_variants p) (ff_default p).
Definition FakeFeatureFlagProvider_disable (flag : string + FeatureFlag) (p : FakeFeatureFlagProvider) : FakeFeatureFlagProvider :=
  mkFakeFlags (od_set (key_of flag) false (ff_enabled p)) (ff_variants p) (ff_default p).
Definition FakeFeatureFlagProvider_set_variant (flag : string + FeatureFlag) (variant : option string) (p : FakeFeatureFlagProvider)
    : FakeFeatureFlagProvider :=
  mkFakeFlags (ff_enabled p) (od_set (key_of flag) variant (ff_variants p)) (ff_default p).
Definition FakeFeatureFlagProvider_reset (p : FakeFeatureFlagProvider) : FakeFeatureFlagProvider := mkFakeFlags [] [] (ff_default p).

Record FakePolicyEngine := mkFakePolicy { fp_overrides : list (string * string * PolicyDecision); fp_default : PolicyDecision }.

Definition FakePolicyEngine_init : FakePolicyEngine := mkFakePolicy [] ALLOW.
Definition FakePolicyEngine_set (resource action : string) (d : PolicyDecision) (e : FakePolicyEngine) : FakePolicyEngine :=
  mkFakePolicy (od_set (resource, action) d (fp_overrides e)) (fp_default e).
Definition FakePolicyEngine_deny_all (e : FakePolicyEngine) : FakePolicyEngine := mkFakePolicy (fp_overrides e) DENY.
Definition FakePolicyEngine_allow_all (e : FakePolicyEngine) : FakePolicyEngine := mkFakePolicy (fp_overrides e) ALLOW.
Definition FakePolicyEngine_evaluate (context : PolicyContext) (e : FakePolicyEngine) : PolicyDecision :=
  default (fp_default e) (od_get (pc_resource context, pc_action context) (fp_overrides e)).

(** ** The stub server

    A stub counts the calls to its URL; the response is what it was registered with. *)
Section Stubs.
Context {Req Resp : Type}.

Definition CallCounts : Type := list (string * Z).

Definition stub_side_effect (url : string) (respond : Req → outcome Resp) (request : Req) : PyM CallCounts Resp :=
  updates (λ counts, od_set url (default 0%Z (od_get url counts) + 1)%Z counts) ;;
  from_outcome (respond request).

(** [httpx_response] builds the response of a status and a JSON value. *)
Context {J : Type} (httpx_response : Z → J → Resp).

Definition HttpStubServer_stub_get (url : string) (response_json : J) (status : Z) : Req → PyM CallCounts Resp :=
  stub_side_effect url (λ _, Return (httpx_response status response_json)).
Definition HttpStubServer_stub_post (url : string) (response_fn : option (Req → outcome Resp)) (response_json : J) (status : Z) : Req → PyM CallCounts Resp :=
  stub_side_effect url (λ request, match response_fn with Some f => f request | None => Return (httpx_response status response_json) end).
Definition HttpStubServer_stub_any (url : string) (response_json : J) (status : Z) : Req → PyM CallCounts Resp :=
  stub_side_effect url (λ _, Return (httpx_response status response_json)).

End Stubs.

Definition HttpStubServer_call_count (url : string) (counts : CallCounts) : Z := default 0%Z (od_get url counts).

Definition StubCallCountError (msg : string) : pyexn := exn_of ["StubCallCountError"; "AssertionError"] msg.

Definition HttpStubServer_assert_called (url : string) (times : Z) (counts : CallCounts) : outcome unit :=
  let actual := HttpStubServer_call_count url counts in
  if Z.eqb actual times then Return tt
  else Raise (StubCallCountError (py_repr url +:+ " was called " +:+ str_of_int actual +:+ " time(s), expected " +:+ str_of_int times)).

Definition HttpStubServer_reset (counts : CallCounts) : CallCounts := [].

(** ** Lemmas *)

(** A dict as a finite map. *)
Definition dict_map {V} (d : list (string * V)) : gmap string V := foldr (λ e m, <[fst e := snd e]> m) ∅ d.

Lemma dict_map_lookup {V} (d : list (string * V)) k : dict_map d !! k = od_get k d.
Proof.
  induction d as [|[k' v] d IH]; simpl; [apply lookup_empty|]. case_decide as E.
  - subst. by rewrite lookup_insert_eq.
  - by rewrite lookup_insert_ne by congruence.
Qed.

Lemma dict_map_set {V} k (v : V) d : dict_map (od_set k v d) = <[k := v]> (dict_map d).
Proof.
  apply map_eq. intros k'. rewrite dict_map_lookup. destruct (decide (k' = k)) as [->|Hne].
  - by rewrite od_get_set_eq, lookup_insert_eq.
  - rewrite od_get_set_ne, lookup_insert_ne by congruence. by rewrite dict_map_lookup.
Qed.

(** Rewriting an entry that is there. *)
Lemma dict_map_alter {V} (f : V → V) k d :
  dict_map (match od_get k d with Some v => od_set k (f v) d | None => d end) = alter f k (dict_map d).
Proof.
  destruct (od_get k d) as [v|] eqn:E.
  - rewrite dict_map_set. apply map_eq. intros k'. destruct (decide (k' = k)) as [->|Hne].
    + rewrite lookup_insert_eq, lookup_alter_eq, dict_map_lookup, E. done.
    + by rewrite lookup_insert_ne, lookup_alter_ne by congruence.
  - apply map_eq. intros k'. destruct (decide (k' = k)) as [->|Hne].
    + by rewrite lookup_alter_eq, dict_map_lookup, E.
    + by rewrite lookup_alter_ne by congruence.
Qed.

(** The fake keeps the contract of the port. *)
#[export] Instance fake_inbox_spec : InboxRepositorySpec InboxRecords.
Proof.
  refine {| ib_view := dict_map |}.
  - intros r x. eexists. split; [reflexivity|]. apply dict_map_set.
  - intros m x. by rewrite dict_map_lookup.
  - intros m x. eexists. split; [reflexivity|]. apply (dict_map_alter (λ r, with_status PROCESSED (ki_error r) r)).
  - intros m error x. eexists. split; [reflexivity|]. apply dict_map_alter.
Qed.

(** [n] readings of the stepping clock. *)
Fixpoint readings (n : nat) : PyM StepClock (list Z) :=
  match n with O => mret [] | S n' => t ← StepClock_now; ts ← readings n'; mret (t :: ts) end.

Lemma datetime_add_ok t d : (datetime_min <= t + d <= datetime_max)%Z → datetime_add t d = Return (t + d)%Z.
Proof. intros H. unfold datetime_add. rewrite !(proj2 (Z.leb_le _ _)) by lia. done. Qed.

(** Requests to stubbed URLs, by their numbers. *)
Definition count_of (url : string) (urls : list string) : Z := Z.of_nat (length (filter (λ u, u = url) urls)).

(** ** Theorems *)

(** the stepping clock ticks evenly.  The [i]-th of [n] readings is the start plus [i] steps,
    as long as the years 1 to 9999 are not left; the count is the number of readings, and a
    peek after them is what the next reading would be. *)
Theorem step_clock_even start step kwargs n :
  let c := StepClock_init (Some start) (Some step) kwargs in
  (datetime_min <= start <= datetime_max)%Z → (datetime_min <= start + Z.of_nat n * step <= datetime_max)%Z →
  ∃ c', readings n c = (Return ((λ i, start + Z.of_nat i * step)%Z <$> seq 0 n), c') ∧ sc_call_count c' = Z.of_nat n ∧
    fst (StepClock_peek c') = Return (start + Z.of_nat n * step)%Z.
Proof.
  cbn zeta. intros Hs Hn. unfold StepClock_init. cbn [default].
  assert (∀ m count s, (datetime_min <= s <= datetime_max)%Z → (datetime_min <= s + Z.of_nat m * step <= datetime_max)%Z →
    readings m (mkStepClock s step count) = (Return ((λ i, s + Z.of_nat i * step)%Z <$> seq 0 m), mkStepClock (s + Z.of_nat m * step) step (count + Z.of_nat m))) as H.
  { clear. intros m. induction m as [|m IH]; intros count s Hs Hm.
    - simpl. do 2 f_equal; f_equal; lia.
    - cbn [readings]. unfold mbind, PyM_bind, StepClock_now. cbn [sc_current sc_step sc_call_count].
      rewrite datetime_add_ok by nia. rewrite IH by nia. unfold mret, PyM_ret. cbn [seq].
      rewrite <- fmap_S_seq, fmap_cons, <- list_fmap_compose. f_equal; [f_equal; f_equal; [lia|]|f_equal; lia].
      apply list_fmap_ext. intros _ i _. simpl. lia. }
  eexists. split; [apply H; done|]. split; [simpl; lia|done].
Qed.

(** resetting forgets the start.  Without an argument the clock goes back to 2026-01-01, not to
    the start it was given. *)
Theorem step_clock_reset_forgets start step kwargs n :
  let c := StepClock_init (Some start) step kwargs in
  start ≠ new_year_2026 →
  fst (StepClock_peek (snd (StepClock_reset None (snd (readings n c))))) = Return new_year_2026 ∧
  fst (StepClock_peek (snd (StepClock_reset None (snd (readings n c))))) ≠ fst (StepClock_peek c).
Proof. intros c Hs. split; [done|]. simpl. congruence. Qed.

(** a transactional method commits exactly when it returns.  With a unit of work the commit
    comes after the method and decides the outcome; when the method raises, the rollback
    comes after it and the exception goes on; without a unit of work the method runs alone. *)
Theorem transactional_outcome {X A} (commit rollback : PyM X unit) (func : PyM X A) x :
  transactional None func x = func x ∧
  transactional (Some (commit, rollback)) func x =
    match func x with
    | (Return a, x1) => match commit x1 with (Return _, x2) => (Return a, x2) | (Raise e, x2) => (Raise e, x2) end
    | (Raise e, x1) => match rollback x1 with (Return _, x2) => (Raise e, x2) | (Raise e', x2) => (Raise e', x2) end
    end.
Proof.
  split; [done|]. unfold transactional, UnitOfWork_block, try_base, mbind, PyM_bind. destruct (func x) as [[a|e] x1]; simpl.
  - by destruct (commit x1) as [[[]|e] x2].
  - by destruct (rollback x1) as [[[]|e'] x2].
Qed.

(** the inbox knows messages, not records.  After a save the record is found by its message id
    and can be marked as processed by it; marking by the record's own id, as the port names
    its argument, changes nothing unless it happens to be a message id. *)
Theorem inbox_marks_by_message {X} `{InboxRepositorySpec X} r (x : X) :
  ∃ x1, ib_save r x = (Return tt, x1) ∧ ib_find_by_message_id (ki_message_id r) x1 = (Return (Some r), x1) ∧
    (∃ x2, ib_mark_processed (ki_message_id r) x1 = (Return tt, x2) ∧
       ib_find_by_message_id (ki_message_id r) x2 = (Return (Some (with_status PROCESSED (ki_error r) r)), x2) ∧
       ki_processed_at (with_status PROCESSED (ki_error r) r) = ki_processed_at r) ∧
    (ib_view x1 !! ki_id r = None → ∃ x2, ib_mark_processed (ki_id r) x1 = (Return tt, x2) ∧ ib_view x2 = ib_view x1).
Proof.
  destruct (ib_save_spec r x) as (x1 & Hs & Hv). exists x1. split; [done|]. rewrite ib_find_spec, Hv, lookup_insert_eq. split; [done|]. split.
  - destruct (ib_processed_spec (ki_message_id r) x1) as (x2 & Hp & Hv2). exists x2. split; [done|]. split; [|done].
    by rewrite ib_find_spec, Hv2, Hv, lookup_alter_eq, lookup_insert_eq.
  - intros Hnone. destruct (ib_processed_spec (ki_id r) x1) as (x2 & Hp & Hv2). exists x2. split; [done|]. rewrite Hv2, Hv.
    apply map_eq. intros k. destruct (decide (k = ki_id r)) as [->|Hne]; [|by rewrite lookup_alter_ne by congruence].
    by rewrite lookup_alter_eq, Hnone.
Qed.

(** stubs count calls.  After any sequence of requests, answered or failing, the assertion on a
    URL passes for the number of requests to it and for no other number. *)
Theorem stub_counts_exact {Req Resp} (respond : string → Req → outcome Resp) (calls : list (string * Req)) url times :
  let counts := snd (run_each (λ c, stub_side_effect (fst c) (respond (fst c)) (snd c)) calls []) in
  HttpStubServer_assert_called url times counts = Return tt ↔ times = count_of url calls.*1.
Proof.
  cbn zeta. assert (∀ counts, HttpStubServer_call_count url (snd (run_each (λ c, stub_side_effect (fst c) (respond (fst c)) (snd c)) calls counts)) =
    HttpStubServer_call_count url counts + count_of url calls.*1)%Z as H.
  { induction calls as [|[u r] calls IH]; intros counts; [by unfold count_of; simpl; lia|]. cbn [run_each fst snd].
    unfold stub_side_effect at 1, mbind, PyM_bind, updates, from_outcome.
    match goal with |- context [run_each ?f calls ?c] => pose proof (IH c) as IHc; destruct (run_each f calls c) as [rest c2] end.
    cbn [snd] in *. rewrite IHc.
    unfold HttpStubServer_call_count, count_of. rewrite fmap_cons. cbn [fst]. rewrite filter_cons. destruct (decide (u = url)) as [->|Hne].
    - rewrite od_get_set_eq. simpl. lia.
    - rewrite od_get_set_ne by done. lia. }
  unfold HttpStubServer_assert_called. rewrite H. change (HttpStubServer_call_count url []) with 0%Z. rewrite Z.add_0_l.
  destruct (Z.eqb_spec (count_of url calls.*1) times); split; congruence.
Qed.

(** the doubles obey the last word.  The policy set last for a resource and action decides, and
    others follow the default; a flag is as it was last switched, and otherwise on if the
    provider's default is, and as the flag itself says if not. *)
Theorem doubles_last_word resource action d context (e : FakePolicyEngine) flag (p : FakeFeatureFlagProvider) other :
  FakePolicyEngine_evaluate context (FakePolicyEngine_set resource action d e) =
    (if decide ((pc_resource context, pc_action context) = (resource, action)) then d else FakePolicyEngine_evaluate context e) ∧
  FakePolicyEngine_evaluate context (FakePolicyEngine_deny_all FakePolicyEngine_init) = DENY ∧
  FakeFeatureFlagProvider_is_enabled other (FakeFeatureFlagProvider_enable flag p) =
    (if decide (flag_key other = key_of flag) then true else FakeFeatureFlagProvider_is_enabled other p) ∧
  FakeFeatureFlagProvider_is_enabled other (FakeFeatureFlagProvider_disable flag p) =
    (if decide (flag_key other = key_of flag) then false else FakeFeatureFlagProvider_is_enabled other p) ∧
  FakeFeatureFlagProvider_is_enabled other (FakeFeatureFlagProvider_reset p) = ff_default p || flag_default_value other.
Proof.
  unfold FakePolicyEngine_evaluate, FakeFeatureFlagProvider_is_enabled. simpl. split_and!.
  - destruct (decide _) as [->|Hne]; [by rewrite od_get_set_eq|by rewrite od_get_set_ne by congruence].
  - done.
  - destruct (decide _) as [->|Hne]; [by rewrite od_get_set_eq|by rewrite od_get_set_ne by congruence].
  - destruct (decide _) as [->|Hne]; [by rewrite od_get_set_eq|by rewrite od_get_set_ne by congruence].
  - by destruct (ff_default p).
Qed.

(** a builder is not changed by its variants, and each variant has its own attributes first.
    An attribute of a variant is the overriding one if there is one and the base's otherwise,
    however the overrides were given. *)
Theorem builder_overrides {V} (b kwargs : list (string * V)) key dflt :
  NoDup kwargs.*1 →
  Builder_get key dflt (Builder_with_ kwargs b) = default (Builder_get key dflt b) (od_get key kwargs) ∧
  Builder_with_ kwargs b = foldl (λ b e, Builder_override (fst e) (snd e) b) b kwargs.
Proof.
  intros Hnd. split.
  - unfold Builder_get, Builder_with_. rewrite od_get_update by done. by destruct (od_get key kwargs).
  - unfold Builder_with_, od_update, Builder_override. clear Hnd. revert b. induction kwargs as [|e kwargs IH]; intros b; [done|]. simpl. by rewrite <- IH.
Qed.

(** ** Witnesses *)

Lemma step_clock_even_witness :
  ∃ c', readings 3 (StepClock_init (Some 0%Z) (Some 5%Z) None) = (Return [0; 5; 10]%Z, c') ∧ sc_call_count c' = 3%Z.
Proof.
  destruct (step_clock_even 0 5 None 3) as (c' & H1 & H2 & _); [vm_compute; by split|vm_compute; by split|]. exists c'. split; [exact H1|exact H2].
Defined.

Lemma step_clock_reset_forgets_witness :
  fst (StepClock_peek (snd (StepClock_reset None (snd (readings 2 (StepClock_init (Some 0%Z) None None)))))) = Return new_year_2026.
Proof. apply (step_clock_reset_forgets 0 None None 2). done. Defined.

Lemma builder_overrides_witness :
  Builder_get "status" "none" (Builder_with_ [("status", "paid")] [("id", "o1"); ("status", "pending")]) = "paid".
Proof.
  destruct (builder_overrides [("id", "o1"); ("status", "pending")] [("status", "paid")] "status" "none") as [H _]; [apply NoDup_singleton|].
  rewrite H. reflexivity.
Defined.
