(* ===== verification/TestAsserts.v ===== *)
(** * Assertions for tests

    [testing/load/runner.py], [testing/performance/assertions.py], [testing/tenant_isolation.py],
    [testing/snapshot/asserter.py], [testing/approval/asserter.py],
    [testing/contracts/compatibility.py] and the injectors of [testing/chaos].  Numbers in
    messages are formatted by arguments; the files of a directory are a finite map. *)
From S2P Require Import Prelude PyString OrderedDict Errors.

(** ** Load reports *)

Record LoadReport := mkLoadReport {
  lr_total_requests : Z;
  lr_failures : Z;
  lr_latencies_ms : list Q;
  lr_duration_sec : Q;
}.

Definition LoadReport_success_count (r : LoadReport) : Z := (lr_total_requests r - lr_failures r)%Z.

Definition LoadReport_error_rate (r : LoadReport) : Q :=
  if Z.eqb (lr_total_requests r) 0 then 0%Q else (inject_Z (lr_failures r) / inject_Z (lr_total_requests r))%Q.

Definition LoadReport_rps (r : LoadReport) : Q :=
  if Qle_bool (lr_duration_sec r) 0 then 0%Q else (inject_Z (lr_total_requests r) / lr_duration_sec r)%Q.

(** [sorted] of floats. *)
Fixpoint insert_q (x : Q) (l : list Q) : list Q :=
  match l with [] => [x] | y :: l' => if Qle_bool x y then x :: l else y :: insert_q x l' end.
Definition sorted_q (l : list Q) : list Q := foldr insert_q [] l.

(** [max(0, int(len(l) * pct / 100) - 1)]. *)
Definition percentile_index (n : nat) (pct : Z) : nat := Z.to_nat (Z.max 0 (Z.of_nat n * pct / 100 - 1)).

Definition LoadReport_percentile (pct : Z) (r : LoadReport) : Q :=
  match lr_latencies_ms r with
  | [] => 0%Q
  | l => default 0%Q (sorted_q l !! percentile_index (length l) pct)
  end.

Definition LoadReport_p50_ms : LoadReport → Q := LoadReport_percentile 50.
Definition LoadReport_p95_ms : LoadReport → Q := LoadReport_percentile 95.
Definition LoadReport_p99_ms : LoadReport → Q := LoadReport_percentile 99.

(** [max(l, default=0.0)] and [min]: the first of equals is kept. *)
Definition LoadReport_max_ms (r : LoadReport) : Q := match lr_latencies_ms r with [] => 0%Q | x :: l => foldl py_max x l end.
Definition LoadReport_min_ms (r : LoadReport) : Q := match lr_latencies_ms r with [] => 0%Q | x :: l => foldl py_min x l end.
Definition LoadReport_mean_ms (r : LoadReport) : Q :=
  match lr_latencies_ms r with [] => 0%Q | l => (foldr Qplus 0 l / inject_Z (Z.of_nat (length l)))%Q end.

Definition LoadTestError (msg : string) : pyexn := exn_of ["LoadTestError"; "AssertionError"] msg.

Section LoadAsserts.
Context (fmt1 fmt_pct fmt : Q → string).

Definition LoadReport_assert_p99_below (ms : Q) (r : LoadReport) : outcome unit :=
  if Qltb ms (LoadReport_p99_ms r) then
    Raise (LoadTestError ("p99 latency " +:+ fmt1 (LoadReport_p99_ms r) +:+ " ms exceeds threshold " +:+ fmt ms +:+ " ms"))
  else Return tt.
Definition LoadReport_assert_error_rate_below (rate : Q) (r : LoadReport) : outcome unit :=
  if Qltb rate (LoadReport_error_rate r) then
    Raise (LoadTestError ("error rate " +:+ fmt_pct (LoadReport_error_rate r) +:+ " exceeds threshold " +:+ fmt_pct rate))
  else Return tt.
Definition LoadReport_assert_rps_above (min_rps : Q) (r : LoadReport) : outcome unit :=
  if Qltb (LoadReport_rps r) min_rps then
    Raise (LoadTestError ("rps " +:+ fmt1 (LoadReport_rps r) +:+ " is below minimum " +:+ fmt min_rps))
  else Return tt.

End LoadAsserts.

(** *** The runner

    The users share its counters; a request that ends adds to them, in whatever order the
    requests of the users end. *)
Record LoadTestRunner := mkRunner { rn_latencies : list Q; rn_failures : Z; rn_total : Z }.

Definition LoadTestRunner_init : LoadTestRunner := mkRunner [] 0 0.

(** The [try] statement of the loop, for a request with its outcome and its time. *)
Definition end_request (e : outcome unit * Q) (s : LoadTestRunner) : LoadTestRunner :=
  mkRunner (rn_latencies s ++ [snd e])
    (match fst e with Raise exc => if is_Exception exc then rn_failures s + 1 else rn_failures s | Return _ => rn_failures s end)%Z
    (rn_total s + 1)%Z.

(** [while time.perf_counter() < deadline]: one user, with the clock of the world. *)
Fixpoint user_loop {W} (perf_counter : W → Q) (scenario : PyM W unit) (deadline : Q) (fuel : nat) : PyM (LoadTestRunner * W) unit := λ s,
  match fuel with
  | O => (Return tt, s)
  | S fuel' =>
      if Qltb (perf_counter (snd s)) deadline then
        let '(o, w) := scenario (snd s) in
        let s' := (end_request (o, ((perf_counter w - perf_counter (snd s)) * 1000)%Q) (fst s), w) in
        match o with
        | Raise e => if is_Exception e then user_loop perf_counter scenario deadline fuel' s' else (Raise e, s')
        | Return _ => user_loop perf_counter scenario deadline fuel' s'
        end
      else (Return tt, s)
  end.

Definition LoadTestRunner_report (duration : Q) (s : LoadTestRunner) : LoadReport :=
  mkLoadReport (rn_total s) (rn_failures s) (rn_latencies s) duration.

(** ** Performance *)

Definition PerformanceAssertionError (msg : string) : pyexn := exn_of ["PerformanceAssertionError"; "AssertionError"] msg.

Section Performance.
Context {W : Type} (perf_counter : W → Q) (fmt1 fmt : Q → string).

Definition assert_completes_within {A} (coro : PyM W A) (max_ms : Q) : PyM W A :=
  start ← reads perf_counter;
  result ← coro;
  stop ← reads perf_counter;
  let elapsed_ms := ((stop - start) * 1000)%Q in
  if Qltb max_ms elapsed_ms then
    raise (PerformanceAssertionError ("Coroutine took " +:+ fmt1 elapsed_ms +:+ " ms, expected ≤ " +:+ fmt max_ms +:+ " ms"))
  else mret result.

(** The loop: the operations done when the deadline is reached. *)
Fixpoint count_ops (fn : PyM W unit) (deadline : Q) (fuel : nat) (ops : Z) : PyM W Z := λ w,
  match fuel with
  | O => (Return ops, w)
  | S fuel' =>
      if Qltb (perf_counter w) deadline then
        match fn w with
        | (Return _, w') => count_ops fn deadline fuel' (ops + 1)%Z w'
        | (Raise e, w') => (Raise e, w')
        end
      else (Return ops, w)
  end.

Definition assert_throughput (fn : PyM W unit) (min_ops_per_sec duration_sec : Q) (fuel : nat) : PyM W Q :=
  start ← reads perf_counter;
  ops ← count_ops fn (start + duration_sec)%Q fuel 0%Z;
  if Qeq_bool duration_sec 0 then raise (exn_of ["ZeroDivisionError"; "ArithmeticError"] "division by zero")
  else
    let actual_rps := (inject_Z ops / duration_sec)%Q in
    if Qltb actual_rps min_ops_per_sec then
      raise (PerformanceAssertionError ("Throughput " +:+ fmt1 actual_rps +:+ " ops/s is below minimum " +:+ fmt min_ops_per_sec +:+ " ops/s"))
    else mret actual_rps.

End Performance.

(** ** Tenant isolation *)

(** What a repository returns: nothing, a list, an iterator that can be read once, or one object.
    An item is [str(tenant_id)] if it has that attribute. *)
Inductive repo_result (I : Type) :=
  | RNothing | RList (items : list I) | RIterator (items : list I) | ROne (item : I).
Arguments RNothing {I}.
Arguments RList {I} items.
Arguments RIterator {I} items.
Arguments ROne {I} item.

Record TenantLeak := mkLeak { tl_expected : string; tl_leaked : gset string; tl_count : Z }.

Section Isolation.
Context {I : Type} (tenant_of : I → option string) (expected : string).

Definition foreign (x : I) : bool := match tenant_of x with Some t => negb (String.eqb t expected) | None => false end.

Definition items_of_result (r : repo_result I) : list I :=
  match r with RNothing => [] | RList l => l | RIterator l => l | ROne x => [x] end.

(** [list(result)] leaves an iterator empty. *)
Definition after_reading (r : repo_result I) : repo_result I := match r with RIterator _ => RIterator [] | r => r end.

Definition TenantIsolationValidator_validate (r : repo_result I) : option TenantLeak :=
  let items := items_of_result r in
  let leaked : gset string := list_to_set (omap (λ x, if foreign x then tenant_of x else None) items) in
  if decide (leaked = ∅) then None else Some (mkLeak expected leaked (Z.of_nat (length (filter (λ x, foreign x = true) items)))).

(** The wrapper of a method: what the caller gets. *)
Definition TenantIsolationValidator_call (r : repo_result I) : TenantLeak + repo_result I :=
  match TenantIsolationValidator_validate r with Some leak => inl leak | None => inr (after_reading r) end.

End Isolation.

(** ** Snapshots and approvals *)

(** [name.replace("/", "_")] and the same for the backslash. *)
Definition safe_char (c : ascii) : ascii := if Ascii.eqb c "/" || Ascii.eqb c "092" then "_"%char else c.
Definition safe_name (name : string) : string := str_map safe_char name.

#[local] Abbreviation Files := (gmap string string).

Definition SnapshotStore_path (name : string) : string := safe_name name +:+ ".snap".
Definition SnapshotStore_load (name : string) (fs : Files) : option string := fs !! SnapshotStore_path name.
Definition SnapshotStore_save (name content : string) (fs : Files) : Files := <[SnapshotStore_path name := content]> fs.
Definition SnapshotStore_exists (name : string) (fs : Files) : bool := bool_decide (is_Some (fs !! SnapshotStore_path name)).
Definition SnapshotStore_delete (name : string) (fs : Files) : Files := delete (SnapshotStore_path name) fs.

Definition NL : string := String "010" "".

Definition AssertionFailure (msg : string) : pyexn := exn_of ["AssertionError"] msg.
Definition ApprovalError (msg : string) : pyexn := exn_of ["ApprovalError"; "AssertionError"] msg.

Section Snapshots.
(** [unified_diff] gives the text of a difference; [serialize] that of a value. *)
Context {V : Type} (serialize : V → outcome string) (unified_diff : string → string → string).

Definition SnapshotAsserter_assert_matches_snapshot (update : bool) (value : V) (name : string) : PyM Files unit :=
  serialised ← from_outcome (serialize value);
  exists_ ← reads (SnapshotStore_exists name);
  if update || negb exists_ then updates (SnapshotStore_save name serialised)
  else
    stored ← reads (SnapshotStore_load name);
    if decide (stored = Some serialised) then mret tt
    else raise (AssertionFailure ("Snapshot mismatch for " +:+ py_repr name +:+ ":" +:+ NL +:+ unified_diff (default "" stored) serialised)).

(** [normalise] is the identity for plain text, and a canonical form for HTML and JSON. *)
Context (normalise : string → string).

Definition ApprovalAsserter_received_path (name : string) : string := safe_name name +:+ ".received.txt".
Definition ApprovalAsserter_approved_path (name : string) : string := safe_name name +:+ ".approved.txt".

Definition ApprovalAsserter_approve (approve : bool) (received name : string) : PyM Files unit :=
  let normalised := normalise received in
  updates (<[ApprovalAsserter_received_path name := normalised]>) ;;
  if approve then updates (<[ApprovalAsserter_approved_path name := normalised]>)
  else
    approved ← reads (λ fs : Files, fs !! ApprovalAsserter_approved_path name);
    match approved with
    | None => raise (ApprovalError ("No approved file for " +:+ py_repr name +:+ ". Inspect " +:+ ApprovalAsserter_received_path name +:+
                                    " and copy to " +:+ ApprovalAsserter_approved_path name +:+ " to approve."))
    | Some a =>
        if String.eqb a normalised then updates (delete (ApprovalAsserter_received_path name))
        else raise (ApprovalError ("Approval mismatch for " +:+ py_repr name +:+ ":" +:+ NL +:+ unified_diff a normalised))
    end.

Definition ApprovalAsserter_approved_file_exists (name : string) (fs : Files) : bool := bool_decide (is_Some (fs !! ApprovalAsserter_approved_path name)).
Definition ApprovalAsserter_received_file_exists (name : string) (fs : Files) : bool := bool_decide (is_Some (fs !! ApprovalAsserter_received_path name)).

End Snapshots.

(** ** Contracts *)

(** The parts of a JSON schema that are looked at. *)
Record Schema := mkSchema { sch_required : gset string; sch_properties : gset string }.

(** [text] of the set of missing fields. *)
Definition CompatibilityAsserter_assert_backward_compatible (set_repr : gset string → string) (old new : Schema) : outcome unit :=
  let missing := sch_required old ∖ sch_properties new in
  if decide (missing = ∅) then Return tt
  else Raise (AssertionFailure ("Backward compatibility violated – fields removed: " +:+ set_repr missing)).

Definition CompatibilityAsserter_assert_forward_compatible (set_repr : gset string → string) (old new : Schema) : outcome unit :=
  let missing := sch_required new ∖ sch_properties old in
  if decide (missing = ∅) then Return tt
  else Raise (AssertionFailure ("Forward compatibility violated – new required fields: " +:+ set_repr missing)).

(** ** Injected failures *)

Definition FailureInjector_init (failure_rate : Q) : outcome Q :=
  if Qle_bool 0 failure_rate && Qle_bool failure_rate 1 then Return failure_rate
  else Raise (ValueError "failure_rate must be between 0.0 and 1.0").

Definition FailureInjector_default_exception : pyexn := ExternalServiceError "chaos" (Some "Injected failure").

(** [close] discards a coroutine that is not run; a plain value has none. *)
Definition FailureInjector_call {W A} (random : PyM W Q) (rate : Q) (factory : option (PyM W pyexn)) (close : option (PyM W unit)) (coro : PyM W A) : PyM W A :=
  r ← random;
  if Qltb r rate then
    match close with Some c => c | None => mret tt end ;;
    e ← default (mret FailureInjector_default_exception) factory;
    raise e
  else coro.

Definition LatencyInjector_call {W A} (uniform : Q → Q → PyM W Q) (sleep : Q → PyM W unit) (min_ms max_ms : Q) (coro : PyM W A) : PyM W A :=
  delay ← uniform (min_ms / 1000)%Q (max_ms / 1000)%Q;
  sleep delay ;;
  coro.

(** ** Lemmas *)

Lemma insert_q_length x l : length (insert_q x l) = S (length l).
Proof. induction l as [|y l IH]; simpl; [done|]. destruct (Qle_bool x y); simpl; by rewrite ?IH. Qed.

Lemma sorted_q_length l : length (sorted_q l) = length l.
Proof. induction l as [|x l IH]; [done|]. unfold sorted_q in *. simpl. by rewrite insert_q_length, IH. Qed.

Lemma insert_q_snoc x w l : (x <= w)%Q → insert_q x (l ++ [w]) = insert_q x l ++ [w].
Proof.
  intros Hx. induction l as [|y l IH]; simpl.
  - by rewrite (proj2 (Qle_bool_iff x w) Hx).
  - destruct (Qle_bool x y); [done|]. by rewrite IH.
Qed.

(** A largest element that comes last stays last. *)
Lemma sorted_q_snoc l w : Forall (λ x, x <= w)%Q l → sorted_q (l ++ [w]) = sorted_q l ++ [w].
Proof.
  induction 1 as [|x l Hx _ IH]; [done|]. unfold sorted_q in *. simpl. rewrite IH. by apply insert_q_snoc.
Qed.

Lemma insert_q_elem x l y : y ∈ insert_q x l ↔ y = x ∨ y ∈ l.
Proof.
  induction l as [|z l IH]; simpl; [set_solver|]. destruct (Qle_bool x z); rewrite !elem_of_cons, ?IH; [done|]. tauto.
Qed.

Lemma sorted_q_elem l y : y ∈ sorted_q l ↔ y ∈ l.
Proof. induction l as [|x l IH]; [done|]. unfold sorted_q in *. simpl. by rewrite insert_q_elem, IH, elem_of_cons. Qed.

(** Requests that end, counted. *)
Definition failed_request (e : outcome unit * Q) : bool := match fst e with Raise exc => is_Exception exc | Return _ => false end.

Lemma end_requests_count es s :
  let s' := foldl (λ s e, end_request e s) s es in
  rn_total s' = (rn_total s + Z.of_nat (length es))%Z ∧
  rn_failures s' = (rn_failures s + Z.of_nat (length (filter (λ e, failed_request e = true) es)))%Z ∧
  rn_latencies s' = rn_latencies s ++ es.*2.
Proof.
  revert s. induction es as [|[o t] es IH]; intros s; [simpl; rewrite app_nil_r; split_and!; [lia|lia|done]|].
  cbn [foldl]. destruct (IH (end_request (o, t) s)) as (H1 & H2 & H3). cbn zeta. rewrite H1, H2, H3. simpl. rewrite <- app_assoc. split_and!; [lia| |done].
  rewrite filter_cons. destruct o as [u|e]; [rewrite decide_False by done; lia|]. destruct (is_Exception e) eqn:E.
  - rewrite decide_True by exact E. simpl. lia.
  - rewrite decide_False by (unfold failed_request; simpl; congruence). lia.
Qed.

Lemma empty_leaks {I} (tenant_of : I → option string) expected items :
  (list_to_set (omap (λ x, if foreign tenant_of expected x then tenant_of x else None) items) : gset string) = ∅ ↔
  ∀ x, x ∈ items → foreign tenant_of expected x = false.
Proof.
  rewrite <- leibniz_equiv_iff. split.
  - intros Hnil x Hx. destruct (foreign tenant_of expected x) eqn:E; [|done]. exfalso.
    destruct (tenant_of x) as [t|] eqn:Et; [|by unfold foreign in E; rewrite Et in E].
    assert (t ∈ (list_to_set (omap (λ x, if foreign tenant_of expected x then tenant_of x else None) items) : gset string)) as Hin; [|set_solver].
    rewrite elem_of_list_to_set, list_elem_of_omap. exists x. by rewrite E.
  - intros Hall t. rewrite elem_of_list_to_set, list_elem_of_omap. split; [|set_solver]. intros (x & Hx & Heq). by rewrite Hall in Heq.
Qed.

(** ** Theorems *)

(** the 99th percentile misses the worst request.  With up to a hundred requests it is the largest
    but one: however slow the slowest request was, the assertion on the percentile passes if
    it passes for the others. *)
Theorem p99_misses_worst fmt1 fmt lat worst total failures duration limit :
  lat ≠ [] → (length lat <= 99)%nat → Forall (λ x, x <= worst)%Q lat → Forall (λ x, x <= limit)%Q lat →
  let r := mkLoadReport total failures (lat ++ [worst]) duration in
  LoadReport_p99_ms r ∈ lat ∧ LoadReport_assert_p99_below fmt1 fmt limit r = Return tt.
Proof.
  intros Hne Hlen Hw Hlim r.
  assert (LoadReport_p99_ms r ∈ lat) as Hin.
  { unfold LoadReport_p99_ms, LoadReport_percentile. subst r. cbn [lr_latencies_ms].
    assert (percentile_index (length (lat ++ [worst])) 99 = length lat - 1)%nat as Hidx.
    { unfold percentile_index. rewrite length_app. simpl. destruct lat as [|x lat]; [done|]. simpl in *.
      assert (Z.of_nat (S (length lat + 1)) * 99 / 100 = Z.of_nat (S (length lat)))%Z as ->; [|lia].
      symmetry. apply Z.div_unique with (r := (98 - Z.of_nat (length lat))%Z); lia. }
    assert (lat ++ [worst] = [] ∨ ∃ y l, lat ++ [worst] = y :: l) as [Hnil|(y & l & Heq)] by (destruct (lat ++ [worst]); eauto).
    { by destruct lat. }
    rewrite Heq, <- Heq, Hidx, (sorted_q_snoc lat worst Hw). rewrite lookup_app_l.
    - destruct (lookup_lt_is_Some_2 (sorted_q lat) (length lat - 1)) as [v Hv]; [rewrite sorted_q_length; destruct lat; simpl in *; [done|lia]|].
      rewrite Hv. simpl. apply sorted_q_elem. by eapply list_elem_of_lookup_2.
    - rewrite sorted_q_length. destruct lat; simpl in *; [done|lia]. }
  split; [done|]. unfold LoadReport_assert_p99_below. rewrite Forall_forall in Hlim. specialize (Hlim _ Hin).
  destruct (Qltb limit (LoadReport_p99_ms r)) eqn:E; [|done]. apply Qltb_lt in E. lra.
Qed.

(** the report does not depend on how the users interleave.  In whatever order the requests of
    the users end, the report counts each once, counts as failures those that raised an
    ordinary exception, and has their latencies; the error rate is between 0 and 1. *)
Theorem load_any_interleaving (users : list (list (outcome unit * Q))) es duration :
  es ≡ₚ mjoin users →
  let r := LoadTestRunner_report duration (foldl (λ s e, end_request e s) LoadTestRunner_init es) in
  lr_total_requests r = Z.of_nat (length (mjoin users)) ∧
  lr_failures r = Z.of_nat (length (filter (λ e, failed_request e = true) (mjoin users))) ∧
  lr_latencies_ms r ≡ₚ (mjoin users).*2 ∧ (0 <= LoadReport_error_rate r <= 1)%Q.
Proof.
  intros Hp r. destruct (end_requests_count es LoadTestRunner_init) as (H1 & H2 & H3). cbn zeta in *.
  set (J := mjoin users) in *. clearbody J. cbn [rn_total rn_failures rn_latencies LoadTestRunner_init] in *.
  rewrite (Permutation_length Hp) in H1. rewrite Z.add_0_l in H1, H2. rewrite app_nil_l in H3.
  assert (length (filter (λ e, failed_request e = true) es) = length (filter (λ e, failed_request e = true) J)) as Hfl.
  { apply Permutation_length. by rewrite Hp. }
  rewrite Hfl in H2. assert (es.*2 ≡ₚ J.*2) as Hlat by (by apply fmap_Permutation).
  assert (lr_total_requests r = Z.of_nat (length J)) as Ht by exact H1.
  assert (lr_failures r = Z.of_nat (length (filter (λ e, failed_request e = true) J))) as Hfa by exact H2.
  assert (lr_latencies_ms r = es.*2) as Hla by exact H3. clearbody r.
  rewrite Ht, Hfa, Hla. do 3 (split; [done|]). unfold LoadReport_error_rate. rewrite Ht, Hfa.
  pose proof (length_filter (λ e, failed_request e = true) J) as Hle.
  set (f := Z.of_nat (length (filter _ J))). set (n := Z.of_nat (length J)).
  assert (0 <= f <= n)%Z as Hf by (subst f n; lia). clearbody f n.
  destruct (Z.eqb_spec n 0) as [|Hn]; [split; lra|].
  assert (0 < inject_Z n)%Q as Hnq by (change 0%Q with (inject_Z 0); rewrite <- Zlt_Qlt; lia). split.
  - apply Qle_shift_div_l; [done|]. rewrite Qmult_0_l. change 0%Q with (inject_Z 0). rewrite <- Zle_Qle. lia.
  - apply Qle_shift_div_r; [done|]. rewrite Qmult_1_l. rewrite <- Zle_Qle. lia.
Qed.

(** what the validator lets through.  A call fails exactly when an item belongs to another tenant,
    with the tenants and the number of such items; otherwise the caller gets the result -
    except that an iterator has been read and comes back empty. *)
Theorem validator_exact {I} (tenant_of : I → option string) expected r :
  match TenantIsolationValidator_call tenant_of expected r with
  | inl leak => (∃ x, x ∈ items_of_result r ∧ foreign tenant_of expected x = true) ∧ tl_expected leak = expected ∧
      (∀ t, t ∈ tl_leaked leak ↔ t ≠ expected ∧ ∃ x, x ∈ items_of_result r ∧ tenant_of x = Some t) ∧
      tl_count leak = Z.of_nat (length (filter (λ x, foreign tenant_of expected x = true) (items_of_result r)))
  | inr r' => (∀ x, x ∈ items_of_result r → foreign tenant_of expected x = false) ∧
      r' = match r with RIterator _ => RIterator [] | r => r end
  end.
Proof.
  unfold TenantIsolationValidator_call, TenantIsolationValidator_validate. cbn zeta. case_decide as E; [split; [by apply empty_leaks|done]|].
  split_and!; [|done| |done].
  - destruct (set_choose_L _ E) as [t Ht]. rewrite elem_of_list_to_set, list_elem_of_omap in Ht. destruct Ht as (x & Hx & Heq).
    exists x. split; [done|]. by destruct (foreign tenant_of expected x).
  - intros t. cbn [tl_leaked]. rewrite elem_of_list_to_set, list_elem_of_omap. unfold foreign. split.
    + intros (x & Hx & Heq). destruct (tenant_of x) as [u|] eqn:Eu; [|done]. destruct (String.eqb_spec u expected); simpl in Heq; [done|].
      injection Heq as ->. split; [done|]. by exists x.
    + intros (Hne & x & Hx & Ht). exists x. split; [done|]. rewrite Ht. by destruct (String.eqb_spec t expected).
Qed.

(** the life of a snapshot.  The first assertion stores the value and passes; afterwards the same
    value passes and leaves the files alone, another value fails and leaves them alone, and an
    update stores it. *)
Theorem snapshot_life {V} (serialize : V → outcome string) diff v v' s s' name (fs : Files) :
  serialize v = Return s → serialize v' = Return s' → s ≠ s' → fs !! SnapshotStore_path name = None →
  let fs1 := <[SnapshotStore_path name := s]> fs in
  SnapshotAsserter_assert_matches_snapshot serialize diff false v name fs = (Return tt, fs1) ∧
  SnapshotAsserter_assert_matches_snapshot serialize diff false v name fs1 = (Return tt, fs1) ∧
  (∃ msg, SnapshotAsserter_assert_matches_snapshot serialize diff false v' name fs1 = (Raise (AssertionFailure msg), fs1)) ∧
  SnapshotAsserter_assert_matches_snapshot serialize diff true v' name fs1 = (Return tt, <[SnapshotStore_path name := s']> fs1).
Proof.
  intros Hs Hs' Hne Hfs fs1. unfold SnapshotAsserter_assert_matches_snapshot, mbind, PyM_bind, from_outcome, reads. rewrite Hs, Hs'.
  assert (SnapshotStore_exists name fs = false) as -> by (unfold SnapshotStore_exists; by rewrite Hfs).
  assert (SnapshotStore_exists name fs1 = true) as -> by (unfold SnapshotStore_exists, fs1; by rewrite lookup_insert_eq).
  cbn [orb negb]. cbn beta iota.
  assert (SnapshotStore_load name fs1 = Some s) as -> by (unfold SnapshotStore_load, fs1; by rewrite lookup_insert_eq).
  split_and!; [done| | |done].
  - by rewrite decide_True.
  - rewrite decide_False by congruence. by eexists.
Qed.

(** the life of an approval.  Text without an approved file fails and is left as received; once
    approved the same text passes and the received file is gone, and other text fails; names
    that differ only in slashes and underscores share their files. *)
Theorem approval_life diff normalise text text' name (fs : Files) :
  fs !! ApprovalAsserter_approved_path name = None → ApprovalAsserter_approved_path name ≠ ApprovalAsserter_received_path name →
  normalise text ≠ normalise text' →
  let received := ApprovalAsserter_received_path name in
  let fs1 := <[ApprovalAsserter_approved_path name := normalise text]> (<[received := normalise text]> fs) in
  (∃ msg, ApprovalAsserter_approve diff normalise false text name fs = (Raise (ApprovalError msg), <[received := normalise text]> fs)) ∧
  ApprovalAsserter_approve diff normalise true text name fs = (Return tt, fs1) ∧
  (∃ fs2, ApprovalAsserter_approve diff normalise false text name fs1 = (Return tt, fs2) ∧ fs2 !! received = None ∧
     fs2 !! ApprovalAsserter_approved_path name = Some (normalise text)) ∧
  (∃ msg fs2, ApprovalAsserter_approve diff normalise false text' name fs1 = (Raise (ApprovalError msg), fs2) ∧ fs2 !! received = Some (normalise text')).
Proof.
  intros Hfs Hpath Hne received fs1. unfold ApprovalAsserter_approve, mbind, PyM_bind, updates, reads. fold received.
  assert (ApprovalAsserter_approved_path name ≠ received) as Hp by done. split_and!.
  - rewrite lookup_insert_ne by done. rewrite Hfs. by eexists.
  - done.
  - unfold fs1. rewrite lookup_insert_ne, lookup_insert_eq by done. rewrite String.eqb_refl. eexists. split; [done|].
    rewrite lookup_delete_eq. split; [done|]. rewrite lookup_delete_ne, lookup_insert_ne by done. apply lookup_insert_eq.
  - unfold fs1. rewrite lookup_insert_ne, lookup_insert_eq by done. destruct (String.eqb_spec (normalise text) (normalise text')); [done|].
    eexists _, _. split; [done|]. apply lookup_insert_eq.
Qed.

(** the backward check does not see new required fields.  It passes exactly when every required
    old field is still a property; a document of the required old fields, which the old schema
    accepts, is rejected by a new schema that requires one more, check passed or not. *)
Theorem backward_check_misses set_repr old new :
  (CompatibilityAsserter_assert_backward_compatible set_repr old new = Return tt ↔ sch_required old ⊆ sch_properties new) ∧
  ∀ f, f ∈ sch_required new → f ∉ sch_required old →
    let document := sch_required old in sch_required old ⊆ document ∧ ¬ sch_required new ⊆ document.
Proof.
  split.
  - unfold CompatibilityAsserter_assert_backward_compatible. cbn zeta. case_decide as E; split; try done; set_solver.
  - intros f Hf Hn document. split; [done|]. intros Hsub. apply Hn. by apply Hsub.
Qed.

(** measuring throughput ends.  If every operation takes at least [d], the loop has reached its
    deadline after as many rounds as make up the duration, or an operation has raised; the
    operations counted are those that were run. *)
Theorem throughput_terminates {W} (perf_counter : W → Q) fn deadline d fuel ops (w : W) :
  (∀ w u w', fn w = (Return u, w') → perf_counter w + d <= perf_counter w')%Q →
  (deadline <= perf_counter w + inject_Z (Z.of_nat fuel) * d)%Q →
  (∃ n w', count_ops perf_counter fn deadline fuel ops w = (Return (ops + Z.of_nat n)%Z, w') ∧ (n <= fuel)%nat ∧ (deadline <= perf_counter w')%Q) ∨
  (∃ e w', count_ops perf_counter fn deadline fuel ops w = (Raise e, w')).
Proof.
  intros Hstep. revert ops w. induction fuel as [|fuel IH]; intros ops w Hfuel; cbn [count_ops].
  - left. exists 0%nat, w. split_and!; [do 2 f_equal; lia|done|]. change (inject_Z (Z.of_nat 0)) with 0%Q in Hfuel. lra.
  - destruct (Qltb (perf_counter w) deadline) eqn:E.
    + destruct (fn w) as [[u|e] w1] eqn:Ef; [|right; by eexists _, _]. specialize (Hstep w u w1 Ef).
      replace (Z.of_nat (S fuel)) with (Z.of_nat fuel + 1)%Z in Hfuel by lia. rewrite inject_Z_plus in Hfuel. change (inject_Z 1) with 1%Q in Hfuel.
      destruct (IH (ops + 1)%Z w1) as [(n & w' & Hn & Hle & Hd)|(e & w' & He)]; [lra| |].
      * left. exists (S n), w'. split_and!; [rewrite Hn; do 2 f_equal; lia|lia|done].
      * right. by eexists _, _.
    + left. exists 0%nat, w. split_and!; [do 2 f_equal; lia|lia|]. by apply Qltb_ge.
Qed.

(** an injector at its ends.  Numbers drawn from [0, 1): at rate 0 the call is that of the
    coroutine; at rate 1 the coroutine is never run and the call raises. *)
Theorem injector_ends {W A} (random : PyM W Q) (close : PyM W unit) (coro : PyM W A) r (w w1 w2 : W) :
  random w = (Return r, w1) → (0 <= r < 1)%Q → close w1 = (Return tt, w2) →
  FailureInjector_call random 0 None (Some close) coro w = coro w1 ∧
  FailureInjector_call random 1 None (Some close) coro w = (Raise FailureInjector_default_exception, w2).
Proof.
  intros Hr Hb Hc. unfold FailureInjector_call, mbind, PyM_bind. rewrite Hr. split.
  - destruct (Qltb r 0) eqn:E; [|done]. apply Qltb_lt in E. lra.
  - destruct (Qltb r 1) eqn:E; [by rewrite Hc|]. apply Qltb_ge in E. lra.
Qed.

(** ** Witnesses *)

Lemma p99_misses_worst_witness :
  LoadReport_assert_p99_below (λ _, "") (λ _, "") 20 (mkLoadReport 3 0 [10; 12; 90000]%Q 1) = Return tt.
Proof.
  apply (p99_misses_worst (λ _, "") (λ _, "") [10; 12]%Q 90000 3 0 1 20); [done|simpl; lia| |]; repeat constructor; by vm_compute.
Defined.

Lemma load_any_interleaving_witness :
  lr_failures (LoadTestRunner_report 1 (foldl (λ s e, end_request e s) LoadTestRunner_init
    [(Raise (ValueError ""), 3%Q); (Return tt, 1%Q); (Return tt, 2%Q)])) = 1%Z.
Proof.
  destruct (load_any_interleaving [[(Return tt, 1%Q); (Return tt, 2%Q)]; [(Raise (ValueError ""), 3%Q)]]
    [(Raise (ValueError ""), 3%Q); (Return tt, 1%Q); (Return tt, 2%Q)] 1) as (_ & H & _); [|exact H].
  simpl. apply (Permutation_app_comm [(Raise (ValueError ""), 3%Q)] [(Return tt, 1%Q); (Return tt, 2%Q)]).
Defined.

Lemma snapshot_life_witness :
  SnapshotAsserter_assert_matches_snapshot Return (λ _ _, "") false "one" "orders/list" ∅ = (Return tt, {["orders_list.snap" := "one"]}) ∧
  ∃ msg, SnapshotAsserter_assert_matches_snapshot Return (λ _ _, "") false "two" "orders/list" {["orders_list.snap" := "one"]} =
    (Raise (AssertionFailure msg), {["orders_list.snap" := "one"]}).
Proof.
  destruct (snapshot_life Return (λ _ _, "") "one" "two" "one" "two" "orders/list" ∅) as (H1 & _ & H3 & _); [done..|]. split; [exact H1|exact H3].
Defined.

Lemma approval_life_witness :
  ∃ msg, ApprovalAsserter_approve (λ _ _, "") (λ t, t) false "hello" "mail" ∅ = (Raise (ApprovalError msg), {["mail.received.txt" := "hello"]}).
Proof. apply (approval_life (λ _ _, "") (λ t, t) "hello" "bye" "mail" ∅); done. Defined.

Lemma throughput_terminates_witness :
  (∃ n w', count_ops (λ w, w) (updates (λ w, w + 1)%Q) 2 3 0 0%Q = (Return (0 + Z.of_nat n)%Z, w') ∧ (n <= 3)%nat ∧ (2 <= w')%Q) ∨
  (∃ e w', count_ops (λ w, w) (updates (λ w, w + 1)%Q) 2 3 0 0%Q = (Raise e, w')).
Proof.
  apply (throughput_terminates (λ w, w) (updates (λ w, w + 1)%Q) 2 1 3 0 0%Q).
  - intros w u w' Heq. injection Heq as _ <-. lra.
  - by vm_compute.
Defined.

Lemma injector_ends_witness :
  FailureInjector_call (mret (1#2)%Q) 1 None (Some (updates S)) (mret tt) 0%nat = (Raise FailureInjector_default_exception, 1%nat).
Proof.
  apply (injector_ends (mret (1#2)%Q) (updates S) (mret tt) (1#2)%Q 0%nat 0%nat 1%nat); [done|split; by vm_compute|done].
Defined.
