(* ===== verification/Encryption.v ===== *)
(** * Encryption providers, key rotation and certificates

    [security/encryption] and [security/tls].  The ciphers of the [cryptography] package
    are classes of operations with their documented laws ([Aead], [Fernet]), each with an
    instance; so is the SQLAlchemy session whose objects the rotation of a column rewrites
    ([EntitySession]).  What a provider promises its clients is [ProviderSpec]: the AES-GCM
    provider keeps it, and the rotation of a column is proved against it.  Bytes are lists
    of numbers.  Contexts of the [ssl] module are records of what was loaded into them. *)
From S2P Require Import Prelude PyString OrderedDict Sha256.

#[local] Abbreviation bytes := (list Z).

(** ** Providers ([encryption/fernet.py]) *)

(** [EncryptionProvider]: [encrypt] may draw random numbers. *)
Record EncryptionProvider (W : Type) := mkProvider {
  encrypt : bytes → PyM W bytes;
  decrypt : bytes → outcome bytes;
}.
Arguments mkProvider {W}. Arguments encrypt {W}. Arguments decrypt {W}.

(** What a client may rely on. *)
Class ProviderSpec {W} (p : EncryptionProvider W) : Prop := {
  encrypt_opens pt w c w' : encrypt p pt w = (Return c, w') → decrypt p c = Return pt;
  encrypt_nonempty pt w c w' : encrypt p pt w = (Return c, w') → c ≠ [];
}.

(** [cryptography.hazmat.primitives.ciphers.aead.AESGCM] without associated data. *)
Class Aead := {
  aead_encrypt : bytes → bytes → bytes → outcome bytes;
  aead_decrypt : bytes → bytes → bytes → outcome bytes;
}.

Definition nonce_ok (nonce : bytes) : Prop := (8 <= length nonce <= 128)%nat.
Definition max_data : Z := 2147483647.

(** The cipher is deterministic in key, nonce and data; a ciphertext has a tag of 16 bytes
    and is accepted exactly when it is the one of its plaintext. *)
Class AeadSpec `{Aead} : Prop := {
  aead_total k n p : nonce_ok n → (Z.of_nat (length p) <= max_data)%Z → ∃ c, aead_encrypt k n p = Return c;
  aead_tagged k n p c : aead_encrypt k n p = Return c → length c = (length p + 16)%nat;
  aead_opens k n p c : aead_encrypt k n p = Return c → aead_decrypt k n c = Return p;
  aead_authentic k n p c : aead_decrypt k n c = Return p → aead_encrypt k n p = Return c;
}.

Section AesGcm.
Context {W : Type} `{Aead} (urandom : nat → PyM W bytes).

Definition NONCE_LEN : nat := 12.

Definition AesGcmEncryptionProvider_encrypt (key plaintext : bytes) : PyM W bytes :=
  nonce ← urandom NONCE_LEN;
  ct ← from_outcome (aead_encrypt key nonce plaintext);
  mret (nonce ++ ct).

Definition AesGcmEncryptionProvider_decrypt (key ciphertext : bytes) : outcome bytes :=
  let nonce := take NONCE_LEN ciphertext in
  let ct := drop NONCE_LEN ciphertext in
  aead_decrypt key nonce ct.

Definition AesGcmEncryptionProvider_init (key : bytes) : outcome (EncryptionProvider W) :=
  if bool_decide (length key ∈ [16; 24; 32]%nat)
  then Return (mkProvider (AesGcmEncryptionProvider_encrypt key) (AesGcmEncryptionProvider_decrypt key))
  else Raise (ValueError "AES key must be 16, 24 or 32 bytes").

Definition AesGcmEncryptionProvider_generate_key : PyM W bytes := urandom 32.

End AesGcm.

(** [Fernet] and [MultiFernet]: the first key encrypts, every key is tried to decrypt. *)
Class Fernet (W F : Type) := {
  fernet : bytes → outcome F;
  fernet_generate_key : PyM W bytes;
  multi_fernet : list F → outcome (list F);
  multi_encrypt : list F → bytes → PyM W bytes;
  multi_decrypt : list F → bytes → outcome bytes;
}.

Class FernetSpec (W F : Type) `{Fernet W F} : Prop := {
  multi_fernet_keys fs m : multi_fernet fs = Return m → m = fs ∧ fs ≠ [];
  multi_fernet_some fs : fs ≠ [] → multi_fernet fs = Return fs;
  multi_first f fs pt w t w' gs : multi_encrypt (f :: fs) pt w = (Return t, w') → f ∈ gs → multi_decrypt gs t = Return pt;
  multi_nonempty fs pt w t w' : multi_encrypt fs pt w = (Return t, w') → t ≠ [];
}.

Section FernetProvider.
Context {W F : Type} `{Fernet W F}.

Inductive fernet_key := KeyBytes (k : bytes) | KeyStr (k : string).

Definition key_bytes (k : fernet_key) : bytes := match k with KeyBytes b => b | KeyStr s => encode s end.

(** The list comprehension of the constructor stops at the first key that is refused. *)
Fixpoint fernet_keys (keys : list fernet_key) : outcome (list F) :=
  match keys with
  | [] => Return []
  | k :: ks =>
      match fernet (key_bytes k) with
      | Raise e => Raise e
      | Return f => match fernet_keys ks with Raise e => Raise e | Return fs => Return (f :: fs) end
      end
  end.

Definition FernetEncryptionProvider_init (keys : list fernet_key) : outcome (EncryptionProvider W) :=
  match fernet_keys keys with
  | Raise e => Raise e
  | Return fs =>
      match multi_fernet fs with
      | Raise e => Raise e
      | Return m => Return (mkProvider (multi_encrypt m) (multi_decrypt m))
      end
  end.

Definition FernetEncryptionProvider_generate_key : PyM W bytes := fernet_generate_key.

End FernetProvider.

(** ** Key rotation ([encryption/key_rotation.py]) *)

(** The mapped objects of one class in a session, and one attribute of them: [session.execute]
    of a select loads them, an assignment stays in the session until [flush]. *)
Class EntitySession (S : Type) := {
  ent_execute : PyM S (list nat);
  ent_get : nat → PyM S (option bytes);
  ent_set : nat → bytes → PyM S unit;
  ent_flush : PyM S unit;
}.

Class EntitySessionSpec (S : Type) `{EntitySession S} := {
  ent_rows : S → list nat;
  ent_attr : S → nat → option bytes;
  ent_column : S → nat → option bytes;
  ent_clean : S → Prop;
  ent_rows_nodup s : NoDup (ent_rows s);
  ent_execute_spec s : ent_clean s → ∃ s', ent_execute s = (Return (ent_rows s), s') ∧ ent_rows s' = ent_rows s ∧
    (∀ r, ent_column s' r = ent_column s r) ∧ (∀ r, r ∈ ent_rows s → ent_attr s' r = ent_column s r);
  ent_get_spec r s : ent_get r s = (Return (ent_attr s r), s);
  ent_set_spec r v s : ∃ s', ent_set r v s = (Return tt, s') ∧ ent_rows s' = ent_rows s ∧
    (∀ q, ent_column s' q = ent_column s q) ∧ ent_attr s' r = Some v ∧ (∀ q, q ≠ r → ent_attr s' q = ent_attr s q);
  ent_flush_spec s :
    match ent_flush s with
    | (Return _, s') => ent_clean s' ∧ ent_rows s' = ent_rows s ∧ (∀ r, r ∈ ent_rows s → ent_column s' r = ent_attr s r)
    | (Raise _, s') => ∀ r, ent_column s' r = ent_column s r
    end;
}.

Section KeyRotation.
Context {W S : Type} `{EntitySession S} (old_provider new_provider : EncryptionProvider W).

Definition KeyRotationService_re_encrypt (ciphertext : bytes) : PyM W bytes :=
  plaintext ← from_outcome (decrypt old_provider ciphertext);
  encrypt new_provider plaintext.

(** [bytes] is true when it is not empty. *)
Definition filled (v : option bytes) : option bytes :=
  match v with Some [] | None => None | Some b => Some b end.

Definition rotate_row (row : nat) (count : Z) : PyM (S * W) Z :=
  old_ct ← on_fst (ent_get row);
  match filled old_ct with
  | None => mret count
  | Some old_ct =>
      new_ct ← on_snd (KeyRotationService_re_encrypt old_ct);
      on_fst (ent_set row new_ct) ;;
      mret (count + 1)%Z
  end.

Fixpoint rotate_rows (rows : list nat) (count : Z) : PyM (S * W) Z :=
  match rows with
  | [] => mret count
  | row :: rows' => count' ← rotate_row row count; rotate_rows rows' count'
  end.

(** [has_field]: the mapped class has the attribute. *)
Definition KeyRotationService_rotate_column (has_field : bool) (field_name : string) : PyM (S * W) Z :=
  (if has_field then mret tt else raise (exn_of ["AttributeError"] ("type object has no attribute " +:+ py_repr field_name))) ;;
  rows ← on_fst ent_execute;
  count ← rotate_rows rows 0;
  on_fst ent_flush ;;
  mret count.

End KeyRotation.

(** ** Certificates ([tls/certificates.py]) *)

Inductive Purpose := SERVER_AUTH | CLIENT_AUTH.
Inductive Protocol := PROTOCOL_TLS_CLIENT | PROTOCOL_TLS_SERVER.
Inductive VerifyMode := CERT_NONE | CERT_OPTIONAL | CERT_REQUIRED.

(** What a peer's certificate is checked against. *)
Inductive trust := TrustFile (cafile : string) | TrustDefault (purpose : Purpose).

Record SSLContext (Chain : Type) := mkContext {
  ctx_protocol : Protocol;
  ctx_verify_mode : VerifyMode;
  ctx_chain : option Chain;
  ctx_trust : list trust;
}.
Arguments mkContext {Chain}. Arguments ctx_protocol {Chain}. Arguments ctx_verify_mode {Chain}.
Arguments ctx_chain {Chain}. Arguments ctx_trust {Chain}.

(** [ssl.SSLContext(protocol)]: a client context verifies its peer, no authority is loaded. *)
Definition new_context {Chain} (p : Protocol) : SSLContext Chain :=
  mkContext p (match p with PROTOCOL_TLS_CLIENT => CERT_REQUIRED | PROTOCOL_TLS_SERVER => CERT_NONE end) None [].

Definition protocol_for (purpose : Purpose) : Protocol :=
  match purpose with SERVER_AUTH => PROTOCOL_TLS_CLIENT | CLIENT_AUTH => PROTOCOL_TLS_SERVER end.

(** The file system: [read_chain] is what [load_cert_chain] makes of a certificate and a
    key file, [read_authorities] whether [load_verify_locations] accepts a file. *)
Section Certificates.
Context {Chain Cert Key : Type}.

Definition files : Type := gmap string bytes.
Context (read_chain : files → string → option string → outcome Chain).
Context (read_authorities : files → string → outcome unit).

Definition load_cert_chain (certfile : string) (keyfile : option string) (ctx : SSLContext Chain)
    : PyM files (SSLContext Chain) :=
  fs ← reads id;
  chain ← from_outcome (read_chain fs certfile keyfile);
  mret (mkContext (ctx_protocol ctx) (ctx_verify_mode ctx) (Some chain) (ctx_trust ctx)).

Definition load_verify_locations (cafile : string) (ctx : SSLContext Chain) : PyM files (SSLContext Chain) :=
  fs ← reads id;
  from_outcome (read_authorities fs cafile) ;;
  mret (mkContext (ctx_protocol ctx) (ctx_verify_mode ctx) (ctx_chain ctx) (ctx_trust ctx ++ [TrustFile cafile])).

Definition load_default_certs (purpose : Purpose) (ctx : SSLContext Chain) : SSLContext Chain :=
  mkContext (ctx_protocol ctx) (ctx_verify_mode ctx) (ctx_chain ctx) (ctx_trust ctx ++ [TrustDefault purpose]).

(** A path argument that is [None] or the empty string counts as absent. *)
Definition given_path (p : option string) : option string :=
  match p with Some "" | None => None | Some p => Some p end.

Definition CertificateLoader_from_pem (certfile : string) (keyfile cafile : option string) (purpose : Purpose)
    : PyM files (SSLContext Chain) :=
  ctx ← load_cert_chain certfile (given_path keyfile) (new_context (protocol_for purpose));
  match given_path cafile with
  | Some cafile => load_verify_locations cafile ctx
  | None => mret (load_default_certs purpose ctx)
  end.

Definition set_verify_mode (m : VerifyMode) (ctx : SSLContext Chain) : SSLContext Chain :=
  mkContext (ctx_protocol ctx) m (ctx_chain ctx) (ctx_trust ctx).

Definition CertificateLoader_create_client_context (certfile keyfile cafile : string)
    : PyM files (SSLContext Chain) :=
  let ctx := set_verify_mode CERT_REQUIRED (new_context PROTOCOL_TLS_CLIENT) in
  ctx ← load_cert_chain certfile (Some keyfile) ctx;
  load_verify_locations cafile ctx.

Definition MtlsHttpxClient_from_pem : string → string → string → PyM files (SSLContext Chain) :=
  CertificateLoader_create_client_context.

Definition read_bytes (path : string) : PyM files bytes := λ fs,
  match fs !! path with
  | Some data => (Return data, fs)
  | None => (Raise (exn_of ["FileNotFoundError"; "OSError"] path), fs)
  end.

(** [load_pkcs12], the PEM encodings and the name of a temporary file are the libraries'. *)
Context (load_pkcs12 : bytes → option bytes → outcome (option Cert * option Key)).
Context (cert_pem : Cert → bytes) (key_pem : Key → outcome bytes) (temp_name : files → string).

Inductive password := PwStr (s : string) | PwBytes (b : bytes).

(** The temporary file exists from the opening of the [with] block on; [finally] removes it. *)
Definition CertificateLoader_from_pkcs12 (pkcs12_path : string) (pw : option password) (purpose : Purpose)
    : PyM files (SSLContext Chain) :=
  data ← read_bytes pkcs12_path;
  let pwd := (λ p, match p with PwStr s => encode s | PwBytes b => b end) <$> pw in
  p12 ← from_outcome (load_pkcs12 data pwd);
  match p12 with
  | (Some cert, Some key) =>
      let ctx := new_context (protocol_for purpose) in
      tmp_path ← reads temp_name;
      updates (insert tmp_path []) ;;
      kp ← from_outcome (key_pem key);
      updates (insert tmp_path (cert_pem cert ++ kp)) ;;
      try_finally (load_cert_chain tmp_path None ctx) (updates (delete tmp_path))
  | _ => raise (ValueError "PKCS12 bundle must contain both a certificate and a private key")
  end.

End Certificates.

(** [delta.days] of a difference in microseconds. *)
Definition day_microseconds : Z := 86400000000.

Definition CertificateExpiryChecker_days_until_expiry (not_valid_after : bytes → outcome Z) (now : Z) (pem_path : string)
    : PyM files Z :=
  pem_data ← read_bytes pem_path;
  expiry ← from_outcome (not_valid_after pem_data);
  mret ((expiry - now) / day_microseconds)%Z.

Definition CertificateExpiryChecker_is_expiring_soon (not_valid_after : bytes → outcome Z) (now : Z) (pem_path : string)
    (threshold_days : Z) : PyM files bool :=
  days ← CertificateExpiryChecker_days_until_expiry not_valid_after now pem_path;
  mret (bool_decide (days < threshold_days)%Z).

(** ** Pinning ([tls/pinning.py]) *)

Definition CertPinningError (fp host : string) : pyexn :=
  exn_of ["CertPinningError"]
    ("Certificate fingerprint " +:+ py_repr fp +:+ " for host " +:+ py_repr host +:+ " does not match pinned values.").

Definition CertificatePinner : Type := list (string * gset string).

Definition normalise (fp : string) : string := str_filter (λ c, negb (Ascii.eqb c ":")) (lower fp).

Definition CertificatePinner_pin (host : string) (expected_fingerprints : list string) (p : CertificatePinner)
    : CertificatePinner :=
  od_set host (default ∅ (od_get host p) ∪ list_to_set (map normalise expected_fingerprints)) p.

Definition fingerprint (cert_der : bytes) : string := lower (hexdigest (sha256 cert_der)).

Definition CertificatePinner_verify (host : string) (cert_der : bytes) (p : CertificatePinner) : outcome bool :=
  match od_get host p with
  | None => Return true
  | Some pins =>
      let fp := fingerprint cert_der in
      if bool_decide (fp ∈ pins) then Return true else Raise (CertPinningError fp host)
  end.

Definition CertificatePinner_pinned_hosts (p : CertificatePinner) : list string := p.*1.

(** ** Lemmas on the rotation of a column *)

Section RotationLemmas.
Context {W S : Type} `{EntitySessionSpec S} (old new : EncryptionProvider W).

(** A value and what a rotation makes of it. *)
Definition rotated_value (v v' : option bytes) : Prop :=
  match filled v with
  | None => v' = v
  | Some c => ∃ pt c', decrypt old c = Return pt ∧ v' = Some c' ∧ decrypt new c' = Return pt ∧ filled v' = Some c'
  end.

Definition filled_rows (col : nat → option bytes) (rows : list nat) : list nat :=
  filter (λ r, is_Some (filled (col r))) rows.

Lemma filled_rows_ext col col' rows :
  (∀ r, r ∈ rows → col r = col' r) → filled_rows col rows = filled_rows col' rows.
Proof.
  intros Hc. unfold filled_rows.
  induction rows as [|r rows IH]; [done|]. rewrite !filter_cons, <- (Hc r) by set_solver.
  rewrite IH by set_solver. done.
Qed.

Context `{!ProviderSpec new}.

Lemma re_encrypt_opens c w c' w' :
  KeyRotationService_re_encrypt old new c w = (Return c', w') →
  ∃ pt, decrypt old c = Return pt ∧ decrypt new c' = Return pt ∧ c' ≠ [].
Proof.
  unfold KeyRotationService_re_encrypt, mbind, PyM_bind, from_outcome.
  destruct (decrypt old c) as [pt|e]; [|done]. intros He. exists pt.
  split_and!; [done | by eapply encrypt_opens | by eapply encrypt_nonempty].
Qed.

Lemma rotate_row_spec r count s w :
  match rotate_row old new r count (s, w) with
  | (o, (s', _)) =>
      ent_rows s' = ent_rows s ∧ (∀ q, ent_column s' q = ent_column s q) ∧ (∀ q, q ≠ r → ent_attr s' q = ent_attr s q) ∧
      match o with
      | Return n => n = (count + Z.of_nat (length (filled_rows (ent_attr s) [r])))%Z ∧ rotated_value (ent_attr s r) (ent_attr s' r)
      | Raise _ => True
      end
  end.
Proof.
  unfold rotate_row, mbind at 1, PyM_bind at 1, on_fst at 1. simpl. rewrite ent_get_spec. simpl.
  unfold filled_rows, rotated_value. rewrite filter_cons, filter_nil.
  destruct (filled (ent_attr s r)) as [c|] eqn:Hf.
  2:{ rewrite decide_False by (intros [? ?]; congruence). simpl. split_and!; auto; lia. }
  rewrite decide_True by eauto. unfold mbind, PyM_bind, on_snd. simpl.
  destruct (KeyRotationService_re_encrypt old new c w) as [[c'|e] w'] eqn:He; [|simpl; auto].
  destruct (re_encrypt_opens _ _ _ _ He) as (pt & Ho & Hn & Hne). unfold on_fst. simpl.
  destruct (ent_set_spec r c' s) as (s' & -> & Hr & Hc & Ha & Hq). simpl. split_and!; auto.
  exists pt, c'. rewrite Ha. split_and!; auto. by destruct c'.
Qed.

Lemma rotate_rows_spec rows : ∀ count s w, NoDup rows →
  match rotate_rows old new rows count (s, w) with
  | (o, (s', _)) =>
      ent_rows s' = ent_rows s ∧ (∀ q, ent_column s' q = ent_column s q) ∧ (∀ q, q ∉ rows → ent_attr s' q = ent_attr s q) ∧
      match o with
      | Return n => n = (count + Z.of_nat (length (filled_rows (ent_attr s) rows)))%Z ∧
                    ∀ r, r ∈ rows → rotated_value (ent_attr s r) (ent_attr s' r)
      | Raise _ => True
      end
  end.
Proof.
  induction rows as [|r rows IH]; intros count s w Hnd.
  { simpl. split_and!; auto; [unfold filled_rows; simpl; lia | set_solver]. }
  apply NoDup_cons in Hnd as [Hr Hnd]. simpl. unfold mbind, PyM_bind.
  pose proof (rotate_row_spec r count s w) as Hrow.
  destruct (rotate_row old new r count (s, w)) as [[n|e] [s1 w1]]; destruct Hrow as (Hrs & Hc & Ha & Ho).
  2:{ split_and!; auto. intros q Hq. apply Ha. set_solver. }
  destruct Ho as [-> Hv]. specialize (IH (count + Z.of_nat (length (filled_rows (ent_attr s) [r])))%Z s1 w1 Hnd).
  destruct (rotate_rows old new rows _ (s1, w1)) as [o [s' w']]. destruct IH as (Hrs' & Hc' & Ha' & Ho').
  assert (Hsame : ∀ q, q ∈ rows → ent_attr s1 q = ent_attr s q) by (intros q Hq; apply Ha; set_solver).
  split_and!; [congruence | by intros q; rewrite Hc' | intros q Hq; rewrite Ha', Ha by set_solver; done |].
  destruct o as [n|e]; [|done]. destruct Ho' as [-> Hrot]. split.
  - rewrite (filled_rows_ext _ _ _ Hsame). change (r :: rows) with ([r] ++ rows). unfold filled_rows.
    rewrite filter_app, length_app. lia.
  - intros q [->|Hq]%elem_of_cons; [by rewrite Ha' | rewrite <- Hsame by done; auto].
Qed.

(** Whether the loop ends depends on the values alone when the new provider never fails. *)
Lemma rotate_rows_total rows : ∀ count s w, NoDup rows →
  (∀ pt w, ∃ c w', encrypt new pt w = (Return c, w')) →
  (∀ r c, r ∈ rows → filled (ent_attr s r) = Some c → ∃ pt, decrypt old c = Return pt) →
  ∃ n t, rotate_rows old new rows count (s, w) = (Return n, t).
Proof.
  induction rows as [|r rows IH]; intros count s w Hnd Hen Hd; [by eexists _, _|].
  apply NoDup_cons in Hnd as [Hr Hnd]. simpl. unfold mbind, PyM_bind.
  pose proof (rotate_row_spec r count s w) as Hrow.
  destruct (rotate_row old new r count (s, w)) as [[n|e] [s1 w1]] eqn:Hrun; destruct Hrow as (_ & _ & Ha & _).
  - apply IH; [done..|]. intros q c Hq. rewrite Ha by set_solver. intros Hf. apply (Hd q); [set_solver | done].
  - exfalso. revert Hrun. unfold rotate_row, KeyRotationService_re_encrypt, mbind, PyM_bind, on_fst, on_snd, from_outcome. simpl.
    rewrite ent_get_spec. simpl. destruct (filled (ent_attr s r)) as [c|] eqn:Hf; [|done].
    destruct (Hd r c) as [pt ->]; [set_solver | done|]. simpl. destruct (Hen pt w) as (c' & w' & ->).
    simpl. destruct (ent_set_spec r c' s) as (s' & -> & _). done.
Qed.

End RotationLemmas.

(** ** Instances *)

(** A cipher that only authenticates, a checksum being its tag. *)
Definition checksum (k n p : bytes) : Z := foldr Z.add 0%Z (k ++ n ++ p).
Definition sealed (k n p : bytes) : bytes := replicate 16 (checksum k n p) ++ p.

#[local] Instance clear_Aead : Aead := {|
  aead_encrypt k n p := if bool_decide (Z.of_nat (length p) <= max_data)%Z then Return (sealed k n p)
    else Raise (exn_of ["OverflowError"; "ArithmeticError"] "Data or associated data too long. Max 2**31 - 1 bytes");
  aead_decrypt k n c := let p := drop 16 c in
    if bool_decide (c = sealed k n p ∧ Z.of_nat (length p) <= max_data)%Z then Return p else Raise (exn_of ["InvalidTag"] "");
|}.

#[local] Instance clear_AeadSpec : AeadSpec.
Proof.
  split; simpl.
  - intros k n p _ Hp. rewrite bool_decide_true by done. eauto.
  - intros k n p c. case_bool_decide; [|done]. intros [= <-]. unfold sealed. rewrite length_app, length_replicate. lia.
  - intros k n p c. case_bool_decide; [|done]. intros [= <-].
    assert (drop 16 (sealed k n p) = p) as -> by (unfold sealed; by rewrite drop_app_length' by (by rewrite length_replicate)).
    by rewrite bool_decide_true.
  - intros k n p c. case_bool_decide as Hc; [|done]. intros [= <-]. destruct Hc as [Hc Hl].
    rewrite bool_decide_true by done. by rewrite <- Hc.
Qed.

(** Tokens that carry the key they were made with. *)
#[local] Instance clear_Fernet : Fernet unit bytes := {|
  fernet k := if bool_decide (length k = 44)%nat then Return k else Raise (ValueError "Fernet key must be 32 url-safe base64-encoded bytes.");
  fernet_generate_key := mret (replicate 44 65%Z);
  multi_fernet fs := match fs with [] => Raise (ValueError "MultiFernet requires at least one Fernet instance") | _ => Return fs end;
  multi_encrypt fs pt := match fs with [] => raise (ValueError "") | f :: _ => mret (Z.of_nat (length f) :: f ++ pt) end;
  multi_decrypt gs t := match t with
    | n :: t' => if bool_decide (take (Z.to_nat n) t' ∈ gs) then Return (drop (Z.to_nat n) t') else Raise (exn_of ["InvalidToken"] "")
    | [] => Raise (exn_of ["InvalidToken"] "")
    end;
|}.

#[local] Instance clear_FernetSpec : FernetSpec unit bytes.
Proof.
  split; simpl.
  - by intros [|f fs] m [= <-].
  - by intros [|f fs].
  - intros f fs pt w t w' gs [= <- _] Hf. rewrite Nat2Z.id, take_app_length, drop_app_length. by rewrite bool_decide_true.
  - intros [|f fs] pt w t w' He; [done|]. by injection He as <- _.
Qed.

(** A session over a column kept as a list: the attributes in memory and the rows. *)
Definition Column : Type := list (option bytes) * list (option bytes).

#[local] Instance list_EntitySession : EntitySession Column := {|
  ent_execute := λ s, (Return (seq 0 (length s.2)), (s.2, s.2));
  ent_get r := reads (λ s : Column, default None (s.1 !! r));
  ent_set r v := updates (λ s : Column, (alter (λ _, Some v) r (s.1 ++ replicate (S r - length s.1) None), s.2));
  ent_flush := updates (λ s : Column, (s.1, map (λ r, default None (s.1 !! r)) (seq 0 (length s.2))));
|}.

Lemma column_flushed (s : Column) r : r ∈ seq 0 (length s.2) →
  map (λ r, default None (s.1 !! r)) (seq 0 (length s.2)) !! r = Some (default None (s.1 !! r)).
Proof.
  intros Hr%elem_of_seq. rewrite list_lookup_fmap, lookup_seq_lt by lia. done.
Qed.

#[local] Instance list_EntitySessionSpec : EntitySessionSpec Column.
Proof.
  refine {|
    ent_rows s := seq 0 (length s.2);
    ent_attr s r := default None (s.1 !! r);
    ent_column s r := default None (s.2 !! r);
    ent_clean _ := True;
  |}.
  - intros s. apply NoDup_seq.
  - intros s _. by eexists.
  - done.
  - intros r v s. eexists. split; [done|]. simpl. split_and!; try done.
    + rewrite list_lookup_alter_eq.
      destruct (lookup_lt_is_Some_2 (s.1 ++ replicate (S r - length s.1) None) r) as [x ->]; [|done].
      rewrite length_app, length_replicate. lia.
    + intros q Hq. rewrite list_lookup_alter_ne by done. destruct (decide (q < length s.1)%nat).
      * by rewrite lookup_app_l.
      * rewrite lookup_app_r by lia. rewrite (lookup_ge_None_2 s.1 q) by lia.
        destruct (replicate _ None !! _) eqn:E; [|done]. by apply lookup_replicate in E as [-> _].
  - intros s. simpl. rewrite length_map, length_seq. split_and!; auto. intros r Hr. by rewrite column_flushed.
Defined.

(** ** Theorems *)

Section AesTheorems.
Context {W : Type} `{AeadSpec} (urandom : nat → PyM W bytes).
Hypothesis urandom_length : ∀ n w bs w', urandom n w = (Return bs, w') → length bs = n.

Lemma aes_split (key n ct : bytes) : length n = NONCE_LEN →
  AesGcmEncryptionProvider_decrypt key (n ++ ct) = aead_decrypt key n ct.
Proof. intros Hn. unfold AesGcmEncryptionProvider_decrypt. by rewrite take_app_length', drop_app_length'. Qed.

Lemma aes_encrypted key pt w c w' :
  AesGcmEncryptionProvider_encrypt urandom key pt w = (Return c, w') →
  ∃ n ct, c = n ++ ct ∧ length n = NONCE_LEN ∧ aead_encrypt key n pt = Return ct.
Proof.
  unfold AesGcmEncryptionProvider_encrypt, mbind, PyM_bind, from_outcome.
  destruct (urandom NONCE_LEN w) as [[n|e] w1] eqn:Hu; [|done]. pose proof (urandom_length _ _ _ _ Hu).
  destruct (aead_encrypt key n pt) as [ct|e] eqn:He; [|done]. intros [= <- <-]. eauto.
Qed.

Lemma aes_ProviderSpec key p :
  AesGcmEncryptionProvider_init urandom key = Return p → ProviderSpec p.
Proof.
  unfold AesGcmEncryptionProvider_init. case_bool_decide; [|done]. intros [= <-].
  split; simpl; intros pt w c w' (n & ct & -> & Hn & He)%aes_encrypted.
  - rewrite aes_split by done. by apply aead_opens.
  - intros [-> _]%app_eq_nil. done.
Qed.

(** An AES key of 16, 24 or 32 bytes makes a provider and any other is a ValueError.  Every
    plaintext of up to 2{^31}-1 bytes is encrypted, to 28 bytes more, and decrypts to
    itself; and only a nonce followed by the ciphertext of a plaintext decrypts to it. *)
Theorem aes_exact key :
  (∀ n w, ∃ bs w', urandom n w = (Return bs, w')) →
  match AesGcmEncryptionProvider_init urandom key with
  | Raise e => (length key ∉ [16; 24; 32]%nat) ∧ isinstance e "ValueError" = true
  | Return p =>
      length key ∈ [16; 24; 32]%nat ∧
      (∀ pt w, (Z.of_nat (length pt) <= max_data)%Z →
         ∃ c w', encrypt p pt w = (Return c, w') ∧ length c = (length pt + 28)%nat ∧ decrypt p c = Return pt) ∧
      (∀ c pt, decrypt p c = Return pt → aead_encrypt key (take 12 c) pt = Return (drop 12 c))
  end.
Proof.
  intros Hu. destruct (AesGcmEncryptionProvider_init urandom key) as [p|e] eqn:Hi.
  2:{ revert Hi. unfold AesGcmEncryptionProvider_init. case_bool_decide; [done|]. by intros [= <-]. }
  pose proof (aes_ProviderSpec _ _ Hi). revert Hi. unfold AesGcmEncryptionProvider_init.
  case_bool_decide as Hk; [|done]. intros [= <-]. split_and!; [done| |].
  - intros pt w Hp. destruct (Hu NONCE_LEN w) as (n & w' & Hn). pose proof (urandom_length _ _ _ _ Hn) as Hl.
    destruct (aead_total key n pt) as [ct Hct]; [unfold nonce_ok, NONCE_LEN in *; lia | done|].
    assert (He : AesGcmEncryptionProvider_encrypt urandom key pt w = (Return (n ++ ct), w'))
      by (unfold AesGcmEncryptionProvider_encrypt, mbind, PyM_bind, from_outcome; by rewrite Hn, Hct).
    exists (n ++ ct), w'. split_and!; [done| |by eapply encrypt_opens].
    rewrite length_app, (aead_tagged _ _ _ _ Hct), Hl. unfold NONCE_LEN. lia.
  - simpl. intros c pt. apply aead_authentic.
Qed.

End AesTheorems.

Section RotationTheorems.
Context {W S : Type} `{EntitySessionSpec S}.

(** Rotating an encrypted column.  When it returns, the number is that of the rows with a
    value, every such row holds, also in the database, a ciphertext of the new provider for
    the plaintext the old one gave, and rows without a value are as before; when it raises,
    nothing of it is in the database.  With a new provider and a database that do not fail
    it returns exactly when the old provider decrypts every value, so a second run over rotated values
    the old provider rejects raises and changes nothing. *)
Theorem column_rotation (old new : EncryptionProvider W) `{!ProviderSpec new} s w name :
  ent_clean s →
  match KeyRotationService_rotate_column old new true name (s, w) with
  | (Return n, (s', _)) =>
      n = Z.of_nat (length (filled_rows (ent_column s) (ent_rows s))) ∧ ent_clean s' ∧ ent_rows s' = ent_rows s ∧
      (∀ r, r ∈ ent_rows s → rotated_value old new (ent_column s r) (ent_column s' r))
  | (Raise _, (s', _)) => ∀ r, ent_column s' r = ent_column s r
  end ∧
  ((∀ pt w, ∃ c w', encrypt new pt w = (Return c, w')) → (∀ s, ∃ s', ent_flush s = (Return tt, s')) →
   ((∃ n t, KeyRotationService_rotate_column old new true name (s, w) = (Return n, t)) ↔
    (∀ r c, r ∈ ent_rows s → filled (ent_column s r) = Some c → ∃ pt, decrypt old c = Return pt))).
Proof.
  intros Hcl. unfold KeyRotationService_rotate_column, mbind, PyM_bind, on_fst. simpl.
  destruct (ent_execute_spec s Hcl) as (s1 & -> & Hr1 & Hc1 & Ha1). simpl.
  pose proof (rotate_rows_spec old new (ent_rows s) 0 s1 w (ent_rows_nodup s)) as Hrun.
  pose proof (rotate_rows_total old new (ent_rows s) 0 s1 w (ent_rows_nodup s)) as Htot.
  destruct (rotate_rows old new (ent_rows s) 0 (s1, w)) as [[n|e] [s2 w2]]; destruct Hrun as (Hr2 & Hc2 & _ & Ho).
  2:{ split; [intros r; by rewrite Hc2|]. intros Hen _. split; [by intros (? & ? & ?)|]. intros Hd.
      destruct Htot as (? & ? & ?); [done| |done]. intros r c Hr. rewrite Ha1 by done. by apply Hd. }
  destruct Ho as [-> Hrot]. simpl. pose proof (ent_flush_spec s2) as Hf.
  assert (Hdec : ∀ r c, r ∈ ent_rows s → filled (ent_column s r) = Some c → ∃ pt, decrypt old c = Return pt).
  { intros r c Hr Hc. specialize (Hrot r Hr). unfold rotated_value in Hrot. rewrite Ha1, Hc in Hrot by done.
    destruct Hrot as (pt & _ & Hpt & _). eauto. }
  split.
  - destruct (ent_flush s2) as [[[]|e] s3]; [|by intros r; rewrite Hf, Hc2]. destruct Hf as (Hcl' & Hr3 & Hcol).
    split_and!; [|done|congruence|].
    + by rewrite (filled_rows_ext (ent_attr s1) (ent_column s)).
    + intros r Hr. rewrite Hcol by (by rewrite Hr2, Hr1). rewrite <- Ha1 by done. auto.
  - intros _ Hfl. destruct (Hfl s2) as [s3 ->]. split; [auto | by eexists _, _].
Qed.

End RotationTheorems.

Section FernetTheorems.
Context {W F S : Type} `{FernetSpec W F} `{EntitySessionSpec S}.

Lemma fernet_keys_length ks fs : fernet_keys ks = Return fs → length fs = length ks.
Proof.
  revert fs. induction ks as [|k ks IH]; simpl; intros fs; [by intros [= <-]|].
  destruct (fernet _); [|done]. destruct (fernet_keys ks); [|done]. intros [= <-]. simpl. f_equal. auto.
Qed.

Lemma fernet_made ks p : FernetEncryptionProvider_init ks = Return p →
  ∃ fs, fernet_keys ks = Return fs ∧ fs ≠ [] ∧ p = mkProvider (multi_encrypt fs) (multi_decrypt fs).
Proof.
  unfold FernetEncryptionProvider_init. destruct (fernet_keys ks) as [fs|] eqn:Hk; [|done].
  destruct (multi_fernet fs) as [m|] eqn:Hm; [|done]. intros [= <-].
  apply multi_fernet_keys in Hm as [-> Hne]. eauto.
Qed.

(** Rolling to a new Fernet key.  Where the old keys make a provider and the new key is
    accepted, putting the new key first makes one too, and it reads every old token; after
    rotating a column from the old provider to it, the new key alone reads every value as the old provider did,
    so the old keys can be dropped. *)
Theorem fernet_key_roll k ks po ps s w name n s' w' :
  FernetEncryptionProvider_init ks = Return po → FernetEncryptionProvider_init [k] = Return ps →
  ∃ pn, FernetEncryptionProvider_init (k :: ks) = Return pn ∧
    (∀ pt w t w', encrypt po pt w = (Return t, w') → decrypt pn t = Return pt) ∧
    (ent_clean s → KeyRotationService_rotate_column po pn true name (s, w) = (Return n, (s', w')) →
     ∀ r, r ∈ ent_rows s → rotated_value po ps (ent_column s r) (ent_column s' r)).
Proof.
  intros (fs & Hfs & Hne & ->)%fernet_made Hps. pose proof (fernet_made _ _ Hps) as (gs & Hgs & _ & ->).
  simpl in Hgs. destruct (fernet (key_bytes k)) as [f|] eqn:Hf; [|done]. injection Hgs as <-.
  exists (mkProvider (multi_encrypt (f :: fs)) (multi_decrypt (f :: fs))). split_and!.
  - unfold FernetEncryptionProvider_init. simpl. rewrite Hf, Hfs. by rewrite multi_fernet_some.
  - simpl. intros pt u t u' He. destruct fs as [|g fs]; [done|]. eapply multi_first; [done | set_solver].
  - intros Hcl Hrot. set (po := mkProvider (multi_encrypt fs) (multi_decrypt fs)) in *.
    set (reader := mkProvider (multi_encrypt (f :: fs)) (multi_decrypt [f])).
    assert (Hspec : ProviderSpec reader).
    { split; simpl; intros pt u c u' He; [eapply multi_first; [done | set_solver] | by eapply multi_nonempty]. }
    destruct (column_rotation po reader s w name Hcl) as [Hc _].
    change (KeyRotationService_rotate_column po reader true name (s, w)) with
      (KeyRotationService_rotate_column po (mkProvider (multi_encrypt (f :: fs)) (multi_decrypt (f :: fs))) true name (s, w)) in Hc.
    rewrite Hrot in Hc. destruct Hc as (_ & _ & _ & Hv). exact Hv.
Qed.

End FernetTheorems.

(** ** Certificates *)

(** A certificate is expiring soon exactly when less than the threshold is left of it, and
    the number of days is negative exactly when it has expired; a missing file raises. *)
Theorem expiry_exact not_after now path data expiry threshold (fs : files) :
  fs !! path = Some data → not_after data = Return expiry →
  CertificateExpiryChecker_is_expiring_soon not_after now path threshold fs =
    (Return (bool_decide (expiry - now < threshold * day_microseconds)%Z), fs) ∧
  ∃ days, CertificateExpiryChecker_days_until_expiry not_after now path fs = (Return days, fs) ∧
    ((days < 0)%Z ↔ (expiry < now)%Z).
Proof.
  intros Hd He.
  unfold CertificateExpiryChecker_is_expiring_soon, CertificateExpiryChecker_days_until_expiry, read_bytes, mbind, PyM_bind, from_outcome.
  rewrite Hd. simpl. rewrite He. simpl.
  pose proof (Z.mul_div_le (expiry - now) day_microseconds). pose proof (Z.mul_succ_div_gt (expiry - now) day_microseconds).
  unfold day_microseconds in *. split.
  - unfold mret, PyM_ret. do 2 f_equal. apply bool_decide_ext. lia.
  - eexists. split; [done|]. lia.
Qed.

(** A context made from a PKCS#12 bundle: whether or not loading succeeds, the private key is no longer
    on disk, unless its encoding failed, which leaves an empty file.  The context trusts
    no certificate authority, although a client context made so requires a verified peer. *)
Theorem pkcs12_context {Chain Cert Key : Type} (read_chain : files → string → option string → outcome Chain)
    (load_pkcs12 : bytes → option bytes → outcome (option Cert * option Key)) cert_pem key_pem temp_name path pw purpose (fs : files) :
  fs !! temp_name fs = None →
  match CertificateLoader_from_pkcs12 read_chain load_pkcs12 cert_pem key_pem temp_name path pw purpose fs with
  | (Return ctx, fs') => fs' = fs ∧ is_Some (ctx_chain ctx) ∧ ctx_trust ctx = [] ∧
      (purpose = SERVER_AUTH → ctx_verify_mode ctx = CERT_REQUIRED)
  | (Raise _, fs') => fs' = fs ∨ (fs' = <[temp_name fs := []]> fs ∧ ∃ k e, key_pem k = Raise e)
  end.
Proof.
  intros Hfresh. unfold CertificateLoader_from_pkcs12, mbind, PyM_bind, read_bytes, from_outcome, reads, updates, raise.
  destruct (fs !! path) as [data|]; [|auto]. destruct (load_pkcs12 data _) as [[[cert|] [key|]]|]; auto.
  destruct (key_pem key) as [kp|e] eqn:Hk; [|right; eauto].
  unfold try_finally, load_cert_chain, mbind, PyM_bind, reads, from_outcome. simpl.
  destruct (read_chain _ _ _) as [chain|e]; simpl; unfold files in *; rewrite insert_insert_eq, delete_insert_id by done; [|auto].
  split_and!; [done | by eexists | done | by intros ->].
Qed.

(** ** Pinning *)

Definition pin_all (pins : list (string * list string)) : CertificatePinner :=
  fold_left (λ p hf, CertificatePinner_pin (fst hf) (snd hf) p) pins [].

Lemma pinned_set pins h :
  match od_get h (pin_all pins) with
  | None => ∀ fps, (h, fps) ∉ pins
  | Some set => (∃ fps, (h, fps) ∈ pins) ∧ ∀ fp, fp ∈ set ↔ ∃ fps x, (h, fps) ∈ pins ∧ x ∈ fps ∧ normalise x = fp
  end.
Proof.
  induction pins as [|[g fps] pins IH] using rev_ind; [simpl; set_solver|].
  assert (pin_all (pins ++ [(g, fps)]) = CertificatePinner_pin g fps (pin_all pins)) as ->
    by (unfold pin_all; by rewrite fold_left_app).
  set (p := pin_all pins) in *. unfold CertificatePinner_pin.
  assert (Hin : ∀ f, (h, f) ∈ pins ++ [(g, fps)] ↔ (h, f) ∈ pins ∨ (g = h ∧ f = fps)).
  { intros f. rewrite elem_of_app, list_elem_of_singleton. split; [intros [?|[= <- <-]]; auto | intros [?|[-> ->]]; auto]. }
  destruct (decide (g = h)) as [->|Hne].
  - rewrite od_get_set_eq. setoid_rewrite Hin. split; [eauto|]. intros fp. rewrite elem_of_union, elem_of_list_to_set, list_elem_of_fmap.
    assert (Hold : fp ∈ default ∅ (od_get h p) ↔ ∃ f x, (h, f) ∈ pins ∧ x ∈ f ∧ normalise x = fp).
    { destruct (od_get h p) as [set|]; simpl; [by destruct IH as [_ IH] | clear -IH; set_solver]. }
    rewrite Hold. clear. split.
    + intros [(f & x & ? & ? & ?)|(x & -> & ?)]; [exists f, x; auto | exists fps, x; auto].
    + intros (f & x & [?|[_ ->]] & ? & <-); [left; by exists f, x | right; by exists x].
  - rewrite od_get_set_ne by done. destruct (od_get h p) as [set|]; setoid_rewrite Hin.
    + destruct IH as [[f Hf] IH]. split; [eauto|]. intros fp. rewrite IH. clear -Hne. split.
      * intros (f & x & ? & ?); exists f, x; auto.
      * intros (f & x & [?|[? _]] & ?); [by exists f, x | done].
    + intros f [Hf|[? _]]; [by destruct (IH f) | done].
Qed.

(** After any calls of [pin], a certificate passes for a host exactly when the host was never
    pinned, or its SHA-256 fingerprint is one given for the host in any of the calls, in either case of
    letters and with or without colons; otherwise CertPinningError is raised.  A host pinned
    with an empty list accepts nothing. *)
Theorem pinning_exact pins host der :
  (CertificatePinner_verify host der (pin_all pins) = Return true ↔
     (∀ fps, (host, fps) ∉ pins) ∨ ∃ fps x, (host, fps) ∈ pins ∧ x ∈ fps ∧ normalise x = fingerprint der) ∧
  (CertificatePinner_verify host der (pin_all pins) = Return true ∨
   CertificatePinner_verify host der (pin_all pins) = Raise (CertPinningError (fingerprint der) host)).
Proof.
  unfold CertificatePinner_verify. pose proof (pinned_set pins host) as Hs.
  destruct (od_get host (pin_all pins)) as [set|]; [|naive_solver].
  destruct Hs as [[fps0 Hf] Hs]. case_bool_decide as Hin; rewrite Hs in Hin; (split; [|auto]).
  - split; auto.
  - split; [done|]. intros [Hno|Hx]; [by destruct (Hno fps0) | done].
Qed.

(** ** Witnesses *)

Definition counting_urandom (n : nat) : PyM Z bytes := λ w, (Return (replicate n w), (w + 1)%Z).
Definition aes_key : bytes := replicate 16 7%Z.
Definition demo_aes : EncryptionProvider Z :=
  mkProvider (AesGcmEncryptionProvider_encrypt counting_urandom aes_key) (AesGcmEncryptionProvider_decrypt aes_key).
Definition demo_old : EncryptionProvider Z := mkProvider (λ p, mret (0%Z :: p)) (λ c, match c with (0%Z :: p) => Return p | _ => Raise (exn_of ["InvalidTag"] "") end).
Definition demo_column : Column := ([], [Some [0; 65]%Z; None; Some []; Some [0; 66; 67]%Z]).

Lemma counting_urandom_length n w bs w' : counting_urandom n w = (Return bs, w') → length bs = n.
Proof. intros [= <- _]. apply length_replicate. Qed.

Lemma aes_exact_witness : ∃ c, encrypt demo_aes [1; 2; 3]%Z 5%Z = (Return c, 6%Z) ∧ length c = 31%nat ∧ decrypt demo_aes c = Return [1; 2; 3]%Z.
Proof.
  destruct (aes_exact counting_urandom counting_urandom_length aes_key) as (_ & He & _); [intros n w; by eexists _, _|].
  destruct (He [1; 2; 3]%Z 5%Z) as (c & w' & Hc & Hl & Hd); [done|]. exists c. split_and!; [|done|done].
  change (encrypt demo_aes [1; 2; 3]%Z 5%Z = (Return c, w')) in Hc. rewrite Hc. f_equal. vm_compute in Hc. by injection Hc.
Defined.

Lemma column_rotation_witness :
  ∃ n t, KeyRotationService_rotate_column demo_old demo_aes true "ssn" (demo_column, 5%Z) = (Return n, t) ∧ n = 2%Z.
Proof.
  assert (HP : ProviderSpec demo_aes) by (apply (aes_ProviderSpec counting_urandom counting_urandom_length aes_key); done).
  pose proof (column_rotation demo_old demo_aes demo_column 5%Z "ssn" I) as [Hr _].
  destruct (KeyRotationService_rotate_column _ _ _ _ _) as [[n|e] [s' w']] eqn:Hrun.
  - exists n, (s', w'). split; [done|]. destruct Hr as [-> _]. done.
  - vm_compute in Hrun. done.
Defined.

Definition demo_fernet (k : Z) : EncryptionProvider unit := mkProvider (multi_encrypt [replicate 44 k]) (multi_decrypt [replicate 44 k]).
Definition fernet_column : Column :=
  ([], [Some (44%Z :: replicate 44 1%Z ++ [9; 9]%Z); None]).

Lemma fernet_key_roll_witness :
  ∃ s', rotated_value (demo_fernet 1) (demo_fernet 2) (ent_column fernet_column 0%nat) (ent_column s' 0%nat).
Proof.
  destruct (fernet_key_roll (KeyBytes (replicate 44 2%Z)) [KeyBytes (replicate 44 1%Z)] (demo_fernet 1) (demo_fernet 2)
    fernet_column tt "ssn" 1%Z ([Some (44%Z :: replicate 44 2%Z ++ [9; 9]%Z); None], [Some (44%Z :: replicate 44 2%Z ++ [9; 9]%Z); None]) tt)
    as (pn & Hpn & _ & Hr); [reflexivity | reflexivity |].
  eexists. apply Hr; [exact I | | by vm_compute; left]. vm_compute in Hpn. injection Hpn as <-. vm_compute. reflexivity.
Defined.

Lemma expiry_exact_witness :
  CertificateExpiryChecker_is_expiring_soon (λ _, Return (30 * day_microseconds)%Z) 1 "c.pem" 30 {[ "c.pem" := [] ]} = (Return true, {[ "c.pem" := [] ]}).
Proof.
  destruct (expiry_exact (λ _, Return (30 * day_microseconds)%Z) 1 "c.pem" [] (30 * day_microseconds) 30 {[ "c.pem" := [] ]}) as [H _];
    [reflexivity | reflexivity | exact H].
Defined.

Lemma pkcs12_context_witness :
  ∃ ctx, CertificateLoader_from_pkcs12 (λ fs cert _, match fs !! cert with Some c => Return c | None => Raise (ValueError "") end)
    (λ data _, Return (Some data, Some data)) id Return (λ _, "tmp.pem") "b.p12" None SERVER_AUTH {[ "b.p12" := [1%Z] ]}
    = (Return ctx, {[ "b.p12" := [1%Z] ]}) ∧ ctx_trust ctx = [].
Proof.
  pose proof (pkcs12_context (λ fs cert _, match fs !! cert with Some c => Return c | None => Raise (ValueError "") end)
    (λ data _, Return (Some data, Some data)) id Return (λ _, "tmp.pem") "b.p12" None SERVER_AUTH {[ "b.p12" := [1%Z] ]} eq_refl) as H.
  destruct (CertificateLoader_from_pkcs12 _ _ _ _ _ _ _ _ _) as [[ctx|e] fs'] eqn:E.
  - destruct H as (-> & _ & Ht & _). eauto.
  - vm_compute in E. done.
Defined.
