(* ===== verification/ConfigSources.v ===== *)
(** * Sources of dynamic configuration

    [config/dynamic/source.py]: [FileConfigSource] and [ConsulConfigSource] with their
    watch loops; the environment source and the registry that reads sources are in
    [Maintenance].  Files, the parsers of YAML, TOML and JSON, the HTTP client and the
    callback are parameters.  A watch loop never returns: it is run for a number of rounds,
    and the theorems hold for every number. *)
From S2P Require Import Prelude PyString OrderedDict PyValue ValueObjects Sha256 Credentials Graphql Maintenance Mail.

(** ** Files *)

(** [PurePath.name] and [PurePath.suffix]. *)
Definition path_name (path : string) : string :=
  default "" (last (List.filter (λ p, negb (String.eqb p "")) (split_on "/" path))).

Definition path_suffix (path : string) : string :=
  match split_on "." (path_name path) with
  | [] | [_] | [""; _] => ""
  | pieces => match default "" (last pieces) with "" => "" | ext => "." +:+ ext end
  end.

Section FileSource.
Context {W : Type} (read_text : string → PyM W string) (st_mtime : string → PyM W Q).
Context (yaml_safe_load toml_loads json_loads : string → outcome pyval) (sleep : Q → PyM W unit).

Record FileConfigSource := mkFileSource { fc_path : string; fc_poll_interval : Q; fc_last_mtime : Q }.

Definition FileConfigSource_init (path : string) (poll_interval_sec : Q) : FileConfigSource :=
  mkFileSource path poll_interval_sec 0.

(** The parser a suffix selects. *)
Definition parse_config (suffix content : string) : outcome pyval :=
  if str_in suffix [".yaml"; ".yml"] then
    match yaml_safe_load content with
    | Return v => Return (if truthy v then v else VDict [])
    | Raise e => Raise e
    end
  else if String.eqb suffix ".toml" then toml_loads content
  else if String.eqb suffix ".json" then json_loads content
  else Raise (ValueError ("Unsupported config file format: " +:+ suffix)).

Definition FileConfigSource_load : PyM (FileConfigSource * W) pyval :=
  src ← on_fst (reads id);
  let suffix := lower (path_suffix (fc_path src)) in
  content ← on_snd (read_text (fc_path src));
  from_outcome (parse_config suffix content).

Definition set_mtime (m : Q) (src : FileConfigSource) : FileConfigSource :=
  mkFileSource (fc_path src) (fc_poll_interval src) m.

(** One round of the polling loop; [watch] repeats it. *)
Definition poll_round (callback : pyval → PyM W unit) : PyM (FileConfigSource * W) unit :=
  src ← on_fst (reads id);
  mtime ← on_snd (st_mtime (fc_path src));
  (if Qeq_bool mtime (fc_last_mtime src) then mret tt
   else
     on_fst (updates (set_mtime mtime)) ;;
     data ← FileConfigSource_load;
     on_snd (callback data)) ;;
  on_snd (sleep (fc_poll_interval src)).

Fixpoint FileConfigSource_watch (rounds : nat) (callback : pyval → PyM W unit) : PyM (FileConfigSource * W) unit :=
  match rounds with
  | O => mret tt
  | S n => poll_round callback ;; FileConfigSource_watch n callback
  end.

End FileSource.

(** ** Consul *)

(** [base64.b64decode] discards the characters outside the standard alphabet. *)
Definition b64decode (s : string) : outcome (list Z) :=
  urlsafe_b64decode (str_filter (λ c, negb (Ascii.eqb c "-" || Ascii.eqb c "_")) s).

Definition removeprefix (p s : string) : string :=
  if startswith p s then String.substring (String.length p) (String.length s - String.length p) s else s.

Record KvItem := mkKv { kv_key : string; kv_value : option string }.

Section Consul.
Context {W R : Type} (client_get : string → list (string * string) → PyM W R).
Context (status_code : R → Z) (raise_for_status : R → outcome unit) (resp_json : R → outcome (list KvItem)).
Context (index_header : R → option string).
Context (json_loads : string → outcome pyval) (utf8_decode : list Z → outcome string).

Record ConsulConfigSource := mkConsul {
  cs_base_url : string;
  cs_key_prefix : string;
  cs_headers : list (string * string);
  cs_index : Z;
}.

Definition ConsulConfigSource_init (base_url key_prefix : string) (token : option string) : ConsulConfigSource :=
  mkConsul (rstrip_by (λ c, Ascii.eqb c "/") base_url) key_prefix
    (match token with Some "" | None => [] | Some t => [("X-Consul-Token", t)] end) 0.

(** An item without a value has [null] in the response of the server. *)
Definition kv_text (value : option string) : outcome string :=
  match value with
  | None => Raise (TypeError "argument should be a bytes-like object or ASCII string, not 'NoneType'")
  | Some v => match b64decode v with Raise e => Raise e | Return bs => utf8_decode bs end
  end.

(** [try: json.loads(raw) except Exception: raw]. *)
Definition json_or_text (raw : string) : outcome pyval :=
  match json_loads raw with
  | Return v => Return v
  | Raise e => if is_Exception e then Return (VStr raw) else Raise e
  end.

Fixpoint consul_items (prefix : string) (items : list KvItem) (result : list (string * pyval)) : outcome (list (string * pyval)) :=
  match items with
  | [] => Return result
  | item :: items' =>
      match kv_text (kv_value item) with
      | Raise e => Raise e
      | Return raw =>
          match json_or_text raw with
          | Raise e => Raise e
          | Return v => consul_items prefix items' (od_set (removeprefix prefix (kv_key item)) v result)
          end
      end
  end.

Definition kv_url (src : ConsulConfigSource) (query : string) : string :=
  cs_base_url src +:+ "/v1/kv/" +:+ cs_key_prefix src +:+ query.

Definition ConsulConfigSource_load : PyM (ConsulConfigSource * W) (list (string * pyval)) :=
  src ← on_fst (reads id);
  resp ← on_snd (client_get (kv_url src "?recurse") (cs_headers src));
  if Z.eqb (status_code resp) 404 then mret []
  else
    from_outcome (raise_for_status resp) ;;
    items ← from_outcome (resp_json resp);
    from_outcome (consul_items (cs_key_prefix src) items []).

Definition set_index (i : Z) (src : ConsulConfigSource) : ConsulConfigSource :=
  mkConsul (cs_base_url src) (cs_key_prefix src) (cs_headers src) i.

Definition consul_round (callback : list (string * pyval) → PyM W unit) : PyM (ConsulConfigSource * W) unit :=
  src ← on_fst (reads id);
  resp ← on_snd (client_get (kv_url src "?recurse&wait=10s&index=" +:+ str_of_int (cs_index src)) (cs_headers src));
  new_index ← from_outcome (match index_header resp with Some h => py_int h | None => Return (cs_index src) end);
  if Z.eqb new_index (cs_index src) then mret tt
  else
    on_fst (updates (set_index new_index)) ;;
    data ← ConsulConfigSource_load;
    on_snd (callback data).

Fixpoint ConsulConfigSource_watch (rounds : nat) (callback : list (string * pyval) → PyM W unit)
    : PyM (ConsulConfigSource * W) unit :=
  match rounds with
  | O => mret tt
  | S n => consul_round callback ;; ConsulConfigSource_watch n callback
  end.

End Consul.

(** ** Lemmas and theorems on files *)

(** A directory with one file that another program writes: the versions the file will have,
    one per round of the loop, each a modification time and a content; and the data
    handed to the callback. *)
Definition versions : Type := list (Q * string) * list pyval.

Definition current (w : versions) : Q * string := default (0, "") (head w.1).
Definition file_text (_ : string) : PyM versions string := reads (λ w, (current w).2).
Definition file_mtime (_ : string) : PyM versions Q := reads (λ w, (current w).1).
Definition next_version (_ : Q) : PyM versions unit := updates (λ w, (tail w.1, w.2)).
Definition collect_data (v : pyval) : PyM versions unit := updates (λ w, (w.1, w.2 ++ [v])).

(** The versions whose time differs from that of the version before. *)
Fixpoint changes (last : Q) (vs : list (Q * string)) : list (Q * string) :=
  match vs with
  | [] => []
  | (m, c) :: vs' => (if Qeq_bool m last then [] else [(m, c)]) ++ changes m vs'
  end.

Section FileTheorems.
Context (yaml toml json : string → outcome pyval).

#[local] Abbreviation watch := (FileConfigSource_watch file_text file_mtime yaml toml json next_version).
#[local] Abbreviation parse path := (parse_config yaml toml json (lower (path_suffix path))).

(** Equal times compare equal, whichever of them is kept. *)
Lemma changes_Qeq vs : ∀ l l', l == l' → changes l vs = changes l' vs.
Proof.
  destruct vs as [|[m c] vs]; [done|]. simpl. intros l l' Hl. f_equal.
  assert (Qeq_bool m l = Qeq_bool m l') as -> by (apply eq_iff_eq_true; rewrite !Qeq_bool_iff, Hl; done). done.
Qed.

Lemma poll_step path i l m c vs got :
  poll_round file_text file_mtime yaml toml json next_version collect_data (mkFileSource path i l, ((m, c) :: vs, got)) =
  (if Qeq_bool m l then (Return tt, (mkFileSource path i l, (vs, got)))
   else match parse path c with
        | Return v => (Return tt, (mkFileSource path i m, (vs, got ++ [v])))
        | Raise e => (Raise e, (mkFileSource path i m, ((m, c) :: vs, got)))
        end).
Proof.
  unfold poll_round, FileConfigSource_load, mbind, PyM_bind, on_fst, on_snd, reads, updates, file_mtime, file_text, from_outcome, current.
  cbn -[parse_config]. destruct (Qeq_bool m l); [done|]. cbn -[parse_config]. by destruct (parse path c).
Qed.

(** Polling: as long as every version parses, any number of rounds hands the callback exactly
    the versions with a new modification time, parsed by the suffix of the path, in order
    and once each; a version written within the same time stamp is missed. *)
Theorem polling_exact path i vs : ∀ l got,
  (∀ m c, (m, c) ∈ vs → ∃ v, parse path c = Return v) →
  ∃ l' new, watch (length vs) collect_data (mkFileSource path i l, (vs, got)) = (Return tt, (mkFileSource path i l', ([], got ++ new))) ∧
    map Return new = map (λ mc, parse path mc.2) (changes l vs).
Proof.
  induction vs as [|[m c] vs IH]; intros l got Hp.
  { exists l, []. simpl. by rewrite app_nil_r. }
  destruct (Hp m c) as [v Hv]; [set_solver|]. assert (Hvs : ∀ m c, (m, c) ∈ vs → ∃ v, parse path c = Return v) by set_solver.
  change (length ((m, c) :: vs)) with (S (length vs)). cbn [FileConfigSource_watch changes].
  unfold mbind, PyM_bind. rewrite poll_step, Hv. destruct (Qeq_bool m l) eqn:E.
  - destruct (IH l got Hvs) as (l' & new & -> & Hn). exists l', new. split; [done|]. rewrite Hn. simpl.
    rewrite (changes_Qeq vs l m); [done|]. symmetry. by apply Qeq_bool_iff.
  - destruct (IH m (got ++ [v]) Hvs) as (l' & new & -> & Hn). exists l', (v :: new). rewrite <- app_assoc. split; [done|].
    simpl. by rewrite Hn, Hv.
Qed.

(** A version that does not parse, for instance one read while it is being written, ends
    the watch with the parser's error, and its time is kept: a watch started again on the
    same source does not read that version. *)
Theorem polling_loses_failed path i l m c vs got e n :
  Qeq_bool m l = false → parse path c = Raise e →
  ∃ src, watch (S n) collect_data (mkFileSource path i l, ((m, c) :: vs, got)) = (Raise e, (src, ((m, c) :: vs, got))) ∧
    poll_round file_text file_mtime yaml toml json next_version collect_data (src, ((m, c) :: vs, got)) = (Return tt, (src, (vs, got))).
Proof.
  intros Hm He. exists (mkFileSource path i m). split.
  - cbn [FileConfigSource_watch]. unfold mbind, PyM_bind. by rewrite poll_step, Hm, He.
  - rewrite poll_step. assert (Qeq_bool m m = true) as -> by (by apply Qeq_bool_iff). done.
Qed.

End FileTheorems.

(** ** Theorems on Consul *)

Lemma b64decode_std bs : Forall is_byte bs → b64decode (b64encode bs) = Return bs.
Proof.
  intros Hb. unfold b64decode. rewrite <- (b64encode_decodes bs Hb). f_equal. unfold b64encode.
  generalize (urlsafe_b64encode bs). intros s. induction s as [|c s IH]; [done|]. cbn [str_map str_filter].
  assert (Ascii.eqb (std_char c) "-" || Ascii.eqb (std_char c) "_" = false) as ->.
  { unfold std_char. destruct (Ascii.eqb c "-") eqn:E1; [done|]. destruct (Ascii.eqb c "_") eqn:E2; [done|]. by rewrite E1, E2. }
  cbn [negb]. by rewrite IH.
Qed.

Lemma removeprefix_app p k : removeprefix p (p +:+ k) = k.
Proof.
  unfold removeprefix. rewrite (proj2 (startswith_spec p (p +:+ k))) by eauto. apply substring_after.
Qed.

Section ConsulTheorems.
Context {W R : Type} (client_get : string → list (string * string) → PyM W R).
Context (status_code : R → Z) (raise_for_status : R → outcome unit) (resp_json : R → outcome (list KvItem)).
Context (json_loads : string → outcome pyval) (utf8_decode : list Z → outcome string).
Hypothesis decode_ascii : ∀ s, is_ascii s = true → utf8_decode (encode s) = Return s.

#[local] Abbreviation load := (ConsulConfigSource_load client_get status_code raise_for_status resp_json json_loads utf8_decode).

(** An entry of the store as the server sends it. *)
Definition kv_item (prefix : string) (e : string * string) : KvItem :=
  mkKv (prefix +:+ e.1) (Some (b64encode (encode e.2))).

(** The value an application gets for a text. *)
Definition config_value (text : string) : pyval :=
  match json_loads text with Return v => v | Raise _ => VStr text end.

Lemma consul_items_texts prefix entries : ∀ d,
  (∀ s e, json_loads s = Raise e → is_Exception e = true) →
  Forall (λ e, is_ascii e.2 = true) entries →
  consul_items json_loads utf8_decode prefix (map (kv_item prefix) entries) d =
    Return (od_update d (map (λ e, (e.1, config_value e.2)) entries)).
Proof.
  induction entries as [|[k t] entries IH]; intros d He Ha; [done|]. apply Forall_cons in Ha as [Ht Ha].
  cbn [map kv_item consul_items kv_value kv_key kv_text fst snd]. rewrite b64decode_std by apply encode_bytes.
  rewrite decode_ascii by done. rewrite removeprefix_app. unfold json_or_text.
  assert (config_value t = match json_loads t with Return v => v | Raise _ => VStr t end) as Hc by done.
  destruct (json_loads t) as [v|e] eqn:Hj; [|rewrite (He _ _ Hj)]; rewrite IH by done; unfold od_update; simpl; by rewrite Hc.
Qed.

(** Loading from Consul: what was stored under the prefix comes back under the rest of its
    key, as the JSON value it is the text of, or else as the text, the last entry of a key
    deciding; a missing prefix is an empty configuration; and a single entry without a value, such as
    a folder made in the user interface, makes the whole load raise. *)
Theorem consul_load_exact src w resp w' entries :
  client_get (kv_url src "?recurse") (cs_headers src) w = (Return resp, w') →
  (∀ s e, json_loads s = Raise e → is_Exception e = true) → Forall (λ e, is_ascii e.2 = true) entries →
  (status_code resp = 404%Z → load (src, w) = (Return [], (src, w'))) ∧
  (status_code resp ≠ 404%Z → raise_for_status resp = Return tt →
     (resp_json resp = Return (map (kv_item (cs_key_prefix src)) entries) →
        load (src, w) = (Return (od_update [] (map (λ e, (e.1, config_value e.2)) entries)), (src, w'))) ∧
     (∀ key rest, resp_json resp = Return (map (kv_item (cs_key_prefix src)) entries ++ mkKv key None :: rest) →
        ∃ e, load (src, w) = (Raise e, (src, w')) ∧ isinstance e "TypeError" = true)).
Proof.
  intros Hg Hj Ha. unfold ConsulConfigSource_load, mbind, PyM_bind, on_fst, on_snd, reads, from_outcome. simpl. rewrite Hg.
  split; [intros ->; done|]. intros Hs Hr. rewrite (proj2 (Z.eqb_neq _ _) Hs), Hr. split.
  - intros ->. by rewrite consul_items_texts.
  - intros key rest ->. eexists.
    assert (∀ l d d' tl, consul_items json_loads utf8_decode (cs_key_prefix src) l d = Return d' →
      consul_items json_loads utf8_decode (cs_key_prefix src) (l ++ tl) d = consul_items json_loads utf8_decode (cs_key_prefix src) tl d') as Happ.
    { clear. induction l as [|i l IH]; intros d d' tl; simpl; [by intros [= ->]|].
      destruct (kv_text utf8_decode (kv_value i)); [|done]. destruct (json_or_text json_loads _); [|done]. apply IH. }
    rewrite (Happ _ _ _ _ (consul_items_texts _ _ [] Hj Ha)). by split.
Qed.

End ConsulTheorems.

(** ** Witnesses *)

(** ASCII text, and nothing else. *)
Fixpoint ascii_decode (bs : list Z) : outcome string :=
  match bs with
  | [] => Return ""
  | b :: bs' =>
      if (0 <=? b)%Z && (b <? 128)%Z then
        match ascii_decode bs' with Return s => Return (String (ascii_of_nat (Z.to_nat b)) s) | Raise e => Raise e end
      else Raise (exn_of ["UnicodeDecodeError"; "UnicodeError"; "ValueError"] "utf-8")
  end.

Lemma ascii_decode_encode s : is_ascii s = true → ascii_decode (encode s) = Return s.
Proof.
  induction s as [|c s IH]; [done|]. unfold is_ascii in *. cbn [str_all encode ascii_decode].
  rewrite andb_true_iff, Nat.ltb_lt. intros [Hc Hs]. rewrite (proj2 (Z.leb_le _ _)), (proj2 (Z.ltb_lt _ _)) by lia. simpl.
  rewrite IH by done. unfold code. by rewrite Nat2Z.id, ascii_nat_embedding.
Qed.

Definition text_value (s : string) : outcome pyval := Return (VStr s).
Definition only_digits (s : string) : outcome pyval := match py_int s with Return n => Return (VInt n) | Raise _ => Raise (ValueError "Expecting value") end.

Lemma polling_exact_witness :
  ∃ l new, FileConfigSource_watch file_text file_mtime text_value text_value text_value next_version 3 collect_data
    (mkFileSource "/etc/app.JSON" 2 0, ([(1, "a"); (1, "b"); (2, "c")], [])) = (Return tt, (mkFileSource "/etc/app.JSON" 2 l, ([], new))) ∧
    map Return new = [text_value "a"; text_value "c"].
Proof.
  destruct (polling_exact text_value text_value text_value "/etc/app.JSON" 2 [(1, "a"); (1, "b"); (2, "c")] 0 []) as (l & new & Hw & Hn).
  - intros m c _. eexists. reflexivity.
  - exists l, new. split; [exact Hw | exact Hn].
Defined.

Lemma polling_loses_failed_witness :
  ∃ src, FileConfigSource_watch file_text file_mtime text_value text_value only_digits next_version 1 collect_data
    (mkFileSource "a.json" 2 0, ([(1, "{")], [])) = (Raise (ValueError "Expecting value"), (src, ([(1, "{")], []))).
Proof.
  destruct (polling_loses_failed text_value text_value only_digits "a.json" 2 0 1 "{" [] [] (ValueError "Expecting value") 0)
    as (src & Hw & _); [reflexivity | reflexivity | by exists src].
Defined.

Definition demo_consul : ConsulConfigSource := ConsulConfigSource_init "http://consul:8500/" "config/" (Some "t").

Lemma consul_load_exact_witness :
  ConsulConfigSource_load (λ _ _ (w : unit), (Return (map (kv_item "config/") [("port", "80"); ("host", "db")]), w)) (λ _, 200%Z)
    (λ _, Return tt) Return only_digits ascii_decode (demo_consul, tt) =
  (Return [("port", VInt 80); ("host", VStr "db")], (demo_consul, tt)).
Proof.
  destruct (consul_load_exact (λ _ _ (w : unit), (Return (map (kv_item "config/") [("port", "80"); ("host", "db")]), w)) (λ _, 200%Z)
    (λ _, Return tt) Return only_digits ascii_decode ascii_decode_encode demo_consul tt
    (map (kv_item "config/") [("port", "80"); ("host", "db")]) tt [("port", "80"); ("host", "db")]) as [_ H]; [reflexivity | | |].
  - intros s e. unfold only_digits. destruct (py_int s); [done|]. by intros [= <-].
  - repeat constructor.
  - destruct H as [H _]; [done | reflexivity|]. rewrite (H eq_refl). vm_compute. reflexivity.
Defined.
