(* ===== verification/EventBus.v ===== *)
(** * The in-process event bus and the registries of handlers

    [application/cqrs/events.py]: [InProcessEventBus]; [application/cqrs/decorators.py]: the
    registries the decorators fill, read by [make_bus] of [Pipeline].  [publish] awaits [asyncio.gather] of
    the handlers of the exact type of the event: the handlers run as tasks of their own, a
    task runs without interruption between two awaits, and tasks interleave in any
    order.  A handler is the list of its atomic steps on the state it works on; a step that
    raises ends it.  [gather] ends with the first exception raised, if any, and then leaves
    the other tasks running; without one it ends when every task has. *)
From S2P Require Import Prelude PyString OrderedDict Pipeline.

Section Bus.
Context {W Event : Type} (type_of : Event → string).

(** [EventHandler]: the coroutine [handle], as its steps. *)
Definition EventHandler : Type := Event → list (PyM W unit).

Definition InProcessEventBus : Type := gmap string (list EventHandler).

Definition InProcessEventBus_init : InProcessEventBus := ∅.

Definition InProcessEventBus_register (event_type : string) (handler : EventHandler) (b : InProcessEventBus)
    : InProcessEventBus :=
  <[event_type := default [] (b !! event_type) ++ [handler]]> b.

(** [gather]: the steps each task has left, and what the caller has been told. *)
Record Gather := mkGather {
  g_tasks : list (list (PyM W unit));
  g_result : option (outcome unit);
}.

(** No steps left means that the task has ended. *)
Definition all_ended (ts : list (list (PyM W unit))) : bool := forallb (λ t, match t with [] => true | _ => false end) ts.

Definition gather_settled (g : Gather) : Gather :=
  match g_result g with
  | Some _ => g
  | None => if all_ended (g_tasks g) then mkGather (g_tasks g) (Some (Return tt)) else g
  end.

(** Task [i] runs until its next await. *)
Definition run_task (i : nat) (g : Gather) (w : W) : option (Gather * W) :=
  match g_tasks g !! i with
  | Some (step :: rest) =>
      match step w with
      | (Return _, w') => Some (gather_settled (mkGather (<[i := rest]> (g_tasks g)) (g_result g)), w')
      | (Raise e, w') =>
          let result := match g_result g with None => Some (Raise e) | r => r end in
          Some (mkGather (<[i := []]> (g_tasks g)) result, w')
      end
  | _ => None
  end.

(** [publish]: without handlers it returns at once. *)
Definition InProcessEventBus_publish (event : Event) (b : InProcessEventBus) : Gather :=
  match default [] (b !! type_of event) with
  | [] => mkGather [] (Some (Return tt))
  | handlers => gather_settled (mkGather (map (λ h, h event) handlers) None)
  end.

Inductive gather_step : Gather * W → Gather * W → Prop :=
| gather_runs i g w g' w' : run_task i g w = Some (g', w') → gather_step (g, w) (g', w').

Definition gather_steps : Gather * W → Gather * W → Prop := rtc gather_step.

(** ** Lemmas *)

Definition steps_left (g : Gather) : nat := sum_list_with length (g_tasks g).

Lemma sum_insert_lt (ts : list (list (PyM W unit))) i t t' :
  ts !! i = Some t → (length t' < length t)%nat →
  (sum_list_with length (<[i := t']> ts) < sum_list_with length ts)%nat.
Proof.
  revert i. induction ts as [|u ts IH]; intros [|i] Hi Hl; simpl in *; [done..| |].
  - injection Hi as ->. lia.
  - specialize (IH i Hi Hl). lia.
Qed.

Lemma settle_tasks g : g_tasks (gather_settled g) = g_tasks g.
Proof. unfold gather_settled. destruct (g_result g); [done|]. by destruct (all_ended _). Qed.

Lemma run_task_decreases i g w g' w' : run_task i g w = Some (g', w') → (steps_left g' < steps_left g)%nat.
Proof.
  unfold run_task. destruct (g_tasks g !! i) as [[|step rest]|] eqn:Ht; try done.
  destruct (step w) as [[[]|e] w1]; intros [= <- <-]; unfold steps_left; rewrite ?settle_tasks; simpl;
    (apply (sum_insert_lt _ _ (step :: rest)); [done | simpl; lia]).
Qed.

Lemma all_ended_spec ts : all_ended ts = true ↔ ∀ i t, ts !! i = Some t → t = [].
Proof.
  unfold all_ended. rewrite forallb_forall. split.
  - intros H i t Hi. apply list_elem_of_lookup_2, list_elem_of_In, H in Hi. by destruct t.
  - intros H t Ht. apply list_elem_of_In, list_elem_of_lookup in Ht as [i Hi]. by rewrite (H i t Hi).
Qed.

(** What every state of a run keeps: the caller is told nothing before a task raises or all
    have ended, and a normal return only when all have. *)
Definition gather_ok (g : Gather) : Prop :=
  match g_result g with
  | None => all_ended (g_tasks g) = false
  | Some (Return _) => all_ended (g_tasks g) = true
  | Some (Raise _) => True
  end.

Lemma gather_ok_settle g : g_result g = None ∨ gather_ok g → gather_ok (gather_settled g).
Proof.
  unfold gather_settled, gather_ok. destruct (g_result g) as [[]|] eqn:Hr; simpl; rewrite ?Hr; try tauto; [by intros [?|?]|].
  intros _. destruct (all_ended (g_tasks g)) eqn:Ha; simpl; [done | by rewrite Hr].
Qed.

Lemma gather_ok_step i g w g' w' : gather_ok g → run_task i g w = Some (g', w') → gather_ok g'.
Proof.
  intros Hok. unfold run_task. destruct (g_tasks g !! i) as [[|step rest]|] eqn:Ht; try done.
  assert (Hlive : all_ended (g_tasks g) = false).
  { destruct (all_ended (g_tasks g)) eqn:E; [|done]. by rewrite all_ended_spec in E; apply E in Ht. }
  unfold gather_ok in Hok. rewrite Hlive in Hok.
  destruct (step w) as [[[]|e] w1]; intros [= <- <-].
  - apply gather_ok_settle. simpl. destruct (g_result g) as [[]|] eqn:Hr; [done | by right | by left].
  - unfold gather_ok. simpl. by destruct (g_result g) as [[]|].
Qed.

(** A result once told does not change. *)
Lemma result_stays i g w g' w' o : run_task i g w = Some (g', w') → g_result g = Some o → g_result g' = Some o.
Proof.
  unfold run_task. destruct (g_tasks g !! i) as [[|step rest]|]; try done.
  intros Hs Hr. destruct (step w) as [[[]|e] w1]; injection Hs as <- <-; [unfold gather_settled; simpl; by rewrite Hr | simpl; by rewrite Hr].
Qed.

(** ** Theorems *)

(** Every interleaving of the handlers of an event ends within the number of their steps,
    whether or not some of them raise. *)
Theorem publish_terminates event (b : InProcessEventBus) w : ∀ n g w',
  nsteps gather_step n (InProcessEventBus_publish event b, w) (g, w') →
  (n + steps_left g <= sum_list_with (λ h, length (h event)) (default [] (b !! type_of event)))%nat.
Proof.
  assert (Hn : ∀ n s s', nsteps gather_step n s s' → (n + steps_left s'.1 <= steps_left s.1)%nat).
  { induction 1 as [s|n s1 s2 s3 Hs _ IH]; [lia|]. inversion Hs as [i g1 w1 g2 w2 Hr]; subst.
    apply run_task_decreases in Hr. simpl in *. lia. }
  intros n g w' Hs. apply Hn in Hs. simpl in Hs. etransitivity; [exact Hs|].
  unfold InProcessEventBus_publish. destruct (default [] (b !! type_of event)) as [|h hs]; [done|].
  unfold steps_left. rewrite settle_tasks. simpl. apply Nat.add_le_mono_l.
  induction hs as [|h' hs IH]; simpl; lia.
Qed.

End Bus.

(** ** Runs of scripted handlers *)

(** Handler [i] logs each of its steps, which end as the script says. *)
#[local] Abbreviation script := (list (outcome unit)).
Definition script_step (i j : nat) (o : outcome unit) : PyM (list (nat * nat)) unit := λ log, (o, log ++ [(i, j)]).
Definition script_handler {Event} (i : nat) (os : script) : @EventHandler (list (nat * nat)) Event :=
  λ _, imap (script_step i) os.
Definition script_bus {Event} (ty : string) (scripts : list script) : @InProcessEventBus (list (nat * nat)) Event :=
  fold_left (λ b h, InProcessEventBus_register ty h b) (imap script_handler scripts) InProcessEventBus_init.

(** How many steps of a script are run: up to the first that raises. *)
Fixpoint ran (os : script) : nat :=
  match os with [] => 0 | Return _ :: os' => S (ran os') | Raise _ :: _ => 1 end.

Definition raises (e : pyexn) (os : script) : Prop := os !! pred (ran os) = Some (Raise e).

(** The steps handler [i] has taken. *)
Definition taken (i : nat) (log : list (nat * nat)) : list nat := (filter (λ x, x.1 = i) log).*2.

Definition rest (i k : nat) (os : script) : list (PyM (list (nat * nat)) unit) :=
  if decide (k = ran os) then [] else drop k (imap (script_step i) os).

(** Each task has taken a prefix of its steps and has the others left; a result that is an
    exception was raised by a handler that has ended, and no exception is lost. *)
Record bus_inv (scripts : list script) (g : @Gather (list (nat * nat))) (log : list (nat * nat)) : Prop := {
  inv_ok : gather_ok g;
  inv_size : length (g_tasks g) = length scripts;
  inv_task i os : scripts !! i = Some os →
    ∃ k, (k <= ran os)%nat ∧ taken i log = seq 0 k ∧ g_tasks g !! i = Some (rest i k os) ∧
      ∀ e, raises e os → k = ran os → ∃ e', g_result g = Some (Raise e');
  inv_raised e : g_result g = Some (Raise e) → ∃ i os, scripts !! i = Some os ∧ raises e os ∧ taken i log = seq 0 (ran os);
}.

Lemma ran_le os : (ran os <= length os)%nat.
Proof. induction os as [|[u|e] os IH]; simpl; lia. Qed.

(** The next step of a script that has not ended. *)
Lemma rest_next i k os : (k < ran os)%nat →
  ∃ o, os !! k = Some o ∧ rest i k os = script_step i k o :: drop (S k) (imap (script_step i) os) ∧
    match o with Return _ => True | Raise _ => S k = ran os end.
Proof.
  intros Hk. pose proof (ran_le os). destruct (lookup_lt_is_Some_2 os k) as [o Ho]; [lia|]. exists o. split; [done|].
  unfold rest. rewrite decide_False by lia. split.
  - apply drop_S. by rewrite list_lookup_imap, Ho.
  - destruct o as [u|e]; [done|]. clear H. revert os Hk Ho. induction k as [|k IH]; intros [|[u|e'] os] Hk Ho; simpl in *; try done; try lia.
    rewrite (IH os); [done | lia | done].
Qed.

Lemma rest_returned i k os u : (k < ran os)%nat → os !! k = Some (Return u) →
  rest i (S k) os = drop (S k) (imap (script_step i) os).
Proof.
  intros Hk Ho. unfold rest. case_decide as Hd; [|done]. rewrite drop_ge; [done|]. rewrite length_imap.
  revert os Hk Ho Hd. induction k as [|k IH]; intros [|[v|e] os] Hk Ho Hd; simpl in *; try done; try lia.
  - injection Hd as Hd. destruct os as [|[]]; simpl in *; [lia | done | done].
  - injection Hd as Hd. apply le_n_S, IH; [lia | done | done].
Qed.

Lemma taken_app i log j : taken i (log ++ [(i, j)]) = taken i log ++ [j].
Proof. unfold taken. rewrite filter_app, fmap_app. f_equal. rewrite filter_cons_True by done. done. Qed.

Lemma taken_other i i' log j : i ≠ i' → taken i' (log ++ [(i, j)]) = taken i' log.
Proof. intros Hne. unfold taken. rewrite filter_app, fmap_app, filter_cons_False by done. by rewrite app_nil_r. Qed.

(** Settling adds a normal return and nothing else. *)
Lemma settle_raised {W} (g : @Gather W) e : g_result (gather_settled g) = Some (Raise e) ↔ g_result g = Some (Raise e).
Proof. unfold gather_settled. destruct (g_result g) eqn:Hr; [by rewrite Hr|]. destruct (all_ended _); simpl; [done | by rewrite Hr]. Qed.

Lemma bus_inv_step scripts i g log g' log' :
  bus_inv scripts g log → run_task i g log = Some (g', log') → bus_inv scripts g' log'.
Proof.
  intros Hinv Hrun. pose proof (gather_ok_step _ _ _ _ _ (inv_ok _ _ _ Hinv) Hrun) as Hok.
  revert Hrun. unfold run_task. destruct (g_tasks g !! i) as [[|step tl]|] eqn:Ht; try done.
  destruct (lookup_lt_is_Some_2 scripts i) as [os Hos]; [rewrite <- (inv_size _ _ _ Hinv); by eapply lookup_lt_Some|].
  destruct (inv_task _ _ _ Hinv i os Hos) as (k & Hk & Htk & Hrest & _). pose proof (eq_trans (eq_sym Ht) Hrest) as Heq. injection Heq as Heq.
  assert (Hlt : (k < ran os)%nat) by (destruct (decide (k = ran os)); [unfold rest in Heq; by rewrite decide_True in Heq | lia]).
  destruct (rest_next i k os Hlt) as (o & Ho & Hn & Hlast). rewrite Hn in Heq. injection Heq as -> ->.
  unfold script_step at 1. intros Hs.
  assert (Hlog : log' = log ++ [(i, k)]) by (destruct o; congruence). subst log'.
  assert (Hnext : taken i (log ++ [(i, k)]) = seq 0 (S k)) by (rewrite taken_app, Htk, seq_S; done).
  assert (Hold : ∀ e, g_result g = Some (Raise e) →
    (∃ j os', scripts !! j = Some os' ∧ raises e os' ∧ taken j (log ++ [(i, k)]) = seq 0 (ran os')) ∧ g_result g' = Some (Raise e)).
  { intros e He. split.
    - destruct (inv_raised _ _ _ Hinv e He) as (j & os' & Hj & Hr & Hd). exists j, os'. split_and!; [done..|].
      destruct (decide (i = j)) as [->|Hne]; [|by rewrite taken_other].
      rewrite Hos in Hj. injection Hj as <-. rewrite Htk in Hd. apply (f_equal length) in Hd. rewrite !length_seq in Hd. lia.
    - destruct o as [u|e']; injection Hs as <-; [by apply settle_raised | simpl; by rewrite He]. }
  assert (Htasks : g_tasks g' = <[i := rest i (S k) os]> (g_tasks g)).
  { destruct o as [u|e']; injection Hs as <-; rewrite ?settle_tasks; simpl; f_equal.
    - symmetry. by eapply rest_returned.
    - unfold rest. by rewrite decide_True. }
  split; [done | by rewrite Htasks, length_insert, (inv_size _ _ _ Hinv) | |].
  - intros j os' Hj. rewrite Htasks. destruct (decide (i = j)) as [<-|Hne].
    + rewrite Hos in Hj. injection Hj as <-. exists (S k). split_and!; [lia | done | |].
      { apply list_lookup_insert_eq. by eapply lookup_lt_Some. }
      intros e He Hr. unfold raises in He. rewrite <- Hr in He. simpl in He. rewrite Ho in He. injection He as ->.
      destruct (g_result g) as [[u|e0]|] eqn:Hg; [|by exists e0; apply Hold |by injection Hs as <-; exists e].
      pose proof (inv_ok _ _ _ Hinv) as Hg'. unfold gather_ok in Hg'. rewrite Hg, all_ended_spec in Hg'.
      apply Hg' in Hrest. rewrite Hn in Hrest. done.
    + destruct (inv_task _ _ _ Hinv j os' Hj) as (k' & Hk' & Htk' & Hrest' & Hres'). exists k'.
      rewrite taken_other, list_lookup_insert_ne by done. split_and!; [done..|].
      intros e He Hr. destruct (Hres' e He Hr) as [e' He']. exists e'. by apply Hold.
  - intros e He. destruct (g_result g) as [[u|e0]|] eqn:Hg.
    + destruct o; injection Hs as <-; [rewrite settle_raised in He|]; simpl in He; rewrite ?Hg in He; done.
    + destruct (Hold e0 eq_refl) as [Hw Hg']. rewrite He in Hg'. injection Hg' as <-. done.
    + destruct o as [u|e']; injection Hs as <-; [rewrite settle_raised in He; simpl in He; congruence|].
      simpl in He. injection He as <-.
      exists i, os. split_and!; [done| |by rewrite Hnext, Hlast]. unfold raises. by rewrite <- Hlast.
Qed.

Lemma script_bus_handlers {Event} ty (scripts : list script) :
  default [] (script_bus (Event:=Event) ty scripts !! ty) = imap script_handler scripts.
Proof.
  unfold script_bus. generalize (imap (script_handler (Event:=Event)) scripts). intros hs.
  enough (∀ b : @InProcessEventBus _ Event, default [] (fold_left (λ b h, InProcessEventBus_register ty h b) hs b !! ty) = default [] (b !! ty) ++ hs) as H
    by (rewrite H; reflexivity).
  induction hs as [|h hs IH]; intros b; simpl; [by rewrite app_nil_r|].
  rewrite IH. unfold InProcessEventBus_register, InProcessEventBus in *. rewrite lookup_insert_eq. simpl. by rewrite <- app_assoc.
Qed.

Lemma publish_tasks {Event} (type_of : Event → string) (ev : Event) scripts :
  g_tasks (InProcessEventBus_publish type_of ev (script_bus (type_of ev) scripts)) = imap (λ i os, imap (script_step i) os) scripts.
Proof.
  unfold InProcessEventBus_publish.
  replace (default [] (script_bus (type_of ev) scripts !! type_of ev)) with (imap (script_handler (Event:=Event)) scripts)
    by (symmetry; apply script_bus_handlers).
  destruct scripts as [|os scripts]; [done|].
  simpl. rewrite settle_tasks. simpl. f_equal. rewrite fmap_imap. done.
Qed.

Lemma bus_inv_init {Event} (type_of : Event → string) (ev : Event) scripts :
  bus_inv scripts (InProcessEventBus_publish type_of ev (script_bus (type_of ev) scripts)) [].
Proof.
  pose proof (publish_tasks type_of ev scripts) as Ht.
  assert (Hres : ∀ e, g_result (InProcessEventBus_publish type_of ev (script_bus (type_of ev) scripts)) ≠ Some (Raise e)).
  { unfold InProcessEventBus_publish. destruct (default [] _); [done|]. intros e. by rewrite settle_raised. }
  split.
  - unfold InProcessEventBus_publish. destruct (default [] _); [done|]. apply gather_ok_settle. by left.
  - by rewrite Ht, length_imap.
  - intros i os Hos. exists 0%nat. split_and!; [lia | done | |].
    + rewrite Ht, list_lookup_imap, Hos. simpl. f_equal. unfold rest. case_decide as Hr; [|done].
      destruct os as [|[]]; simpl in *; done.
    + intros e He Hr. unfold raises in He. destruct os as [|[]]; simpl in *; done.
  - intros e He. by destruct (Hres e).
Qed.

(** C22: Publishing an event to the handlers registered for its type, under every interleaving: each
    handler takes its steps in order and none after one that raised; [publish] has not
    ended while a handler is running and none has raised; it returns normally only when
    every handler ran all its steps; if it raises, the exception is that of a handler.
    When nothing is left to run every handler has come to its end, also those beside a
    failed one, and [publish] has returned exactly when none of them raises. *)
Theorem publish_exact {Event} (type_of : Event → string) (ev : Event) scripts g log :
  gather_steps (InProcessEventBus_publish type_of ev (script_bus (type_of ev) scripts), []) (g, log) →
  (∀ i os, scripts !! i = Some os → ∃ k, (k <= ran os)%nat ∧ taken i log = seq 0 k) ∧
  (g_result g = None → ∃ i s', run_task i g log = Some s') ∧
  (∀ e, g_result g = Some (Raise e) → ∃ i os, scripts !! i = Some os ∧ raises e os) ∧
  (g_result g = Some (Return tt) ∨ (∀ i, run_task i g log = None) →
     (∀ i os, scripts !! i = Some os → taken i log = seq 0 (ran os)) ∧
     (g_result g = Some (Return tt) ↔ ∀ i os e, scripts !! i = Some os → ¬ raises e os)).
Proof.
  intros Hs. assert (Hinv : bus_inv scripts g log).
  { enough (∀ x y, gather_steps x y → bus_inv scripts x.1 x.2 → bus_inv scripts y.1 y.2) as H
      by (apply (H _ _ Hs), bus_inv_init).
    induction 1 as [x|x y z Hstep _ IH]; [done|]. intros Hx. apply IH. inversion Hstep; subst. by eapply bus_inv_step. }
  clear Hs. destruct Hinv as [Hok Hsize Htask Hraised].
  assert (Hrun : ∀ i t tl, g_tasks g !! i = Some (t :: tl) → ∃ s', run_task i g log = Some s').
  { intros i t tl Ht. unfold run_task. destruct (g_tasks g !! i) as [[|t' tl']|]; try done. destruct (t' log) as [[]]; eauto. }
  assert (Hlive : g_result g = None → ∃ i s', run_task i g log = Some s').
  { intros Hr. unfold gather_ok in Hok. rewrite Hr in Hok. destruct (decide (Exists (λ t, t ≠ []) (g_tasks g))) as [Hex|Hno].
    - apply Exists_exists in Hex as ([|t tl] & Hin & Ht); [done|]. apply list_elem_of_lookup in Hin as [i Hi]. exists i. eauto.
    - apply not_true_iff_false in Hok. destruct Hok. apply all_ended_spec. intros i t Ht. destruct t as [|t tl]; [done|].
      destruct Hno. apply Exists_exists. exists (t :: tl). split; [by eapply list_elem_of_lookup_2 | done]. }
  split_and!; [| done | |].
  - intros i os Hos. destruct (Htask i os Hos) as (k & Hk & Htk & _). eauto.
  - intros e He. destruct (Hraised e He) as (i & os & Hi & Hr & _). eauto.
  - intros Hend. assert (Hall : ∀ i t, g_tasks g !! i = Some t → t = []).
    { intros i t Ht. destruct Hend as [Hr|Hstuck].
      - unfold gather_ok in Hok. rewrite Hr, all_ended_spec in Hok. eauto.
      - destruct t as [|t tl]; [done|]. destruct (Hrun i t tl Ht) as [s' Hs']. by rewrite Hstuck in Hs'. }
    assert (Hran : ∀ i os, scripts !! i = Some os → taken i log = seq 0 (ran os) ∧ ∀ e, raises e os → ∃ e', g_result g = Some (Raise e')).
    { intros i os Hos. destruct (Htask i os Hos) as (k & Hk & Htk & Ht & Hr). apply Hall in Ht.
      assert (k = ran os) as ->; [|eauto]. destruct (decide (k = ran os)); [done|].
      destruct (rest_next i k os) as (o & _ & Hn & _); [lia|]. congruence. }
    split; [intros i os Hos; by apply Hran|]. split.
    + intros Hr i os e Hos He. destruct (Hran i os Hos) as [_ Hx].
      destruct (Hx e He) as [e' He']. congruence.
    + intros Hno. destruct (g_result g) as [[[]|e]|] eqn:Hr; [done| |].
      * destruct (Hraised e eq_refl) as (i & os & Hos & He & _). by destruct (Hno i os e Hos).
      * destruct (Hlive eq_refl) as (i & s' & Hs'). destruct Hend as [?|Hst]; [done|]. by rewrite Hst in Hs'.
Qed.

(** Three handlers; the first fails at its second step while the others are running. *)
Definition demo_scripts : list (list (outcome unit)) :=
  [[Return tt; Raise (ValueError "no stock"); Return tt]; [Return tt; Return tt]; []].

Lemma publish_exact_witness :
  ∃ (g : @Gather (list (nat * nat))) log, g_result g = Some (Raise (ValueError "no stock")) ∧ taken 1 log = [0; 1]%nat ∧ taken 0 log = [0; 1]%nat.
Proof.
  set (start := InProcessEventBus_publish (λ e : string, e) "OrderPlaced" (script_bus "OrderPlaced" demo_scripts)).
  assert (∃ g, gather_steps (start, []) (g, [(0, 0); (1, 0); (0, 1); (1, 1)]%nat) ∧ g_result g = Some (Raise (ValueError "no stock")) ∧
    ∀ i, run_task i g [(0, 0); (1, 0); (0, 1); (1, 1)]%nat = None) as (g & Hs & Hr & Hstuck).
  { eexists. split; [|split].
    - unfold gather_steps. eapply rtc_l; [apply (gather_runs 0); vm_compute; reflexivity|].
      eapply rtc_l; [apply (gather_runs 1); vm_compute; reflexivity|].
      eapply rtc_l; [apply (gather_runs 0); vm_compute; reflexivity|].
      eapply rtc_l; [apply (gather_runs 1); vm_compute; reflexivity|]. apply rtc_refl.
    - reflexivity.
    - intros [|[|[|i]]]; reflexivity. }
  destruct (publish_exact (λ e : string, e) "OrderPlaced" demo_scripts g _ Hs) as (_ & _ & _ & Hend).
  destruct (Hend (or_intror Hstuck)) as [Ht _]. exists g, [(0, 0); (1, 0); (0, 1); (1, 1)]%nat.
  split_and!; [done | by apply (Ht 1%nat [Return tt; Return tt]) | by apply (Ht 0%nat [Return tt; Raise (ValueError "no stock"); Return tt])].
Defined.

Lemma publish_terminates_witness :
  ∀ n g log, nsteps gather_step n (InProcessEventBus_publish (λ e : string, e) "OrderPlaced" (script_bus "OrderPlaced" demo_scripts), []) (g, log) →
  (n + steps_left g <= 5)%nat.
Proof. intros n g log Hs. exact (publish_terminates (λ e : string, e) "OrderPlaced" _ [] n g log Hs). Defined.

(** ** Registries ([decorators.py]) *)

Section Registries.
Context {X R : Type}.

(** [_COMMAND_REGISTRY] and [_QUERY_REGISTRY], dictionaries from request types to handlers. *)
Record Registries := mkRegistries {
  COMMAND_REGISTRY : list (string * Handler X R);
  QUERY_REGISTRY : list (string * Handler X R);
}.

Definition no_registries : Registries := mkRegistries [] [].

Definition command_handler (command_type : string) (handler : Handler X R) (r : Registries) : Registries :=
  mkRegistries (od_set command_type handler (COMMAND_REGISTRY r)) (QUERY_REGISTRY r).

Definition query_handler (query_type : string) (handler : Handler X R) (r : Registries) : Registries :=
  mkRegistries (COMMAND_REGISTRY r) (od_set query_type handler (QUERY_REGISTRY r)).

Definition clear_registries (_ : Registries) : Registries := no_registries.

(** What modules do to the registries when they are imported, and tests between them. *)
Inductive decoration := DecorateCommand (ty : string) (h : Handler X R) | DecorateQuery (ty : string) (h : Handler X R) | Clear.

Definition decorate (r : Registries) (d : decoration) : Registries :=
  match d with
  | DecorateCommand ty h => command_handler ty h r
  | DecorateQuery ty h => query_handler ty h r
  | Clear => clear_registries r
  end.

(** The handler the last decoration for a command type since the last clearing gave. *)
Fixpoint last_decorated (ty : string) (ds : list decoration) (found : option (Handler X R)) : option (Handler X R) :=
  match ds with
  | [] => found
  | DecorateCommand ty' h :: ds' => last_decorated ty ds' (if decide (ty' = ty) then Some h else found)
  | DecorateQuery _ _ :: ds' => last_decorated ty ds' found
  | Clear :: ds' => last_decorated ty ds' None
  end.

Lemma decorated_get ty ds : ∀ r,
  od_get ty (COMMAND_REGISTRY (fold_left decorate ds r)) = last_decorated ty ds (od_get ty (COMMAND_REGISTRY r)).
Proof.
  induction ds as [|[ty' h|ty' h|] ds IH]; intros r; simpl; [done| |by rewrite IH..].
  rewrite IH. simpl. case_decide; [subst; by rewrite od_get_set_eq | by rewrite od_get_set_ne].
Qed.

Lemma decorated_keys ds : ∀ r, NoDup (COMMAND_REGISTRY r).*1 → NoDup (COMMAND_REGISTRY (fold_left decorate ds r)).*1.
Proof.
  induction ds as [|[ty h|ty h|] ds IH]; intros r Hr; simpl; [done| | |]; apply IH; simpl; [by apply od_set_NoDup | done | constructor].
Qed.

Lemma registered_all (l : list (string * Handler X R)) ty : ∀ b : Bus X R, NoDup l.*1 →
  fold_left (λ b e, InProcessCommandBus_register (fst e) (snd e) b) l b !! ty =
    match od_get ty l with Some h => Some h | None => b !! ty end.
Proof.
  induction l as [|[k h] l IH]; intros b Hnd; [done|]. simpl in *. apply NoDup_cons in Hnd as [Hk Hnd].
  rewrite IH by done. unfold InProcessCommandBus_register, Bus in *. case_decide as E.
  - subst. apply od_get_None in Hk. rewrite Hk. by rewrite lookup_insert_eq.
  - by rewrite lookup_insert_ne.
Qed.

(** A bus made after any decorations dispatches a command to the extra handler given for its
    type, otherwise to the one decorated last since the registries were cleared, and without
    either it raises KeyError; the decorations of queries make no difference. *)
Theorem decorated_dispatch ds extra command :
  NoDup (default [] extra).*1 →
  InProcessCommandBus_dispatch (make_bus (COMMAND_REGISTRY (fold_left decorate ds no_registries)) extra) command =
    match od_get (rq_type command) (default [] extra) with
    | Some h => h command
    | None => match last_decorated (rq_type command) ds None with Some h => h command | None => raise (no_handler command) end
    end.
Proof.
  intros Hx. unfold InProcessCommandBus_dispatch, make_bus.
  rewrite (registered_all (default [] extra)) by done. destruct (od_get _ (default [] extra)) as [h|]; [done|].
  rewrite registered_all by (apply decorated_keys; constructor). rewrite decorated_get. simpl.
  by destruct (last_decorated _ ds None).
Qed.

End Registries.

Lemma decorated_dispatch_witness :
  InProcessCommandBus_dispatch (make_bus (COMMAND_REGISTRY (fold_left decorate
    [DecorateCommand "PlaceOrder" (λ _, mret 0%Z); Clear; DecorateCommand "PlaceOrder" (λ _, mret 1%Z);
     DecorateCommand "PlaceOrder" (λ _, mret 2%Z); DecorateQuery "PlaceOrder" (λ _, mret 9%Z)]
    no_registries)) (Some [("Cancel", λ _ : Request, mret 3%Z)])) (order_request "x") tt = (Return 2%Z, tt).
Proof. rewrite decorated_dispatch by (repeat constructor; set_solver). reflexivity. Defined.
