(* ===== verification/Timers.v ===== *)
(** * Time limits, background loops and hedged runs

    [resilience/timeouts/policy.py], [TimeoutMiddleware] of [application/pipeline],
    [deadline_aware] of [resilience/deadline], the tasks of [resilience/hedge], the loop of
    [resilience/dead_letter_scheduler.py] and the signals of
    [resilience/graceful_shutdown.py].  The state is the clock of the event loop in seconds:
    a coroutine is what it ends with and how far it moves the clock.  [wait_for] stops a
    coroutine at its limit; where both fall on the same instant the order of the event loop decides,
    which is the parameter [tie]. *)
From Stdlib Require Import Qround.
From S2P Require Import Prelude PyString Errors Lifecycle.

(** ** [asyncio.wait_for] *)

(** The clock only moves forward. *)
Definition takes_time {A} (c : PyM Q A) : Prop := ∀ now, (now <= snd (c now))%Q.

(** A limit that is not positive cancels the coroutine before it starts. *)
Definition wait_for {A} (tie : bool) (c : PyM Q A) (timeout : Q) : PyM Q A := λ now,
  if Qle_bool timeout 0 then (Raise BuiltinTimeoutError, now)
  else
    let '(o, t) := c now in
    if Qltb (t - now) timeout || (tie && Qeq_bool (t - now) timeout) then (o, t)
    else (Raise BuiltinTimeoutError, (now + timeout)%Q).

(** [except TimeoutError] names the built-in class, a subclass of [OSError]; the classes of the
    library with that name are not. *)
Definition is_builtin_timeout (e : pyexn) : bool := isinstance e "TimeoutError" && isinstance e "OSError".

Definition on_timeout {S A} (m : PyM S A) (instead : pyexn) : PyM S A :=
  try_base m (λ e, if is_builtin_timeout e then raise instead else raise e).

Section Timeouts.
Context {A : Type} (tie : bool) (repr_float : Q → string).

(** [TimeoutPolicy.execute]. *)
Definition TimeoutPolicy_execute (timeout_seconds : Q) (func : PyM Q A) : PyM Q A :=
  on_timeout (wait_for tie func timeout_seconds)
    (AppTimeoutError ("Operation timed out after " +:+ repr_float timeout_seconds +:+ "s")).

(** [TimeoutMiddleware.__call__]. *)
Definition TimeoutMiddleware_call {Request} (timeout_seconds : Q) (request : Request) (next_ : Request → PyM Q A) : PyM Q A :=
  on_timeout (wait_for tie (next_ request) timeout_seconds)
    (AppTimeoutError ("Use case timed out after " +:+ repr_float timeout_seconds +:+ "s")).

(** [datetime.now(UTC)] in microseconds. *)
Definition utc_now (clock : Q) : Z := Qfloor (clock * 1000000).

(** [deadline_aware]: the given deadline, or that of the context. *)
Definition deadline_aware (deadline context : option Z) (coro : PyM Q A) : PyM Q A :=
  match (match deadline with Some d => Some d | None => context end) with
  | None => coro
  | Some dl =>
      remaining ← reads (λ clock, Deadline_remaining_seconds (utc_now clock) dl);
      if Qle_bool remaining 0 then raise (DeadlineExceededError "Deadline already exceeded")
      else on_timeout (wait_for tie coro remaining) (DeadlineExceededError "Deadline exceeded during execution")
  end.

End Timeouts.

(** ** Hedged runs *)

Section Hedging.
Context {A : Type}.

(** A run of [fn]: how long it takes and how it ends. *)
Record Run := mkRun { run_seconds : Q; run_ends : outcome A }.

(** [_run(index)]: the time after [execute] began at which its end is put on the queue. *)
Definition hedge_run (delay_ms : Q) (index : nat) (r : Run) : Q * (nat * outcome A) :=
  ((if Nat.ltb 0 index then delay_ms / 1000 * inject_Z (Z.of_nat index) else 0) + run_seconds r, (index, run_ends r))%Q.

Definition hedge_puts (delay_ms : Q) (runs : list Run) : list (Q * (nat * outcome A)) := imap (hedge_run delay_ms) runs.

(** The queue holds them in the order of their times. *)
Definition arrival (puts queue : list (Q * (nat * outcome A))) : Prop :=
  queue ≡ₚ puts ∧ Sorted (λ a b, (a.1 <= b.1)%Q) queue.

End Hedging.
Arguments Run : clear implicits.

(** ** The loop of the dead letter scheduler *)

Section ReplayLoop.
Context {W : Type} (batch : PyM W Z) (sleep : Q → PyM W unit).

Record ReplayTask := mkReplay { rp_running : bool; rp_task : option nat; rp_created : nat }.

Definition replay_idle : ReplayTask := mkReplay false None 0.

(** [start]: tasks are numbered in the order of their creation. *)
Definition DeadLetterReplayScheduler_start (s : ReplayTask) : ReplayTask :=
  if rp_running s then s else mkReplay true (Some (rp_created s)) (S (rp_created s)).

(** [stop]: the task is cancelled and awaited; [ended] is how it ends.  Only [CancelledError]
    is expected. *)
Definition DeadLetterReplayScheduler_stop (ended : nat → outcome unit) (s : ReplayTask) : outcome unit * ReplayTask :=
  match rp_task s with
  | None => (Return tt, mkReplay false None (rp_created s))
  | Some t =>
      match ended t with
      | Return _ => (Return tt, mkReplay false None (rp_created s))
      | Raise e =>
          if isinstance e "CancelledError" then (Return tt, mkReplay false None (rp_created s))
          else (Raise e, mkReplay false (Some t) (rp_created s))
      end
  end.

(** One turn of [_loop]: whether it goes on. *)
Definition loop_turn (interval : Q) : PyM W bool :=
  try_base (batch ;; mret tt)
    (λ e, if isinstance e "CancelledError" then raise e
          else if is_Exception e then mret tt else raise e) ;;
  try_base (sleep interval ;; mret true)
    (λ e, if isinstance e "CancelledError" then mret false else raise e).

(** [while self._running], for a number of turns after which it stops. *)
Fixpoint DeadLetterReplayScheduler_loop (turns : nat) (interval : Q) : PyM W unit :=
  match turns with
  | O => mret tt
  | S n => go ← loop_turn interval; if (go : bool) then DeadLetterReplayScheduler_loop n interval else mret tt
  end.

End ReplayLoop.

(** ** Signals *)

(** [install]: a signal the loop refuses is skipped, any other error is raised. *)
Fixpoint GracefulShutdown_install (add_signal_handler : string → outcome unit) (signals : list string) : outcome (list string) :=
  match signals with
  | [] => Return []
  | sig :: signals' =>
      match add_signal_handler sig with
      | Return _ =>
          match GracefulShutdown_install add_signal_handler signals' with Return l => Return (sig :: l) | Raise e => Raise e end
      | Raise e =>
          if isinstance_any e ["ValueError"; "NotImplementedError"]
          then GracefulShutdown_install add_signal_handler signals' else Raise e
      end
  end.

(** The loop calls the handler of an installed signal. *)
Definition deliver_signal (installed : list string) {W} (g : GracefulShutdown (W := W)) (sig : string) : GracefulShutdown (W := W) :=
  if str_in sig installed then GracefulShutdown_handle_signal sig g else g.

(** [wait] goes on to the hooks when the event is set; until then it is suspended. *)
Definition GracefulShutdown_wait {W} (loop_time : W → Q) (wf : PyM W unit → Q → PyM W unit) (g : GracefulShutdown (W := W))
    : option (PyM W unit) :=
  if gs_event g then Some (GracefulShutdown_run_hooks loop_time wf g) else None.

(** ** Lemmas and theorems: limits *)

(** A call under a limit ends when the coroutine does or at the limit. *)
Lemma wait_for_spec {A} tie (c : PyM Q A) timeout now : takes_time c →
  let '(o, t) := c now in
  ((t - now < timeout)%Q → (0 < timeout)%Q → wait_for tie c timeout now = (o, t)) ∧
  ((timeout < t - now)%Q → (0 < timeout)%Q → wait_for tie c timeout now = (Raise BuiltinTimeoutError, (now + timeout)%Q)) ∧
  ((timeout <= 0)%Q → wait_for tie c timeout now = (Raise BuiltinTimeoutError, now)) ∧
  (wait_for tie c timeout now = (o, t) ∨ fst (wait_for tie c timeout now) = Raise BuiltinTimeoutError) ∧
  (now <= snd (wait_for tie c timeout now) <= now + py_max 0 timeout)%Q.
Proof.
  intros Hc. specialize (Hc now). destruct (c now) as [o t] eqn:E. simpl in Hc. unfold wait_for. rewrite E.
  destruct (Qle_bool timeout 0) eqn:H0.
  - apply Qle_bool_iff in H0. assert (Hm : py_max 0 timeout == 0) by (destruct (py_max_spec 0 timeout) as [[? _]|[_ ?]]; [done | lra]).
    split_and!; simpl; rewrite ?Hm; first [done | by right | intros; lra].
  - apply Qle_bool_false in H0. assert (Hm : py_max 0 timeout == timeout) by (destruct (py_max_spec 0 timeout) as [[_ ?]|[? _]]; [lra | done]).
    destruct (Qltb (t - now) timeout) eqn:H1; simpl.
    + apply Qltb_lt in H1. split_and!; simpl; rewrite ?Hm; first [done | by left | intros; lra].
    + apply Qltb_ge in H1. destruct (tie && Qeq_bool (t - now) timeout) eqn:H2; simpl.
      * apply andb_true_iff in H2 as [_ H2]. apply Qeq_bool_iff in H2.
        split_and!; simpl; rewrite ?Hm; first [done | by left | intros; lra].
      * split_and!; simpl; rewrite ?Hm; first [done | by right | intros; lra].
Qed.

(** What the caller of a limited call sees of an outcome. *)
Definition translated {A} (instead : pyexn) (o : outcome A) : outcome A :=
  match o with Raise e => if is_builtin_timeout e then Raise instead else Raise e | Return a => Return a end.

Lemma on_timeout_run {S A} (m : PyM S A) e s : on_timeout m e s = (translated e (fst (m s)), snd (m s)).
Proof. unfold on_timeout, try_base. destruct (m s) as [[a|e'] s']; simpl; [done|]. by destruct (is_builtin_timeout e'). Qed.

(** A call under [TimeoutPolicy] never lasts longer than the limit.  One that ends within it
    ends as the function does, except that a TimeoutError of the function itself is reported
    as if the limit had passed; one that would last longer raises the library's
    TimeoutError at the limit.  [TimeoutMiddleware] does the same with its own message. *)
Theorem timeout_policy_exact {A} tie repr timeout (func : PyM Q A) now o t :
  takes_time func → func now = (o, t) →
  let late := AppTimeoutError ("Operation timed out after " +:+ repr timeout +:+ "s") in
  let result := TimeoutPolicy_execute tie repr timeout func now in
  (snd result <= now + py_max 0 timeout)%Q ∧
  ((t - now < timeout)%Q → result = (translated late o, t)) ∧
  ((timeout < t - now)%Q → fst result = Raise late ∧ snd result == now + py_max 0 timeout) ∧
  (let late' := AppTimeoutError ("Use case timed out after " +:+ repr timeout +:+ "s") in
   let result' := TimeoutMiddleware_call tie repr timeout tt (λ _, func) now in
   snd result' = snd result ∧ ((t - now < timeout)%Q → fst result' = translated late' o) ∧
   ((timeout < t - now)%Q → fst result' = Raise late')).
Proof.
  intros Hc E late result. pose proof (wait_for_spec tie func timeout now Hc) as Hw. rewrite E in Hw.
  pose proof (Hc now) as Hmono. rewrite E in Hmono. simpl in Hmono.
  destruct Hw as (Hin & Hout & Hzero & Hcases & Hbound). unfold result, TimeoutPolicy_execute, TimeoutMiddleware_call.
  rewrite !on_timeout_run. simpl. split_and!; [apply Hbound | | | done | |].
  - intros Hlt. rewrite Hin by lra. done.
  - intros Hgt. destruct (Qlt_le_dec 0 timeout) as [Hp|Hn].
    + rewrite Hout by done. split; [done|]. simpl. destruct (py_max_spec 0 timeout) as [[_ ?]|[-> _]]; [lra | done].
    + rewrite Hzero by done. split; [done|]. simpl. destruct (py_max_spec 0 timeout) as [[-> _]|[_ ?]]; lra.
  - intros Hlt. by rewrite Hin by lra.
  - intros Hgt. destruct (Qlt_le_dec 0 timeout); [by rewrite Hout | by rewrite Hzero].
Qed.

(** [deadline_aware]: without a deadline the coroutine runs as it is; an expired deadline
    refuses it before it starts; otherwise it ends as it does if that is before the
    deadline, and at the deadline with DeadlineExceededError if not. *)
Theorem deadline_aware_exact {A} tie given context (coro : PyM Q A) now o t :
  takes_time coro → coro now = (o, t) →
  let result := deadline_aware tie given context coro now in
  let late := DeadlineExceededError "Deadline exceeded during execution" in
  match (match given with Some d => Some d | None => context end) with
  | None => result = (o, t)
  | Some dl =>
      let remaining := Deadline_remaining_seconds (utc_now now) dl in
      (Deadline_is_expired (utc_now now) dl = true → result = (Raise (DeadlineExceededError "Deadline already exceeded"), now)) ∧
      (Deadline_is_expired (utc_now now) dl = false →
         ((t - now < remaining)%Q → result = (translated late o, t)) ∧
         ((remaining < t - now)%Q → result = (Raise late, (now + remaining)%Q)) ∧ (snd result <= now + remaining)%Q)
  end.
Proof.
  intros Hc E result late. unfold result, deadline_aware.
  destruct (match given with Some d => Some d | None => context end) as [dl|]; [|done].
  unfold mbind, PyM_bind, reads. set (remaining := Deadline_remaining_seconds (utc_now now) dl).
  assert (Hrem : (Qle_bool remaining 0 = Deadline_is_expired (utc_now now) dl) ∧ (0 <= remaining)%Q).
  { unfold remaining, Deadline_remaining_seconds, Deadline_is_expired. set (z := (dl - utc_now now)%Z).
    assert (Hz : (dl <=? utc_now now)%Z = (z <=? 0)%Z) by (unfold z; apply eq_true_iff_eq; rewrite !Z.leb_le; lia). rewrite Hz.
    assert (Hq : inject_Z z / inject_Z 1000000 == inject_Z z * (1 # 1000000)) by (unfold Qdiv; apply Qmult_comp; reflexivity).
    pose proof (py_max_spec 0 (inject_Z z / inject_Z 1000000)) as Hm. revert Hm.
    generalize (py_max 0 (inject_Z z / inject_Z 1000000)). intros r Hm. rewrite Hq in Hm.
    assert (Hzq : (z <= 0)%Z ↔ (inject_Z z <= 0)%Q) by (by rewrite Zle_Qle). destruct Hm as [[Hm Hle]|[Hm Hlt]].
    - split; [|lra]. rewrite (proj2 (Z.leb_le z 0)) by (apply Hzq; lra). apply Qle_bool_iff. lra.
    - split; [|lra]. rewrite (proj2 (Z.leb_gt z 0)).
      + apply Qle_bool_false. lra.
      + apply Z.nle_gt. intros Hz0%Hzq. lra. }
  destruct Hrem as [Hexp Hnn]. fold remaining. rewrite <- Hexp. destruct (Qle_bool remaining 0) eqn:H0; (split; [|intros Hx; try done]); [done | done |].
  apply Qle_bool_false in H0. pose proof (wait_for_spec tie coro remaining now Hc) as Hw. rewrite E in Hw.
  destruct Hw as (Hin & Hout & _ & _ & Hbound). rewrite on_timeout_run. simpl. split_and!.
  - intros Hlt. by rewrite Hin.
  - intros Hgt. by rewrite Hout.
  - destruct (py_max_spec 0 remaining) as [[Hm ?]|[Hm _]]; rewrite Hm in Hbound; lra.
Qed.

(** The hooks of a shutdown, coroutines all of them, take no longer than the drain timeout,
    however long each would take and whether or not it raises. *)
Theorem drain_bounded tie (hooks : list (PyM Q unit)) drain now o t :
  Forall takes_time hooks → (∀ c now e, c ∈ hooks → fst (c now) = Raise e → is_Exception e = true) →
  GracefulShutdown_run_hooks id (wait_for tie)
    (fold_left (λ g c, GracefulShutdown_register (AsyncHook c) g) hooks (GracefulShutdown_init drain)) now = (o, t) →
  o = Return tt ∧ (now <= t <= now + py_max 0 drain)%Q.
Proof.
  intros Hall Hexn.
  assert (Hg : ∀ g, gs_hooks (fold_left (λ g c, GracefulShutdown_register (AsyncHook c) g) hooks g) = gs_hooks g ++ map AsyncHook hooks ∧
    gs_drain_timeout (fold_left (λ g c, GracefulShutdown_register (AsyncHook c) g) hooks g) = gs_drain_timeout g).
  { clear. induction hooks as [|c hooks IH]; intros g; simpl; [by rewrite app_nil_r|].
    destruct (IH (GracefulShutdown_register (AsyncHook c) g)) as [-> ->]. simpl. by rewrite <- app_assoc. }
  destruct (Hg (GracefulShutdown_init drain)) as [Hh Hd]. unfold GracefulShutdown_run_hooks. rewrite Hh, Hd. simpl. rewrite <- map_rev.
  assert (Hloop : ∀ deadline l s, Forall takes_time l → (∀ c now e, c ∈ l → fst (c now) = Raise e → is_Exception e = true) →
    ∃ s', run_hooks_loop id (wait_for tie) deadline (map AsyncHook l) s = (Return tt, s') ∧ (s <= s')%Q ∧ ((s' <= deadline)%Q ∨ s' == s)).
  { clear. intros deadline l. induction l as [|c l IH]; intros s Hl Hx; simpl; [exists s; split_and!; [done | lra | right; lra]|].
    apply Forall_cons in Hl as [Hc Hl]. unfold mbind at 1, PyM_bind at 1, reads. simpl.
    destruct (Qle_bool (deadline - s) 0) eqn:H0; [exists s; split_and!; [done | lra | right; lra]|]. apply Qle_bool_false in H0.
    pose proof (wait_for_spec tie c (deadline - s) s Hc) as Hw. destruct (c s) as [o1 t1] eqn:E.
    destruct Hw as (_ & _ & _ & Hcases & Hb). destruct (wait_for tie c (deadline - s) s) as [ow tw] eqn:Ew. simpl in Hcases, Hb.
    assert (Hmax : py_max 0 (deadline - s) == deadline - s) by (destruct (py_max_spec 0 (deadline - s)) as [[_ ?]|[? _]]; [lra | done]).
    assert (Hhook : run_hook (wait_for tie) (AsyncHook c) (deadline - s) s = (Return tt, tw)).
    { unfold run_hook, try_except, try_base. rewrite Ew. destruct ow as [[]|e]; [done|].
      assert (is_Exception e = true) as ->; [|done]. destruct Hcases as [He|He]; [|by injection He as ->].
      injection He as <- <-. apply (Hx c s); [by left | by rewrite E]. }
    destruct (IH tw Hl) as (s' & Hs' & Hle & Hor); [intros c' n e Hin; apply Hx; by right|].
    exists s'. unfold mbind, PyM_bind. rewrite Hhook. split_and!; [done | lra | left; destruct Hor; lra]. }
  destruct (rev hooks) as [|c l] eqn:Hr.
  - simpl. intros [= <- <-]. split; [done|]. destruct (py_max_spec 0 drain) as [[-> _]|[-> ?]]; lra.
  - intros Hrun. change (run_hooks_loop id (wait_for tie) (now + drain) (map AsyncHook (c :: l)) now = (o, t)) in Hrun.
    destruct (Hloop (now + drain) (c :: l) now)%Q as (s' & Hs' & Hle & Hor).
    + rewrite <- Hr. by apply Forall_rev.
    + intros c' n e Hin. apply Hexn. rewrite <- Hr in Hin. by apply list_elem_of_In, in_rev, list_elem_of_In.
    + rewrite Hs' in Hrun. injection Hrun as <- <-. split; [done|].
      destruct (py_max_spec 0 drain) as [[-> ?]|[-> ?]]; destruct Hor; lra.
Qed.

(** ** Theorems: hedging *)

Section HedgeTheorems.
Context {A : Type}.

Lemma hedge_loop_sorted (q : list (Q * (nat * outcome A))) latency : ∀ total errors,
  (length q <= total)%nat → StronglySorted (λ a b, (a.1 <= b.1)%Q) q →
  match hedge_loop total q.*2 latency errors with
  | inl w => ∃ t, (t, (hr_winner_index w, Return (hr_value w))) ∈ q ∧ ∀ t' i v, (t', (i, Return v)) ∈ q → (t <= t')%Q
  | inr es => (∀ t i v, (t, (i, Return v)) ∉ q) ∧ ∃ raised, es = errors ++ raised ∧ Forall2 (λ p e, p.2.2 = Raise e) q raised
  end.
Proof.
  induction q as [|[t [i o]] q IH]; intros total errors Hl Hs.
  { assert (hedge_loop total ([] : list (Q * (nat * outcome A))).*2 latency errors = inr errors) as -> by (by destruct total).
    split; [set_solver|]. exists []. by rewrite app_nil_r. }
  apply StronglySorted_inv in Hs as [Hs Hmin]. destruct total as [|total]; simpl in Hl; [lia|]. rewrite fmap_cons. cbn [hedge_loop snd].
  destruct o as [v|e].
  - exists t. split; [by left|]. intros t' i' v' Hin. apply elem_of_cons in Hin as [[= -> _ _]|Hin]; [lra|].
    rewrite Forall_forall in Hmin. exact (Hmin _ Hin).
  - specialize (IH total (errors ++ [e]) ltac:(lia) Hs). destruct (hedge_loop total q.*2 latency (errors ++ [e])) as [w|es].
    + destruct IH as (t' & Hin & Hle). exists t'. split; [by right|]. intros t'' i' v'.
      intros [Heq|Hin']%elem_of_cons; [discriminate Heq | by eapply Hle].
    + destruct IH as (Hno & raised & -> & Hr). split.
      * intros t' i' v' [Heq|Hin]%elem_of_cons; [discriminate Heq | by destruct (Hno t' i' v')].
      * exists (e :: raised). rewrite <- app_assoc. split; [done|]. by constructor.
Qed.

(** Hedging, for every order in which ends at the same time arrive: if any run succeeds, the
    result is that of a run no other successful run ends before, the later starts of the
    hedges included; if all fail, the error is that of a run that ended first. *)
Theorem hedge_fastest delay_ms (runs : list (Run A)) queue max_hedges latency :
  length runs = S max_hedges → arrival (hedge_puts delay_ms runs) queue →
  match HedgePolicy_execute max_hedges queue.*2 latency with
  | Return w => ∃ t, (t, (hr_winner_index w, Return (hr_value w))) ∈ hedge_puts delay_ms runs ∧
      ∀ t' i v, (t', (i, Return v)) ∈ hedge_puts delay_ms runs → (t <= t')%Q
  | Raise e => (∀ t i v, (t, (i, Return v)) ∉ hedge_puts delay_ms runs) ∧
      ∃ t i, (t, (i, Raise e)) ∈ hedge_puts delay_ms runs ∧ ∀ p, p ∈ hedge_puts delay_ms runs → (t <= p.1)%Q
  end.
Proof.
  intros Hlen [Hperm Hsort].
  assert (Hss : StronglySorted (λ a b, (a.1 <= b.1)%Q) queue).
  { apply Sorted_StronglySorted; [|done]. intros x y z ? ?. lra. }
  assert (Hlq : length queue = S max_hedges) by (rewrite (Permutation_length Hperm); unfold hedge_puts; by rewrite length_imap).
  pose proof (hedge_loop_sorted queue latency (S max_hedges) [] ltac:(lia) Hss) as Hloop.
  unfold HedgePolicy_execute. change (1 + max_hedges)%nat with (S max_hedges).
  destruct (hedge_loop (S max_hedges) queue.*2 latency []) as [w|es].
  - destruct Hloop as (t & Hin & Hle). exists t. split; [by rewrite <- Hperm|]. intros t' i v. rewrite <- Hperm. apply Hle.
  - destruct Hloop as (Hno & raised & -> & Hr). simpl. destruct queue as [|[t [i o]] queue]; [done|].
    inversion Hr as [|? e ? raised' He Hrest]; subst. simpl in He. subst o. split; [intros t' i' v'; by rewrite <- Hperm|].
    exists t, i. rewrite <- Hperm. split; [by left|]. intros p. rewrite <- Hperm. intros [->|Hp]%elem_of_cons; [simpl; lra|].
    apply StronglySorted_inv in Hss as [_ Hmin]. rewrite Forall_forall in Hmin. exact (Hmin p Hp).
Qed.

End HedgeTheorems.

(** ** Theorems: the replay loop and signals *)

(** What the cycles and the pauses of a loop will do, and the pauses made. *)
Definition cycles : Type := list (outcome Z * outcome unit) * list Q.
Definition next_batch : PyM cycles Z := λ w, (default (Return 0%Z) (fst <$> head w.1), w).
Definition next_pause (interval : Q) : PyM cycles unit := λ w, (default (Return tt) (snd <$> head w.1), (tail w.1, w.2 ++ [interval])).

Definition survivable {A} (o : outcome A) : Prop :=
  match o with Return _ => True | Raise e => is_Exception e = true ∧ isinstance e "CancelledError" = false end.

(** The loop goes on over every failed cycle with a pause of the interval after each, until
    it is cancelled: in a pause it then ends normally, in a cycle with CancelledError. *)
Theorem replay_loop_survives interval (script : list (outcome Z * outcome unit)) last more slept n :
  Forall (λ c, survivable c.1 ∧ c.2 = Return tt) script →
  let loop := DeadLetterReplayScheduler_loop next_batch next_pause in
  loop (length script) interval (script, slept) = (Return tt, ([], slept ++ replicate (length script) interval)) ∧
  (survivable last → loop (length script + S n)%nat interval (script ++ (last, Raise CancelledError) :: more, slept) =
    (Return tt, (more, slept ++ replicate (S (length script)) interval))) ∧
  (loop (length script + S n)%nat interval (script ++ (Raise CancelledError, Return tt) :: more, slept) =
    (Raise CancelledError, ((Raise CancelledError, Return tt) :: more, slept ++ replicate (length script) interval))).
Proof.
  intros Hall loop.
  assert (Hturn : ∀ c tl slept, survivable c.1 → loop_turn next_batch next_pause interval (c :: tl, slept) =
    (match c.2 with Return _ => Return true | Raise e => if isinstance e "CancelledError" then Return false else Raise e end, (tl, slept ++ [interval]))).
  { intros [b p] tl sl Hb. unfold loop_turn, try_base, mbind, PyM_bind, next_batch, next_pause. simpl in *.
    destruct b as [z|e]; simpl; [|destruct Hb as [-> ->]]; destruct p as [[]|e']; simpl; try done; by destruct (isinstance e' "CancelledError"). }
  assert (Hrun : ∀ m tl slept, loop (length script + m)%nat interval (script ++ tl, slept) = loop m interval (tl, slept ++ replicate (length script) interval)).
  { clear slept. induction script as [|[b p] script IH]; intros m tl slept; [by rewrite app_nil_r|]. apply Forall_cons in Hall as [[Hb Hp] Hall].
    simpl in Hp. subst p. unfold loop. cbn [length Nat.add app]. cbn [DeadLetterReplayScheduler_loop]. unfold mbind, PyM_bind.
    rewrite Hturn by done. cbn [snd fst]. fold loop. rewrite IH by done. by rewrite <- app_assoc. }
  split_and!.
  - specialize (Hrun 0%nat [] slept). rewrite Nat.add_0_r, app_nil_r in Hrun. exact Hrun.
  - intros Hl. rewrite Hrun. unfold loop. cbn [DeadLetterReplayScheduler_loop]. unfold mbind, PyM_bind.
    rewrite Hturn by done. simpl. do 2 f_equal. rewrite <- app_assoc. f_equal. by rewrite <- replicate_cons_app.
  - rewrite Hrun. done.
Qed.

(** However often signals arrive, the first that is installed starts the shutdown and is the
    one reported; signals the loop refused to install and later ones change nothing. *)
Theorem first_signal_triggers {W} add signals installed (g : GracefulShutdown (W := W)) sigs :
  GracefulShutdown_install add signals = Return installed → gs_event g = false →
  installed = List.filter (λ s, match add s with Return _ => true | Raise _ => false end) signals ∧
  let g' := fold_left (deliver_signal installed) sigs g in
  gs_hooks g' = gs_hooks g ∧
  match List.find (λ s, str_in s installed) sigs with
  | None => g' = g
  | Some s => gs_event g' = true ∧ gs_triggered_by g' = Some s
  end.
Proof.
  intros Hi He. split.
  - revert installed Hi. induction signals as [|s signals IH]; cbn [GracefulShutdown_install List.filter]; [by intros ? [= <-]|].
    intros installed. destruct (add s) as [u|e].
    + destruct (GracefulShutdown_install add signals) as [l|e']; [|done]. intros [= <-]. f_equal. by apply IH.
    + destruct (isinstance_any e ["ValueError"; "NotImplementedError"]); [apply IH | done].
  - clear Hi. assert (Hset : ∀ g : GracefulShutdown (W := W), gs_event g = true → fold_left (deliver_signal installed) sigs g = g).
    { induction sigs as [|s sigs IH]; intros g1 Hg; simpl; [done|].
      assert (deliver_signal installed g1 s = g1) as -> by (unfold deliver_signal, GracefulShutdown_handle_signal; rewrite Hg; by destruct (str_in s installed)).
      by apply IH. }
    revert g He Hset. induction sigs as [|s sigs IH]; intros g He Hset; [done|]. cbn [fold_left List.find].
    assert (Hstop : ∀ g1 : GracefulShutdown (W := W), gs_event g1 = true → fold_left (deliver_signal installed) sigs g1 = g1).
    { intros g1 Hg1. specialize (Hset g1 Hg1). cbn [fold_left] in Hset.
      assert (deliver_signal installed g1 s = g1) as Hd by (unfold deliver_signal, GracefulShutdown_handle_signal; rewrite Hg1; by destruct (str_in s installed)).
      by rewrite Hd in Hset. }
    destruct (str_in s installed) eqn:Hs.
    + assert (deliver_signal installed g s = mkShutdown (gs_drain_timeout g) (gs_hooks g) true (Some s)) as ->
        by (unfold deliver_signal, GracefulShutdown_handle_signal; by rewrite Hs, He).
      rewrite Hstop by done. done.
    + assert (deliver_signal installed g s = g) as -> by (unfold deliver_signal; by rewrite Hs). by apply IH.
Qed.

(** Calls of [start] and [stop]: a task is kept exactly while the scheduler is running, and a
    new one is made only by the first [start] and by a [start] after a [stop]. *)
Inductive replay_call := StartCall | StopCall.
Definition replay_do (s : ReplayTask) (c : replay_call) : ReplayTask :=
  match c with
  | StartCall => DeadLetterReplayScheduler_start s
  | StopCall => snd (DeadLetterReplayScheduler_stop (λ _, Raise CancelledError) s)
  end.

(** The runs of consecutive starts. *)
Fixpoint start_groups (running : bool) (cs : list replay_call) : nat :=
  match cs with
  | [] => 0
  | StartCall :: cs' => (if running then 0 else 1) + start_groups true cs'
  | StopCall :: cs' => start_groups false cs'
  end.

Theorem replay_one_task (cs : list replay_call) :
  let s := fold_left replay_do cs replay_idle in
  (rp_running s = true ↔ ∃ t, rp_task s = Some t ∧ S t = rp_created s) ∧
  (rp_running s = false ↔ rp_task s = None) ∧ rp_created s = start_groups false cs.
Proof.
  assert (H : ∀ cs s, (if rp_running s then ∃ t, rp_task s = Some t ∧ S t = rp_created s else rp_task s = None) →
    let s' := fold_left replay_do cs s in
    (if rp_running s' then ∃ t, rp_task s' = Some t ∧ S t = rp_created s' else rp_task s' = None) ∧
    rp_created s' = (rp_created s + start_groups (rp_running s) cs)%nat).
  { clear cs. induction cs as [|[|] cs IH]; intros s Hs; simpl; [split; [done | lia]| |].
    - unfold DeadLetterReplayScheduler_start. destruct (rp_running s) eqn:Hr.
      + specialize (IH s). rewrite Hr in IH. apply IH, Hs.
      + destruct (IH (mkReplay true (Some (rp_created s)) (S (rp_created s)))) as [H1 H2]; [by eexists|].
        split; [exact H1|]. rewrite H2. simpl. lia.
    - unfold DeadLetterReplayScheduler_stop.
      assert (snd (match rp_task s with None => (Return tt, mkReplay false None (rp_created s))
        | Some t => (Return tt, mkReplay false None (rp_created s)) end : outcome unit * ReplayTask) = mkReplay false None (rp_created s)) as Heq
        by (by destruct (rp_task s)).
      simpl in *. rewrite Heq. by apply (IH (mkReplay false None (rp_created s))). }
  intros s. destruct (H cs replay_idle eq_refl) as [H1 H2]. fold s in H1, H2. split_and!; [| |exact H2].
  - destruct (rp_running s); [by split|]. split; [done|]. intros (t & Ht & _). congruence.
  - destruct (rp_running s); [|by split]. split; [done|]. destruct H1 as (t & Ht & _). congruence.
Qed.

(** ** Witnesses *)

Definition lasts {A} (d : Q) (o : outcome A) : PyM Q A := λ now, (o, (now + d)%Q).

Lemma timeout_policy_exact_witness :
  TimeoutPolicy_execute true (λ _, "2.0") 2 (lasts 1 (Return 7%Z)) 5 = (Return 7%Z, (5 + 1)%Q) ∧
  fst (TimeoutPolicy_execute true (λ _, "2.0") 2 (lasts 3 (Return 7%Z)) 5) = Raise (AppTimeoutError "Operation timed out after 2.0s").
Proof.
  assert (Ht : ∀ d (o : outcome Z), (0 <= d)%Q → takes_time (lasts d o)) by (intros d o Hd now; simpl; lra).
  split.
  - apply (timeout_policy_exact true (λ _, "2.0") 2 (lasts 1 (Return 7%Z)) 5 (Return 7%Z) (5 + 1)); [by apply Ht | done | lra].
  - apply (timeout_policy_exact true (λ _, "2.0") 2 (lasts 3 (Return 7%Z)) 5 (Return 7%Z) (5 + 3)); [by apply Ht | done | lra].
Defined.

Lemma deadline_aware_exact_witness :
  deadline_aware true (Some 4000000%Z) None (lasts 1 (Return 7%Z)) 5 = (Raise (DeadlineExceededError "Deadline already exceeded"), 5%Q).
Proof.
  apply (deadline_aware_exact true (Some 4000000%Z) None (lasts 1 (Return 7%Z)) 5 (Return 7%Z) (5 + 1)); [intros now; simpl; lra | done | done].
Defined.

Lemma drain_bounded_witness :
  fst (GracefulShutdown_run_hooks id (wait_for true)
    (fold_left (λ g c, GracefulShutdown_register (AsyncHook c) g) [lasts 20 (Return tt); lasts 20 (Raise (ValueError "x"))] (GracefulShutdown_init 30)) 0) = Return tt.
Proof.
  destruct (GracefulShutdown_run_hooks _ _ _ _) as [o t] eqn:E.
  destruct (drain_bounded true [lasts 20 (Return tt); lasts 20 (Raise (ValueError "x"))] 30 0 o t) as [-> _]; [| |exact E|done].
  - repeat constructor; intros now; simpl; lra.
  - intros c now e Hin. apply elem_of_cons in Hin as [->|Hin]; [done|]. apply elem_of_cons in Hin as [->|Hin]; [by intros [= <-]|].
    by apply not_elem_of_nil in Hin.
Defined.

Lemma hedge_fastest_witness :
  match HedgePolicy_execute 1 [(1%nat, Return 9%Z); (0%nat, Return 7%Z)] 0 with Return w => hr_winner_index w = 1%nat | Raise _ => False end.
Proof.
  pose proof (hedge_fastest 100 [mkRun 5 (Return 7%Z); mkRun 1 (Return 9%Z)]
    [(100 / 1000 * inject_Z (Z.of_nat 1) + 1, (1%nat, Return 9%Z)); (0 + 5, (0%nat, Return 7%Z))]%Q 1 0 eq_refl) as H.
  simpl in H. destruct H as (t & Hin & _); [|done]. split; [apply Permutation_swap|].
  constructor; [repeat constructor|]. constructor. vm_compute. discriminate.
Defined.

Lemma replay_loop_survives_witness :
  DeadLetterReplayScheduler_loop next_batch next_pause 2 60
    ([(Return 3%Z, Return tt); (Raise (ValueError "db"), Return tt)], []) = (Return tt, ([], [60; 60]%Q)).
Proof.
  apply (replay_loop_survives 60 [(Return 3%Z, Return tt); (Raise (ValueError "db"), Return tt)] (Return 0%Z) [] [] 0).
  repeat constructor.
Defined.

Lemma first_signal_triggers_witness :
  gs_triggered_by (fold_left (deliver_signal ["SIGTERM"]) ["SIGINT"; "SIGTERM"; "SIGTERM"] (GracefulShutdown_init (W := unit) 30)) = Some "SIGTERM".
Proof.
  apply (first_signal_triggers (λ s, if String.eqb s "SIGTERM" then Return tt else Raise (ValueError s)) ["SIGTERM"; "SIGINT"] ["SIGTERM"]
    (GracefulShutdown_init (W := unit) 30) ["SIGINT"; "SIGTERM"; "SIGTERM"]); reflexivity.
Defined.
