(* ===== verification/Lifetimes.v ===== *)
(** * Opening and closing the clients of services

    The constructors and [__aenter__]/[__aexit__] of [adapters/azure_servicebus],
    [adapters/azure_blob], [adapters/gcp_pubsub], [adapters/gcs] and the consumer of
    [adapters/pulsar]; sending and receiving through them is in [Brokers] and
    [ObjectStores].  The client libraries are one class of operations that open and
    close connections, with the set of live ones as its view ([Connections]); credentials of
    the identity library hold connections too. *)
From S2P Require Import Prelude PyString.

(** ** Connections *)

Class Connections (W : Type) := {
  open_conn : string → list (string * string) → PyM W nat;
  resource_path : nat → string → string → PyM W string;
  open_child : nat → string → string → PyM W nat;
  close_conn : nat → PyM W unit;
}.

(** Opening makes a connection that was not live, or raises and leaves things as they are.
    Closing ends the connection; when it raises it may or may not have. *)
Class ConnectionsSpec (W : Type) `{Connections W} := {
  live : W → gset nat;
  open_spec kind args w :
    match open_conn kind args w with
    | (Return c, w') => (c ∉ live w) ∧ live w' = {[c]} ∪ live w
    | (Raise _, w') => live w' = live w
    end;
  path_spec c a b w : live (snd (resource_path c a b w)) = live w;
  child_spec p a b w :
    match open_child p a b w with
    | (Return c, w') => (c ∉ live w) ∧ live w' = {[c]} ∪ live w
    | (Raise _, w') => live w' = live w
    end;
  close_spec c w :
    match close_conn c w with
    | (Return _, w') => live w' = live w ∖ {[c]}
    | (Raise _, w') => live w' = live w ∨ live w' = live w ∖ {[c]}
    end;
}.

Section Clients.
Context {W : Type} `{Connections W}.

(** [async with x: body]: the exit runs however the body ends. *)
Definition async_with {S A} (aenter aexit : PyM S unit) (body : PyM S A) : PyM S A :=
  aenter ;; try_finally body aexit.

(** An optional text that is [None] or empty is absent. *)
Definition present (s : option string) : option string := match s with Some "" | None => None | Some t => Some t end.

(** [try: x.close() except Exception: pass]. *)
Definition close_quietly (c : nat) : PyM W unit := try_except (close_conn c) (λ _, mret tt).

(** ** Azure *)

Record AzureClient := mkAzure { az_address : string; az_entity : string; az_connection_string : option string; az_client : option nat }.

Definition set_az (c : option nat) (a : AzureClient) : AzureClient := mkAzure (az_address a) (az_entity a) (az_connection_string a) c.

Definition AzureServiceBusProducer_init (fully_qualified_namespace queue_or_topic : string) (connection_string : option string) : AzureClient :=
  mkAzure fully_qualified_namespace queue_or_topic connection_string None.
Definition AzureBlobObjectStore_init (account_url container_name : string) (connection_string : option string) : AzureClient :=
  mkAzure account_url container_name connection_string None.

(** The three classes open their client in the same way: from the connection string, or with
    a new default credential. *)
Definition azure_aenter (library : string) : PyM (AzureClient * W) unit :=
  a ← on_fst (reads id);
  match present (az_connection_string a) with
  | Some cs =>
      c ← on_snd (open_conn library [("connection_string", cs)]);
      on_fst (updates (set_az (Some c)))
  | None =>
      credential ← on_snd (open_conn "DefaultAzureCredential" []);
      c ← on_snd (open_conn library [("address", az_address a); ("credential", str_of_int (Z.of_nat credential))]);
      on_fst (updates (set_az (Some c)))
  end.

Definition azure_aexit : PyM (AzureClient * W) unit :=
  a ← on_fst (reads id);
  match az_client a with
  | None => mret tt
  | Some c => on_snd (close_conn c) ;; on_fst (updates (set_az None))
  end.

Definition AzureServiceBusProducer_aenter : PyM (AzureClient * W) unit := azure_aenter "ServiceBusClient".
Definition AzureServiceBusProducer_aexit : PyM (AzureClient * W) unit := azure_aexit.
Definition AzureServiceBusConsumer_aenter : PyM (AzureClient * W) unit := azure_aenter "ServiceBusClient".
Definition AzureServiceBusConsumer_aexit : PyM (AzureClient * W) unit := azure_aexit.
Definition AzureBlobObjectStore_aenter : PyM (AzureClient * W) unit := azure_aenter "BlobServiceClient".
Definition AzureBlobObjectStore_aexit : PyM (AzureClient * W) unit := azure_aexit.

(** [_receiver]: a subscription of a topic, or a queue. *)
Inductive receiver := SubscriptionReceiver (topic subscription : string) | QueueReceiver (queue : string).
Definition AzureServiceBusConsumer_receiver (a : AzureClient) (subscription : option string) : receiver :=
  match present subscription with
  | Some s => SubscriptionReceiver (az_entity a) s
  | None => QueueReceiver (az_entity a)
  end.

(** ** Google *)

Record GcpClient := mkGcp {
  gc_project : option string;
  gc_name : string;
  gc_credentials : option string;
  gc_client : option nat;
  gc_path : string;
}.

Definition set_gc (c : option nat) (g : GcpClient) : GcpClient := mkGcp (gc_project g) (gc_name g) (gc_credentials g) c (gc_path g).
Definition set_path (p : string) (g : GcpClient) : GcpClient := mkGcp (gc_project g) (gc_name g) (gc_credentials g) (gc_client g) p.

Definition gcp_kwargs (key : string) (v : option string) : list (string * string) :=
  match present v with Some t => [(key, t)] | None => [] end.

(** A Pub/Sub client is opened, then asked for the path of its topic or subscription. *)
Definition pubsub_aenter (library : string) : PyM (GcpClient * W) unit :=
  g ← on_fst (reads id);
  c ← on_snd (open_conn library (gcp_kwargs "credentials" (gc_credentials g)));
  on_fst (updates (set_gc (Some c))) ;;
  path ← on_snd (resource_path c (default "" (gc_project g)) (gc_name g));
  on_fst (updates (set_path path)).

Definition gcp_aexit : PyM (GcpClient * W) unit :=
  g ← on_fst (reads id);
  match gc_client g with
  | None => mret tt
  | Some c => on_snd (close_quietly c) ;; on_fst (updates (set_gc None))
  end.

Definition PubSubProducer_aenter : PyM (GcpClient * W) unit := pubsub_aenter "PublisherClient".
Definition PubSubProducer_aexit : PyM (GcpClient * W) unit := gcp_aexit.
Definition PubSubSubscriber_aenter : PyM (GcpClient * W) unit := pubsub_aenter "SubscriberClient".
Definition PubSubSubscriber_aexit : PyM (GcpClient * W) unit := gcp_aexit.

(** [GCSObjectStore]: the bucket is a name, no request is made for it. *)
Definition GCSObjectStore_aenter : PyM (GcpClient * W) unit :=
  g ← on_fst (reads id);
  c ← on_snd (open_conn "storage.Client" (gcp_kwargs "project" (gc_project g) ++ gcp_kwargs "credentials" (gc_credentials g)));
  on_fst (updates (set_gc (Some c))) ;;
  on_fst (updates (set_path (gc_name g))).
Definition GCSObjectStore_aexit : PyM (GcpClient * W) unit :=
  g ← on_fst (reads id);
  match gc_client g with
  | None => mret tt
  | Some c => on_snd (close_quietly c) ;; on_fst (updates (set_gc None)) ;; on_fst (updates (set_path ""))
  end.

(** ** Pulsar *)

Record PulsarConsumer := mkPulsar {
  pu_service_url : string; pu_topic : string; pu_subscription : string;
  pu_client : option nat; pu_consumer : option nat;
}.

Definition PulsarConsumer_init (service_url topic subscription : string) : PulsarConsumer :=
  mkPulsar service_url topic subscription None None.

Definition set_pu_client (c : nat) (p : PulsarConsumer) : PulsarConsumer :=
  mkPulsar (pu_service_url p) (pu_topic p) (pu_subscription p) (Some c) (pu_consumer p).
Definition set_pu_consumer (c : nat) (p : PulsarConsumer) : PulsarConsumer :=
  mkPulsar (pu_service_url p) (pu_topic p) (pu_subscription p) (pu_client p) (Some c).

Definition or_else (given : option string) (dflt : string) : string := default dflt (present given).

Definition PulsarConsumer_connect (service_url topic subscription : option string) : PyM (PulsarConsumer * W) unit :=
  p ← on_fst (reads id);
  let url := or_else service_url (pu_service_url p) in
  let t := or_else topic (pu_topic p) in
  let s := or_else subscription (pu_subscription p) in
  c ← on_snd (open_conn "pulsar.Client" [("service_url", url)]);
  on_fst (updates (set_pu_client c)) ;;
  consumer ← on_snd (open_child c t s);
  on_fst (updates (set_pu_consumer consumer)).

Definition close_opt (c : option nat) : PyM W unit := match c with None => mret tt | Some c => close_quietly c end.

(** [close] keeps both references. *)
Definition PulsarConsumer_close : PyM (PulsarConsumer * W) unit :=
  p ← on_fst (reads id);
  on_snd (close_opt (pu_consumer p)) ;;
  on_snd (close_opt (pu_client p)).

Definition PulsarConsumer_aenter : PyM (PulsarConsumer * W) unit :=
  p ← on_fst (reads id);
  match pu_consumer p with None => PulsarConsumer_connect None None None | Some _ => mret tt end.

Definition PulsarConsumer_aexit : PyM (PulsarConsumer * W) unit := PulsarConsumer_close.

End Clients.

(** ** Theorems *)

Section LifetimeTheorems.
Context {W : Type} `{ConnectionsSpec W}.

(** Case analysis on the next connection that is opened. *)
Ltac open_case c w1 Ho Eo :=
  simpl; match goal with
  | |- context [open_conn ?k ?l ?x] => pose proof (open_spec k l x) as Ho; destruct (open_conn k l x) as [[c|?e] w1] eqn:Eo
  end.

(** A body that uses the client and opens and closes nothing itself. *)
Definition keeps {S A} (body : PyM (S * W) A) : Prop :=
  ∀ s w, fst (snd (body (s, w))) = s ∧ live (snd (snd (body (s, w)))) = live w.

Definition can_close : Prop := ∀ c w, ∃ w', close_conn c w = (Return tt, w').
Definition can_open : Prop := ∀ kind args w, ∃ c w', open_conn kind args w = (Return c, w').

(** A block whose exit does not raise ends as its body does, in the state the exit leaves. *)
Lemma block_ends {S A} (body : PyM (S * W) A) (fin : PyM (S * W) unit) s w :
  keeps body → (∀ v, fst (fin (s, v)) = Return tt) →
  ∃ v, live v = live w ∧ snd (try_finally body fin (s, w)) = snd (fin (s, v)) ∧ fst (try_finally body fin (s, w)) = fst (body (s, w)).
Proof.
  intros Hk Hf. destruct (Hk s w) as [Hs Hl]. unfold try_finally.
  destruct (body (s, w)) as [o [s1 w1]]. simpl in *. subst s1. exists w1. specialize (Hf w1).
  destruct (fin (s, w1)) as [o' t]. simpl in Hf. subst o'. by destruct o.
Qed.

Lemma azure_exit_run a c v : can_close → az_client a = Some c →
  ∃ w', azure_aexit (a, v) = (Return tt, (set_az None a, w')) ∧ live w' = live v ∖ {[c]}.
Proof.
  intros Hc Ha. destruct (Hc c v) as [w' Hw]. pose proof (close_spec c v) as Hl. rewrite Hw in Hl.
  exists w'. split; [|done]. unfold azure_aexit, mbind, PyM_bind, on_fst, on_snd, reads, updates. simpl. rewrite Ha. simpl. by rewrite Hw.
Qed.

(** Using an Azure client: afterwards the adapter holds no client, whether the body raised or
    not, and with a connection string no connection is left; without one every use leaves the
    credential it made open. *)
Theorem azure_block {A} library a w (body : PyM (AzureClient * W) A) :
  az_client a = None → keeps body → can_close →
  let '(o, (a', w')) := async_with (azure_aenter library) azure_aexit body (a, w) in
  az_client a' = None ∧
  (present (az_connection_string a) ≠ None → live w' = live w) ∧
  (present (az_connection_string a) = None → can_open →
     (∃ credential, (credential ∉ live w) ∧ live w' = {[credential]} ∪ live w)).
Proof.
  intros Ha Hk Hc. unfold async_with, azure_aenter, mbind, PyM_bind, on_fst, on_snd, reads, updates. simpl.
  destruct (present (az_connection_string a)) as [cs|].
  - open_case c w1 Ho Eo; simpl; [|by split_and!]. destruct Ho as [Hn Hl].
    destruct (block_ends body azure_aexit (set_az (Some c) a) w1 Hk) as (v & Hv & Hend & _).
    { intros v. destruct (azure_exit_run (set_az (Some c) a) c v Hc eq_refl) as (w' & -> & _). done. }
    destruct (azure_exit_run (set_az (Some c) a) c v Hc eq_refl) as (w' & Hx & Hlw). rewrite Hx in Hend.
    destruct (try_finally body azure_aexit _) as [o [a' w'']]. simpl in Hend. injection Hend as -> ->.
    split_and!; [done | intros _; rewrite Hlw, Hv, Hl; set_solver | done].
  - open_case cr w1 Hcr Ecr; simpl.
    2:{ split_and!; [done..|]. intros _ Hop. destruct (Hop "DefaultAzureCredential" [] w) as (? & ? & ?). congruence. }
    destruct Hcr as [Hcn Hcl]. open_case c w2 Ho Eo; simpl.
    2:{ split_and!; [done..|]. intros _ Hop.
        match type of Eo with open_conn ?k ?l ?x = _ => destruct (Hop k l x) as (? & ? & ?) end. congruence. }
    destruct Ho as [Hn Hl]. destruct (block_ends body azure_aexit (set_az (Some c) a) w2 Hk) as (v & Hv & Hend & _).
    { intros v. destruct (azure_exit_run (set_az (Some c) a) c v Hc eq_refl) as (w' & -> & _). done. }
    destruct (azure_exit_run (set_az (Some c) a) c v Hc eq_refl) as (w' & Hx & Hlw). rewrite Hx in Hend.
    destruct (try_finally body azure_aexit _) as [o [a' w'']]. simpl in Hend. injection Hend as -> ->.
    split_and!; [done | done |]. intros _ _. exists cr. split; [done|]. rewrite Hlw, Hv, Hl, Hcl. rewrite Hcl in Hn. set_solver.
Qed.

Lemma quiet_close c v : (∀ w e w', close_conn c w = (Raise e, w') → is_Exception e = true) →
  ∃ w', close_quietly c v = (Return tt, w') ∧ (live w' = live v ∖ {[c]} ∨ live w' = live v).
Proof.
  intros Hx. unfold close_quietly, try_except, try_base. pose proof (close_spec c v) as Hl.
  destruct (close_conn c v) as [[[]|e] w'] eqn:E; [by eauto|]. rewrite (Hx _ _ _ E). exists w'. split; [done|]. tauto.
Qed.

(** Using a Pub/Sub client, when closing raises ordinary exceptions at most: once entered, the
    block ends as its body does and the adapter holds no client afterwards.  When the client
    cannot name its topic, entering raises with the client open, and as the block is not
    entered nothing closes it. *)
Theorem pubsub_block {A} library g w (body : PyM (GcpClient * W) A) :
  gc_client g = None → keeps body → (∀ c w e w', close_conn c w = (Raise e, w') → is_Exception e = true) →
  let '(o, (g', w')) := async_with (pubsub_aenter library) gcp_aexit body (g, w) in
  match pubsub_aenter library (g, w) with
  | (Return _, s1) => o = fst (body s1) ∧ gc_client g' = None ∧ (can_close → live w' = live w)
  | (Raise e, (g1, w1)) => o = Raise e ∧ g' = g1 ∧ w' = w1 ∧
      (live w' = live w ∨ ∃ c, gc_client g' = Some c ∧ (c ∈ live w') ∧ c ∉ live w)
  end.
Proof.
  intros Hg Hk Hx. unfold async_with, mbind at 1, PyM_bind at 1.
  unfold pubsub_aenter, mbind, PyM_bind, on_fst, on_snd, reads, updates. simpl.
  open_case c w1 Ho Eo; simpl; [|by auto]. destruct Ho as [Hn Hl].
  pose proof (path_spec c (default "" (gc_project g)) (gc_name g) w1) as Hp.
  destruct (resource_path c _ _ w1) as [[path|e] w2]; simpl in *.
  2:{ split_and!; [done..|]. right. exists c. rewrite Hp, Hl. set_solver. }
  set (g1 := set_path path (set_gc (Some c) g)).
  assert (Hexit : ∀ v, ∃ w', gcp_aexit (g1, v) = (Return tt, (set_gc None g1, w')) ∧ (can_close → live w' = live v ∖ {[c]})).
  { intros v. destruct (quiet_close c v (Hx c)) as (w' & Hq & _). exists w'. split.
    - unfold gcp_aexit, mbind, PyM_bind, on_fst, on_snd, reads, updates. simpl. by rewrite Hq.
    - intros Hc. destruct (Hc c v) as [w3 Hw3]. pose proof (close_spec c v) as Hs. rewrite Hw3 in Hs.
      unfold close_quietly, try_except, try_base in Hq. rewrite Hw3 in Hq. injection Hq as <-. done. }
  destruct (block_ends body gcp_aexit g1 w2 Hk) as (v & Hv & Hend & Hout).
  { intros v. by destruct (Hexit v) as (w' & -> & _). }
  destruct (Hexit v) as (w' & Hx' & Hlw). rewrite Hx' in Hend. destruct (try_finally body gcp_aexit _) as [o [g' w'']].
  simpl in *. injection Hend as -> ->. split_and!; [done | done |]. intros Hc. rewrite Hlw, Hv, Hp, Hl by done. set_solver.
Qed.

(** A Pulsar consumer used twice: the first block leaves no connection behind, and keeps the references; the second
    one opens nothing, so its body runs with a consumer that is closed. *)
Theorem pulsar_reenter_closed {A} p w (body : PyM (PulsarConsumer * W) A) p1 w1 o1 :
  pu_consumer p = None → keeps body → can_close → can_open → (∀ c t s w, ∃ c' w', open_child c t s w = (Return c', w')) →
  async_with PulsarConsumer_aenter PulsarConsumer_aexit body (p, w) = (o1, (p1, w1)) →
  live w1 = live w ∧ ∃ consumer, pu_consumer p1 = Some consumer ∧ (consumer ∉ live w1) ∧
  PulsarConsumer_aenter (p1, w1) = (Return tt, (p1, w1)).
Proof.
  intros Hp Hk Hc Hop Hch. unfold async_with, mbind at 1, PyM_bind at 1, PulsarConsumer_aenter.
  unfold mbind, PyM_bind, on_fst, on_snd, reads, updates. simpl. rewrite Hp.
  unfold PulsarConsumer_connect, or_else, mbind, PyM_bind, on_fst, on_snd, reads, updates. simpl.
  open_case c w2 Ho Eo; simpl.
  2:{ match type of Eo with open_conn ?k ?l ?x = _ => destruct (Hop k l x) as (? & ? & ?) end. congruence. }
  destruct Ho as [Hn Hl].
  destruct (Hch c (pu_topic p) (pu_subscription p) w2) as (k & w3 & Hk3).
  pose proof (child_spec c (pu_topic p) (pu_subscription p) w2) as Hcs. rewrite Hk3 in Hcs. destruct Hcs as [Hkn Hkl]. rewrite Hk3. simpl.
  set (p2 := set_pu_consumer k (set_pu_client c p)).
  assert (Hexit : ∀ v, ∃ w', PulsarConsumer_aexit (p2, v) = (Return tt, (p2, w')) ∧ live w' = live v ∖ {[k]} ∖ {[c]}).
  { intros v. unfold PulsarConsumer_aexit, PulsarConsumer_close, mbind, PyM_bind, on_fst, on_snd, reads, close_opt, close_quietly, try_except, try_base. simpl.
    destruct (Hc k v) as [v1 H1]. pose proof (close_spec k v) as Hs1. rewrite H1 in Hs1. rewrite H1. simpl.
    destruct (Hc c v1) as [v2 H2]. pose proof (close_spec c v1) as Hs2. rewrite H2 in Hs2. rewrite H2. simpl.
    exists v2. split; [done|]. by rewrite Hs2, Hs1. }
  destruct (block_ends body PulsarConsumer_aexit p2 w3 Hk) as (v & Hv & Hend & _).
  { intros v. by destruct (Hexit v) as (w' & -> & _). }
  destruct (Hexit v) as (w' & Hx & Hlw). rewrite Hx in Hend. intros Hrun. rewrite Hrun in Hend. simpl in Hend. injection Hend as -> ->.
  rewrite Hlw, Hv, Hkl, Hl. rewrite Hl in Hkn. split; [set_solver|]. exists k. split_and!; [done | set_solver | done].
Qed.

End LifetimeTheorems.

(** ** Instance and witnesses *)

(** A network that gives the next free number to each connection. *)
#[local] Instance set_Connections : Connections (gset nat) := {|
  open_conn _ _ := λ w, (Return (fresh w), {[fresh w]} ∪ w);
  resource_path _ a b := mret ("projects/" +:+ a +:+ "/topics/" +:+ b);
  open_child _ _ _ := λ w, (Return (fresh w), {[fresh w]} ∪ w);
  close_conn c := updates (λ w, w ∖ {[c]});
|}.

#[local] Instance set_ConnectionsSpec : ConnectionsSpec (gset nat).
Proof.
  refine {| live := id |}; simpl; intros.
  - split; [apply is_fresh | done].
  - done.
  - split; [apply is_fresh | done].
  - done.
Defined.

Lemma set_can_close : can_close (W := gset nat).
Proof. intros c w. by eexists. Qed.

Lemma set_can_open : can_open (W := gset nat).
Proof. intros kind args w. by eexists _, _. Qed.

Definition demo_use {S} : PyM (S * gset nat) Z := raise (ValueError "lost").

Lemma azure_block_witness :
  ∃ credential w', async_with (azure_aenter "ServiceBusClient") azure_aexit demo_use (AzureServiceBusProducer_init "ns" "orders" None, ∅)
    = (Raise (ValueError "lost"), (AzureServiceBusProducer_init "ns" "orders" None, w')) ∧ w' = {[credential]} ∪ ∅.
Proof.
  pose proof (azure_block "ServiceBusClient" (AzureServiceBusProducer_init "ns" "orders" None) ∅ demo_use eq_refl (λ _ _, conj eq_refl eq_refl) set_can_close) as H.
  destruct (async_with _ _ _ _) as [o [a' w']] eqn:E. destruct H as (_ & _ & H). destruct (H eq_refl set_can_open) as (cr & _ & Hw).
  exists cr, w'. split; [|exact Hw].
  assert (Hs : o = Raise (ValueError "lost") ∧ a' = AzureServiceBusProducer_init "ns" "orders" None) by (by injection E as <- <- _).
  destruct Hs as [-> ->]. done.
Defined.

Lemma pubsub_block_witness :
  ∃ g', async_with (pubsub_aenter "PublisherClient") gcp_aexit demo_use (mkGcp (Some "p") "t" None None "", ∅) = (Raise (ValueError "lost"), (g', ∅)) ∧
    gc_client g' = None.
Proof.
  pose proof (pubsub_block "PublisherClient" (mkGcp (Some "p") "t" None None "") ∅ demo_use eq_refl (λ _ _, conj eq_refl eq_refl)) as H.
  destruct (async_with _ _ _ _) as [o [g' w']] eqn:E. exists g'.
  destruct H as (-> & Hg & Hl); [by intros c v e v' [=]|]. split; [|exact Hg]. specialize (Hl set_can_close). simpl in Hl. by rewrite <- Hl.
Defined.

Lemma pulsar_reenter_closed_witness :
  ∃ p1 w1 consumer, async_with PulsarConsumer_aenter PulsarConsumer_aexit demo_use (PulsarConsumer_init "pulsar://x" "t" "s", ∅)
    = (Raise (ValueError "lost"), (p1, w1)) ∧ pu_consumer p1 = Some consumer ∧ consumer ∉ w1.
Proof.
  destruct (async_with PulsarConsumer_aenter PulsarConsumer_aexit demo_use (PulsarConsumer_init "pulsar://x" "t" "s", ∅)) as [o [p1 w1]] eqn:E.
  destruct (pulsar_reenter_closed (PulsarConsumer_init "pulsar://x" "t" "s") ∅ demo_use p1 w1 o eq_refl (λ _ _, conj eq_refl eq_refl) set_can_close set_can_open)
    as (_ & c & Hc & Hn & _); [intros; by eexists _, _ | exact E|].
  exists p1, w1, c. split_and!; [|exact Hc | exact Hn]. f_equal. by injection E as <- _ _.
Defined.
