(* ===== verification/Service.v ===== *)
(** * The example service

    [src/examples/simple_service/app.py]: commands and their handler, the bus built at
    start-up, the routes, the health router of [adapters/fastapi/routers.py] and the
    correlation middleware around them.  The handler runs behind the command bus of
    [Pipeline], the probes are those of [FastApi], the middleware and the way a request is served are those of
    [Asgi].  Routing, decoding of bodies and rendering of JSON are the framework's and are
    parameters, and so is [uuid4], whose identifiers are never issued twice.  [orders_spec]
    says what the service promises: a collection of orders to which orders are only added. *)
From S2P Require Import Prelude PyString OrderedDict PyValue ValueObjects Sha256 Pipeline Observability FastApi Asgi.

(** ** Commands *)

Record CreateOrderCommand := mkCreateOrder { co_customer_id : string; co_item_sku : string; co_quantity : Z }.

Record OrderCreatedResult := mkOrder { or_order_id : string; or_customer_id : string; or_item_sku : string; or_quantity : Z }.

(** The command as a request of the bus; the class is a frozen dataclass without a base. *)
Definition command_request (cmd : CreateOrderCommand) : Pipeline.Request :=
  Pipeline.mkRequest "CreateOrderCommand" false false
    {[ "customer_id" := co_customer_id cmd; "item_sku" := co_item_sku cmd; "quantity" := str_of_int (co_quantity cmd) ]}
    Frozen false None.

Definition request_command (r : Pipeline.Request) : CreateOrderCommand :=
  mkCreateOrder (default "" (getattr r "customer_id")) (default "" (getattr r "item_sku"))
    (match py_int (default "" (getattr r "quantity")) with Return n => n | Raise _ => 0%Z end).

Section Service.
Context {W : Type} (uuid4 : PyM W string) (py_str : pyval → string).

(** [_order_store] and whether [_state.command_bus] is set. *)
Record Service := mkService { sv_started : bool; sv_orders : list (string * OrderCreatedResult) }.

Definition service_loaded : Service := mkService false [].

Definition store_order (o : OrderCreatedResult) (s : Service) : Service :=
  mkService (sv_started s) (od_set (or_order_id o) o (sv_orders s)).

(** [CreateOrderHandler.handle]. *)
Definition CreateOrderHandler_handle : Handler (Service * W) OrderCreatedResult := λ req,
  let cmd := request_command req in
  order_id ← on_snd uuid4;
  let result := mkOrder order_id (co_customer_id cmd) (co_item_sku cmd) (co_quantity cmd) in
  on_fst (updates (store_order result)) ;;
  mret result.

Definition build_command_bus : Bus (Service * W) OrderCreatedResult :=
  InProcessCommandBus_register "CreateOrderCommand" CreateOrderHandler_handle ∅.

(** [lifespan] up to its [yield]. *)
Definition lifespan_start (s : Service) : Service := mkService true (sv_orders s).

Definition get_bus : PyM (Service * W) (Bus (Service * W) OrderCreatedResult) :=
  s ← on_fst (reads id);
  if sv_started s then mret build_command_bus
  else raise (PyValue.AttributeError "'_AppState' object has no attribute 'command_bus'").

(** ** Routes *)

(** What an endpoint gives the framework. *)
Inductive Answer := Respond (r : JSONResponse) | HTTPException (status_code : Z) (detail : string).

(** [body[key]]; the text of a [KeyError] is the [repr] of its key. *)
Definition body_item (key : string) (body : list (string * pyval)) : outcome pyval :=
  match od_get key body with Some v => Return v | None => Raise (KeyError (py_repr key)) end.

(** [int(v)]. *)
Definition int_of (v : pyval) : outcome Z :=
  match v with
  | VInt z => Return z
  | VBool b => Return (if b then 1 else 0)%Z
  | VFloat q => Return (Z.quot (Qnum q) (Zpos (Qden q)))
  | VStr s => py_int s
  | VNone | VList _ | VDict _ =>
      Raise (TypeError ("int() argument must be a string, a bytes-like object or a real number, not '" +:+ type_name v +:+ "'"))
  end.

Definition parse_command (body : list (string * pyval)) : outcome CreateOrderCommand :=
  match body_item "customer_id" body with
  | Raise e => Raise e
  | Return c =>
      match body_item "item_sku" body with
      | Raise e => Raise e
      | Return i =>
          match body_item "quantity" body with
          | Raise e => Raise e
          | Return q =>
              match int_of q with
              | Raise e => Raise e
              | Return n => Return (mkCreateOrder (py_str c) (py_str i) n)
              end
          end
      end
  end.

Definition order_content (o : OrderCreatedResult) : list (string * pyval) :=
  [("order_id", VStr (or_order_id o)); ("customer_id", VStr (or_customer_id o));
   ("item_sku", VStr (or_item_sku o)); ("quantity", VInt (or_quantity o))].

Definition create_order (body : list (string * pyval)) (bus : Bus (Service * W) OrderCreatedResult)
    : PyM (Service * W) Answer :=
  match parse_command body with
  | Raise exc => if isinstance_any exc ["KeyError"; "ValueError"] then mret (HTTPException 422 (exn_msg exc)) else raise exc
  | Return cmd =>
      result ← InProcessCommandBus_dispatch bus (command_request cmd);
      mret (Respond (mkJSONResponse 201 (order_content result)))
  end.

Definition get_order (order_id : string) : PyM (Service * W) Answer :=
  s ← on_fst (reads id);
  match od_get order_id (sv_orders s) with
  | None => mret (HTTPException 404 "Order not found")
  | Some order => mret (Respond (mkJSONResponse 200 (order_content order)))
  end.

Definition self_check : PyM (Service * W) bool := mret true.

(** [FastAPIHealthRouter]: the two endpoints of the router. *)
Definition liveness : JSONResponse := mkJSONResponse 200 [("status", VStr "ok")].
Definition health_ready (checks : list (string * PyM (Service * W) bool)) : PyM (Service * W) JSONResponse := readiness checks.

Inductive endpoint :=
| POST_orders (body : list (string * pyval))
| GET_order (order_id : string)
| GET_live
| GET_ready.

(** The framework answers an [HTTPException] with its detail; dependencies are resolved before the
    endpoint runs. *)
Definition rendered (a : Answer) : JSONResponse :=
  match a with Respond r => r | HTTPException status detail => mkJSONResponse status [("detail", VStr detail)] end.

Definition call_endpoint (e : endpoint) : PyM (Service * W) JSONResponse :=
  match e with
  | POST_orders body => bus ← get_bus; a ← create_order body bus; mret (rendered a)
  | GET_order id => a ← get_order id; mret (rendered a)
  | GET_live => mret liveness
  | GET_ready => health_ready [("_self_check", self_check)]
  end.

(** The application below the middleware: one request, one answer. *)
Definition service_prog (route : Scope → outcome Message → option endpoint) (render : JSONResponse → string)
    (scope : Scope) : prog (Ambient (Service * W)) :=
  let reply (r : JSONResponse) :=
    PSend (response_start (jr_status r) (json_headers (render r)))
      (λ _, PSend (response_body (render r)) (λ _, PDone (Return tt))) in
  PReceive (λ m,
    match route scope m with
    | None => reply (mkJSONResponse 404 [("detail", VStr "Not Found")])
    | Some e => PAmbient JSONResponse (on_snd (on_snd (on_snd (call_endpoint e))))
        (λ o, match o with Return r => reply r | Raise exc => PDone (Raise exc) end)
    end).

Definition app (request_uuid4 : PyM (Service * W) string) (mw : FastAPICorrelationIdMiddleware)
    (route : Scope → outcome Message → option endpoint) (render : JSONResponse → string) : ASGIApp (Ambient (Service * W)) :=
  FastAPICorrelationIdMiddleware_call request_uuid4 mw (app_of (service_prog route render)).

End Service.

(** ** What the service promises *)

(** Orders by their identifier; what a call may answer and what it leaves. *)
Inductive orders_spec (py_str : pyval → string) (m : gmap string OrderCreatedResult)
    : endpoint → gmap string OrderCreatedResult → outcome JSONResponse → Prop :=
| spec_created body cmd id :
    parse_command py_str body = Return cmd → m !! id = None →
    let o := mkOrder id (co_customer_id cmd) (co_item_sku cmd) (co_quantity cmd) in
    orders_spec py_str m (POST_orders body) (<[id := o]> m) (Return (mkJSONResponse 201 (order_content o)))
| spec_refused body e :
    parse_command py_str body = Raise e → isinstance_any e ["KeyError"; "ValueError"] = true →
    orders_spec py_str m (POST_orders body) m (Return (mkJSONResponse 422 [("detail", VStr (exn_msg e))]))
| spec_failed body e :
    parse_command py_str body = Raise e → isinstance_any e ["KeyError"; "ValueError"] = false →
    orders_spec py_str m (POST_orders body) m (Raise e)
| spec_found id o :
    m !! id = Some o → orders_spec py_str m (GET_order id) m (Return (mkJSONResponse 200 (order_content o)))
| spec_not_found id :
    m !! id = None → orders_spec py_str m (GET_order id) m (Return (mkJSONResponse 404 [("detail", VStr "Order not found")]))
| spec_live : orders_spec py_str m GET_live m (Return liveness)
| spec_ready : orders_spec py_str m GET_ready m (Return (mkJSONResponse 200 [("status", VStr "ok"); ("checks", VDict [("_self_check", VBool true)])])).

Inductive spec_run (py_str : pyval → string) : gmap string OrderCreatedResult → list endpoint → list (outcome JSONResponse) → gmap string OrderCreatedResult → Prop :=
| run_nil m : spec_run py_str m [] [] m
| run_cons m e m' a es as_ m'' :
    orders_spec py_str m e m' a → spec_run py_str m' es as_ m'' → spec_run py_str m (e :: es) (a :: as_) m''.

(** Identifiers are never issued twice, and issuing one does not fail. *)
Class FreshIds {W} (uuid4 : PyM W string) := {
  issued : W → gset string;
  uuid4_fresh w : ∃ i w', uuid4 w = (Return i, w') ∧ (i ∉ issued w) ∧ issued w' = {[i]} ∪ issued w;
}.

(** ** Lemmas *)

Lemma request_command_request cmd : request_command (command_request cmd) = cmd.
Proof.
  unfold request_command, command_request, getattr. cbn [rq_attrs].
  rewrite lookup_insert_eq. rewrite (lookup_insert_ne _ "customer_id" "item_sku") by done. rewrite lookup_insert_eq.
  rewrite (lookup_insert_ne _ "customer_id" "quantity"), (lookup_insert_ne _ "item_sku" "quantity") by done.
  rewrite lookup_singleton_eq. unfold from_option, id. rewrite py_int_str. by destruct cmd.
Qed.

Section Refinement.
Context {W : Type} (uuid4 : PyM W string) `{!FreshIds uuid4} (py_str : pyval → string).

#[local] Abbreviation call := (call_endpoint uuid4 py_str).

(** The orders a running service holds. *)
Record represents (m : gmap string OrderCreatedResult) (st : Service * W) : Prop := {
  rep_started : sv_started (fst st) = true;
  rep_orders id : m !! id = od_get id (sv_orders (fst st));
  rep_issued id : is_Some (m !! id) → id ∈ issued (snd st);
}.

(** Creating an order puts it under a new identifier. *)
Lemma dispatch_create cmd s w : ∃ i w', uuid4 w = (Return i, w') ∧ (i ∉ issued w) ∧ issued w' = {[i]} ∪ issued w ∧
  let o := mkOrder i (co_customer_id cmd) (co_item_sku cmd) (co_quantity cmd) in
  InProcessCommandBus_dispatch (build_command_bus uuid4) (command_request cmd) (s, w) = (Return o, (store_order o s, w')).
Proof.
  destruct (uuid4_fresh w) as (i & w' & Hu & Hn & Hi). exists i, w'. split_and!; [done..|].
  unfold InProcessCommandBus_dispatch, build_command_bus, InProcessCommandBus_register, Bus.
  change (rq_type (command_request cmd)) with "CreateOrderCommand". rewrite lookup_insert_eq.
  unfold CreateOrderHandler_handle. rewrite request_command_request.
  unfold mbind, PyM_bind, on_snd, on_fst, updates. simpl. by rewrite Hu.
Qed.

Lemma represents_stored m s w i w' o :
  represents m (s, w) → or_order_id o = i → issued w' = {[i]} ∪ issued w → represents (<[i := o]> m) (store_order o s, w').
Proof.
  intros [H1 H2 H3] <- Hi. split; simpl in *; [done| |].
  - intros id. destruct (decide (id = or_order_id o)) as [->|Hne].
    + by rewrite lookup_insert_eq, od_get_set_eq.
    + by rewrite lookup_insert_ne, od_get_set_ne.
  - intros id. rewrite Hi, elem_of_union, elem_of_singleton. destruct (decide (id = or_order_id o)) as [->|Hne]; [by left|].
    rewrite lookup_insert_ne by done. auto.
Qed.

(** One call of the service is a step of the specification. *)
Lemma call_simulated e m st : represents m st →
  ∃ m', orders_spec py_str m e m' (fst (call e st)) ∧ represents m' (snd (call e st)).
Proof.
  intros Hrep. destruct st as [s w]. destruct e as [body|id| |].
  - assert (call (POST_orders body) (s, w) = (create_order py_str body (build_command_bus uuid4) ≫= λ a, mret (rendered a)) (s, w)) as ->.
    { unfold call_endpoint, get_bus, mbind, PyM_bind, on_fst, reads. cbn [fst snd id].
      by rewrite (rep_started _ _ Hrep : sv_started s = true). }
    unfold create_order. destruct (parse_command py_str body) as [cmd|exc] eqn:Hp.
    + destruct (dispatch_create cmd s w) as (i & w' & _ & Hn & Hi & Hd). unfold mbind, PyM_bind. rewrite Hd. cbn [fst snd mret PyM_ret rendered].
      eexists. split; [eapply (spec_created _ _ _ cmd i); [done|]|].
      2:{ by apply (represents_stored m s w i w'). }
      destruct (m !! i) eqn:E; [|done]. destruct Hn. by apply (rep_issued _ _ Hrep).
    + exists m. unfold mbind, PyM_bind. destruct (isinstance_any exc ["KeyError"; "ValueError"]) eqn:He; (split; [by constructor | done]).
  - exists m. unfold call_endpoint, get_order, mbind, PyM_bind, on_fst, reads. cbn. pose proof (rep_orders _ _ Hrep id) as Ho. cbn in Ho.
    destruct (od_get id (sv_orders s)); (split; [by constructor | done]).
  - exists m. split; [constructor | done].
  - exists m. split; [constructor | done].
Qed.

End Refinement.

(** Orders are only added. *)
Lemma spec_step_grows py_str m e m' a : orders_spec py_str m e m' a → m ⊆ m'.
Proof. inversion 1; subst; try done. by apply insert_subseteq. Qed.

Lemma spec_run_grows py_str m es answers m' : spec_run py_str m es answers m' → m ⊆ m'.
Proof. induction 1 as [|m e m' a es as_ m'' Hs _ IH]; [done|]. etransitivity; [by eapply spec_step_grows | done]. Qed.

(** A run is cut at any call. *)
Lemma spec_run_app py_str es1 : ∀ m es2 answers m', spec_run py_str m (es1 ++ es2) answers m' →
  ∃ a1 a2 m1, answers = a1 ++ a2 ∧ length a1 = length es1 ∧ spec_run py_str m es1 a1 m1 ∧ spec_run py_str m1 es2 a2 m'.
Proof.
  induction es1 as [|e es1 IH]; simpl; intros m es2 answers m' Hr; [exists [], answers, m; split_and!; [done..|constructor|done]|].
  inversion Hr; subst. destruct (IH _ _ _ _ H5) as (a1 & a2 & m1 & -> & Hl & Hr1 & Hr2).
  exists (a :: a1), a2, m1. split_and!; [done | simpl; by f_equal | by econstructor | done].
Qed.

(** ** Theorems *)

(** C38: the running service implements its specification: whatever the calls, the answers are those of a
    collection of orders to which each accepted order is added under an identifier of its own, and
    an order once created is found unchanged by every later lookup. *)
Theorem service_refines {W} (uuid4 : PyM W string) `{!FreshIds uuid4} py_str m st es :
  represents uuid4 m st →
  let r := run_each (call_endpoint uuid4 py_str) es st in
  (∃ m', spec_run py_str m es (fst r) m' ∧ m ⊆ m' ∧ represents uuid4 m' (snd r)) ∧
  (∀ es1 body es2 id es3 o, es = es1 ++ POST_orders body :: es2 ++ GET_order id :: es3 → or_order_id o = id →
     fst r !! length es1 = Some (Return (mkJSONResponse 201 (order_content o))) →
     fst r !! (length es1 + S (length es2))%nat = Some (Return (mkJSONResponse 200 (order_content o)))).
Proof.
  intros Hrep r.
  assert (Hrun : ∃ m', spec_run py_str m es (fst r) m' ∧ represents uuid4 m' (snd r)).
  { unfold r. clear r. revert m st Hrep. induction es as [|e es IH]; intros m st Hrep; [exists m; split; [constructor | done]|].
    destruct (call_simulated uuid4 py_str e m st Hrep) as (m1 & Hs & Hrep1). simpl.
    destruct (call_endpoint uuid4 py_str e st) as [a st1]. destruct (IH m1 st1 Hrep1) as (m' & Hr & Hrep').
    destruct (run_each _ es st1) as [rest st2]. exists m'. split; [by econstructor | done]. }
  destruct Hrun as (m' & Hrun & Hrep'). split; [exists m'; split_and!; [done | by eapply spec_run_grows | done]|].
  intros es1 body es2 id es3 o -> Hid Hc. generalize dependent (fst r). intros answers Hrun Hc. clear r Hrep'.
  apply spec_run_app in Hrun as (a1 & a2 & m1 & -> & Hl & _ & Hr2). rewrite <- Hl in Hc |- *.
  rewrite lookup_app_r in Hc |- * by lia. rewrite Nat.sub_diag in Hc. rewrite Nat.add_sub'.
  inversion Hr2 as [|? ? m2 a ? as_ ? Hpost Hrest]; subst. simpl in Hc. injection Hc as ->.
  inversion Hpost as [? cmd i Hp Hn o' Hb Hm Ha| | | | | |].
  assert (o = o') as -> by (destruct o; unfold o', order_content in *; simpl in *; congruence).
  assert (Hio : or_order_id o' = i) by done. clearbody o'. clear Ha Hb. subst m2 i.
  apply spec_run_app in Hrest as (b1 & b2 & m3 & -> & Hl2 & Hg & Hr3). simpl. rewrite <- Hl2, lookup_app_r by lia. rewrite Nat.sub_diag.
  inversion Hr3 as [|? ? m4 b ? bs ? Hget _]; subst. simpl. do 2 f_equal. apply spec_run_grows in Hg.
  assert (Hin : m3 !! or_order_id o' = Some o') by (eapply lookup_weaken; [|exact Hg]; apply lookup_insert_eq).
  inversion Hget as [| | |? o2 Ho2|? Ho2| |]; subst; rewrite Hin in Ho2; [by injection Ho2 as <- | done].
Qed.

(** Behind the middleware every answer of an endpoint, errors included, reaches the client
    as one response with its status and body and the correlation id of the request, which
    is the one the endpoint runs under; an exception of the endpoint leaves the response unsent. *)
Theorem service_identified {W} (uuid4 : PyM W string) py_str request_uuid4 mw route render scope msg b i b1 e o st :
  str_in (s_type scope) ["http"; "websocket"] = true →
  or_uuid4 request_uuid4 (resolve_correlation (cm_request_headers mw) scope) b = (Return i, b1) →
  route scope (Return msg) = Some e →
  call_endpoint uuid4 py_str e (snd (snd (snd b1))) = (o, st) →
  let ambient := (Some (mkReqCtx i None None None None), (fst (snd b1), (fst (snd (snd b1)), st))) in
  serve (app uuid4 py_str request_uuid4 mw route render) scope [msg] b =
    match o with
    | Return r => (Return tt, (mkConn [] [stamp [(cm_response_header mw, i)] (response_start (jr_status r) (json_headers (render r)));
                                          stamp [(cm_response_header mw, i)] (response_body (render r))], ambient))
    | Raise exc => (Raise exc, (mkConn [] [], ambient))
    end.
Proof.
  intros Hs Hi Hroute Hcall ambient. unfold app. destruct b1 as [x [y [z u]]]. simpl in Hcall.
  rewrite (serve_correlation request_uuid4 mw _ scope [msg] b i _ Hs Hi).
  assert (Hserve : serve (app_of (service_prog uuid4 py_str route render)) scope [msg] (Some (mkReqCtx i None None None None), (y, (z, u))) =
    match o with
    | Return r => (Return tt, (mkConn [] [response_start (jr_status r) (json_headers (render r)); response_body (render r)], ambient))
    | Raise exc => (Raise exc, (mkConn [] [], ambient))
    end).
  { unfold serve, app_of, service_prog. cbn -[call_endpoint]. unfold observe, on_fst, on_snd. cbn -[call_endpoint]. rewrite Hroute.
    cbn -[call_endpoint]. unfold observe. cbn -[call_endpoint]. rewrite Hcall. by destruct o. }
  cbn [snd]. unfold sent. rewrite Hserve. by destruct o.
Qed.

(** Which bodies are refused: a missing field, the first in the order of the command, and a
    quantity that is a text but not a number are answered with 422; a quantity that is null, a list or an
    object escapes the handler as a TypeError; before start-up every creation fails. *)
Theorem create_order_errors {W} (uuid4 : PyM W string) py_str body (s : Service) w :
  (sv_started s = false →
     ∃ e, call_endpoint uuid4 py_str (POST_orders body) (s, w) = (Raise e, (s, w)) ∧ isinstance e "AttributeError" = true) ∧
  (sv_started s = true →
     (∀ key, key ∈ ["customer_id"; "item_sku"; "quantity"] → od_get key body = None →
        ∃ missing, (missing ∈ ["customer_id"; "item_sku"; "quantity"]) ∧ od_get missing body = None ∧
          call_endpoint uuid4 py_str (POST_orders body) (s, w) =
            (Return (mkJSONResponse 422 [("detail", VStr (py_repr missing))]), (s, w))) ∧
     (∀ c i q, od_get "customer_id" body = Some c → od_get "item_sku" body = Some i → od_get "quantity" body = Some q →
        (∀ t e, q = VStr t → py_int t = Raise e →
           call_endpoint uuid4 py_str (POST_orders body) (s, w) = (Return (mkJSONResponse 422 [("detail", VStr (exn_msg e))]), (s, w))) ∧
        (q = VNone ∨ (∃ l, q = VList l) ∨ (∃ d, q = VDict d) →
           ∃ e, call_endpoint uuid4 py_str (POST_orders body) (s, w) = (Raise e, (s, w)) ∧ isinstance e "TypeError" = true))).
Proof.
  split.
  - intros Hs. unfold call_endpoint, get_bus, mbind, PyM_bind, on_fst, reads. cbn [fst snd id]. rewrite Hs. by eexists.
  - intros Hs.
    assert (Hcall : ∀ e, parse_command py_str body = Raise e → call_endpoint uuid4 py_str (POST_orders body) (s, w) =
      (if isinstance_any e ["KeyError"; "ValueError"] then Return (mkJSONResponse 422 [("detail", VStr (exn_msg e))]) else Raise e, (s, w))).
    { intros e He. unfold call_endpoint, get_bus, create_order, mbind, PyM_bind, on_fst, reads. cbn [fst snd id]. rewrite Hs. cbn [mret PyM_ret].
      rewrite He. by destruct (isinstance_any e ["KeyError"; "ValueError"]). }
    split.
    + intros key Hk Hnone. unfold parse_command, body_item in Hcall.
      destruct (od_get "customer_id" body) as [c|] eqn:Hc.
      2:{ exists "customer_id". split_and!; [set_solver | done|]. by rewrite (Hcall _ eq_refl). }
      destruct (od_get "item_sku" body) as [i|] eqn:Hi.
      2:{ exists "item_sku". split_and!; [set_solver | done|]. by rewrite (Hcall _ eq_refl). }
      destruct (od_get "quantity" body) as [q|] eqn:Hq.
      2:{ exists "quantity". split_and!; [set_solver | done|]. by rewrite (Hcall _ eq_refl). }
      exfalso. rewrite !elem_of_cons in Hk. destruct Hk as [->|[->|[->|[]%not_elem_of_nil]]]; congruence.
    + intros c i q Hc Hi Hq. unfold parse_command, body_item in Hcall. rewrite Hc, Hi, Hq in Hcall. split.
      * intros t e -> He. assert (Hv : isinstance_any e ["KeyError"; "ValueError"] = true).
        { unfold py_int in He. by destruct (match strip t with String "-" s' => _ | _ => _ end); simplify_eq. }
        rewrite (Hcall e); [by rewrite Hv | simpl; by rewrite He].
      * intros Hq'. exists (TypeError ("int() argument must be a string, a bytes-like object or a real number, not '" +:+ type_name q +:+ "'")).
        split; [|done]. rewrite (Hcall (TypeError ("int() argument must be a string, a bytes-like object or a real number, not '" +:+ type_name q +:+ "'"))); [done|].
        by destruct Hq' as [->|[[l ->]|[d ->]]].
Qed.

(** ** Instance and witnesses *)

Definition numbered_id (n : nat) : string := "order-" +:+ pretty n.
Definition next_id : PyM nat string := λ n, (Return (numbered_id n), S n).

#[local] Instance next_id_fresh : FreshIds next_id.
Proof.
  refine {| issued n := list_to_set (map numbered_id (seq 0 n)) |}.
  intros n. exists (numbered_id n), (S n). split_and!; [done| |].
  - rewrite elem_of_list_to_set, list_elem_of_fmap. intros (k & Hk & Hin). apply elem_of_seq in Hin.
    unfold numbered_id in Hk. apply (inj (String.append "order-")) in Hk. apply (inj pretty) in Hk. lia.
  - rewrite seq_S, map_app, list_to_set_app_L. cbn [map list_to_set]. set_solver.
Defined.

Definition demo_str (v : pyval) : string := match v with VStr s => s | _ => "" end.
Definition demo_order : list (string * pyval) := [("customer_id", VStr "c1"); ("item_sku", VStr "sku"); ("quantity", VStr " 3 ")].
Definition demo_started : Service * nat := (lifespan_start service_loaded, 0%nat).

Lemma demo_represents : represents next_id ∅ demo_started.
Proof. split; [done | by intros id | intros id [o Ho]; by rewrite lookup_empty in Ho]. Qed.

Lemma service_refines_witness :
  fst (run_each (call_endpoint next_id demo_str) [POST_orders demo_order; POST_orders demo_order; GET_order "order-0"] demo_started) !! 2%nat =
    Some (Return (mkJSONResponse 200 (order_content (mkOrder "order-0" "c1" "sku" 3)))).
Proof.
  destruct (service_refines next_id demo_str ∅ demo_started [POST_orders demo_order; POST_orders demo_order; GET_order "order-0"] demo_represents) as [_ H].
  apply (H [] demo_order [POST_orders demo_order] "order-0" [] (mkOrder "order-0" "c1" "sku" 3)); vm_compute; reflexivity.
Defined.

Definition demo_route (_ : Scope) (_ : outcome Message) : option endpoint := Some GET_live.

Lemma service_identified_witness :
  sent (serve (app next_id demo_str (mret "r-1") demo_correlation demo_route (λ _, "{}")) (http_scope "/health/live" []) [disconnect]
    (None, (None, (None, demo_started)))) =
  [stamp [("x-correlation-id", "r-1")] (response_start 200 (json_headers "{}")); stamp [("x-correlation-id", "r-1")] (response_body "{}")].
Proof.
  unfold sent. rewrite (service_identified next_id demo_str (mret "r-1") demo_correlation demo_route (λ _, "{}") (http_scope "/health/live" []) disconnect
    (None, (None, (None, demo_started))) "r-1" (None, (None, (None, demo_started))) GET_live (Return liveness) demo_started); [reflexivity | reflexivity | vm_compute; reflexivity | reflexivity | reflexivity].
Defined.

Lemma create_order_errors_witness :
  ∃ e, call_endpoint next_id demo_str (POST_orders [("customer_id", VStr "c"); ("item_sku", VStr "s"); ("quantity", VNone)]) demo_started
    = (Raise e, demo_started) ∧ isinstance e "TypeError" = true.
Proof.
  destruct (create_order_errors next_id demo_str [("customer_id", VStr "c"); ("item_sku", VStr "s"); ("quantity", VNone)] (lifespan_start service_loaded) 0%nat) as [_ H].
  destruct (H eq_refl) as [_ H2]. destruct (H2 (VStr "c") (VStr "s") VNone eq_refl eq_refl eq_refl) as [_ H3]. apply H3. by left.
Defined.
