(* ===== verification/Schedulers.v ===== *)
(** * Schedulers of other packages and rotated passwords
      ([application/scheduler/apscheduler.py], [security/rotation/rotator.py])

    The adapter that hands the jobs of [Maintenance] to APScheduler 4, the scheduler of
    secret rotation over APScheduler 3, and the rotation of a database password.  What the
    adapter relies on of APScheduler is the class [AsyncSchedulerSpec]: a schedule is added
    under its identifier unless there is one already, and starting in the background makes
    the scheduler run. *)
From S2P Require Import Prelude PyString OrderedDict Maintenance.

(** ** The adapter for APScheduler 4 *)

(** The scheduler of the package: constructor, triggers and methods.  [P] is the state of
    the package, which keeps the handlers [H] it is given. *)
Class AsyncScheduler (P H : Type) := {
  scheduler : Type;
  trigger : Type;
  new_scheduler : PyM P scheduler;
  CronTrigger_from_crontab : string → outcome trigger;
  IntervalTrigger : option Z → outcome trigger;
  add_schedule : scheduler → H → trigger → string → PyM P unit;
  start_in_background : scheduler → PyM P unit;
  stop_scheduler : scheduler → PyM P unit;
}.

Section Adapter.
Context {W P : Type} (utcnow : W → Z) (monotonic : W → Q) `{AS : AsyncScheduler P (PyM W unit)}.

Record APSchedulerAdapter := mkAdapter { ap_jobs : list (string * Job W); ap_scheduler : option scheduler }.

Definition APSchedulerAdapter_init : APSchedulerAdapter := mkAdapter [] None.

Definition APSchedulerAdapter_add_job (job : Job W) (a : APSchedulerAdapter) : APSchedulerAdapter :=
  mkAdapter (od_set (job_id job) job (ap_jobs a)) (ap_scheduler a).
Definition APSchedulerAdapter_remove_job (id : string) (a : APSchedulerAdapter) : APSchedulerAdapter :=
  mkAdapter (od_del id (ap_jobs a)) (ap_scheduler a).
Definition APSchedulerAdapter_list_jobs (a : APSchedulerAdapter) : list (Job W) := map snd (ap_jobs a).

Definition APSchedulerAdapter_get_scheduler : PyM (APSchedulerAdapter * P) scheduler :=
  known ← on_fst (reads ap_scheduler);
  match known with
  | Some s => mret s
  | None =>
      s ← on_snd new_scheduler;
      on_fst (updates (λ a, mkAdapter (ap_jobs a) (Some s))) ;;
      mret s
  end.

(** The handler and the trigger of a job; an empty cron text counts as none. *)
Definition scheduled_handler (job : Job W) : PyM W unit := JobExecutionContext_run utcnow monotonic job ;; mret tt.

Definition job_trigger (job : Job W) : outcome trigger :=
  match job_cron job with
  | Some cron => if String.eqb cron "" then IntervalTrigger (job_interval_seconds job) else CronTrigger_from_crontab cron
  | None => IntervalTrigger (job_interval_seconds job)
  end.

Definition register_job (s : scheduler) (job : Job W) : PyM P unit :=
  t ← from_outcome (job_trigger job);
  add_schedule s (scheduled_handler job) t (job_id job).

Definition APSchedulerAdapter_start : PyM (APSchedulerAdapter * P) unit :=
  s ← APSchedulerAdapter_get_scheduler;
  jobs ← on_fst (reads APSchedulerAdapter_list_jobs);
  for_each jobs (λ job, on_snd (register_job s job)) ;;
  on_snd (start_in_background s).

Definition APSchedulerAdapter_stop : PyM (APSchedulerAdapter * P) unit :=
  known ← on_fst (reads ap_scheduler);
  match known with Some s => on_snd (stop_scheduler s) | None => mret tt end.

End Adapter.
Arguments APSchedulerAdapter : clear implicits.
Arguments APSchedulerAdapter _ _ {_}.

(** What is relied on: the schedules a scheduler has and whether it runs. *)
Class AsyncSchedulerSpec (P H : Type) `{AS : AsyncScheduler P H} := {
  schedules : scheduler → P → list (string * (trigger * H));
  running : scheduler → P → bool;
  new_scheduler_ok w : ∃ s w', new_scheduler w = (Return s, w') ∧ schedules s w' = [] ∧ running s w' = false;
  add_schedule_ok s h t id w : ∃ w', add_schedule s h t id w = (Return tt, w') ∧ running s w' = running s w ∧
    schedules s w' = if od_mem id (schedules s w) then schedules s w else schedules s w ++ [(id, (t, h))];
  start_in_background_ok s w : ∃ w', start_in_background s w = (Return tt, w') ∧
    running s w' = true ∧ schedules s w' = schedules s w;
  stop_scheduler_ok s w : ∃ w', stop_scheduler s w = (Return tt, w') ∧
    running s w' = false ∧ schedules s w' = schedules s w;
}.

(** ** Secret rotation over APScheduler 3 *)

(** [s.split()]: the words between runs of white space. *)
Fixpoint py_split (s : string) : list string :=
  match s with
  | "" => []
  | String c s' =>
      if is_space c then py_split s'
      else match s' with
           | "" => [String c ""]
           | String d _ =>
               if is_space d then String c "" :: py_split s'
               else match py_split s' with [] => [String c ""] | w :: ws => String c w :: ws end
           end
  end.

(** The keyword arguments of a job of kind cron. *)
Record CronFields := mkCron { minute : string; hour : string; day : string; month : string; day_of_week : string }.

Definition cron_fields (cron : string) : CronFields :=
  match py_split cron with
  | [m; h; d; mo; dow] => mkCron m h d mo dow
  | _ => mkCron "0" "3" "*" "*" "*"
  end.

Section Rotation.
Context {W Sched Job : Type} (AsyncIOScheduler : PyM W Sched)
  (add_cron_job : Sched → Job → CronFields → PyM W unit) (start_scheduler : Sched → PyM W unit).

Definition RotationScheduler_default_cron : string := "0 3 * * *".

(** [RotationScheduler.start]; the job is the bound method [rotate_all] of the rotator. *)
Definition RotationScheduler_start (rotate_all : Job) (cron : string) : PyM W Sched :=
  s ← AsyncIOScheduler;
  add_cron_job s rotate_all (cron_fields cron) ;;
  start_scheduler s ;;
  mret s.

End Rotation.

(** ** The password of a database user *)

Definition ascii_letters : string := "abcdefghijklmnopqrstuvwxyzABCDEFGHIJKLMNOPQRSTUVWXYZ".
Definition digits : string := "0123456789".
Definition punctuation : string := "!" +:+ dquote +:+ "#$%&'()" +:+ "*+,-./:;<=>?@[\]^_`{|}~".
Definition password_alphabet : string := ascii_letters +:+ digits +:+ punctuation.

Section Password.
Context {W : Type} (choice : string → PyM W ascii).

(** [_generate_strong_password]. *)
Fixpoint generate_strong_password (length : nat) : PyM W string :=
  match length with
  | O => mret ""
  | S n =>
      c ← choice password_alphabet;
      rest ← generate_strong_password n;
      mret (String c rest)
  end.

(** The engine runs a statement with its parameters in a transaction of its own. *)
Record DatabasePasswordRotatable := mkPassword {
  dp_user : string;
  dp_engine : option (string → list (string * string) → PyM W unit);
  dp_current : string;
}.

Definition DatabasePasswordRotatable_init (user : string) (engine : option (string → list (string * string) → PyM W unit))
    : DatabasePasswordRotatable := mkPassword user engine "".

Definition DatabasePasswordRotatable_secret_name (p : DatabasePasswordRotatable) : string := "db_password:" +:+ dp_user p.

Definition alter_user_sql (user : string) : string := "ALTER USER '" +:+ user +:+ "' IDENTIFIED BY :pw".

Definition DatabasePasswordRotatable_rotate : PyM (DatabasePasswordRotatable * W) string :=
  p ← on_fst (reads id);
  new_password ← on_snd (generate_strong_password 32);
  match dp_engine p with
  | Some execute => on_snd (execute (alter_user_sql (dp_user p)) [("pw", new_password)])
  | None => mret tt
  end ;;
  on_fst (updates (λ p, mkPassword (dp_user p) (dp_engine p) new_password)) ;;
  mret new_password.

Definition DatabasePasswordRotatable_invalidate_old (old_value : string) : PyM (DatabasePasswordRotatable * W) unit := mret tt.

End Password.
Arguments DatabasePasswordRotatable : clear implicits.

(** [secrets.choice] returns a character of its argument. *)
Class ChoosesFrom {W : Type} (choice : string → PyM W ascii) := {
  choice_in s w : s ≠ "" → ∃ c w', choice s w = (Return c, w') ∧ c ∈ String.list_ascii_of_string s;
}.

(** ** Lemmas *)

Section AdapterLemmas.
Context {W P : Type} (utcnow : W → Z) (monotonic : W → Q)
  `{AS : AsyncScheduler P (PyM W unit)} `{!AsyncSchedulerSpec P (PyM W unit)}.

#[local] Abbreviation entry := (string * (trigger * PyM W unit))%type.

(** The schedule a job gets. *)
Definition schedule_for (job : Job W) (e : entry) : Prop :=
  ∃ t, job_trigger job = Return t ∧ e = (job_id job, (t, scheduled_handler utcnow monotonic job)).

(** Schedules added one after the other; an identifier that is taken keeps its schedule. *)
Definition add_entry (l : list entry) (e : entry) : list entry := if od_mem (fst e) l then l else l ++ [e].

(** Jobs are filed under their identifiers. *)
Definition ap_wf (a : APSchedulerAdapter W P) : Prop :=
  NoDup (ap_jobs a).*1 ∧ Forall (λ e, fst e = job_id (snd e)) (ap_jobs a).

Inductive ap_call := AddJob (job : Job W) | RemoveJob (id : string).
Definition ap_edit (a : APSchedulerAdapter W P) (c : ap_call) : APSchedulerAdapter W P :=
  match c with AddJob job => APSchedulerAdapter_add_job job a | RemoveJob id => APSchedulerAdapter_remove_job id a end.

Lemma od_set_Forall {V} (Good : string * V → Prop) k v (d : list (string * V)) : Good (k, v) → Forall Good d → Forall Good (od_set k v d).
Proof. intros Hk. induction 1 as [|[k' v'] d Hx Hd IH]; simpl; [by constructor|]. case_decide; constructor; auto. Qed.

Lemma ap_edit_wf a c : ap_wf a → ap_wf (ap_edit a c).
Proof.
  intros [Hn Hf]. destruct c as [job|id]; split; simpl.
  - by apply od_set_NoDup.
  - by apply od_set_Forall.
  - rewrite od_del_keys. by apply NoDup_filter.
  - rewrite Forall_forall in Hf |- *. intros e [_ He]%list_elem_of_filter. auto.
Qed.

Lemma ap_edits_wf cs a : ap_wf a → ap_wf (fold_left ap_edit cs a).
Proof. revert a. induction cs as [|c cs IH]; simpl; [done|]. intros a Ha. by apply IH, ap_edit_wf. Qed.

Lemma ap_edits_scheduler cs a : ap_scheduler (fold_left ap_edit cs a) = ap_scheduler a.
Proof. revert a. induction cs as [|c cs IH]; simpl; [done|]. intros a. rewrite IH. by destruct c. Qed.

Lemma ap_wf_ids a : ap_wf a → NoDup (map job_id (APSchedulerAdapter_list_jobs a)).
Proof.
  intros [Hn Hf]. unfold APSchedulerAdapter_list_jobs. rewrite map_map.
  replace (map (λ e, job_id (snd e)) (ap_jobs a)) with ((ap_jobs a).*1); [done|].
  clear Hn. induction Hf as [|e l He _ IH]; [done|]. rewrite fmap_cons. cbn [map]. by rewrite He, IH.
Qed.

(** Entries with new and distinct identifiers are appended. *)
Lemma add_entries_new es l : NoDup (l ++ es).*1 → foldl add_entry l es = l ++ es.
Proof.
  revert l. induction es as [|e es IH]; intros l Hn; [by rewrite app_nil_r|]. simpl. unfold add_entry at 2, od_mem.
  rewrite bool_decide_eq_false_2.
  - rewrite IH; rewrite <- app_assoc; done.
  - rewrite fmap_app in Hn. apply NoDup_app in Hn as (_ & Hd & _). intros Hin. apply (Hd _ Hin). left.
Qed.

(** Nothing that is scheduled is dropped or replaced. *)
Lemma add_entries_keep es l : ∃ new, foldl add_entry l es = l ++ new.
Proof.
  revert l. induction es as [|e es IH]; intros l; [exists []; by rewrite app_nil_r|]. simpl.
  destruct (IH (add_entry l e)) as [new ->]. unfold add_entry. destruct (od_mem _ l); [by exists new|].
  exists (e :: new). by rewrite <- app_assoc.
Qed.

Lemma schedule_ids jobs es : Forall2 schedule_for jobs es → es.*1 = map job_id jobs.
Proof. induction 1 as [|j e jobs es (t & _ & ->) _ IH]; [done|]. rewrite fmap_cons. cbn [map]. by rewrite IH. Qed.

(** Jobs are registered in order up to the first whose trigger cannot be made. *)
Lemma register_jobs s jobs es rest (a : APSchedulerAdapter W P) w :
  Forall2 schedule_for jobs es →
  ∃ w', for_each (jobs ++ rest) (λ job, on_snd (register_job utcnow monotonic s job)) (a, w) =
          for_each rest (λ job, on_snd (register_job utcnow monotonic s job)) (a, w') ∧
        running s w' = running s w ∧ schedules s w' = foldl add_entry (schedules s w) es.
Proof.
  intros Hes. revert w. induction Hes as [|job e jobs es (t & Ht & ->) _ IH]; intros w; [by exists w|].
  destruct (add_schedule_ok s (scheduled_handler utcnow monotonic job) t (job_id job) w) as (w1 & Ha & Hr & Hs).
  destruct (IH w1) as (w' & Hf & Hr' & Hs'). exists w'. split_and!.
  - rewrite <- Hf. simpl. unfold mbind, PyM_bind, on_snd, register_job, from_outcome, mbind, PyM_bind. simpl. by rewrite Ht, Ha.
  - congruence.
  - rewrite Hs', Hs. done.
Qed.

(** The scheduler is made on the first start and kept. *)
Lemma get_scheduler_cases (a : APSchedulerAdapter W P) w :
  match ap_scheduler a with
  | Some s => APSchedulerAdapter_get_scheduler (a, w) = (Return s, (a, w))
  | None => ∃ s w', APSchedulerAdapter_get_scheduler (a, w) = (Return s, (mkAdapter (ap_jobs a) (Some s), w')) ∧
              schedules s w' = [] ∧ running s w' = false
  end.
Proof.
  unfold APSchedulerAdapter_get_scheduler, mbind, PyM_bind, on_fst, on_snd, reads, updates. simpl.
  destruct (ap_scheduler a) as [s|]; [done|]. destruct (new_scheduler_ok w) as (s & w' & Hn & ?). cbn [fst snd]. rewrite Hn. by exists s, w'.
Qed.

(** A start over a scheduler [s]. *)
Lemma start_with_scheduler s (a0 a : APSchedulerAdapter W P) w0 w es :
  APSchedulerAdapter_get_scheduler (a0, w0) = (Return s, (a, w)) →
  Forall2 schedule_for (APSchedulerAdapter_list_jobs a) es →
  ∃ w', APSchedulerAdapter_start utcnow monotonic (a0, w0) = (Return tt, (a, w')) ∧
        running s w' = true ∧ schedules s w' = foldl add_entry (schedules s w) es.
Proof.
  intros Hget Hes. unfold APSchedulerAdapter_start. unfold mbind at 1, PyM_bind at 1. rewrite Hget.
  destruct (register_jobs s _ es [] a w Hes) as (w1 & Hf & _ & Hs). rewrite app_nil_r in Hf.
  unfold mbind, PyM_bind, on_fst at 1, reads. cbn [fst snd]. unfold mbind, PyM_bind in Hf. rewrite Hf.
  destruct (start_in_background_ok s w1) as (w2 & Hb & Hr & Hs2). exists w2. unfold on_snd. simpl. rewrite Hb.
  split_and!; [done | done | congruence].
Qed.

End AdapterLemmas.

(** ** Words *)

Definition plain_word (w : string) : Prop := w ≠ "" ∧ str_all (λ c, negb (is_space c)) w = true.

Lemma py_split_cons c d s : is_space c = false → is_space d = false →
  py_split (String c (String d s)) = match py_split (String d s) with [] => [String c ""] | w :: ws => String c w :: ws end.
Proof. intros Hc Hd. simpl. by rewrite Hc, Hd. Qed.

(** A word, and whatever white space and words follow it. *)
Lemma py_split_word w rest : plain_word w → py_split (w +:+ String " " rest) = w :: py_split rest ∧ py_split w = [w].
Proof.
  intros [Hne Hall]. induction w as [|c w IH]; [done|]. simpl in Hall. apply andb_prop in Hall as [Hc Hall].
  apply negb_true_iff in Hc. destruct w as [|d w]; [simpl; by rewrite Hc|].
  destruct (IH ltac:(done) Hall) as [IH1 IH2]. simpl in Hall. apply andb_prop in Hall as [Hd _]. apply negb_true_iff in Hd.
  split; [|by rewrite py_split_cons, IH2].
  change (String c (String d w) +:+ String " " rest) with (String c (String d (w +:+ String " " rest))).
  rewrite py_split_cons by done. by change (String d (w +:+ String " " rest)) with (String d w +:+ String " " rest); rewrite IH1.
Qed.

Lemma py_split_join ws : Forall plain_word ws → py_split (join " " ws) = ws.
Proof.
  induction 1 as [|w ws Hw Hws IH]; [done|]. destruct ws as [|w2 ws]; [by apply (py_split_word w "")|].
  change (join " " (w :: w2 :: ws)) with (w +:+ String " " (join " " (w2 :: ws))).
  by rewrite (proj1 (py_split_word w _ Hw)), IH.
Qed.

(** ** Passwords *)

Lemma password_chosen {W} (choice : string → PyM W ascii) `{!ChoosesFrom choice} n w :
  ∃ p w', generate_strong_password choice n w = (Return p, w') ∧ String.length p = n ∧ str_all (in_range 33 126) p = true.
Proof.
  revert w. induction n as [|n IH]; intros w; [by exists "", w|].
  destruct (choice_in password_alphabet w ltac:(done)) as (c & w1 & Hc & Hin).
  destruct (IH w1) as (p & w2 & Hp & Hl & Ha). exists (String c p), w2. cbn [generate_strong_password].
  unfold mbind, PyM_bind. rewrite Hc, Hp. split_and!; [done | simpl; by rewrite Hl|]. simpl. rewrite Ha, andb_true_r.
  assert (Hall : Forall (λ c, in_range 33 126 c = true) (String.list_ascii_of_string password_alphabet))
    by (vm_compute; repeat constructor).
  rewrite Forall_forall in Hall. by apply Hall.
Qed.

(** ** Theorems *)

(** After any additions and removals a first start makes the package run exactly the jobs of
    [list_jobs], in their order, each under its identifier with the trigger of its cron text
    or interval; [stop] then stops the scheduler and keeps the schedules. *)
Theorem apscheduler_runs_jobs {W P} (utcnow : W → Z) (monotonic : W → Q)
    `{AS : AsyncScheduler P (PyM W unit)} `{!AsyncSchedulerSpec P (PyM W unit)} cs es w :
  let a := fold_left ap_edit cs APSchedulerAdapter_init in
  Forall2 (schedule_for utcnow monotonic) (APSchedulerAdapter_list_jobs a) es →
  ∃ s w1 w2, let a' := mkAdapter (ap_jobs a) (Some s) in
    APSchedulerAdapter_start utcnow monotonic (a, w) = (Return tt, (a', w1)) ∧ running s w1 = true ∧ schedules s w1 = es ∧
    APSchedulerAdapter_stop (a', w1) = (Return tt, (a', w2)) ∧ running s w2 = false ∧ schedules s w2 = es.
Proof.
  intros a Hes. pose proof (get_scheduler_cases a w) as Hget.
  assert (ap_scheduler a = None) as Hnone by apply (ap_edits_scheduler cs APSchedulerAdapter_init).
  rewrite Hnone in Hget. destruct Hget as (s & w0 & Hget & Hs0 & _).
  destruct (start_with_scheduler utcnow monotonic s a _ w w0 es Hget Hes) as (w1 & Hst & Hr & Hs).
  destruct (stop_scheduler_ok s w1) as (w2 & Hstop & Hr2 & Hs2). exists s, w1, w2. simpl.
  assert (Hes' : schedules s w1 = es).
  { rewrite Hs, Hs0. apply add_entries_new. simpl. rewrite (schedule_ids utcnow monotonic _ es Hes).
    apply ap_wf_ids, ap_edits_wf. by split; [apply NoDup_nil|]. }
  split_and!; [done | done | done | | done | congruence].
  unfold APSchedulerAdapter_stop, mbind, PyM_bind, on_fst, on_snd, reads. simpl. by rewrite Hstop.
Qed.

(** A job whose trigger is refused ends the start with that error: the jobs before it
    are scheduled, the scheduler does not run, and it is kept for the next start. *)
Theorem apscheduler_bad_trigger {W P} (utcnow : W → Z) (monotonic : W → Q)
    `{AS : AsyncScheduler P (PyM W unit)} `{!AsyncSchedulerSpec P (PyM W unit)} a w jobs bad rest es e :
  ap_scheduler a = None → ap_wf a → APSchedulerAdapter_list_jobs a = jobs ++ bad :: rest →
  Forall2 (schedule_for utcnow monotonic) jobs es → job_trigger bad = Raise e →
  ∃ s w', APSchedulerAdapter_start utcnow monotonic (a, w) = (Raise e, (mkAdapter (ap_jobs a) (Some s), w')) ∧
    running s w' = false ∧ schedules s w' = es.
Proof.
  intros Hnone Hwf Hjobs Hes Hbad. pose proof (get_scheduler_cases a w) as Hget. rewrite Hnone in Hget.
  destruct Hget as (s & w0 & Hget & Hs0 & Hr0).
  destruct (register_jobs utcnow monotonic s jobs es (bad :: rest) (mkAdapter (ap_jobs a) (Some s)) w0 Hes) as (w1 & Hf & Hr & Hs).
  exists s, w1. split_and!; [|congruence|].
  - unfold APSchedulerAdapter_start, mbind, PyM_bind, on_fst, reads in *. rewrite Hget. cbn [fst snd].
    unfold APSchedulerAdapter_list_jobs in *. cbn [ap_jobs]. rewrite Hjobs, Hf. simpl.
    unfold mbind, PyM_bind, on_snd, register_job, mbind, PyM_bind, from_outcome. simpl. by rewrite Hbad.
  - rewrite Hs, Hs0. apply add_entries_new. simpl. rewrite (schedule_ids utcnow monotonic jobs es Hes).
    pose proof (ap_wf_ids a Hwf) as Hnd. rewrite Hjobs, map_app in Hnd. by apply NoDup_app in Hnd as [? _].
Qed.

(** Once the scheduler exists, edits of the adapter do not reach what is scheduled: after
    any removals and replacements and another start, every schedule there was is
    still there with its old trigger and handler. *)
Theorem apscheduler_edits_late {W P} (utcnow : W → Z) (monotonic : W → Q)
    `{AS : AsyncScheduler P (PyM W unit)} `{!AsyncSchedulerSpec P (PyM W unit)} a s cs es w :
  ap_scheduler a = Some s →
  let a' := fold_left ap_edit cs a in
  Forall2 (schedule_for utcnow monotonic) (APSchedulerAdapter_list_jobs a') es →
  ∃ w' new, APSchedulerAdapter_start utcnow monotonic (a', w) = (Return tt, (a', w')) ∧ schedules s w' = schedules s w ++ new.
Proof.
  intros Hs a' Hes. pose proof (get_scheduler_cases a' w) as Hget. unfold a' in Hget at 1. rewrite ap_edits_scheduler, Hs in Hget.
  destruct (start_with_scheduler utcnow monotonic s a' a' w w es Hget Hes) as (w' & Hst & _ & Hsch).
  destruct (add_entries_keep es (schedules s w)) as [new Hnew]. exists w', new. split; [done | congruence].
Qed.

(** A scheduled job that fails does not fail the scheduler: its handler ends normally
    unless the exception is outside [Exception]. *)
Theorem scheduled_handler_safe {W} (utcnow : W → Z) (monotonic : W → Q) (job : Job W) w e w' :
  scheduled_handler utcnow monotonic job w = (Raise e, w') → job_handler job w = (Raise e, w') ∧ is_Exception e = false.
Proof.
  unfold scheduled_handler, JobExecutionContext_run, try_except, try_base, mbind, PyM_bind, reads. simpl.
  unfold mbind, PyM_bind. destruct (job_handler job w) as [[[]|e'] w1]; [done|]. simpl.
  destruct (is_Exception e') eqn:He; simpl; [done|]. by intros [= <- <-].
Qed.

(** The rotation job runs at the five fields of the cron text, whatever white space
    separates them singly; a text that does not have five words is replaced by three o'clock every day. *)
Theorem rotation_cron {W Sched Job} (AsyncIOScheduler : PyM W Sched) (add_cron_job : Sched → Job → CronFields → PyM W unit)
    start_scheduler rotate_all m h d mo dow ws :
  Forall plain_word [m; h; d; mo; dow] → Forall plain_word ws → length ws ≠ 5%nat →
  let start cron := RotationScheduler_start AsyncIOScheduler add_cron_job start_scheduler rotate_all cron in
  cron_fields (join " " [m; h; d; mo; dow]) = mkCron m h d mo dow ∧
  start (join " " ws) = start RotationScheduler_default_cron.
Proof.
  intros H5 Hws Hl start. split; [unfold cron_fields; by rewrite py_split_join|].
  unfold start, RotationScheduler_start, cron_fields. rewrite (py_split_join ws Hws).
  by do 6 (destruct ws as [|? ws]; [done|]).
Qed.

(** A rotation sets a password of 32 printable characters, which is the one the statement
    was given and the one returned; when the statement fails the rotation fails with its error
    and the stored password is the old one. *)
Theorem password_rotation {W} (choice : string → PyM W ascii) `{!ChoosesFrom choice} user engine old w :
  ∃ pw w1, String.length pw = 32%nat ∧ str_all (in_range 33 126) pw = true ∧
    generate_strong_password choice 32 w = (Return pw, w1) ∧
    let p := mkPassword user engine in
    DatabasePasswordRotatable_rotate choice (p old, w) =
      match engine with
      | None => (Return pw, (p pw, w1))
      | Some execute =>
          match execute (alter_user_sql user) [("pw", pw)] w1 with
          | (Return _, w2) => (Return pw, (p pw, w2))
          | (Raise e, w2) => (Raise e, (p old, w2))
          end
      end.
Proof.
  destruct (password_chosen choice 32 w) as (pw & w1 & Hg & Hl & Ha). exists pw, w1. split_and!; [done..|].
  unfold DatabasePasswordRotatable_rotate, mbind, PyM_bind, on_fst, on_snd, reads, updates. cbn -[generate_strong_password].
  rewrite Hg. destruct engine as [execute|]; simpl; [|done].
  by destruct (execute (alter_user_sql user) [("pw", pw)] w1) as [[[]|e] w2].
Qed.

(** ** Instances and witnesses *)

Definition demo_world : Type := nat.
Record demo_package := mkPackage { pk_schedules : list (string * (string * PyM demo_world unit)); pk_running : bool }.

#[local] Instance demo_async_scheduler : AsyncScheduler demo_package (PyM demo_world unit) := {|
  scheduler := unit;
  trigger := string;
  new_scheduler := λ _, (Return tt, mkPackage [] false);
  CronTrigger_from_crontab cron := if Nat.eqb (length (py_split cron)) 5 then Return cron else Raise (ValueError "Wrong number of fields");
  IntervalTrigger s := match s with Some n => Return ("every " +:+ str_of_int n) | None => Raise (TypeError "seconds") end;
  add_schedule _ h t id := λ p,
    (Return tt, if od_mem id (pk_schedules p) then p else mkPackage (pk_schedules p ++ [(id, (t, h))]) (pk_running p));
  start_in_background _ := updates (λ p, mkPackage (pk_schedules p) true);
  stop_scheduler _ := updates (λ p, mkPackage (pk_schedules p) false);
|}.

#[local] Instance demo_async_scheduler_spec : AsyncSchedulerSpec demo_package (PyM demo_world unit).
Proof.
  refine {| schedules _ p := pk_schedules p; running _ p := pk_running p |}.
  - intros w. by exists tt, (mkPackage [] false).
  - intros s h t id w. eexists. split; [reflexivity|]. cbn. by destruct (od_mem id _).
  - intros s w. by eexists.
  - intros s w. by eexists.
Defined.

Definition demo_job (id : string) (cron : option string) (every : option Z) : Job demo_world := mkJob id id (mret tt) cron every true.
Definition demo_edits : list (ap_call (W := demo_world)) :=
  [AddJob (demo_job "a" None (Some 60%Z)); AddJob (demo_job "b" (Some "0 9 * * MON") None); AddJob (demo_job "c" None (Some 5%Z)); RemoveJob "a"].
Definition demo_utcnow (w : demo_world) : Z := Z.of_nat w.
Definition demo_time (w : demo_world) : Q := inject_Z (Z.of_nat w).
Definition demo_entry (job : Job demo_world) (t : string) : string * (string * PyM demo_world unit) :=
  (job_id job, (t, scheduled_handler demo_utcnow demo_time job)).

Lemma apscheduler_runs_jobs_witness :
  ∃ a w1, APSchedulerAdapter_start demo_utcnow demo_time (fold_left ap_edit demo_edits APSchedulerAdapter_init, mkPackage [] false) = (Return tt, (a, w1)) ∧
    map fst (pk_schedules w1) = ["b"; "c"].
Proof.
  destruct (apscheduler_runs_jobs (AS := demo_async_scheduler) demo_utcnow demo_time demo_edits
    [demo_entry (demo_job "b" (Some "0 9 * * MON") None) "0 9 * * MON"; demo_entry (demo_job "c" None (Some 5%Z)) "every 5"] (mkPackage [] false))
    as (s & w1 & w2 & H & _ & Hs & _).
  { repeat (apply Forall2_cons; split; [by eexists|]). constructor. }
  eexists _, w1. split; [exact H|]. simpl in Hs. by rewrite Hs.
Defined.

Definition demo_bad : APSchedulerAdapter demo_world demo_package :=
  fold_left ap_edit [AddJob (demo_job "a" None (Some 60%Z)); AddJob (demo_job "b" (Some "daily") None); AddJob (demo_job "c" None (Some 5%Z))] APSchedulerAdapter_init.

Lemma apscheduler_bad_trigger_witness :
  ∃ e a w1, APSchedulerAdapter_start demo_utcnow demo_time (demo_bad, mkPackage [] false) = (Raise e, (a, w1)) ∧
    map fst (pk_schedules w1) = ["a"] ∧ pk_running w1 = false.
Proof.
  destruct (apscheduler_bad_trigger (AS := demo_async_scheduler) demo_utcnow demo_time demo_bad (mkPackage [] false) [demo_job "a" None (Some 60%Z)]
    (demo_job "b" (Some "daily") None) [demo_job "c" None (Some 5%Z)] [demo_entry (demo_job "a" None (Some 60%Z)) "every 60"]
    (ValueError "Wrong number of fields")) as (s & w1 & H & Hr & Hs); [reflexivity | | reflexivity | | reflexivity|].
  - apply ap_edits_wf. by split; [apply NoDup_nil|].
  - repeat (apply Forall2_cons; split; [by eexists|]). constructor.
  - eexists _, _, w1. split; [exact H|]. simpl in Hs, Hr. by rewrite Hs.
Defined.

Definition demo_running : APSchedulerAdapter demo_world demo_package := mkAdapter [("a", demo_job "a" None (Some 60%Z))] (Some tt).

Lemma apscheduler_edits_late_witness :
  ∃ w' new, APSchedulerAdapter_start demo_utcnow demo_time
      (fold_left ap_edit [RemoveJob "a"] demo_running, mkPackage [demo_entry (demo_job "a" None (Some 60%Z)) "every 60"] true) =
        (Return tt, (mkAdapter [] (Some tt), w')) ∧
    pk_schedules w' = demo_entry (demo_job "a" None (Some 60%Z)) "every 60" :: new.
Proof.
  destruct (apscheduler_edits_late (AS := demo_async_scheduler) demo_utcnow demo_time demo_running tt [RemoveJob "a"] []
    (mkPackage [demo_entry (demo_job "a" None (Some 60%Z)) "every 60"] true)) as (w' & new & H & Hs); [reflexivity | constructor|].
  exists w', new. split; [exact H | exact Hs].
Defined.

Lemma scheduled_handler_safe_witness :
  is_Exception CancelledError = false.
Proof.
  apply (scheduled_handler_safe demo_utcnow demo_time (mkJob "a" "a" (raise CancelledError) None (Some 1%Z) true) 0%nat CancelledError 0%nat).
  reflexivity.
Defined.

Lemma rotation_cron_witness :
  cron_fields "30 2 * * SUN" = mkCron "30" "2" "*" "*" "SUN" ∧ cron_fields "@daily" = cron_fields RotationScheduler_default_cron.
Proof.
  destruct (rotation_cron (λ w : nat, (Return 0%nat, w)) (λ _ (_ : unit) f w, (Return tt, w)) (λ _ w, (Return tt, w)) tt
    "30" "2" "*" "*" "SUN" ["@daily"]) as [H _]; [repeat constructor; done | repeat constructor; done | done|].
  split; [exact H | reflexivity].
Defined.

#[local] Instance demo_chooses : ChoosesFrom (λ (s : string) (w : nat), (Return (default "a"%char (String.get 0 s)), w)).
Proof.
  split. intros [|c s] w Hs; [done|]. exists c, w. split; [done|]. simpl. left.
Defined.
