(* ===== verification/Wrappers.v ===== *)
(** * Wrappers around a call: caching, retries, logging set-up, profiling

    [cache_aside] of [resilience/cache/aside.py], [TenacityRetryPolicy] of
    [resilience/retry/tenacity_adapter.py], [JsonLoggerFactory] of
    [observability/logging/factory.py] and [observability/profiling/sampler.py].  The
    packages tenacity, structlog and pyinstrument and the module tracemalloc are parameters;
    what is relied on of tenacity's iteration and of structlog's processors is stated in
    classes of laws. *)
From S2P Require Import Prelude PyString OrderedDict PyValue Retry TaggedCache Masking.

(** ** The cache-aside decorator *)

Section CacheAside.
Context {V C W : Type} (float_repr : Q → string).

(** The object given as [cache]: its [set] takes the keyword [tags], as a
    [TaggedCacheStore] does, or it does not, as the protocol [SimpleCache] declares. *)
Inductive CacheObject :=
| TaggedObject (get : string → PyM C (option V)) (set : string → option V → Q → list string → PyM C unit)
| SimpleObject (get : string → PyM C (option V)) (set : string → option V → Q → PyM C unit).

(** [_AdapterCache]. *)
Definition AdapterCache_get (c : CacheObject) (key : string) : PyM C (option V) :=
  match c with TaggedObject get _ | SimpleObject get _ => get key end.

Definition AdapterCache_set (c : CacheObject) (key : string) (value : option V) (ttl : Q) : PyM C unit :=
  match c with
  | TaggedObject _ set => set key value ttl []
  | SimpleObject _ _ => raise (TypeError "set() got an unexpected keyword argument 'tags'")
  end.

(** [CacheAsidePolicy.get_or_load] of a call that finds the lock of its key free. *)
Definition get_or_load_alone (c : CacheObject) (ttl : Q) (key : string) (loader : PyM W (option V))
    : PyM (C * W) (option V) :=
  cached ← on_fst (AdapterCache_get c key);
  match cached with
  | Some v => mret (Some v)
  | None =>
      cached ← on_fst (AdapterCache_get c key);
      match cached with
      | Some v => mret (Some v)
      | None =>
          value ← on_snd loader;
          on_fst (AdapterCache_set c key value ttl) ;;
          mret value
      end
  end.

(** [repr] of a tuple, and of the sorted list of keyword arguments. *)
Definition tuple_repr (l : list pyval) : string :=
  match l with
  | [x] => "(" +:+ repr float_repr x +:+ ",)"
  | l => "(" +:+ join ", " (map (repr float_repr) l) +:+ ")"
  end.

(** [sorted(kwargs.items())]: by name, since names differ. *)
Definition sorted_items (kwargs : list (string * pyval)) : list (string * pyval) :=
  map (λ k, (k, default VNone (od_get k kwargs))) (sorted_strings kwargs.*1).

Definition items_repr (items : list (string * pyval)) : string :=
  "[" +:+ join ", " (map (λ e, "(" +:+ py_repr (fst e) +:+ ", " +:+ repr float_repr (snd e) +:+ ")") items) +:+ "]".

Definition cache_aside_key (key_fn : option (list pyval → list (string * pyval) → string)) (qualname : string)
    (args : list pyval) (kwargs : list (string * pyval)) : string :=
  match key_fn with
  | Some f => f args kwargs
  | None => qualname +:+ ":" +:+ tuple_repr args +:+ ":" +:+ items_repr (sorted_items kwargs)
  end.

(** The wrapper that [cache_aside] puts around [fn]. *)
Definition cache_aside (ttl : Q) (key_fn : option (list pyval → list (string * pyval) → string)) (c : CacheObject)
    (qualname : string) (fn : list pyval → list (string * pyval) → PyM W (option V))
    (args : list pyval) (kwargs : list (string * pyval)) : PyM (C * W) (option V) :=
  get_or_load_alone c ttl (cache_aside_key key_fn qualname args kwargs) (fn args kwargs).

End CacheAside.
Arguments CacheObject : clear implicits.

(** The store a function gets when none is given. *)
Definition default_cache {V} : CacheObject V (TaggedCache V) :=
  TaggedObject TaggedCache_get (λ key value _ tags, TaggedCache_set key value (Some tags)).

(** [CacheKey.for_query]; [dumps] is [json.dumps] with [default=str] on the items in order. *)
Definition CacheKey_for_query (dumps : list (string * pyval) → string) (query_type : string) (kwargs : list (string * pyval)) : string :=
  "query:" +:+ query_type +:+ ":" +:+ String.substring 0 16 (sha256_hex (dumps (sorted_items kwargs))).

(** ** Retries by tenacity *)

(** What the policy configures; further keyword arguments, which it passes on, are left out. *)
Record RetryingConfig (Wait : Type) := mkRetrying {
  rt_stop_after_attempt : Z;
  rt_wait : Wait;
  rt_retry : pyexn → bool;
  rt_reraise : bool;
}.
Arguments mkRetrying {Wait} _ _ _ _.
Arguments rt_stop_after_attempt {Wait} _.
Arguments rt_wait {Wait} _.
Arguments rt_retry {Wait} _.
Arguments rt_reraise {Wait} _.

(** The package over its own state [X], in which waiting happens: an asynchronous iterator of
    attempts, each a context manager that keeps how its block ended, and the call of a
    [Retrying] object. *)
Class Tenacity (X : Type) := {
  wait_strategy : Type;
  wait_fixed : Q → wait_strategy;
  retry_call_state : Type;
  AsyncRetrying : RetryingConfig wait_strategy → retry_call_state;
  anext_attempt : retry_call_state → PyM X (option retry_call_state);
  attempt_exit : retry_call_state → outcome unit → retry_call_state;
  Retrying : RetryingConfig wait_strategy → ∀ S A, PyM S A → PyM (S * X) A;
}.

Section TenacityPolicy.
Context {X : Type} `{TN : Tenacity X}.

(** [TenacityRetryPolicy.__init__] with its defaults, the package being installed. *)
Definition TenacityRetryPolicy_init (max_attempts : Z) (wait : option wait_strategy) (retry : option (pyexn → bool))
    (reraise : bool) : RetryingConfig wait_strategy :=
  mkRetrying max_attempts (default (wait_fixed 1) wait) (default (λ _, true) retry) reraise.

Definition TenacityRetryPolicy_execute {S A} (p : RetryingConfig wait_strategy) (func : PyM S A) : PyM (S * X) A :=
  Retrying p S A func.

(** The [async for] loop; the context manager of an attempt keeps every exception from leaving
    its block.  [fuel] bounds the attempts. *)
Fixpoint attempts_loop {S A} (func : PyM S A) (fuel : nat) (st : retry_call_state) (result : option A) : PyM (S * X) A :=
  match fuel with
  | O => raise (exn_of ["RecursionError"; "RuntimeError"] "fuel")
  | Datatypes.S fuel' =>
      attempt ← (on_snd (anext_attempt st) : PyM (S * X) (option retry_call_state));
      match attempt return PyM (S * X) A with
      | None =>
          match result with
          | Some v => mret v
          | None => raise (exn_of ["UnboundLocalError"; "NameError"] "cannot access local variable 'result'")
          end
      | Some st' => λ s : S * X,
          match func (fst s) with
          | (Return v, s1) => attempts_loop func fuel' (attempt_exit st' (Return tt)) (Some v) (s1, snd s)
          | (Raise e, s1) => attempts_loop func fuel' (attempt_exit st' (Raise e)) result (s1, snd s)
          end
      end
  end.

Definition TenacityRetryPolicy_execute_async {S A} (p : RetryingConfig wait_strategy) (func : PyM S A) (fuel : nat) : PyM (S * X) A :=
  attempts_loop func fuel (AsyncRetrying p) None.

End TenacityPolicy.

Definition RetryError (e : pyexn) : pyexn := exn_of ["RetryError"] ("RetryError[" +:+ exn_msg e +:+ "]").

(** What the documentation of tenacity says of the iteration: the first attempt comes at
    once; after a block that ended normally there is no other; after one that raised, the
    exception is raised when the predicate refuses it, or the limit is reached, then
    inside a [RetryError] unless it is to be raised itself; otherwise it waits and yields the next. *)
Class TenacitySpec (X : Type) `{TN : Tenacity X} := {
  st_config : retry_call_state → RetryingConfig wait_strategy;
  st_number : retry_call_state → Z;
  st_outcome : retry_call_state → option (outcome unit);
  async_retrying_ok p : let st := AsyncRetrying p in st_config st = p ∧ st_number st = 0%Z ∧ st_outcome st = None;
  attempt_exit_ok st o : let st' := attempt_exit st o in
    st_config st' = st_config st ∧ st_number st' = st_number st ∧ st_outcome st' = Some o;
  anext_attempt_ok st x :
    let next x' := ∃ st', anext_attempt st x = (Return (Some st'), x') ∧
      st_config st' = st_config st ∧ st_number st' = (st_number st + 1)%Z in
    match st_outcome st with
    | None => next x
    | Some (Return _) => anext_attempt st x = (Return None, x)
    | Some (Raise e) =>
        if negb (rt_retry (st_config st) e) then anext_attempt st x = (Raise e, x)
        else if (rt_stop_after_attempt (st_config st) <=? st_number st)%Z
             then anext_attempt st x = (Raise (if rt_reraise (st_config st) then e else RetryError e), x)
             else ∃ x', next x'
    end;
}.

(** ** Structured logging *)

Inductive Processor :=
| merge_contextvars
| add_logger_name
| add_log_level
| TimeStamper_iso
| StackInfoRenderer
| Redact (fields : gset string)
| wrap_for_formatter.

Inductive LogFormatter := JSONFormatter | PlainFormatter (format : string) | OtherFormatter.

(** The root logger, by the formatters of its handlers, and the configuration of structlog. *)
Record LoggingState := mkLogging {
  lg_handlers : list LogFormatter;
  lg_level : Z;
  lg_processors : list Processor;
}.

(** [logging.basicConfig] does nothing to a root logger that has handlers. *)
Definition basicConfig (level : Z) (format : string) (s : LoggingState) : LoggingState :=
  match lg_handlers s with
  | [] => mkLogging [PlainFormatter format] level (lg_processors s)
  | _ => s
  end.

Definition shared_processors (sensitive_fields : option (gset string)) : list Processor :=
  let shared := [merge_contextvars; add_logger_name; add_log_level; TimeStamper_iso; StackInfoRenderer] in
  match sensitive_fields with
  | Some fields => if decide (fields = ∅) then shared else Redact (SensitiveFieldsFilter_init (Some fields)) :: shared
  | None => shared
  end.

(** [JsonLoggerFactory.configure], with structlog installed or not. *)
Definition JsonLoggerFactory_configure (structlog : bool) (level : Z) (sensitive_fields : option (gset string))
    (s : LoggingState) : LoggingState :=
  if structlog
  then mkLogging [JSONFormatter] level (shared_processors sensitive_fields ++ [wrap_for_formatter])
  else basicConfig level "%(asctime)s %(levelname)s %(name)s %(message)s" s.

#[local] Abbreviation event_dict := (list (string * pyval)).

(** A processor on an event; those of the package are [package].  Processors run in order. *)
Definition run_processor (package : Processor → event_dict → event_dict) (p : Processor) (e : event_dict) : event_dict :=
  match p with
  | Redact fields => match SensitiveFieldsFilter_redact_deep fields e with VDict d => d | _ => e end
  | p => package p e
  end.

Definition run_processors (package : Processor → event_dict → event_dict) (ps : list Processor) (e : event_dict) : event_dict :=
  fold_left (λ e p, run_processor package p e) ps e.

(** The package's processors add entries; those of the context variables come under the
    names the event does not have. *)
Class StructlogSpec (package : Processor → event_dict → event_dict) (context : event_dict) := {
  package_keeps p e k v : od_get k e = Some v → od_get k (package p e) = Some v;
  merge_adds e k : od_get k e = None → od_get k (package merge_contextvars e) = od_get k context;
}.

(** ** Profiling *)

Record ProfileReport := mkReport { pr_duration_ms : Q; pr_html : string; pr_text : string }.

(** [save]: the files by their paths. *)
Definition ProfileReport_save (path : string) (r : ProfileReport) (files : gmap string string) : gmap string string :=
  <[path := if String.eqb (pr_html r) "" then pr_text r else pr_html r]> files.

Record MemoryStat := mkMemoryStat { ms_filename : string; ms_lineno : Z; ms_size_bytes : Z; ms_count : Z }.

Section Profiling.
Context {W Prof : Type} (Profiler : PyM W Prof) (profiler_start profiler_stop : Prof → PyM W unit)
  (last_session_duration : Prof → W → option Q) (output_html output_text : Prof → PyM W string).

Record CpuSampler := mkSampler { cs_profiler : option Prof; cs_report : option ProfileReport }.

Definition CpuSampler_init : CpuSampler := mkSampler None None.

Definition CpuSampler_start : PyM (CpuSampler * W) unit :=
  p ← on_snd Profiler;
  on_fst (updates (λ s, mkSampler (Some p) (cs_report s))) ;;
  on_snd (profiler_start p).

Definition CpuSampler_stop : PyM (CpuSampler * W) unit :=
  known ← on_fst (reads cs_profiler);
  match known with
  | None => raise (exn_of ["RuntimeError"] "Profiler not started")
  | Some p =>
      on_snd (profiler_stop p) ;;
      session ← on_snd (reads (last_session_duration p));
      html ← on_snd (output_html p);
      text ← on_snd (output_text p);
      on_fst (updates (λ s, mkSampler (cs_profiler s) (Some (mkReport (default 0%Q session * 1000)%Q html text))))
  end.

Definition CpuSampler_get_report : PyM (CpuSampler * W) ProfileReport :=
  r ← on_fst (reads cs_report);
  match r with
  | None => raise (exn_of ["RuntimeError"] "Call stop() before report()")
  | Some r => mret r
  end.

(** A statistic of tracemalloc: the frames of its traceback, its size and count. *)
Record Statistic := mkStatistic { sg_traceback : list (string * Z); sg_size : Z; sg_count : Z }.

Context (is_tracing : W → bool) (tracemalloc_start : PyM W unit) (statistics_by_line : PyM W (list Statistic)).

Fixpoint memory_stats (l : list Statistic) : outcome (list MemoryStat) :=
  match l with
  | [] => Return []
  | s :: l' =>
      match sg_traceback s with
      | [] => Raise (IndexError "tuple index out of range")
      | (filename, lineno) :: _ =>
          match memory_stats l' with
          | Return rest => Return (mkMemoryStat filename lineno (sg_size s) (sg_count s) :: rest)
          | Raise e => Raise e
          end
      end
  end.

Definition MemoryProfiler_snapshot (top_n : Z) : PyM W (list MemoryStat) :=
  tracing ← reads is_tracing;
  (if negb tracing then tracemalloc_start else mret tt) ;;
  stats ← statistics_by_line;
  from_outcome (memory_stats (slice_to top_n stats)).

End Profiling.
Arguments CpuSampler : clear implicits.

(** ** Lemmas *)

Lemma sorted_items_perm kwargs kwargs' : kwargs ≡ₚ kwargs' → NoDup kwargs.*1 → sorted_items kwargs = sorted_items kwargs'.
Proof.
  intros Hp Hn. unfold sorted_items. rewrite (sorted_strings_perm kwargs.*1 kwargs'.*1) by by rewrite Hp.
  apply map_ext. intros k. do 2 f_equal. assert (NoDup kwargs'.*1) as Hn' by by rewrite <- Hp.
  destruct (od_get k kwargs) as [v|] eqn:E.
  - apply od_get_elem in E. rewrite Hp in E. by rewrite (od_get_NoDup k v kwargs').
  - destruct (od_get k kwargs') as [v|] eqn:E'; [|done]. apply od_get_elem in E'. rewrite <- Hp in E'.
    by rewrite (od_get_NoDup k v kwargs) in E.
Qed.

Section TenacityLemmas.
Context {X A : Type} `{TN : Tenacity X} `{!TenacitySpec X}.

(** A function that follows a script, over the number of its calls. *)
Definition counted_script (script : nat → outcome A) : PyM nat A := λ n, (script (S n), S n).

(** An outcome after which there is no other attempt, and what the policy makes of the last one. *)
Definition ends_retries (p : RetryingConfig wait_strategy) (o : outcome A) : bool :=
  match o with Return _ => true | Raise e => negb (rt_retry p e) end.
Definition last_outcome (p : RetryingConfig wait_strategy) (o : outcome A) : outcome A :=
  match o with
  | Return v => Return v
  | Raise e => Raise (if rt_retry p e && negb (rt_reraise p) then RetryError e else e)
  end.

Context (p : RetryingConfig wait_strategy) (script : nat → outcome A).

(** The last attempt: the next round of the loop is the end of it. *)
Lemma attempts_loop_end fuel st c x :
  st_config st = p → st_number st = Z.of_nat c →
  ends_retries p (script c) = true ∨ (rt_stop_after_attempt p <= Z.of_nat c)%Z →
  let o := script c in
  let st' := attempt_exit st (match o with Return _ => Return tt | Raise e => Raise e end) in
  attempts_loop (counted_script script) (S fuel) st' (match o with Return v => Some v | Raise _ => None end) (c, x) = (last_outcome p o, (c, x)).
Proof.
  intros Hc Hn Hend o st'. destruct (attempt_exit_ok st (match o with Return _ => Return tt | Raise e => Raise e end)) as (H1 & H2 & H3).
  fold st' in H1, H2, H3. pose proof (anext_attempt_ok st' x) as Hx. rewrite H1, H2, H3, Hc, Hn in Hx.
  cbn [attempts_loop]. unfold mbind, PyM_bind, on_snd. cbn [fst snd]. unfold o in *. destruct (script c) as [v|e]; [by rewrite Hx|].
  simpl in Hend |- *. destruct (rt_retry p e); simpl in Hx |- *; [|by rewrite Hx].
  destruct Hend as [|Hend]; [done|]. apply Z.leb_le in Hend. rewrite Hend in Hx. rewrite Hx. by destruct (rt_reraise p).
Qed.

Lemma attempts_loop_spec n : ∀ c st x fuel,
  (∃ x' st', anext_attempt st x = (Return (Some st'), x') ∧ st_config st' = p ∧ st_number st' = (Z.of_nat c + 1)%Z) →
  (Z.of_nat c + Z.of_nat (S n) = rt_stop_after_attempt p)%Z → (S n < fuel)%nat →
  ∃ k x', attempts_loop (counted_script script) fuel st None (c, x) = (last_outcome p (script k), (k, x')) ∧ (c < k <= c + S n)%nat ∧
    (∀ i, (c < i < k)%nat → ends_retries p (script i) = false) ∧ (ends_retries p (script k) = true ∨ k = (c + S n)%nat).
Proof.
  induction n as [|n IH]; intros c st x fuel (x1 & st1 & Hnext & Hcfg & Hnum) Hmax Hfuel;
    (destruct fuel as [|[|fuel]]; [lia..|]);
    assert (Hstep : attempts_loop (counted_script script) (S (S fuel)) st None (c, x) =
      attempts_loop (counted_script script) (S fuel) (attempt_exit st1 (match script (S c) with Return _ => Return tt | Raise e => Raise e end))
        (match script (S c) with Return v => Some v | Raise _ => None end) (S c, x1))
      by (cbn -[attempts_loop]; remember (S fuel) as f1; cbn [attempts_loop]; unfold mbind, PyM_bind, on_snd; cbn [fst snd]; rewrite Hnext;
          unfold counted_script at 1; cbn [fst snd]; by destruct (script (S c)));
    replace (Z.of_nat c + 1)%Z with (Z.of_nat (S c)) in Hnum by lia.
  - exists (S c), x1. rewrite Hstep, attempts_loop_end; [|done|done|right; lia]. split_and!; [done | lia | lia | intros; lia | right; lia].
  - destruct (ends_retries p (script (S c))) eqn:Hend.
    { exists (S c), x1. rewrite Hstep, attempts_loop_end; [|done|done|by left]. split_and!; [done | lia | lia | intros; lia | by left]. }
    destruct (script (S c)) as [v|e] eqn:Hs; [done|]. simpl in Hend. apply negb_false_iff in Hend.
    destruct (attempt_exit_ok st1 (Raise e)) as (H1 & H2 & H3). pose proof (anext_attempt_ok (attempt_exit st1 (Raise e)) x1) as Hx.
    rewrite H1, H2, H3, Hcfg, Hnum, Hend in Hx. cbn [negb] in Hx.
    assert ((rt_stop_after_attempt p <=? Z.of_nat (S c))%Z = false) as Hlt by (apply Z.leb_gt; lia). rewrite Hlt in Hx.
    destruct Hx as (x2 & st2 & Hn2 & Hc2 & Hnum2).
    destruct (IH (S c) (attempt_exit st1 (Raise e)) x1 (S fuel)) as (k & x' & Hrun & Hk & Hbefore & Hlast); [by exists x2, st2 | lia | lia |].
    exists k, x'. rewrite Hstep, Hrun. split_and!; [done | lia | lia | | destruct Hlast; [by left | right; lia]].
    intros i Hi. destruct (decide (i = S c)) as [->|]; [rewrite Hs; simpl; by rewrite Hend | apply Hbefore; lia].
Qed.

(** A whole call: the attempts it makes and how it ends. *)
Lemma tenacity_calls x fuel : (1 <= rt_stop_after_attempt p)%Z → (rt_stop_after_attempt p < Z.of_nat fuel)%Z →
  ∃ k x', TenacityRetryPolicy_execute_async p (counted_script script) fuel (0%nat, x) = (last_outcome p (script k), (k, x')) ∧
    (1 <= Z.of_nat k <= rt_stop_after_attempt p)%Z ∧
    (∀ i, (0 < i < k)%nat → ends_retries p (script i) = false) ∧
    (ends_retries p (script k) = true ∨ Z.of_nat k = rt_stop_after_attempt p).
Proof.
  intros Hmax Hfuel. destruct (async_retrying_ok p) as (H1 & H2 & H3).
  pose proof (anext_attempt_ok (AsyncRetrying p) x) as Hx. rewrite H1, H2, H3 in Hx. destruct Hx as (st' & Hn & Hc & Hnum).
  destruct (attempts_loop_spec (pred (Z.to_nat (rt_stop_after_attempt p))) 0 (AsyncRetrying p) x fuel) as (k & x' & Hrun & Hk & Hb & Hl);
    [by exists x, st' | lia | lia|].
  exists k, x'. split_and!; [done | lia | lia | done | destruct Hl; [by left | right; lia]].
Qed.

End TenacityLemmas.

(** ** Theorems *)

(** A function decorated with [cache_aside] and no cache of its own runs once for given
    arguments, in whatever order the keyword arguments come: later calls return what the first returned and change nothing. *)
Theorem cache_aside_once {V W} float_repr ttl (c : TaggedCache V) qualname (fn : list pyval → list (string * pyval) → PyM W (option V))
    args kwargs kwargs' v w w' :
  mjoin (tc_data c !! cache_aside_key float_repr None qualname args kwargs) = None →
  kwargs ≡ₚ kwargs' → NoDup kwargs.*1 → fn args kwargs w = (Return (Some v), w') →
  let call := cache_aside float_repr ttl None default_cache qualname fn args in
  ∃ c', call kwargs (c, w) = (Return (Some v), (c', w')) ∧ ∀ w2, call kwargs' (c', w2) = (Return (Some v), (c', w2)).
Proof.
  intros Hmiss Hp Hn Hfn call. set (key := cache_aside_key float_repr None qualname args kwargs) in *.
  exists (snd (TaggedCache_set key (Some v) (Some []) c)). unfold call, cache_aside.
  assert (cache_aside_key float_repr None qualname args kwargs' = key) as ->.
  { unfold key, cache_aside_key. by rewrite (sorted_items_perm kwargs kwargs'). }
  fold key. unfold get_or_load_alone, mbind, PyM_bind, on_fst, on_snd, default_cache, AdapterCache_get, AdapterCache_set, TaggedCache_get, reads.
  cbn [fst snd]. rewrite Hmiss. cbn [fst snd]. rewrite Hmiss. cbn [fst snd]. rewrite Hfn. split; [done|]. intros w2. simpl. by rewrite lookup_insert_eq.
Qed.

(** The key of a query does not depend on the order of its parameters. *)
Theorem query_key_order dumps query_type kwargs kwargs' :
  kwargs ≡ₚ kwargs' → NoDup kwargs.*1 → CacheKey_for_query dumps query_type kwargs = CacheKey_for_query dumps query_type kwargs'.
Proof. intros Hp Hn. unfold CacheKey_for_query. by rewrite (sorted_items_perm kwargs kwargs'). Qed.

(** A cache with the interface of [SimpleCache] cannot be used: the function runs, and
    then the call fails with a TypeError instead of returning its result. *)
Theorem cache_aside_simple_cache {V C W} float_repr ttl key_fn get set qualname
    (fn : list pyval → list (string * pyval) → PyM W (option V)) args kwargs (s : C) w r w' :
  get (cache_aside_key float_repr key_fn qualname args kwargs) s = (Return None, s) → fn args kwargs w = (Return r, w') →
  ∃ e, cache_aside float_repr ttl key_fn (SimpleObject get set) qualname fn args kwargs (s, w) = (Raise e, (s, w')) ∧
    isinstance e "TypeError" = true.
Proof.
  intros Hget Hfn. unfold cache_aside, get_or_load_alone, mbind, PyM_bind, on_fst, on_snd. cbn [fst snd AdapterCache_get].
  rewrite Hget. cbn [fst snd]. rewrite Hget. cbn [fst snd]. rewrite Hfn. by eexists.
Qed.

(** The policy over tenacity calls the function exactly [k] times, where [k] is the first
    attempt that returns or raises what the predicate refuses, or [max_attempts]; the result is
    that of the last call, inside a [RetryError] only where the attempts ran out and [reraise] is off. *)
Theorem tenacity_retries {X A} `{TN : Tenacity X} `{!TenacitySpec X} max_attempts wait retry reraise (script : nat → outcome A) x fuel :
  (1 <= max_attempts < Z.of_nat fuel)%Z →
  let p := TenacityRetryPolicy_init max_attempts wait retry reraise in
  ∃ k x', TenacityRetryPolicy_execute_async p (counted_script script) fuel (0%nat, x) = (last_outcome p (script k), (k, x')) ∧
    (1 <= Z.of_nat k <= max_attempts)%Z ∧
    (∀ i, (0 < i < k)%nat → ends_retries p (script i) = false) ∧
    (ends_retries p (script k) = true ∨ Z.of_nat k = max_attempts).
Proof. intros [H1 H2] p. exact (tenacity_calls p script x fuel H1 H2). Qed.

(** The policy over tenacity and [RetryPolicy] are interchangeable as long as the function
    raises only exceptions of [Exception]: with their defaults for what is retried they make the same number of calls with the same
    result, whatever they wait in between. *)
Theorem tenacity_interchangeable {X A} `{TN : Tenacity X} `{!TenacitySpec X} wait (q : RetryPolicy ScriptWorld) (script : nat → outcome A) lo D x w fuel :
  jitter_within lo (jitter q) → (∀ d, (0 <= d)%Q → (0 <= lo d)%Q) →
  (∀ i, (1 <= i < max_attempts q)%Z → ∃ d, compute (backoff q) i = Return d ∧ (0 <= d <= D)%Q) →
  draws_ok w → sw_calls w = 0%nat → retryable_exceptions q = ["Exception"] →
  (∀ i e, script i = Raise e → is_Exception e = true) → (1 <= max_attempts q < Z.of_nat fuel)%Z →
  let t := TenacityRetryPolicy_execute_async (TenacityRetryPolicy_init (max_attempts q) wait None true) (counted_script script) fuel (0%nat, x) in
  let r := RetryPolicy_execute_async q (scripted script) w in
  fst t = fst r ∧ fst (snd t) = sw_calls (snd r).
Proof.
  intros Hj Hlo Hb Hw Hc Hre Hexc [H1 Hf] t r. set (p := TenacityRetryPolicy_init (max_attempts q) wait None true) in *.
  destruct (tenacity_calls p script x fuel H1 Hf) as (k & x' & Ht & Hk & Hbefore & Hlast).
  assert (∃ n, Z.to_nat (max_attempts q) = S n) as [n Hn] by (exists (pred (Z.to_nat (max_attempts q))); lia).
  destruct (retry_loop_spec q script lo D Hj Hlo Hb asyncio_sleep asyncio_sleep_ok n 0 w None)
    as (k' & w' & l & Hr & Hk' & Hbefore' & Hlast' & Hcalls & _); [done | done | lia |].
  assert (Hsame : ∀ i, ends_retries p (script i) = final_outcome q (script i)).
  { intros i. unfold ends_retries, final_outcome. destruct (script i) as [v|e] eqn:Hs; [done|]. simpl.
    unfold should_retry, isinstance_any. rewrite Hre. cbn [existsb]. fold (is_Exception e). by rewrite (Hexc i e Hs). }
  assert (k = k') as <-.
  { change (rt_stop_after_attempt p) with (max_attempts q) in *. rewrite Hsame in Hlast.
    destruct (lt_eq_lt_dec k k') as [[Hlt|]|Hlt]; [|done|].
    - specialize (Hbefore' k ltac:(lia)). destruct Hlast as [|Hlast]; [congruence | lia].
    - specialize (Hbefore k' ltac:(lia)). rewrite Hsame in Hbefore. destruct Hlast' as [|Hlast']; [congruence | lia]. }
  unfold t, r, RetryPolicy_execute_async. rewrite Ht, Hn. change 1%Z with (Z.of_nat 0 + 1)%Z. rewrite Hr. simpl. split; [|done].
  by destruct (script k).
Qed.

(** With the default predicate a cancellation is retried like any other exception: the
    attempt that was cancelled is made again and its result returned. *)
Theorem tenacity_swallows_cancellation {X A} `{TN : Tenacity X} `{!TenacitySpec X} max_attempts wait reraise (script : nat → outcome A) v x fuel :
  (2 <= max_attempts < Z.of_nat fuel)%Z → script 1%nat = Raise CancelledError → script 2%nat = Return v →
  ∃ x', TenacityRetryPolicy_execute_async (TenacityRetryPolicy_init max_attempts wait None reraise) (counted_script script) fuel (0%nat, x) =
    (Return v, (2%nat, x')).
Proof.
  intros Hm H1 H2. set (p := TenacityRetryPolicy_init max_attempts wait None reraise).
  destruct (tenacity_calls p script x fuel) as (k & x' & Ht & Hk & Hbefore & Hlast); [simpl; lia | simpl; lia |].
  exists x'. rewrite Ht. change (rt_stop_after_attempt p) with max_attempts in *. assert (k = 2%nat) as ->.
  { destruct (decide (k = 1%nat)) as [->|]; [rewrite H1 in Hlast; destruct Hlast as [Hl|Hl]; [done | lia]|].
    destruct (decide (2 < k)%nat); [|lia]. specialize (Hbefore 2%nat ltac:(lia)). by rewrite H2 in Hbefore. }
  by rewrite H2.
Qed.

(** After [configure] the root logger has one handler, which writes JSON, and the given
    level, whatever it had before; without structlog only a root logger without handlers
    is configured, and one that has handlers keeps even its level. *)
Theorem configure_root level sensitive_fields s :
  let c := JsonLoggerFactory_configure true level sensitive_fields s in
  lg_handlers c = [JSONFormatter] ∧ lg_level c = level ∧ JsonLoggerFactory_configure true level sensitive_fields c = c ∧
  (JsonLoggerFactory_configure false level sensitive_fields s = s ↔
     lg_handlers s ≠ []) ∧
  (lg_handlers s = [] → lg_level (JsonLoggerFactory_configure false level sensitive_fields s) = level).
Proof.
  split_and!; [done | done | done | |].
  - unfold JsonLoggerFactory_configure, basicConfig. destruct s as [[|h hs] l ps]; simpl; [|done]. split; [by intros [=] | done].
  - unfold JsonLoggerFactory_configure, basicConfig. intros ->. done.
Qed.

Section Redaction.
Context (package : Processor → event_dict → event_dict) (context : event_dict) `{!StructlogSpec package context}.
Context (fields : gset string) (Hfields : fields ≠ ∅).

Lemma od_get_mapped (f : string → pyval → pyval) k (e : event_dict) :
  od_get k (map (λ x, (fst x, f (fst x) (snd x))) e) = f k <$> od_get k e.
Proof. induction e as [|[k' v] e IH]; [done|]. simpl. case_decide as Hk; [by subst | exact IH]. Qed.

(** The chain: redaction, the context variables, and processors that keep what is there. *)
Lemma chain_keeps k v ps e : Forall (λ p, ∀ f, p ≠ Redact f) ps → od_get k e = Some v → od_get k (run_processors package ps e) = Some v.
Proof.
  unfold run_processors. intros Hps. revert e. induction Hps as [|p ps Hp _ IH]; intros e He; [done|]. simpl. apply IH.
  destruct p; simpl; try (by apply package_keeps). by destruct (Hp fields0).
Qed.

Lemma configured_chain e :
  run_processors package (lg_processors (JsonLoggerFactory_configure true 0 (Some fields) (mkLogging [] 0 []))) e =
  run_processors package [add_logger_name; add_log_level; TimeStamper_iso; StackInfoRenderer; wrap_for_formatter]
    (package merge_contextvars (run_processor package (Redact fields) e)).
Proof.
  unfold JsonLoggerFactory_configure, shared_processors, SensitiveFieldsFilter_init. simpl. rewrite !decide_False by done. done.
Qed.

Lemma redacted_entry k e :
  od_get k (run_processor package (Redact fields) e) =
    (λ v, if is_sensitive fields k then VStr "[REDACTED]" else redact_value fields id "[REDACTED]" v) <$> od_get k e.
Proof.
  unfold run_processor, SensitiveFieldsFilter_redact_deep. cbn [redact_value].
  apply (od_get_mapped (λ k v, if is_sensitive fields k then VStr "[REDACTED]" else redact_value fields id "[REDACTED]" v)).
Qed.

End Redaction.

(** Sensitive fields given with an event are redacted in what is rendered; the same fields
    bound to the context variables are merged after the redaction and are rendered as they are. *)
Theorem redaction_misses_context package context `{!StructlogSpec package context} fields level s e k v :
  fields ≠ ∅ → is_sensitive fields k = true →
  let rendered := run_processors package (lg_processors (JsonLoggerFactory_configure true level (Some fields) s)) e in
  (od_get k e = Some v → od_get k rendered = Some (VStr "[REDACTED]")) ∧
  (od_get k e = None → od_get k context = Some v → od_get k rendered = Some v).
Proof.
  intros Hf Hk rendered. unfold rendered. rewrite (configured_chain package fields Hf e : run_processors package (lg_processors (JsonLoggerFactory_configure true level (Some fields) s)) e = _).
  split.
  - intros He. apply (chain_keeps package context); [repeat constructor; done|]. apply package_keeps. by rewrite redacted_entry, He, Hk.
  - intros He Hc. apply (chain_keeps package context); [repeat constructor; done|]. rewrite merge_adds; [done|]. by rewrite redacted_entry, He.
Qed.

(** The sampler: [stop] needs a [start], a report needs a [stop]; a run gives the report of
    its own profiler with the duration in milliseconds, and a [stop] that fails leaves the report of the run before. *)
Theorem sampler_exact {W Prof} Profiler profiler_start profiler_stop duration html text (s : CpuSampler Prof) (w : W) p w1 :
  Profiler w = (Return p, w1) →
  let start := CpuSampler_start Profiler profiler_start in
  let stop := CpuSampler_stop profiler_stop duration html text in
  (cs_profiler s = None → ∃ e, stop (s, w) = (Raise e, (s, w)) ∧ isinstance e "RuntimeError" = true) ∧
  (cs_report s = None → ∃ e, CpuSampler_get_report (s, w) = (Raise e, (s, w)) ∧ isinstance e "RuntimeError" = true) ∧
  (∀ e w2, profiler_start p w1 = (Raise e, w2) → start (s, w) = (Raise e, (mkSampler (Some p) (cs_report s), w2))) ∧
  (∀ w2, profiler_start p w1 = (Return tt, w2) →
     start (s, w) = (Return tt, (mkSampler (Some p) (cs_report s), w2)) ∧
     (∀ w3 h w4 t w5, profiler_stop p w2 = (Return tt, w3) → html p w3 = (Return h, w4) → text p w4 = (Return t, w5) →
        (start ;; stop ;; CpuSampler_get_report) (s, w) =
          (Return (mkReport (default 0%Q (duration p w3) * 1000)%Q h t),
           (mkSampler (Some p) (Some (mkReport (default 0%Q (duration p w3) * 1000)%Q h t)), w5))) ∧
     (∀ e w3, profiler_stop p w2 = (Raise e, w3) → (start ;; stop) (s, w) = (Raise e, (mkSampler (Some p) (cs_report s), w3)))).
Proof.
  intros Hp start stop. unfold start, stop, CpuSampler_start, CpuSampler_stop, CpuSampler_get_report, mbind, PyM_bind, on_fst, on_snd, reads, updates.
  cbn [fst snd]. rewrite Hp. cbn [fst snd cs_report]. split_and!.
  - intros ->. by eexists.
  - intros ->. by eexists.
  - intros e w2 Hs. by rewrite Hs.
  - intros w2 Hs. rewrite Hs. cbn [fst snd cs_profiler cs_report]. split_and!; [done| |].
    + intros w3 h w4 t w5 H3 H4 H5. rewrite H3. cbn [fst snd]. rewrite H4. cbn [fst snd]. rewrite H5. done.
    + intros e w3 H3. by rewrite H3.
Qed.

(** A snapshot starts the tracing if it is off and gives the first [top_n] statistics in
    their order, fewer if there are fewer. *)
Theorem memory_snapshot {W} (is_tracing : W → bool) (tracemalloc_start : PyM W unit) (statistics : PyM W (list Statistic)) (top_n : Z) (w w1 w2 : W) stats :
  (0 <= top_n)%Z →
  (if is_tracing w then w1 = w else tracemalloc_start w = (Return tt, w1)) → statistics w1 = (Return stats, w2) →
  Forall (λ s, sg_traceback s ≠ []) stats →
  ∃ l, MemoryProfiler_snapshot is_tracing tracemalloc_start statistics top_n w = (Return l, w2) ∧
    length l = Nat.min (Z.to_nat top_n) (length stats) ∧
    ∀ i m, l !! i = Some m → ∃ s f, stats !! i = Some s ∧ head (sg_traceback s) = Some f ∧ m = mkMemoryStat (fst f) (snd f) (sg_size s) (sg_count s).
Proof.
  intros Hn Hstart Hstats Hall.
  assert (Hrun : MemoryProfiler_snapshot is_tracing tracemalloc_start statistics top_n w = (memory_stats (take (Z.to_nat top_n) stats), w2)).
  { unfold MemoryProfiler_snapshot, mbind, PyM_bind, reads, from_outcome, slice_to. replace (top_n <? 0)%Z with false by (symmetry; apply Z.ltb_ge; lia).
    destruct (is_tracing w); simpl; [subst; by rewrite Hstats | by rewrite Hstart, Hstats]. }
  assert (Hms : ∀ ss, Forall (λ s, sg_traceback s ≠ []) ss → ∃ l, memory_stats ss = Return l ∧ Forall2 (λ s m, ∃ f, head (sg_traceback s) = Some f ∧
    m = mkMemoryStat (fst f) (snd f) (sg_size s) (sg_count s)) ss l).
  { induction 1 as [|s ss Hs _ (l & Hl & H2)]; [by exists []|]. simpl. destruct (sg_traceback s) as [|[fn ln] fs] eqn:E; [done|].
    rewrite Hl. eexists. split; [done|]. constructor; [|done]. exists (fn, ln). by rewrite E. }
  destruct (Hms (take (Z.to_nat top_n) stats)) as (l & Hl & H2); [by apply Forall_take|]. exists l. rewrite Hrun, Hl. split_and!; [done| |].
  - by rewrite <- (Forall2_length _ _ _ H2), length_take.
  - intros i m Hi. destruct (Forall2_lookup_r _ _ _ _ _ H2 Hi) as (s & Hs & f & Hf & ->). exists s, f. split_and!; [|done..].
    apply lookup_take_Some in Hs as [Hs _]. done.
Qed.

(** ** Instances and witnesses *)

Lemma cache_aside_once_witness :
  ∃ c', cache_aside (λ _, "") 300 None default_cache "price" (λ _ _ (w : nat), (Return (Some 7%nat), S w)) [VStr "sku"]
      [("b", VInt 2); ("a", VInt 1)] (TaggedCache_init, 0%nat) = (Return (Some 7%nat), (c', 1%nat)) ∧
    ∀ w2, cache_aside (λ _, "") 300 None default_cache "price" (λ _ _ (w : nat), (Return (Some 7%nat), S w)) [VStr "sku"]
      [("a", VInt 1); ("b", VInt 2)] (c', w2) = (Return (Some 7%nat), (c', w2)).
Proof.
  apply (cache_aside_once (λ _, "") 300 TaggedCache_init "price" (λ _ _ (w : nat), (Return (Some 7%nat), S w)) [VStr "sku"]
    [("b", VInt 2); ("a", VInt 1)] [("a", VInt 1); ("b", VInt 2)] 7%nat 0%nat 1%nat); [reflexivity | apply perm_swap | | reflexivity].
  apply NoDup_cons. split; [|apply NoDup_singleton]. by intros [[=]|[]%not_elem_of_nil]%elem_of_cons.
Defined.

Lemma query_key_order_witness :
  CacheKey_for_query (λ _, "") "orders" [("b", VInt 2); ("a", VInt 1)] = CacheKey_for_query (λ _, "") "orders" [("a", VInt 1); ("b", VInt 2)].
Proof.
  apply (query_key_order (λ _, "") "orders" [("b", VInt 2); ("a", VInt 1)] [("a", VInt 1); ("b", VInt 2)]); [apply perm_swap|].
  apply NoDup_cons. split; [|apply NoDup_singleton]. by intros [[=]|[]%not_elem_of_nil]%elem_of_cons.
Defined.

Lemma cache_aside_simple_cache_witness :
  ∃ e, cache_aside (λ _, "") 300 None (SimpleObject (λ _ s, (Return None, s)) (λ _ _ _ s, (Return tt, s))) "f"
      (λ _ _ (w : nat), (Return (Some 7%nat), S w)) [] [] (tt, 0%nat) = (Raise e, (tt, 1%nat)) ∧ isinstance e "TypeError" = true.
Proof.
  apply (cache_aside_simple_cache (λ _, "") 300 None (λ _ s, (Return None, s)) (λ _ _ _ s, (Return tt, s)) "f"
    (λ _ _ (w : nat), (Return (Some 7%nat), S w)) [] [] tt 0%nat (Some 7%nat) 1%nat); reflexivity.
Defined.

(** A package that keeps the configuration, the number of the attempt and its outcome, and
    counts its waits. *)
Definition demo_attempt : Type := RetryingConfig Q * Z * option (outcome unit).

#[local] Instance demo_tenacity : Tenacity nat := {|
  wait_strategy := Q;
  wait_fixed q := q;
  retry_call_state := demo_attempt;
  AsyncRetrying p := (p, 0%Z, None);
  anext_attempt (st : demo_attempt) := λ x,
    let '(p, n, o) := st in
    match o with
    | None => (Return (Some (p, (n + 1)%Z, None)), x)
    | Some (Return _) => (Return None, x)
    | Some (Raise e) =>
        if negb (rt_retry p e) then (Raise e, x)
        else if (rt_stop_after_attempt p <=? n)%Z then (Raise (if rt_reraise p then e else RetryError e), x)
        else (Return (Some (p, (n + 1)%Z, None)), S x)
    end;
  attempt_exit (st : demo_attempt) o := (fst st, Some o);
  Retrying p S A func := on_fst func;
|}.

#[local] Instance demo_tenacity_spec : TenacitySpec nat.
Proof.
  refine (Build_TenacitySpec nat demo_tenacity (λ st : demo_attempt, fst (fst st)) (λ st : demo_attempt, snd (fst st)) (λ st : demo_attempt, snd st) _ _ _).
  - done.
  - done.
  - intros [[p n] [[u|e]|]] x; cbn; [done| |by eexists]. destruct (rt_retry p e); [|done]. simpl.
    destruct (rt_stop_after_attempt p <=? n)%Z; [done|]. exists (S x). by eexists.
Defined.

Definition demo_script (i : nat) : outcome nat := if (i <? 3)%nat then Raise (ValueError "x") else Return 7%nat.

Lemma tenacity_retries_witness :
  ∃ k x', TenacityRetryPolicy_execute_async (TenacityRetryPolicy_init 3 None None true) (counted_script demo_script) 9 (0%nat, 0%nat) =
    (last_outcome (TenacityRetryPolicy_init 3 None None true) (demo_script k), (k, x')) ∧ (1 <= Z.of_nat k <= 3)%Z.
Proof.
  destruct (tenacity_retries (TN := demo_tenacity) 3 None None true demo_script 0%nat 9) as (k & x' & H & Hk & _); [lia|].
  exists k, x'. split; [exact H | exact Hk].
Defined.

Lemma tenacity_interchangeable_witness :
  fst (TenacityRetryPolicy_execute_async (TenacityRetryPolicy_init 3 None None true) (counted_script retry_script0) 9 (0%nat, 0%nat)) =
  fst (RetryPolicy_execute_async retry_policy0 (scripted retry_script0) retry_world0).
Proof.
  apply (tenacity_interchangeable (TN := demo_tenacity) None retry_policy0 retry_script0 (λ _, 0%Q) 1 0%nat retry_world0 9).
  - apply jitter_full_within.
  - intros d _. apply Qle_refl.
  - intros i _. exists 1. split; [reflexivity | lra].
  - intros i. simpl. split; [discriminate | reflexivity].
  - reflexivity.
  - reflexivity.
  - intros i e. unfold retry_script0. destruct (i <? 3)%nat; [|discriminate]. by intros [= <-].
  - simpl; lia.
Defined.

Lemma tenacity_swallows_cancellation_witness :
  ∃ x', TenacityRetryPolicy_execute_async (TenacityRetryPolicy_init 3 None None true)
    (counted_script (λ i, if Nat.eqb i 1 then Raise CancelledError else Return 5%nat)) 9 (0%nat, 0%nat) = (Return 5%nat, (2%nat, x')).
Proof.
  apply (tenacity_swallows_cancellation (TN := demo_tenacity) 3 None true (λ i, if Nat.eqb i 1 then Raise CancelledError else Return 5%nat) 5%nat 0%nat 9);
    [lia | reflexivity | reflexivity].
Defined.

Definition demo_structlog_package (p : Processor) (e : event_dict) : event_dict :=
  match p with merge_contextvars => e ++ [("password", VStr "p1")] | _ => e end.

#[local] Instance demo_structlog : StructlogSpec demo_structlog_package [("password", VStr "p1")].
Proof.
  split.
  - intros p e k v He. destruct p; simpl; try done. induction e as [|[k' v'] e IH]; [done|]. simpl in *. case_decide; auto.
  - intros e k. cbn [demo_structlog_package]. generalize [("password", VStr "p1")] as ctx. intros ctx He.
    induction e as [|[k' v'] e IH]; [done|]. simpl in *. case_decide; [done | auto].
Defined.

Lemma redaction_misses_context_witness :
  od_get "password" (run_processors demo_structlog_package (lg_processors (JsonLoggerFactory_configure true 20 (Some {["password"]}) (mkLogging [] 0 []))) [("event", VStr "login")]) =
    Some (VStr "p1").
Proof.
  apply (redaction_misses_context demo_structlog_package [("password", VStr "p1")] {["password"]} 20 (mkLogging [] 0 []) [("event", VStr "login")] "password" (VStr "p1"));
    [set_solver | vm_compute; reflexivity | reflexivity | reflexivity].
Defined.

Lemma configure_root_witness :
  lg_level (JsonLoggerFactory_configure false 10 None (mkLogging [] 0 [])) = 10%Z.
Proof. apply (configure_root 10 None (mkLogging [] 0 [])). reflexivity. Defined.

Lemma sampler_exact_witness :
  ∃ e, CpuSampler_stop (λ _ w, (Return tt, w)) (λ _ _, Some 2%Q) (λ _ w, (Return "h", w)) (λ _ w, (Return "t", w)) (CpuSampler_init (Prof := unit), 0%nat) =
    (Raise e, (CpuSampler_init, 0%nat)) ∧ isinstance e "RuntimeError" = true.
Proof.
  apply (sampler_exact (λ w, (Return tt, w)) (λ _ w, (Return tt, w)) (λ _ w, (Return tt, w)) (λ _ _, Some 2%Q) (λ _ w, (Return "h", w)) (λ _ w, (Return "t", w))
    (CpuSampler_init (Prof := unit)) 0%nat tt 0%nat); reflexivity.
Defined.

Lemma memory_snapshot_witness :
  ∃ l, MemoryProfiler_snapshot (W := unit) (λ _, true) (λ w, (Return tt, w)) (λ w, (Return [mkStatistic [("a.py", 3%Z)] 10 1; mkStatistic [("b.py", 4%Z)] 5 1], w)) 1 tt = (Return l, tt) ∧
    length l = 1%nat.
Proof.
  destruct (memory_snapshot (W := unit) (λ _, true) (λ w, (Return tt, w)) (λ w, (Return [mkStatistic [("a.py", 3%Z)] 10 1; mkStatistic [("b.py", 4%Z)] 5 1], w)) 1 tt tt tt
    [mkStatistic [("a.py", 3%Z)] 10 1; mkStatistic [("b.py", 4%Z)] 5 1]) as (l & H & Hl & _); [lia | reflexivity | reflexivity | repeat constructor; done |].
  exists l. split; [exact H | exact Hl].
Defined.
