(* ===== verification/TestTools.v ===== *)
(** * Tools around tests

    [testing/chaos/toxiproxy.py], [testing/fixtures/database.py],
    [testing/load/locust_helpers.py], [testing/approval/plugin.py] and the traffic of
    [src/docs/examples/locustfile.py].  HTTP clients, the database engine, the events of
    locust, random choices and the clock are parameters; what is relied on of the HTTP
    interface of toxiproxy is the class [ToxiproxyServer]. *)
From S2P Require Import Prelude PyString OrderedDict PyValue Observability HttpClients TestAsserts.

(** ** Toxiproxy *)

Section Toxiproxy.
Context {W : Type} (client_request : string → string → option pyval → PyM W (Z * option pyval)).

Definition HTTPStatusError (status : Z) : pyexn := exn_of ["HTTPStatusError"; "HTTPError"] (str_of_int status).

(** [ToxiproxyHarness.__init__]: the address without slashes at its end. *)
Definition ToxiproxyHarness_init (api_url : string) : string := rstrip_by (λ c, Ascii.eqb c "/") api_url.

Definition ToxiproxyHarness_request (api method path : string) (json : option pyval) : PyM W pyval :=
  '(status, content) ← client_request method (api +:+ path) json;
  if ((200 <=? status) && (status <? 300))%Z then mret (default (VDict []) content) else raise (HTTPStatusError status).

Definition toxics_path (proxy : string) : string := "/proxies/" +:+ proxy +:+ "/toxics".
Definition toxic_path (proxy toxic : string) : string := toxics_path proxy +:+ "/" +:+ toxic.

Definition ToxiproxyHarness_delete_toxic (api proxy toxic : string) : PyM W unit :=
  ToxiproxyHarness_request api "DELETE" (toxic_path proxy toxic) None ;; mret tt.

(** [_ToxicContext] as a context manager around a body of its own. *)
Definition ToxicContext_block {A} (api proxy toxic : string) (body : PyM W A) : PyM W A :=
  try_finally body (ToxiproxyHarness_delete_toxic api proxy toxic).

Definition toxic_payload (toxic type : string) (attributes : list (string * pyval)) : pyval :=
  VDict [("name", VStr toxic); ("type", VStr type); ("attributes", VDict attributes)].

(** The shape of the three context managers around the body of the [async with]. *)
Definition with_toxic {A} (api proxy toxic type : string) (attributes : list (string * pyval)) (body : PyM W A) : PyM W A :=
  ToxiproxyHarness_request api "POST" (toxics_path proxy) (Some (toxic_payload toxic type attributes)) ;;
  try_finally body (ToxiproxyHarness_delete_toxic api proxy toxic).

Definition ToxiproxyHarness_latency {A} (api proxy : string) (latency_ms jitter_ms : Z) (toxic : string) (body : PyM W A) : PyM W A :=
  with_toxic api proxy toxic "latency" [("latency", VInt latency_ms); ("jitter", VInt jitter_ms)] body.
Definition ToxiproxyHarness_bandwidth {A} (api proxy : string) (rate_kb : Z) (toxic : string) (body : PyM W A) : PyM W A :=
  with_toxic api proxy toxic "bandwidth" [("rate", VInt rate_kb)] body.
Definition ToxiproxyHarness_timeout {A} (api proxy : string) (timeout_ms : Z) (toxic : string) (body : PyM W A) : PyM W A :=
  with_toxic api proxy toxic "timeout" [("timeout", VInt timeout_ms)] body.

End Toxiproxy.

(** The HTTP interface: a toxic is created under the address of its proxy and its name,
    which must be free, and deleted at its address, which must exist. *)
Class ToxiproxyServer {W : Type} (client_request : string → string → option pyval → PyM W (Z * option pyval)) := {
  toxics : W → gset string;
  post_toxic url toxic type attributes w :
    let address := url +:+ "/" +:+ toxic in
    ∃ content w', client_request "POST" url (Some (toxic_payload toxic type attributes)) w =
        (Return (if bool_decide (address ∈ toxics w) then 409 else 200, content)%Z, w') ∧
      toxics w' = {[address]} ∪ toxics w;
  delete_toxic address w :
    ∃ w', client_request "DELETE" address None w =
        (Return (if bool_decide (address ∈ toxics w) then 204 else 404, None)%Z, w') ∧
      toxics w' = toxics w ∖ {[address]};
}.

(** ** Databases *)

Section Database.
Context {W Engine Conn Session : Type}
  (connect : Engine → PyM W Conn) (conn_begin conn_begin_nested conn_rollback conn_close : Conn → PyM W unit)
  (new_session : Conn → PyM W Session) (session_close : Session → PyM W unit) (dispose : Engine → PyM W unit)
  (engine_begin_run : Engine → string → PyM W unit).

(** [DatabaseFixture]: the functions of the metadata run in a transaction of their own. *)
Definition DatabaseFixture_setup (engine : Engine) : PyM W unit := engine_begin_run engine "create_all".
Definition DatabaseFixture_teardown (engine : Engine) : PyM W unit := engine_begin_run engine "drop_all".

Record TransactionalTestSession := mkTestSession { ts_session : Session; ts_savepoint : Conn }.

Definition TransactionalTestSession_create (engine : Engine) : PyM W TransactionalTestSession :=
  conn ← connect engine;
  conn_begin conn ;;
  session ← new_session conn;
  conn_begin_nested conn ;;
  mret (mkTestSession session conn).

Definition TransactionalTestSession_rollback (ts : TransactionalTestSession) : PyM W unit :=
  session_close (ts_session ts) ;;
  conn_rollback (ts_savepoint ts) ;;
  conn_close (ts_savepoint ts).

(** The fixture that [db_fixture] builds, around a test. *)
Definition db_fixture {A} (engine_factory : PyM W Engine) (test : TransactionalTestSession → PyM W A) : PyM W A :=
  engine ← engine_factory;
  ts ← TransactionalTestSession_create engine;
  try_finally (test ts) (TransactionalTestSession_rollback ts ;; dispose engine).

End Database.

(** ** Locust *)

(** What the context variable may hold: [CorrelationContext.set] stores what it is given. *)
Inductive CtxValue := CtxRequest (ctx : RequestContext) | CtxText (text : string).

(** [_correlation_headers] of the HTTP client on any such value: a text has no attribute
    [correlation_id], and the exception is caught. *)
Definition headers_of_context (v : option CtxValue) : list (string * string) :=
  match v with
  | None => correlation_headers None
  | Some (CtxRequest c) => correlation_headers (Some c)
  | Some (CtxText _) => []
  end.

Record RequestEvent := mkRequestEvent {
  re_request_type : string;
  re_name : string;
  re_response_time : Z;
  re_response_length : Z;
  re_exception : option pyexn;
}.

Section Locust.
Context {W : Type} (uuid4 : PyM W string) (perf_counter : W → Q).

(** The context variable beside the world. *)
Definition LocustKernelUser_on_start : PyM (option CtxValue * W) unit :=
  i ← on_snd uuid4;
  on_fst (updates (λ _, Some (CtxText i))).

Definition LocustKernelUser_on_stop : PyM (option CtxValue * W) unit := on_fst (updates (λ _, None)).

(** [__init_subclass__]: the bases a subclass is left with, when locust is installed;
    [is_http_user] tells whether a class is [HttpUser] or derives from it. *)
Definition init_subclass (is_http_user : string → bool) (mro_tail bases : list string) : list string :=
  if negb (str_in "HttpUser" bases) && negb (existsb is_http_user mro_tail)
  then "HttpUser" :: filter (λ b, b ≠ "LocustKernelUser") bases
  else bases.

(** [fire] is that of the environment of the user, when locust is installed and the user
    has one. *)
Definition report_task (fire : option (RequestEvent → PyM W unit)) (event : RequestEvent) : PyM (option CtxValue * W) unit :=
  match fire with
  | Some fire => try_base (on_snd (fire event)) (λ e, if isinstance e "ImportError" then mret tt else raise e)
  | None => mret tt
  end.

Definition elapsed_ms (start now : Q) : Z := let q := ((now - start) * 1000)%Q in Z.quot (Qnum q) (Zpos (Qden q)).

(** The [try] statement of the wrapper, from the time [start] on. *)
Definition timed_task {A} (task_name : string) (fire : option (RequestEvent → PyM W unit)) (start : Q)
    (func : PyM (option CtxValue * W) A) : PyM (option CtxValue * W) A := λ s,
  let '(o, s1) := func s in
  let exc := match o with Raise e => if is_Exception e then Some e else None | Return _ => None end in
  let event := mkRequestEvent "TASK" task_name (elapsed_ms start (perf_counter (snd s1))) 0 exc in
  match report_task fire event s1 with
  | (Return _, s2) => (o, s2)
  | (Raise e, s2) => (Raise e, s2)
  end.

(** The wrapper of [task_with_metrics]. *)
Definition task_with_metrics {A} (name : option string) (func_name : string) (fire : option (RequestEvent → PyM W unit))
    (func : PyM (option CtxValue * W) A) : PyM (option CtxValue * W) A :=
  let task_name := match name with Some n => if String.eqb n "" then func_name else n | None => func_name end in
  i ← on_snd uuid4;
  on_fst (updates (λ _, Some (CtxText i))) ;;
  start ← on_snd (reads perf_counter);
  timed_task task_name fire start func.

End Locust.

(** ** The approval plugin *)

#[local] Abbreviation Files := (gmap string string).

(** [os.environ] and the module flag. *)
Record ApproveState := mkApprove { av_mode : bool; av_environ : gmap string string }.

Definition pytest_configure (approve_option : bool) (s : ApproveState) : ApproveState :=
  mkApprove approve_option (if approve_option then <["MP_APPROVE" := "1"]> (av_environ s) else delete "MP_APPROVE" (av_environ s)).

Definition is_approve_mode (s : ApproveState) : bool := av_mode s.

(** [ApprovalAsserter.__init__]: whether an asserter approves. *)
Definition ApprovalAsserter_init (approve : option bool) (environ : gmap string string) : bool :=
  match approve with
  | Some b => b
  | None => str_in (lower (default "" (environ !! "MP_APPROVE"))) ["1"; "true"; "yes"]
  end.

(** The position of the last dot of a name, from the left. *)
Fixpoint last_dot (i : nat) (s : string) : option nat :=
  match s with
  | "" => None
  | String c s' =>
      match last_dot (S i) s' with
      | Some j => Some j
      | None => if Ascii.eqb c "." then Some i else None
      end
  end.

(** [Path.with_suffix] on a file name: a dot that is the first or the last character does not begin a suffix. *)
Definition with_suffix (suffix name : string) : string :=
  match last_dot 0 name with
  | Some i => if (0 <? i)%nat && (i <? String.length name - 1)%nat then String.substring 0 i name +:+ suffix else name +:+ suffix
  | None => name +:+ suffix
  end.

Definition promoted_name (received : string) : string := with_suffix ".approved.txt" (with_suffix "" received).

(** [received.replace(approved)]. *)
Definition replace_file (received : string) (fs : Files) : Files :=
  match fs !! received with
  | Some text => <[promoted_name received := text]> (delete received fs)
  | None => fs
  end.

(** [pytest_sessionfinish] on one directory; the names come in the order of the file system. *)
Definition is_received (name : string) : bool := endswith ".received.txt" name.

Definition pytest_sessionfinish (s : ApproveState) (names : list string) (fs : Files) : Files :=
  if av_mode s then fold_left (λ fs name, if is_received name then replace_file name fs else fs) names fs else fs.

(** ** Traffic of the example load test *)

Definition READ_WEIGHT : Z := 8.
Definition WRITE_WEIGHT : Z := 2.

Inductive load_task := task_list_orders (page : Z) | task_get_order_by_id (id : string) | task_create_order (payload : pyval) | task_update_order (id status : string).

Definition task_weight (t : load_task) : Z :=
  match t with task_list_orders _ | task_get_order_by_id _ => READ_WEIGHT | task_create_order _ | task_update_order _ _ => WRITE_WEIGHT end.

(** The request of a task: method, path, body and the name it is counted under. *)
Definition task_request (t : load_task) : string * string * option pyval * string :=
  match t with
  | task_list_orders page => ("GET", "/api/orders?page=" +:+ str_of_int page +:+ "&size=20", None, "/api/orders [list]")
  | task_get_order_by_id id => ("GET", "/api/orders/" +:+ id, None, "/api/orders/{id} [get]")
  | task_create_order payload => ("POST", "/api/orders", Some payload, "/api/orders [create]")
  | task_update_order id status => ("PUT", "/api/orders/" +:+ id, Some (VDict [("status", VStr status)]), "/api/orders/{id} [update]")
  end.

Definition task_accepts (t : load_task) : list Z :=
  match t with
  | task_list_orders _ | task_get_order_by_id _ => [200; 404]
  | task_create_order _ => [200; 201; 202; 422]
  | task_update_order _ _ => [200; 204; 404; 422]
  end%Z.

(** What a task reports of a response: a failure with its text, or nothing. *)
Definition task_failure (t : load_task) (status : Z) : option string :=
  if bool_decide (status ∈ task_accepts t) then None else Some ("Unexpected status: " +:+ str_of_int status).

(** [on_start]: whether the runner is told to quit. *)
Definition MicroserviceUser_on_start (probe_status : Z) : bool := negb (bool_decide (probe_status ∈ [200; 204]%Z)).

(** ** Memory *)

Section Memory.
Context {W Snapshot : Type} (take_snapshot : PyM W Snapshot) (size_diffs : Snapshot → Snapshot → list Z) (fmt_int : Z → string).

(** [sum(s.size_diff for s in stats if s.size_diff > 0)]. *)
Definition total_increase (diffs : list Z) : Z := foldr Z.add 0%Z (filter (λ d, (0 < d)%Z) diffs).

(** [assert_memory_increase_below], over whether tracemalloc is tracing. *)
Definition assert_memory_increase_below {A} (fn : PyM W A) (max_bytes : Z) : PyM (bool * W) A :=
  on_fst (updates (λ _, true)) ;;
  before ← on_snd take_snapshot;
  result ← on_snd fn;
  after ← on_snd take_snapshot;
  on_fst (updates (λ _, false)) ;;
  let increase := total_increase (size_diffs after before) in
  if (max_bytes <? increase)%Z
  then raise (PerformanceAssertionError ("Memory increased by " +:+ fmt_int increase +:+ " bytes, expected < " +:+ fmt_int max_bytes +:+ " bytes"))
  else mret result.

End Memory.

(** ** Lemmas *)

Section ToxiproxyLemmas.
Context {W : Type} (client_request : string → string → option pyval → PyM W (Z * option pyval)) `{!ToxiproxyServer client_request}.

Lemma delete_toxic_run api proxy toxic w :
  let address := api +:+ toxic_path proxy toxic in
  ∃ w', toxics w' = toxics w ∖ {[address]} ∧ ToxiproxyHarness_delete_toxic client_request api proxy toxic w =
    (if bool_decide (address ∈ toxics w) then Return tt else Raise (HTTPStatusError 404), w').
Proof.
  intros address. destruct (delete_toxic address w) as (w' & Hd & Ht). exists w'. split; [done|].
  unfold ToxiproxyHarness_delete_toxic, ToxiproxyHarness_request, mbind, PyM_bind. fold address. rewrite Hd. by case_bool_decide.
Qed.

Lemma try_delete {A} api proxy toxic (body : PyM W A) w :
  let address := api +:+ toxic_path proxy toxic in
  ∃ w3, toxics w3 = toxics (snd (body w)) ∖ {[address]} ∧
    try_finally body (ToxiproxyHarness_delete_toxic client_request api proxy toxic) w =
      (if bool_decide (address ∈ toxics (snd (body w))) then fst (body w) else Raise (HTTPStatusError 404), w3).
Proof.
  intros address. unfold try_finally. destruct (body w) as [o w2]. cbn [fst snd].
  destruct (delete_toxic_run api proxy toxic w2) as (w3 & Ht & Hd). exists w3. split; [done|]. rewrite Hd. unfold address. by case_bool_decide.
Qed.

(** A toxic that is not there yet: the body runs with it, and it is deleted at the end. *)
Lemma with_toxic_run {A} api proxy toxic type attributes (body : PyM W A) w :
  let address := api +:+ toxic_path proxy toxic in
  address ∉ toxics w →
  ∃ w1 w3, toxics w1 = {[address]} ∪ toxics w ∧ toxics w3 = toxics (snd (body w1)) ∖ {[address]} ∧
    with_toxic client_request api proxy toxic type attributes body w =
      (if bool_decide (address ∈ toxics (snd (body w1))) then fst (body w1) else Raise (HTTPStatusError 404), w3).
Proof.
  intros address Hn. destruct (post_toxic (api +:+ toxics_path proxy) toxic type attributes w) as (content & w1 & Hp & Ht).
  rewrite app_assoc_str in Hp, Ht. fold (toxic_path proxy toxic) in Hp, Ht. fold address in Hp, Ht.
  rewrite bool_decide_eq_false_2 in Hp by done. destruct (try_delete api proxy toxic body w1) as (w3 & Ht3 & Hd).
  exists w1, w3. split_and!; [done | done|]. unfold with_toxic, ToxiproxyHarness_request, mbind, PyM_bind. rewrite Hp. exact Hd.
Qed.

End ToxiproxyLemmas.

(** *** A database that records its operations; [fail] says which of them fail *)

Inductive db_op := OConnect | OBegin | OSession | ONested | OSessionClose | ORollback | OClose | ODispose | OTest (n : nat).

Definition db_step (fail : db_op → option pyexn) (op : db_op) : PyM (list db_op) unit := λ log,
  (match fail op with Some e => Raise e | None => Return tt end, log ++ [op]).

Definition recorded_fixture {A} (fail : db_op → option pyexn) (test : PyM (list db_op) A) : PyM (list db_op) A :=
  db_fixture (Engine := unit) (Conn := unit) (Session := unit)
    (λ _, db_step fail OConnect) (λ _, db_step fail OBegin) (λ _, db_step fail ONested) (λ _, db_step fail ORollback)
    (λ _, db_step fail OClose) (λ _, db_step fail OSession) (λ _, db_step fail OSessionClose) (λ _, db_step fail ODispose)
    (mret tt) (λ _, test).

(** The operations up to the first that fails, and its error. *)
Fixpoint executed (fail : db_op → option pyexn) (ops : list db_op) : list db_op * option pyexn :=
  match ops with
  | [] => ([], None)
  | op :: ops' =>
      match fail op with
      | Some e => ([op], Some e)
      | None => let '(done, e) := executed fail ops' in (op :: done, e)
      end
  end.

Definition fixture_setup : list db_op := [OConnect; OBegin; OSession; ONested].
Definition fixture_cleanup : list db_op := [OSessionClose; ORollback; OClose; ODispose].

(** *** Suffixes *)

Lemma last_dot_none i s : str_all (λ c, negb (Ascii.eqb c ".")) s = true → last_dot i s = None.
Proof. revert i. induction s as [|c s IH]; intros i; simpl; [done|]. intros [Hc%negb_true_iff Hs]%andb_true_iff. by rewrite (IH _ Hs), Hc. Qed.

Lemma last_dot_app i x t : str_all (λ c, negb (Ascii.eqb c ".")) t = true → last_dot i (x +:+ String "." t) = Some (i + String.length x)%nat.
Proof.
  intros Ht. revert i. induction x as [|c x IH]; intros i.
  - simpl. by rewrite (last_dot_none _ _ Ht), Nat.add_0_r.
  - change (String c x +:+ String "." t) with (String c (x +:+ String "." t)). cbn [last_dot String.length]. rewrite IH. f_equal. lia.
Qed.

Lemma with_suffix_app suffix x t : x ≠ "" → t ≠ "" → str_all (λ c, negb (Ascii.eqb c ".")) t = true →
  with_suffix suffix (x +:+ String "." t) = x +:+ suffix.
Proof.
  intros Hx Ht Hd. unfold with_suffix. rewrite last_dot_app by done. rewrite Nat.add_0_l, length_app_str. cbn [String.length].
  assert (0 < String.length x)%nat by (destruct x; [done | simpl; lia]). assert (0 < String.length t)%nat by (destruct t; [done | simpl; lia]).
  rewrite (proj2 (Nat.ltb_lt 0 _)) by lia. rewrite (proj2 (Nat.ltb_lt _ _)) by lia. simpl. by rewrite substring_take.
Qed.

Definition received_name (x : string) : string := x +:+ ".received.txt".
Definition approved_name (x : string) : string := x +:+ ".approved.txt".

Lemma promoted_received x : x ≠ "" → promoted_name (received_name x) = approved_name x.
Proof.
  intros Hx. unfold promoted_name, received_name, approved_name.
  replace (x +:+ ".received.txt") with ((x +:+ ".received") +:+ ".txt") by by rewrite app_assoc_str.
  rewrite (with_suffix_app "" (x +:+ ".received") "txt"); [|by destruct x|done|done].
  rewrite app_nil_r_str. by apply (with_suffix_app ".approved.txt" x "received").
Qed.

Lemma received_ne_approved x y : received_name x ≠ approved_name y.
Proof. intros H. by apply app_split_str in H as [_ ?]. Qed.

(** ** Theorems *)

(** A toxic lives exactly as long as its block, however the block ends: when the name is
    taken the block does not run and nothing is removed; otherwise it runs under the toxic, which is deleted
    afterwards, and its outcome is that of the block unless the toxic was deleted meanwhile. *)
Theorem toxic_scoped {W A} client_request `{!ToxiproxyServer (W := W) client_request} api proxy toxic type attributes (body : PyM W A) w :
  let address := api +:+ toxic_path proxy toxic in
  let block := with_toxic client_request api proxy toxic type attributes body in
  (address ∈ toxics w → ∃ w', block w = (Raise (HTTPStatusError 409), w') ∧ toxics w' = toxics w) ∧
  ((address ∉ toxics w) → ∃ w1 w3, toxics w1 = {[address]} ∪ toxics w ∧ toxics w3 = toxics (snd (body w1)) ∖ {[address]} ∧
     block w = (if bool_decide (address ∈ toxics (snd (body w1))) then fst (body w1) else Raise (HTTPStatusError 404), w3)).
Proof.
  intros address block. split.
  - intros Hin. destruct (post_toxic (api +:+ toxics_path proxy) toxic type attributes w) as (content & w1 & Hp & Ht).
    rewrite app_assoc_str in Hp, Ht. fold (toxic_path proxy toxic) in Hp, Ht. fold address in Hp, Ht.
    rewrite bool_decide_eq_true_2 in Hp by done. exists w1. split; [|rewrite Ht; set_solver].
    unfold block, with_toxic, ToxiproxyHarness_request, mbind, PyM_bind. by rewrite Hp.
  - intros Hn. by apply with_toxic_run.
Qed.

(** The three kinds nest: around a test that leaves the toxics alone they change neither its
    outcome nor, in the end, the toxics of the server. *)
Theorem toxics_nested {W A} client_request `{!ToxiproxyServer (W := W) client_request} api proxy ms jitter rate limit n1 n2 n3 (body : PyM W A) w :
  (∀ w, toxics (snd (body w)) = toxics w) → NoDup [n1; n2; n3] →
  Forall (λ n, api +:+ toxic_path proxy n ∉ toxics w) [n1; n2; n3] →
  ∃ w1 w', toxics w1 = list_to_set (map (λ n, api +:+ toxic_path proxy n) [n3; n2; n1]) ∪ toxics w ∧
    ToxiproxyHarness_latency client_request api proxy ms jitter n1
      (ToxiproxyHarness_bandwidth client_request api proxy rate n2
        (ToxiproxyHarness_timeout client_request api proxy limit n3 body)) w = (fst (body w1), w') ∧
    toxics w' = toxics w.
Proof.
  intros Hb Hnd Hfree. set (addr n := api +:+ toxic_path proxy n) in *.
  assert (Hinj : ∀ m n, addr m = addr n → m = n).
  { intros m n. unfold addr, toxic_path. intros H. apply (inj (String.append api)) in H. apply (inj (String.append (toxics_path proxy))) in H.
    by apply (inj (String.append "/")) in H. }
  rewrite !NoDup_cons, !not_elem_of_cons in Hnd. destruct Hnd as ((H12 & H13 & _) & (H23 & _) & _).
  rewrite !Forall_cons in Hfree. destruct Hfree as (F1 & F2 & F3 & _).
  assert (E12 : addr n1 ≠ addr n2) by (intros E%Hinj; done). assert (E13 : addr n1 ≠ addr n3) by (intros E%Hinj; done).
  assert (E23 : addr n2 ≠ addr n3) by (intros E%Hinj; done).
  unfold ToxiproxyHarness_latency, ToxiproxyHarness_bandwidth, ToxiproxyHarness_timeout.
  assert (Hrm : ∀ x (X : gset string), x ∉ X → ({[x]} ∪ X) ∖ {[x]} = X) by set_solver.
  assert (Hin : ∀ x (X : gset string), bool_decide (x ∈ {[x]} ∪ X) = true) by (intros; apply bool_decide_eq_true_2; set_solver).
  match goal with |- context [with_toxic _ _ _ n1 _ ?a ?b w] => destruct (with_toxic_run client_request api proxy n1 "latency" a b w F1) as (wa & wz & Ha & Hz & ->) end.
  assert (F2' : addr n2 ∉ toxics wa) by (rewrite Ha, not_elem_of_union, not_elem_of_singleton; done).
  match goal with |- context [with_toxic _ _ _ n2 _ ?a ?b wa] => destruct (with_toxic_run client_request api proxy n2 "bandwidth" a b wa F2') as (wb & wy & Hwb & Hy & Eb) end.
  assert (F3' : addr n3 ∉ toxics wb) by (rewrite Hwb, Ha, !not_elem_of_union, !not_elem_of_singleton; done).
  match type of Eb with context [with_toxic _ _ _ n3 _ ?a ?b wb] => destruct (with_toxic_run client_request api proxy n3 "timeout" a b wb F3') as (wc & wx & Hwc & Hx & Ec) end.
  fold (addr n1) (addr n2) (addr n3) in *. rewrite Hb, Hwc in Hx. rewrite Hrm in Hx by done. rewrite Hb, Hwc, Hin in Ec.
  rewrite Ec in Hy, Eb. cbn [fst snd] in Hy, Eb. rewrite Hx, Hwb in Hy, Eb. rewrite Hrm in Hy by done. rewrite Hin in Eb.
  rewrite Eb in Hz |- *. cbn [fst snd] in Hz |- *. rewrite Hy, Ha in Hz |- *. rewrite Hrm in Hz by done. rewrite Hin.
  exists wc, wz. split_and!; [|done|done]. rewrite Hwc, Hwb, Ha. cbn [map list_to_set]. unfold addr. clear. set_solver.
Qed.

(** The object a block is given cannot be used as a context manager itself: it deletes the
    toxic, so that the end of the outer block fails. *)
Theorem toxic_context_twice {W A} client_request `{!ToxiproxyServer (W := W) client_request} api proxy toxic type attributes (body : PyM W A) w :
  api +:+ toxic_path proxy toxic ∉ toxics w →
  ∃ w', with_toxic client_request api proxy toxic type attributes (ToxicContext_block client_request api proxy toxic body) w =
    (Raise (HTTPStatusError 404), w').
Proof.
  intros Hn. destruct (with_toxic_run client_request api proxy toxic type attributes (ToxicContext_block client_request api proxy toxic body) w Hn)
    as (w1 & w3 & _ & _ & ->).
  destruct (try_delete client_request api proxy toxic body w1) as (w2 & Ht & Hd). unfold ToxicContext_block. rewrite Hd. cbn [fst snd].
  exists w3. rewrite bool_decide_eq_false_2; [done|]. rewrite Ht. set_solver.
Qed.

(** What the database fixture does around a test: its set-up stops at the first operation
    that fails, and then nothing is closed; after the test the clean-up runs, whatever the outcome, up to the first
    operation of its own that fails, whose error replaces the outcome of the test. *)
Theorem db_fixture_exact {A} fail (test : PyM (list db_op) A) log :
  recorded_fixture fail test log =
    match executed fail fixture_setup with
    | (ops, Some e) => (Raise e, log ++ ops)
    | (ops, None) =>
        let '(o, log') := test (log ++ ops) in
        match executed fail fixture_cleanup with
        | (ops', Some e) => (Raise e, log' ++ ops')
        | (ops', None) => (o, log' ++ ops')
        end
    end.
Proof.
  unfold recorded_fixture, db_fixture, TransactionalTestSession_create, TransactionalTestSession_rollback, try_finally, db_step, fixture_setup, fixture_cleanup.
  unfold mbind, PyM_bind, mret, PyM_ret. cbn [executed].
  destruct (fail OConnect); [done|]. destruct (fail OBegin); [by rewrite <- app_assoc|].
  destruct (fail OSession); [by rewrite <- !app_assoc|]. destruct (fail ONested); [by rewrite <- !app_assoc|].
  rewrite <- !app_assoc. cbn [app]. destruct (test _) as [o log'].
  destruct (fail OSessionClose); [done|]. destruct (fail ORollback); [by rewrite <- !app_assoc|].
  destruct (fail OClose); [by rewrite <- !app_assoc|]. destruct (fail ODispose); by rewrite <- !app_assoc.
Qed.

(** A wrapped task keeps its outcome and is reported once, under its name, with the time it
    took; it is reported as failed exactly for exceptions of [Exception].  While it runs, the context holds a text, so that
    the HTTP client of the library sends no correlation header. *)
Theorem task_reported {W A} uuid4 perf_counter name func_name (fire : RequestEvent → PyM W unit) (func : PyM (option CtxValue * W) A) c w i w1 o c2 w2 w3 :
  uuid4 w = (Return i, w1) → func (Some (CtxText i), w1) = (o, (c2, w2)) →
  let event := mkRequestEvent "TASK" (match name with Some n => if String.eqb n "" then func_name else n | None => func_name end)
    (elapsed_ms (perf_counter w1) (perf_counter w2)) 0 (match o with Raise e => if is_Exception e then Some e else None | Return _ => None end) in
  fire event w2 = (Return tt, w3) →
  task_with_metrics uuid4 perf_counter name func_name (Some fire) func (c, w) = (o, (c2, w3)) ∧
  task_with_metrics uuid4 perf_counter name func_name None func (c, w) = (o, (c2, w2)) ∧
  headers_of_context (Some (CtxText i)) = [].
Proof.
  intros Hu Hf event Hfire. unfold task_with_metrics, mbind, PyM_bind, on_fst, on_snd, updates, reads. cbn [fst snd]. rewrite Hu. cbn [fst snd].
  unfold timed_task. rewrite Hf. cbn [fst snd]. split_and!; [|done|done].
  unfold report_task, try_base, on_snd. cbn [fst snd]. fold event. by rewrite Hfire.
Qed.

(** A subclass whose bases are patched loses [LocustKernelUser] from them, and with it the
    hooks [on_start] and [on_stop]. *)
Theorem patched_bases is_http_user mro_tail bases :
  str_in "HttpUser" bases = false → existsb is_http_user mro_tail = false →
  let bases' := init_subclass is_http_user mro_tail bases in
  ("HttpUser" ∈ bases') ∧ ("LocustKernelUser" ∉ bases') ∧ ∀ b, b ≠ "LocustKernelUser" → b ∈ bases → b ∈ bases'.
Proof.
  intros H1 H2 bases'. unfold bases', init_subclass. rewrite H1, H2. simpl. split_and!; [by left| |].
  - rewrite elem_of_cons, list_elem_of_filter. naive_solver.
  - intros b Hb Hin. right. apply list_elem_of_filter. auto.
Qed.

(** The flag reaches the asserters: after [pytest_configure] an asserter that was not told
    approves exactly when the option was given, whatever the environment held before. *)
Theorem approve_flag option_given s :
  let s' := pytest_configure option_given s in
  is_approve_mode s' = option_given ∧ ApprovalAsserter_init None (av_environ s') = option_given ∧
  ∀ k, k ≠ "MP_APPROVE" → av_environ s' !! k = av_environ s !! k.
Proof.
  split_and!; [done| |].
  - unfold ApprovalAsserter_init, pytest_configure. cbn [av_environ]. destruct option_given; [by rewrite lookup_insert_eq | by rewrite lookup_delete_eq].
  - intros k Hk. unfold pytest_configure. cbn [av_environ]. destruct option_given; [by rewrite lookup_insert_ne | by rewrite lookup_delete_ne].
Qed.

(** At the end of an approving session every received file of the directory becomes the
    approved one of its test, and no other file changes; without the option nothing does. *)
Theorem approvals_promoted names (fs : Files) s :
  ".received.txt" ∉ names →
  let fs' := pytest_sessionfinish s names fs in
  (av_mode s = false → fs' = fs) ∧
  (av_mode s = true → ∀ x, x ≠ "" →
     fs' !! received_name x = (if bool_decide (received_name x ∈ names) then None else fs !! received_name x) ∧
     fs' !! approved_name x = (if bool_decide (received_name x ∈ names) then
                                 match fs !! received_name x with Some t => Some t | None => fs !! approved_name x end
                               else fs !! approved_name x)).
Proof.
  intros Hn fs'. split; [intros H; unfold fs', pytest_sessionfinish; by rewrite H|].
  intros H. unfold fs', pytest_sessionfinish. rewrite H. clear fs' H. revert fs Hn. induction names as [|n names IH]; intros fs Hn x Hx.
  { rewrite bool_decide_eq_false_2 by apply not_elem_of_nil. done. }
  rewrite not_elem_of_cons in Hn. destruct Hn as [Hn0 Hn]. cbn [fold_left].
  set (fs1 := if is_received n then replace_file n fs else fs). destruct (IH fs1 Hn x Hx) as [-> ->]. clear IH.
  assert (Hstep : fs1 !! received_name x = (if decide (n = received_name x) then None else fs !! received_name x) ∧
    fs1 !! approved_name x = (if decide (n = received_name x) then match fs !! received_name x with Some t => Some t | None => fs !! approved_name x end
                              else fs !! approved_name x)).
  { unfold fs1. destruct (is_received n) eqn:Hr.
    - apply endswith_spec in Hr as [y ->]. assert (Hy : y ≠ "") by (by intros ->). fold (received_name y) in *. clear fs1.
      unfold replace_file. rewrite (promoted_received y Hy). destruct (decide (received_name y = received_name x)) as [E|E].
      + rewrite E. assert (y = x) as -> by (by apply app_split_str in E as [? _]).
        destruct (fs !! received_name x) as [t|] eqn:Ex; [|by rewrite Ex].
        rewrite lookup_insert_eq. split; [|done]. rewrite lookup_insert_ne by (apply not_eq_sym, received_ne_approved). by rewrite lookup_delete_eq.
      + assert (y ≠ x) by congruence. assert (approved_name y ≠ approved_name x) by (intros E'; by apply app_split_str in E' as [? _]).
        destruct (fs !! received_name y) as [t|]; [|done].
        rewrite lookup_insert_ne by (apply not_eq_sym, received_ne_approved). rewrite lookup_delete_ne by done.
        rewrite lookup_insert_ne by done. rewrite lookup_delete_ne by apply received_ne_approved. done.
    - assert (n ≠ received_name x) by (intros ->; apply not_true_iff_false in Hr; apply Hr, endswith_spec; by exists x).
      by rewrite !decide_False. }
  destruct Hstep as [-> ->]. destruct (decide (n = received_name x)) as [->|Hne].
  - rewrite (bool_decide_eq_true_2 (received_name x ∈ received_name x :: names)) by left. by destruct (bool_decide _).
  - assert (Hiff : received_name x ∈ n :: names ↔ received_name x ∈ names) by (rewrite elem_of_cons; naive_solver).
    by rewrite (bool_decide_ext _ _ Hiff).
Qed.

(** The memory assertion returns the result of the function exactly when the blocks that
    grew grew by at most the limit together, and stops the tracing; a function that raises leaves the tracing on. *)
Theorem memory_assertion {W Snapshot A} (take_snapshot : PyM W Snapshot) size_diffs fmt_int (fn : PyM W A) max_bytes tracing w before w1 :
  take_snapshot w = (Return before, w1) →
  let check := assert_memory_increase_below take_snapshot size_diffs fmt_int fn max_bytes (tracing, w) in
  (∀ e w2, fn w1 = (Raise e, w2) → check = (Raise e, (true, w2))) ∧
  (∀ v w2 after w3, fn w1 = (Return v, w2) → take_snapshot w2 = (Return after, w3) →
     snd check = (false, w3) ∧
     (fst check = Return v ↔ (total_increase (size_diffs after before) <= max_bytes)%Z) ∧
     (fst check ≠ Return v → ∃ e, fst check = Raise e ∧ isinstance e "AssertionError" = true)).
Proof.
  intros Ht check. unfold check, assert_memory_increase_below, mbind, PyM_bind, on_fst, on_snd, updates. cbn [fst snd]. rewrite Ht. cbn [fst snd]. split.
  - intros e w2 Hf. by rewrite Hf.
  - intros v w2 after w3 Hf Ha. rewrite Hf. cbn [fst snd]. rewrite Ha. cbn [fst snd].
    destruct (Z.ltb_spec max_bytes (total_increase (size_diffs after before))); simpl; split_and!; try done.
    + split; [done | lia].
    + intros _. by eexists.
Qed.

(** Of the tasks of the example, four fifths by weight read; a task reports a failure exactly
    for a status outside its list, and no task takes a server error for a success. *)
Theorem traffic_mix page id payload status code :
  let reads := [task_list_orders page; task_get_order_by_id id] in
  let writes := [task_create_order payload; task_update_order id status] in
  let weight ts := foldr Z.add 0%Z (map task_weight ts) in
  (5 * weight reads = 4 * weight (reads ++ writes))%Z ∧
  ∀ t, (task_failure t code = None ↔ code ∈ task_accepts t) ∧ ((500 <= code)%Z → is_Some (task_failure t code)).
Proof.
  split; [done|]. intros t. unfold task_failure. split; [by case_bool_decide|].
  intros Hc. rewrite bool_decide_eq_false_2; [by eexists|]. destruct t; simpl; rewrite !elem_of_cons, elem_of_nil; lia.
Qed.

(** ** Instance and witnesses *)

(** A server that keeps the addresses of its toxics. *)
Definition demo_toxiproxy (method url : string) (json : option pyval) : PyM (gset string) (Z * option pyval) := λ w,
  match json with
  | Some (VDict d) =>
      match od_get "name" d with
      | Some (VStr toxic) => let address := url +:+ "/" +:+ toxic in
          (Return (if bool_decide (address ∈ w) then 409 else 200, None)%Z, {[address]} ∪ w)
      | _ => (Return (400, None)%Z, w)
      end
  | _ => (Return (if bool_decide (url ∈ w) then 204 else 404, None)%Z, w ∖ {[url]})
  end.

#[local] Instance demo_toxiproxy_server : ToxiproxyServer demo_toxiproxy.
Proof.
  refine {| toxics w := w |}.
  - intros url toxic type attributes w. by eexists _, _.
  - intros address w. by eexists.
Defined.

Lemma toxic_scoped_witness :
  ∃ w', with_toxic demo_toxiproxy "http://t" "db" "slow" "latency" [] (mret 7%nat) {["http://t/proxies/db/toxics/slow"]} =
    (Raise (HTTPStatusError 409), w').
Proof.
  destruct (proj1 (toxic_scoped demo_toxiproxy "http://t" "db" "slow" "latency" [] (mret 7%nat) {["http://t/proxies/db/toxics/slow"]})) as (w' & H & _);
    [set_solver | by exists w'].
Defined.

Lemma toxics_nested_witness :
  ∃ w1 w', ToxiproxyHarness_latency demo_toxiproxy "http://t" "db" 1000 0 "latency"
      (ToxiproxyHarness_bandwidth demo_toxiproxy "http://t" "db" 100 "bandwidth"
        (ToxiproxyHarness_timeout demo_toxiproxy "http://t" "db" 5000 "timeout" (mret 7%nat))) (∅ : gset string) = (fst (mret (M := PyM (gset string)) 7%nat w1), w') ∧ w' = (∅ : gset string).
Proof.
  destruct (toxics_nested demo_toxiproxy "http://t" "db" 1000 0 100 5000 "latency" "bandwidth" "timeout" (mret 7%nat) (∅ : gset string)) as (w1 & w' & _ & H & Hw).
  - done.
  - apply (bool_decide_unpack (NoDup ["latency"; "bandwidth"; "timeout"])). vm_compute. exact I.
  - repeat constructor; apply not_elem_of_empty.
  - exists w1, w'. split; [exact H | exact Hw].
Defined.

Lemma toxic_context_twice_witness :
  ∃ w', with_toxic demo_toxiproxy "http://t" "db" "slow" "latency" [] (ToxicContext_block demo_toxiproxy "http://t" "db" "slow" (mret 7%nat)) (∅ : gset string) =
    (Raise (HTTPStatusError 404), w').
Proof.
  apply (toxic_context_twice demo_toxiproxy "http://t" "db" "slow" "latency" [] (mret 7%nat) (∅ : gset string)). apply not_elem_of_empty.
Defined.

(** A rollback that fails leaves the connection open and the engine undisposed. *)
Example rollback_failure_leaks :
  let fail op := match op with ORollback => Some (ValueError "lost") | _ => None end in
  recorded_fixture fail (mret 1%nat) [] = (Raise (ValueError "lost"), [OConnect; OBegin; OSession; ONested; OSessionClose; ORollback]).
Proof. reflexivity. Qed.

Lemma task_reported_witness :
  task_with_metrics (λ w : list RequestEvent, (Return "id", w)) (λ _, 0%Q) None "t" (Some (λ e w, (Return tt, w ++ [e]))) (raise (ValueError "x") : PyM _ nat) (None, []) =
    (Raise (ValueError "x"), (Some (CtxText "id"), [mkRequestEvent "TASK" "t" 0 0 (Some (ValueError "x"))])).
Proof.
  apply (task_reported (λ w : list RequestEvent, (Return "id", w)) (λ _, 0%Q) None "t" (λ e w, (Return tt, w ++ [e])) (raise (ValueError "x") : PyM _ nat) None []
    "id" [] (Raise (ValueError "x")) (Some (CtxText "id")) [] [mkRequestEvent "TASK" "t" 0 0 (Some (ValueError "x"))]); reflexivity.
Defined.

Lemma patched_bases_witness : "LocustKernelUser" ∉ init_subclass (String.eqb "HttpUser") ["LocustKernelUser"; "object"] ["LocustKernelUser"].
Proof. apply (patched_bases (String.eqb "HttpUser") ["LocustKernelUser"; "object"] ["LocustKernelUser"]); reflexivity. Defined.

Lemma approvals_promoted_witness :
  pytest_sessionfinish (mkApprove true ∅) ["mail.received.txt"] {["mail.received.txt" := "hello"]} !! "mail.approved.txt" = Some "hello".
Proof.
  destruct (approvals_promoted ["mail.received.txt"] {["mail.received.txt" := "hello"]} (mkApprove true ∅)) as [_ H].
  { intros [[=]|[]%not_elem_of_nil]%elem_of_cons. }
  destruct (H eq_refl "mail" ltac:(done)) as [_ Ha]. exact (eq_trans Ha eq_refl).
Defined.

Lemma traffic_mix_witness : is_Some (task_failure (task_list_orders 1) 503).
Proof. destruct (traffic_mix 1 "" VNone "" 503) as [_ H]. apply (H (task_list_orders 1)). lia. Defined.

Lemma memory_assertion_witness :
  fst (assert_memory_increase_below (λ w : nat, (Return w, w)) (λ a b, [Z.of_nat a - Z.of_nat b; -5]%Z) pretty (λ w, (Return tt, w + 3)%nat) 3 (false, 0%nat)) = Return tt.
Proof.
  destruct (memory_assertion (λ w : nat, (Return w, w)) (λ a b, [Z.of_nat a - Z.of_nat b; -5]%Z) pretty (λ w, (Return tt, w + 3)%nat) 3 false 0%nat 0%nat 0%nat) as [_ H];
    [reflexivity|].
  destruct (H tt 3%nat 3%nat 3%nat) as (_ & Hi & _); [reflexivity | reflexivity|]. apply Hi. vm_compute. discriminate.
Defined.
