(* ===== verification/Generators.v ===== *)
(** * Generators of test data

    [testing/generators/domain_gen.py] and [strategies.py]: random values for tests and the
    Hypothesis strategies for value objects.  The random module and Hypothesis are parameters:
    a strategy is a function of what was drawn, and [drawn_text] and [drawn_amount] say what may
    be drawn.  The theorems say when what is built is a valid value object of [ValueObjects]. *)
From S2P Require Import Prelude PyString OrderedDict ValueObjects.

(** ** [domain_gen.py] *)

Definition ascii_lowercase : string := "abcdefghijklmnopqrstuvwxyz".
Definition slug_alphabet_text : string := ascii_lowercase +:+ "0123456789" +:+ "-".

Section Random.
Context {W : Type} (choices : string → nat → PyM W string) (choice : list string → PyM W string)
  (randint : Z → Z → PyM W Z) (uuid4 : PyM W string) (now : W → Z).

Definition email_gen (domain : string) : PyM W string :=
  user ← choices ascii_lowercase 8;
  mret (user +:+ "@" +:+ domain).

(** The amount is the number drawn, in whole units of the currency. *)
Definition money_gen (min_cents max_cents : Z) : PyM W Money :=
  amount ← randint min_cents max_cents;
  currency ← choice ["EUR"; "USD"; "GBP"];
  from_outcome (Money_init (mkDec amount 0) currency).

Definition slug_gen (length : nat) : PyM W string :=
  slug ← choices slug_alphabet_text length;
  mret (strip_by (λ c, Ascii.eqb c "-") slug).

(** The identifier and the time of the event; the other arguments are not used. *)
Definition domain_event_gen (event_id : option string) (payload : list (string * string)) : PyM W (string * Z) :=
  id ← match event_id with
       | Some i => if String.eqb i "" then uuid4 else mret i
       | None => uuid4
       end;
  t ← reads now;
  mret (id, t).

End Random.

(** [random.choices]: as many characters of the alphabet as asked for. *)
Class Chooses {W : Type} (choices : string → nat → PyM W string) := {
  choices_ok alphabet n w : alphabet ≠ "" → ∃ s w', choices alphabet n w = (Return s, w') ∧ String.length s = n ∧
    str_all (λ c, bool_decide (c ∈ String.list_ascii_of_string alphabet)) s = true;
}.

(** ** [strategies.py] *)

Definition COMMON_CURRENCIES : list string := ["BRL"; "USD"; "EUR"; "GBP"; "JPY"; "CAD"; "AUD"; "CHF"].

(** What [st.text(alphabet, min_size, max_size)] may draw. *)
Definition drawn_text (alphabet : string) (min_size max_size : nat) (s : string) : bool :=
  Nat.leb min_size (String.length s) && Nat.leb (String.length s) max_size &&
  str_all (λ c, bool_decide (c ∈ String.list_ascii_of_string alphabet)) s.

(** What [st.decimals(min_value, max_value, places=2)] may draw. *)
Definition drawn_amount (min_value max_value : Q) (a : Decimal) : Prop :=
  expo a = (-2)%Z ∧ (min_value <= dec_val a <= max_value)%Q.

Definition user_alphabet : string := "abcdefghijklmnopqrstuvwxyz0123456789".

(** What the strategies build of their draws. *)
Definition entity_id_strategy (uuid : string) : outcome string := StrId_init "EntityId" uuid.
Definition money_strategy (amount : Decimal) (currency : string) : outcome Money := Money_init amount currency.
Definition money_currencies (currencies : option (list string)) : list string := default COMMON_CURRENCIES currencies.
Definition email_strategy (u d t : string) : outcome string := Email_init (u +:+ "@" +:+ d +:+ "." +:+ t).

(** ** Lemmas *)

Lemma drawn_chars p alphabet s :
  Forall (λ c, p c = true) (String.list_ascii_of_string alphabet) →
  str_all (λ c, bool_decide (c ∈ String.list_ascii_of_string alphabet)) s = true → str_all p s = true.
Proof.
  rewrite Forall_forall. intros Hp. apply str_all_impl. intros c Hc. apply Hp. by apply bool_decide_eq_true_1 in Hc.
Qed.

Lemma split_first_app c u r : str_all (λ x, negb (Ascii.eqb x c)) u = true → split_first c (u +:+ String c r) = Some (u, r).
Proof.
  induction u as [|x u IH]; simpl; [by rewrite Ascii.eqb_refl|].
  intros [Hx%negb_true_iff Hu]%andb_true_iff. by rewrite Hx, (IH Hu).
Qed.

Lemma split_last_none c s : str_all (λ x, negb (Ascii.eqb x c)) s = true → split_last c s = None.
Proof. induction s as [|x s IH]; simpl; [done|]. intros [Hx%negb_true_iff Hs]%andb_true_iff. by rewrite (IH Hs), Hx. Qed.

Lemma split_last_app c d t : str_all (λ x, negb (Ascii.eqb x c)) t = true → split_last c (d +:+ String c t) = Some (d, t).
Proof.
  intros Ht. induction d as [|x d IH]; simpl; [by rewrite (split_last_none c t Ht), Ascii.eqb_refl|]. by rewrite IH.
Qed.

(** A character of an address as the generators make them. *)
Definition plain_char (c : ascii) : bool := is_slug_char c || Ascii.eqb c "." || Ascii.eqb c "@".

Lemma plain_char_fixed c : plain_char c = true → lower_char c = c ∧ is_space c = false ∧ Ascii.eqb c "010" = false.
Proof. destruct c as [[] [] [] [] [] [] [] []]; vm_compute; intros H; done. Qed.

Lemma slug_char_classes c : is_slug_char c = true →
  plain_char c = true ∧ is_local_char c = true ∧ is_domain_char c = true ∧ Ascii.eqb c "@" = false ∧ Ascii.eqb c "." = false.
Proof. destruct c as [[] [] [] [] [] [] [] []]; vm_compute; intros H; done. Qed.

Lemma lower_char_slug c : is_lower c = true → is_slug_char c = true ∧ is_alpha c = true.
Proof. unfold is_slug_char, is_alpha. intros ->. by rewrite orb_true_r. Qed.

Lemma plain_normalised s : str_all plain_char s = true → strip (lower s) = s ∧ chomp s = s.
Proof.
  intros Hs. assert (Hl : lower s = s).
  { induction s as [|c s IH]; [done|]. simpl in Hs. apply andb_true_iff in Hs as [Hc Hs].
    change (lower (String c s)) with (String (lower_char c) (lower s)). by rewrite (proj1 (plain_char_fixed c Hc)), IH. }
  rewrite Hl. split.
  - apply strip_none. eapply str_all_impl; [|exact Hs]. intros c Hc. apply negb_true_iff, (plain_char_fixed c Hc).
  - apply chomp_none. eapply str_all_impl; [|exact Hs]. intros c Hc. apply negb_true_iff, (plain_char_fixed c Hc).
Qed.

(** Names of small letters and digits with a top-level domain of letters make an address. *)
Lemma plain_email u d t :
  u ≠ "" → d ≠ "" → (2 <= String.length t)%nat → str_all is_slug_char u = true → str_all is_slug_char d = true → str_all is_lower t = true →
  let s := u +:+ "@" +:+ d +:+ "." +:+ t in Email_init s = Return s ∧ Email_domain s = Return (d +:+ "." +:+ t).
Proof.
  intros Hu Hd Hlt Cu Cd Ct s.
  assert (Cu' := λ p H, str_all_impl is_slug_char p u H Cu). assert (Cd' := λ p H, str_all_impl is_slug_char p d H Cd).
  assert (Ct' := λ p H, str_all_impl is_lower p t H Ct).
  assert (Hs : split_first "@" s = Some (u, d +:+ "." +:+ t)).
  { apply (split_first_app "@" u). apply Cu'. intros c Hc. apply negb_true_iff, (slug_char_classes c Hc). }
  split; [|unfold Email_domain; by rewrite Hs].
  destruct (plain_normalised s) as [Hn Hch].
  { unfold s. rewrite !str_all_app, !andb_true_iff. split_and!; try done.
    - apply Cu'. apply slug_char_classes.
    - apply Cd'. apply slug_char_classes.
    - apply Ct'. intros c Hc. by apply slug_char_classes, lower_char_slug. }
  unfold Email_init. rewrite Hn. unfold is_email. rewrite Hch, Hs.
  assert (Hsl : split_last "." (d +:+ "." +:+ t) = Some (d, t)).
  { apply (split_last_app "." d). apply Ct'. intros c Hc. apply negb_true_iff. by apply slug_char_classes, lower_char_slug. }
  rewrite Hsl. unfold nonempty. rewrite (proj2 (String.eqb_neq u "") Hu), (proj2 (String.eqb_neq d "") Hd).
  rewrite (Cu' is_local_char), (Cd' is_domain_char), (Ct' is_alpha), (proj2 (Nat.leb_le 2 _) Hlt).
  - done.
  - intros c Hc. by apply lower_char_slug.
  - intros c Hc. by apply slug_char_classes.
  - intros c Hc. by apply slug_char_classes.
Qed.

Lemma drawn_spec alphabet lo hi s p : Forall (λ c, p c = true) (String.list_ascii_of_string alphabet) → drawn_text alphabet lo hi s = true →
  (lo <= String.length s <= hi)%nat ∧ str_all p s = true.
Proof.
  intros Hp [[H1%Nat.leb_le H2%Nat.leb_le]%andb_true_iff H3]%andb_true_iff. split; [lia | by eapply drawn_chars].
Qed.

(** Stripping hyphens leaves none at the ends. *)
Lemma strip_ends p s : strip_by p s = "" ∨
  (∃ c r, strip_by p s = String c r ∧ p c = false) ∧ (∃ r c, strip_by p s = r +:+ String c "" ∧ p c = false).
Proof.
  assert (Hr : ∀ t, rstrip_by p t = "" ∨ ∃ r c, rstrip_by p t = r +:+ String c "" ∧ p c = false).
  { induction t as [|c t [IH|(r & d & IH & Hd)]]; simpl; [by left| |].
    - rewrite IH. destruct (p c) eqn:E; [by left|]. right. by exists "", c.
    - right. exists (String c r), d. rewrite IH. split; [|done]. by destruct r. }
  assert (Hl : ∀ t, lstrip_by p t = "" ∨ ∃ c r, lstrip_by p t = String c r ∧ p c = false).
  { induction t as [|c t IH]; simpl; [by left|]. destruct (p c) eqn:E; [done|]. right. by exists c, t. }
  unfold strip_by. destruct (Hr (lstrip_by p s)) as [->|(r & c & E & Hc)]; [by left|]. right. split; [|by exists r, c].
  destruct (Hl s) as [E'|(d & t & E' & Hd)]; rewrite E' in E |- *.
  - by destruct r.
  - exists d. simpl. destruct (rstrip_by p t); [rewrite Hd; by eexists | by eexists].
Qed.

(** ** Theorems *)

(** The strategies build valid value objects of whatever Hypothesis draws: an address is kept
    as drawn and its domain is the one drawn; an amount that may not be negative, in a
    currency of the list, is money of that amount. *)
Theorem strategies_valid u d t min_value max_value a c uuid :
  drawn_text user_alphabet 2 16 u = true → drawn_text user_alphabet 2 10 d = true → drawn_text ascii_lowercase 2 4 t = true →
  (0 <= min_value)%Q → drawn_amount min_value max_value a → c ∈ money_currencies None → uuid ≠ "" →
  let s := u +:+ "@" +:+ d +:+ "." +:+ t in
  email_strategy u d t = Return s ∧ Email_domain s = Return (d +:+ "." +:+ t) ∧
  money_strategy a c = Return (mkMoney a c) ∧ entity_id_strategy uuid = Return uuid.
Proof.
  intros Hu Hd Ht Hmin [_ [Ha _]] Hc Hid s.
  assert (Hua : Forall (λ c, is_slug_char c = true) (String.list_ascii_of_string user_alphabet)) by (vm_compute; repeat constructor).
  assert (Hta : Forall (λ c, is_lower c = true) (String.list_ascii_of_string ascii_lowercase)) by (vm_compute; repeat constructor).
  destruct (drawn_spec _ _ _ _ _ Hua Hu) as [Lu Cu]. destruct (drawn_spec _ _ _ _ _ Hua Hd) as [Ld Cd]. destruct (drawn_spec _ _ _ _ _ Hta Ht) as [Lt Ct].
  destruct (plain_email u d t) as [H1 H2]; [by intros -> | by intros -> | lia | done..|].
  split_and!; [exact H1 | exact H2| |].
  - unfold money_strategy, Money_init.
    assert (is_iso4217 c = true) as ->.
    { assert (Hall : Forall (λ c, is_iso4217 c = true) COMMON_CURRENCIES) by (vm_compute; repeat constructor). rewrite Forall_forall in Hall. by apply Hall. }
    destruct (dec_is_neg a) eqn:E; [|done]. apply dec_is_neg_val in E. lra.
  - unfold entity_id_strategy, StrId_init. by rewrite (proj2 (String.eqb_neq uuid "") Hid).
Qed.

(** A generated address is valid under every domain of small letters and digits. *)
Theorem email_gen_valid {W} choices `{!Chooses (W := W) choices} d t w :
  d ≠ "" → (2 <= String.length t)%nat → str_all is_slug_char d = true → str_all is_lower t = true →
  ∃ s w', email_gen choices (d +:+ "." +:+ t) w = (Return s, w') ∧ Email_init s = Return s ∧ Email_domain s = Return (d +:+ "." +:+ t).
Proof.
  intros Hd Hl Cd Ct. destruct (choices_ok ascii_lowercase 8 w ltac:(done)) as (u & w' & Hc & Hn & Hu).
  assert (Hua : Forall (λ c, is_slug_char c = true) (String.list_ascii_of_string ascii_lowercase)) by (vm_compute; repeat constructor).
  destruct (plain_email u d t) as [H1 H2]; [by intros -> | done | done | by eapply drawn_chars | done | done|].
  eexists _, w'. split; [|split; [exact H1 | exact H2]]. unfold email_gen, mbind, PyM_bind. by rewrite Hc.
Qed.

(** A generated slug has no hyphen at its ends, only the characters of slugs, and at most the length asked for;
    but it may be empty or have hyphens in a row, and then it is not a [Slug]. *)
Theorem slug_gen_shape {W} choices `{!Chooses (W := W) choices} n w :
  (∃ s w', slug_gen choices n w = (Return s, w') ∧
     (s = "" ∨ (∃ c r, s = String c r ∧ Ascii.eqb c "-" = false) ∧ (∃ r c, s = r +:+ String c "" ∧ Ascii.eqb c "-" = false)) ∧
     str_all slug_or_hyphen s = true) ∧
  (∀ w', choices slug_alphabet_text 1%nat w = (Return "-", w') →
     ∃ e, fst ((slug_gen choices 1%nat ≫= λ s, from_outcome (Slug_init s)) w) = Raise e) ∧
  (∀ w', choices slug_alphabet_text 4%nat w = (Return "a--b", w') →
     ∃ e, fst ((slug_gen choices 4%nat ≫= λ s, from_outcome (Slug_init s)) w) = Raise e).
Proof.
  split_and!.
  - destruct (choices_ok slug_alphabet_text n w ltac:(done)) as (s & w' & Hc & _ & Hs).
    exists (strip_by (λ c, Ascii.eqb c "-") s), w'. split_and!; [unfold slug_gen, mbind, PyM_bind; by rewrite Hc | apply strip_ends|].
    unfold strip_by. apply str_all_rstrip, str_all_lstrip. eapply drawn_chars; [|exact Hs]. vm_compute. repeat constructor.
  - intros w' Hc. unfold slug_gen, mbind, PyM_bind. rewrite Hc. by eexists.
  - intros w' Hc. unfold slug_gen, mbind, PyM_bind. rewrite Hc. by eexists.
Qed.

(** Generated money is never negative for bounds that are not, and counts the number drawn in
    whole units of the currency, not in its hundredths. *)
Theorem money_gen_units {W} choice randint lo hi (w : W) n w1 c w2 :
  (0 <= lo)%Z → randint lo hi w = (Return n, w1) → (lo <= n <= hi)%Z → choice ["EUR"; "USD"; "GBP"] w1 = (Return c, w2) → c ∈ ["EUR"; "USD"; "GBP"] →
  ∃ m, money_gen choice randint lo hi w = (Return m, w2) ∧ (dec_val (amount m) == inject_Z n)%Q ∧ currency m = c.
Proof.
  intros Hlo Hr Hn Hc Hin. exists (mkMoney (mkDec n 0) c). split_and!; [|unfold dec_val; simpl; ring|done].
  unfold money_gen, mbind, PyM_bind. rewrite Hr, Hc. unfold from_outcome, Money_init.
  assert (is_iso4217 c = true) as ->.
  { assert (Hall : Forall (λ c, is_iso4217 c = true) ["EUR"; "USD"; "GBP"]) by (vm_compute; repeat constructor). rewrite Forall_forall in Hall. by apply Hall. }
  unfold dec_is_neg. simpl. destruct (Z.ltb_spec n 0); [lia | done].
Qed.

(** ** Instance and witnesses *)

Fixpoint repeat_char (c : ascii) (n : nat) : string := match n with O => "" | S n => String c (repeat_char c n) end.
Definition demo_choices (alphabet : string) (n : nat) : PyM unit string := λ w,
  (Return (repeat_char (default "a"%char (String.get 0 alphabet)) n), w).

#[local] Instance demo_choices_ok : Chooses demo_choices.
Proof.
  split. intros [|c alphabet] n w Ha; [done|]. eexists _, w. split; [done|]. simpl.
  induction n as [|n [IH1 IH2]]; [done|]. simpl. split; [by rewrite IH1|]. rewrite IH2, andb_true_r. apply bool_decide_eq_true_2. left.
Defined.

Lemma strategies_valid_witness : email_strategy "ab" "cd" "ef" = Return "ab@cd.ef".
Proof.
  apply (strategies_valid "ab" "cd" "ef" 0 100 (mkDec 250 (-2)) "EUR" "u"); try (vm_compute; reflexivity).
  - discriminate.
  - split; [reflexivity|]. split; vm_compute; discriminate.
  - unfold money_currencies. simpl. set_solver.
  - discriminate.
Defined.

Lemma email_gen_valid_witness :
  ∃ s w', email_gen demo_choices "example.com" tt = (Return s, w') ∧ Email_init s = Return s.
Proof.
  destruct (email_gen_valid demo_choices "example" "com" tt) as (s & w' & H & He & _); [discriminate | simpl; lia | reflexivity | reflexivity|].
  exists s, w'. split; [exact H | exact He].
Defined.

Lemma slug_gen_shape_witness :
  ∃ s w', slug_gen demo_choices 8 tt = (Return s, w') ∧ str_all slug_or_hyphen s = true.
Proof. destruct (proj1 (slug_gen_shape demo_choices 8 tt)) as (s & w' & H & _ & Hs). by exists s, w'. Defined.

Lemma money_gen_units_witness :
  ∃ m, money_gen (λ _ w, (Return "USD", w)) (λ lo _ w, (Return lo, w)) 250 1000 tt = (Return m, tt) ∧ (dec_val (amount m) == 250)%Q.
Proof.
  destruct (money_gen_units (λ _ w, (Return "USD", w)) (λ lo _ w, (Return lo, w)) 250 1000 tt 250 tt "USD" tt) as (m & H & Hv & _);
    [lia | reflexivity | lia | reflexivity | set_solver|].
  exists m. split; [exact H | exact Hv].
Defined.
